(* ===== verification/_CoqProject ===== *)
-Q . S2P
Prelude.v
PyBytes.v
PyJson.v
PyJsonCanon.v
PyDatetime.v
PyFloat.v
PyFloatOrder.v
PyFloatRange.v
PyRepr.v
PyHoare.v
PyStore.v
PyBase64.v
PySort.v
BillingSchema.v
BillingTransitions.v
BillingMachine.v
BillingConcurrency.v
BillingScenarios.v
BillingSync.v
BillingBridge.v
BillingHub.v
TrustLedger.v
IdentityStore.v
ResponsibilityGraph.v
ScanQueue.v
SettlementEngine.v
PaymentCycle.v
EscrowDb.v
CapacityLedger.v
Vouchers.v
PaymentCodes.v
ProgressReceipts.v
AutoArbitration.v
SettlementRoutes.v
ArbitrationPool.v
EscrowFlow.v
EscrowLedger.v
EscrowSettlements.v
EscrowRuns.v
EscrowVouchers.v
EscrowVotes.v
EscrowProgress.v
RuntimeKeys.v
RuntimeGateway.v
GatewayRuns.v
Confirmations.v
ConfirmationRuns.v
AcceptFulfillment.v
AcceptRuns.v
Reputation.v
ReputationRuns.v
WashTrades.v
DeliveryVerification.v
DeliveryRuns.v
ImportantFields.v
FieldsCapture.v
FieldsRuns.v
AgentBoundary.v
BoundaryRuns.v
IntentFulfillment.v
IntentRuns.v
CommerceOrders.v
CommercePipeline.v
VerifierNetwork.v
