(* ===== verification/Prelude.v ===== *)
(** * Karma / Trust-Chain: verification development (root file)

    Karma is a Python system in which software agents buy work from each other:
    it bills tasks, keeps receipts and anchors them in Merkle trees, guards
    settlements, runs orders of a mini-app shop, and lets a network of verifiers
    attest evidence before money moves.  This library is a shallow embedding of
    the parts that decide: pure functions are functions, code that mutates
    objects or raises is the monad [M] of this file (a state in, the state it
    leaves and its outcome out, mutations kept when it raises), a coroutine is a
    program counter over its suspension points.  Every definition is
    executable; examples and witnesses evaluate them.

    ** Files, in dependency order

    - [Prelude]: the monad and its notations, Python's indexing, text and dict
      operations, shared lemmas.
    - [PyBytes], [PyJson], [PyJsonCanon], [PyDatetime], [PyFloat], [PyRepr]: the library
      functions the code calls, as executable functions: UTF-8, SHA-256 and HMAC
      (checked on published vectors), [json.dumps] and its injectivity on values
      up to key order, UTC datetimes with [isoformat] and [fromisoformat],
      binary64 arithmetic on the Standard Library's [SpecFloat], the [repr] of
      floats and texts; [PyBase64]: the url-safe alphabet with Python's lenient
      decoder.
    - [PyHoare]: rules for properties that operations of the monad keep, with the
      tactic [keep]; [PySort]: stable sorting, for [sorted] and [ORDER BY].
    - [PyStore]: a dict of the process that is written whole to a file after each
      change, the store of [Confirmations], [DeliveryVerification], [FieldsCapture]
      and [AgentBoundary].  The class [store_inv] says when a property of the entries
      is kept by what happens to such a store (writes, restarts, failing disks);
      [everywhere] and [holds] are its instances for all entries and for one.
    - The billing package, [src/packages/karma_billing/]:
      [BillingSchema] ([schema.py]), [BillingTransitions]
      ([state_transitions.py]), [BillingMachine] and [BillingConcurrency]
      ([state_machine.py]), [BillingScenarios] ([scenarios/]), [BillingSync]
      ([sync_service.py]), [BillingBridge] ([bridge.py]), [BillingHub]
      ([ws_hub.py]).  The machine is proved against the class [AuditLog] with its
      laws [AuditLogLaws], which [InMemoryAuditLog] discharges; the bridge uses
      the class [ReceiptSync], with [SimpleMemReceiptSync] as instance.
    - [TrustLedger]: [src/services/identity_gateway/state_machine.py] and the
      [save] and [load] of [src/services/persist_json.py] under it.
    - [IdentityStore]: [src/services/identity_gateway/store.py].  It is proved
      against the class [CredentialLedger], which [TrustLedger] implements.
    - [ResponsibilityGraph] and [ScanQueue]: the two halves of
      [src/services/responsibility_graph.py], the graph of authorisations with its
      signals and scores, and the queue of scan runs over it, each operation in
      a session of [src/db/session.py].
    - [SettlementEngine]: statuses and transition table of
      [src/core/schemas.py], [src/core/settlement/engine.py], the store of
      [src/db/stores/settlement_store.py] and the audited transition of
      [src/services/settlement_transitions.py].
    - [PaymentCycle]: [src/services/settlement_cycle_guard.py].
    - The escrow: requests of [src/api/routes/] over one database.
      [EscrowDb] (tables of [src/db/models/orm.py], a session per request),
      [CapacityLedger] ([capacity.py], [src/services/capacity_ledger.py],
      [capacity_resolution.py], [profile_capacity.py], [runtime_safety.py]),
      [Vouchers] ([vouchers.py], [payment_codes.py],
      [src/services/voucher_lifecycle.py]), [PaymentCodes] ([payment_codes.py],
      [src/services/voucher_preauth.py], [agent_automation_policy.py]), [ProgressReceipts] ([progress.py],
      [src/services/progress_curve.py], [receipt_guard.py]), [AutoArbitration]
      ([src/services/auto_arbitration_rules.py]), [SettlementRoutes]
      ([settlement.py]), [ArbitrationPool] ([arbitration.py]).  [EscrowFlow] puts
      the requests together ([escrow_op], [escrow_step], [escrow_run]);
      [EscrowLedger] and [EscrowRuns] hold the theorems about capacities and
      settlements in runs, the latter over the abstract machine of
      [EscrowSettlements] ([smove]); [EscrowVouchers], [EscrowVotes] and
      [EscrowProgress] those about vouchers, arbitration cases and progress
      receipts.  Each follows an operation with the rules of [PyHoare] up to what
      writes its own tables ([walk_until]), everything else being a frame.
    - The runtime gateway, over the escrow: [RuntimeKeys]
      ([src/services/runtime_key_service.py], [runtime_daily_spend.py],
      [runtime_wallet.py], [identity_wallet_binding.py], [path_param_safety.py]),
      [RuntimeGateway] ([src/api/routes/runtime_gateway.py] with the API keys of
      [src/api/middleware/auth.py]); [GatewayRuns] holds its theorems.
    - What stands between an intent and its money, all under [src/services/]:
      [Confirmations] ([human_confirmation_policy.py]), the steps of a trade that need
      an owner's yes, with [ConfirmationRuns]; [AcceptFulfillment]
      ([accept_fulfillment.py]), the ledger of accepted, rejected and missed orders over
      those sessions, with [AcceptRuns]; [ImportantFields]
      ([important_fields_standard.py]), the fields both sides must agree on, and
      [FieldsCapture] ([important_fields_crypto.py], [important_fields_capture.py]), their
      sealed copies, with [FieldsRuns]; [DeliveryVerification]
      ([delivery_verification.py]), how a delivery is proved, with [DeliveryRuns];
      [AgentBoundary] ([agent_boundary.py], [agent_boundary_verify.py]), the card in
      which an agent says what it does and asks, with [BoundaryRuns].
      [IntentFulfillment] (the gates of [intent_fulfillment.py]) composes cards,
      acceptances, sessions and captures over one state, and [IntentRuns] its theorems
      from theirs.
    - [Reputation]: [src/services/wash_trade.py], [agent_trust.py],
      [identity_reputation.py], [reputation_pack.py] and
      [miniapp_trust/reputation.py]; [ReputationRuns] and [WashTrades] hold its
      theorems, over the facts on floats of [PyFloatOrder] and [PyFloatRange].
    - [CommerceOrders]: [src/services/miniapp_commerce/orders.py],
      [timeout_sweep.py] and the bills of [pipeline.py]; [CommercePipeline]: the
      quotes, negotiations and intent packages of [pipeline.py].
    - [VerifierNetwork]: [src/decentralized_verifier/attestation/aggregator.py]
      with the checks of [signer.py], and [challenge/window.py].

    ** State and operations

    Each component has a record for the state its Python object or module keeps
    ([ImmutableBillingStateMachine], [ReceiptSyncService], [AnchoringBridge],
    [trust], [id_store], [graph], [queue_db], [settlement_world], [world],
    [gateway], [confirmations], [accept_world], [deliveries], [captures], [boundaries],
    [fulfil_world], [reputation_world], [commerce], [pipeline], [window_world]) and one
    definition per function or method, named after it.  A dict is a [gmap], or
    an association list where its order shows (registry, orders, ledger); a dict
    of mutable objects is replaced under its key when an object is mutated.
    Where several operations are composed, an inductive type of operations
    ([machine_op], [trust_op], [id_op], [graph_op], [queue_op], [escrow_op],
    [gateway_op], [confirmation_op], [accept_op], [delivery_op], [capture_op],
    [boundary_op], [fulfil_op], [reputation_op], [commerce_op], [pipeline_op]) with a step and a
    run function gives the reachable states, and invariants are proved by
    induction over runs.  The clock, fresh tokens and the health of the disk are
    part of the state or arguments, never fixed.

    ** What the theorems show

    - Billing machine: the history of a task is a chain of allowed transitions
      from [INITIATED] and nothing ever rewrites the log; [execute_transition]
      on every branch; [SETTLED] is final; anchors are requested exactly when
      due; histories are bounded; the tables have no dead end and agree with
      [is_transition_allowed]; a task driven along its path settles.
    - Concurrency: every interleaving of calls under the per-task lock is the
      sequential run of the calls in the order of their decisions, with the
      same outcomes; the chain property holds at every instant; no
      interleaving deadlocks and six turns per call complete it.
    - Hashing: payload and leaf hashes, Merkle roots, ledger heads and intent
      digests commit to what they hash.  Each such theorem concludes with the
      equality of the hashed values or a collision between the very inputs that
      were hashed; nothing is assumed about SHA-256 or HMAC.
    - Synchronisation and anchoring: the three routes of [sync] fail
      independently; anchors are triggered at the multiples of the threshold;
      accepted batches and pending receipts are together the receipts of a
      task, each once and in order, whatever the anchor client refuses.
    - Trust ledger: the chain stays intact through truncation, failed writes and
      restarts, and both lists keep their bounds.
    - Identities: the verification level of an identity is the one its verified
      credentials give, a binding code works once, and the links between
      identities and accounts hold in every run, restarts included.
    - Responsibility graph: its tables stay consistent, the signals of a new
      edge are those its position calls for, path features count exactly what
      is reachable, and the temporal report is its specification.
    - Scan queue: every operation refines guarded moves of single rows (who may
      move a run, and when), from which follow the shape of the rows, the
      protection of a lease and the bound on attempts; claims and the outcomes
      of executions are exact.
    - Settlement: the guards of [save], the audited transition on every branch,
      the cycle guard, whose search is exact and terminates, and the round trip
      of a settlement through its row.
    - Escrow, over every run of requests: the ledger stays anchored, so that
      its audit never trips; each request refines the guarded moves of an abstract
      machine of settlements, and from those follow that money goes out only on
      evidence or a decision, that final settlements stay as they are, that
      active payments form no cycle, and that decisions stay applied.  Vouchers
      keep their terms, use a nonce once and move only forwards, none
      pre-authorised staying undecided; an arbitrator votes once and a decision is
      the tally of its votes; progress receipts are only added and confirmed.
    - Gateway: what an agent sends changes the escrow only as one request of the
      escrow itself ([gateway_refines_escrow]), so that the invariants above hold behind
      it ([gateway_keeps]); agents act with the secret of an active key and within it,
      a key spends no more in a day than it may, a nonce is used once in its time,
      keys are issued on signed requests and revoked for good.
    - Confirmations: a step passes on the word of an owner only if the owner said
      yes to that step, in time and within the amount; a session is used once,
      through restarts and failed writes; and a yes that was given is good.
    - Acceptances: the counters of the ledger are the replay of a log of events
      ([ledger_tallies]), tiers follow the counts, and the sweep cancels and reports
      each session that is overdue, with an event in the ledger.
    - Deliveries: the state of a parcel is that of an abstract machine reading its
      log; a settlement passes only where the parcel was handed over and accepted;
      a tagged photo answers a challenge that was issued in time; a refused request
      changes nothing, a refused settlement gate only what its looks do by themselves.
    - Important fields: a match means that buyer and seller each sealed the fields
      the protocol had locked, it is not undone, a nonce seals once, and what was
      sealed opens to what it was (AES-GCM being a parameter with its law).
    - Cards of agents: each stored card asks the owner just what the catalogue asks in
      its first scene, and says that it is complete just when it is; a verification
      passes exactly the cards of its specification ([verified_iff]); the hash of a
      card commits to it.
    - Gates of a fulfilment: an intent that is cleared has every yes its scene asks
      of the owners and the agreement of the fields ([cleared_by_owners]), and a seller
      whose card covers the scene ([cleared_seller_carded]); to the
      sessions a fulfilment is a run of their own requests, no decision among them
      ([fulfilments_refine_confirmations]).
    - Reputation: scores and counts keep their ranges whatever amounts come in; an
      incident keeps a reputation from the chain for its time; the query that judges a
      trade reads all that matters; in the mini-app two parties are credited only so
      often in a window, and not in both directions.
    - Commerce: histories of orders follow an abstract order machine (a
      refinement), locked money was checked against limits that still hold, the
      sweep refunds exactly the stalled orders, package statuses tell who
      signed, and quotes match the negotiations about them.
    - Verifiers: a quorum counts distinct active verifiers over one evidence
      hash, and settlement waits for the window and for every challenge.

    Some theorems state what the code does where that is not what its comments
    promise (a gateway that protected routes shut, launches that pass the daily
    limit, the hub that never delivers, failed writes nobody notices, a
    dispute that never settles, verification that reopens an order, one yes of an
    owner that passes every later order of the pair whatever its amount, specs of a
    seller whose errors nobody reads, a seller in the class of users who covers every
    scene, one timeout of a seller that cancels every later order of the pair).

    ** Bounds and fuel

    The Merkle loop runs with the binary logarithm of the number of leaves as
    fuel and [compute_root_total] shows that this always suffices.  The payment
    search has one unit per edge and one more, which [cycle_search_exact] shows
    to be enough.  The cycle search and the walk of the responsibility graph have
    one unit per edge and hop ([cycle_fuel], [walk_fuel]); [cycle_search_total]
    and [path_features_exact] show that they end.  [LEDGER_MAX] (100000) and [ALERTS_MAX] (10000) are the
    constants of the code, and so are the 2000 nonces and ten minutes of a replay
    bucket.  A concurrent call needs at most six turns
    ([concurrent_calls_complete]).

    ** Limits of the model

    Text is restricted to code points below 256, one [ascii] each.  Python
    integers are [Z]; floats are binary64.  JSON payloads hold no floats.
    A settlement request takes as arguments what services outside the model
    answer (the delivery and confirmation gates, faults after the last change);
    the sum a database computes, wallet signatures and fresh identifiers are
    parameters of the escrow, and its identifiers are drawn from an injective
    supply.  Parameters stand for code outside the repository or for entropy: the anchor
    client, ECDSA recovery, callbacks and database hooks, pydantic's
    [model_dump], AES-GCM and HKDF, [json.loads] of sealed bytes, random tokens, keys.
    The catalogues of scenes (JSON files) and the policies saved for an agent are
    arguments too.  The gates of a fulfilment take as arguments the scene that is
    inferred from the text of the intent and the seller's row in the directory.
    Threads: the modules guarded by one lock
    are modelled one call at a time; only the billing machine, whose calls
    suspend inside their lock, has a model of interleavings.  Not modelled:
    cancellation of coroutines, logging, presentation (labels, views), HTTP
    clients, routes other than those of the escrow and the gateway, the SQLAlchemy unit of work (a store is a map, or a list
    of rows in insertion order, with its constraints, and a session commits or
    rolls back as a whole; rows that an [ORDER BY] leaves tied keep that order,
    and whether [NULL]s come first is a parameter; the clock is read once per
    operation), texts shown to users, the smart contracts, the TypeScript packages and the browser
    console.

    ** Not modelled

    What follows the gates of a fulfilment (the rows of vouchers and settlements are
    those of the escrow, written there by other routes) and the discovery before
    them; interleavings of the anchoring bridge around [append_batch], whose calls
    hold no lock that would make them atomic; the reports of the arbitration pool and
    the statistics and alerts of the scan queue, which are read-only views; settlement
    attestations, EIP-712 vouchers and sign-in challenges, whose core is the hashing
    and recovery of a signature library that the sources do not contain; verifier rules,
    the mini-app registry, the directory of agents with its onboarding and readiness
    checks, the pipelines of trades, the chain adapters and the HTTP glue: components of
    their own, which the modelled ones call only through the arguments named above. *)

From Stdlib Require Export ZArith Lia String Ascii List Bool.
From Stdlib Require Import DecimalString DecimalZ.
From stdpp Require Export base decidable gmap strings list fin_maps.

Export ListNotations.
#[export] Set Default Goal Selector "!".

(** ** Python control flow: results, exceptions and mutable state

    A Python operation either returns or raises; in both cases the objects it
    mutated keep the mutations made so far.  An operation is therefore a
    function from the state to the state it leaves and its outcome. *)

Inductive outcome (E A : Type) : Type :=
| Ret (a : A)
| Raise (e : E).
Arguments Ret {E A} _.
Arguments Raise {E A} _.

(** The built-in exceptions the modelled code raises; components with their own
    exception classes use their own type. *)
Inductive py_exn : Type :=
| KeyError (msg : string)
| ValueError (msg : string)
| TypeError (msg : string)
| PermissionError (msg : string)
| ZeroDivisionError
| HTTPException (status : Z) (detail : string).

#[export] Instance py_exn_eq_dec : EqDecision py_exn.
Proof. solve_decision. Defined.

#[export] Instance outcome_eq_dec {E A} `{EqDecision E, EqDecision A} :
  EqDecision (outcome E A).
Proof. solve_decision. Defined.

Definition M (S E A : Type) : Type := S -> S * outcome E A.

Section Monad.
Context {S E : Type}.

Definition py_ret {A} (a : A) : M S E A := fun s => (s, Ret a).
Definition py_raise {A} (e : E) : M S E A := fun s => (s, Raise e).
Definition py_bind {A B} (m : M S E A) (k : A -> M S E B) : M S E B :=
  fun s => match m s with
           | (s', Ret a) => k a s'
           | (s', Raise e) => (s', Raise e)
           end.
Definition py_get : M S E S := fun s => (s, Ret s).
Definition py_modify (f : S -> S) : M S E unit := fun s => (f s, Ret tt).
Definition py_when (b : bool) (m : M S E unit) : M S E unit :=
  if b then m else py_ret tt.
(** [if not cond: raise e] *)
Definition py_require (cond : bool) (e : E) : M S E unit :=
  if cond then py_ret tt else py_raise e.
End Monad.

Declare Scope py_scope.
Delimit Scope py_scope with py.
Notation "'let!' x := m 'in' k" := (py_bind m (fun x => k))
  (at level 10, x name, m at level 100, k at level 200) : py_scope.
Notation "m ;;; k" := (py_bind m (fun _ => k))
  (at level 100, k at level 200, right associativity) : py_scope.

(** The state an operation leaves, and what it returned. *)
Definition run_state {S E A} (m : M S E A) (s : S) : S := (m s).1.
Definition run_outcome {S E A} (m : M S E A) (s : S) : outcome E A := (m s).2.

Definition is_ret {E A} (o : outcome E A) : bool :=
  match o with Ret _ => true | Raise _ => false end.

(** ** Python sequences and strings *)

(** [l[i:]] and [l[:i]] with Python's treatment of negative and out-of-range
    indices. *)
Definition py_index {A} (i : Z) (l : list A) : nat :=
  let n := Z.of_nat (length l) in
  Z.to_nat (Z.max 0 (if (i <? 0)%Z then (n + i)%Z else Z.min i n)).
Definition py_from {A} (i : Z) (l : list A) : list A := drop (py_index i l) l.
Definition py_upto {A} (i : Z) (l : list A) : list A := take (py_index i l) l.

(** [str(n)] for an [int]. *)
Definition py_str_int (z : Z) : string := NilEmpty.string_of_int (Z.to_int z).

(** Strings stand for Python [str] values whose code points are below 256: one
    [ascii] per code point. *)
Definition str_upto (n : nat) (s : string) : string := substring 0 n s.

(** [str.lower] on that range. *)
Definition lower_ascii (c : ascii) : ascii :=
  let n := nat_of_ascii c in
  if ((65 <=? n) && (n <=? 90) || ((192 <=? n) && (n <=? 222) && negb (n =? 215)))%nat
  then ascii_of_nat (n + 32) else c.
Fixpoint py_lower (s : string) : string :=
  match s with
  | EmptyString => EmptyString
  | String c r => String (lower_ascii c) (py_lower r)
  end.

(** [str.strip] on that range. *)
Definition is_space (c : ascii) : bool :=
  let n := nat_of_ascii c in
  (((9 <=? n) && (n <=? 13)) || ((28 <=? n) && (n <=? 32)) || (n =? 133) || (n =? 160))%nat.
Fixpoint py_lstrip (s : string) : string :=
  match s with
  | EmptyString => EmptyString
  | String c r => if is_space c then py_lstrip r else s
  end.
Fixpoint py_rstrip (s : string) : string :=
  match s with
  | EmptyString => EmptyString
  | String c r =>
      match py_rstrip r with
      | EmptyString => if is_space c then EmptyString else String c EmptyString
      | r' => String c r'
      end
  end.
Definition py_strip (s : string) : string := py_rstrip (py_lstrip s).

(** [str.isascii] *)
Fixpoint py_isascii (s : string) : bool :=
  match s with
  | EmptyString => true
  | String c r => (nat_of_ascii c <? 128)%nat && py_isascii r
  end.

Example py_strip_ex : py_strip "  a b " = "a b".
Proof. reflexivity. Qed.

Definition str_eqb (a b : string) : bool := bool_decide (a = b).
Definition str_mem (x : string) (l : list string) : bool := bool_decide (x ∈ l).

Lemma str_eqb_refl x : str_eqb x x = true.
Proof. by apply bool_decide_eq_true. Qed.
Lemma str_eqb_ne x y : x <> y -> str_eqb x y = false.
Proof. intros H. by apply bool_decide_eq_false. Qed.

(** [s] without the prefix [p], if it has it. *)
Fixpoint after_prefix (p s : string) : option string :=
  match p, s with
  | EmptyString, _ => Some s
  | String c p', String d s' => if Ascii.eqb c d then after_prefix p' s' else None
  | String _ _, EmptyString => None
  end.
Definition starts_with (p s : string) : bool := match after_prefix p s with Some _ => true | None => false end.
(** [s.endswith(p)] and [p in s] *)
Definition ends_with (p s : string) : bool :=
  (String.length p <=? String.length s)%nat && str_eqb (substring (String.length s - String.length p) (String.length p) s) p.
Fixpoint str_in (p s : string) : bool :=
  starts_with p s || match s with EmptyString => false | String _ r => str_in p r end.
(** [s.replace(p, "")] for a [p] that is not empty; [skip] characters are still of a match. *)
Fixpoint remove_all (p : string) (skip : nat) (s : string) : string :=
  match s with
  | EmptyString => ""
  | String c r =>
      match skip with
      | S k => remove_all p k r
      | O => if starts_with p s then remove_all p (String.length p - 1) r else String c (remove_all p 0 r)
      end
  end.


(** Truthiness of an optional string: [None] and [""] are falsy. *)
Definition truthy_str (o : option string) : bool :=
  match o with Some s => negb (str_eqb s "") | None => false end.

(** ** Generic lemmas *)

Create HintDb karma.

(** [injection] for lists that does not reduce the elements. *)
Lemma cons_eq {A} (x y : A) l k : x :: l = y :: k -> x = y /\ l = k.
Proof. intros H. inversion H. auto. Qed.

Lemma Zint_inj (a b : Z) : Z.to_int a = Z.to_int b -> a = b.
Proof. intros H. rewrite <- (DecimalZ.of_to a), <- (DecimalZ.of_to b), H. reflexivity. Qed.

Lemma py_str_int_inj (a b : Z) : py_str_int a = py_str_int b -> a = b.
Proof.
  unfold py_str_int. intros H.
  apply (f_equal NilEmpty.int_of_string) in H.
  rewrite !NilEmpty.isi in H. injection H as H. by apply Zint_inj.
Qed.

(** ** The separator [|]

    It does not occur in [s]. *)
Fixpoint no_bar (s : string) : bool :=
  match s with
  | EmptyString => true
  | String c r => negb (bool_decide (c = "|"%char)) && no_bar r
  end.

Lemma bar_split a : forall a' b b',
  no_bar a = true -> no_bar a' = true ->
  (a ++ "|" ++ b)%string = (a' ++ "|" ++ b')%string -> a = a' /\ b = b'.
Proof.
  induction a as [|c a IH]; intros [|c' a'] b b' Ha Ha' H; cbn in *.
  - by injection H.
  - injection H as <- _. by rewrite bool_decide_true in Ha'.
  - injection H as -> _. by rewrite bool_decide_true in Ha.
  - injection H as -> H. apply andb_prop in Ha as [_ Ha], Ha' as [_ Ha'].
    destruct (IH _ _ _ Ha Ha' H). by subst.
Qed.

Example py_str_int_0 : py_str_int 0 = "0" /\ py_str_int (-42) = "-42".
Proof. by vm_compute. Qed.

(** ** Dicts and membership *)

(** [d.get(k)] on a dict keyed by an enumeration. *)
Fixpoint dict_get {K V} `{EqDecision K} (k : K) (d : list (K * V)) : option V :=
  match d with
  | [] => None
  | (k', v) :: r => if bool_decide (k = k') then Some v else dict_get k r
  end.

Definition mem {K} `{EqDecision K} (x : K) (l : list K) : bool := bool_decide (x ∈ l).

Lemma mem_true {K} `{EqDecision K} (x : K) l : mem x l = true <-> x ∈ l.
Proof. apply bool_decide_eq_true. Qed.
Lemma mem_false {K} `{EqDecision K} (x : K) l : mem x l = false -> x ∉ l.
Proof. apply bool_decide_eq_false. Qed.
Lemma NoDup_map_filter {A B} (f : A -> B) (p : A -> bool) l :
  NoDup (map f l) -> NoDup (map f (List.filter p l)).
Proof.
  induction l as [|x l IH]; [done|]. cbn. intros [Hx Hl]%NoDup_cons. destruct (p x); cbn; [|by apply IH].
  apply NoDup_cons. split; [|by apply IH]. intros (y & Hy & Hin)%list_elem_of_fmap.
  apply Hx, list_elem_of_fmap. exists y. split; [done|].
  apply list_elem_of_In, filter_In in Hin as [Hin _]. by apply list_elem_of_In.
Qed.
Lemma NoDup_snoc {A} (l : list A) x : NoDup l -> x ∉ l -> NoDup (l ++ [x])%list.
Proof. intros Hl Hx. apply NoDup_app. split; [done|]. split; [|apply NoDup_singleton]. intros y Hy ->%list_elem_of_singleton. by apply Hx. Qed.

Lemma dict_get_app {K V} `{EqDecision K} (k : K) (d d' : list (K * V)) :
  dict_get k (d ++ d')%list = match dict_get k d with Some v => Some v | None => dict_get k d' end.
Proof.
  induction d as [|[k' v] d IH]; [done|]. cbn. by destruct (bool_decide (k = k')).
Qed.

Lemma dict_get_In {K V} `{EqDecision K} (k : K) (d : list (K * V)) v :
  dict_get k d = Some v -> In (k, v) d.
Proof.
  induction d as [|[k' v'] d IH]; [done|]. cbn.
  destruct (bool_decide (k = k')) eqn:Hb; [|by right; auto].
  apply bool_decide_eq_true in Hb as ->. intros [= ->]. by left.
Qed.

