(* ===== verification/PyBytes.v ===== *)
(** * Byte strings, UTF-8, hexadecimal, SHA-256 and HMAC

    The parts of Python's [bytes], [str.encode], [hashlib.sha256] and
    [hmac.new(..., hashlib.sha256)] the modelled code calls, as executable
    functions.  A byte string is a list of integers in [0, 256).  Nothing here
    models a file of the repository: these are the library functions the other
    files build on, checked against published test vectors. *)

From S2P Require Import Prelude.
#[local] Open Scope Z_scope.

Abbreviation bytes := (list Z).

Definition byte_ok (b : Z) : Prop := 0 <= b < 256.

(** ** [str.encode("utf-8")] on code points below 256 *)

Definition utf8_char (c : ascii) : bytes :=
  let n := Z.of_N (N_of_ascii c) in
  if n <? 128 then [n] else [Z.lor 192 (Z.shiftr n 6); Z.lor 128 (Z.land n 63)].

Fixpoint utf8 (s : string) : bytes :=
  match s with
  | EmptyString => []
  | String c r => utf8_char c ++ utf8 r
  end.

(** ** [bytes.hex()] *)

Definition hex_digit (n : Z) : ascii :=
  ascii_of_N (Z.to_N (if n <? 10 then 48 + n else 87 + n)).

Fixpoint hex (b : bytes) : string :=
  match b with
  | [] => EmptyString
  | x :: r => String (hex_digit (Z.shiftr x 4)) (String (hex_digit (Z.land x 15)) (hex r))
  end.

(** ** SHA-256 on 32-bit words *)

Definition w32 (x : Z) : Z := Z.land x 4294967295.
Definition add32 (x y : Z) : Z := w32 (x + y).
Definition rotr (n x : Z) : Z := Z.lor (Z.shiftr x n) (w32 (Z.shiftl x (32 - n))).

Definition big_sigma0 (x : Z) : Z := Z.lxor (rotr 2 x) (Z.lxor (rotr 13 x) (rotr 22 x)).
Definition big_sigma1 (x : Z) : Z := Z.lxor (rotr 6 x) (Z.lxor (rotr 11 x) (rotr 25 x)).
Definition small_sigma0 (x : Z) : Z := Z.lxor (rotr 7 x) (Z.lxor (rotr 18 x) (Z.shiftr x 3)).
Definition small_sigma1 (x : Z) : Z := Z.lxor (rotr 17 x) (Z.lxor (rotr 19 x) (Z.shiftr x 10)).
Definition ch (x y z : Z) : Z := Z.lxor (Z.land x y) (Z.land (Z.lxor x 4294967295) z).
Definition maj (x y z : Z) : Z := Z.lxor (Z.land x y) (Z.lxor (Z.land x z) (Z.land y z)).

Definition sha_k : list Z :=
  [1116352408; 1899447441; 3049323471; 3921009573; 961987163; 1508970993; 2453635748;
   2870763221; 3624381080; 310598401; 607225278; 1426881987; 1925078388; 2162078206;
   2614888103; 3248222580; 3835390401; 4022224774; 264347078; 604807628; 770255983;
   1249150122; 1555081692; 1996064986; 2554220882; 2821834349; 2952996808; 3210313671;
   3336571891; 3584528711; 113926993; 338241895; 666307205; 773529912; 1294757372;
   1396182291; 1695183700; 1986661051; 2177026350; 2456956037; 2730485921; 2820302411;
   3259730800; 3345764771; 3516065817; 3600352804; 4094571909; 275423344; 430227734;
   506948616; 659060556; 883997877; 958139571; 1322822218; 1537002063; 1747873779;
   1955562222; 2024104815; 2227730452; 2361852424; 2428436474; 2756734187; 3204031479;
   3329325298].

Record hstate := HS { ha : Z; hb : Z; hc : Z; hd : Z; he : Z; hf : Z; hg : Z; hh : Z }.

Definition sha_h0 : hstate :=
  HS 1779033703 3144134277 1013904242 2773480762 1359893119 2600822924 528734635 1541459225.

Definition be32 (x : Z) : bytes :=
  [Z.land (Z.shiftr x 24) 255; Z.land (Z.shiftr x 16) 255;
   Z.land (Z.shiftr x 8) 255; Z.land x 255].
Definition be64 (x : Z) : bytes := be32 (Z.shiftr x 32) ++ be32 (w32 x).

Definition sha_pad (m : bytes) : bytes :=
  let n := Z.of_nat (length m) in
  m ++ [128] ++ repeat 0 (Z.to_nat ((55 - n) mod 64)) ++ be64 (8 * n).

(** The 64-byte blocks of a padded message, as words; [fuel] is at least the
    number of blocks. *)
Fixpoint words (b : bytes) : list Z :=
  match b with
  | a :: b :: c :: d :: r =>
      Z.lor (Z.shiftl a 24) (Z.lor (Z.shiftl b 16) (Z.lor (Z.shiftl c 8) d)) :: words r
  | _ => []
  end.
Fixpoint blocks (fuel : nat) (w : list Z) : list (list Z) :=
  match fuel, w with
  | O, _ | _, [] => []
  | S f, _ => take 16 w :: blocks f (drop 16 w)
  end.

(** The message schedule, most recent word first. *)
Fixpoint schedule (n : nat) (rev_w : list Z) : list Z :=
  match n with
  | O => rev_w
  | S k =>
      let nth i := List.nth i rev_w 0 in
      let x := add32 (small_sigma1 (nth 1%nat))
                 (add32 (nth 6%nat) (add32 (small_sigma0 (nth 14%nat)) (nth 15%nat))) in
      schedule k (x :: rev_w)
  end.

Definition sha_round (s : hstate) (kw : Z * Z) : hstate :=
  let t1 := add32 (hh s) (add32 (big_sigma1 (he s))
              (add32 (ch (he s) (hf s) (hg s)) (add32 kw.1 kw.2))) in
  let t2 := add32 (big_sigma0 (ha s)) (maj (ha s) (hb s) (hc s)) in
  HS (add32 t1 t2) (ha s) (hb s) (hc s) (add32 (hd s) t1) (he s) (hf s) (hg s).

Definition sha_block (s : hstate) (w : list Z) : hstate :=
  let t := fold_left sha_round (combine sha_k (rev (schedule 48 (rev w)))) s in
  HS (add32 (ha s) (ha t)) (add32 (hb s) (hb t)) (add32 (hc s) (hc t)) (add32 (hd s) (hd t))
     (add32 (he s) (he t)) (add32 (hf s) (hf t)) (add32 (hg s) (hg t)) (add32 (hh s) (hh t)).

Definition hs_bytes (s : hstate) : bytes :=
  be32 (ha s) ++ be32 (hb s) ++ be32 (hc s) ++ be32 (hd s) ++
  be32 (he s) ++ be32 (hf s) ++ be32 (hg s) ++ be32 (hh s).

(** [hashlib.sha256(m).digest()] *)
Definition sha256 (m : bytes) : bytes :=
  let w := words (sha_pad m) in
  hs_bytes (fold_left sha_block (blocks (length w) w) sha_h0).

(** [hashlib.sha256(m).hexdigest()] *)
Definition sha256_hex (m : bytes) : string := hex (sha256 m).

(** [hmac.new(key, m, hashlib.sha256).digest()] *)
Definition hmac_key (key : bytes) : bytes :=
  let k := if (64 <? Z.of_nat (length key)) then sha256 key else key in
  k ++ repeat 0 (64 - length k)%nat.
Definition hmac_sha256 (key m : bytes) : bytes :=
  let k := hmac_key key in
  sha256 (map (Z.lxor 92) k ++ sha256 (map (Z.lxor 54) k ++ m)).
Definition hmac_hex (key m : bytes) : string := hex (hmac_sha256 key m).

(** Published test vectors. *)
Example sha256_abc :
  sha256_hex (utf8 "abc") = "ba7816bf8f01cfea414140de5dae2223b00361a396177a9cb410ff61f20015ad"%string.
Proof. by vm_compute. Qed.
Example sha256_empty :
  sha256_hex [] = "e3b0c44298fc1c149afbf4c8996fb92427ae41e4649b934ca495991b7852b855"%string.
Proof. by vm_compute. Qed.
Example sha256_two_blocks :
  sha256_hex (utf8 "abcdbcdecdefdefgefghfghighijhijkijkljklmklmnlmnomnopnopq")
  = "248d6a61d20638b8e5c026930c3e6039a33ce45964ff2167f6ecedd419db06c1"%string.
Proof. by vm_compute. Qed.
Example hmac_rfc4231_2 :
  hmac_hex (utf8 "Jefe") (utf8 "what do ya want for nothing?")
  = "5bdcc146bf60754e6a042426089575c75a003f089d2739839dec58b964ec3843"%string.
Proof. by vm_compute. Qed.

(** ** Facts used elsewhere *)

Arguments sha256 : simpl never.
Arguments sha256_hex : simpl never.
Arguments hmac_sha256 : simpl never.
Arguments hmac_hex : simpl never.

Lemma length_sha256 m : length (sha256 m) = 32%nat.
Proof. reflexivity. Qed.

Lemma land_255_ok x : byte_ok (Z.land x 255).
Proof.
  unfold byte_ok. change 255 with (Z.ones 8).
  rewrite Z.land_ones by lia. apply Z.mod_pos_bound. lia.
Qed.

Lemma be32_ok x : Forall byte_ok (be32 x).
Proof. repeat constructor; apply land_255_ok. Qed.

Lemma sha256_ok m : Forall byte_ok (sha256 m).
Proof. unfold sha256, hs_bytes. rewrite !Forall_app. repeat split; apply be32_ok. Qed.

Lemma sha256_hex_nonempty m : sha256_hex m <> EmptyString.
Proof. discriminate. Qed.
Lemma hmac_hex_eq k m : hmac_hex k m = hex (hmac_sha256 k m).
Proof. reflexivity. Qed.
Lemma sha256_hex_eq m : sha256_hex m = hex (sha256 m).
Proof. reflexivity. Qed.

Lemma hmac_ok k m : Forall byte_ok (hmac_sha256 k m).
Proof. apply sha256_ok. Qed.

#[global] Opaque sha256 hmac_sha256 sha256_hex hmac_hex.

(** A digest in hex holds no separator. *)
Lemma hex_digit_no_bar n : (0 <= n < 16)%Z -> hex_digit n <> "|"%char.
Proof.
  intros Hn. assert (H : forallb (fun k => negb (bool_decide (hex_digit (Z.of_nat k) = "|"%char))) (seq 0 16) = true)
    by by vm_compute.
  rewrite forallb_forall in H. specialize (H (Z.to_nat n)). rewrite Z2Nat.id in H by lia.
  apply negb_true_iff, bool_decide_eq_false in H; [done|]. apply in_seq. lia.
Qed.

Lemma hex_no_bar b : Forall byte_ok b -> no_bar (hex b) = true.
Proof.
  induction 1 as [|x b Hx Hb IH]; [done|]. cbn [hex no_bar]. unfold byte_ok in Hx.
  assert (0 <= Z.shiftr x 4 < 16)%Z.
  { rewrite Z.shiftr_div_pow2 by lia. split; [apply Z.div_pos; lia|].
    apply Z.div_lt_upper_bound; lia. }
  assert (0 <= Z.land x 15 < 16)%Z.
  { change 15%Z with (Z.ones 4). rewrite Z.land_ones by lia. apply Z.mod_pos_bound. lia. }
  rewrite !bool_decide_false by (by apply hex_digit_no_bar). by rewrite IH.
Qed.

(** Two given inputs that differ and have one digest.  Theorems about integrity
    conclude with a collision between inputs the code itself hashed; that some
    collision exists somewhere is no news. *)
Definition sha256_collides (x y : bytes) : Prop := x <> y /\ sha256 x = sha256 y.

Lemma sha256_inj_or_collides x y : sha256 x = sha256 y -> x = y \/ sha256_collides x y.
Proof. intros H. destruct (decide (x = y)) as [->|Hne]; [by left|by right]. Qed.

(** The same for the keyed hash. *)
Definition hmac_collides (k x y : bytes) : Prop :=
  x <> y /\ hmac_sha256 k x = hmac_sha256 k y.

(** A collision between an input of [l] and one of [l']. *)
Definition collision_between (l l' : list bytes) : Prop :=
  exists x y, x ∈ l /\ y ∈ l' /\ sha256_collides x y.

Lemma collision_between_mono l1 l1' l2 l2' :
  l1 ⊆ l2 -> l1' ⊆ l2' -> collision_between l1 l1' -> collision_between l2 l2'.
Proof. intros H H' (x & y & Hx & Hy & Hc). exists x, y. auto. Qed.

(** Concatenations of 32-byte digests split uniquely. *)
Lemma digest_app_inj (a b c d : bytes) :
  length a = length c -> a ++ b = c ++ d -> a = c /\ b = d.
Proof. apply app_inj_1. Qed.

Lemma hex_digit_inj n m : 0 <= n < 16 -> 0 <= m < 16 -> hex_digit n = hex_digit m -> n = m.
Proof.
  intros Hn Hm H. apply (f_equal N_of_ascii) in H. unfold hex_digit in H.
  rewrite !N_ascii_embedding in H by (repeat case_match; lia).
  repeat case_match; lia.
Qed.

Lemma nibbles_inj x y :
  byte_ok x -> byte_ok y -> Z.shiftr x 4 = Z.shiftr y 4 -> Z.land x 15 = Z.land y 15 -> x = y.
Proof.
  unfold byte_ok. intros Hx Hy. change 15 with (Z.ones 4).
  rewrite !Z.land_ones, !Z.shiftr_div_pow2 by lia. intros.
  rewrite (Z.div_mod x (2 ^ 4)), (Z.div_mod y (2 ^ 4)) by lia. congruence.
Qed.

Lemma hex_inj (a b : bytes) :
  Forall byte_ok a -> Forall byte_ok b -> hex a = hex b -> a = b.
Proof.
  revert b. induction a as [|x a IH]; intros [|y b] Ha Hb H; try done.
  inversion Ha as [|? ? Hx Ha']; inversion Hb as [|? ? Hy Hb']; subst.
  cbn [hex] in H. injection H as H1 H2 H3. unfold byte_ok in *.
  assert (Hr : forall z, 0 <= z < 256 -> 0 <= Z.shiftr z 4 < 16 /\ 0 <= Z.land z 15 < 16).
  { intros z Hz. change 15 with (Z.ones 4).
    rewrite Z.land_ones, Z.shiftr_div_pow2 by lia.
    split; [|apply Z.mod_pos_bound; lia].
    split; [apply Z.div_pos; lia | apply Z.div_lt_upper_bound; lia]. }
  destruct (Hr x Hx), (Hr y Hy).
  apply hex_digit_inj in H1, H2; try done.
  f_equal; [by apply nibbles_inj | by apply IH].
Qed.
Lemma hex_digest_binds x y : sha256_hex x = sha256_hex y -> x = y \/ sha256_collides x y.
Proof.
  rewrite !sha256_hex_eq. intros H%hex_inj; [|apply sha256_ok..]. by apply sha256_inj_or_collides.
Qed.

#[export] Hint Resolve sha256_ok : karma.

(** ** UTF-8 is a prefix code *)

Definition utf8_decode (b : bytes) : option ascii :=
  match b with
  | [x] => Some (ascii_of_N (Z.to_N x))
  | [x; y] => Some (ascii_of_N (Z.to_N (Z.lor (Z.shiftl (Z.land x 3) 6) (Z.land y 63))))
  | _ => None
  end.

Lemma utf8_char_shape c :
  utf8_decode (utf8_char c) = Some c
  /\ exists x, (utf8_char c = [x] /\ x < 128) \/ (exists y, utf8_char c = [x; y] /\ 128 <= x).
Proof.
  destruct c as [[] [] [] [] [] [] [] []]; (split; [reflexivity|]);
    eexists; ((left; split; [vm_compute; reflexivity|lia])
              || (right; eexists; split; [vm_compute; reflexivity|lia])).
Qed.

Lemma utf8_char_app_inj c d x y :
  utf8_char c ++ x = utf8_char d ++ y -> c = d /\ x = y.
Proof.
  destruct (utf8_char_shape c) as [Hc (u & Sc)], (utf8_char_shape d) as [Hd (v & Sd)].
  intros H. assert (Heq : utf8_char c = utf8_char d).
  { destruct Sc as [[Ec ?]|(? & Ec & ?)], Sd as [[Ed ?]|(? & Ed & ?)];
      rewrite Ec, Ed in H; injection H; intros; subst; rewrite Ec, Ed; done || lia. }
  rewrite Heq in H. apply app_inv_head in H. split; [congruence|done].
Qed.

Lemma utf8_inj a : forall b, utf8 a = utf8 b -> a = b.
Proof.
  induction a as [|c a IH]; intros [|d b] H; cbn [utf8] in H; [done| | |].
  - destruct (utf8_char_shape d) as [_ (v & [[E _]|(? & E & _)])]; by rewrite E in H.
  - destruct (utf8_char_shape c) as [_ (v & [[E _]|(? & E & _)])]; by rewrite E in H.
  - apply utf8_char_app_inj in H as [-> H]. f_equal. by apply IH.
Qed.

Lemma hmac_hex_inj_or_collides k x y : hmac_hex k x = hmac_hex k y -> x = y \/ hmac_collides k x y.
Proof.
  rewrite !hmac_hex_eq. intros H. apply hex_inj in H; [|apply hmac_ok..].
  destruct (decide (x = y)) as [->|Hne]; [by left|by right].
Qed.
