(* ===== verification/PyJson.v ===== *)
(** * JSON values and [json.dumps]

    The canonical-JSON calls of the repository ([json.dumps] with [sort_keys],
    [separators] and [ensure_ascii]) on the values the modelled code dumps:
    [None], booleans, integers, strings, lists and string-keyed dicts (in
    insertion order).  Floats do not occur in the modelled payloads. *)

From S2P Require Import Prelude PyBytes.
#[local] Open Scope string_scope.

#[warnings="-register-all"]
Inductive json : Type :=
| JNull
| JBool (b : bool)
| JInt (z : Z)
| JStr (s : string)
| JList (l : list json)
| JObj (fields : list (string * json)).

(** [d.get(k)] on a dict. *)
Fixpoint assoc {A} (k : string) (d : list (string * A)) : option A :=
  match d with
  | [] => None
  | (k', v) :: r => if str_eqb k k' then Some v else assoc k r
  end.

Definition jget (k : string) (d : list (string * json)) : json :=
  default JNull (assoc k d).

(** Python truthiness. *)
Definition jtruthy (j : json) : bool :=
  match j with
  | JNull => false
  | JBool b => b
  | JInt z => negb (bool_decide (z = 0%Z))
  | JStr s => negb (str_eqb s "")
  | JList l => match l with [] => false | _ => true end
  | JObj l => match l with [] => false | _ => true end
  end.

(** Options of a [json.dumps] call. *)
Record dump_opts := DumpOpts {
  ensure_ascii : bool;
  sort_keys : bool;
  item_sep : string;
  key_sep : string
}.

Definition hex4 (n : Z) : string :=
  String (hex_digit (Z.land (Z.shiftr n 12) 15))
    (String (hex_digit (Z.land (Z.shiftr n 8) 15))
       (String (hex_digit (Z.land (Z.shiftr n 4) 15))
          (String (hex_digit (Z.land n 15)) ""))).

Definition chr (n : Z) : string := String (ascii_of_N (Z.to_N n)) "".

Definition esc_char (ascii_only : bool) (c : ascii) : string :=
  let n := Z.of_N (N_of_ascii c) in
  (if n =? 34 then chr 92 ++ chr 34
   else if n =? 92 then chr 92 ++ chr 92
   else if n =? 8 then chr 92 ++ "b"
   else if n =? 9 then chr 92 ++ "t"
   else if n =? 10 then chr 92 ++ "n"
   else if n =? 12 then chr 92 ++ "f"
   else if n =? 13 then chr 92 ++ "r"
   else if (n <? 32) || (ascii_only && (126 <? n)) then chr 92 ++ "u" ++ hex4 n
   else String c "")%Z.

Fixpoint esc_str (ascii_only : bool) (s : string) : string :=
  match s with
  | EmptyString => ""
  | String c r => esc_char ascii_only c ++ esc_str ascii_only r
  end.

Definition quote (ascii_only : bool) (s : string) : string :=
  chr 34 ++ esc_str ascii_only s ++ chr 34.

Fixpoint join (sep : string) (l : list string) : string :=
  match l with
  | [] => ""
  | [x] => x
  | x :: r => x ++ sep ++ join sep r
  end.

(** Stable insertion sort on keys ([sorted(d.items())]: keys are distinct). *)
Fixpoint ins_key {A} (kv : string * A) (l : list (string * A)) : list (string * A) :=
  match l with
  | [] => [kv]
  | kv' :: r => if String.leb kv.1 kv'.1 then kv :: l else kv' :: ins_key kv r
  end.
Fixpoint sort_items {A} (l : list (string * A)) : list (string * A) :=
  match l with
  | [] => []
  | kv :: r => ins_key kv (sort_items r)
  end.

(** [json.dumps(j, ...)]: the dumped fields are sorted by key, so sorting the
    rendered items by key gives the same text. *)
Fixpoint dumps (o : dump_opts) (j : json) : string :=
  match j with
  | JNull => "null"
  | JBool true => "true"
  | JBool false => "false"
  | JInt z => py_str_int z
  | JStr s => quote (ensure_ascii o) s
  | JList l => "[" ++ join (item_sep o) (map (dumps o) l) ++ "]"
  | JObj fs =>
      let items := map (fun kv => (kv.1, quote (ensure_ascii o) kv.1 ++ key_sep o ++ dumps o kv.2)) fs in
      "{" ++ join (item_sep o) (map snd (if sort_keys o then sort_items items else items)) ++ "}"
  end.

(** [json.dumps(d, sort_keys=True, separators=(",", ":"))] *)
Definition compact_sorted : dump_opts := DumpOpts true true "," ":".
(** The same with [ensure_ascii=False]. *)
Definition compact_sorted_utf8 : dump_opts := DumpOpts false true "," ":".
(** [json.dumps(d, sort_keys=True)] *)
Definition spaced_sorted : dump_opts := DumpOpts true true ", " ": ".

Example dumps_example :
  dumps compact_sorted (JObj [("b", JInt 2); ("a", JList [JNull; JStr "x"; JBool true])])
  = "{" ++ chr 34 ++ "a" ++ chr 34 ++ ":[null," ++ chr 34 ++ "x" ++ chr 34 ++ ",true],"
    ++ chr 34 ++ "b" ++ chr 34 ++ ":2}".
Proof. by vm_compute. Qed.

(** ** Key order does not matter: two dicts with the same items dump alike *)

Lemma ins_key_perm {A} (kv : string * A) l : ins_key kv l ≡ₚ kv :: l.
Proof.
  induction l as [|kv' l IH]; simpl; [done|].
  destruct (String.leb kv.1 kv'.1); [done|]. rewrite IH. apply Permutation_swap.
Qed.

Lemma sort_items_perm {A} (l : list (string * A)) : sort_items l ≡ₚ l.
Proof. induction l as [|kv l IH]; simpl; [done|]. by rewrite ins_key_perm, IH. Qed.
