(* ===== verification/PyJsonCanon.v ===== *)
(** * Canonical JSON determines its value

    [json.dumps(..., sort_keys=True)] as the repository uses it for hashing: two
    values have one canonical text exactly when they are equal up to the order
    of the keys of their dicts.  The texts form a prefix code (up to a delimiter
    after a number), which is what the proof shows, constructor by constructor. *)

From Stdlib Require Import DecimalString DecimalZ.
From S2P Require Import Prelude PyBytes PyJson.
#[local] Open Scope string_scope.

(** A value with every dict sorted by key. *)
Fixpoint canon (j : json) : json :=
  match j with
  | JList l => JList (map canon l)
  | JObj fs => JObj (sort_items (map (fun kv => (kv.1, canon kv.2)) fs))
  | _ => j
  end.

(** Induction through lists and dicts. *)
Definition json_rect_forall (P : json -> Prop)
    (HN : P JNull) (HB : forall b, P (JBool b)) (HI : forall z, P (JInt z)) (HS : forall s, P (JStr s))
    (HL : forall l, Forall P l -> P (JList l))
    (HO : forall fs, Forall (fun kv => P kv.2) fs -> P (JObj fs)) : forall j, P j :=
  fix go j :=
    match j with
    | JNull => HN | JBool b => HB b | JInt z => HI z | JStr s => HS s
    | JList l => HL l ((fix all l : Forall P l :=
        match l with
        | [] => Forall_nil_2 _
        | x :: r => Forall_cons_2 _ _ _ (go x) (all r)
        end) l)
    | JObj fs => HO fs ((fix all fs : Forall (fun kv => P kv.2) fs :=
        match fs with
        | [] => Forall_nil_2 _
        | x :: r => Forall_cons_2 (fun kv : string * json => P kv.2) x r (go x.2) (all r)
        end) fs)
    end.

(** ** Strings *)

Definition hex_value (c : ascii) : option Z :=
  let n := Z.of_N (N_of_ascii c) in
  (if (48 <=? n) && (n <=? 57) then Some (n - 48)
   else if (97 <=? n) && (n <=? 102) then Some (n - 87) else None)%Z.

(** The first character of an escaped text, or [None] at the closing quote. *)
Definition unescape (s : string) : option (ascii * string) :=
  match s with
  | EmptyString => None
  | String c r =>
      let code x := Z.of_N (N_of_ascii x) in
      if (code c =? 34)%Z then None
      else if negb (code c =? 92)%Z then Some (c, r)
      else match r with
           | EmptyString => None
           | String d r =>
               let out n := Some (ascii_of_N n, r) in
               (if code d =? 98 then out 8%N else if code d =? 116 then out 9%N
                else if code d =? 110 then out 10%N else if code d =? 102 then out 12%N
                else if code d =? 114 then out 13%N
                else if negb (code d =? 117) then Some (d, r)
                else match r with
                     | String _ (String _ (String h (String l r))) =>
                         match hex_value h, hex_value l with
                         | Some h, Some l => Some (ascii_of_N (Z.to_N (16 * h + l)), r)
                         | _, _ => None
                         end
                     | _ => None
                     end)%Z
           end
  end.

Lemma unescape_char e c r : unescape (esc_char e c ++ r) = Some (c, r).
Proof. destruct e, c as [[] [] [] [] [] [] [] []]; reflexivity. Qed.

Lemma unescape_end r : unescape (chr 34 ++ r) = None.
Proof. reflexivity. Qed.

Lemma sapp_assoc (a b c : string) : (a ++ b) ++ c = a ++ b ++ c.
Proof. induction a as [|x a IH]; [done|]. exact (f_equal (String x) IH). Qed.

Lemma sapp_nil (a : string) : a ++ "" = a.
Proof. induction a as [|x a IH]; [done|]. exact (f_equal (String x) IH). Qed.

Lemma sapp_inv_head (a b c : string) : a ++ b = a ++ c -> b = c.
Proof. induction a as [|x a IH]; [done|]. intros H. injection H as H. by apply IH. Qed.

Lemma esc_str_inj e s : forall s' r r',
  esc_str e s ++ chr 34 ++ r = esc_str e s' ++ chr 34 ++ r' -> s = s' /\ r = r'.
Proof.
  induction s as [|c s IH]; intros [|c' s'] r r' H; cbn [esc_str] in H;
    rewrite ?sapp_assoc in H; pose proof (f_equal unescape H) as Hu.
  - split; [done|]. by injection H.
  - change ("" ++ chr 34 ++ r) with (chr 34 ++ r) in Hu. by rewrite unescape_char, unescape_end in Hu.
  - change ("" ++ chr 34 ++ r') with (chr 34 ++ r') in Hu. by rewrite unescape_char, unescape_end in Hu.
  - rewrite !unescape_char in Hu. injection Hu as -> Hr. apply IH in Hr as [-> ->]. done.
Qed.

Lemma quote_inj e s s' r r' : quote e s ++ r = quote e s' ++ r' -> s = s' /\ r = r'.
Proof.
  unfold quote. rewrite !sapp_assoc. intros H%sapp_inv_head. by apply esc_str_inj in H.
Qed.

(** ** Numbers *)

Definition int_char (c : ascii) : bool :=
  let n := Z.of_N (N_of_ascii c) in ((48 <=? n) && (n <=? 57) || (n =? 45))%Z.
Fixpoint all_chars (p : ascii -> bool) (s : string) : bool :=
  match s with EmptyString => true | String c r => p c && all_chars p r end.

(** A number ends where [r] begins. *)
Definition ends (r : string) : bool :=
  match r with EmptyString => true | String c _ => negb (int_char c) end.

Lemma uint_chars d : all_chars int_char (NilEmpty.string_of_uint d) = true.
Proof. induction d; cbn; done. Qed.

Lemma py_str_int_chars z : all_chars int_char (py_str_int z) = true.
Proof. unfold py_str_int. destruct (Z.to_int z) as [d|d]; apply uint_chars. Qed.

Lemma py_str_int_cons z : exists c s, py_str_int z = String c s.
Proof.
  destruct (py_str_int z) as [|c s] eqn:E; [|by exists c, s]. exfalso. pose proof E as Ez.
  unfold py_str_int in E. apply (f_equal NilEmpty.int_of_string) in E.
  rewrite NilEmpty.isi in E. apply (f_equal (option_map Z.of_int)) in E. cbn in E.
  rewrite DecimalZ.of_to in E. injection E as ->. by vm_compute in Ez.
Qed.

Lemma span_inj a : forall a' r r',
  all_chars int_char a = true -> all_chars int_char a' = true -> ends r = true -> ends r' = true ->
  a ++ r = a' ++ r' -> a = a' /\ r = r'.
Proof.
  induction a as [|c a IH]; intros [|c' a'] r r' Ha Ha' Hr Hr' H; [done|..].
  - change (r = String c' (a' ++ r')) in H. subst r. cbn in Hr, Ha'.
    apply andb_prop in Ha' as [E _]. by rewrite E in Hr.
  - change (String c (a ++ r) = r') in H. subst r'. cbn in Hr', Ha.
    apply andb_prop in Ha as [E _]. by rewrite E in Hr'.
  - injection H as -> H. cbn in Ha, Ha'. apply andb_prop in Ha as [_ Ha], Ha' as [_ Ha'].
    destruct (IH _ _ _ Ha Ha' Hr Hr' H) as [-> ->]. done.
Qed.

(** ** Sorting looks at the keys only *)

Lemma ins_key_map {A B} (f : string * A -> B) kv l :
  ins_key (kv.1, f kv) (map (fun kv => (kv.1, f kv)) l)
  = map (fun kv => (kv.1, f kv)) (ins_key kv l).
Proof.
  induction l as [|kv' l IH]; [done|]. cbn. destruct (String.leb kv.1 kv'.1); [done|]. cbn. by rewrite IH.
Qed.

Lemma sort_items_map {A B} (f : string * A -> B) l :
  sort_items (map (fun kv => (kv.1, f kv)) l) = map (fun kv => (kv.1, f kv)) (sort_items l).
Proof. induction l as [|kv l IH]; [done|]. cbn. by rewrite IH, ins_key_map. Qed.

(** Sorted: each key is at most the next one. *)
Fixpoint keys_ascend {A} (l : list (string * A)) : bool :=
  match l with
  | kv :: (kv' :: _) as r => String.leb kv.1 kv'.1 && keys_ascend r
  | _ => true
  end.

Lemma ins_key_ascends {A} (kv : string * A) l :
  keys_ascend l = true -> keys_ascend (ins_key kv l) = true.
Proof.
  induction l as [|kv1 l IH]; [done|]. intros Hl. cbn [ins_key].
  destruct (String.leb kv.1 kv1.1) eqn:E; [cbn [keys_ascend]; by rewrite E|].
  assert (E1 : String.leb kv1.1 kv.1 = true) by (destruct (String.leb_total kv.1 kv1.1); congruence).
  destruct l as [|kv2 l]; [cbn; by rewrite E1|]. cbn [keys_ascend] in Hl.
  apply andb_prop in Hl as [H12 Hl]. specialize (IH Hl). cbn [ins_key] in IH |- *.
  destruct (String.leb kv.1 kv2.1) eqn:E2; cbn [keys_ascend] in *; by rewrite ?E1, ?H12, IH.
Qed.

Lemma sort_items_ascends {A} (l : list (string * A)) : keys_ascend (sort_items l) = true.
Proof. induction l as [|kv l IH]; [done|]. by apply ins_key_ascends. Qed.

Lemma sort_items_idem {A} (l : list (string * A)) : sort_items (sort_items l) = sort_items l.
Proof.
  pose proof (sort_items_ascends l) as H. revert H. generalize (sort_items l). clear l.
  induction l as [|kv l IH]; [done|]. intros H. cbn [sort_items].
  destruct l as [|kv1 l]; [done|]. cbn [keys_ascend] in H. apply andb_prop in H as [H1 H].
  rewrite (IH H). cbn [ins_key]. by rewrite H1.
Qed.

(** ** Lists of items *)

Section Join.
Context {A B : Type} (render : A -> string) (norm : A -> B) (sep : string) (close : ascii).
Hypothesis sep_comma : exists s, sep = String "," s.
Hypothesis close_end : int_char close = false /\ close <> ","%char.
Hypothesis render_open : forall x r r', render x ++ r <> String close r'.

Definition decodes (x : A) : Prop := forall y r r', ends r = true -> ends r' = true ->
  render x ++ r = render y ++ r' -> norm x = norm y /\ r = r'.

(** What follows an item: the separator and the rest, or the closing bracket. *)
Definition tail (l : list A) (r : string) : string :=
  match l with [] => String close r | _ => sep ++ join sep (map render l) ++ String close r end.

Lemma join_cons x l r :
  join sep (map render (x :: l)) ++ String close r = render x ++ tail l r.
Proof. destruct l as [|y l]; [done|]. cbn [map join]. by rewrite !sapp_assoc. Qed.

Lemma tail_ends l r : ends (tail l r) = true.
Proof.
  destruct sep_comma as [s Hs], close_end as [Hc _].
  destruct l; cbn [tail]; [cbn; by rewrite Hc|by rewrite Hs].
Qed.

Lemma join_inj l : Forall decodes l -> forall l' r r',
  join sep (map render l) ++ String close r = join sep (map render l') ++ String close r' ->
  map norm l = map norm l' /\ r = r'.
Proof.
  induction 1 as [|x l Hx Hl IH]; intros [|y l'] r r' H; rewrite ?join_cons in H.
  - by injection H.
  - by destruct (render_open y (tail l' r') r).
  - by destruct (render_open x (tail l r) r').
  - apply Hx in H as [Hn Ht]; [|apply tail_ends..]. cbn [map]. rewrite Hn.
    destruct sep_comma as [s Hs], close_end as [_ Hne].
    destruct l as [|x2 l], l' as [|y2 l']; cbn [tail] in Ht.
    + by injection Ht.
    + rewrite Hs in Ht. injection Ht as E _. by destruct Hne.
    + rewrite Hs in Ht. injection Ht as E _. by destruct Hne.
    + apply sapp_inv_head, IH in Ht as [E ->]. by rewrite E.
Qed.
End Join.

(** ** Values *)

(** Which kind of value starts with the character. *)
Definition opens (c : ascii) : Z :=
  let n := Z.of_N (N_of_ascii c) in
  (if n =? 110 then 0 else if (n =? 116) || (n =? 102) then 1 else if int_char c then 2
   else if n =? 34 then 3 else if n =? 91 then 4 else if n =? 123 then 5 else 6)%Z.
Definition kind (j : json) : Z :=
  match j with
  | JNull => 0 | JBool _ => 1 | JInt _ => 2 | JStr _ => 3 | JList _ => 4 | JObj _ => 5
  end%Z.

Lemma dumps_opens o j : exists c s, dumps o j = String c s /\ opens c = kind j.
Proof.
  destruct j as [|[]|z|s|l|fs]; try (eexists _, _; split; [reflexivity|reflexivity]).
  destruct (py_str_int_cons z) as (c & s & E). exists c, s. cbn [dumps]. split; [done|].
  pose proof (py_str_int_chars z) as Hc. rewrite E in Hc. cbn in Hc. apply andb_prop in Hc as [Hc _].
  clear E s. destruct c as [[] [] [] [] [] [] [] []]; try discriminate Hc; reflexivity.
Qed.

Lemma dumps_kind o j j' r r' : dumps o j ++ r = dumps o j' ++ r' -> kind j = kind j'.
Proof.
  destruct (dumps_opens o j) as (c & s & E & <-), (dumps_opens o j') as (c' & s' & E' & <-).
  rewrite E, E'. intros H. by injection H as ->.
Qed.

Definition render_item (o : dump_opts) (kv : string * json) : string :=
  quote (ensure_ascii o) kv.1 ++ key_sep o ++ dumps o kv.2.

Lemma dumps_obj o fs : sort_keys o = true ->
  dumps o (JObj fs) = "{" ++ join (item_sep o) (map (render_item o) (sort_items fs)) ++ "}".
Proof.
  intros Hs. cbn [dumps]. rewrite Hs, (sort_items_map (render_item o)), List.map_map. done.
Qed.

Lemma bracket_ends (c : ascii) (j : json) o r r' :
  opens c = 6%Z -> dumps o j ++ r <> String c r'.
Proof.
  intros Hc. destruct (dumps_opens o j) as (c' & s & -> & Hk). intros H. injection H as -> _.
  rewrite Hc in Hk. by destruct j.
Qed.

Section Injective.
Context (o : dump_opts).
Hypothesis sorted : sort_keys o = true.
Hypothesis commas : exists s, item_sep o = String "," s.

Lemma item_decodes kv :
  decodes (dumps o) canon kv.2 -> decodes (render_item o) (fun kv => (kv.1, canon kv.2)) kv.
Proof.
  intros Hd kv' r r' Hr Hr' H. unfold render_item in H. rewrite !sapp_assoc in H.
  apply quote_inj in H as [Hk H]. apply sapp_inv_head, Hd in H as [Hv ->]; [|done..].
  by rewrite Hk, Hv.
Qed.

Lemma dumps_decodes j : decodes (dumps o) canon j.
Proof.
  induction j as [|b|z|s|l IH|fs IH] using json_rect_forall; intros j' r r' Hr Hr' H;
    pose proof (dumps_kind _ _ _ _ _ H) as Hk; destruct j' as [|b'|z'|s'|l'|fs']; try discriminate Hk.
  - split; [done|]. by injection H.
  - destruct b, b'; cbn [dumps] in H; try discriminate H; (split; [done|]; by injection H).
  - cbn [dumps] in H. apply span_inj in H as [Hz ->]; [|by apply py_str_int_chars|by apply py_str_int_chars|done..].
    by rewrite (py_str_int_inj _ _ Hz).
  - by apply quote_inj in H as [-> ->].
  - cbn [dumps] in H. rewrite !sapp_assoc in H. apply sapp_inv_head in H.
    apply (join_inj (dumps o) canon _ "]" commas) in H as [Hl ->]; [|done| |done].
    + cbn [canon]. by rewrite Hl.
    + intros x y y'. by apply bracket_ends.
  - rewrite !dumps_obj, !sapp_assoc in H by done. apply sapp_inv_head in H.
    apply (join_inj (render_item o) (fun kv => (kv.1, canon kv.2)) _ "}" commas) in H as [Hl ->]; [|done|done|].
    + cbn [canon]. by rewrite !(sort_items_map (fun kv => canon kv.2)), Hl.
    + apply (Permutation_Forall (Permutation_sym (sort_items_perm fs))).
      apply (Forall_impl _ _ _ IH). intros kv. by apply item_decodes.
Qed.

(** One text, one value up to the order of keys. *)
Lemma dumps_inj j j' : dumps o j = dumps o j' -> canon j = canon j'.
Proof.
  intros H. apply (dumps_decodes j j' "" "" eq_refl eq_refl). by rewrite !sapp_nil.
Qed.

(** The order of keys does not show in the text. *)
Lemma dumps_canon j : dumps o (canon j) = dumps o j.
Proof.
  induction j as [|b|z|s|l IH|fs IH] using json_rect_forall; try done.
  - cbn [canon dumps]. rewrite List.map_map. do 3 f_equal. apply map_ext_Forall. exact IH.
  - cbn [canon]. rewrite !dumps_obj by done.
    rewrite sort_items_idem, (sort_items_map (fun kv => canon kv.2)), List.map_map. do 3 f_equal.
    apply map_ext_Forall. rewrite sort_items_perm. apply (Forall_impl _ _ _ IH).
    intros kv E. unfold render_item. cbn [fst snd]. by rewrite E.
Qed.
End Injective.
