(* ===== verification/PyDatetime.v ===== *)
(** * UTC datetimes and their ISO-8601 text

    [datetime.now(timezone.utc)], [isoformat] and [fromisoformat] as the
    modelled code uses them: a timezone-aware UTC datetime is the integer number
    of microseconds since 1970-01-01T00:00:00Z. *)

From S2P Require Import Prelude PyBytes.
#[local] Open Scope Z_scope.

#[local] Ltac Zify.zify_post_hook ::= Z.to_euclidean_division_equations.

Abbreviation datetime := Z.

Definition US_PER_SECOND : Z := 1000000.
Definition US_PER_DAY : Z := 86400 * US_PER_SECOND.

(** [datetime.min] and [datetime.max], as UTC instants. *)
Definition DT_MIN : datetime := -719162 * US_PER_DAY.
Definition DT_MAX : datetime := 2932897 * US_PER_DAY - 1.
Definition dt_ok (t : datetime) : Prop := DT_MIN <= t <= DT_MAX.

(** [dt.replace(microsecond=0)] *)
Definition drop_microsecond (t : datetime) : datetime := t - t mod US_PER_SECOND.

(** ** Proleptic Gregorian calendar *)

Record civil := Civil { year : Z; month : Z; day : Z }.

Definition year_of_era (doe : Z) : Z :=
  (doe - doe / 1460 + doe / 36524 - doe / 146096) / 365.
Definition day_of_year (doe : Z) : Z :=
  let yoe := year_of_era doe in doe - (365 * yoe + yoe / 4 - yoe / 100).

Definition civil_from_days (d : Z) : civil :=
  let z := d + 719468 in
  let era := z / 146097 in
  let doe := z mod 146097 in
  let doy := day_of_year doe in
  let mp := (5 * doy + 2) / 153 in
  let m := if mp <? 10 then mp + 3 else mp - 9 in
  Civil (year_of_era doe + era * 400 + (if m <=? 2 then 1 else 0)) m
        (doy - (153 * mp + 2) / 5 + 1).

Definition days_from_civil (c : civil) : Z :=
  let y := year c - (if month c <=? 2 then 1 else 0) in
  let era := y / 400 in
  let yoe := y mod 400 in
  let mp := if 2 <? month c then month c - 3 else month c + 9 in
  let doy := (153 * mp + 2) / 5 + day c - 1 in
  era * 146097 + (yoe * 365 + yoe / 4 - yoe / 100 + doy) - 719468.

(** ** Text *)

Definition digit (n : Z) : ascii := ascii_of_N (Z.to_N (48 + n)).
Fixpoint pad (width : nat) (n : Z) : string :=
  match width with
  | O => EmptyString
  | S w => String.append (pad w (n / 10)) (String (digit (n mod 10)) EmptyString)
  end.

(** [t.isoformat()] for an aware UTC datetime. *)
Definition isoformat (t : datetime) : string :=
  let days := t / US_PER_DAY in
  let c := civil_from_days days in
  let us := t mod US_PER_DAY in
  let s := us / US_PER_SECOND in
  let f := us mod US_PER_SECOND in
  (pad 4 (year c) ++ "-" ++ pad 2 (month c) ++ "-" ++ pad 2 (day c) ++ "T" ++
   pad 2 (s / 3600)%Z ++ ":" ++ pad 2 (s / 60 mod 60)%Z ++ ":" ++ pad 2 (s mod 60)%Z ++
   (if (f =? 0)%Z then "" else "." ++ pad 6 f) ++ "+00:00")%string.

(** Parsers consume a prefix of the text. *)
Definition undigit (c : ascii) : option Z :=
  let n := Z.of_N (N_of_ascii c) in
  if (48 <=? n) && (n <=? 57) then Some (n - 48) else None.
Fixpoint unpad (width : nat) (acc : Z) (s : string) : option (Z * string) :=
  match width, s with
  | O, _ => Some (acc, s)
  | S w, String c r =>
      match undigit c with
      | Some d => unpad w (10 * acc + d) r
      | None => None
      end
  | S _, EmptyString => None
  end.
Definition expect (c : ascii) (s : string) : option string :=
  match s with
  | String c' r => if bool_decide (c = c') then Some r else None
  | EmptyString => None
  end.

(** [datetime.fromisoformat], on the texts [isoformat] writes for UTC. *)
Definition fromisoformat (s : string) : option datetime :=
  '(y, s) ← unpad 4 0 s; s ← expect "-" s;
  '(m, s) ← unpad 2 0 s; s ← expect "-" s;
  '(d, s) ← unpad 2 0 s; s ← expect "T" s;
  '(hh, s) ← unpad 2 0 s; s ← expect ":" s;
  '(mm, s) ← unpad 2 0 s; s ← expect ":" s;
  '(ss, s) ← unpad 2 0 s;
  '(f, s) ← match s with
            | String "." s' => unpad 6 0 s'
            | _ => Some (0, s)
            end;
  if str_eqb s "+00:00"
  then Some (days_from_civil (Civil y m d) * US_PER_DAY
             + (hh * 3600 + mm * 60 + ss) * US_PER_SECOND + f)
  else None.

Example isoformat_example :
  isoformat (1700000000 * US_PER_SECOND + 1500) = "2023-11-14T22:13:20.001500+00:00"%string
  /\ isoformat 0 = "1970-01-01T00:00:00+00:00"%string
  /\ isoformat DT_MAX = "9999-12-31T23:59:59.999999+00:00"%string
  /\ isoformat DT_MIN = "0001-01-01T00:00:00+00:00"%string.
Proof. by vm_compute. Qed.

(** ** [fromisoformat] inverts [isoformat] *)

(** Finite checks by evaluation. *)
Definition check_step (P : Z -> bool) (st : Z * bool) : Z * bool := (st.1 + 1, st.2 && P st.1).

Lemma iter_check (P : Z -> bool) (n : N) :
  (N.iter n (check_step P) (0, true)).1 = Z.of_N n
  /\ ((N.iter n (check_step P) (0, true)).2 = true -> forall z, 0 <= z < Z.of_N n -> P z = true).
Proof.
  induction n as [|n [IH1 IH2]] using N.peano_ind; [split; [done|lia]|].
  rewrite N.iter_succ. unfold check_step at 1 3. cbn [fst snd].
  rewrite IH1. split; [lia|]. intros [H1 H2]%andb_prop z Hz.
  destruct (decide (z = Z.of_N n)) as [->|]; [done|]. apply IH2; [done|lia].
Qed.

(** The first day of each year of the era; [year_of_era] is monotone, so checking
    the first and the last day of the 400 years is enough. *)
Definition year_start (y : Z) : Z := 365 * y + y / 4 - y / 100.
Definition year_ok (y : Z) : bool :=
  let last := if y =? 399 then 146096 else year_start (y + 1) - 1 in
  (year_of_era (year_start y) =? y) && (year_of_era last =? y)
  && (last - year_start y <=? 365).

Lemma years_checked : (N.iter 400 (check_step year_ok) (0, true)).2 = true.
Proof. vm_compute. reflexivity. Qed.

Lemma year_of_era_mono_step doe :
  0 <= doe < 146096 -> year_of_era doe <= year_of_era (doe + 1).
Proof.
  intros H. destruct (decide (doe = 146095)) as [->|]; [by vm_compute|].
  unfold year_of_era. apply Z.div_le_mono; [lia|].
  rewrite (Z.div_small doe 146096), (Z.div_small (doe + 1) 146096) by lia. lia.
Qed.

Lemma year_of_era_mono x y : 0 <= x -> x <= y -> y <= 146096 -> year_of_era x <= year_of_era y.
Proof.
  intros Hx Hxy. pattern y. apply Zlt_lower_bound_ind with (z := x); [|lia].
  intros z IH Hz Hmax. destruct (decide (z = x)) as [->|]; [lia|].
  etrans; [apply (IH (z - 1)); lia|].
  replace z with (z - 1 + 1) at 2 by lia. apply year_of_era_mono_step. lia.
Qed.

Lemma era_year_exists doe (n : nat) :
  0 <= doe < year_start (Z.of_nat n) ->
  exists y, 0 <= y < Z.of_nat n /\ year_start y <= doe < year_start (y + 1).
Proof.
  induction n as [|n IH]; intros H; [unfold year_start in H; lia|].
  destruct (decide (doe < year_start (Z.of_nat n))) as [Hlt|Hge].
  - destruct IH as (y & Hy & Hd); [lia|]. exists y. lia.
  - exists (Z.of_nat n). rewrite Nat2Z.inj_succ in *. unfold Z.succ in *. lia.
Qed.

Lemma era_day_range doe :
  0 <= doe < 146097 ->
  0 <= year_of_era doe < 400 /\ 0 <= day_of_year doe <= 365.
Proof.
  intros H.
  assert (exists y, 0 <= y < 400 /\ year_start y <= doe /\
                    doe <= if y =? 399 then 146096 else year_start (y + 1) - 1) as (y & Hy & H1 & H2).
  { destruct (decide (doe = 146096)) as [->|].
    - exists 399. vm_compute. intuition discriminate.
    - destruct (era_year_exists doe 400) as (y & Hy & Hd).
      + change (year_start (Z.of_nat 400)) with 146096. lia.
      + exists y. destruct (Z.eqb_spec y 399) as [->|]; [|lia].
        change (year_start (399 + 1)) with 146096 in Hd. lia. }
  pose proof (proj2 (iter_check year_ok 400) years_checked y ltac:(lia)) as Hok.
  unfold year_ok in Hok. set (last := if y =? 399 then _ else _) in *.
  assert (0 <= year_start y) by (unfold year_start; lia).
  assert (last <= 146096) by (unfold last, year_start; destruct (Z.eqb_spec y 399); lia).
  clearbody last.
  pose proof (year_of_era_mono (year_start y) doe). pose proof (year_of_era_mono doe last).
  assert (Heq : year_of_era doe = y) by lia.
  unfold day_of_year. rewrite Heq. fold (year_start y).
  change (365 * y + y / 4 - y / 100) with (year_start y). cbv zeta. lia.
Qed.

(** Month and day from the day of the (March-based) year. *)
Definition doy_month (doy : Z) : Z :=
  let mp := (5 * doy + 2) / 153 in if mp <? 10 then mp + 3 else mp - 9.
Definition doy_day (doy : Z) : Z := doy - (153 * ((5 * doy + 2) / 153) + 2) / 5 + 1.
Definition doy_ok (doy : Z) : bool :=
  let m := doy_month doy in
  (1 <=? m) && (m <=? 12) && (1 <=? doy_day doy) && (doy_day doy <=? 31)
  && ((153 * (if 2 <? m then m - 3 else m + 9) + 2) / 5 + doy_day doy - 1 =? doy)
  && Bool.eqb (m <=? 2) (306 <=? doy).

Lemma doy_checked : (N.iter 366 (check_step doy_ok) (0, true)).2 = true.
Proof. vm_compute. reflexivity. Qed.

Lemma doy_range doy : 0 <= doy <= 365 -> doy_ok doy = true.
Proof. intros H. apply (proj2 (iter_check doy_ok 366) doy_checked). lia. Qed.

Lemma civil_split d :
  exists era doe, d = era * 146097 + doe - 719468 /\ 0 <= doe < 146097 /\
    civil_from_days d =
      Civil (year_of_era doe + era * 400 + (if doy_month (day_of_year doe) <=? 2 then 1 else 0))
            (doy_month (day_of_year doe)) (doy_day (day_of_year doe)).
Proof.
  exists ((d + 719468) / 146097), ((d + 719468) mod 146097).
  split; [|split]; [|apply Z.mod_pos_bound; lia|done].
  pose proof (Z.div_mod (d + 719468) 146097). lia.
Qed.

Lemma civil_ranges d :
  let c := civil_from_days d in 1 <= month c <= 12 /\ 1 <= day c <= 31.
Proof.
  destruct (civil_split d) as (era & doe & _ & Hdoe & ->). cbn [month day].
  pose proof (doy_range _ (proj2 (era_day_range doe Hdoe))) as H.
  unfold doy_ok in H. lia.
Qed.

Lemma days_civil_roundtrip d : days_from_civil (civil_from_days d) = d.
Proof.
  destruct (civil_split d) as (era & doe & Hd & Hdoe & ->).
  destruct (era_day_range doe Hdoe) as [Hy Hdoy].
  pose proof (doy_range _ Hdoy) as H. unfold doy_ok in H.
  unfold days_from_civil. cbn [year month day].
  replace (year_of_era doe + era * 400 + _ - _) with (year_of_era doe + era * 400) by lia.
  rewrite Z.div_add, Z.mod_add, (Z.div_small (year_of_era doe)), (Z.mod_small (year_of_era doe))
    by lia.
  apply andb_prop in H as [H _]. apply andb_prop in H as [_ H]. apply Z.eqb_eq in H.
  rewrite H. unfold day_of_year. cbv zeta. lia.
Qed.

(** Decimal fields. *)
Lemma undigit_digit n : 0 <= n < 10 -> undigit (digit n) = Some n.
Proof.
  intros Hn. unfold undigit, digit. rewrite N_ascii_embedding by lia.
  rewrite Z2N.id by lia.
  destruct (Z.leb_spec 48 (48 + n)), (Z.leb_spec (48 + n) 57); cbn; try lia.
  f_equal. lia.
Qed.

Lemma str_app_assoc (a b c : string) : ((a ++ b) ++ c = a ++ (b ++ c))%string.
Proof.
  induction a as [|x a IH]; [done|].
  change (String x ((a ++ b) ++ c) = String x (a ++ (b ++ c)))%string. by rewrite IH.
Qed.

Lemma str_app_cons x (a b : string) : (String x a ++ b = String x (a ++ b))%string.
Proof. done. Qed.
Lemma str_app_nil (a : string) : ("" ++ a = a)%string.
Proof. done. Qed.

Lemma unpad_pad w : forall n acc r,
  0 <= n < 10 ^ Z.of_nat w ->
  unpad w acc (pad w n ++ r)%string = Some (acc * 10 ^ Z.of_nat w + n, r).
Proof.
  assert (Hgen : forall w w' n acc r, 0 <= n < 10 ^ Z.of_nat w ->
    unpad (w + w') acc (pad w n ++ r)%string = unpad w' (acc * 10 ^ Z.of_nat w + n) r).
  { clear w. induction w as [|w IH]; intros w' n acc r Hn.
    - change (10 ^ Z.of_nat 0) with 1 in *. cbn. f_equal. lia.
    - rewrite Nat2Z.inj_succ, Z.pow_succ_r in * by lia.
      cbn [pad]. rewrite str_app_assoc.
      replace (S w + w')%nat with (w + S w')%nat by lia. rewrite IH by lia.
      rewrite str_app_cons, str_app_nil. cbn [unpad].
      rewrite undigit_digit by (apply Z.mod_pos_bound; lia).
      f_equal. lia. }
  intros n acc r Hn. rewrite <- (Nat.add_0_r w) at 1. by rewrite Hgen.
Qed.

Lemma expect_eq c s : expect c (String c s) = Some s.
Proof. cbn. by rewrite bool_decide_true. Qed.

Lemma civil_year_range t : dt_ok t -> 0 <= year (civil_from_days (t / US_PER_DAY)) < 10000.
Proof.
  unfold dt_ok, DT_MIN, DT_MAX, US_PER_DAY, US_PER_SECOND. intros H.
  assert (Hq : -719162 <= t / (86400 * 1000000) <= 2932896) by lia.
  destruct (civil_split (t / (86400 * 1000000))) as (era & doe & Hd & Hdoe & ->).
  destruct (era_day_range doe Hdoe) as [Hy Hdoy].
  pose proof (doy_range _ Hdoy) as Hok. unfold doy_ok in Hok. cbn [year].
  apply andb_prop in Hok as [_ Hok]. apply Bool.eqb_prop in Hok. rewrite Hok.
  assert (Hera : 0 <= era <= 24) by lia.
  destruct (decide (era = 24)) as [->|]; [|repeat case_match; lia].
  unfold day_of_year in *. cbv zeta in *. destruct (Z.leb_spec 306 (doe - (365 * year_of_era doe + year_of_era doe / 4 - year_of_era doe / 100))); lia.
Qed.

Lemma iso_time_range t :
  let us := t mod US_PER_DAY in
  let s := us / US_PER_SECOND in
  0 <= s / 3600 < 100 /\ 0 <= s / 60 mod 60 < 100 /\ 0 <= s mod 60 < 100
  /\ 0 <= us mod US_PER_SECOND < 1000000.
Proof. unfold US_PER_DAY, US_PER_SECOND. cbv zeta. lia. Qed.

Lemma iso_time_sum t :
  let us := t mod US_PER_DAY in
  let s := us / US_PER_SECOND in
  t / US_PER_DAY * US_PER_DAY
   + (s / 3600 * 3600 + s / 60 mod 60 * 60 + s mod 60) * US_PER_SECOND
   + us mod US_PER_SECOND = t.
Proof. unfold US_PER_DAY, US_PER_SECOND. cbv zeta. lia. Qed.

(** One fixed-width field, then the separator in front of the next one. *)
Ltac eat_field :=
  rewrite unpad_pad by (cbn; lia); cbn [mbind option_bind];
  rewrite ?str_app_cons, ?str_app_nil, ?expect_eq; cbn [mbind option_bind].

Lemma iso_roundtrip t : dt_ok t -> fromisoformat (isoformat t) = Some t.
Proof.
  intros Ht. pose proof (civil_year_range t Ht) as Hy.
  pose proof (civil_ranges (t / US_PER_DAY)) as [Hm Hd].
  pose proof (iso_time_range t) as (Hh & Hmi & Hs & Hf).
  pose proof (iso_time_sum t) as Hsum. cbv zeta in *.
  unfold isoformat, fromisoformat.
  set (c := civil_from_days _) in *.
  assert (Hc : days_from_civil (Civil (year c) (month c) (day c)) = t / US_PER_DAY).
  { rewrite <- (days_civil_roundtrip (t / US_PER_DAY)). fold c. by destruct c. }
  clearbody c.
  set (s := t mod US_PER_DAY / US_PER_SECOND) in *.
  set (f := (t mod US_PER_DAY) mod US_PER_SECOND) in *. clearbody s f.
  do 6 eat_field. rewrite !Z.mul_0_l, !Z.add_0_l.
  destruct (Z.eqb_spec f 0) as [Hz|Hnz].
  - rewrite str_app_nil. cbn [mbind option_bind]. rewrite Hc. cbn. f_equal. lia.
  - rewrite str_app_cons. eat_field. rewrite Hc. cbn. f_equal. lia.
Qed.
