(* ===== verification/PyFloat.v ===== *)
(** * Python [float]: IEEE-754 binary64

    Executable binary64 arithmetic from the Standard Library's [SpecFloat]
    (round to nearest, ties to even), with the conversions the modelled code
    uses: [float(int)], [float(str)] on decimal literals, and [round(x, n)]. *)

From Stdlib Require Import SpecFloat.
From S2P Require Import Prelude.
#[local] Open Scope Z_scope.

Abbreviation float := spec_float.

Definition prec : Z := 53.
Definition emax : Z := 1024.

Definition fadd (x y : float) : float := SFadd prec emax x y.
Definition fsub (x y : float) : float := SFsub prec emax x y.
Definition fmul (x y : float) : float := SFmul prec emax x y.
Definition fdiv (x y : float) : float := SFdiv prec emax x y.
Definition fltb (x y : float) : bool := SFltb x y.
Definition fleb (x y : float) : bool := SFleb x y.
Definition fgtb (x y : float) : bool := SFltb y x.
Definition fgeb (x y : float) : bool := SFleb y x.
Definition feqb (x y : float) : bool := SFeqb x y.
Definition fzero : float := S754_zero false.
Definition fnan : float := S754_nan.
Definition finf : float := S754_infinity false.

(** [float(n)] for an [int]. *)
Definition float_of_int (n : Z) : float := binary_normalize prec emax n 0 false.

(** The binary64 value nearest to [n / d]. *)
Definition float_of_ratio (n : Z) (d : positive) : float :=
  match n with
  | 0 => fzero
  | Zpos p => SFdiv prec emax (S754_finite false p 0) (S754_finite false d 0)
  | Zneg p => SFdiv prec emax (S754_finite true p 0) (S754_finite false d 0)
  end.

(** [n / d] rounded to an integer, ties to even. *)
Definition round_half_even (n : Z) (d : positive) : Z :=
  let q := n / Zpos d in
  let r := 2 * (n mod Zpos d) in
  if r <? Zpos d then q else if Zpos d <? r then q + 1 else if Z.even q then q else q + 1.

(** [round(x, ndigits)]: correctly rounded on the exact decimal value. *)
Definition py_round (ndigits : Z) (x : float) : float :=
  match x with
  | S754_finite s m e =>
      let p := 10 ^ ndigits in
      let n := (if s then -1 else 1) * Zpos m * p * 2 ^ Z.max 0 e in
      let r := round_half_even n (Z.to_pos (2 ^ Z.max 0 (- e))) in
      match r with
      | 0 => S754_zero s
      | _ => float_of_ratio r (Z.to_pos p)
      end
  | _ => x
  end.

(** Truthiness of a float. *)
Definition ftruthy (x : float) : bool :=
  match x with S754_zero _ => false | _ => true end.

(** ** [float(s)] on the texts amounts are written in

    Optional sign, digits with an optional fraction and exponent, or one of the
    words Python accepts for infinities and not-a-number; surrounding white
    space is stripped.  Anything else raises [ValueError]. *)

Definition is_space (c : ascii) : bool :=
  let n := nat_of_ascii c in ((n =? 32) || ((9 <=? n) && (n <=? 13)))%nat.
Fixpoint lstrip (s : string) : string :=
  match s with
  | String c r => if is_space c then lstrip r else s
  | EmptyString => s
  end.
Fixpoint str_rev (acc s : string) : string :=
  match s with
  | EmptyString => acc
  | String c r => str_rev (String c acc) r
  end.
Definition strip (s : string) : string :=
  str_rev EmptyString (lstrip (str_rev EmptyString (lstrip s))).

Definition digit_val (c : ascii) : option Z :=
  let n := Z.of_N (N_of_ascii c) in
  if (48 <=? n) && (n <=? 57) then Some (n - 48) else None.

(** A maximal run of digits: its value, its length and the rest. *)
Fixpoint digits (acc : Z) (n : nat) (s : string) : Z * nat * string :=
  match s with
  | String c r =>
      match digit_val c with
      | Some d => digits (10 * acc + d) (S n) r
      | None => (acc, n, s)
      end
  | EmptyString => (acc, n, s)
  end.

Definition read_sign (s : string) : bool * string :=
  match s with
  | String "-" r => (true, r)
  | String "+" r => (false, r)
  | _ => (false, s)
  end.

(** Mantissa [m * 10^e] and the rest of the text. *)
Definition read_mantissa (s : string) : option (Z * Z * string) :=
  match digits 0 0 s with
  | (ip, ni, String "." r) =>
      match digits ip 0 r with
      | (m, nf, r') => if bool_decide (ni + nf = 0)%nat then None else Some (m, - Z.of_nat nf, r')
      end
  | (ip, ni, r) => if bool_decide (ni = 0)%nat then None else Some (ip, 0, r)
  end.

Definition read_exponent (s : string) : option Z :=
  match s with
  | EmptyString => Some 0
  | String c r =>
      if bool_decide (c = "e"%char) || bool_decide (c = "E"%char) then
        let '(neg, r) := read_sign r in
        match digits 0 0 r with
        | (_, O, _) => None
        | (e, _, EmptyString) => Some (if neg then - e else e)
        | _ => None
        end
      else None
  end.

Definition scale10 (m e : Z) : float :=
  if 0 <=? e then float_of_ratio (m * 10 ^ e) 1
  else float_of_ratio m (Z.to_pos (10 ^ (- e))).

Definition fneg (b : bool) (x : float) : float := if b then SFopp x else x.

(** The text without its underscores, which stand between digits only. *)
Definition is_digit (c : ascii) : bool := let n := nat_of_ascii c in ((48 <=? n) && (n <=? 57))%nat.
Definition digit_first (s : string) : bool := match s with String c _ => is_digit c | EmptyString => false end.
Fixpoint without_underscores (after_digit : bool) (s : string) : option string :=
  match s with
  | EmptyString => Some EmptyString
  | String c r =>
      if bool_decide (c = "_"%char)
      then if after_digit && digit_first r then without_underscores false r else None
      else String c <$> without_underscores (is_digit c) r
  end.

(** [float(s)]; [None] is its [ValueError]. *)
Definition float_of_str (s : string) : option float :=
  match without_underscores false (strip s) with None => None | Some s =>
  let '(neg, r) := read_sign s in
  let w := py_lower r in
  if str_mem w ["inf"; "infinity"]%string then Some (fneg neg finf)
  else if str_eqb w "nan" then Some fnan
  else match read_mantissa r with
       | Some (m, e, r') =>
           match read_exponent r' with
           | Some x => Some (fneg neg (scale10 m (e + x)))
           | None => None
           end
       | None => None
       end
  end.

Example float_examples :
  float_of_str "0.1" = Some (S754_finite false 7205759403792794 (-56))
  /\ float_of_str " -12.50e1 " = Some (S754_finite true 8796093022208000 (-46))
  /\ float_of_str "nan" = Some fnan /\ float_of_str "1.2.3" = None /\ float_of_str "" = None
  /\ float_of_str "1_0" = float_of_str "10" /\ float_of_str "1__0" = None /\ float_of_str "1_" = None
  /\ py_round 2 (fmul (fdiv (float_of_int 1) (float_of_int 13)) (float_of_int 100))
     = S754_finite false 8658170283619779 (-50)
  /\ fadd (float_of_ratio 1 10) (float_of_ratio 2 10) = S754_finite false 5404319552844596 (-54).
Proof. by vm_compute. Qed.

(** Comparisons with not-a-number are false, whatever the other side. *)
Lemma fltb_nan_l x : fltb fnan x = false.
Proof. by destruct x. Qed.
Lemma fltb_nan_r x : fltb x fnan = false.
Proof. by destruct x. Qed.
Lemma fadd_nan_r x : fadd x fnan = fnan.
Proof. by destruct x. Qed.
Lemma fadd_nan_l x : fadd fnan x = fnan.
Proof. by destruct x. Qed.
