(* ===== verification/PyFloatOrder.v ===== *)
(** * Order and rounding of binary64 sums

    A sum is rounded to the nearest binary64 number, so adding something
    positive never gives less: [x <= x + y] for [y > 0], whatever the size of
    [x].  Proved on the executable rounding of [SpecFloat]. *)

From Stdlib Require Import SpecFloat.
From S2P Require Import Prelude PyFloat.
#[local] Open Scope Z_scope.

Abbreviation valid := (valid_binary prec emax).
Abbreviation fexp64 := (fexp prec emax).
Abbreviation digits p := (Zpos (digits2_pos p)).

Lemma digits_log2 p : digits p = Z.log2 (Zpos p) + 1.
Proof.
  induction p as [p IH|p IH|]; cbn [digits2_pos]; [..|reflexivity]; rewrite Pos2Z.inj_succ, IH.
  - rewrite Pos2Z.inj_xI, Z.log2_succ_double by lia. lia.
  - rewrite Pos2Z.inj_xO, Z.log2_double by lia. lia.
Qed.
Lemma digits_bounds p : 2 ^ (digits p - 1) <= Zpos p < 2 ^ digits p.
Proof.
  rewrite digits_log2. replace (Z.log2 (Zpos p) + 1 - 1) with (Z.log2 (Zpos p)) by lia.
  rewrite Z.add_1_r. apply Z.log2_spec. lia.
Qed.
Lemma digits_mono p q : (Zpos p <= Zpos q)%Z -> digits p <= digits q.
Proof. intros H. rewrite !digits_log2. pose proof (Z.log2_le_mono _ _ H). lia. Qed.
Lemma digits_le p n : 0 <= n -> Zpos p < 2 ^ n -> digits p <= n.
Proof. intros Hn Hp. rewrite digits_log2. apply Z.log2_lt_pow2 in Hp; lia. Qed.

Lemma fexp_mono d d' : d <= d' -> fexp64 d <= fexp64 d'.
Proof. unfold fexp. lia. Qed.
Lemma fexp_emin d : emin prec emax <= fexp64 d.
Proof. unfold fexp. lia. Qed.

(** ** Shifts *)

Lemma iter_xO m d : Zpos (Pos.iter xO m d) = Zpos m * 2 ^ Zpos d.
Proof.
  induction d as [|d IH] using Pos.peano_ind; [cbn; lia|].
  rewrite Pos.iter_succ, Pos2Z.inj_xO, IH, Pos2Z.inj_succ, Z.pow_succ_r by lia. lia.
Qed.
Lemma shl_align_le m e e' : e' <= e -> Zpos (fst (shl_align m e e')) = Zpos m * 2 ^ (e - e')
  /\ snd (shl_align m e e') = e'.
Proof.
  intros He. unfold shl_align. destruct (e' - e) eqn:E; cbn [fst snd].
  - replace (e - e') with 0 by lia. split; [cbn|]; lia.
  - lia.
  - rewrite iter_xO. replace (e - e') with (Zpos p) by lia. done.
Qed.
Lemma shl_align_ge m e e' : e <= e' -> shl_align m e e' = (m, e).
Proof. intros He. unfold shl_align. destruct (e' - e) eqn:E; [done..|lia]. Qed.

(** The bits shifted out: none, or some. *)
Definition dropped (x : shr_record) : bool := shr_r x || shr_s x.

Lemma shr_1_spec x : 0 <= shr_m x ->
  shr_m (shr_1 x) = shr_m x / 2 /\ (dropped (shr_1 x) = false <-> dropped x = false /\ shr_m x mod 2 = 0).
Proof.
  destruct x as [m r s]. cbn. intros Hm.
  assert (forall a b, dropped {| shr_m := a; shr_r := true; shr_s := b |} = false <-> False) as Htrue by done.
  assert (forall a, dropped {| shr_m := a; shr_r := false; shr_s := r || s |} = false
    <-> dropped {| shr_m := m; shr_r := r; shr_s := s |} = false) as Hkeep.
  { intros a. unfold dropped. cbn. by destruct r, s. }
  destruct m as [|[p|p|]|p]; cbn [shr_1 shr_m]; [| | | |lia].
  - rewrite Hkeep. split; [done|]. split; [by split|by intros [? _]].
  - rewrite Htrue. replace (Zpos p~1) with (1 + Zpos p * 2) by lia. rewrite Z.div_add, Z.mod_add by lia.
    split; [done|]. split; [done|]. by intros [_ H].
  - rewrite Hkeep. replace (Zpos p~0) with (Zpos p * 2) by lia. rewrite Z.div_mul, Z.mod_mul by lia.
    split; [done|]. split; [by split|by intros [? _]].
  - rewrite Htrue. split; [done|]. split; [done|]. by intros [_ H].
Qed.

Lemma shr_iter_spec n : forall x, 0 <= shr_m x ->
  shr_m (SpecFloat.iter_pos shr_1 n x) = shr_m x / 2 ^ Zpos n
  /\ (dropped (SpecFloat.iter_pos shr_1 n x) = false <-> dropped x = false /\ shr_m x mod 2 ^ Zpos n = 0).
Proof.
  assert (forall a b x y z, 0 <= a -> 0 <= b -> 0 <= shr_m x ->
    shr_m y = shr_m x / 2 ^ a -> (dropped y = false <-> dropped x = false /\ shr_m x mod 2 ^ a = 0) ->
    shr_m z = shr_m y / 2 ^ b -> (dropped z = false <-> dropped y = false /\ shr_m y mod 2 ^ b = 0) ->
    shr_m z = shr_m x / 2 ^ (a + b) /\ (dropped z = false <-> dropped x = false /\ shr_m x mod 2 ^ (a + b) = 0))
    as Hcomp.
  { intros a b x y z Ha Hb Hx Ey Dy Ez Dz. pose proof (Z.pow_pos_nonneg 2 a ltac:(lia) Ha) as Hpa.
    pose proof (Z.pow_pos_nonneg 2 b ltac:(lia) Hb) as Hpb. rewrite Z.pow_add_r by lia. split.
    - by rewrite Ez, Ey, Z.div_div by lia.
    - rewrite Dz, Dy, Ey. rewrite Z.rem_mul_r by lia.
      pose proof (Z.mod_pos_bound (shr_m x) _ Hpa) as B1. pose proof (Z.mod_pos_bound (shr_m x / 2 ^ a) _ Hpb) as B2.
      split; [intros [[? H1] H2]; split; [done|]; rewrite H1, H2; lia|].
      intros [Hd Hm]. assert (0 <= 2 ^ a * ((shr_m x / 2 ^ a) mod 2 ^ b)) by (apply Z.mul_nonneg_nonneg; lia).
      assert (shr_m x mod 2 ^ a = 0) as H1 by lia. rewrite H1 in Hm. split; [done|]. nia. }
  assert (forall x, 0 <= shr_m x -> shr_m (shr_1 x) = shr_m x / 2 ^ 1
    /\ (dropped (shr_1 x) = false <-> dropped x = false /\ shr_m x mod 2 ^ 1 = 0)) as H1 by (intros; by apply shr_1_spec).
  assert (forall x, 0 <= shr_m x -> forall k, 0 <= shr_m x / 2 ^ k) as Hpos.
  { intros x Hx k. destruct (Z.le_gt_cases 0 k) as [Hk|Hk].
    - apply Z.div_pos; [done|]. apply Z.pow_pos_nonneg; lia.
    - rewrite Z.pow_neg_r by lia. by rewrite Z.div_0_r. }
  induction n as [n IH|n IH|]; intros x Hx; cbn [iter_pos]; [| |by apply H1].
  - destruct (H1 x Hx) as [E1 D1]. destruct (IH (shr_1 x)) as [E2 D2]; [by rewrite E1; apply Hpos|].
    destruct (IH (SpecFloat.iter_pos shr_1 n (shr_1 x))) as [E3 D3]; [by rewrite E2; apply (Hpos (SpecFloat.shr_1 x)); rewrite E1; apply Hpos|].
    replace (Zpos n~1) with (1 + Zpos n + Zpos n) by lia.
    destruct (Hcomp 1 (Zpos n) x _ _ ltac:(lia) ltac:(lia) Hx E1 D1 E2 D2) as [E12 D12].
    exact (Hcomp (1 + Zpos n) (Zpos n) x _ _ ltac:(lia) ltac:(lia) Hx E12 D12 E3 D3).
  - destruct (IH x Hx) as [E2 D2]. destruct (IH (SpecFloat.iter_pos shr_1 n x)) as [E3 D3]; [by rewrite E2; apply Hpos|].
    replace (Zpos n~0) with (Zpos n + Zpos n) by lia.
    exact (Hcomp (Zpos n) (Zpos n) x _ _ ltac:(lia) ltac:(lia) Hx E2 D2 E3 D3).
Qed.

(** Shifting to the exponent [fexp64] of the value. *)
Lemma shr_fexp_none m e : fexp64 (Zdigits2 m + e) <= e ->
  shr_fexp prec emax m e loc_Exact = (Build_shr_record m false false, e).
Proof. intros H. unfold shr_fexp, shr. cbn [shr_record_of_loc]. by destruct (_ - e) eqn:E; [| lia|]. Qed.

Lemma shr_fexp_some p e : e < fexp64 (digits p + e) ->
  exists r, shr_fexp prec emax (Zpos p) e loc_Exact = (r, fexp64 (digits p + e))
    /\ shr_m r = Zpos p / 2 ^ (fexp64 (digits p + e) - e)
    /\ (dropped r = false <-> Zpos p mod 2 ^ (fexp64 (digits p + e) - e) = 0).
Proof.
  intros H. unfold shr_fexp, shr. cbn [shr_record_of_loc Zdigits2].
  destruct (fexp64 (digits p + e) - e) as [|n|n] eqn:E; [lia| |lia].
  eexists. split; [f_equal; lia|]. destruct (shr_iter_spec n (Build_shr_record (Zpos p) false false)) as [E1 D1]; [done|].
  split; [exact E1|]. rewrite D1. cbn. by split; [intros [_ ?]|].
Qed.

(** Rounding adds one at most, and only when something was dropped. *)
Lemma round_bounds r : 0 <= shr_m r ->
  let m := round_nearest_even (shr_m r) (loc_of_shr_record r) in
  shr_m r <= m <= shr_m r + 1 /\ (dropped r = false -> m = shr_m r).
Proof.
  destruct r as [m [|] [|]]; cbn; intros Hm; (split; [|done]); try lia. destruct (Z.even m); lia.
Qed.

(** ** Rounding a positive integer times a power of two *)

Definition pack (s : bool) (m e : Z) : float :=
  match m with
  | Zpos p => if e <=? emax - prec then S754_finite s p e else S754_infinity s
  | _ => S754_zero s
  end.

(** The result has the exponent [fexp64] of the value, or the next one when the
    mantissa rounds up to a power of two. *)
Lemma binary_round_spec s p e :
  let E := fexp64 (digits p + e) in
  exists m e', binary_round prec emax s p e = pack s m e' /\ 0 <= m
  /\ (E <= e -> m = Zpos p * 2 ^ (e - E) /\ e' = E)
  /\ (e < E -> (e' = E /\ Zpos p / 2 ^ (E - e) <= m <= Zpos p / 2 ^ (E - e) + 1
                /\ (Zpos p mod 2 ^ (E - e) = 0 -> m = Zpos p / 2 ^ (E - e)) /\ m < 2 ^ 53)
             \/ (e' = E + 1 /\ m = 2 ^ 52 /\ Zpos p / 2 ^ (E - e) = 2 ^ 53 - 1)).
Proof.
  intros E. assert (HE : E = fexp64 (digits p + e)) by done. unfold binary_round. rewrite <- HE.
  pose proof (fexp_emin (digits p + e)) as Hemin. rewrite <- HE in Hemin.
  destruct (Z.le_gt_cases E e) as [Hle|Hgt].
  - destruct (shl_align p e E) as [q e1] eqn:Es. pose proof (shl_align_le p e E Hle) as [Eq Ee].
    rewrite Es in Eq, Ee. cbn [fst snd] in Eq, Ee. subst e1.
    assert (digits q + E = digits p + e) as Hd.
    { rewrite !digits_log2, Eq, Z.log2_mul_pow2 by lia. lia. }
    exists (Zpos q), E. split; [|split; [lia|split; [by rewrite <- Eq|lia]]].
    unfold binary_round_aux. rewrite shr_fexp_none by (cbn [Zdigits2]; rewrite Hd; lia). cbn [shr_m loc_of_shr_record round_nearest_even].
    rewrite shr_fexp_none by (cbn [Zdigits2]; rewrite Hd; lia). done.
  - rewrite shl_align_ge by lia. unfold binary_round_aux.
    destruct (shr_fexp_some p e) as (r & -> & Hm & Hdrop); [lia|]. rewrite <- HE in *.
    set (n := E - e) in *. pose proof (Z.pow_pos_nonneg 2 n ltac:(lia) ltac:(lia)) as Hpow.
    assert (0 <= Zpos p / 2 ^ n) as Hq by (apply Z.div_pos; lia).
    assert (Zpos p / 2 ^ n < 2 ^ 53) as Hq53.
    { apply Z.div_lt_upper_bound; [lia|]. rewrite <- Z.pow_add_r by lia.
      apply (Z.lt_le_trans _ (2 ^ digits p)); [apply digits_bounds|]. apply Z.pow_le_mono_r; [lia|].
      unfold fexp, prec in HE. lia. }
    destruct (round_bounds r ltac:(lia)) as [Hb Hex]. cbv zeta in Hb, Hex.
    set (m1 := round_nearest_even (shr_m r) (loc_of_shr_record r)) in *. rewrite Hm in *.
    assert (Zpos p mod 2 ^ n = 0 -> m1 = Zpos p / 2 ^ n) as Hex' by (intros H; apply Hex, Hdrop, H).
    assert (emin prec emax = -1074) as Hmin by reflexivity.
    destruct (Z.eq_dec m1 (2 ^ 53)) as [H53|H53].
    + exists (2 ^ 52), (E + 1). split; [|split; [lia|split; [lia|]]].
      2: { intros _. right. split; [done|]. split; [done|]. lia. }
      destruct m1 as [|q|q] eqn:Eq; [lia| |lia].
      assert (digits q = 54) as Hdq by (rewrite digits_log2, H53; reflexivity).
      assert (fexp64 (digits q + E) = E + 1) as Hf by (rewrite Hdq; revert Hemin; unfold fexp, emin, emax, prec; lia).
      destruct (shr_fexp_some q E) as (r2 & -> & Hm2 & _); [lia|]. rewrite Hf in *.
      replace (E + 1 - E) with 1 in Hm2 by lia. by rewrite Hm2, H53.
    + exists m1, E. split; [|split; [lia|split; [lia|left; split; [done|split; [lia|split; [done|lia]]]]]].
      rewrite shr_fexp_none; [|]; cbn [shr_m].
      * by destruct m1 as [|q|q]; [..|lia].
      * destruct m1 as [|q|q]; [|  |lia]; cbn [Zdigits2].
        { revert Hemin; unfold fexp, emin, emax, prec; lia. }
        assert (digits q <= 53) by (apply digits_le; lia). revert Hemin; unfold fexp, emin, emax, prec; lia.
Qed.

Lemma digits_shift m k : 0 <= k -> Z.log2 (Zpos m * 2 ^ k) + 1 = digits m + k.
Proof. intros Hk. rewrite digits_log2, Z.log2_mul_pow2 by lia. lia. Qed.

Lemma valid_finite s m e : valid (S754_finite s m e) = true -> fexp64 (digits m + e) = e /\ e <= emax - prec.
Proof.
  cbn. unfold bounded, canonical_mantissa. intros H. apply andb_true_iff in H as [H1 H2].
  apply Z.eqb_eq in H1. apply Z.leb_le in H2. done.
Qed.

(** A value at least that of [m * 2^e] rounds to something no smaller. *)
Lemma round_up p e mx ex : valid (S754_finite false mx ex) = true -> e <= ex ->
  Zpos mx * 2 ^ (ex - e) <= Zpos p ->
  SFltb (binary_round prec emax false p e) (S754_finite false mx ex) = false.
Proof.
  intros Hv He Hp. apply valid_finite in Hv as [Hcan Hmax].
  destruct (binary_round_spec false p e) as (m & e' & -> & Hm & Hle & Hgt). set (E := fexp64 (digits p + e)) in *.
  assert (digits mx + ex <= digits p + e) as Hd.
  { pose proof (digits_shift mx (ex - e) ltac:(lia)). pose proof (Z.log2_le_mono _ _ Hp). rewrite (digits_log2 p). lia. }
  pose proof (fexp_mono _ _ Hd) as HE. fold E in HE. rewrite Hcan in HE.
  pose proof (Z.pow_pos_nonneg 2 (ex - e) ltac:(lia) ltac:(lia)) as Hpow.
  assert (0 < m /\ (ex < e' \/ (e' = ex /\ Zpos mx <= m))) as [Hm0 Hcase].
  { destruct (Z.le_gt_cases E e) as [H1|H1].
    - destruct (Hle H1) as [-> ->]. assert (E = ex) as -> by lia. assert (e = ex) as -> by lia.
      rewrite Z.sub_diag in *. cbn in *. split; [lia|]. right. split; lia.
    - destruct (Hgt ltac:(lia)) as [(-> & Hb & _)|(-> & -> & _)]; [|split; [reflexivity|left; lia]].
      destruct (Z.eq_dec E ex) as [->|Hne].
      + assert (Zpos mx <= Zpos p / 2 ^ (ex - e)) by (apply Z.div_le_lower_bound; lia). split; [lia|right; split; lia].
      + split; [|left; lia]. assert (0 < Zpos p / 2 ^ (E - e)); [|lia].
        apply Z.div_str_pos. split; [apply Z.pow_pos_nonneg; lia|].
        apply (Z.le_trans _ (2 ^ (digits p - 1))); [|apply digits_bounds]. apply Z.pow_le_mono_r; [lia|].
        pose proof (fexp_emin (digits mx + ex)). assert (E = digits p + e - 53) as ->; [|lia].
        revert Hne HE H. rewrite Hcan. subst E. unfold fexp, prec. lia. }
  destruct m as [|q|q]; [lia| |lia]. cbn [pack]. destruct (Z.leb_spec e' (emax - prec)); [|done].
  unfold SFltb. cbn [SFcompare]. destruct Hcase as [Hlt|[-> Hq]].
  - by rewrite (proj2 (Z.compare_gt_iff e' ex) Hlt).
  - rewrite Z.compare_refl. change (match Pos.compare q mx with Lt => true | _ => false end = false).
    destruct (Pos.compare_spec q mx); [done|lia|done].
Qed.

(** A value below that of [m * 2^e] rounds to something no greater. *)
Lemma round_down p e mx ex : valid (S754_finite true mx ex) = true -> e <= ex ->
  Zpos p < Zpos mx * 2 ^ (ex - e) ->
  SFltb (binary_round prec emax true p e) (S754_finite true mx ex) = false.
Proof.
  intros Hv He Hp. apply valid_finite in Hv as [Hcan Hmax].
  destruct (binary_round_spec true p e) as (m & e' & -> & Hm & Hle & Hgt). set (E := fexp64 (digits p + e)) in *.
  assert (digits p + e <= digits mx + ex) as Hd.
  { pose proof (digits_shift mx (ex - e) ltac:(lia)). pose proof (Z.log2_le_mono (Zpos p) _ ltac:(apply Z.lt_le_incl, Hp)).
    rewrite (digits_log2 p). lia. }
  pose proof (fexp_mono _ _ Hd) as HE. fold E in HE. rewrite Hcan in HE.
  pose proof (digits_bounds mx) as [_ Hmx].
  assert (Zpos mx < 2 ^ 53) as Hmx53.
  { apply (Z.lt_le_trans _ _ _ Hmx). apply Z.pow_le_mono_r; [lia|]. revert Hcan. unfold fexp, prec. lia. }
  assert (e' < ex \/ (e' = ex /\ m <= Zpos mx)) as Hcase.
  { destruct (Z.le_gt_cases E e) as [H1|H1].
    - destruct (Hle H1) as [-> ->]. destruct (Z.eq_dec E ex) as [->|]; [|left; lia].
      assert (e = ex) as -> by lia. rewrite Z.sub_diag in *. right. split; lia.
    - pose proof (Z.pow_pos_nonneg 2 (E - e) ltac:(lia) ltac:(lia)) as Hpow.
      assert (Zpos p / 2 ^ (E - e) < Zpos mx * 2 ^ (ex - E)) as Hdiv.
      { apply Z.div_lt_upper_bound; [lia|]. rewrite (Z.mul_comm (2 ^ (E - e))), <- Z.mul_assoc, <- Z.pow_add_r by lia.
        by replace (ex - E + (E - e)) with (ex - e) by lia. }
      destruct (Hgt ltac:(lia)) as [(-> & Hb & _)|(-> & -> & Hq)].
      + destruct (Z.eq_dec E ex) as [->|]; [|left; lia]. rewrite Z.sub_diag in Hdiv. right. split; lia.
      + destruct (Z.eq_dec E ex) as [->|]; [rewrite Z.sub_diag in Hdiv; lia|].
        destruct (Z.eq_dec (E + 1) ex) as [<-|]; [|left; lia].
        replace (E + 1 - E) with 1 in Hdiv by lia. right. split; lia. }
  assert (e' <= emax - prec) as Hem by lia.
  destruct m as [|q|q]; [done| |done]. cbn [pack]. rewrite (proj2 (Z.leb_le _ _) Hem).
  unfold SFltb. cbn [SFcompare]. destruct Hcase as [Hlt|[-> Hq]].
  - by rewrite (proj2 (Z.compare_lt_iff e' ex) Hlt).
  - rewrite Z.compare_refl. change (match CompOpp (Pos.compare q mx) with Lt => true | _ => false end = false).
    destruct (Pos.compare_spec q mx); [done|done|lia].
Qed.

(** [x <= x + y], in the sense of the comparison, for [y > 0]. *)
Theorem fadd_not_below x y : valid x = true -> fltb fzero y = true -> fgtb x (fadd x y) = false.
Proof.
  unfold fgtb, fltb, fzero, fadd. intros Hv Hy.
  destruct y as [[]|[]| |[] my ey]; try discriminate Hy; destruct x as [[]|[]| |[] mx ex]; try done.
  - cbn [SFadd]. set (ez := Z.min ex ey). cbn [cond_Zopp].
    rewrite (proj1 (shl_align_le mx ex ez ltac:(lia))), (proj1 (shl_align_le my ey ez ltac:(lia))).
    pose proof (Z.pow_pos_nonneg 2 (ey - ez) ltac:(lia) ltac:(lia)).
    destruct (- (Zpos mx * 2 ^ (ex - ez)) + Zpos my * 2 ^ (ey - ez)) as [|p|p] eqn:Es; cbn [binary_normalize]; [done| |].
    + destruct (binary_round_spec false p ez) as (m & e' & -> & _). destruct m as [|q|q]; cbn; [done| |done].
      by destruct (e' <=? _).
    + apply round_down; [done|lia|]. lia.
  - cbn [SFadd]. set (ez := Z.min ex ey). cbn [cond_Zopp].
    rewrite (proj1 (shl_align_le mx ex ez ltac:(lia))), (proj1 (shl_align_le my ey ez ltac:(lia))).
    pose proof (Z.pow_pos_nonneg 2 (ey - ez) ltac:(lia) ltac:(lia)).
    pose proof (Z.pow_pos_nonneg 2 (ex - ez) ltac:(lia) ltac:(lia)).
    destruct (Zpos mx * 2 ^ (ex - ez) + Zpos my * 2 ^ (ey - ez)) as [|p|p] eqn:Es; cbn [binary_normalize]; [lia| |lia].
    apply round_up; [done|lia|]. lia.
Qed.

(** ** Positive numbers *)

Lemma fadd_comm x y : fadd x y = fadd y x.
Proof.
  unfold fadd. destruct x as [[]|[]| |sx mx ex], y as [[]|[]| |sy my ey]; try done.
  cbn [SFadd]. by rewrite (Z.min_comm ex ey), Z.add_comm.
Qed.
(** [x <= y <= z], in the sense of the comparison, around a positive [y]. *)
Lemma not_above_trans x y z : fgtb y fzero = true -> fgtb x y = false -> fgtb y z = false -> fgtb x z = false.
Proof.
  unfold fgtb, SFltb, fzero. intros Hy Hxy Hyz.
  destruct y as [[]|[]| |[] my ey]; try discriminate Hy; destruct x as [[]|[]| |[] mx ex], z as [[]|[]| |[] mz ez];
    try done; cbn [SFcompare] in *.
  destruct (Z.compare_spec ez ex) as [E|E|E]; [|lia || (exfalso)|done].
  - destruct (Z.compare_spec ey ex) as [E1|E1|E1]; [|discriminate Hxy|destruct (Z.compare_spec ez ey); (lia || discriminate Hyz)].
    destruct (Z.compare_spec ez ey) as [E2|E2|E2]; [|discriminate Hyz|lia].
    change (Pos.compare_cont Eq my mx) with (Pos.compare my mx) in Hxy. change (Pos.compare_cont Eq mz my) with (Pos.compare mz my) in Hyz.
    change (Pos.compare_cont Eq mz mx) with (Pos.compare mz mx).
    destruct (Pos.compare_spec my mx); try discriminate Hxy; destruct (Pos.compare_spec mz my); try discriminate Hyz;
      destruct (Pos.compare_spec mz mx); (done || lia).
  - destruct (Z.compare_spec ey ex); [destruct (Z.compare_spec ez ey); (lia || discriminate Hyz)|discriminate Hxy|
      destruct (Z.compare_spec ez ey); (lia || discriminate Hyz)].
Qed.
(** Adding something positive, or nothing, to a positive number gives no less. *)
Lemma not_above_sum m a : valid a = true -> fgtb a fzero = true -> m = fzero \/ fgtb m fzero = true ->
  fgtb a (fadd m a) = false /\ fgtb (fadd m a) fzero = true.
Proof.
  intros Hv Ha Hm. assert (fgtb a (fadd m a) = false) as Hs.
  { destruct Hm as [->|Hm]; [|rewrite fadd_comm; by apply fadd_not_below]. unfold fgtb, SFltb, fzero, fadd in *.
    destruct a as [[]|[]| |[] ma ea]; try discriminate Ha; [done|]. cbn [SFadd SFcompare].
    by rewrite Z.compare_refl, Pos.compare_refl. }
  split; [done|]. unfold fgtb in *. unfold fltb, SFltb, fzero in *. revert Hs. unfold fadd.
  destruct a as [[]|[]| |[] ma ea]; try discriminate Ha;
    (destruct Hm as [->|Hm]; [try done|destruct m as [[]|[]| |[] mm em]; try discriminate Hm; try done]).
  assert (SFadd prec emax (S754_finite false mm em) (S754_finite false ma ea) <> S754_nan) as Hn.
  { cbn [SFadd cond_Zopp]. destruct (Zpos _ + Zpos _) as [|p|p] eqn:E; cbn [binary_normalize]; [done| |done].
    destruct (binary_round_spec false p (Z.min em ea)) as (m & e' & -> & _). destruct m; cbn; [done| |done].
    by destruct (e' <=? _). }
  by destruct (SFadd prec emax _ _) as [[]|[]| |[] mr er].
Qed.
