(* ===== verification/PyFloatRange.v ===== *)
(** * Sums that stay in a range

    Rounding gives numbers of the format, a sum or product of numbers that are not
    negative is not negative, and taking something away never gives more. *)

From Stdlib Require Import SpecFloat.
From S2P Require Import Prelude PyFloat PyFloatOrder.
#[local] Open Scope Z_scope.

(** ** Numbers of the format *)

Lemma valid_intro s q e : fexp64 (digits q + e) = e -> e <= emax - prec -> valid (S754_finite s q e) = true.
Proof. intros H1 H2. cbn. unfold bounded, canonical_mantissa. rewrite H1, Z.eqb_refl. by apply Z.leb_le. Qed.
Lemma digits_of q n : 0 <= n -> 2 ^ n <= Zpos q < 2 ^ (n + 1) -> digits q = n + 1.
Proof. intros Hn [H1 H2]. rewrite digits_log2. rewrite (Z.log2_unique (Zpos q) n); lia. Qed.

Lemma valid_round s p e : valid (binary_round prec emax s p e) = true.
Proof.
  destruct (binary_round_spec s p e) as (m & e' & -> & Hm & Hle & Hgt). set (E := fexp64 (digits p + e)) in *.
  destruct m as [|q|q]; [done| |lia]. cbn [pack]. destruct (Z.leb_spec e' (emax - prec)); [|done]. apply valid_intro; [|done].
  destruct (Z.le_gt_cases E e) as [H1|H1].
  - destruct (Hle H1) as [Eq ->]. replace (digits q + E) with (digits p + e); [done|].
    rewrite !digits_log2, Eq, Z.log2_mul_pow2 by lia. lia.
  - pose proof (Z.pow_pos_nonneg 2 (E - e) ltac:(lia) ltac:(lia)) as Hpow.
    assert (E = digits p + e - 53 \/ E = -1074) as HE by (subst E; unfold fexp, emin, prec, emax; lia).
    assert (-1074 <= E) as Hmin by (subst E; unfold fexp, emin, prec, emax; lia).
    destruct (Hgt ltac:(lia)) as [(-> & Hb & _ & Hlt)|(-> & Hq & _)].
    2:{ rewrite (digits_of q 52) by lia. unfold fexp, emin, prec, emax. lia. }
    destruct HE as [HE|HE].
    + rewrite (digits_of q 52); [unfold fexp, emin, prec, emax; lia|lia|]. split; [|lia].
      apply (Z.le_trans _ (Zpos p / 2 ^ (E - e))); [|lia]. apply Z.div_le_lower_bound; [lia|]. rewrite <- Z.pow_add_r by lia.
      replace (E - e + 52) with (digits p - 1) by lia. apply digits_bounds.
    + assert (digits q <= 53) by (apply digits_le; lia). rewrite HE. unfold fexp, emin, prec, emax. lia.
Qed.
Lemma valid_normalize m e szero : valid (binary_normalize prec emax m e szero) = true.
Proof. destruct m; [done|apply valid_round..]. Qed.

Lemma valid_fadd x y : valid x = true -> valid y = true -> valid (fadd x y) = true.
Proof.
  intros Hx Hy. unfold fadd. destruct x as [[]|[]| |sx mx ex], y as [[]|[]| |sy my ey]; try done. apply valid_normalize.
Qed.
Lemma fsub_add x y : fsub x y = fadd x (SFopp y).
Proof.
  unfold fsub, fadd. destruct x as [[]|[]| |sx mx ex], y as [[]|[]| |sy my ey]; try done. cbn [SFsub SFadd SFopp].
  f_equal. destruct sy; cbn; lia.
Qed.
Lemma valid_opp x : valid (SFopp x) = valid x.
Proof. by destruct x. Qed.

(** ** Signs *)

(** Not negative, or no number. *)
Definition nonneg (x : float) : Prop := match x with S754_zero _ | S754_infinity false | S754_nan | S754_finite false _ _ => True | _ => False end.
Lemma nonneg_round p e : nonneg (binary_round prec emax false p e).
Proof.
  destruct (binary_round_spec false p e) as (m & e' & -> & Hm & _). destruct m; cbn; [done| |done]. by destruct (e' <=? _).
Qed.
Lemma nonneg_fadd x y : nonneg x -> nonneg y -> nonneg (fadd x y).
Proof.
  unfold fadd. destruct x as [[]|[]| |[] mx ex], y as [[]|[]| |[] my ey]; try done. intros _ _. cbn [SFadd cond_Zopp].
  destruct (Zpos _ + Zpos _) eqn:E; [done|apply nonneg_round|lia].
Qed.
Lemma nonneg_fmul x y : nonneg x -> nonneg y -> nonneg (fmul x y).
Proof.
  unfold fmul. destruct x as [[]|[]| |[] mx ex], y as [[]|[]| |[] my ey]; try done. intros _ _. cbn [SFmul xorb].
  unfold binary_round_aux. destruct (shr_fexp _ _ _ _ _) as [r e']. destruct (shr_fexp _ _ _ _ _) as [r' e''].
  destruct (shr_m r'); [done|by destruct (e'' <=? _)|done].
Qed.

(** ** Order *)

Lemma fleb_not_above x y : x <> S754_nan -> y <> S754_nan -> fgtb x y = false -> fleb x y = true.
Proof.
  unfold fgtb, fleb, SFltb, SFleb. destruct x as [[]|[]| |[] mx ex], y as [[]|[]| |[] my ey]; try done; cbn [SFcompare];
    intros _ _; destruct (Z.compare_spec ey ex), (Z.compare_spec ex ey); try lia; try done;
    change (Pos.compare_cont Eq my mx) with (Pos.compare my mx); change (Pos.compare_cont Eq mx my) with (Pos.compare mx my);
    destruct (Pos.compare_spec my mx), (Pos.compare_spec mx my); cbn; (lia || done).
Qed.
Lemma fleb_above x y : fleb x y = true -> fgtb x y = false.
Proof.
  unfold fgtb, fleb, SFltb, SFleb. destruct x as [[]|[]| |[] mx ex], y as [[]|[]| |[] my ey]; try done; cbn [SFcompare];
    destruct (Z.compare_spec ey ex), (Z.compare_spec ex ey); try lia; try done;
    change (Pos.compare_cont Eq my mx) with (Pos.compare my mx); change (Pos.compare_cont Eq mx my) with (Pos.compare mx my);
    destruct (Pos.compare_spec my mx), (Pos.compare_spec mx my); cbn; (lia || done).
Qed.
Lemma fleb_lt x y : fltb x y = true -> fleb x y = true.
Proof. unfold fltb, fleb, SFltb, SFleb. by destruct (SFcompare x y) as [[]|]. Qed.
Lemma fleb_zero x : fleb fzero x = true <-> nonneg x /\ x <> S754_nan.
Proof. unfold fleb, fzero, SFleb. destruct x as [[]|[]| |[] m e]; cbn; naive_solver. Qed.

Lemma binary_round_opp p e : binary_round prec emax true p e = SFopp (binary_round prec emax false p e).
Proof.
  unfold binary_round. destruct (shl_align _ _ _) as [q e']. unfold binary_round_aux. destruct (shr_fexp _ _ _ _ _) as [r e1].
  destruct (shr_fexp _ _ _ _ _) as [r' e2]. destruct (shr_m r'); [done|by destruct (e2 <=? _)|done].
Qed.
(** A value below that of [m * 2^e] rounds to something no greater. *)
Lemma round_below p e mx ex : valid (S754_finite false mx ex) = true -> e <= ex -> Zpos p < Zpos mx * 2 ^ (ex - e) ->
  fgtb (binary_round prec emax false p e) (S754_finite false mx ex) = false.
Proof.
  intros Hv He Hp. pose proof (round_down p e mx ex Hv He Hp) as H. rewrite binary_round_opp in H. revert H.
  pose proof (nonneg_round p e) as Hn. destruct (binary_round prec emax false p e) as [[]|[]| |[] m e']; try done.
  unfold fgtb, SFltb. cbn [SFopp negb SFcompare]. destruct (Z.compare_spec e' ex), (Z.compare_spec ex e'); try lia; try done.
  change (Pos.compare_cont Eq m mx) with (Pos.compare m mx). change (Pos.compare_cont Eq mx m) with (Pos.compare mx m).
  destruct (Pos.compare_spec m mx), (Pos.compare_spec mx m); cbn; (lia || done).
Qed.
(** [x - y <= x], in the sense of the comparison, for [y > 0], when the difference is positive. *)
Lemma fsub_not_above x y : valid x = true -> fgtb y fzero = true -> fgtb (fsub x y) fzero = true ->
  fgtb (fsub x y) x = false /\ fgtb x fzero = true.
Proof.
  unfold fsub. intros Hv Hy. destruct x as [[]|[]| |[] mx ex], y as [[]|[]| |[] my ey]; try discriminate Hy; try done;
    cbn [SFsub cond_Zopp].
  - destruct (- Zpos _ - Zpos _) as [|p|p] eqn:E; [done|lia|]. cbn [binary_normalize]. rewrite binary_round_opp.
    pose proof (nonneg_round p (Z.min ex ey)). by destruct (binary_round _ _ _ _ _) as [[]|[]| |[] m e'].
  - set (ez := Z.min ex ey). rewrite (proj1 (shl_align_le mx ex ez ltac:(lia))), (proj1 (shl_align_le my ey ez ltac:(lia))).
    pose proof (Z.pow_pos_nonneg 2 (ey - ez) ltac:(lia) ltac:(lia)).
    destruct (Zpos mx * 2 ^ (ex - ez) - Zpos my * 2 ^ (ey - ez)) as [|p|p] eqn:Es; cbn [binary_normalize]; [done| |].
    + split; [|done]. apply round_below; [done|lia|]. lia.
    + rewrite binary_round_opp. pose proof (nonneg_round p ez). by destruct (binary_round _ _ _ _ _) as [[]|[]| |[] m e'].
Qed.

(** ** A range from zero *)

Definition in_range (hi x : float) : Prop := valid x = true /\ fleb fzero x = true /\ fleb x hi = true.

Lemma range_zero hi : fleb fzero hi = true -> in_range hi fzero.
Proof. done. Qed.
Lemma not_nan_fleb x y : fleb x y = true -> x <> S754_nan /\ y <> S754_nan.
Proof. intros H. split; intros ->; [done|]. destruct x as [[]|[]| |[] m e]; done. Qed.
(** What is left of a number in the range, if it is positive. *)
Lemma range_sub hi x y : in_range hi x -> fgtb y fzero = true -> fgtb (fsub x y) fzero = true -> in_range hi (fsub x y).
Proof.
  intros (Hv & H0 & Hh) Hp Hd. destruct (fsub_not_above x y Hv Hp Hd) as [Hle Hpos]. split; [|split].
  - clear - Hv Hp Hd. revert Hp Hd. unfold fsub. destruct x as [[]|[]| |[] mx ex], y as [[]|[]| |[] my ey]; try done;
      intros _ _; apply valid_normalize.
  - by apply fleb_lt.
  - destruct (not_nan_fleb _ _ Hh) as [_ Hn]. apply fleb_not_above; [|done|].
    + intros E. by rewrite E in Hd.
    + apply (not_above_trans _ x); [done|done|]. by apply fleb_above.
Qed.
Lemma range_add hi x y : in_range hi x -> valid y = true -> nonneg y -> fltb (fadd x y) hi = true -> in_range hi (fadd x y).
Proof.
  intros (Hv & H0 & Hh) Hy Hn Hlt. apply fleb_zero in H0 as [H0 _]. split; [by apply valid_fadd|]. apply fleb_lt in Hlt.
  split; [|done]. apply fleb_zero. split; [by apply nonneg_fadd|]. by destruct (not_nan_fleb _ _ Hlt).
Qed.
