(* ===== verification/PyRepr.v ===== *)
(** * Python's [repr] of floats and of texts

    [repr] of a float (also its [str]): the shortest decimal that is read back as
    the same number, the closest one of those; [repr] of a text, with its quotes
    and escapes. *)

From Stdlib Require Import SpecFloat.
From S2P Require Import Prelude PyBytes PyFloat.
#[local] Open Scope string_scope.
#[local] Open Scope Z_scope.

(** ** Floats *)

(** The greatest [k] with [10^k <= n / d], from a guess that is not above it. *)
Fixpoint exponent_from (fuel : nat) (k : Z) (n d : Z) : Z :=
  match fuel with
  | O => k
  | S f =>
      let k' := k + 1 in
      if (d * 10 ^ Z.max 0 k' <=? n * 10 ^ Z.max 0 (- k')) then exponent_from f k' n d else k
  end.
Definition decimal_exponent (n d : Z) : Z :=
  exponent_from 8 ((Z.log2 n - Z.log2 d) * 30103 / 100000 - 2) n d.

(** [n / d] is between [q] and [q + 1] units of [10^u]: the candidates of a
    precision, the closer first. *)
Definition candidates_at (u n d : Z) : list Z :=
  let n := n * 10 ^ Z.max 0 (- u) in
  let d := d * 10 ^ Z.max 0 u in
  let q := n / d in
  if 2 * (n mod d) <? d then [q; q + 1] else if 2 * (n mod d) =? d then (if Z.even q then [q; q + 1] else [q + 1; q])
  else [q + 1; q].
Definition same_float (x : float) (v u : Z) : bool := feqb x (scale10 v u).
(** Digits and unit of the shortest decimal, with [p] digits or more. *)
Fixpoint shortest (fuel : nat) (p k : Z) (x : float) (n d : Z) : Z * Z :=
  let u := k - p + 1 in
  match List.find (fun v => same_float x v u) (candidates_at u n d) with
  | Some v => (v, u)
  | None => match fuel with O => (n / d, 0) | S f => shortest f (p + 1) k x n d end
  end.

Fixpoint zeros (n : nat) : string := match n with O => "" | S n => String "0" (zeros n) end.
(** Without the zeros at the end, which raise the unit. *)
Fixpoint strip_zeros (fuel : nat) (v u : Z) : Z * Z :=
  match fuel with
  | O => (v, u)
  | S f => if (v mod 10 =? 0) && negb (v =? 0) then strip_zeros f (v / 10) (u + 1) else (v, u)
  end.
Definition two_digits (n : Z) : string := (if n <? 10 then "0" else "") ++ py_str_int n.

(** [point]: the place of the decimal point in the digits. *)
Definition layout (v u : Z) : string :=
  let ds := py_str_int v in
  let len := Z.of_nat (String.length ds) in
  let point := len + u in
  if (-4 <? point) && (point <=? 16) then
    if point <=? 0 then "0." ++ zeros (Z.to_nat (- point)) ++ ds
    else if len <=? point then ds ++ zeros (Z.to_nat (point - len)) ++ ".0"
    else substring 0 (Z.to_nat point) ds ++ "." ++ substring (Z.to_nat point) (Z.to_nat (len - point)) ds
  else
    let e := point - 1 in
    substring 0 1 ds ++ (if len =? 1 then "" else "." ++ substring 1 (Z.to_nat (len - 1)) ds)
      ++ "e" ++ (if e <? 0 then "-" else "+") ++ two_digits (Z.abs e).

Definition repr_float (x : float) : string :=
  match x with
  | S754_nan => "nan"
  | S754_infinity s => if s then "-inf" else "inf"
  | S754_zero s => if s then "-0.0" else "0.0"
  | S754_finite s m e =>
      let n := Zpos m * 2 ^ Z.max 0 e in
      let d := 2 ^ Z.max 0 (- e) in
      let '(v, u) := shortest 17 1 (decimal_exponent n d) (S754_finite false m e) n d in
      let '(v, u) := strip_zeros 20 v u in
      (if s then "-" else "") ++ layout v u
  end.

Example repr_float_examples :
  map repr_float [float_of_ratio 1 10; float_of_int 10; float_of_ratio (-25) 2; fadd (float_of_ratio 1 10) (float_of_ratio 2 10);
                  float_of_int (10 ^ 16); float_of_int (10 ^ 15 + 1); float_of_ratio 1 10000; float_of_ratio 1 100000;
                  float_of_int (10 ^ 23); float_of_ratio 100 3; S754_finite false 1 (-1074); float_of_int 9007199254740993]
  = ["0.1"; "10.0"; "-12.5"; "0.30000000000000004"; "1e+16"; "1000000000000001.0"; "0.0001"; "1e-05"; "1e+23";
     "33.333333333333336"; "5e-324"; "9007199254740992.0"]%string.
Proof. by vm_compute. Qed.

(** ** Texts *)

Definition hex2 (c : ascii) : string :=
  let n := Z.of_nat (nat_of_ascii c) in String (hex_digit (n / 16)) (String (hex_digit (n mod 16)) "").
(** Code points below 256 that [str.isprintable] refuses. *)
Definition unprintable (c : ascii) : bool :=
  let n := nat_of_ascii c in ((n <? 32) || ((127 <=? n) && (n <=? 160)) || (n =? 173))%nat.
Definition repr_char (quote c : ascii) : string :=
  if bool_decide (c = quote) || bool_decide (c = "\"%char) then String "\" (String c "")
  else if bool_decide (c = "010"%char) then "\n"
  else if bool_decide (c = "013"%char) then "\r"
  else if bool_decide (c = "009"%char) then "\t"
  else if unprintable c then "\x" ++ hex2 c
  else String c "".
Fixpoint repr_body (quote : ascii) (s : string) : string :=
  match s with
  | EmptyString => ""
  | String c r => repr_char quote c ++ repr_body quote r
  end.
Fixpoint has_char (c : ascii) (s : string) : bool :=
  match s with
  | EmptyString => false
  | String c' r => bool_decide (c' = c) || has_char c r
  end.
(** Single quotes, unless there is one inside and no double quote. *)
Definition repr_str (s : string) : string :=
  let quote := if has_char "039"%char s && negb (has_char "034"%char s) then "034"%char else "039"%char in
  String quote (repr_body quote s ++ String quote "").

Example repr_str_examples :
  map repr_str ["a\b"; "it's"; String "010" (String "007" "")] = ["'a\\b'"; String "034" ("it's" ++ String "034" ""); "'\n\x07'"].
Proof. by vm_compute. Qed.
