(* ===== verification/PyHoare.v ===== *)
(** * Rules for operations of the monad [M]

    [keeps I m]: the operation [m] leaves the property [I] of the state true,
    whether it returns or raises; [triple P m Q]: when [m] is run where [P] holds
    and returns, [Q] holds of the result and the state.  One rule per construct,
    and tactics that apply them along an operation. *)

From S2P Require Import Prelude.

Section Keeps.
Context {S E : Type} (I : S -> Prop).

Definition keeps {A} (m : M S E A) : Prop := forall s, I s -> I (run_state m s).

Lemma keeps_bind {A B} (m : M S E A) (f : A -> M S E B) :
  keeps m -> (forall a, keeps (f a)) -> keeps (py_bind m f).
Proof.
  intros Hm Hf s Hs. unfold run_state, py_bind. specialize (Hm s Hs). unfold run_state in Hm.
  destruct (m s) as [s' [a|e]]; [by apply Hf|done].
Qed.
Lemma keeps_ret {A} (a : A) : keeps (py_ret a).
Proof. by intros s. Qed.
Lemma keeps_raise {A} e : keeps (A := A) (py_raise e).
Proof. by intros s. Qed.
Lemma keeps_get : keeps py_get.
Proof. by intros s. Qed.
(** What is read satisfies the invariant. *)
Lemma keeps_read {A} (k : S -> M S E A) : (forall s, I s -> keeps (k s)) -> keeps (py_bind py_get k).
Proof. intros Hk s Hs. exact (Hk s Hs s Hs). Qed.
Lemma keeps_require b e : keeps (py_require b e).
Proof. intros s. by destruct b. Qed.
Lemma keeps_modify f : (forall s, I s -> I (f s)) -> keeps (py_modify f).
Proof. intros Hf s Hs. by apply Hf. Qed.
Lemma keeps_when b m : keeps m -> keeps (py_when b m).
Proof. intros Hm. destruct b; [done|apply keeps_ret]. Qed.

Lemma keeps_assoc {A B C} (m : M S E C) (k : C -> M S E A) (k' : A -> M S E B) :
  keeps (py_bind m (fun c => py_bind (k c) k')) -> keeps (py_bind (py_bind m k) k').
Proof. intros H s Hs. specialize (H s Hs). revert H. unfold run_state, py_bind. by destruct (m s) as [s1 [c|e]]. Qed.

(** The state an operation was seen to leave. *)
Lemma keeps_at {A} (m : M S E A) s s' r : keeps m -> I s -> m s = (s', r) -> I s'.
Proof. intros Hm Hs E'. specialize (Hm s Hs). unfold run_state in Hm. by rewrite E' in Hm. Qed.

(** What follows an operation that returned. *)
Lemma keeps_ret_inv {A B} (m : M S E A) (f : A -> M S E B) s s1 b :
  keeps m -> I s -> py_bind m f s = (s1, Ret b) ->
  exists a s', I s' /\ f a s' = (s1, Ret b).
Proof.
  intros Hm Hs Hf. unfold py_bind in Hf. specialize (Hm s Hs). unfold run_state in Hm.
  destruct (m s) as [s' [a|e]]; [by exists a, s'|done].
Qed.
End Keeps.

Create HintDb keeps.
#[export] Hint Resolve keeps_ret keeps_raise keeps_get keeps_require keeps_when : keeps.

Ltac keep :=
  repeat first
    [ progress intros
    | solve [eauto with keeps]
    | apply keeps_bind
    | apply keeps_when
    | match goal with |- keeps _ (match ?x with _ => _ end) => destruct x end ].

(** The same, remembering that what is read satisfies the invariant. *)
Ltac keep_reads :=
  repeat first
    [ progress intros
    | lazymatch goal with
      | |- keeps _ (py_bind py_get _) => apply keeps_read
      | |- keeps _ (py_bind _ _) => apply keeps_bind
      | |- keeps _ (py_when _ _) => apply keeps_when
      | |- keeps _ (match ?x with _ => _ end) => destruct x eqn:?
      end
    | solve [eauto with keeps] ].

(** ** Partial correctness of operations that return *)

Section Triples.
Context {S E : Type}.

Definition triple {A} (P : S -> Prop) (m : M S E A) (Q : A -> S -> Prop) : Prop :=
  forall s s' a, P s -> m s = (s', Ret a) -> Q a s'.

Lemma triple_bind {A B} P (m : M S E A) Q (k : A -> M S E B) R :
  triple P m Q -> (forall a, triple (Q a) (k a) R) -> triple P (py_bind m k) R.
Proof.
  intros Hm Hk s s' b Hs Hr. unfold py_bind in Hr. destruct (m s) as [s1 [a|e]] eqn:E1; [|done].
  exact (Hk a s1 s' b (Hm s s1 a Hs E1) Hr).
Qed.
Lemma triple_ret {A} P (a : A) (Q : A -> S -> Prop) : (forall s, P s -> Q a s) -> triple P (py_ret a) Q.
Proof. intros H s s' b Hs [= <- <-]. by apply H. Qed.
Lemma triple_raise {A} P e (Q : A -> S -> Prop) : triple P (py_raise e) Q.
Proof. by intros s s' b _ Hr. Qed.
Lemma triple_pass {A B} P (a : A) (k : A -> M S E B) R : triple P (k a) R -> triple P (py_bind (py_ret a) k) R.
Proof. done. Qed.
Lemma triple_fail {A B} P e (k : A -> M S E B) (Q : B -> S -> Prop) : triple P (py_bind (py_raise e) k) Q.
Proof. by intros s s' b _ Hr. Qed.
(** What is known beside the state. *)
Lemma triple_pure {A} (P : S -> Prop) (R : Prop) (m : M S E A) Q : (R -> triple P m Q) -> triple (fun s => P s /\ R) m Q.
Proof. intros H s s' a [Hs HR]. by apply H. Qed.
(** Reading the state fixes it. *)
Lemma triple_read {B} P (k : S -> M S E B) R :
  (forall s, P s -> triple (eq s) (k s) R) -> triple P (py_bind py_get k) R.
Proof. intros H s s' b Hs Hr. exact (H s Hs s s' b eq_refl Hr). Qed.
Lemma triple_modify {B} P f (k : unit -> M S E B) P' R :
  (forall s, P s -> P' (f s)) -> triple P' (k tt) R -> triple P (py_bind (py_modify f) k) R.
Proof. intros Hf Hk s s' b Hs Hr. exact (Hk (f s) s' b (Hf s Hs) Hr). Qed.
Lemma triple_modify_last P f (R : unit -> S -> Prop) : (forall s, P s -> R tt (f s)) -> triple P (py_modify f) R.
Proof. intros Hf s s' b Hs [= <- <-]. by apply Hf. Qed.
Lemma triple_require {B} P b e (k : unit -> M S E B) R :
  (b = true -> triple P (k tt) R) -> triple P (py_bind (py_require b e) k) R.
Proof.
  intros Hk s s' r Hs Hr. unfold py_bind, py_require in Hr. destruct b; [|done]. exact (Hk eq_refl s s' r Hs Hr).
Qed.
Lemma triple_require_last P b e (R : unit -> S -> Prop) : (b = true -> forall s, P s -> R tt s) ->
  triple P (py_require b e) R.
Proof. intros Hk s s' r Hs Hr. unfold py_require in Hr. destruct b; [|done]. injection Hr as <- <-. by apply Hk. Qed.
Lemma triple_pre {A} (P P' : S -> Prop) (m : M S E A) Q : (forall s, P s -> P' s) -> triple P' m Q -> triple P m Q.
Proof. intros HP Hm s s' a Hs. apply Hm. auto. Qed.
Lemma triple_post {A} P (m : M S E A) (Q Q' : A -> S -> Prop) : (forall a s, Q a s -> Q' a s) ->
  triple P m Q -> triple P m Q'.
Proof. intros HQ Hm s s' a Hs Hr. apply HQ. by apply (Hm s s' a). Qed.

(** An operation that returns where [I] held leaves [I] true. *)
Definition safe {A} (I : S -> Prop) (m : M S E A) : Prop := triple I m (fun _ => I).

Lemma safe_bind {A B} I (m : M S E A) (k : A -> M S E B) : safe I m -> (forall a, safe I (k a)) -> safe I (py_bind m k).
Proof. intros Hm Hk. by eapply triple_bind. Qed.
(** What keeps the precondition is passed over. *)
Lemma triple_frame {A B} P (m : M S E A) (k : A -> M S E B) R :
  safe P m -> (forall a, triple P (k a) R) -> triple P (py_bind m k) R.
Proof. intros Hm Hk. by eapply triple_bind. Qed.
Lemma triple_assoc {A B C} P (m : M S E C) (k : C -> M S E A) (k' : A -> M S E B) R :
  triple P (py_bind m (fun c => py_bind (k c) k')) R -> triple P (py_bind (py_bind m k) k') R.
Proof.
  intros H s s' b Hs Hr. apply (H s s' b Hs). rewrite <- Hr. unfold py_bind. by destruct (m s) as [s1 [c|e]].
Qed.
(** Reading the state keeps what is known of it, for the value read too. *)
Lemma triple_get {B} P (k : S -> M S E B) R : (forall s, P s -> triple P (k s) R) -> triple P (py_bind py_get k) R.
Proof. intros H s s' b Hs Hr. exact (H s Hs s s' b Hs Hr). Qed.
Lemma safe_read {A} I (k : S -> M S E A) : (forall s, I s -> safe I (k s)) -> safe I (py_bind py_get k).
Proof. intros Hk s s' a Hs Hr. exact (Hk s Hs s s' a Hs Hr). Qed.
Lemma safe_ret {A} I (a : A) : safe I (py_ret a).
Proof. by apply triple_ret. Qed.
Lemma safe_raise {A} I e : safe (A := A) I (py_raise e).
Proof. by apply triple_raise. Qed.
Lemma safe_get I : safe I py_get.
Proof. by intros s s' a Hs [= <- <-]. Qed.
Lemma safe_require I b e : safe I (py_require b e).
Proof. by apply triple_require_last. Qed.
Lemma safe_when I b m : safe I m -> safe I (py_when b m).
Proof. intros Hm. destruct b; [done|apply safe_ret]. Qed.
Lemma safe_modify I f : (forall s, I s -> I (f s)) -> safe I (py_modify f).
Proof. intros Hf. by apply triple_modify_last. Qed.
End Triples.

(** ** Running an operation up to a point *)

Section Running.
Context {S E : Type}.

Lemma bind_pure {A B} (m : M S E A) (k : A -> M S E B) s : (m s).1 = s ->
  py_bind m k s = match (m s).2 with Ret a => k a s | Raise e => (s, Raise e) end.
Proof. intros H. unfold py_bind. destruct (m s) as [s' [a|e]]; cbn in H; by subst s'. Qed.
Lemma bind_ret {A B} (m : M S E A) (k : A -> M S E B) s s' b : py_bind m k s = (s', Ret b) ->
  exists a s1, m s = (s1, Ret a) /\ k a s1 = (s', Ret b).
Proof. unfold py_bind. destruct (m s) as [s1 [a|e]]; [by exists a, s1|done]. Qed.
Lemma bind_value {A B} (m : M S E A) (k : A -> M S E B) s s' a : m s = (s', Ret a) -> py_bind m k s = k a s'.
Proof. unfold py_bind. by intros ->. Qed.
End Running.

Create HintDb safe.
#[export] Hint Resolve safe_ret safe_raise safe_get safe_require safe_when : safe.

Ltac stay_safe :=
  repeat first
    [ progress intros
    | lazymatch goal with
      | |- safe _ (py_bind py_get _) => apply safe_read
      | |- safe _ (py_bind _ _) => apply safe_bind
      | |- safe _ (py_when _ _) => apply safe_when
      | |- safe _ (match ?x with _ => _ end) => destruct x eqn:?
      end
    | solve [eauto with safe] ].
