(* ===== verification/PyStore.v ===== *)
(** * Stores in a dict and a file

    Several modules keep a dict of the process and write it whole to a JSON file after
    each change, the first request of a process reading it back.  Here are the dict, in
    insertion order, the store, what may happen to it from outside, and what a property
    of its entries needs to be kept.  A file that cannot be written raises; one that a
    full disk cut short no longer parses. *)

From S2P Require Import Prelude PyDatetime PyHoare.
#[local] Open Scope string_scope.
#[local] Open Scope py_scope.

Inductive disk_state : Type := Writable | ReadOnly | Full.

Section Dict.
Context {V : Type}.

(** [d[k] = v]: in place, or at the end. *)
Fixpoint dict_set (k : string) (v : V) (d : list (string * V)) : list (string * V) :=
  match d with
  | [] => [(k, v)]
  | (k', v') :: r => if str_eqb k k' then (k, v) :: r else (k', v') :: dict_set k v r
  end.

Lemma put_get k x (d : list (string * V)) j : dict_get j (dict_set k x d) = if bool_decide (j = k) then Some x else dict_get j d.
Proof.
  induction d as [|[k' v] d IH]; cbn.
  - by repeat case_decide.
  - unfold str_eqb. repeat case_bool_decide; subst; cbn; rewrite ?IH; repeat case_decide; repeat case_bool_decide; by subst.
Qed.
Lemma put_in k x (d : list (string * V)) p : p ∈ dict_set k x d -> p = (k, x) \/ p ∈ d.
Proof.
  induction d as [|[k' v] d IH]; cbn; [intros Hp%list_elem_of_singleton; by left|].
  unfold str_eqb. case_bool_decide; rewrite !elem_of_cons; naive_solver.
Qed.
Lemma put_keys_in k x (d : list (string * V)) j : j ∈ map fst (dict_set k x d) -> j = k \/ j ∈ map fst d.
Proof. intros (p & -> & [-> |H]%put_in)%list_elem_of_fmap; [by left|right]. apply list_elem_of_fmap. by exists p. Qed.
Lemma put_keys k x (d : list (string * V)) : NoDup (map fst d) -> NoDup (map fst (dict_set k x d)).
Proof.
  induction d as [|[k' v] d IH]; cbn; [intros _; apply NoDup_singleton|]. intros [Hk Hd]%NoDup_cons. unfold str_eqb.
  case_bool_decide as E; cbn; apply NoDup_cons; [by subst|]. split; [|by apply IH]. by intros [->|H]%put_keys_in.
Qed.
Lemma put_once k x (d : list (string * V)) y : NoDup (map fst d) -> (k, y) ∈ dict_set k x d -> y = x.
Proof.
  induction d as [|[k' v] d IH]; cbn; [intros _ [= ->]%list_elem_of_singleton; done|]. intros [Hk Hd]%NoDup_cons. unfold str_eqb.
  case_bool_decide as E; intros [Ey|H]%elem_of_cons; [by injection Ey| |by injection Ey|by apply IH].
  subst. destruct Hk. apply list_elem_of_fmap. by exists (k', y).
Qed.
Lemma get_in k x (d : list (string * V)) : dict_get k d = Some x -> (k, x) ∈ d.
Proof. intros H. by apply list_elem_of_In, dict_get_In. Qed.
Lemma in_get k x (d : list (string * V)) : NoDup (map fst d) -> (k, x) ∈ d -> dict_get k d = Some x.
Proof.
  induction d as [|[k' v] d IH]; cbn; [by intros _ ?%not_elem_of_nil|]. intros [Hk Hd]%NoDup_cons [E|H]%elem_of_cons.
  - injection E as -> ->. by rewrite bool_decide_true.
  - rewrite bool_decide_false; [by apply IH|]. intros ->. apply Hk, list_elem_of_fmap. by exists (k', x).
Qed.
Lemma put_get_same k x (d : list (string * V)) : dict_get k (dict_set k x d) = Some x.
Proof. rewrite put_get. by rewrite bool_decide_true. Qed.
End Dict.

(** ** The store of a module

    [file] is [None] when it is missing or does not parse; [loaded] is the flag of the
    process that it has read the file; [drawn] counts the random identifiers. *)

Record store (V : Type) := Store {
  live : list (string * V);
  loaded : bool;
  file : option (list (string * V));
  disk : disk_state;
  now : datetime;
  drawn : nat
}.
Arguments Store {V}.
Arguments live {V}.
Arguments loaded {V}.
Arguments file {V}.
Arguments disk {V}.
Arguments now {V}.
Arguments drawn {V}.

Section Stores.
Context {V E : Type} (os_error : E).
Abbreviation MS := (M (store V) E).

Definition empty_store (t : datetime) : store V := Store [] false None Writable t 0.
Definition set_live (d : list (string * V)) (s : store V) : store V :=
  Store d (loaded s) (file s) (disk s) (now s) (drawn s).
Definition set_file (f : option (list (string * V))) (s : store V) : store V :=
  Store (live s) (loaded s) f (disk s) (now s) (drawn s).
Definition draw (s : store V) : store V := Store (live s) (loaded s) (file s) (disk s) (now s) (S (drawn s)).

(** Before the file is read memory holds nothing. *)
Definition memory (s : store V) : store V :=
  if loaded s then s else Store (default [] (file s)) true (file s) (disk s) (now s) (drawn s).
Definition ensure_loaded : MS unit := py_modify memory.
Definition persist : MS unit :=
  let! s := py_get in
  match disk s with
  | Writable => py_modify (set_file (Some (live s)))
  | ReadOnly => py_raise os_error
  | Full => py_modify (set_file None) ;;; py_raise os_error
  end.
Definition put (k : string) (v : V) : MS unit := py_modify (fun s => set_live (dict_set k v (live s)) s).
Definition lookup_or (missing : E) (k : string) : MS V :=
  let! s := py_get in
  match dict_get k (live s) with
  | Some x => py_ret x
  | None => py_raise missing
  end.
(** Memory is emptied and the file removed. *)
Definition clear : MS unit :=
  py_modify (fun s => Store [] true (file s) (disk s) (now s) (drawn s)) ;;;
  let! s := py_get in
  match disk s, file s with
  | ReadOnly, Some _ => py_raise os_error
  | _, _ => py_modify (set_file None)
  end.

(** ** Events from outside *)

Definition restart (s : store V) : store V := Store [] false (file s) (disk s) (now s) (drawn s).
Definition disk_becomes (d : disk_state) (s : store V) : store V := Store (live s) (loaded s) (file s) d (now s) (drawn s).
Definition pass (us : N) (s : store V) : store V :=
  Store (live s) (loaded s) (file s) (disk s) (now s + Z.of_N us)%Z (drawn s).

(** ** A property of the entries *)

(** Every entry in memory and in the file satisfies [P], and [n] identifiers are drawn. *)
Record everywhere (P : string -> V -> Prop) (n : nat) (s : store V) : Prop := Everywhere {
  in_memory : forall id x, (id, x) ∈ live s -> P id x;
  in_file : forall d id x, file s = Some d -> (id, x) ∈ d -> P id x;
  live_once : NoDup (map fst (live s));
  file_once : forall d, file s = Some d -> NoDup (map fst d);
  drawn_so_far : n <= drawn s
}.
Lemma everywhere_mono (P Q : string -> V -> Prop) n s : (forall k x, P k x -> Q k x) -> everywhere P n s -> everywhere Q n s.
Proof. intros H [Hl Hf Hk Hk' Hn]. split; eauto. Qed.
Lemma empty_everywhere P t : everywhere P 0 (empty_store t).
Proof. split; cbn; [by intros id x H%not_elem_of_nil|done|apply NoDup_nil_2|done|lia]. Qed.
Lemma memory_facts s : loaded (memory s) = true /\ disk (memory s) = disk s /\ now (memory s) = now s /\ drawn (memory s) = drawn s
  /\ file (memory s) = file s.
Proof. unfold memory. by destruct (loaded s) eqn:Hl. Qed.

(** A process that has read the file holds [x] under [id], and [n] identifiers are drawn. *)
Record holds (id : string) (x : V) (n : nat) (s : store V) : Prop := Holds {
  held_loaded : loaded s = true;
  held_once : NoDup (map fst (live s));
  held_entry : dict_get id (live s) = Some x;
  held_drawn : n <= drawn s
}.

(** What the requests of a module rely on: [I] is an invariant of the store under which
    its entries satisfy [P]. *)
Class store_inv (P : string -> V -> Prop) (I : store V -> Prop) : Prop := StoreInv {
  inv_memory : forall s, I s -> I (memory s);
  inv_file : forall s f, I s -> f = Some (live s) \/ f = None -> I (set_file f s);
  inv_put : forall k x s, P k x -> I s -> I (set_live (dict_set k x (live s)) s);
  inv_entry : forall k x s, I s -> (k, x) ∈ live s -> P k x;
  inv_draw : forall s, I s -> I (draw s);
  inv_disk : forall d s, I s -> I (disk_becomes d s);
  inv_pass : forall us s, I s -> I (pass us s)
}.
#[export] Instance everywhere_inv P n : store_inv P (everywhere P n).
Proof.
  split.
  - intros s [Hl Hf Hk Hk' Hn]. unfold memory. destruct (loaded s); [done|]. split; [|done| |done..].
    2:{ cbn. destruct (file s); [by apply Hk'|apply NoDup_nil_2]. }
    cbn. intros id x H. destruct (file s) as [d|]; [by apply (Hf d)|by apply not_elem_of_nil in H].
  - intros s f [Hl Hf Hk Hk' Hn] [-> | ->]; split; cbn; try done.
    + by intros d id x [= <-]; apply Hl.
    + by intros d [= <-].
  - intros k x s Hx [Hl Hf Hk Hk' Hn]. split; [|done| |done..]; [|by apply put_keys].
    intros j y [[= -> ->]|H]%put_in; [done|by apply Hl].
  - intros k x s Hs H. by apply Hs.
  - intros s [Hl Hf Hk Hk' Hn]. split; try done. cbn. lia.
  - by intros d s [].
  - by intros us s [].
Qed.
#[export] Instance holds_inv id x n : store_inv (fun k y => k = id -> y = x) (holds id x n).
Proof.
  split.
  - intros s [Hl Hk Hx Hn]. unfold memory. by rewrite Hl.
  - intros s f [Hl Hk Hx Hn] _. by split.
  - intros k y s Hy [Hl Hk Hx Hn]. split; try done; [by apply put_keys|]. cbn. rewrite put_get. case_bool_decide; [|done].
    subst k. by rewrite Hy.
  - intros k y s [Hl Hk Hx Hn] H ->. pose proof (in_get _ _ _ Hk H). congruence.
  - intros s [Hl Hk Hx Hn]. split; try done. cbn. lia.
  - intros d s [Hl Hk Hx Hn]. by split.
  - intros us s [Hl Hk Hx Hn]. by split.
Qed.

Section Kept.
Context {P : string -> V -> Prop} {I : store V -> Prop} `{!store_inv P I}.
Abbreviation kept := (keeps (E := E) I).

Lemma memory_kept s : I s -> I (memory s).
Proof. apply inv_memory. Qed.
Lemma kept_load : kept ensure_loaded.
Proof. apply keeps_modify, inv_memory. Qed.
Lemma kept_persist : kept persist.
Proof.
  intros s Hs. unfold run_state, persist, py_bind. cbn. destruct (disk s); cbn; [apply inv_file; auto|done|apply inv_file; auto].
Qed.
Lemma kept_put id x : P id x -> kept (put id x).
Proof. intros Hx. apply keeps_modify. intros s. by apply inv_put. Qed.
Lemma kept_lookup {A} missing id (k : V -> MS A) : (forall x, P id x -> kept (k x)) -> kept (py_bind (lookup_or missing id) k).
Proof.
  intros Hk s Hs. unfold lookup_or. destruct (dict_get id (live s)) as [x|] eqn:He; unfold run_state, py_bind; cbn; rewrite He.
  - apply Hk; [|done]. eapply inv_entry; [done|by apply get_in].
  - done.
Qed.
Lemma kept_draw : kept (py_modify draw).
Proof. apply keeps_modify, inv_draw. Qed.
Lemma kept_disk d : kept (py_modify (disk_becomes d)).
Proof. apply keeps_modify, inv_disk. Qed.
Lemma kept_pass us : kept (py_modify (pass us)).
Proof. apply keeps_modify, inv_pass. Qed.
End Kept.
Lemma kept_clear P n : keeps (everywhere P n) clear.
Proof.
  unfold clear. apply keeps_bind; [|intros []; apply keeps_bind; [apply keeps_get|intros s]].
  - apply keeps_modify. intros s [_ Hf _ Hk Hn]. split; [|done|apply NoDup_nil_2|done..]. by intros id x H%not_elem_of_nil.
  - assert (keeps (E := E) (everywhere P n) (py_modify (set_file None))) by by apply keeps_modify; intros s' [Hl _ Hk _ Hn]; split.
    destruct (disk s), (file s); first [done|apply keeps_raise].
Qed.
Lemma kept_restart P n : keeps (E := E) (everywhere P n) (py_modify restart).
Proof. apply keeps_modify. intros s [_ Hf _ Hk Hn]. split; [|done|apply NoDup_nil_2|done..]. by intros id x H%not_elem_of_nil. Qed.
Lemma kept_pure {A} I (m : MS A) : (forall s, (m s).1 = s) -> keeps I m.
Proof. intros H s Hs. unfold run_state. by rewrite H. Qed.
Lemma kept_check {A} I b e (k : unit -> MS A) : (b = true -> keeps I (k tt)) -> keeps I (py_bind (py_require b e) k).
Proof. intros H. destruct b; [by apply H|by intros s]. Qed.

Lemma put_writable {A} id x (m : MS A) w : disk w = Writable ->
  (put id x ;;; persist ;;; m) w = m (set_file (Some (dict_set id x (live w))) (set_live (dict_set id x (live w)) w)).
Proof. intros H. unfold put, persist, py_bind. cbn. by rewrite H. Qed.
Lemma lookup_held missing id x w : dict_get id (live w) = Some x -> lookup_or missing id w = (w, Ret x).
Proof. intros H. unfold lookup_or, py_bind. cbn. by rewrite H. Qed.
End Stores.
(** Applies a rule to an invariant of the store. *)
Tactic Notation "by_store" uconstr(lem) :=
  eapply lem; lazymatch goal with |- store_inv _ _ => typeclasses eauto | _ => idtac end.
#[export] Hint Resolve kept_clear kept_restart : keeps.
#[export] Hint Extern 1 (keeps _ ensure_loaded) => by_store kept_load : keeps.
#[export] Hint Extern 1 (keeps _ (persist _)) => by_store kept_persist : keeps.
#[export] Hint Extern 1 (keeps _ (py_modify draw)) => by_store kept_draw : keeps.
#[export] Hint Extern 1 (keeps _ (py_modify (disk_becomes _))) => by_store kept_disk : keeps.
#[export] Hint Extern 1 (keeps _ (py_modify (pass _))) => by_store kept_pass : keeps.
