(* ===== verification/PyBase64.v ===== *)
(** * [base64.urlsafe_b64encode] and [urlsafe_b64decode]

    The decoder is the lenient one of Python: characters outside the alphabet are passed
    over, a pad after enough digits ends the text, and a text that ends within a group
    is an error. *)

From S2P Require Import Prelude PyBytes PyDatetime.
#[local] Open Scope string_scope.
#[local] Open Scope Z_scope.

Definition b64_digit (n : Z) : ascii :=
  if n <? 26 then ascii_of_N (Z.to_N (65 + n))
  else if n <? 52 then ascii_of_N (Z.to_N (97 + n - 26))
  else if n <? 62 then ascii_of_N (Z.to_N (48 + n - 52))
  else if n =? 62 then "-" else "_".
(** Without the pads at the end. *)
Fixpoint b64_encode (b : bytes) : string :=
  match b with
  | [] => ""
  | [x] => String (b64_digit (x / 4)) (String (b64_digit (x mod 4 * 16)) "")
  | [x; y] => String (b64_digit (x / 4)) (String (b64_digit (x mod 4 * 16 + y / 16)) (String (b64_digit (y mod 16 * 4)) ""))
  | x :: y :: z :: r =>
      String (b64_digit (x / 4)) (String (b64_digit (x mod 4 * 16 + y / 16))
        (String (b64_digit (y mod 16 * 4 + z / 64)) (String (b64_digit (z mod 64)) (b64_encode r))))
  end.

(** Both alphabets are read. *)
Definition b64_value (c : ascii) : option Z :=
  let n := Z.of_N (N_of_ascii c) in
  if (65 <=? n) && (n <=? 90) then Some (n - 65)
  else if (97 <=? n) && (n <=? 122) then Some (n - 97 + 26)
  else if (48 <=? n) && (n <=? 57) then Some (n - 48 + 52)
  else if (n =? 45) || (n =? 43) then Some 62
  else if (n =? 95) || (n =? 47) then Some 63
  else None.
(** [quad]: digits of the group so far; [left_]: their bits not written yet. *)
Fixpoint b64_decode (quad pads left_ : Z) (s : string) : option bytes :=
  match s with
  | EmptyString => if quad =? 0 then Some [] else None
  | String c r =>
      if Ascii.eqb c "=" then
        if (2 <=? quad) && (4 <=? quad + pads + 1) then Some []
        else b64_decode quad (if 2 <=? quad then pads + 1 else pads) left_ r
      else
        match b64_value c with
        | None => b64_decode quad pads left_ r
        | Some v =>
            if quad =? 0 then b64_decode 1 0 v r
            else if quad =? 1 then cons (left_ * 4 + v / 16) <$> b64_decode 2 0 (v mod 16) r
            else if quad =? 2 then cons (left_ * 16 + v / 4) <$> b64_decode 3 0 (v mod 4) r
            else cons (left_ * 64 + v) <$> b64_decode 0 0 0 r
        end
  end.
Fixpoint pads (n : nat) : string := match n with O => "" | S k => String "=" (pads k) end.
(** [urlsafe_b64decode(s + "=" * (-len(s) % 4))]; a text that is not ASCII raises. *)
Definition urlsafe_b64decode_padded (s : string) : option bytes :=
  if py_isascii s then b64_decode 0 0 0 (s ++ pads (Z.to_nat ((- Z.of_nat (String.length s)) mod 4))) else None.

Lemma b64_value_digit n : 0 <= n < 64 -> b64_value (b64_digit n) = Some n /\ b64_digit n <> "="%char /\ (nat_of_ascii (b64_digit n) < 128)%nat.
Proof.
  intros H. assert (forallb (fun k => bool_decide (b64_value (b64_digit (Z.of_nat k)) = Some (Z.of_nat k))
    && negb (Ascii.eqb (b64_digit (Z.of_nat k)) "=") && (nat_of_ascii (b64_digit (Z.of_nat k)) <? 128)%nat) (seq 0 64) = true) as Hall by (by vm_compute).
  rewrite forallb_forall in Hall. specialize (Hall (Z.to_nat n)). rewrite in_seq, Z2Nat.id in Hall by lia.
  specialize (Hall ltac:(lia)). rewrite !andb_true_iff in Hall. destruct Hall as [[H1%bool_decide_eq_true H2] H3%Nat.ltb_lt].
  split; [done|]. split; [|done]. intros E. by rewrite E in H2.
Qed.
(** A digit of a group. *)
Lemma b64_step n quad p l r : 0 <= n < 64 -> b64_decode quad p l (String (b64_digit n) r) =
  if quad =? 0 then b64_decode 1 0 n r
  else if quad =? 1 then cons (l * 4 + n / 16) <$> b64_decode 2 0 (n mod 16) r
  else if quad =? 2 then cons (l * 16 + n / 4) <$> b64_decode 3 0 (n mod 4) r
  else cons (l * 64 + n) <$> b64_decode 0 0 0 r.
Proof.
  intros H. destruct (b64_value_digit n H) as (Hv & Hp & _). cbn [b64_decode]. rewrite Hv.
  by rewrite (proj2 (Ascii.eqb_neq _ _) Hp).
Qed.

Definition pad_of (s : string) : string := pads (Z.to_nat ((- Z.of_nat (String.length s)) mod 4)).
Lemma pad_of_group a b c d s : pad_of (String a (String b (String c (String d s)))) = pad_of s.
Proof.
  unfold pad_of. cbn [String.length]. do 2 f_equal. rewrite !Nat2Z.inj_succ.
  replace (- Z.succ (Z.succ (Z.succ (Z.succ (Z.of_nat (String.length s))))))%Z with (- Z.of_nat (String.length s) + (-1) * 4)%Z by lia.
  by rewrite Z.mod_add.
Qed.
(** Three bytes at a time. *)
Lemma bytes_rect (P : bytes -> Prop) : P [] -> (forall x, P [x]) -> (forall x y, P [x; y]) -> (forall x y z r, P r -> P (x :: y :: z :: r)) ->
  forall b, P b.
Proof.
  intros H0 H1 H2 H3. enough (forall b, P b /\ (forall x, P (x :: b)) /\ (forall x y, P (x :: y :: b))) as H by apply H.
  induction b as [|z b (IH1 & IH2 & IH3)]; split_and!; auto.
Qed.
Lemma split_byte x k : 0 < k -> x = x / k * k + x mod k.
Proof. intros H. pose proof (Z.div_mod x k). lia. Qed.

Lemma unpack_div k a b : 0 < k -> 0 <= b < k -> (a * k + b) / k = a.
Proof. intros Hk Hb. rewrite Z.div_add_l, Z.div_small by lia. lia. Qed.
Lemma unpack_mod k a b : 0 < k -> 0 <= b < k -> (a * k + b) mod k = b.
Proof. intros Hk Hb. rewrite Z.add_comm, Z.mod_add, Z.mod_small by lia. done. Qed.

Lemma b64_roundtrip b : Forall byte_ok b -> b64_decode 0 0 0 (b64_encode b ++ pad_of (b64_encode b)) = Some b.
Proof.
  unfold byte_ok. induction b as [|x|x y|x y z r IH] using bytes_rect; intros H.
  - done.
  - apply Forall_cons in H as [Hx _]. change (pad_of _) with "==". cbn [b64_encode]. rewrite ?str_app_cons, ?str_app_nil.
    rewrite b64_step by (split; [apply Z.div_pos|apply Z.div_lt_upper_bound]; lia). cbn [Z.eqb].
    rewrite b64_step by (pose proof (Z.mod_pos_bound x 4); lia). cbn [Z.eqb Pos.eqb].
    rewrite Z.mod_mul by done. rewrite (Z.div_mul (x mod 4) 16) by done. cbn. by rewrite <- split_byte.
  - apply Forall_cons in H as [Hx [Hy _]%Forall_cons]. change (pad_of _) with "=". cbn [b64_encode]. rewrite ?str_app_cons, ?str_app_nil.
    pose proof (Z.mod_pos_bound x 4 ltac:(done)). pose proof (Z.mod_pos_bound y 16 ltac:(done)).
    assert (0 <= y / 16 < 16) by (split; [apply Z.div_pos|apply Z.div_lt_upper_bound]; lia).
    rewrite b64_step by (split; [apply Z.div_pos|apply Z.div_lt_upper_bound]; lia). cbn [Z.eqb].
    rewrite b64_step by lia. cbn [Z.eqb Pos.eqb]. rewrite b64_step by lia. cbn [Z.eqb Pos.eqb].
    rewrite unpack_div, unpack_mod, (Z.div_mul (y mod 16) 4) by lia. cbn. by rewrite <- !split_byte by lia.
  - apply Forall_cons in H as [Hx [Hy [Hz Hr]%Forall_cons]%Forall_cons]. cbn [b64_encode]. rewrite ?str_app_cons, ?str_app_nil. rewrite pad_of_group.
    pose proof (Z.mod_pos_bound x 4 ltac:(done)). pose proof (Z.mod_pos_bound y 16 ltac:(done)). pose proof (Z.mod_pos_bound z 64 ltac:(done)).
    assert (0 <= y / 16 < 16) by (split; [apply Z.div_pos|apply Z.div_lt_upper_bound]; lia).
    assert (0 <= z / 64 < 4) by (split; [apply Z.div_pos|apply Z.div_lt_upper_bound]; lia).
    rewrite b64_step by (split; [apply Z.div_pos|apply Z.div_lt_upper_bound]; lia). cbn [Z.eqb].
    rewrite b64_step by lia. cbn [Z.eqb Pos.eqb]. rewrite b64_step by lia. cbn [Z.eqb Pos.eqb]. rewrite b64_step by lia. cbn [Z.eqb Pos.eqb].
    rewrite (IH Hr), !unpack_div, !unpack_mod by lia. cbn. by rewrite <- !split_byte by lia.
Qed.
Lemma b64_ascii b : Forall byte_ok b -> py_isascii (b64_encode b) = true.
Proof.
  unfold byte_ok. assert (forall n s, 0 <= n < 64 -> py_isascii s = true -> py_isascii (String (b64_digit n) s) = true) as Hs.
  { intros n s Hn H. destruct (b64_value_digit n Hn) as (_ & _ & Ha). cbn [py_isascii]. rewrite H. by apply Nat.ltb_lt in Ha as ->. }
  induction b as [|x|x y|x y z r IH] using bytes_rect; intros H; cbn [b64_encode]; [done|..].
  all: repeat match goal with H : Forall _ (_ :: _) |- _ => apply Forall_cons in H as [? H] end.
  all: repeat match goal with |- context [b64_digit (?a / ?k)] => lazymatch goal with H : 0 <= a / k < 64 |- _ => fail | _ => idtac end;
    assert (0 <= a / k < 64) by (split; [apply Z.div_pos|apply Z.div_lt_upper_bound]; lia) end.
  all: try pose proof (Z.mod_pos_bound x 4 ltac:(done)); try pose proof (Z.mod_pos_bound y 16 ltac:(done)); try pose proof (Z.mod_pos_bound z 64 ltac:(done)).
  all: try assert (0 <= y / 16 < 16) by (split; [apply Z.div_pos|apply Z.div_lt_upper_bound]; lia).
  all: try assert (0 <= z / 64 < 4) by (split; [apply Z.div_pos|apply Z.div_lt_upper_bound]; lia).
  all: repeat (apply Hs; [lia|]); auto.
Qed.
Lemma urlsafe_roundtrip b : Forall byte_ok b -> urlsafe_b64decode_padded (b64_encode b) = Some b.
Proof. intros H. unfold urlsafe_b64decode_padded. rewrite (b64_ascii b H). by apply b64_roundtrip. Qed.

(** What UTF-8 writes are bytes. *)
Lemma utf8_ok s : Forall byte_ok (utf8 s).
Proof.
  induction s as [|c s IH]; [done|]. cbn [utf8]. apply Forall_app. split; [|done].
  unfold utf8_char, byte_ok. pose proof (N_ascii_bounded c) as Hc. assert (0 <= Z.of_N (N_of_ascii c) < 256) as Hn by lia.
  revert Hn. generalize (Z.of_N (N_of_ascii c)) as n. intros n Hn. clear - Hn.
  assert (forallb (fun k => forallb (fun b => (0 <=? b) && (b <? 256)) (let n := Z.of_nat k in
    if n <? 128 then [n] else [Z.lor 192 (Z.shiftr n 6); Z.lor 128 (Z.land n 63)])) (seq 0 256) = true) as Hall by (by vm_compute).
  rewrite forallb_forall in Hall. specialize (Hall (Z.to_nat n)). rewrite in_seq in Hall. cbv zeta in Hall. rewrite Z2Nat.id in Hall by lia.
  specialize (Hall ltac:(lia)). destruct (n <? 128); repeat constructor; cbn in Hall; lia.
Qed.
