(* ===== verification/PySort.v ===== *)
(** * Sorting ([sorted], [ORDER BY])

    Python's [sorted] is stable, and so is insertion sort; the functions are
    equal on every list.  An [ORDER BY] whose keys tie leaves the order of the
    tied rows open; the models take the order of insertion. *)

From S2P Require Import Prelude.
From Stdlib Require Import Sorted Permutation.

Section Sort.
Context {A : Type} (le : A -> A -> bool).

Fixpoint sort_insert (x : A) (l : list A) : list A :=
  match l with
  | [] => [x]
  | y :: r => if le x y then x :: l else y :: sort_insert x r
  end.
Fixpoint sort_by (l : list A) : list A :=
  match l with
  | [] => []
  | x :: r => sort_insert x (sort_by r)
  end.

Lemma sort_insert_perm x l : Permutation (sort_insert x l) (x :: l).
Proof.
  induction l as [|y l IH]; cbn; [done|]. destruct (le x y); [done|].
  rewrite IH. apply perm_swap.
Qed.
Lemma sort_by_perm l : Permutation (sort_by l) l.
Proof. induction l as [|x l IH]; cbn; [done|]. by rewrite sort_insert_perm, IH. Qed.
Lemma elem_of_sort_by x l : x ∈ sort_by l <-> x ∈ l.
Proof. by rewrite sort_by_perm. Qed.
Lemma length_sort_by l : length (sort_by l) = length l.
Proof. by rewrite sort_by_perm. Qed.

Context (le_total : forall x y, le x y = true \/ le y x = true)
  (le_trans : forall x y z, le x y = true -> le y z = true -> le x z = true).

Lemma sort_insert_sorted x l :
  StronglySorted (fun a b => le a b = true) l -> StronglySorted (fun a b => le a b = true) (sort_insert x l).
Proof.
  induction l as [|y l IH]; cbn; intros Hs; [by repeat constructor|].
  apply StronglySorted_inv in Hs as [Hs Hy]. destruct (le x y) eqn:Hxy.
  - constructor; [by constructor|]. constructor; [done|].
    eapply Forall_impl; [exact Hy|]. intros z Hz. by apply (le_trans x y).
  - constructor; [by apply IH|].
    assert (le y x = true) as Hyx by (destruct (le_total x y) as [H|H]; [by rewrite H in Hxy|done]).
    rewrite sort_insert_perm. by constructor.
Qed.
Lemma sort_by_sorted l : StronglySorted (fun a b => le a b = true) (sort_by l).
Proof. induction l as [|x l IH]; cbn; [constructor|]. by apply sort_insert_sorted. Qed.

(** The first element is below every other. *)
Lemma sort_by_head x l r : sort_by l = x :: r -> forall y, y ∈ l -> le x y = true \/ x = y.
Proof.
  intros E y Hy. rewrite <- elem_of_sort_by, E, elem_of_cons in Hy. destruct Hy as [->|Hy]; [by right|].
  pose proof (sort_by_sorted l) as Hs. rewrite E in Hs. apply StronglySorted_inv in Hs as [_ Hs].
  rewrite Forall_forall in Hs. left. by apply Hs.
Qed.
End Sort.

Lemma sort_by_nil {A} (le : A -> A -> bool) l : sort_by le l = [] <-> l = [].
Proof.
  split; [|by intros ->]. intros E. apply length_zero_iff_nil.
  by rewrite <- (length_sort_by le), E.
Qed.

(** Ordering by an integer key. *)
Definition asc_by {A} (f : A -> Z) (x y : A) : bool := (f x <=? f y)%Z.
Definition desc_by {A} (f : A -> Z) (x y : A) : bool := (f y <=? f x)%Z.

Lemma asc_total {A} (f : A -> Z) x y : asc_by f x y = true \/ asc_by f y x = true.
Proof. unfold asc_by. rewrite !Z.leb_le. lia. Qed.
Lemma asc_trans {A} (f : A -> Z) x y z : asc_by f x y = true -> asc_by f y z = true -> asc_by f x z = true.
Proof. unfold asc_by. rewrite !Z.leb_le. lia. Qed.

Example sort_by_ex : sort_by (asc_by (fun p => p.1)) [(2, 1); (1, 1); (2, 0)]%Z = [(1, 1); (2, 1); (2, 0)]%Z.
Proof. reflexivity. Qed.

(** [sorted({f(s) for s in l if ...})]: the images that are not empty, each once. *)
Definition normal_set (f : string -> string) (l : list string) : list string :=
  sort_by String.leb (remove_dups (List.filter (fun s => negb (str_eqb s EmptyString)) (map f l))).
