(* ===== verification/BillingSchema.v ===== *)
(** * Billing schema ([packages/karma_billing/schema.py])

    The enumerations of the billing layer with their wire values, the payload and
    leaf hashes, and the records [UniversalReceipt], [BillingSnapshot] and
    [StateTransitionRecord].  The validators pydantic runs when a receipt is
    built ([ge=0] fields and the automatic payload hash) are [build_receipt]. *)

From S2P Require Import Prelude PyBytes PyJson PyJsonCanon PyDatetime PyFloat.
#[local] Open Scope string_scope.

Inductive ScenarioType : Type :=
| S1_DELEGATION | S2_BIDDING | S3_PIPELINE | S4_MULTI_DELEGATION | S5_DATA
| S6_CONDITIONAL | S7_RECURRING | S8_DISPUTE | S9_INTENT | S10_CROSS_CHAIN.

#[export] Instance ScenarioType_eq_dec : EqDecision ScenarioType.
Proof. solve_decision. Defined.

(** [ScenarioType(...).value] *)
Definition ScenarioType_value (x : ScenarioType) : string :=
  match x with
  | S1_DELEGATION => "S1_DELEGATION"
  | S2_BIDDING => "S2_BIDDING"
  | S3_PIPELINE => "S3_PIPELINE"
  | S4_MULTI_DELEGATION => "S4_MULTI_DELEGATION"
  | S5_DATA => "S5_DATA"
  | S6_CONDITIONAL => "S6_CONDITIONAL"
  | S7_RECURRING => "S7_RECURRING"
  | S8_DISPUTE => "S8_DISPUTE"
  | S9_INTENT => "S9_INTENT"
  | S10_CROSS_CHAIN => "S10_CROSS_CHAIN"
  end.

Definition all_ScenarioType : list ScenarioType :=
  [S1_DELEGATION; S2_BIDDING; S3_PIPELINE; S4_MULTI_DELEGATION; S5_DATA; S6_CONDITIONAL;
   S7_RECURRING; S8_DISPUTE; S9_INTENT; S10_CROSS_CHAIN].

(** [ScenarioType(s)]: the member with that value ([ValueError] otherwise). *)
Definition ScenarioType_of_value (s : string) : option ScenarioType :=
  List.find (fun x => str_eqb (ScenarioType_value x) s) all_ScenarioType.

Inductive ReceiptStatus : Type :=
| GENERATED | ANCHORING | ANCHORED | VERIFIED.

#[export] Instance ReceiptStatus_eq_dec : EqDecision ReceiptStatus.
Proof. solve_decision. Defined.

(** [ReceiptStatus(...).value] *)
Definition ReceiptStatus_value (x : ReceiptStatus) : string :=
  match x with
  | GENERATED => "GENERATED"
  | ANCHORING => "ANCHORING"
  | ANCHORED => "ANCHORED"
  | VERIFIED => "VERIFIED"
  end.

Definition all_ReceiptStatus : list ReceiptStatus :=
  [GENERATED; ANCHORING; ANCHORED; VERIFIED].

(** [ReceiptStatus(s)]: the member with that value ([ValueError] otherwise). *)
Definition ReceiptStatus_of_value (s : string) : option ReceiptStatus :=
  List.find (fun x => str_eqb (ReceiptStatus_value x) s) all_ReceiptStatus.

Inductive ReceiptType : Type :=
| S1_INTENT_CREATED | S1_INTENT_SIGNED | S1_DELEGATION_ACCEPTED | S1_TASK_STARTED
| S1_STEP_EXECUTED | S1_TASK_COMPLETED | S1_INVOICE_GENERATED | S1_PAYMENT_AUTHORIZED
| S1_PAYMENT_SETTLED | S1_RECEIPT_FINAL | S2_BID_OPENED | S2_BID_PLACED
| S2_BID_EVALUATED | S2_BID_ACCEPTED | S2_TASK_EXECUTED | S2_INVOICE_GENERATED
| S2_PAYMENT_SETTLED | S3_PIPELINE_CREATED | S3_STAGE_STARTED | S3_STAGE_COMPLETED
| S3_PIPELINE_COMPLETED | S3_INVOICE_AGGREGATED | S3_PAYMENT_SETTLED
| S4_SUBTASK_CREATED | S4_SUBTASK_ASSIGNED | S4_SUBTASK_COMPLETED
| S4_AGGREGATE_INVOICE | S4_PAYMENT_SETTLED | S5_DATA_REQUESTED | S5_DATA_DELIVERED
| S5_DATA_VERIFIED | S5_ROYALTY_CALCULATED | S5_PAYMENT_SETTLED | S6_CONDITION_SET
| S6_CONDITION_MET | S6_TASK_EXECUTED | S6_ESCROW_RELEASED | S7_SUBSCRIPTION_CREATED
| S7_PERIOD_STARTED | S7_USAGE_REPORTED | S7_PERIOD_INVOICE | S7_PAYMENT_SETTLED
| S8_DISPUTE_FILED | S8_EVIDENCE_SUBMITTED | S8_ARBITRATION_STARTED
| S8_RESOLUTION_PROPOSED | S8_RESOLUTION_ACCEPTED | S8_REFUND_ISSUED
| S9_INTENT_EXPRESSED | S9_SOLVER_MATCHED | S9_SOLUTION_EXECUTED | S9_PAYMENT_SETTLED
| S10_SOURCE_LOCKED | S10_BRIDGE_PROOF | S10_DESTINATION_MINTED | S10_PAYMENT_SETTLED.

#[export] Instance ReceiptType_eq_dec : EqDecision ReceiptType.
Proof. solve_decision. Defined.

(** [ReceiptType(...).value] *)
Definition ReceiptType_value (x : ReceiptType) : string :=
  match x with
  | S1_INTENT_CREATED => "S1_INTENT_CREATED"
  | S1_INTENT_SIGNED => "S1_INTENT_SIGNED"
  | S1_DELEGATION_ACCEPTED => "S1_DELEGATION_ACCEPTED"
  | S1_TASK_STARTED => "S1_TASK_STARTED"
  | S1_STEP_EXECUTED => "S1_STEP_EXECUTED"
  | S1_TASK_COMPLETED => "S1_TASK_COMPLETED"
  | S1_INVOICE_GENERATED => "S1_INVOICE_GENERATED"
  | S1_PAYMENT_AUTHORIZED => "S1_PAYMENT_AUTHORIZED"
  | S1_PAYMENT_SETTLED => "S1_PAYMENT_SETTLED"
  | S1_RECEIPT_FINAL => "S1_RECEIPT_FINAL"
  | S2_BID_OPENED => "S2_BID_OPENED"
  | S2_BID_PLACED => "S2_BID_PLACED"
  | S2_BID_EVALUATED => "S2_BID_EVALUATED"
  | S2_BID_ACCEPTED => "S2_BID_ACCEPTED"
  | S2_TASK_EXECUTED => "S2_TASK_EXECUTED"
  | S2_INVOICE_GENERATED => "S2_INVOICE_GENERATED"
  | S2_PAYMENT_SETTLED => "S2_PAYMENT_SETTLED"
  | S3_PIPELINE_CREATED => "S3_PIPELINE_CREATED"
  | S3_STAGE_STARTED => "S3_STAGE_STARTED"
  | S3_STAGE_COMPLETED => "S3_STAGE_COMPLETED"
  | S3_PIPELINE_COMPLETED => "S3_PIPELINE_COMPLETED"
  | S3_INVOICE_AGGREGATED => "S3_INVOICE_AGGREGATED"
  | S3_PAYMENT_SETTLED => "S3_PAYMENT_SETTLED"
  | S4_SUBTASK_CREATED => "S4_SUBTASK_CREATED"
  | S4_SUBTASK_ASSIGNED => "S4_SUBTASK_ASSIGNED"
  | S4_SUBTASK_COMPLETED => "S4_SUBTASK_COMPLETED"
  | S4_AGGREGATE_INVOICE => "S4_AGGREGATE_INVOICE"
  | S4_PAYMENT_SETTLED => "S4_PAYMENT_SETTLED"
  | S5_DATA_REQUESTED => "S5_DATA_REQUESTED"
  | S5_DATA_DELIVERED => "S5_DATA_DELIVERED"
  | S5_DATA_VERIFIED => "S5_DATA_VERIFIED"
  | S5_ROYALTY_CALCULATED => "S5_ROYALTY_CALCULATED"
  | S5_PAYMENT_SETTLED => "S5_PAYMENT_SETTLED"
  | S6_CONDITION_SET => "S6_CONDITION_SET"
  | S6_CONDITION_MET => "S6_CONDITION_MET"
  | S6_TASK_EXECUTED => "S6_TASK_EXECUTED"
  | S6_ESCROW_RELEASED => "S6_ESCROW_RELEASED"
  | S7_SUBSCRIPTION_CREATED => "S7_SUBSCRIPTION_CREATED"
  | S7_PERIOD_STARTED => "S7_PERIOD_STARTED"
  | S7_USAGE_REPORTED => "S7_USAGE_REPORTED"
  | S7_PERIOD_INVOICE => "S7_PERIOD_INVOICE"
  | S7_PAYMENT_SETTLED => "S7_PAYMENT_SETTLED"
  | S8_DISPUTE_FILED => "S8_DISPUTE_FILED"
  | S8_EVIDENCE_SUBMITTED => "S8_EVIDENCE_SUBMITTED"
  | S8_ARBITRATION_STARTED => "S8_ARBITRATION_STARTED"
  | S8_RESOLUTION_PROPOSED => "S8_RESOLUTION_PROPOSED"
  | S8_RESOLUTION_ACCEPTED => "S8_RESOLUTION_ACCEPTED"
  | S8_REFUND_ISSUED => "S8_REFUND_ISSUED"
  | S9_INTENT_EXPRESSED => "S9_INTENT_EXPRESSED"
  | S9_SOLVER_MATCHED => "S9_SOLVER_MATCHED"
  | S9_SOLUTION_EXECUTED => "S9_SOLUTION_EXECUTED"
  | S9_PAYMENT_SETTLED => "S9_PAYMENT_SETTLED"
  | S10_SOURCE_LOCKED => "S10_SOURCE_LOCKED"
  | S10_BRIDGE_PROOF => "S10_BRIDGE_PROOF"
  | S10_DESTINATION_MINTED => "S10_DESTINATION_MINTED"
  | S10_PAYMENT_SETTLED => "S10_PAYMENT_SETTLED"
  end.

Definition all_ReceiptType : list ReceiptType :=
  [S1_INTENT_CREATED; S1_INTENT_SIGNED; S1_DELEGATION_ACCEPTED; S1_TASK_STARTED;
   S1_STEP_EXECUTED; S1_TASK_COMPLETED; S1_INVOICE_GENERATED; S1_PAYMENT_AUTHORIZED;
   S1_PAYMENT_SETTLED; S1_RECEIPT_FINAL; S2_BID_OPENED; S2_BID_PLACED; S2_BID_EVALUATED;
   S2_BID_ACCEPTED; S2_TASK_EXECUTED; S2_INVOICE_GENERATED; S2_PAYMENT_SETTLED;
   S3_PIPELINE_CREATED; S3_STAGE_STARTED; S3_STAGE_COMPLETED; S3_PIPELINE_COMPLETED;
   S3_INVOICE_AGGREGATED; S3_PAYMENT_SETTLED; S4_SUBTASK_CREATED; S4_SUBTASK_ASSIGNED;
   S4_SUBTASK_COMPLETED; S4_AGGREGATE_INVOICE; S4_PAYMENT_SETTLED; S5_DATA_REQUESTED;
   S5_DATA_DELIVERED; S5_DATA_VERIFIED; S5_ROYALTY_CALCULATED; S5_PAYMENT_SETTLED;
   S6_CONDITION_SET; S6_CONDITION_MET; S6_TASK_EXECUTED; S6_ESCROW_RELEASED;
   S7_SUBSCRIPTION_CREATED; S7_PERIOD_STARTED; S7_USAGE_REPORTED; S7_PERIOD_INVOICE;
   S7_PAYMENT_SETTLED; S8_DISPUTE_FILED; S8_EVIDENCE_SUBMITTED; S8_ARBITRATION_STARTED;
   S8_RESOLUTION_PROPOSED; S8_RESOLUTION_ACCEPTED; S8_REFUND_ISSUED; S9_INTENT_EXPRESSED;
   S9_SOLVER_MATCHED; S9_SOLUTION_EXECUTED; S9_PAYMENT_SETTLED; S10_SOURCE_LOCKED;
   S10_BRIDGE_PROOF; S10_DESTINATION_MINTED; S10_PAYMENT_SETTLED].

(** [ReceiptType(s)]: the member with that value ([ValueError] otherwise). *)
Definition ReceiptType_of_value (s : string) : option ReceiptType :=
  List.find (fun x => str_eqb (ReceiptType_value x) s) all_ReceiptType.

Inductive BillingState : Type :=
| INITIATED | INTENT_RECEIVED | INTENT_VALIDATED | DELEGATION_ACCEPTED | TASK_STARTED
| STEP_IN_PROGRESS | STEP_COMPLETED | TASK_COMPLETED | BID_EVALUATING | BID_ACCEPTED
| PIPELINE_STAGING | INVOICE_GENERATED | PAYMENT_AUTHORIZED | PAYMENT_PENDING
| PAYMENT_SETTLING | REFUND_PENDING | SETTLED.

#[export] Instance BillingState_eq_dec : EqDecision BillingState.
Proof. solve_decision. Defined.

(** [BillingState(...).value] *)
Definition BillingState_value (x : BillingState) : string :=
  match x with
  | INITIATED => "INITIATED"
  | INTENT_RECEIVED => "INTENT_RECEIVED"
  | INTENT_VALIDATED => "INTENT_VALIDATED"
  | DELEGATION_ACCEPTED => "DELEGATION_ACCEPTED"
  | TASK_STARTED => "TASK_STARTED"
  | STEP_IN_PROGRESS => "STEP_IN_PROGRESS"
  | STEP_COMPLETED => "STEP_COMPLETED"
  | TASK_COMPLETED => "TASK_COMPLETED"
  | BID_EVALUATING => "BID_EVALUATING"
  | BID_ACCEPTED => "BID_ACCEPTED"
  | PIPELINE_STAGING => "PIPELINE_STAGING"
  | INVOICE_GENERATED => "INVOICE_GENERATED"
  | PAYMENT_AUTHORIZED => "PAYMENT_AUTHORIZED"
  | PAYMENT_PENDING => "PAYMENT_PENDING"
  | PAYMENT_SETTLING => "PAYMENT_SETTLING"
  | REFUND_PENDING => "REFUND_PENDING"
  | SETTLED => "SETTLED"
  end.

Definition all_BillingState : list BillingState :=
  [INITIATED; INTENT_RECEIVED; INTENT_VALIDATED; DELEGATION_ACCEPTED; TASK_STARTED;
   STEP_IN_PROGRESS; STEP_COMPLETED; TASK_COMPLETED; BID_EVALUATING; BID_ACCEPTED;
   PIPELINE_STAGING; INVOICE_GENERATED; PAYMENT_AUTHORIZED; PAYMENT_PENDING;
   PAYMENT_SETTLING; REFUND_PENDING; SETTLED].

(** [BillingState(s)]: the member with that value ([ValueError] otherwise). *)
Definition BillingState_of_value (s : string) : option BillingState :=
  List.find (fun x => str_eqb (BillingState_value x) s) all_BillingState.

(** ** Hashes *)

(** [compute_payload_hash]: SHA-256 of the canonical JSON. *)
Definition compute_payload_hash (data : list (string * json)) : string :=
  sha256_hex (utf8 (dumps compact_sorted (JObj data))).

(** [compute_leaf_hash]: SHA-256 of the five fields joined by ["|"]. *)
Definition leaf_preimage (receipt_id task_id : string) (step_index : Z)
    (payload_hash timestamp : string) : bytes :=
  let parts := [receipt_id; task_id; py_str_int step_index; payload_hash; timestamp] in
  utf8 (join "|" parts).
Definition compute_leaf_hash (receipt_id task_id : string) (step_index : Z)
    (payload_hash timestamp : string) : bytes :=
  sha256 (leaf_preimage receipt_id task_id step_index payload_hash timestamp).

(** ** Records *)

Record UniversalReceipt := {
  receipt_id : string;
  task_id : string;
  scenario : ScenarioType;
  step_index : Z;
  generator_did : string;
  buyer_did : string;
  seller_did : string;
  receipt_type : ReceiptType;
  input_hash : string;
  output_hash : string;
  payload_hash : string;
  created_at : datetime;
  execution_duration_ms : Z;
  parent_receipt_id : option string;
  previous_payload_hash : option string;
  scenario_data : option (list (string * json));
  status : ReceiptStatus;
  signature : string;
  signature_algorithm : string;
  anchor_tx : option string;
  anchor_leaf_index : option Z;
  anchor_root : option string
}.

Definition with_payload_hash (r : UniversalReceipt) (h : string) : UniversalReceipt :=
  {| receipt_id := receipt_id r; task_id := task_id r; scenario := scenario r;
     step_index := step_index r; generator_did := generator_did r;
     buyer_did := buyer_did r; seller_did := seller_did r;
     receipt_type := receipt_type r; input_hash := input_hash r;
     output_hash := output_hash r; payload_hash := h; created_at := created_at r;
     execution_duration_ms := execution_duration_ms r;
     parent_receipt_id := parent_receipt_id r;
     previous_payload_hash := previous_payload_hash r;
     scenario_data := scenario_data r; status := status r; signature := signature r;
     signature_algorithm := signature_algorithm r; anchor_tx := anchor_tx r;
     anchor_leaf_index := anchor_leaf_index r; anchor_root := anchor_root r |}.

(** [_auto_compute_payload_hash] (the [mode="after"] validator). *)
Definition auto_compute_payload_hash (r : UniversalReceipt) : UniversalReceipt :=
  match scenario_data r with
  | Some d => if str_eqb (payload_hash r) ""
              then with_payload_hash r (compute_payload_hash d) else r
  | None => r
  end.

(** Building a receipt: the [ge=0] constraints, then the model validator. *)
Definition build_receipt (r : UniversalReceipt) : outcome py_exn UniversalReceipt :=
  if (step_index r <? 0)%Z then Raise (ValueError "step_index")
  else if (execution_duration_ms r <? 0)%Z then Raise (ValueError "execution_duration_ms")
  else Ret (auto_compute_payload_hash r).

(** [UniversalReceipt.compute_leaf] *)
Definition compute_leaf (r : UniversalReceipt) : bytes :=
  compute_leaf_hash (receipt_id r) (task_id r) (step_index r)
    (if str_eqb (payload_hash r) "" then compute_payload_hash (default [] (scenario_data r))
     else payload_hash r)
    (isoformat (created_at r)).

Record BillingSnapshot := {
  snap_task_id : string;
  snap_scenario : ScenarioType;
  snap_billing_state : BillingState;
  snap_current_step : Z;
  snap_total_steps_estimated : Z;
  snap_cost_accrued_usdc : float;
  snap_total_budget_usdc : float;
  snap_progress_percent : float;
  snap_anchored_receipts : Z;
  snap_latest_merkle_root : option string;
  snap_last_anchor_tx : option string
}.

Record StateTransitionRecord := {
  tr_record_id : string;
  tr_task_id : string;
  tr_from_state : BillingState;
  tr_to_state : BillingState;
  tr_triggered_by_receipt_id : string;
  tr_triggered_by_did : string;
  tr_timestamp : datetime
}.

#[export] Instance StateTransitionRecord_eq_dec : EqDecision StateTransitionRecord.
Proof. solve_decision. Defined.

(** ** Values round-trip *)

Lemma BillingState_value_inj x y : BillingState_value x = BillingState_value y -> x = y.
Proof. destruct x, y; (done || discriminate). Qed.

Lemma BillingState_roundtrip x : BillingState_of_value (BillingState_value x) = Some x.
Proof. by destruct x. Qed.
Lemma ScenarioType_roundtrip x : ScenarioType_of_value (ScenarioType_value x) = Some x.
Proof. by destruct x. Qed.
Lemma ReceiptType_roundtrip x : ReceiptType_of_value (ReceiptType_value x) = Some x.
Proof. by destruct x. Qed.
Lemma ReceiptStatus_roundtrip x : ReceiptStatus_of_value (ReceiptStatus_value x) = Some x.
Proof. by destruct x. Qed.

Lemma all_BillingState_complete x : x ∈ all_BillingState.
Proof. by destruct x; vm_compute; repeat constructor. Qed.
Lemma all_ScenarioType_complete x : x ∈ all_ScenarioType.
Proof. by destruct x; vm_compute; repeat constructor. Qed.

(** A statement about states or scenarios holds when it is checked on the lists. *)
Lemma forall_BillingState (P : BillingState -> bool) :
  forallb P all_BillingState = true -> forall x, P x = true.
Proof. intros H x. rewrite forallb_forall in H. apply H, list_elem_of_In, all_BillingState_complete. Qed.
Lemma forall_ScenarioType (P : ScenarioType -> bool) :
  forallb P all_ScenarioType = true -> forall x, P x = true.
Proof. intros H x. rewrite forallb_forall in H. apply H, list_elem_of_In, all_ScenarioType_complete. Qed.

(** ** Payload hashes *)

Definition payload_text (data : list (string * json)) : bytes := utf8 (dumps compact_sorted (JObj data)).

Lemma payload_text_inj data data' :
  payload_text data = payload_text data' -> canon (JObj data) = canon (JObj data').
Proof. intros H%utf8_inj. apply (dumps_inj compact_sorted eq_refl); [by exists ""|done]. Qed.

(** [compute_payload_hash] is a hash of the content: it does not depend on the
    order of keys, at any depth of the payload, and payloads with one hash have
    the same content up to that order, or their canonical texts are a SHA-256
    collision. *)
Theorem payload_hash_canonical data data' :
  (canon (JObj data) = canon (JObj data') -> compute_payload_hash data = compute_payload_hash data')
  /\ (compute_payload_hash data = compute_payload_hash data' ->
      canon (JObj data) = canon (JObj data')
      \/ sha256_collides (payload_text data) (payload_text data')).
Proof.
  unfold compute_payload_hash. split; intros H.
  - by rewrite <- (dumps_canon compact_sorted eq_refl (JObj data)), H, dumps_canon.
  - rewrite !sha256_hex_eq in H. apply hex_inj in H; [|apply sha256_ok..].
    destruct (sha256_inj_or_collides _ _ H) as [Ht|Hc]; [left|by right]. by apply payload_text_inj.
Qed.

Lemma payload_hash_canonical_witness :
  compute_payload_hash [("a", JInt 1); ("b", JList [JNull])]
  = compute_payload_hash [("b", JList [JNull]); ("a", JInt 1)].
Proof.
  apply (proj1 (payload_hash_canonical [("a", JInt 1); ("b", JList [JNull])]
                  [("b", JList [JNull]); ("a", JInt 1)])). reflexivity.
Defined.

(** ** Leaf hashes *)

Lemma uint_no_bar (d : Decimal.uint) : no_bar (DecimalString.NilEmpty.string_of_uint d) = true.
Proof. by induction d. Qed.
Lemma int_no_bar z : no_bar (py_str_int z) = true.
Proof. unfold py_str_int. destruct (Z.to_int z); cbn; [|]; apply uint_no_bar. Qed.

(** Receipts whose identifiers and payload hash contain no ["|"] have
    different Merkle leaves unless their two preimages are a SHA-256 collision:
    the leaf commits to the receipt id, the task id, the step index, the payload hash and the
    timestamp. *)
Theorem leaf_hash_separates r t s p ts r' t' s' p' ts' :
  no_bar r = true -> no_bar r' = true -> no_bar t = true -> no_bar t' = true ->
  no_bar p = true -> no_bar p' = true ->
  compute_leaf_hash r t s p ts = compute_leaf_hash r' t' s' p' ts' ->
  (r = r' /\ t = t' /\ s = s' /\ p = p' /\ ts = ts')
  \/ sha256_collides (leaf_preimage r t s p ts) (leaf_preimage r' t' s' p' ts').
Proof.
  intros Hr Hr' Ht Ht' Hp Hp' H.
  unfold compute_leaf_hash in H.
  destruct (sha256_inj_or_collides _ _ H) as [Hb|Hc]; [left; clear H|by right].
  unfold leaf_preimage in Hb. apply utf8_inj in Hb. cbn [join] in Hb. rename Hb into H.
  apply bar_split in H as [-> H]; [|done..].
  apply bar_split in H as [-> H]; [|done..].
  apply bar_split in H as [Hs H]; [|apply int_no_bar..].
  apply bar_split in H as [-> ->]; [|done..].
  by apply py_str_int_inj in Hs as ->.
Qed.

Lemma leaf_hash_separates_witness :
  no_bar "r1" = true /\
  (("r1" = "r1" /\ "t1" = "t1" /\ 0%Z = 0%Z /\ "h" = "h" /\ "ts" = "ts")
   \/ sha256_collides (leaf_preimage "r1" "t1" 0 "h" "ts") (leaf_preimage "r1" "t1" 0 "h" "ts")).
Proof.
  split; [reflexivity|].
  apply (leaf_hash_separates "r1" "t1" 0 "h" "ts" "r1" "t1" 0 "h" "ts"); reflexivity.
Defined.

(** Without that side condition the leaf is ambiguous: moving text across a
    separator between the receipt id and the task id keeps the leaf, so two
    receipts of different tasks can share one leaf with no hash collision. *)
Theorem leaf_hash_boundary_shift a b c s p ts :
  compute_leaf_hash (a ++ "|" ++ b) c s p ts = compute_leaf_hash a (b ++ "|" ++ c) s p ts.
Proof.
  assert (Happ : forall x y z : string, ((x ++ y) ++ z = x ++ (y ++ z))%string)
    by apply str_app_assoc.
  unfold compute_leaf_hash, leaf_preimage. cbn [join]. by rewrite !Happ.
Qed.

(** The validator does not change the leaf of a receipt that carries data. *)
Lemma auto_hash_leaf r : compute_leaf (auto_compute_payload_hash r) = compute_leaf r.
Proof.
  unfold auto_compute_payload_hash. destruct (scenario_data r) as [d|] eqn:Hd; [|done].
  destruct (str_eqb (payload_hash r) "") eqn:Hp; [|done].
  unfold compute_leaf. cbn. rewrite Hp, Hd. cbn.
  destruct (str_eqb (compute_payload_hash d) "") eqn:He; [|done].
  unfold str_eqb in He. apply bool_decide_eq_true in He. 
  unfold compute_payload_hash in He. by destruct (sha256_hex_nonempty _ He).
Qed.
