(* ===== verification/BillingMachine.v ===== *)
(** * The immutable billing state machine ([packages/karma_billing/state_machine.py])

    [AuditLog] is the source's [Protocol]: what an audit log promises the machine
    (both operations append, and neither touches the other's list).
    [InMemoryAuditLog] implements it.  The machine is proved against the interface.
    An operation is one step here; [BillingConcurrency] models the per-task lock
    and the interleavings, and shows that they change nothing a task shows. *)

From S2P Require Import Prelude PyBytes PyJson PyDatetime PyFloat BillingSchema BillingTransitions.
#[local] Open Scope string_scope.

(** ** Errors and audit log *)

Inductive billing_error : Type :=
| IllegalStateTransitionError (task_id : string) (from_state to_state : BillingState)
    (scenario : option ScenarioType)
| ConcurrentTransitionError (task_id : string) (expected actual : BillingState).

#[export] Instance billing_error_eq_dec : EqDecision billing_error.
Proof. solve_decision. Defined.

Record security_event := SecurityEvent {
  ev_type : string;
  ev_severity : string;
  ev_task_id : string;
  ev_details : list (string * string)
}.

#[export] Instance security_event_eq_dec : EqDecision security_event.
Proof. solve_decision. Defined.

Class AuditLog (L : Type) := {
  log_security_event : security_event -> L -> L;
  log_transition : StateTransitionRecord -> L -> L;
  transitions : L -> list StateTransitionRecord;
  security_events : L -> list security_event
}.

Class AuditLogLaws (L : Type) `{AuditLog L} := {
  log_transition_appends : forall r l,
    transitions (log_transition r l) = (transitions l ++ [r])%list;
  log_transition_events : forall r l,
    security_events (log_transition r l) = security_events l;
  log_security_event_appends : forall e l,
    security_events (log_security_event e l) = (security_events l ++ [e])%list;
  log_security_event_transitions : forall e l,
    transitions (log_security_event e l) = transitions l
}.

Record InMemoryAuditLog := {
  mem_transitions : list StateTransitionRecord;
  mem_security_events : list security_event
}.

Definition empty_log : InMemoryAuditLog := {| mem_transitions := []; mem_security_events := [] |}.

Definition mem_log_security_event (e : security_event) (l : InMemoryAuditLog) : InMemoryAuditLog :=
  {| mem_transitions := mem_transitions l;
     mem_security_events := mem_security_events l ++ [e] |}.

Definition mem_log_transition (r : StateTransitionRecord) (l : InMemoryAuditLog) : InMemoryAuditLog :=
  {| mem_transitions := mem_transitions l ++ [r];
     mem_security_events := mem_security_events l |}.

#[export] Instance InMemoryAuditLog_log : AuditLog InMemoryAuditLog :=
  {| log_security_event := mem_log_security_event;
     log_transition := mem_log_transition;
     transitions := mem_transitions;
     security_events := mem_security_events |}.

#[export] Instance InMemoryAuditLog_laws : AuditLogLaws InMemoryAuditLog.
Proof. by split. Qed.

(** ** The machine *)

Record ImmutableBillingStateMachine (L : Type) := Machine {
  audit_log : L;
  task_states : gmap string BillingState;
  task_scenarios : gmap string ScenarioType;
  task_receipts : gmap string (gset string);
  locks : gset string
}.
Arguments Machine {L} _ _ _ _ _.
Arguments audit_log {L} _.
Arguments task_states {L} _.
Arguments task_scenarios {L} _.
Arguments task_receipts {L} _.
Arguments locks {L} _.

Section Machine.
Context {L : Type} `{AuditLog L}.
Abbreviation machine := (ImmutableBillingStateMachine L).
Abbreviation MB := (M machine billing_error).
#[local] Open Scope py_scope.

Definition create_state_machine (log : L) : machine := Machine log ∅ ∅ ∅ ∅.

Definition set_log (f : L -> L) (m : machine) : machine :=
  Machine (f (audit_log m)) (task_states m) (task_scenarios m) (task_receipts m) (locks m).
Definition set_state (t : string) (s : BillingState) (m : machine) : machine :=
  Machine (audit_log m) (<[t := s]> (task_states m)) (task_scenarios m) (task_receipts m) (locks m).

(** [_is_receipt_valid] *)
Definition is_receipt_valid (m : machine) (task_id receipt_id : string) : bool :=
  bool_decide (receipt_id ∈ default ∅ (task_receipts m !! task_id)).

(** [validate_transition]: read-only, except that a rejection is logged. *)
Definition validate_transition (task_id : string) (scenario : ScenarioType)
    (from_state to_state : BillingState) (receipt_id did : string) : MB bool :=
  let! m := py_get in
  if match dict_get from_state BILLING_STATE_TRANSITIONS with
     | None => true
     | Some legal_targets => negb (mem to_state legal_targets)
     end
  then
    py_modify (set_log (log_security_event
      (SecurityEvent "ILLEGAL_TRANSITION_ATTEMPT" "CRITICAL" task_id
         [("from_state", BillingState_value from_state);
          ("to_state", BillingState_value to_state);
          ("triggered_by_receipt_id", receipt_id); ("triggered_by_did", did);
          ("reason", "Transition not in global transition map")]))) ;;;
    py_ret false
  else if negb (is_transition_allowed scenario from_state to_state) then
    py_modify (set_log (log_security_event
      (SecurityEvent "ILLEGAL_TRANSITION_ATTEMPT" "CRITICAL" task_id
         [("from_state", BillingState_value from_state);
          ("to_state", BillingState_value to_state);
          ("scenario", ScenarioType_value scenario);
          ("triggered_by_receipt_id", receipt_id); ("triggered_by_did", did);
          ("reason", "Transition not on any allowed path for scenario")]))) ;;;
    py_ret false
  else if negb (is_receipt_valid m task_id receipt_id) then
    py_modify (set_log (log_security_event
      (SecurityEvent "INVALID_RECEIPT" "CRITICAL" task_id
         [("receipt_id", receipt_id);
          ("reason", "Receipt not found or not associated with this task")]))) ;;;
    py_ret false
  else py_ret true.

(** [_get_lock]: the lock exists afterwards. *)
Definition get_lock (task_id : string) : MB unit :=
  py_modify (fun m => Machine (audit_log m) (task_states m) (task_scenarios m)
                        (task_receipts m) ({[task_id]} ∪ locks m)).

(** The first transition of a task registers it in [INITIATED]. *)
Definition init_task (task_id : string) (scenario : ScenarioType) (m : machine) : machine :=
  Machine (audit_log m) (<[task_id := INITIATED]> (task_states m))
    (<[task_id := scenario]> (task_scenarios m))
    (match task_receipts m !! task_id with
     | Some _ => task_receipts m
     | None => <[task_id := ∅]> (task_receipts m)
     end)
    (locks m).

Definition read_current (task_id : string) (scenario : ScenarioType) : MB BillingState :=
  let! m := py_get in
  match task_states m !! task_id with
  | Some s => py_ret s
  | None => py_modify (init_task task_id scenario) ;;; py_ret INITIATED
  end.

Definition anchor_event (task_id : string) (to_state : BillingState) : security_event :=
  SecurityEvent "ANCHOR_REQUIRED" "INFO" task_id
    [("state", BillingState_value to_state);
     ("reason", "State requires immediate on-chain anchoring")].

(** [execute_transition]; [record_id] is the fresh UUID and [now] the clock. *)
Definition execute_transition (task_id : string) (scenario : ScenarioType)
    (to_state : BillingState) (receipt_id did : string)
    (record_id : string) (now : datetime) : MB StateTransitionRecord :=
  get_lock task_id ;;;
  let! from_state := read_current task_id scenario in
  let! is_valid := validate_transition task_id scenario from_state to_state receipt_id did in
  if negb is_valid then
    py_raise (IllegalStateTransitionError task_id from_state to_state (Some scenario))
  else
    let record := {| tr_record_id := record_id; tr_task_id := task_id;
                     tr_from_state := from_state; tr_to_state := to_state;
                     tr_triggered_by_receipt_id := receipt_id;
                     tr_triggered_by_did := did; tr_timestamp := now |} in
    py_modify (set_log (log_transition record)) ;;;
    py_modify (set_state task_id to_state) ;;;
    py_when (mem to_state REQUIRE_IMMEDIATE_ANCHOR)
      (py_modify (set_log (log_security_event (anchor_event task_id to_state)))) ;;;
    py_ret record.

(** [register_receipt] *)
Definition register_receipt (task_id receipt_id : string) : MB unit :=
  py_modify (fun m =>
    Machine (audit_log m) (task_states m) (task_scenarios m)
      (<[task_id := {[receipt_id]} ∪ default ∅ (task_receipts m !! task_id)]> (task_receipts m))
      (locks m)).

(** [get_current_state], [get_scenario] *)
Definition get_current_state (m : machine) (task_id : string) : option BillingState :=
  task_states m !! task_id.
Definition get_scenario (m : machine) (task_id : string) : option ScenarioType :=
  task_scenarios m !! task_id.

(** Step, length and rounded percentage of a state on the primary path. *)
Definition path_progress (path : list BillingState) (s : BillingState) : Z * Z * float :=
  let current_step := match index_of s path with
                      | Some i => (Z.of_nat i + 1)%Z
                      | None => 0%Z
                      end in
  let total_steps := Z.of_nat (length path) in
  let progress :=
    if (0 <? total_steps)%Z
    then fmul (fdiv (float_of_int current_step) (float_of_int total_steps)) (float_of_int 100)
    else fzero in
  (current_step, total_steps, py_round 2 progress).

(** [get_snapshot] *)
Definition get_snapshot (m : machine) (task_id : string) : option BillingSnapshot :=
  match task_states m !! task_id with
  | None => None
  | Some state =>
      let scenario := default S1_DELEGATION (task_scenarios m !! task_id) in
      let anchored_count := size (default ∅ (task_receipts m !! task_id)) in
      let paths := default [[]] (dict_get scenario ALLOWED_STATE_PATHS) in
      let primary_path := match paths with p :: _ => p | [] => [] end in
      let '(current_step, total_steps, progress) := path_progress primary_path state in
      Some {| snap_task_id := task_id; snap_scenario := scenario; snap_billing_state := state;
              snap_current_step := current_step; snap_total_steps_estimated := total_steps;
              snap_cost_accrued_usdc := fzero; snap_total_budget_usdc := fzero;
              snap_progress_percent := progress;
              snap_anchored_receipts := Z.of_nat anchored_count;
              snap_latest_merkle_root := None; snap_last_anchor_tx := None |}
  end.

(** The public operations that change the machine. *)
Inductive machine_op : Type :=
| RegisterReceipt (task_id receipt_id : string)
| ValidateTransition (task_id : string) (scenario : ScenarioType)
    (from_state to_state : BillingState) (receipt_id did : string)
| ExecuteTransition (task_id : string) (scenario : ScenarioType) (to_state : BillingState)
    (receipt_id did record_id : string) (now : datetime).

Definition machine_step (op : machine_op) (m : machine) : machine :=
  match op with
  | RegisterReceipt t r => run_state (register_receipt t r) m
  | ValidateTransition t sc a b r d => run_state (validate_transition t sc a b r d) m
  | ExecuteTransition t sc b r d i n => run_state (execute_transition t sc b r d i n) m
  end.

Definition machine_run (ops : list machine_op) (m : machine) : machine :=
  fold_left (fun m op => machine_step op m) ops m.
End Machine.

(** ** What one call does *)

Section MachineFacts.
Context {L : Type} `{HL : AuditLog L} `{!AuditLogLaws L}.
Abbreviation machine := (ImmutableBillingStateMachine L).
Implicit Types (m : machine) (t r d i : string) (sc : ScenarioType) (a b : BillingState).

Definition current_of m t : BillingState := default INITIATED (task_states m !! t).

(** The three checks of [validate_transition] as one condition. *)
Definition accepts m t sc b r : bool :=
  is_transition_allowed sc (current_of m t) b && is_receipt_valid m t r.

(** The machine once the lock exists and the task is known. *)
Definition prepared m t sc : machine :=
  let m1 := run_state (get_lock t) m in
  match task_states m !! t with
  | Some _ => m1
  | None => init_task t sc m1
  end.

Lemma prepared_log m t sc : audit_log (prepared m t sc) = audit_log m.
Proof. unfold prepared. by destruct (task_states m !! t). Qed.

Lemma prepared_states m t sc :
  task_states (prepared m t sc) = <[t := current_of m t]> (task_states m).
Proof.
  unfold prepared, current_of. destruct (task_states m !! t) as [s|] eqn:E; [|done].
  cbn. by rewrite insert_id.
Qed.

Lemma prepared_receipts m t sc t' :
  default ∅ (task_receipts (prepared m t sc) !! t') = default ∅ (task_receipts m !! t').
Proof.
  unfold prepared. destruct (task_states m !! t); [done|]. cbn.
  destruct (task_receipts m !! t) eqn:E; [done|].
  destruct (decide (t = t')) as [<-|Hne]; simplify_map_eq; by rewrite ?E.
Qed.

Lemma prepared_receipt_valid m t sc t' r :
  is_receipt_valid (prepared m t sc) t' r = is_receipt_valid m t' r.
Proof. unfold is_receipt_valid. by rewrite prepared_receipts. Qed.

Lemma global_check sc a b :
  is_transition_allowed sc a b = true ->
  match dict_get a BILLING_STATE_TRANSITIONS with
  | None => true
  | Some legal_targets => negb (mem b legal_targets)
  end = false.
Proof.
  intros H%allowed_legal. unfold get_legal_targets in H.
  destruct (dict_get a BILLING_STATE_TRANSITIONS) as [l|]; cbn in H; [|by inversion H].
  apply mem_true in H. by rewrite H.
Qed.

(** What the log gets when a transition is refused. *)
Definition rejection_event (e : security_event) t : Prop :=
  ev_severity e = "CRITICAL" /\ ev_task_id e = t
  /\ (ev_type e = "ILLEGAL_TRANSITION_ATTEMPT" \/ ev_type e = "INVALID_RECEIPT").

(** [validate_transition]: the verdict, and a single critical event when it is
    negative. *)
Lemma validate_cases m t sc a b r d :
  if is_transition_allowed sc a b && is_receipt_valid m t r
  then validate_transition t sc a b r d m = (m, Ret true)
  else exists e, rejection_event e t /\
         validate_transition t sc a b r d m = (set_log (log_security_event e) m, Ret false).
Proof.
  unfold validate_transition, py_bind, py_get.
  destruct (is_transition_allowed sc a b) eqn:Ha; cbn [andb negb].
  - rewrite (global_check sc a b Ha). destruct (is_receipt_valid m t r); cbn; [done|].
    eexists (SecurityEvent _ _ _ _). split; [|reflexivity]. split; [done|split; [done|by right]].
  - destruct (match dict_get a _ with Some _ => _ | None => _ end); cbn;
      (eexists (SecurityEvent _ _ _ _); split; [|reflexivity];
       split; [done|split; [done|by left]]).
Qed.

Lemma read_current_eq m t sc :
  read_current t sc (run_state (get_lock t) m) = (prepared m t sc, Ret (current_of m t)).
Proof.
  unfold read_current, prepared, current_of, py_bind, py_get. cbn.
  by destruct (task_states m !! t).
Qed.

Definition new_record t a b r d i (now : datetime) : StateTransitionRecord :=
  {| tr_record_id := i; tr_task_id := t; tr_from_state := a; tr_to_state := b;
     tr_triggered_by_receipt_id := r; tr_triggered_by_did := d; tr_timestamp := now |}.

Definition anchor_events t b : list security_event :=
  if mem b REQUIRE_IMMEDIATE_ANCHOR then [anchor_event t b] else [].

(** Everything a caller can observe of one [execute_transition]. *)
Lemma execute_cases m t sc b r d i now :
  let (m', o) := execute_transition t sc b r d i now m in
  (forall t', default ∅ (task_receipts m' !! t') = default ∅ (task_receipts m !! t')) /\
  if accepts m t sc b r
  then o = Ret (new_record t (current_of m t) b r d i now)
       /\ task_states m' = <[t := b]> (task_states m)
       /\ transitions (audit_log m')
          = (transitions (audit_log m) ++ [new_record t (current_of m t) b r d i now])%list
       /\ security_events (audit_log m')
          = (security_events (audit_log m) ++ anchor_events t b)%list
  else o = Raise (IllegalStateTransitionError t (current_of m t) b (Some sc))
       /\ task_states m' = <[t := current_of m t]> (task_states m)
       /\ transitions (audit_log m') = transitions (audit_log m)
       /\ exists e, rejection_event e t
          /\ security_events (audit_log m') = (security_events (audit_log m) ++ [e])%list.
Proof.
  unfold execute_transition, py_bind at 1.
  change (get_lock t m) with (run_state (get_lock t) m, @Ret billing_error unit tt).
  cbn beta iota. unfold py_bind at 1. rewrite read_current_eq.
  unfold py_bind at 1.
  pose proof (validate_cases (prepared m t sc) t sc (current_of m t) b r d) as Hv.
  rewrite prepared_receipt_valid in Hv. fold (accepts m t sc b r) in Hv.
  destruct (accepts m t sc b r).
  - rewrite Hv. unfold py_when, py_bind, py_modify, py_ret, anchor_events. cbn.
    destruct (mem b REQUIRE_IMMEDIATE_ANCHOR); cbn;
      rewrite ?log_security_event_transitions, ?log_security_event_appends,
        ?log_transition_appends, ?log_transition_events, ?prepared_log, ?app_nil_r;
      (split; [intros t'; apply prepared_receipts|]);
      (split; [done|]); rewrite prepared_states, insert_insert_eq; done.
  - destruct Hv as (e & He & ->). cbn.
    split; [intros t'; apply prepared_receipts|]. split; [done|].
    rewrite prepared_states. split; [done|].
    rewrite log_security_event_transitions, log_security_event_appends, prepared_log.
    split; [done|]. by exists e.
Qed.

(** [execute_transition], on every branch.  It succeeds exactly when the
    scenario allows the step from the task's current state ([INITIATED] for a
    new task) and the receipt is registered for the task: then it returns the
    record, appends it to the history, moves the task and emits the anchor
    request for the states that need one.  Otherwise it raises, leaves the
    history and the state alone, and logs one critical event. *)
Theorem execute_transition_spec m t sc b r d i now :
  let (m', o) := execute_transition t sc b r d i now m in
  if is_transition_allowed sc (current_of m t) b && is_receipt_valid m t r
  then o = Ret (new_record t (current_of m t) b r d i now)
       /\ task_states m' = <[t := b]> (task_states m)
       /\ transitions (audit_log m')
          = (transitions (audit_log m) ++ [new_record t (current_of m t) b r d i now])%list
       /\ security_events (audit_log m')
          = (security_events (audit_log m) ++ anchor_events t b)%list
  else o = Raise (IllegalStateTransitionError t (current_of m t) b (Some sc))
       /\ task_states m' = <[t := current_of m t]> (task_states m)
       /\ transitions (audit_log m') = transitions (audit_log m)
       /\ exists e, rejection_event e t
          /\ security_events (audit_log m') = (security_events (audit_log m) ++ [e])%list.
Proof.
  pose proof (execute_cases m t sc b r d i now) as H.
  destruct (execute_transition t sc b r d i now m) as [m' o]. exact (proj2 H).
Qed.

(** ** Histories *)

Definition task_history m t : list StateTransitionRecord :=
  List.filter (fun x => str_eqb (tr_task_id x) t) (transitions (audit_log m)).

(** [h] leads from state [a] to state [b] through allowed steps. *)
Fixpoint chain (a : BillingState) (h : list StateTransitionRecord) (b : BillingState) : Prop :=
  match h with
  | [] => a = b
  | x :: h => tr_from_state x = a /\ (exists sc, allowed sc a (tr_to_state x))
              /\ chain (tr_to_state x) h b
  end.

Lemma chain_snoc h : forall a b c x,
  chain a h b -> tr_from_state x = b -> tr_to_state x = c -> (exists sc, allowed sc b c) ->
  chain a (h ++ [x]) c.
Proof.
  induction h as [|y h IH]; intros a b c x; cbn.
  - intros <- Hf Ht Hsc. rewrite Ht. done.
  - intros (Hf & Hs & Hc) Hx Ht Hsc. split; [done|split; [done|]]. by eapply IH.
Qed.

Record machine_inv m : Prop := {
  inv_chain : forall t, chain INITIATED (task_history m t) (current_of m t);
  inv_receipts : forall x, x ∈ transitions (audit_log m) ->
    is_receipt_valid m (tr_task_id x) (tr_triggered_by_receipt_id x) = true
}.

Lemma history_snoc m m' x t :
  transitions (audit_log m') = (transitions (audit_log m) ++ [x])%list ->
  task_history m' t = if str_eqb (tr_task_id x) t then (task_history m t ++ [x])%list
                      else task_history m t.
Proof.
  intros E. unfold task_history. rewrite E, List.filter_app. cbn.
  destruct (str_eqb (tr_task_id x) t); [done|apply app_nil_r].
Qed.

Lemma current_insert m m' t b :
  task_states m' = <[t := b]> (task_states m) ->
  forall t', current_of m' t' = if decide (t = t') then b else current_of m t'.
Proof. intros E t'. unfold current_of. rewrite E, lookup_insert. by case_decide. Qed.

Lemma current_insert_same m m' t :
  task_states m' = <[t := current_of m t]> (task_states m) ->
  forall t', current_of m' t' = current_of m t'.
Proof. intros E t'. rewrite (current_insert _ _ _ _ E). by case_decide; subst. Qed.

Lemma validate_preserves_inv m t sc a b r d :
  machine_inv m -> machine_inv (run_state (validate_transition t sc a b r d) m).
Proof.
  intros Hinv. unfold run_state. pose proof (validate_cases m t sc a b r d) as Hv.
  destruct (_ && _); [by rewrite Hv|]. destruct Hv as (e & _ & ->). cbn [fst].
  destruct Hinv as [Hc Hr]. split.
  - intros t'. unfold task_history, set_log. cbn.
    rewrite log_security_event_transitions. apply Hc.
  - intros x. unfold set_log. cbn. rewrite log_security_event_transitions. apply Hr.
Qed.

Lemma execute_preserves_inv m t sc b r d i now :
  machine_inv m -> machine_inv (run_state (execute_transition t sc b r d i now) m).
Proof.
  intros [Hc Hr]. unfold run_state.
  pose proof (execute_cases m t sc b r d i now) as Hx.
  destruct (execute_transition t sc b r d i now m) as [m' o]. cbn [fst].
  destruct Hx as [Hrec Hx]. destruct (accepts m t sc b r) eqn:Hacc.
  - destruct Hx as (_ & Hst & Htr & _). apply andb_prop in Hacc as [Hal Hval]. split.
    + intros t'. rewrite (history_snoc _ _ _ t' Htr), (current_insert _ _ _ _ Hst). cbn.
      destruct (decide (t = t')) as [<-|Hne]; [|by rewrite str_eqb_ne].
      rewrite str_eqb_refl. eapply chain_snoc; [apply Hc|done..|by exists sc].
    + intros x. rewrite Htr, elem_of_app, list_elem_of_singleton.
      unfold is_receipt_valid in *. rewrite Hrec. intros [Hin| ->]; [by apply Hr|exact Hval].
  - destruct Hx as (_ & Hst & Htr & _). split.
    + intros t'. unfold task_history. rewrite Htr, (current_insert_same _ _ _ Hst). apply Hc.
    + intros x. rewrite Htr. unfold is_receipt_valid in *. rewrite Hrec. apply Hr.
Qed.

Lemma register_preserves_inv m t r :
  machine_inv m -> machine_inv (run_state (register_receipt t r) m).
Proof.
  intros [Hc Hr]. split; [exact Hc|]. intros x Hx. specialize (Hr x Hx).
  unfold is_receipt_valid in *. apply bool_decide_eq_true in Hr. apply bool_decide_eq_true.
  cbn. rewrite lookup_insert. case_decide as Ht; [|done]. cbn. rewrite Ht. set_solver.
Qed.

Lemma step_preserves_inv op m : machine_inv m -> machine_inv (machine_step op m).
Proof.
  intros Hm. destruct op.
  - by apply register_preserves_inv.
  - by apply validate_preserves_inv.
  - by apply execute_preserves_inv.
Qed.

Lemma create_inv (log : L) : transitions log = [] -> machine_inv (create_state_machine log).
Proof.
  intros E. split.
  - intros t. unfold task_history. cbn. rewrite E. done.
  - intros x. cbn. rewrite E. intros Hx. by inversion Hx.
Qed.

Lemma run_preserves_inv ops : forall m, machine_inv m -> machine_inv (machine_run ops m).
Proof.
  induction ops as [|op ops IH]; intros m Hm; [done|]. apply IH. by apply step_preserves_inv.
Qed.

Lemma run_inv (log : L) ops :
  transitions log = [] -> machine_inv (machine_run ops (create_state_machine log)).
Proof. intros H. by apply run_preserves_inv, create_inv. Qed.
End MachineFacts.


(** Case analysis on the [execute_transition] of the goal. *)
Ltac case_execute m' o Hx :=
  match goal with
  | |- context [execute_transition ?t ?sc ?b ?r ?d ?i ?n ?m] =>
      pose proof (execute_cases m t sc b r d i n) as Hx;
      destruct (execute_transition t sc b r d i n m) as [m' o];
      destruct Hx as [_ Hx]; cbn [fst]
  end.

(** ** Guarantees of every run *)

Section MachineGuarantees.
Context {L : Type} `{HL : AuditLog L} `{!AuditLogLaws L}.
Abbreviation machine := (ImmutableBillingStateMachine L).
Implicit Types (m : machine) (t r d i : string) (sc : ScenarioType) (a b : BillingState).

(** C1. After any sequence of operations on a new machine, the history of every
    task is a chain of allowed transitions from [INITIATED] to the task's
    current state, and every recorded transition names a receipt registered for
    its task. *)
Theorem history_is_chain (log : L) (ops : list machine_op) :
  transitions log = [] ->
  let m := machine_run ops (create_state_machine log) in
  (forall t, chain INITIATED (task_history m t) (current_of m t))
  /\ (forall x, x ∈ transitions (audit_log m) ->
        is_receipt_valid m (tr_task_id x) (tr_triggered_by_receipt_id x) = true).
Proof.
  intros Hlog m. split; apply (run_inv log ops Hlog).
Qed.

Lemma step_log_prefix op m :
  transitions (audit_log m) `prefix_of` transitions (audit_log (machine_step op m))
  /\ security_events (audit_log m) `prefix_of` security_events (audit_log (machine_step op m)).
Proof.
  destruct op as [t r|t sc a b r d|t sc b r d i now]; cbn [machine_step]; unfold run_state.
  - done.
  - pose proof (validate_cases m t sc a b r d) as Hv.
    destruct (_ && _); [by rewrite Hv|]. destruct Hv as (e & _ & ->). cbn.
    rewrite log_security_event_transitions, log_security_event_appends.
    split; [done|]. by apply prefix_app_r.
  - case_execute m' o Hx. destruct (accepts m t sc b r).
    + destruct Hx as (_ & _ & -> & ->). split; by apply prefix_app_r.
    + destruct Hx as (_ & _ & -> & e & _ & ->). split; [done|]. by apply prefix_app_r.
Qed.

(** The audit log is append-only: no operation removes, reorders or rewrites
    a recorded transition or security event. *)
Theorem log_append_only (ops : list machine_op) m :
  transitions (audit_log m) `prefix_of` transitions (audit_log (machine_run ops m))
  /\ security_events (audit_log m) `prefix_of` security_events (audit_log (machine_run ops m)).
Proof.
  revert m. induction ops as [|op ops IH]; intros m; [done|].
  destruct (step_log_prefix op m), (IH (machine_step op m)).
  split; etrans; eassumption.
Qed.

Lemma settled_step op m t :
  task_states m !! t = Some SETTLED ->
  task_states (machine_step op m) !! t = Some SETTLED
  /\ task_history (machine_step op m) t = task_history m t.
Proof.
  intros Ht. destruct op as [t' r|t' sc a b r d|t' sc b r d i now]; cbn [machine_step]; unfold run_state.
  - done.
  - pose proof (validate_cases m t' sc a b r d) as Hv.
    destruct (_ && _); [by rewrite Hv|]. destruct Hv as (e & _ & ->). cbn.
    unfold task_history. cbn. by rewrite log_security_event_transitions.
  - case_execute m' o Hx.
    destruct (accepts m t' sc b r) eqn:Hacc.
    + destruct Hx as (_ & Hst & Htr & _). rewrite Hst, (history_snoc _ _ _ _ Htr). cbn.
      destruct (decide (t' = t)) as [->|Hne].
      * apply andb_prop in Hacc as [Hal _]. unfold current_of in Hal. rewrite Ht in Hal.
        by destruct (scenario_facts sc) as (_ & _ & _ & Hterm); apply Hterm in Hal.
      * by rewrite lookup_insert_ne, str_eqb_ne.
    + destruct Hx as (_ & Hst & Htr & _). unfold task_history. rewrite Hst, Htr.
      split; [|done]. destruct (decide (t' = t)) as [->|Hne]; [|by rewrite lookup_insert_ne].
      rewrite lookup_insert_eq. unfold current_of. by rewrite Ht.
Qed.

(** [SETTLED] is final: once a task is settled, no sequence of operations,
    under any scenario and with any receipts, moves it or extends its history. *)
Theorem settled_is_final (ops : list machine_op) m t :
  task_states m !! t = Some SETTLED ->
  task_states (machine_run ops m) !! t = Some SETTLED
  /\ task_history (machine_run ops m) t = task_history m t.
Proof.
  revert m. induction ops as [|op ops IH]; intros m Ht; [done|].
  destruct (settled_step op m t Ht) as [Ht' Hh].
  destruct (IH _ Ht') as [H1 H2]. split; [done|]. etrans; [exact H2|exact Hh].
Qed.

(** The multi-step loop [STEP_COMPLETED -> STEP_IN_PROGRESS] in a history. *)
Definition step_loops (h : list StateTransitionRecord) : nat :=
  length (List.filter (fun x => is_step_loop (tr_from_state x) (tr_to_state x)) h).

Lemma chain_length h : forall a b,
  chain a h b -> length h + rank a <= rank b + 2 * step_loops h.
Proof.
  induction h as [|x h IH]; intros a b; cbn; [intros ->; unfold step_loops; cbn; lia|].
  intros (Hf & [sc Hal] & Hc). apply IH in Hc. unfold step_loops in *. cbn. rewrite Hf.
  destruct (legal_rank a (tr_to_state x)) as [Hr|Hl]; [eauto with karma| |].
  - destruct (is_step_loop a (tr_to_state x)); cbn; lia.
  - rewrite Hl. cbn. unfold is_step_loop in Hl.
    apply andb_prop in Hl as [Ha%bool_decide_eq_true Hb%bool_decide_eq_true].
    rewrite Ha, Hb in *. cbn in *. lia.
Qed.

(** Runs are bounded: a task makes at most 14 transitions plus two per
    iteration of the step loop, so outside that loop every task ends. *)
Theorem history_bounded (log : L) (ops : list machine_op) t :
  transitions log = [] ->
  let h := task_history (machine_run ops (create_state_machine log)) t in
  length h <= 14 + 2 * step_loops h.
Proof.
  intros Hlog h. pose proof (chain_length _ _ _ (inv_chain _ (run_inv log ops Hlog) t)) as Hlen. fold h in Hlen. cbn in Hlen.
  pose proof (rank_bound (current_of (machine_run ops (create_state_machine log)) t)). lia.
Qed.

(** The anchor requests of a log, and those its transitions call for. *)
Definition anchor_requests (l : L) : list security_event :=
  List.filter (fun e => str_eqb (ev_type e) "ANCHOR_REQUIRED") (security_events l).
Definition anchors_due (l : L) : list security_event :=
  flat_map (fun x => anchor_events (tr_task_id x) (tr_to_state x)) (transitions l).

Lemma rejection_not_anchor e t :
  rejection_event e t -> str_eqb (ev_type e) "ANCHOR_REQUIRED" = false.
Proof. intros (_ & _ & [-> | ->]); done. Qed.

Lemma anchors_step op m :
  anchor_requests (audit_log m) = anchors_due (audit_log m) ->
  anchor_requests (audit_log (machine_step op m)) = anchors_due (audit_log (machine_step op m)).
Proof.
  unfold anchor_requests, anchors_due. intros IH.
  destruct op as [t r|t sc a b r d|t sc b r d i now]; cbn [machine_step]; unfold run_state.
  - done.
  - pose proof (validate_cases m t sc a b r d) as Hv.
    destruct (_ && _); [by rewrite Hv|]. destruct Hv as (e & He & ->). cbn.
    rewrite log_security_event_transitions, log_security_event_appends, List.filter_app.
    cbn. by rewrite (rejection_not_anchor _ _ He), app_nil_r.
  - case_execute m' o Hx.
    destruct (accepts m t sc b r).
    + destruct Hx as (_ & _ & -> & ->). rewrite List.filter_app, flat_map_app, IH. cbn.
      rewrite app_nil_r. unfold anchor_events. by destruct (mem b REQUIRE_IMMEDIATE_ANCHOR).
    + destruct Hx as (_ & _ & -> & e & He & ->). rewrite List.filter_app. cbn.
      by rewrite (rejection_not_anchor _ _ He), app_nil_r.
Qed.

(** Anchoring is complete and exact: the anchor requests in the log are, in
    order, one for each recorded transition into a state of
    [REQUIRE_IMMEDIATE_ANCHOR] and nothing else. *)
Theorem anchors_exact (log : L) (ops : list machine_op) :
  transitions log = [] -> security_events log = [] ->
  let m := machine_run ops (create_state_machine log) in
  anchor_requests (audit_log m) = anchors_due (audit_log m).
Proof.
  intros Ht He m. subst m.
  assert (H0 : anchor_requests (audit_log (create_state_machine log))
               = anchors_due (audit_log (create_state_machine log))).
  { unfold anchor_requests, anchors_due. cbn. by rewrite Ht, He. }
  revert H0. generalize (create_state_machine log).
  induction ops as [|op ops IH]; intros m H0; [done|]. apply IH. by apply anchors_step.
Qed.

(** ** Completing a scenario *)

Definition primary_path sc : list BillingState :=
  match scenario_paths sc with p :: _ => p | [] => [] end.

Fixpoint edges_allowed sc a (p : list BillingState) : bool :=
  match p with
  | [] => true
  | b :: p => is_transition_allowed sc a b && edges_allowed sc b p
  end.

Lemma last_cons_default {A} (p : list A) : forall (x y : A), List.last (y :: p) x = List.last p y.
Proof. induction p as [|c p IH]; intros x y; [done|]. destruct p; [done|]. cbn in *. apply (IH x). Qed.

Lemma run_path sc t r d i now p : forall m a,
  current_of m t = a -> is_receipt_valid m t r = true -> edges_allowed sc a p = true ->
  let m' := machine_run (map (fun b => ExecuteTransition t sc b r d i now) p) m in
  current_of m' t = List.last p a
  /\ length (task_history m' t) = length (task_history m t) + length p.
Proof.
  induction p as [|b p IH]; intros m a Hcur Hval Hed; [cbn; split; [done|lia]|].
  cbn in Hed. apply andb_prop in Hed as [Hab Hed].
  pose proof (execute_cases m t sc b r d i now) as Hx.
  destruct (execute_transition t sc b r d i now m) as [m' o] eqn:Eq. destruct Hx as [Hrec Hx].
  unfold accepts in Hx. rewrite Hcur, Hab, Hval in Hx. cbn in Hx.
  destruct Hx as (_ & Hst & Htr & _).
  assert (Hcur' : current_of m' t = b).
  { rewrite (current_insert _ _ _ _ Hst). by rewrite decide_True. }
  assert (Hval' : is_receipt_valid m' t r = true).
  { unfold is_receipt_valid in *. by rewrite Hrec. }
  specialize (IH m' b Hcur' Hval' Hed) as [H1 H2].
  assert (Hstep : machine_run (map (fun b => ExecuteTransition t sc b r d i now) (b :: p)) m
                  = machine_run (map (fun b => ExecuteTransition t sc b r d i now) p) m').
  { cbn. unfold run_state. by rewrite Eq. }
  cbv zeta. rewrite Hstep. rewrite H1, H2, (history_snoc _ _ _ t Htr). cbn [tr_task_id].
  rewrite str_eqb_refl, length_app. rewrite last_cons_default. cbn. split; [done|lia].
Qed.

Lemma primary_path_facts sc :
  edges_allowed sc INITIATED (tl (primary_path sc)) = true
  /\ List.last (tl (primary_path sc)) INITIATED = SETTLED.
Proof.
  assert (H : edges_allowed sc INITIATED (tl (primary_path sc))
              && mem (List.last (tl (primary_path sc)) INITIATED) [SETTLED] = true).
  { apply (forall_ScenarioType (fun sc => edges_allowed sc INITIATED (tl (primary_path sc))
              && mem (List.last (tl (primary_path sc)) INITIATED) [SETTLED])).
    by vm_compute. }
  apply andb_prop in H as [H1 H2%mem_true%list_elem_of_singleton]. done.
Qed.

(** Every scenario can be completed: driving a new task along the primary
    path of its scenario with a registered receipt settles it, recording one
    transition per step. *)
Theorem primary_path_settles m t sc r d i now :
  task_states m !! t = None -> is_receipt_valid m t r = true ->
  let m' := machine_run
    (map (fun b => ExecuteTransition t sc b r d i now) (tl (primary_path sc))) m in
  current_of m' t = SETTLED
  /\ length (task_history m' t) = length (task_history m t) + length (tl (primary_path sc)).
Proof.
  intros Hnew Hval m'. destruct (primary_path_facts sc) as [Hed Hlast].
  assert (Hcur : current_of m t = INITIATED) by (unfold current_of; by rewrite Hnew).
  destruct (run_path sc t r d i now (tl (primary_path sc)) m INITIATED Hcur Hval Hed) as [H1 H2].
  subst m'. rewrite H1, Hlast. done.
Qed.

(** ** Snapshots *)

Definition progress_ok sc s : bool :=
  let '(step, total, pct) := path_progress (primary_path sc) s in
  (0 <=? step)%Z && (step <=? total)%Z && fleb fzero pct && fleb pct (float_of_int 100)
  && Bool.eqb (feqb pct (float_of_int 100)) (mem s [SETTLED]).

Lemma progress_checked sc s : progress_ok sc s = true.
Proof. apply (forall_pairs (fun sc s _ => progress_ok sc s)) with (b := s). by vm_compute. Qed.

(** A snapshot reports a progress between 0 and 100 percent, 100 exactly
    when the task is settled, with the step number within the scenario's primary
    path; there is no snapshot for an unknown task. *)
Theorem snapshot_progress m t :
  match get_snapshot m t with
  | None => task_states m !! t = None
  | Some s =>
      task_states m !! t = Some (snap_billing_state s)
      /\ fleb fzero (snap_progress_percent s) = true
      /\ fleb (snap_progress_percent s) (float_of_int 100) = true
      /\ (feqb (snap_progress_percent s) (float_of_int 100) = true
          <-> snap_billing_state s = SETTLED)
      /\ (0 <= snap_current_step s <= snap_total_steps_estimated s)%Z
  end.
Proof.
  unfold get_snapshot. destruct (task_states m !! t) as [s|] eqn:Hs; [|done].
  set (sc := default S1_DELEGATION _). clearbody sc.
  replace (match default [[]] (dict_get sc ALLOWED_STATE_PATHS) with p :: _ => p | [] => [] end)
    with (primary_path sc) by (destruct sc; vm_compute; reflexivity).
  pose proof (progress_checked sc s) as H. unfold progress_ok in H.
  destruct (path_progress (primary_path sc) s) as [[step total] pct].
  cbn [snap_billing_state snap_progress_percent snap_current_step snap_total_steps_estimated].
  apply andb_prop in H as [H Heq]. apply andb_prop in H as [H Hle].
  apply andb_prop in H as [H Hge]. apply andb_prop in H as [H0 H1].
  apply eqb_prop in Heq. rewrite Heq, mem_true, list_elem_of_singleton. repeat split; try done; lia.
Qed.
End MachineGuarantees.

(** ** The in-memory machine at work *)

Section Examples.
#[local] Definition drive (sc : ScenarioType) (p : list BillingState) : list machine_op :=
  map (fun b => ExecuteTransition "t1" sc b "r1" "did:a" "rec" 0) p.

#[local] Definition new_machine : ImmutableBillingStateMachine InMemoryAuditLog :=
  create_state_machine empty_log.

(** The scenario a task is registered with is not enforced: the machine
    checks each step against the scenario the caller names.  A task registered
    as [S1_DELEGATION], under which a refund is unreachable, reaches
    [REFUND_PENDING] by naming [S8_DISPUTE] for the one step. *)
Theorem scenario_not_pinned :
  (exists ops, get_scenario (machine_run ops new_machine) "t1" = Some S1_DELEGATION
               /\ get_current_state (machine_run ops new_machine) "t1" = Some REFUND_PENDING)
  /\ ~ rtc (allowed S1_DELEGATION) INITIATED REFUND_PENDING.
Proof.
  split.
  - exists (RegisterReceipt "t1" "r1"
              :: drive S1_DELEGATION
                   [INTENT_RECEIVED; INTENT_VALIDATED; DELEGATION_ACCEPTED; TASK_STARTED;
                    STEP_IN_PROGRESS; TASK_COMPLETED; INVOICE_GENERATED; PAYMENT_AUTHORIZED;
                    PAYMENT_SETTLING]
              ++ drive S8_DISPUTE [REFUND_PENDING])%list.
    by vm_compute.
  - intros H%reachable_reached%mem_true. by vm_compute in H.
Qed.

Lemma execute_transition_spec_witness :
  let m := machine_run [RegisterReceipt "t1" "r1"] new_machine in
  let (m', o) := execute_transition "t1" S1_DELEGATION INTENT_RECEIVED "r1" "did:a" "rec" 0%Z m in
  if is_transition_allowed S1_DELEGATION (current_of m "t1") INTENT_RECEIVED
     && is_receipt_valid m "t1" "r1"
  then o = Ret (new_record "t1" (current_of m "t1") INTENT_RECEIVED "r1" "did:a" "rec" 0%Z)
       /\ task_states m' = <["t1" := INTENT_RECEIVED]> (task_states m)
       /\ transitions (audit_log m')
          = (transitions (audit_log m)
             ++ [new_record "t1" (current_of m "t1") INTENT_RECEIVED "r1" "did:a" "rec" 0%Z])%list
       /\ security_events (audit_log m')
          = (security_events (audit_log m) ++ anchor_events "t1" INTENT_RECEIVED)%list
  else o = Raise (IllegalStateTransitionError "t1" (current_of m "t1") INTENT_RECEIVED
                    (Some S1_DELEGATION))
       /\ task_states m' = <["t1" := current_of m "t1"]> (task_states m)
       /\ transitions (audit_log m') = transitions (audit_log m)
       /\ exists e, rejection_event e "t1"
          /\ security_events (audit_log m') = (security_events (audit_log m) ++ [e])%list.
Proof.
  apply (execute_transition_spec (machine_run [RegisterReceipt "t1" "r1"] new_machine)
           "t1" S1_DELEGATION INTENT_RECEIVED "r1" "did:a" "rec" 0%Z).
Defined.

Lemma log_append_only_witness :
  let m := machine_run [RegisterReceipt "t1" "r1"] new_machine in
  let m' := machine_run (drive S1_DELEGATION [INTENT_RECEIVED]) m in
  transitions (audit_log m) `prefix_of` transitions (audit_log m')
  /\ security_events (audit_log m) `prefix_of` security_events (audit_log m').
Proof.
  apply (log_append_only (drive S1_DELEGATION [INTENT_RECEIVED])
           (machine_run [RegisterReceipt "t1" "r1"] new_machine)).
Defined.

Lemma history_is_chain_witness :
  let m := machine_run (RegisterReceipt "t1" "r1" :: drive S1_DELEGATION [INTENT_RECEIVED])
             new_machine in
  (forall t, chain INITIATED (task_history m t) (current_of m t))
  /\ (forall x, x ∈ transitions (audit_log m) ->
        is_receipt_valid m (tr_task_id x) (tr_triggered_by_receipt_id x) = true).
Proof.
  apply (history_is_chain empty_log
           (RegisterReceipt "t1" "r1" :: drive S1_DELEGATION [INTENT_RECEIVED])).
  reflexivity.
Defined.

Lemma settled_is_final_witness :
  let m : ImmutableBillingStateMachine InMemoryAuditLog :=
    set_state "t1" SETTLED new_machine in
  task_states (machine_run (drive S8_DISPUTE [REFUND_PENDING]) m) !! "t1" = Some SETTLED
  /\ task_history (machine_run (drive S8_DISPUTE [REFUND_PENDING]) m) "t1" = task_history m "t1".
Proof.
  apply (settled_is_final (drive S8_DISPUTE [REFUND_PENDING])
           (set_state "t1" SETTLED new_machine) "t1").
  reflexivity.
Defined.

Lemma history_bounded_witness :
  let h := task_history (machine_run (RegisterReceipt "t1" "r1"
             :: drive S1_DELEGATION [INTENT_RECEIVED]) new_machine) "t1" in
  length h <= 14 + 2 * step_loops h.
Proof.
  apply (history_bounded empty_log
           (RegisterReceipt "t1" "r1" :: drive S1_DELEGATION [INTENT_RECEIVED]) "t1").
  reflexivity.
Defined.

Lemma anchors_exact_witness :
  let m := machine_run (RegisterReceipt "t1" "r1"
             :: drive S1_DELEGATION [INTENT_RECEIVED; INTENT_VALIDATED]) new_machine in
  anchor_requests (audit_log m) = anchors_due (audit_log m).
Proof.
  apply (anchors_exact empty_log
           (RegisterReceipt "t1" "r1" :: drive S1_DELEGATION [INTENT_RECEIVED; INTENT_VALIDATED]));
    reflexivity.
Defined.

Lemma primary_path_settles_witness :
  let m := machine_run [RegisterReceipt "t1" "r1"] new_machine in
  let m' := machine_run
    (map (fun b => ExecuteTransition "t1" S3_PIPELINE b "r1" "did:a" "rec" 0%Z)
       (tl (primary_path S3_PIPELINE))) m in
  current_of m' "t1" = SETTLED
  /\ length (task_history m' "t1")
     = length (task_history m "t1") + length (tl (primary_path S3_PIPELINE)).
Proof.
  apply (primary_path_settles (machine_run [RegisterReceipt "t1" "r1"] new_machine)
           "t1" S3_PIPELINE "r1" "did:a" "rec" 0%Z); reflexivity.
Defined.
End Examples.
