(* ===== verification/BillingConcurrency.v ===== *)
(** * Concurrent calls of the billing machine ([packages/karma_billing/state_machine.py])

    The methods of the machine are coroutines: other calls run whenever one is
    suspended, which an [await] of the audit log or of a held per-task lock allows.
    This file models each call as a program counter over those suspension points,
    the lock as the bit [asyncio.Lock] keeps, and an execution as the order in
    which the event loop resumes the calls.  It shows that every execution
    matches, task by task, a sequential run of [BillingMachine], and that no
    execution deadlocks. *)

From S2P Require Import Prelude PyBytes PyJson PyDatetime PyFloat BillingSchema BillingTransitions BillingMachine.
#[local] Open Scope string_scope.

(** ** Calls and their suspension points *)

(** What a public operation returns. *)
Inductive call_result : Type :=
| RRecord (r : StateTransitionRecord)
| RBool (b : bool)
| RUnit.

Abbreviation call_outcome := (outcome billing_error call_result).

(** Where a call is suspended.  [Rejecting], [Logging] and [Anchoring] are about to
    write to the log; [Logged] and [Closing] have written and not been resumed. *)
Inductive pc : Type :=
| Ready
| Waiting
| Rejecting (e : security_event) (o : call_outcome)
| Logging (record : StateTransitionRecord)
| Logged (record : StateTransitionRecord)
| Anchoring (record : StateTransitionRecord)
| Closing (o : call_outcome)
| Done (o : call_outcome).

Record thread := Thread { call : machine_op; at_pc : pc }.

(** What a step does to the lock of the task. *)
Inductive lock_action : Type := Keep | Acquire | Release.

Record config (L : Type) := Config {
  mc : ImmutableBillingStateMachine L;
  held : gset string;
  threads : list thread
}.
Arguments Config {L} _ _ _.
Arguments mc {L} _.
Arguments held {L} _.
Arguments threads {L} _.

Definition task_of (op : machine_op) : string :=
  match op with
  | RegisterReceipt t _ => t
  | ValidateTransition t _ _ _ _ _ => t
  | ExecuteTransition t _ _ _ _ _ _ => t
  end.

Section Calls.
Context {L : Type} `{AuditLog L}.
Abbreviation machine := (ImmutableBillingStateMachine L).

(** The checks of [validate_transition] up to its [await]: the event of the
    first check that fails. *)
Definition rejection (m : machine) (task_id : string) (scenario : ScenarioType)
    (from_state to_state : BillingState) (receipt_id did : string) : option security_event :=
  if match dict_get from_state BILLING_STATE_TRANSITIONS with
     | None => true
     | Some legal_targets => negb (mem to_state legal_targets)
     end
  then Some (SecurityEvent "ILLEGAL_TRANSITION_ATTEMPT" "CRITICAL" task_id
         [("from_state", BillingState_value from_state);
          ("to_state", BillingState_value to_state);
          ("triggered_by_receipt_id", receipt_id); ("triggered_by_did", did);
          ("reason", "Transition not in global transition map")])
  else if negb (is_transition_allowed scenario from_state to_state) then
    Some (SecurityEvent "ILLEGAL_TRANSITION_ATTEMPT" "CRITICAL" task_id
         [("from_state", BillingState_value from_state);
          ("to_state", BillingState_value to_state);
          ("scenario", ScenarioType_value scenario);
          ("triggered_by_receipt_id", receipt_id); ("triggered_by_did", did);
          ("reason", "Transition not on any allowed path for scenario")])
  else if negb (is_receipt_valid m task_id receipt_id) then
    Some (SecurityEvent "INVALID_RECEIPT" "CRITICAL" task_id
         [("receipt_id", receipt_id);
          ("reason", "Receipt not found or not associated with this task")])
  else None.

(** The body of [async with lock] up to its first [await]. *)
Definition enter (task_id : string) (scenario : ScenarioType) (to_state : BillingState)
    (receipt_id did record_id : string) (now : datetime) (m : machine) : machine * pc :=
  let from_state := default INITIATED (task_states m !! task_id) in
  let m := run_state (read_current task_id scenario) m in
  match rejection m task_id scenario from_state to_state receipt_id did with
  | Some e =>
      (m, Rejecting e
            (Raise (IllegalStateTransitionError task_id from_state to_state (Some scenario))))
  | None =>
      (m, Logging {| tr_record_id := record_id; tr_task_id := task_id;
                     tr_from_state := from_state; tr_to_state := to_state;
                     tr_triggered_by_receipt_id := receipt_id;
                     tr_triggered_by_did := did; tr_timestamp := now |})
  end.

(** One resumption of a call, up to its next suspension; [None] when it cannot
    run.  [free] says whether the lock of its task is free. *)
Definition advance (free : bool) (op : machine_op) (p : pc) (m : machine)
    : option (machine * pc * lock_action) :=
  match op, p with
  | RegisterReceipt t r, Ready => Some (run_state (register_receipt t r) m, Done (Ret RUnit), Keep)
  | ValidateTransition t sc a b r d, Ready =>
      match rejection m t sc a b r d with
      | Some e => Some (m, Rejecting e (Ret (RBool false)), Keep)
      | None => Some (m, Done (Ret (RBool true)), Keep)
      end
  | ValidateTransition _ _ _ _ _ _, Rejecting e o =>
      Some (set_log (log_security_event e) m, Closing o, Keep)
  | ValidateTransition _ _ _ _ _ _, Closing o => Some (m, Done o, Keep)
  | ExecuteTransition t sc b r d i now, Ready =>
      let m := run_state (get_lock t) m in
      if free then Some (enter t sc b r d i now m, Acquire) else Some (m, Waiting, Keep)
  | ExecuteTransition t sc b r d i now, Waiting =>
      if free then Some (enter t sc b r d i now m, Acquire) else None
  | ExecuteTransition _ _ _ _ _ _ _, Rejecting e o =>
      Some (set_log (log_security_event e) m, Closing o, Keep)
  | ExecuteTransition _ _ _ _ _ _ _, Logging record =>
      Some (set_log (log_transition record) m, Logged record, Keep)
  | ExecuteTransition t _ b _ _ _ _, Logged record =>
      let m := set_state t b m in
      if mem b REQUIRE_IMMEDIATE_ANCHOR
      then Some (m, Anchoring record, Keep)
      else Some (m, Done (Ret (RRecord record)), Release)
  | ExecuteTransition t _ b _ _ _ _, Anchoring record =>
      Some (set_log (log_security_event (anchor_event t b)) m,
            Closing (Ret (RRecord record)), Keep)
  | ExecuteTransition _ _ _ _ _ _ _, Closing o => Some (m, Done o, Release)
  | _, _ => None
  end.

Definition lock_after (act : lock_action) (t : string) (held : gset string) : gset string :=
  match act with
  | Keep => held
  | Acquire => {[t]} ∪ held
  | Release => held ∖ {[t]}
  end.

(** The event loop resumes call [i]. *)
Definition resume (i : nat) (c : config L) : option (config L) :=
  match threads c !! i with
  | None => None
  | Some th =>
      let t := task_of (call th) in
      match advance (negb (bool_decide (t ∈ held c))) (call th) (at_pc th) (mc c) with
      | None => None
      | Some (m, p, act) =>
          Some (Config m (lock_after act t (held c)) (<[i := Thread (call th) p]> (threads c)))
      end
  end.

Definition start (m : machine) (calls : list machine_op) : config L :=
  Config m ∅ (map (fun op => Thread op Ready) calls).

(** A schedule names the call resumed at each turn; a turn of a call that cannot
    run changes nothing. *)
Definition run_turn (i : nat) (c : config L) : config L := default c (resume i c).
Definition run_schedule (schedule : list nat) (c : config L) : config L :=
  fold_left (fun c i => run_turn i c) schedule c.

Definition started (p : pc) : bool :=
  match p with Ready | Waiting => false | _ => true end.
Definition started_at (c : config L) (i : nat) : bool :=
  match threads c !! i with Some th => started (at_pc th) | None => false end.

(** The calls in the order in which they took their decision: at the turn that
    takes them past [Ready] and [Waiting]. *)
Definition decides (i : nat) (c : config L) : list (nat * machine_op) :=
  match threads c !! i with
  | Some th => if negb (started (at_pc th)) && started_at (run_turn i c) i then [(i, call th)] else []
  | None => []
  end.
Fixpoint decision_order (schedule : list nat) (c : config L) : list (nat * machine_op) :=
  match schedule with
  | [] => []
  | i :: schedule => decides i c ++ decision_order schedule (run_turn i c)
  end.

(** The outcome of an operation that runs alone. *)
Definition op_result (op : machine_op) (m : machine) : call_outcome :=
  match op with
  | RegisterReceipt _ _ => Ret RUnit
  | ValidateTransition t sc a b r d =>
      match run_outcome (validate_transition t sc a b r d) m with
      | Ret v => Ret (RBool v) | Raise e => Raise e
      end
  | ExecuteTransition t sc b r d i now =>
      match run_outcome (execute_transition t sc b r d i now) m with
      | Ret v => Ret (RRecord v) | Raise e => Raise e
      end
  end.
End Calls.

(** ** What a task shows *)

(** State, history and anchor requests of one task. *)
Record task_view := View {
  v_state : option BillingState;
  v_history : list StateTransitionRecord;
  v_anchors : list security_event
}.

Section Views.
Context {L : Type} `{HL : AuditLog L} `{!AuditLogLaws L}.
Abbreviation machine := (ImmutableBillingStateMachine L).
Implicit Types (m : machine) (t r d i : string) (sc : ScenarioType) (a b : BillingState).

Definition is_anchor t (e : security_event) : bool :=
  str_eqb (ev_type e) "ANCHOR_REQUIRED" && str_eqb (ev_task_id e) t.

Definition view m t : task_view :=
  View (task_states m !! t) (task_history m t)
    (List.filter (is_anchor t) (security_events (audit_log m))).

Definition add_anchors (l : list security_event) (v : task_view) : task_view :=
  View (v_state v) (v_history v) (v_anchors v ++ l).
Definition add_record (x : StateTransitionRecord) (v : task_view) : task_view :=
  View (v_state v) (v_history v ++ [x]) (v_anchors v).
Definition move_to b (v : task_view) : task_view :=
  View (Some b) (v_history v) (v_anchors v).

Lemma view_event m t e :
  view (set_log (log_security_event e) m) t
  = add_anchors (if is_anchor t e then [e] else []) (view m t).
Proof.
  unfold view, task_history, add_anchors, set_log. cbn.
  rewrite log_security_event_transitions, log_security_event_appends, List.filter_app. cbn.
  by destruct (is_anchor t e).
Qed.

Lemma view_transition m t x :
  view (set_log (log_transition x) m) t
  = if str_eqb (tr_task_id x) t then add_record x (view m t) else view m t.
Proof.
  unfold view, add_record. rewrite (history_snoc m _ x t) by (cbn; apply log_transition_appends).
  cbn. rewrite log_transition_events. by destruct (str_eqb (tr_task_id x) t).
Qed.

Lemma view_state m t t' b :
  view (set_state t b m) t' = if decide (t = t') then move_to b (view m t') else view m t'.
Proof.
  unfold view, set_state, move_to, task_history. cbn. rewrite lookup_insert. by case_decide.
Qed.

Lemma view_read m t sc t' :
  view (run_state (read_current t sc) m) t'
  = if decide (t = t') then move_to (current_of m t) (view m t') else view m t'.
Proof.
  unfold view, read_current, run_state, current_of, move_to, task_history, py_bind, py_get.
  destruct (task_states m !! t) as [s|] eqn:E; cbn.
  - case_decide as Ht; [|done]. subst. by rewrite E.
  - rewrite lookup_insert. by case_decide.
Qed.

Lemma view_register m t r t' : view (run_state (register_receipt t r) m) t' = view m t'.
Proof. done. Qed.
Lemma view_lock m t t' : view (run_state (get_lock t) m) t' = view m t'.
Proof. done. Qed.

Lemma add_anchors_nil v : add_anchors [] v = v.
Proof. destruct v. unfold add_anchors. cbn. by rewrite app_nil_r. Qed.

Lemma anchor_is_anchor t t' b : is_anchor t' (anchor_event t b) = str_eqb t t'.
Proof. done. Qed.

(** ** The sequential operations by the same parts *)

Lemma validate_rejection m t sc a b r d :
  validate_transition t sc a b r d m
  = match rejection m t sc a b r d with
    | Some e => (set_log (log_security_event e) m, Ret false)
    | None => (m, Ret true)
    end.
Proof.
  unfold validate_transition, rejection, py_bind, py_get.
  destruct (match dict_get a _ with Some _ => _ | None => _ end); [done|].
  destruct (negb (is_transition_allowed sc a b)); [done|].
  by destruct (negb (is_receipt_valid m t r)).
Qed.

Lemma rejection_no_anchor m t sc a b r d e t' :
  rejection m t sc a b r d = Some e -> is_anchor t' e = false.
Proof.
  unfold rejection.
  destruct (match dict_get a _ with Some _ => _ | None => _ end); [by intros [= <-]|].
  destruct (negb (is_transition_allowed sc a b)); [by intros [= <-]|].
  destruct (negb (is_receipt_valid m t r)); [by intros [= <-]|done].
Qed.

Lemma rejection_receipts m m' t sc a b r d :
  default ∅ (task_receipts m !! t) = default ∅ (task_receipts m' !! t) ->
  rejection m t sc a b r d = rejection m' t sc a b r d.
Proof. intros E. unfold rejection, is_receipt_valid. by rewrite E. Qed.

(** What remains of a call that is past its decision. *)
Definition finish (op : machine_op) (p : pc) m : machine :=
  match op, p with
  | (ExecuteTransition _ _ _ _ _ _ _ | ValidateTransition _ _ _ _ _ _), Rejecting e _ =>
      set_log (log_security_event e) m
  | ExecuteTransition t _ b _ _ _ _, Logging x =>
      let m2 := set_state t b (set_log (log_transition x) m) in
      if mem b REQUIRE_IMMEDIATE_ANCHOR
      then set_log (log_security_event (anchor_event t b)) m2 else m2
  | _, _ => m
  end.

(** The outcome a call past its decision will have. *)
Definition promised (p : pc) : option call_outcome :=
  match p with
  | Ready | Waiting => None
  | Rejecting _ o | Closing o | Done o => Some o
  | Logging x | Logged x | Anchoring x => Some (Ret (RRecord x))
  end.

Lemma execute_by_parts m t sc b r d i now :
  let (m1, p) := enter t sc b r d i now (run_state (get_lock t) m) in
  let op := ExecuteTransition t sc b r d i now in
  machine_step op m = finish op p m1 /\ promised p = Some (op_result op m).
Proof.
  unfold enter. set (m0 := run_state (get_lock t) m). cbv zeta.
  assert (He : execute_transition t sc b r d i now m
    = match rejection (prepared m t sc) t sc (current_of m t) b r d with
      | Some e => (set_log (log_security_event e) (prepared m t sc),
                   Raise (IllegalStateTransitionError t (current_of m t) b (Some sc)))
      | None =>
          let x := new_record t (current_of m t) b r d i now in
          (finish (ExecuteTransition t sc b r d i now) (Logging x) (prepared m t sc), Ret x)
      end).
  { unfold execute_transition, py_bind at 1.
    change (get_lock t m) with (run_state (get_lock t) m, @Ret billing_error unit tt).
    cbn beta iota. unfold py_bind at 1. rewrite read_current_eq.
    unfold py_bind at 1. rewrite validate_rejection.
    destruct (rejection _ t sc _ b r d) as [e|]; [done|].
    cbn. unfold py_when, py_bind, py_modify, py_ret. by destruct (mem b REQUIRE_IMMEDIATE_ANCHOR). }
  cbn [machine_step op_result]. unfold run_state, run_outcome. rewrite He.
  change (default INITIATED (task_states m0 !! t)) with (current_of m t).
  replace (read_current t sc m0) with (prepared m t sc, @Ret billing_error _ (current_of m t))
    by (symmetry; apply read_current_eq).
  cbn [fst]. by destruct (rejection (prepared m t sc) t sc (current_of m t) b r d).
Qed.

(** ** One turn *)

Definition is_execute (op : machine_op) : bool :=
  match op with ExecuteTransition _ _ _ _ _ _ _ => true | _ => false end.

(** The call is between the acquisition and the release of the lock. *)
Definition in_lock (op : machine_op) (p : pc) : bool :=
  is_execute op && match p with Ready | Waiting | Done _ => false | _ => true end.

(** The suspension points an operation has, and what it carries there. *)
Definition pc_ok (op : machine_op) (p : pc) : Prop :=
  match op, p with
  | _, (Ready | Done _) => True
  | (ValidateTransition _ _ _ _ _ _ | ExecuteTransition _ _ _ _ _ _ _), Closing _ => True
  | (ValidateTransition _ _ _ _ _ _ | ExecuteTransition _ _ _ _ _ _ _), Rejecting e _ =>
      forall t, is_anchor t e = false
  | ExecuteTransition t _ _ _ _ _ _, Logging x => tr_task_id x = t
  | ExecuteTransition _ _ _ _ _ _ _, (Waiting | Logged _ | Anchoring _) => True
  | _, _ => False
  end.

(** What the rest of a call adds to the view of its task. *)
Definition settle (op : machine_op) (p : pc) (v : task_view) : task_view :=
  match op, p with
  | ExecuteTransition t _ b _ _ _ _, Logging x =>
      add_anchors (anchor_events t b) (move_to b (add_record x v))
  | ExecuteTransition t _ b _ _ _ _, Logged _ => add_anchors (anchor_events t b) (move_to b v)
  | ExecuteTransition t _ b _ _ _ _, Anchoring _ => add_anchors [anchor_event t b] v
  | _, _ => v
  end.

Definition same_receipts (m m' : machine) : Prop :=
  task_receipts m = task_receipts m' /\ task_scenarios m = task_scenarios m'.

Lemma view_anchor m t b t' :
  view (set_log (log_security_event (anchor_event t b)) m) t'
  = if decide (t = t') then add_anchors [anchor_event t b] (view m t') else view m t'.
Proof.
  rewrite view_event, anchor_is_anchor. case_decide as Ht.
  - subst. by rewrite str_eqb_refl.
  - rewrite str_eqb_ne by done. apply add_anchors_nil.
Qed.

(** The suspension points a decision leads to. *)
Definition deciding (p : pc) : bool :=
  match p with Rejecting _ _ | Logging _ => true | _ => false end.

Lemma view_finish op p m t' :
  pc_ok op p -> deciding p = true ->
  view (finish op p m) t'
  = if decide (task_of op = t') then settle op p (view m t') else view m t'.
Proof.
  intros Hok Hs. destruct op as [t r|t sc a b r d|t sc b r d i n], p as [| |e o|x|x|x|o|o];
    try done; cbn in *; try (rewrite view_event, Hok, add_anchors_nil; by case_decide).
  unfold anchor_events. destruct (mem b REQUIRE_IMMEDIATE_ANCHOR);
    rewrite ?view_anchor, view_state, view_transition, Hok;
    (case_decide as Ht; [|by rewrite str_eqb_ne]); subst; rewrite str_eqb_refl; [done|].
  by rewrite add_anchors_nil.
Qed.

(** A turn of a call past its decision: nothing the other calls depend on
    changes, the view its task will settle to stays, and the lock is released
    with the last step. *)
Lemma advance_started free op p m m' p' act :
  pc_ok op p -> started p = true -> advance free op p m = Some (m', p', act) ->
  (pc_ok op p' /\ started p' = true /\ promised p' = promised p)
  /\ same_receipts m' m
  /\ (forall t', t' <> task_of op -> view m' t' = view m t')
  /\ settle op p' (view m' (task_of op)) = settle op p (view m (task_of op))
  /\ (is_execute op = false -> view m' (task_of op) = view m (task_of op))
  /\ act = (if in_lock op p && negb (in_lock op p') then Release else Keep).
Proof.
  intros Hok Hs. destruct op as [t r|t sc a b r d|t sc b r d i n], p as [| |e o|x|x|x|o|o];
    try done; cbn -[view]; try (destruct (mem b REQUIRE_IMMEDIATE_ANCHOR) eqn:Hb);
    intros [= <- <- <-]; cbn -[view] in *; unfold anchor_events; rewrite ?Hb;
    (split; [done|]); (split; [done|]);
    rewrite ?view_anchor, ?view_event, ?view_transition, ?view_state, ?Hok, ?add_anchors_nil,
      ?str_eqb_refl, ?decide_True by done;
    (split; [|split; [done|split; [done|done]]]);
    intros t' Ht'; rewrite ?view_anchor, ?view_event, ?view_transition, ?view_state, ?Hok,
      ?add_anchors_nil, ?str_eqb_ne, ?decide_False by done; done.
Qed.

Lemma read_same m s t sc :
  same_receipts m s -> task_states m !! t = task_states s !! t ->
  same_receipts (run_state (read_current t sc) m) (run_state (read_current t sc) s).
Proof.
  intros [Hr Hs] Ht. unfold same_receipts, read_current, run_state, py_bind, py_get. rewrite Ht.
  destruct (task_states s !! t); cbn; [done|]. by rewrite Hr, Hs.
Qed.

(** Machines that agree on the task take the same decision. *)
Lemma enter_same m s t sc b r d i now :
  same_receipts m s -> view m t = view s t ->
  let op := ExecuteTransition t sc b r d i now in
  let (m1, p) := enter t sc b r d i now m in
  let (s1, q) := enter t sc b r d i now s in
  p = q /\ pc_ok op p /\ deciding p = true /\ same_receipts m1 s1 /\ view m1 t = view s1 t
  /\ (forall t', t' <> t -> view m1 t' = view m t') /\ (forall t', t' <> t -> view s1 t' = view s t').
Proof.
  intros Hrec Hv. assert (Ht : task_states m !! t = task_states s !! t).
  { by apply (f_equal v_state) in Hv. }
  pose proof (read_same m s t sc Hrec Ht) as Hsame.
  assert (Hcur : current_of m t = current_of s t) by (unfold current_of; by rewrite Ht).
  unfold enter. cbv zeta. fold (current_of m t) (current_of s t). rewrite Hcur.
  rewrite (rejection_receipts _ (run_state (read_current t sc) s)) by (by rewrite (proj1 Hsame)).
  assert (Hview : view (run_state (read_current t sc) m) t
                  = view (run_state (read_current t sc) s) t)
    by (rewrite !view_read, !decide_True by done; by rewrite Hcur, Hv).
  assert (Hfm : forall t', t' <> t -> view (run_state (read_current t sc) m) t' = view m t')
    by (intros t' Hne; by rewrite view_read, decide_False by done).
  assert (Hfs : forall t', t' <> t -> view (run_state (read_current t sc) s) t' = view s t')
    by (intros t' Hne; by rewrite view_read, decide_False by done).
  destruct (rejection _ t sc (current_of s t) b r d) as [e|] eqn:E.
  - repeat split; try done; try apply Hsame. intros t'. by apply (rejection_no_anchor _ _ _ _ _ _ _ _ _ E).
  - repeat split; try done; apply Hsame.
Qed.

Lemma finish_receipts op p m : same_receipts (finish op p m) m.
Proof.
  destruct op as [t r|t sc a b r d|t sc b r d i n], p as [| |e o|x|x|x|o|o]; try done.
  cbn. by destruct (mem b REQUIRE_IMMEDIATE_ANCHOR).
Qed.

(** The turn in which [execute_transition] gets the lock decides it as if the
    whole call ran now. *)
Lemma enter_decides m s t sc b r d i now :
  same_receipts m s -> view m t = view s t ->
  let op := ExecuteTransition t sc b r d i now in
  let (m1, p) := enter t sc b r d i now m in
  let s' := machine_step op s in
  pc_ok op p /\ deciding p = true /\ promised p = Some (op_result op s) /\ same_receipts m1 s'
  /\ settle op p (view m1 t) = view s' t
  /\ (forall t', t' <> t -> view m1 t' = view m t') /\ (forall t', t' <> t -> view s' t' = view s t').
Proof.
  intros Hrec Hv op.
  pose proof (enter_same m (run_state (get_lock t) s) t sc b r d i now Hrec Hv) as He.
  pose proof (execute_by_parts s t sc b r d i now) as Hx.
  destruct (enter t sc b r d i now m) as [m1 p].
  destruct (enter t sc b r d i now (run_state (get_lock t) s)) as [s1 q].
  destruct He as (-> & Hok & Hin & Hsame & Hview & Hm & Hs). destruct Hx as [Hx Hp].
  fold op in Hx, Hp. cbv zeta. rewrite Hx. fold op in Hok, Hin.
  pose proof (fun t' => view_finish op q s1 t' Hok Hin) as Hfin. cbn [task_of op] in Hfin.
  split; [done|]. split; [done|]. split; [done|].
  destruct (finish_receipts op q s1) as [F1 F2]. destruct Hsame as [G1 G2].
  split; [split; congruence|]. split; [by rewrite Hfin, decide_True, Hview by done|].
  split; [done|]. intros t' Hne. rewrite Hfin, decide_False by done. by apply Hs.
Qed.

(** What a turn decides, for a call that has not decided before: [s] is the
    sequential machine. *)
Definition decided op p' act m m' s : Prop :=
  let s' := machine_step op s in
  promised p' = Some (op_result op s) /\ same_receipts m' s'
  /\ (forall t', t' <> task_of op -> view s' t' = view s t')
  /\ act = (if in_lock op p' then Acquire else Keep)
  /\ (if is_execute op
      then in_lock op p' = true /\ settle op p' (view m' (task_of op)) = view s' (task_of op)
      else view m' (task_of op) = view m (task_of op) /\ view s' (task_of op) = view s (task_of op)).

Lemma advance_fresh free op p m m' p' act s :
  pc_ok op p -> started p = false -> advance free op p m = Some (m', p', act) ->
  same_receipts m s ->
  (is_execute op = true -> free = true -> view m (task_of op) = view s (task_of op)) ->
  pc_ok op p' /\ (forall t', t' <> task_of op -> view m' t' = view m t')
  /\ if started p' then decided op p' act m m' s /\ (is_execute op = true -> free = true)
     else act = Keep /\ in_lock op p' = false /\ same_receipts m' s
          /\ view m' (task_of op) = view m (task_of op).
Proof.
  intros Hok Hs Ha Hrec Hv. destruct op as [t r|t sc a b r d|t sc b r d i n]; cbn [task_of is_execute] in *.
  - destruct p; try done. injection Ha as <- <- <-. unfold decided. repeat split; try done;
      cbn; destruct Hrec as [E1 E2]; by rewrite ?E1.
  - destruct p; try done. cbn [advance] in Ha. unfold decided. cbn [machine_step op_result is_execute].
    unfold run_outcome, run_state. rewrite validate_rejection.
    rewrite <- (rejection_receipts m s) by (by rewrite (proj1 Hrec)).
    destruct (rejection m t sc a b r d) as [e|] eqn:E; injection Ha as <- <- <-; cbn [fst snd].
    + pose proof (fun t' => rejection_no_anchor _ _ _ _ _ _ _ _ t' E) as Hno.
      cbn [pc_ok started promised in_lock is_execute andb task_of].
      repeat split; try done; try apply Hrec; intros;
        by rewrite view_event, Hno, add_anchors_nil.
    + cbn [pc_ok started promised in_lock is_execute andb task_of]. repeat split; try done; apply Hrec.
  - assert (Hm : free = true -> exists m0, same_receipts m0 s
               /\ (forall t', view m0 t' = view m t') /\ act = Acquire
               /\ (m', p') = enter t sc b r d i n m0).
    { intros ->. destruct p; try done; cbn [advance] in Ha; injection Ha as Ha <-.
      - exists (run_state (get_lock t) m). repeat split; try done; apply Hrec.
      - exists m. repeat split; try done; apply Hrec. }
    destruct free.
    + destruct (Hm eq_refl) as (m0 & Hr0 & Hv0 & -> & He).
      pose proof (enter_decides m0 s t sc b r d i n Hr0 (eq_trans (Hv0 t) (Hv eq_refl eq_refl))) as Hd.
      rewrite <- He in Hd. destruct Hd as (Hok' & Hdec & Hp & Hr' & Hset & Hfm & Hfs).
      assert (Hst : started p' = true) by (by destruct p').
      assert (Hin : in_lock (ExecuteTransition t sc b r d i n) p' = true) by (by destruct p').
      rewrite Hst. unfold decided. cbn [is_execute task_of]. rewrite Hin.
      split; [done|]. split; [intros t' Hne; by rewrite Hfm by done|]. done.
    + destruct p; try done. injection Ha as <- <- <-. cbn. repeat split; try done; apply Hrec.
Qed.
End Views.

(** ** Every execution matches a sequential run *)

Section Linearization.
Context {L : Type} `{HL : AuditLog L} `{!AuditLogLaws L}.
Abbreviation machine := (ImmutableBillingStateMachine L).
Implicit Types (m : machine) (t : string) (c : config L) (th : thread).

Definition holds th t : Prop := in_lock (call th) (at_pc th) = true /\ task_of (call th) = t.

(** The sequential machine after the decisions [order]. *)
Definition sequential m0 (order : list (nat * machine_op)) : machine := machine_run (map snd order) m0.

Lemma sequential_snoc m0 order i op :
  sequential m0 (order ++ [(i, op)])%list = machine_step op (sequential m0 order).
Proof. unfold sequential, machine_run. by rewrite map_app, fold_left_app. Qed.

(** Call [i] is past its decision just when it is in [order], and then has the
    outcome the sequential run gives it at its place. *)
Definition placed m0 (order : list (nat * machine_op)) (i : nat) th : Prop :=
  if started (at_pc th)
  then exists before after, order = (before ++ (i, call th) :: after)%list
       /\ promised (at_pc th) = Some (op_result (call th) (sequential m0 before))
  else i ∉ map fst order.

(** The locks held are those of the tasks with a call inside, one call each. *)
Definition locks_ok (held : gset string) (ths : list thread) : Prop :=
  (forall t, t ∈ held <-> exists i th, ths !! i = Some th /\ holds th t)
  /\ (forall i j th th' t, ths !! i = Some th -> ths !! j = Some th' ->
        holds th t -> holds th' t -> i = j).

Record linked m0 (calls : list machine_op) c (order : list (nat * machine_op)) : Prop := {
  lk_calls : map call (threads c) = calls;
  lk_receipts : same_receipts (mc c) (sequential m0 order);
  lk_free : forall t, t ∉ held c -> view (mc c) t = view (sequential m0 order) t;
  lk_pc : forall i th, threads c !! i = Some th -> pc_ok (call th) (at_pc th) /\ placed m0 order i th;
  lk_locks : locks_ok (held c) (threads c);
  lk_settle : forall i th, threads c !! i = Some th -> in_lock (call th) (at_pc th) = true ->
    settle (call th) (at_pc th) (view (mc c) (task_of (call th)))
    = view (sequential m0 order) (task_of (call th));
  lk_nodup : NoDup (map fst order)
}.

Lemma start_threads m0 (calls : list machine_op) i th :
  threads (start m0 calls) !! i = Some th -> exists op, th = Thread op Ready.
Proof.
  cbn. rewrite list_lookup_fmap. destruct (calls !! i) as [op|]; cbn; [|done].
  intros [= <-]. by exists op.
Qed.

Lemma start_linked m0 (calls : list machine_op) : linked m0 calls (start m0 calls) [].
Proof.
  split; try done.
  - cbn. rewrite List.map_map. apply List.map_id.
  - intros i th (op & ->)%start_threads. split; [by destruct op|]. cbn. by intros Hn%elem_of_nil.
  - split.
    + intros t. split; [by intros Hn%elem_of_empty|].
      intros (i & th & Hi & Hh & _). apply start_threads in Hi as (op & ->). cbn in Hh. by destruct op.
    + intros i j th th' t Hi _ [Hh _] _. apply start_threads in Hi as (op & ->). cbn in Hh. by destruct op.
  - intros i th Hi Hh. apply start_threads in Hi as (op & ->). cbn in Hh. by destruct op.
  - constructor.
Qed.

Lemma settle_out op p v : in_lock op p = false -> settle op p v = v.
Proof. by destruct op, p. Qed.

Lemma out_started free op p m x :
  in_lock op p = false -> started p = true -> advance free op p m = Some x -> is_execute op = false.
Proof. by destruct op, p. Qed.

Definition turn_order (i : nat) op (p p' : pc) : list (nat * machine_op) :=
  if negb (started p) && started p' then [(i, op)] else [].

Lemma turn_effect m0 order i free op p m m' p' act :
  let s := sequential m0 order in
  let order' := (order ++ turn_order i op p p')%list in
  let s' := sequential m0 order' in
  let t := task_of op in
  pc_ok op p -> placed m0 order i (Thread op p) -> same_receipts m s ->
  (in_lock op p = true -> settle op p (view m t) = view s t) ->
  (free = true -> view m t = view s t) ->
  advance free op p m = Some (m', p', act) ->
  (pc_ok op p' /\ placed m0 order' i (Thread op p') /\ same_receipts m' s')
  /\ (forall t', t' <> t -> view m' t' = view m t' /\ view s' t' = view s t')
  /\ (if in_lock op p' then settle op p' (view m' t) = view s' t
      else if in_lock op p then view m' t = view s' t
      else view m' t = view m t /\ view s' t = view s t)
  /\ (in_lock op p = false -> in_lock op p' = true -> free = true)
  /\ act = match in_lock op p, in_lock op p' with
           | false, true => Acquire | true, false => Release | _, _ => Keep
           end.
Proof.
  intros s order' s' t Hok Hpl Hrec Hset Hfree Ha. unfold order', turn_order in *.
  destruct (started p) eqn:Hs; cbn [negb andb] in *.
  - destruct (advance_started _ _ _ _ _ _ _ Hok Hs Ha)
      as ((Hok' & Hs' & Hp) & [Hr1 Hr2] & Hfr & Hse & Hex & Hact).
    assert (E : s' = s) by (unfold s', s; by rewrite app_nil_r). rewrite E, app_nil_r.
    destruct Hrec as [G1 G2].
    split; [split; [done|split; [|split; congruence]]|].
    { unfold placed in *. cbn [at_pc call] in *. rewrite Hs in Hpl. by rewrite Hs', Hp. }
    split; [intros t' Hne; by rewrite Hfr|]. fold t in Hse, Hex.
    destruct (in_lock op p) eqn:Hin, (in_lock op p') eqn:Hin'; cbn in Hact.
    + split; [by rewrite Hse, Hset|]. done.
    + rewrite settle_out in Hse by done. split; [by rewrite Hse, Hset|]. done.
    + pose proof (out_started _ _ _ _ _ Hin Hs Ha) as Hne. unfold in_lock in Hin'. by rewrite Hne in Hin'.
    + pose proof (out_started _ _ _ _ _ Hin Hs Ha) as Hne. by rewrite (Hex Hne).
  - assert (Hin : in_lock op p = false) by (unfold in_lock; destruct p; try done; apply andb_false_r).
    destruct (advance_fresh _ _ _ _ _ _ _ s Hok Hs Ha Hrec (fun _ => Hfree)) as (Hok' & Hfr & Hd).
    unfold placed in Hpl. cbn [at_pc call] in Hpl. rewrite Hs in Hpl. rewrite Hin.
    destruct (started p') eqn:Hs'.
    + destruct Hd as [(Hp & Hr & Hfs & Hact & Hv) Hfr']. unfold s', order'.
      rewrite sequential_snoc. fold s t.
      split; [split; [done|split; [|done]]|].
      { unfold placed. cbn [at_pc call]. rewrite Hs'. by exists order, []. }
      split; [intros t' Hne; by rewrite Hfr, Hfs|]. fold t in Hv.
      destruct (is_execute op) eqn:Hex.
      * destruct Hv as [Hin' Hv]. rewrite Hin' in *. by split; [|split; [intros; apply Hfr'|]].
      * assert (Hin' : in_lock op p' = false) by (unfold in_lock; by rewrite Hex).
        rewrite Hin' in *. by split.
    + destruct Hd as (-> & Hin' & Hr & Hv). unfold s', order'. rewrite app_nil_r. fold s t.
      rewrite Hin'. split; [split; [done|split; [|done]]|].
      { unfold placed. cbn [at_pc call]. by rewrite Hs'. }
      split; [intros t' Hne; by rewrite Hfr|]. by split.
Qed.

Lemma insert_thread (ths : list thread) i j th th' :
  <[i := th]> ths !! j = Some th' -> (j = i /\ th' = th) \/ (j <> i /\ ths !! j = Some th').
Proof. intros [(-> & -> & _)|[Hne Hj]]%list_lookup_insert_Some; [by left|right; auto]. Qed.

(** Some call other than [i] holds the lock of [t]. *)
Definition held_by_other (ths : list thread) i t : Prop :=
  exists j th, j <> i /\ ths !! j = Some th /\ holds th t.

Lemma holder_split ths i op p t :
  ths !! i = Some (Thread op p) ->
  (exists j th, ths !! j = Some th /\ holds th t)
  <-> held_by_other ths i t \/ (t = task_of op /\ in_lock op p = true).
Proof.
  intros Hi. split.
  - intros (j & th & Hj & Hh). destruct (decide (j = i)) as [->|Hne].
    + rewrite Hi in Hj. injection Hj as <-. destruct Hh as [Hh1 Hh2]. right. by rewrite <- Hh2.
    + left. by exists j, th.
  - intros [(j & th & _ & Hj & Hh)|[-> Hin]]; [by exists j, th|]. by exists i, (Thread op p).
Qed.

Lemma held_by_other_insert ths i th t :
  held_by_other (<[i := th]> ths) i t <-> held_by_other ths i t.
Proof.
  split; intros (j & th' & Hne & Hj & Hh); exists j, th'; (split; [done|]).
  - by rewrite list_lookup_insert_ne in Hj by done.
  - by rewrite list_lookup_insert_ne by done.
Qed.

Lemma locks_turn (held : gset string) ths i op p p' act :
  let t := task_of op in
  locks_ok held ths -> ths !! i = Some (Thread op p) ->
  (in_lock op p = false -> in_lock op p' = true -> t ∉ held) ->
  act = match in_lock op p, in_lock op p' with
        | false, true => Acquire | true, false => Release | _, _ => Keep
        end ->
  locks_ok (lock_after act t held) (<[i := Thread op p']> ths)
  /\ (in_lock op p || in_lock op p' = true -> ~ held_by_other ths i t).
Proof.
  intros t [Hh Hu] Hi Hfree ->.
  assert (Hself : <[i := Thread op p']> ths !! i = Some (Thread op p'))
    by (apply list_lookup_insert_eq; by eapply lookup_lt_Some).
  assert (Hold : forall t0, t0 ∈ held <-> held_by_other ths i t0 \/ (t0 = t /\ in_lock op p = true))
    by (intros t0; rewrite Hh; by apply holder_split).
  assert (Hno : in_lock op p || in_lock op p' = true -> ~ held_by_other ths i t).
  { intros E Ho. destruct (in_lock op p) eqn:Ep.
    - destruct Ho as (j & th & Hne & Hj & Hth). destruct Hne. by apply (Hu _ _ th (Thread op p) t).
    - apply (Hfree eq_refl E). apply Hold. by left. }
  split; [|exact Hno]. split.
  - intros t0. rewrite (holder_split _ i op p' t0 Hself), held_by_other_insert. fold t.
    specialize (Hold t0). clear -Hold Hno.
    destruct (decide (t0 = t)) as [->|Hne], (in_lock op p), (in_lock op p'); cbn in *;
      rewrite ?elem_of_union, ?elem_of_difference, ?elem_of_singleton, Hold; intuition congruence.
  - intros j k th th' t0 [[-> ->]|[Hj Hj']]%insert_thread [[-> ->]|[Hk Hk']]%insert_thread H1 H2;
      [done|..|by eapply Hu].
    + destruct H1 as [E1 <-]. destruct Hno; [cbn in E1; rewrite E1; apply orb_true_r|]. by exists k, th'.
    + destruct H2 as [E2 <-]. destruct Hno; [cbn in E2; rewrite E2; apply orb_true_r|]. by exists j, th.
Qed.

Lemma lock_after_ne act t t0 (held : gset string) :
  t0 <> t -> t0 ∈ lock_after act t held <-> t0 ∈ held.
Proof.
  intros Hne. destruct act; cbn;
    rewrite ?elem_of_union, ?elem_of_difference, ?elem_of_singleton; intuition congruence.
Qed.

Lemma placed_other m0 order i j op p p' th :
  j <> i -> placed m0 order j th -> placed m0 (order ++ turn_order i op p p') j th.
Proof.
  intros Hne. unfold placed. destruct (started (at_pc th)).
  - intros (before & after & -> & Hp). exists before, (after ++ turn_order i op p p')%list.
    by rewrite <- app_assoc.
  - intros Hn. rewrite map_app, elem_of_app. intros [?|Hin]; [done|].
    unfold turn_order in Hin. destruct (_ && _); cbn in Hin; [|by apply elem_of_nil in Hin].
    by apply list_elem_of_singleton in Hin.
Qed.

Lemma turn_nodup m0 order i op p p' :
  placed m0 order i (Thread op p) -> NoDup (map fst order) ->
  NoDup (map fst (order ++ turn_order i op p p')).
Proof.
  intros Hp Hnd. unfold turn_order, placed in *. cbn [at_pc] in Hp.
  destruct (started p); cbn; [by rewrite app_nil_r|]. destruct (started p'); [|by rewrite app_nil_r].
  rewrite map_app. apply NoDup_app. split; [done|]. split; [|apply NoDup_singleton].
  by intros x Hx ->%list_elem_of_singleton.
Qed.

Lemma turn_linked m0 calls c order i :
  linked m0 calls c order -> linked m0 calls (run_turn i c) (order ++ decides i c).
Proof.
  intros HL0. pose proof HL0 as [Hcalls Hrec Hfree Hpc Hlocks Hset Hnd].
  unfold decides, started_at, run_turn, resume.
  destruct (threads c !! i) as [[op p]|] eqn:Hi; cbn [default id]; [|by rewrite app_nil_r].
  cbn [call at_pc]. set (t := task_of op) in *.
  destruct (advance _ op p (mc c)) as [[[m' p'] act]|] eqn:Ha; cbn [default];
    [|rewrite ?Hi; cbn [at_pc]; rewrite andb_comm, andb_negb_r; by rewrite app_nil_r].
  unfold id. cbn [threads]. rewrite list_lookup_insert_eq by (by eapply lookup_lt_Some). cbn [at_pc].
  fold (turn_order i op p p'). set (order' := (order ++ turn_order i op p p')%list).
  destruct (Hpc i _ Hi) as [Hok Hpl].
  assert (Hnf : negb (bool_decide (t ∈ held c)) = true -> t ∉ held c)
    by (rewrite negb_true_iff; apply bool_decide_eq_false).
  destruct (turn_effect m0 order i _ op p (mc c) m' p' act Hok Hpl Hrec (Hset i _ Hi)
      (fun E => Hfree _ (Hnf E)) Ha) as ((Hok' & Hpl' & Hrec') & Hfr & Hv & Hacq & Hact).
  destruct (locks_turn (held c) (threads c) i op p p' act Hlocks Hi
      (fun E E' => Hnf (Hacq E E')) Hact) as [Hlocks' Hno].
  fold order' t in Hpl', Hrec', Hfr, Hv, Hlocks', Hno.
  split; cbn [mc held threads]; try done.
  - rewrite <- Hcalls. change (call <$> <[i := Thread op p']> (threads c) = call <$> threads c).
    rewrite list_fmap_insert. cbn [call].
    rewrite (list_insert_id _ i op); [done|]. by rewrite list_lookup_fmap, Hi.
  - intros t0 Hn. destruct (decide (t0 = t)) as [->|Hne].
    + destruct (in_lock op p') eqn:E'.
      { destruct Hn. apply Hlocks'. exists i, (Thread op p').
        by rewrite list_lookup_insert_eq by (by eapply lookup_lt_Some). }
      destruct (in_lock op p); [done|]. rewrite Hact in Hn. destruct Hv as [-> ->]. by apply Hfree.
    + destruct (Hfr t0 Hne) as [-> ->]. apply Hfree. by rewrite lock_after_ne in Hn.
  - intros j th Hj. apply insert_thread in Hj as [[-> ->]|[Hj Hj']]; [done|]. destruct (Hpc j th Hj') as [Hokj Hplj].
    split; [done|]. by apply placed_other.
  - intros j th Hj Hin. apply insert_thread in Hj as [[-> ->]|[Hj Hj']]; [cbn in Hin; by rewrite Hin in Hv|].
    destruct (decide (task_of (call th) = t)) as [E|Hne].
    + assert (Hoth : held_by_other (threads c) i t) by (by exists j, th).
      pose proof (Hset j th Hj' Hin) as Hs. rewrite E in *.
      destruct (in_lock op p); [by destruct Hno|]. destruct (in_lock op p'); [by destruct Hno|].
      by destruct Hv as [-> ->].
    + destruct (Hfr _ Hne) as [-> ->]. by apply (Hset j).
  - by apply (turn_nodup m0).
Qed.

Lemma run_linked m0 calls schedule : forall c order,
  linked m0 calls c order ->
  linked m0 calls (run_schedule schedule c) (order ++ decision_order schedule c).
Proof.
  induction schedule as [|i schedule IH]; intros c order Hl; cbn; [by rewrite app_nil_r|].
  rewrite app_assoc. apply IH. by apply turn_linked.
Qed.

Lemma schedule_linked m0 calls schedule :
  linked m0 calls (run_schedule schedule (start m0 calls)) (decision_order schedule (start m0 calls)).
Proof. apply (run_linked m0 calls schedule _ []), start_linked. Qed.

(** C2. Linearizability.  Whatever turns the event loop gives to concurrent calls,
    let [order] be the calls in the order of their decisions.  Each call occurs
    in it at most once; a call that has returned or raised did so with the
    outcome that the sequential run of [order] gives it at its place; and a task
    whose lock is free has the state, the history and the anchor requests of
    that sequential run, as have the registered receipts and scenarios at any
    time. *)
Theorem concurrent_calls_linearize m0 (calls : list machine_op) (schedule : list nat) :
  let c := run_schedule schedule (start m0 calls) in
  let order := decision_order schedule (start m0 calls) in
  NoDup (map fst order)
  /\ (forall i op o, threads c !! i = Some (Thread op (Done o)) ->
        calls !! i = Some op
        /\ exists before after, order = (before ++ (i, op) :: after)%list
             /\ o = op_result op (sequential m0 before))
  /\ (forall t, t ∉ held c -> view (mc c) t = view (sequential m0 order) t)
  /\ same_receipts (mc c) (sequential m0 order).
Proof.
  intros c order. destruct (schedule_linked m0 calls schedule) as [Hcalls Hrec Hfree Hpc _ _ Hnd].
  fold c in Hcalls, Hfree, Hpc, Hrec. split; [done|]. split; [|done]. intros i op o Hi. split.
  - rewrite <- Hcalls. change (map call (threads c)) with (call <$> threads c).
    by rewrite list_lookup_fmap, Hi.
  - destruct (Hpc i _ Hi) as [_ (before & after & E & Ho)]. exists before, after.
    split; [exact E|]. by injection Ho.
Qed.

Lemma chain_prefix h k : forall a b, chain a (h ++ k) b -> exists b', chain a h b'.
Proof.
  induction h as [|x h IH]; intros a b Hc; [by exists a|]. cbn in Hc. destruct Hc as (Hf & Hs & Hc).
  destruct (IH _ _ Hc) as [b' Hb]. by exists b'.
Qed.

(** What a call will still add only extends the history. *)
Lemma settle_history op p v : v_history v `prefix_of` v_history (settle op p v).
Proof.
  destruct op as [t r|t sc a b r d|t sc b r d i n], p; cbn; try done. by apply prefix_app_r.
Qed.

(** The chain of transitions under concurrency.  At every instant of every
    execution the history of every task is a chain of allowed transitions from
    [INITIATED], and while the lock of the task is free it ends in the task's
    current state. *)
Theorem concurrent_history_is_chain (log : L) (calls : list machine_op) (schedule : list nat) t :
  transitions log = [] ->
  let c := run_schedule schedule (start (create_state_machine log) calls) in
  (exists b, chain INITIATED (task_history (mc c) t) b)
  /\ (t ∉ held c -> chain INITIATED (task_history (mc c) t) (current_of (mc c) t)).
Proof.
  intros Hlog c. set (m0 := create_state_machine log).
  assert (Hl : linked m0 calls c (decision_order schedule (start m0 calls)))
    by apply schedule_linked.
  set (s := sequential m0 (decision_order schedule (start m0 calls))).
  assert (Hc : chain INITIATED (task_history s t) (current_of s t)) by (by apply run_inv).
  clearbody c.
  assert (Hview : t ∉ held c -> view (mc c) t = view s t) by apply (lk_free _ _ _ _ Hl).
  assert (Hfree : t ∉ held c -> chain INITIATED (task_history (mc c) t) (current_of (mc c) t)).
  { intros Hn. pose proof (Hview Hn) as E. unfold current_of.
    change (task_states (mc c) !! t) with (v_state (view (mc c) t)).
    change (task_history (mc c) t) with (v_history (view (mc c) t)). by rewrite E. }
  split; [|exact Hfree]. destruct (decide (t ∈ held c)) as [Hin|Hn]; [|eexists; by apply Hfree].
  apply (proj1 (lk_locks _ _ _ _ Hl)) in Hin as (i & th & Hi & Hin & Ht).
  pose proof (lk_settle _ _ _ _ Hl i th Hi Hin) as Hs. rewrite Ht in Hs. fold s in Hs.
  destruct (settle_history (call th) (at_pc th) (view (mc c) t)) as [k Hk].
  rewrite Hs in Hk. change (v_history (view s t)) with (task_history s t) in Hk.
  rewrite Hk in Hc. by apply chain_prefix in Hc.
Qed.

(** ** No deadlock, and an end *)

(** The turns a call may still need. *)
Definition weight (p : pc) : nat :=
  match p with
  | Ready => 6 | Waiting => 5 | Logging _ => 4 | Logged _ => 3
  | Anchoring _ | Rejecting _ _ => 2 | Closing _ => 1 | Done _ => 0
  end.
Definition work c : nat := sum_list_with (fun th => weight (at_pc th)) (threads c).
Definition is_done (p : pc) : bool := match p with Done _ => true | _ => false end.
Definition all_done c : bool := forallb (fun th => is_done (at_pc th)) (threads c).

Lemma advance_weight free op p m m' p' act :
  advance free op p m = Some (m', p', act) -> weight p' < weight p.
Proof.
  destruct op as [t r|t sc a b r d|t sc b r d i n], p; try done; cbn;
    try (destruct (rejection _ _ _ _ _ _ _)); try (destruct (mem _ _)); try (destruct free);
    unfold enter; cbv zeta; try (destruct (rejection _ _ _ _ _ _ _)); intros E; try done;
    injection E as <- <- <-; cbn; lia.
Qed.

Lemma advance_runs free op p m :
  pc_ok op p -> is_done p = false -> (p = Waiting -> free = true) -> is_Some (advance free op p m).
Proof.
  intros Hok Hd Hw. destruct op as [t r|t sc a b r d|t sc b r d i n], p; try done; cbn;
    try (rewrite Hw by done); repeat case_match; by eexists.
Qed.

Lemma work_insert (ths : list thread) i th th' :
  ths !! i = Some th -> weight (at_pc th') < weight (at_pc th) ->
  sum_list_with (fun th => weight (at_pc th)) (<[i := th']> ths)
  < sum_list_with (fun th => weight (at_pc th)) ths.
Proof.
  revert i. induction ths as [|x ths IH]; intros [|i] Hi Hlt; cbn in *; try done.
  - injection Hi as ->. lia.
  - apply Nat.add_lt_mono_l. exact (IH i Hi Hlt).
Qed.

Lemma resume_work i c c' : resume i c = Some c' -> work c' < work c.
Proof.
  unfold resume. destruct (threads c !! i) as [[op p]|] eqn:Hi; [|done]. cbn [call at_pc].
  destruct (advance _ op p (mc c)) as [[[m' p'] act]|] eqn:Ha; [|done]. intros [= <-].
  apply (work_insert _ _ _ _ Hi). by apply advance_weight in Ha.
Qed.

Lemma resume_runs m0 calls c order i th :
  linked m0 calls c order -> threads c !! i = Some th -> is_done (at_pc th) = false ->
  (at_pc th = Waiting -> task_of (call th) ∉ held c) -> is_Some (resume i c).
Proof.
  intros Hl Hi Hd Hw. destruct (lk_pc _ _ _ _ Hl i th Hi) as [Hok _]. unfold resume. rewrite Hi.
  destruct (advance_runs (negb (bool_decide (task_of (call th) ∈ held c))) (call th) (at_pc th) (mc c)
              Hok Hd) as [[[m' p'] act] ->]; [|by eexists].
  intros E. by rewrite bool_decide_false by auto.
Qed.

Lemma no_deadlock m0 calls c order :
  linked m0 calls c order -> all_done c = true \/ exists i c', resume i c = Some c'.
Proof.
  intros Hl. destruct (all_done c) eqn:E; [by left|right].
  assert (Hex : exists i th, threads c !! i = Some th /\ is_done (at_pc th) = false).
  { unfold all_done in E. clear Hl. induction (threads c) as [|x ths IH]; [done|]. cbn in E.
    destruct (is_done (at_pc x)) eqn:Ex; [|by exists 0, x].
    destruct (IH E) as (i & th & Hi). by exists (S i), th. }
  destruct Hex as (i & th & Hi & Hd).
  destruct (decide (task_of (call th) ∈ held c)) as [Hin|Hn].
  - apply (proj1 (lk_locks _ _ _ _ Hl)) in Hin as (j & th' & Hj & Hin & _).
    destruct (resume_runs _ _ _ _ j th' Hl Hj) as [c' Hc]; [..|by exists j, c'].
    + unfold in_lock in Hin. destruct (at_pc th'); try done. by rewrite andb_false_r in Hin.
    + intros Ew. unfold in_lock in Hin. by rewrite Ew, andb_false_r in Hin.
  - destruct (resume_runs _ _ _ _ i th Hl Hi Hd (fun _ => Hn)) as [c' Hc]. by exists i, c'.
Qed.

Lemma run_app s1 s2 c : run_schedule (s1 ++ s2) c = run_schedule s2 (run_schedule s1 c).
Proof. apply fold_left_app. Qed.

Lemma completes m0 calls n : forall c order,
  linked m0 calls c order -> work c <= n ->
  exists schedule, length schedule <= n /\ all_done (run_schedule schedule c) = true.
Proof.
  induction n as [|n IH]; intros c order Hl Hw;
    (destruct (no_deadlock _ _ _ _ Hl) as [Hd|(i & c' & Hr)]; [exists []; cbn; split; [lia|done]|]);
    pose proof (resume_work _ _ _ Hr) as Hlt; [lia|].
  assert (Ht : run_turn i c = c') by (unfold run_turn; by rewrite Hr).
  pose proof (turn_linked _ _ _ _ i Hl) as Hl'. rewrite Ht in Hl'.
  destruct (IH _ _ Hl') as (schedule & Hlen & Hd); [lia|].
  exists (i :: schedule). cbn. rewrite Ht. split; [lia|done].
Qed.

Lemma start_work m0 (calls : list machine_op) : work (start m0 calls) = 6 * length calls.
Proof. unfold work, start. cbn. induction calls as [|op calls IH]; cbn in *; lia. Qed.

Lemma run_work schedule : forall c, work (run_schedule schedule c) <= work c.
Proof.
  induction schedule as [|i schedule IH]; intros c; [done|]. cbn. etransitivity; [apply IH|].
  unfold run_turn. destruct (resume i c) as [c'|] eqn:E; cbn; [|done].
  apply resume_work in E. unfold id. lia.
Qed.

(** C37. Concurrent calls never deadlock and always end.  After any schedule
    either every call has returned or raised, or some call can be resumed;
    whichever call is resumed, the work left strictly decreases, from six turns
    for each call; and the calls are complete after at most that many turns of a
    schedule that resumes those that can run. *)
Theorem concurrent_calls_complete m0 (calls : list machine_op) (schedule : list nat) :
  let c := run_schedule schedule (start m0 calls) in
  (all_done c = true \/ exists i c', resume i c = Some c')
  /\ (forall i c', resume i c = Some c' -> work c' < work c)
  /\ work c <= 6 * length calls
  /\ exists rest, length rest <= 6 * length calls
       /\ all_done (run_schedule (schedule ++ rest) (start m0 calls)) = true.
Proof.
  intros c. pose proof (schedule_linked m0 calls schedule) as Hl. fold c in Hl.
  assert (Hw : work c <= 6 * length calls) by (rewrite <- (start_work m0); apply run_work).
  split; [by eapply no_deadlock|]. split; [intros i c'; apply resume_work|]. split; [done|].
  destruct (completes m0 calls _ c _ Hl Hw) as (rest & Hlen & Hd). exists rest.
  split; [done|]. by rewrite run_app.
Qed.
End Linearization.

(** ** Two calls on one task *)

Section Examples.
#[local] Definition two_calls : list machine_op :=
  [RegisterReceipt "t1" "r1";
   ExecuteTransition "t1" S1_DELEGATION INTENT_RECEIVED "r1" "did:a" "rec1" 0;
   ExecuteTransition "t1" S1_DELEGATION INTENT_RECEIVED "r1" "did:b" "rec2" 1].
#[local] Definition idle : ImmutableBillingStateMachine InMemoryAuditLog :=
  create_state_machine empty_log.

(** The second call waits while the first is in the log, and is then refused. *)
Example second_call_waits :
  let c := run_schedule [0; 1; 2; 2; 1; 2; 1] (start idle two_calls) in
  let c' := run_schedule [2; 2; 2; 2] c in
  (at_pc <$> threads c !! 2) = Some Waiting
  /\ map fst (decision_order [0; 1; 2; 2; 1; 2; 1; 2; 2; 2; 2] (start idle two_calls)) = [0; 1; 2]
  /\ all_done c' = true
  /\ length (mem_transitions (audit_log (mc c'))) = 1.
Proof. by vm_compute. Qed.

Lemma concurrent_history_is_chain_witness :
  let c := run_schedule [0; 1; 2; 1] (start idle two_calls) in
  (exists b, chain INITIATED (task_history (mc c) "t1") b)
  /\ ("t1" ∉ held c -> chain INITIATED (task_history (mc c) "t1") (current_of (mc c) "t1")).
Proof. apply (concurrent_history_is_chain empty_log two_calls [0; 1; 2; 1] "t1"). reflexivity. Defined.

Lemma concurrent_calls_linearize_witness :
  let c := run_schedule [0; 1; 2; 1] (start idle two_calls) in
  let order := decision_order [0; 1; 2; 1] (start idle two_calls) in
  NoDup (map fst order)
  /\ (forall i op o, threads c !! i = Some (Thread op (Done o)) ->
        two_calls !! i = Some op
        /\ exists before after, order = (before ++ (i, op) :: after)%list
             /\ o = op_result op (sequential idle before))
  /\ (forall t, t ∉ held c -> view (mc c) t = view (sequential idle order) t)
  /\ same_receipts (mc c) (sequential idle order).
Proof. apply (concurrent_calls_linearize idle two_calls [0; 1; 2; 1]). Defined.

Lemma concurrent_calls_complete_witness :
  let c := run_schedule [0; 1; 2; 1] (start idle two_calls) in
  (all_done c = true \/ exists i c', resume i c = Some c')
  /\ (forall i c', resume i c = Some c' -> work c' < work c)
  /\ work c <= 6 * length two_calls
  /\ exists rest, length rest <= 6 * length two_calls
       /\ all_done (run_schedule ([0; 1; 2; 1] ++ rest) (start idle two_calls)) = true.
Proof. apply (concurrent_calls_complete idle two_calls [0; 1; 2; 1]). Defined.
End Examples.
