(* ===== verification/BillingScenarios.v ===== *)
(** * Scenario configurations ([packages/karma_billing/scenarios/])

    The registry ([registry.py]) as an insertion-ordered dict with its errors, the
    five configurations the package registers at import time, and how they compare
    with the tables the state machine enforces ([BillingTransitions]). *)

From S2P Require Import Prelude PyBytes PyJson PyDatetime PyFloat BillingSchema BillingTransitions.
#[local] Open Scope string_scope.
#[local] Open Scope list_scope.
#[local] Open Scope py_scope.

(** ** [scenarios/registry.py] *)

Record anchoring_overrides := {
  anchoring_threshold : Z;
  mandatory_anchor_states : list string
}.

Record ScenarioConfig := {
  scenario_type : ScenarioType;
  receipt_types : list ReceiptType;
  state_path : list BillingState;
  allowed_transitions : list (BillingState * BillingState);
  anchoring_policy_overrides : option anchoring_overrides
}.

Definition start_state (c : ScenarioConfig) : BillingState :=
  match state_path c with s :: _ => s | [] => INITIATED end.

Definition terminal_state (c : ScenarioConfig) : BillingState :=
  match last (state_path c) with Some s => s | None => SETTLED end.

(** [ScenarioRegistry._configs], in insertion order. *)
Definition ScenarioRegistry : Type := list (ScenarioType * ScenarioConfig).
Abbreviation MR := (M ScenarioRegistry py_exn).

Definition is_registered (r : ScenarioRegistry) (sc : ScenarioType) : bool :=
  match dict_get sc r with Some _ => true | None => false end.

Definition register (sc : ScenarioType) (config : ScenarioConfig) : MR unit :=
  let! r := py_get in
  if is_registered r sc
  then py_raise (ValueError ("Scenario " ++ ScenarioType_value sc ++ " is already registered"))
  else py_modify (fun r => r ++ [(sc, config)]).

Definition get (sc : ScenarioType) : MR ScenarioConfig :=
  let! r := py_get in
  match dict_get sc r with
  | None => py_raise (KeyError ("Scenario " ++ ScenarioType_value sc ++ " is not registered"))
  | Some c => py_ret c
  end.

Definition list_all (r : ScenarioRegistry) : list ScenarioConfig := map snd r.
Definition registry_count (r : ScenarioRegistry) : nat := length r.

(** ** [scenarios/s1_delegation.py] *)

Definition S1_RECEIPT_TYPES : list ReceiptType :=
  [
   S1_INTENT_CREATED; S1_INTENT_SIGNED; S1_DELEGATION_ACCEPTED; S1_TASK_STARTED;
   S1_STEP_EXECUTED; S1_TASK_COMPLETED; S1_INVOICE_GENERATED; S1_PAYMENT_AUTHORIZED;
   S1_PAYMENT_SETTLED; S1_RECEIPT_FINAL].

Definition S1_STATE_PATH : list BillingState :=
  [
   INITIATED; INTENT_RECEIVED; INTENT_VALIDATED; DELEGATION_ACCEPTED; TASK_STARTED;
   STEP_IN_PROGRESS; STEP_COMPLETED; TASK_COMPLETED; INVOICE_GENERATED;
   PAYMENT_AUTHORIZED; PAYMENT_PENDING; PAYMENT_SETTLING; SETTLED].

Definition S1_ALLOWED_TRANSITIONS : list (BillingState * BillingState) :=
  [
   (INITIATED, INTENT_RECEIVED); (INTENT_RECEIVED, INTENT_VALIDATED);
   (INTENT_VALIDATED, DELEGATION_ACCEPTED); (DELEGATION_ACCEPTED, TASK_STARTED);
   (TASK_STARTED, STEP_IN_PROGRESS); (STEP_IN_PROGRESS, STEP_COMPLETED);
   (STEP_COMPLETED, STEP_IN_PROGRESS); (STEP_IN_PROGRESS, TASK_COMPLETED);
   (STEP_COMPLETED, TASK_COMPLETED); (TASK_COMPLETED, INVOICE_GENERATED);
   (INVOICE_GENERATED, PAYMENT_AUTHORIZED); (PAYMENT_AUTHORIZED, PAYMENT_PENDING);
   (PAYMENT_PENDING, PAYMENT_SETTLING); (PAYMENT_SETTLING, SETTLED)].

Definition S1_ANCHORING_POLICY : anchoring_overrides :=
  {| anchoring_threshold := 3;
     mandatory_anchor_states :=
       map BillingState_value
         [INTENT_VALIDATED; TASK_COMPLETED; INVOICE_GENERATED; SETTLED] |}.

Definition S1_RECEIPT_TO_STATE_MAP : list (ReceiptType * BillingState) :=
  [
   (S1_INTENT_CREATED, INTENT_RECEIVED); (S1_INTENT_SIGNED, INTENT_VALIDATED);
   (S1_DELEGATION_ACCEPTED, DELEGATION_ACCEPTED); (S1_TASK_STARTED, TASK_STARTED);
   (S1_STEP_EXECUTED, STEP_IN_PROGRESS); (S1_TASK_COMPLETED, TASK_COMPLETED);
   (S1_INVOICE_GENERATED, INVOICE_GENERATED); (S1_PAYMENT_AUTHORIZED,
   PAYMENT_AUTHORIZED); (S1_PAYMENT_SETTLED, PAYMENT_SETTLING); (S1_RECEIPT_FINAL,
   SETTLED)].

Definition register_s1 : MR unit :=
  register S1_DELEGATION
    {| scenario_type := S1_DELEGATION; receipt_types := S1_RECEIPT_TYPES;
       state_path := S1_STATE_PATH; allowed_transitions := S1_ALLOWED_TRANSITIONS;
       anchoring_policy_overrides := Some S1_ANCHORING_POLICY |}.

(** ** [scenarios/s2_bidding.py] *)

Definition S2_RECEIPT_TYPES : list ReceiptType :=
  [
   S2_BID_OPENED; S2_BID_PLACED; S2_BID_EVALUATED; S2_BID_ACCEPTED; S2_TASK_EXECUTED;
   S2_INVOICE_GENERATED; S2_PAYMENT_SETTLED].

Definition S2_STATE_PATH : list BillingState :=
  [
   INITIATED; INTENT_RECEIVED; INTENT_VALIDATED; BID_EVALUATING; BID_ACCEPTED;
   TASK_STARTED; STEP_IN_PROGRESS; STEP_COMPLETED; TASK_COMPLETED; INVOICE_GENERATED;
   PAYMENT_AUTHORIZED; PAYMENT_SETTLING; SETTLED].

Definition S2_ALLOWED_TRANSITIONS : list (BillingState * BillingState) :=
  [
   (INITIATED, INTENT_RECEIVED); (INTENT_RECEIVED, INTENT_VALIDATED);
   (INTENT_VALIDATED, BID_EVALUATING); (BID_EVALUATING, BID_ACCEPTED);
   (BID_EVALUATING, INVOICE_GENERATED); (BID_ACCEPTED, TASK_STARTED); (TASK_STARTED,
   STEP_IN_PROGRESS); (STEP_IN_PROGRESS, STEP_COMPLETED); (STEP_COMPLETED,
   TASK_COMPLETED); (TASK_COMPLETED, INVOICE_GENERATED); (INVOICE_GENERATED,
   PAYMENT_AUTHORIZED); (PAYMENT_AUTHORIZED, PAYMENT_SETTLING); (PAYMENT_SETTLING,
   SETTLED)].

Definition S2_ANCHORING_POLICY : anchoring_overrides :=
  {| anchoring_threshold := 5;
     mandatory_anchor_states :=
       map BillingState_value
         [BID_ACCEPTED; INVOICE_GENERATED; SETTLED] |}.

Definition S2_RECEIPT_TO_STATE_MAP : list (ReceiptType * BillingState) :=
  [
   (S2_BID_OPENED, BID_EVALUATING); (S2_BID_PLACED, BID_EVALUATING);
   (S2_BID_EVALUATED, BID_EVALUATING); (S2_BID_ACCEPTED, BID_ACCEPTED);
   (S2_TASK_EXECUTED, TASK_COMPLETED); (S2_INVOICE_GENERATED, INVOICE_GENERATED);
   (S2_PAYMENT_SETTLED, SETTLED)].

Definition register_s2 : MR unit :=
  register S2_BIDDING
    {| scenario_type := S2_BIDDING; receipt_types := S2_RECEIPT_TYPES;
       state_path := S2_STATE_PATH; allowed_transitions := S2_ALLOWED_TRANSITIONS;
       anchoring_policy_overrides := Some S2_ANCHORING_POLICY |}.

(** ** [scenarios/s3_pipeline.py] *)

Definition S3_RECEIPT_TYPES : list ReceiptType :=
  [
   S3_PIPELINE_CREATED; S3_STAGE_STARTED; S3_STAGE_COMPLETED; S3_PIPELINE_COMPLETED;
   S3_INVOICE_AGGREGATED; S3_PAYMENT_SETTLED].

Definition S3_STATE_PATH : list BillingState :=
  [
   INITIATED; INTENT_RECEIVED; INTENT_VALIDATED; PIPELINE_STAGING; STEP_IN_PROGRESS;
   STEP_COMPLETED; TASK_COMPLETED; INVOICE_GENERATED; PAYMENT_AUTHORIZED;
   PAYMENT_SETTLING; SETTLED].

Definition S3_ALLOWED_TRANSITIONS : list (BillingState * BillingState) :=
  [
   (INITIATED, INTENT_RECEIVED); (INTENT_RECEIVED, INTENT_VALIDATED);
   (INTENT_VALIDATED, PIPELINE_STAGING); (PIPELINE_STAGING, STEP_IN_PROGRESS);
   (PIPELINE_STAGING, TASK_COMPLETED); (STEP_IN_PROGRESS, STEP_COMPLETED);
   (STEP_COMPLETED, STEP_IN_PROGRESS); (STEP_COMPLETED, TASK_COMPLETED);
   (TASK_COMPLETED, INVOICE_GENERATED); (INVOICE_GENERATED, PAYMENT_AUTHORIZED);
   (PAYMENT_AUTHORIZED, PAYMENT_SETTLING); (PAYMENT_SETTLING, SETTLED)].

Definition S3_ANCHORING_POLICY : anchoring_overrides :=
  {| anchoring_threshold := 5;
     mandatory_anchor_states :=
       map BillingState_value
         [TASK_COMPLETED; INVOICE_GENERATED; SETTLED] |}.

Definition S3_RECEIPT_TO_STATE_MAP : list (ReceiptType * BillingState) :=
  [
   (S3_PIPELINE_CREATED, PIPELINE_STAGING); (S3_STAGE_STARTED, STEP_IN_PROGRESS);
   (S3_STAGE_COMPLETED, STEP_COMPLETED); (S3_PIPELINE_COMPLETED, TASK_COMPLETED);
   (S3_INVOICE_AGGREGATED, INVOICE_GENERATED); (S3_PAYMENT_SETTLED, SETTLED)].

Definition register_s3 : MR unit :=
  register S3_PIPELINE
    {| scenario_type := S3_PIPELINE; receipt_types := S3_RECEIPT_TYPES;
       state_path := S3_STATE_PATH; allowed_transitions := S3_ALLOWED_TRANSITIONS;
       anchoring_policy_overrides := Some S3_ANCHORING_POLICY |}.

(** ** [scenarios/s5_data.py] *)

Definition S5_RECEIPT_TYPES : list ReceiptType :=
  [
   S5_DATA_REQUESTED; S5_DATA_DELIVERED; S5_DATA_VERIFIED; S5_ROYALTY_CALCULATED;
   S5_PAYMENT_SETTLED].

Definition S5_STATE_PATH : list BillingState :=
  [
   INITIATED; INTENT_RECEIVED; INTENT_VALIDATED; DELEGATION_ACCEPTED; TASK_STARTED;
   TASK_COMPLETED; INVOICE_GENERATED; PAYMENT_AUTHORIZED; PAYMENT_SETTLING; SETTLED].

Definition S5_ALLOWED_TRANSITIONS : list (BillingState * BillingState) :=
  [
   (INITIATED, INTENT_RECEIVED); (INTENT_RECEIVED, INTENT_VALIDATED);
   (INTENT_VALIDATED, DELEGATION_ACCEPTED); (DELEGATION_ACCEPTED, TASK_STARTED);
   (TASK_STARTED, TASK_COMPLETED); (TASK_COMPLETED, INVOICE_GENERATED);
   (INVOICE_GENERATED, PAYMENT_AUTHORIZED); (PAYMENT_AUTHORIZED, PAYMENT_SETTLING);
   (PAYMENT_SETTLING, SETTLED)].

Definition S5_ANCHORING_POLICY : anchoring_overrides :=
  {| anchoring_threshold := 5;
     mandatory_anchor_states :=
       map BillingState_value
         [INVOICE_GENERATED; SETTLED] |}.

Definition S5_RECEIPT_TO_STATE_MAP : list (ReceiptType * BillingState) :=
  [
   (S5_DATA_REQUESTED, INTENT_VALIDATED); (S5_DATA_DELIVERED, TASK_COMPLETED);
   (S5_DATA_VERIFIED, TASK_COMPLETED); (S5_ROYALTY_CALCULATED, INVOICE_GENERATED);
   (S5_PAYMENT_SETTLED, SETTLED)].

Definition register_s5 : MR unit :=
  register S5_DATA
    {| scenario_type := S5_DATA; receipt_types := S5_RECEIPT_TYPES;
       state_path := S5_STATE_PATH; allowed_transitions := S5_ALLOWED_TRANSITIONS;
       anchoring_policy_overrides := Some S5_ANCHORING_POLICY |}.

(** ** [scenarios/s8_dispute.py] *)

Definition S8_RECEIPT_TYPES : list ReceiptType :=
  [
   S8_DISPUTE_FILED; S8_EVIDENCE_SUBMITTED; S8_ARBITRATION_STARTED;
   S8_RESOLUTION_PROPOSED; S8_RESOLUTION_ACCEPTED; S8_REFUND_ISSUED].

Definition S8_STATE_PATH : list BillingState :=
  [
   INITIATED; INTENT_RECEIVED; INTENT_VALIDATED; DELEGATION_ACCEPTED; TASK_STARTED;
   TASK_COMPLETED; INVOICE_GENERATED; PAYMENT_AUTHORIZED; PAYMENT_SETTLING;
   REFUND_PENDING; SETTLED].

Definition S8_ALLOWED_TRANSITIONS : list (BillingState * BillingState) :=
  [
   (INITIATED, INTENT_RECEIVED); (INTENT_RECEIVED, INTENT_VALIDATED);
   (INTENT_VALIDATED, DELEGATION_ACCEPTED); (DELEGATION_ACCEPTED, TASK_STARTED);
   (TASK_STARTED, TASK_COMPLETED); (TASK_COMPLETED, INVOICE_GENERATED);
   (INVOICE_GENERATED, PAYMENT_AUTHORIZED); (PAYMENT_AUTHORIZED, PAYMENT_SETTLING);
   (PAYMENT_SETTLING, REFUND_PENDING); (REFUND_PENDING, SETTLED); (PAYMENT_SETTLING,
   SETTLED)].

Definition S8_ANCHORING_POLICY : anchoring_overrides :=
  {| anchoring_threshold := 2;
     mandatory_anchor_states :=
       map BillingState_value
         [REFUND_PENDING; SETTLED] |}.

Definition S8_RECEIPT_TO_STATE_MAP : list (ReceiptType * BillingState) :=
  [
   (S8_DISPUTE_FILED, PAYMENT_SETTLING); (S8_EVIDENCE_SUBMITTED, PAYMENT_SETTLING);
   (S8_ARBITRATION_STARTED, PAYMENT_SETTLING); (S8_RESOLUTION_PROPOSED,
   REFUND_PENDING); (S8_RESOLUTION_ACCEPTED, REFUND_PENDING); (S8_REFUND_ISSUED,
   SETTLED)].

Definition register_s8 : MR unit :=
  register S8_DISPUTE
    {| scenario_type := S8_DISPUTE; receipt_types := S8_RECEIPT_TYPES;
       state_path := S8_STATE_PATH; allowed_transitions := S8_ALLOWED_TRANSITIONS;
       anchoring_policy_overrides := Some S8_ANCHORING_POLICY |}.
(** ** [scenarios/__init__.py]: registration at import *)

Definition import_scenarios : MR unit :=
  register_s1 ;;; register_s2 ;;; register_s3 ;;; register_s5 ;;; register_s8.

(** The registry after the import. *)
Definition registered : ScenarioRegistry := run_state import_scenarios [].

(** ** The registry *)

(** A registration is found by [get], leaves every other scenario as it was,
    and is never overwritten: registering a scenario again raises [ValueError] and
    leaves the registry unchanged; [get] of an absent scenario raises [KeyError]. *)
Theorem registry_spec (r : ScenarioRegistry) sc c :
  match dict_get sc r with
  | Some c0 =>
      (exists msg, register sc c r = (r, Raise (ValueError msg))) /\ get sc r = (r, Ret c0)
  | None =>
      (exists msg, get sc r = (r, Raise (KeyError msg)))
      /\ run_outcome (register sc c) r = Ret tt
      /\ let r' := run_state (register sc c) r in
         get sc r' = (r', Ret c)
         /\ (forall sc', sc' <> sc -> dict_get sc' r' = dict_get sc' r)
         /\ list_all r' = list_all r ++ [c]
  end.
Proof.
  unfold register, get, run_state, run_outcome, py_bind, py_get, py_modify, is_registered, list_all.
  destruct (dict_get sc r) eqn:E; cbn.
  - split; [by eexists|done].
  - split; [by eexists|]. split; [done|]. rewrite dict_get_app, E. cbn.
    rewrite bool_decide_true by done. split; [done|]. split; [|by rewrite map_app].
    intros sc' Hne. rewrite dict_get_app. cbn. rewrite bool_decide_false by done.
    by destruct (dict_get sc' r).
Qed.

(** ** The configurations against the machine's tables *)

(** Where a configuration and the table the machine enforces differ. *)
Definition divergences : list (ScenarioType * BillingState * BillingState) :=
  [(S1_DELEGATION, PAYMENT_AUTHORIZED, PAYMENT_SETTLING);
   (S2_BIDDING, INVOICE_GENERATED, PAYMENT_SETTLING);
   (S3_PIPELINE, STEP_COMPLETED, STEP_IN_PROGRESS);
   (S3_PIPELINE, PIPELINE_STAGING, TASK_COMPLETED)].

Definition config_agrees (sc : ScenarioType) (a b : BillingState) : bool :=
  match dict_get sc registered with
  | None => true
  | Some c =>
      Bool.eqb (is_transition_allowed sc a b)
        (xorb (mem (a, b) (allowed_transitions c)) (mem (sc, a, b) divergences))
  end.

Lemma config_agrees_all sc a b : config_agrees sc a b = true.
Proof.
  apply (forall_pairs (fun sc a b => config_agrees sc a b)). by vm_compute.
Qed.

(** A registered configuration lists exactly the transitions the machine
    allows in its scenario, but for four: the machine also allows
    [PAYMENT_AUTHORIZED -> PAYMENT_SETTLING] in S1 and
    [INVOICE_GENERATED -> PAYMENT_SETTLING] in S2, and it refuses two that the
    pipeline scenario S3 lists, [STEP_COMPLETED -> STEP_IN_PROGRESS] (the next
    stage) and [PIPELINE_STAGING -> TASK_COMPLETED]. *)
Theorem config_transitions_exact sc c a b :
  dict_get sc registered = Some c ->
  is_transition_allowed sc a b
  = xorb (mem (a, b) (allowed_transitions c)) (mem (sc, a, b) divergences).
Proof.
  intros Hc. pose proof (config_agrees_all sc a b) as H. unfold config_agrees in H.
  rewrite Hc in H. by apply eqb_prop in H.
Qed.

(** The receipt-to-state maps the modules declare beside their configuration. *)
Definition receipt_state_maps : list (ScenarioType * list (ReceiptType * BillingState)) :=
  [(S1_DELEGATION, S1_RECEIPT_TO_STATE_MAP); (S2_BIDDING, S2_RECEIPT_TO_STATE_MAP);
   (S3_PIPELINE, S3_RECEIPT_TO_STATE_MAP); (S5_DATA, S5_RECEIPT_TO_STATE_MAP);
   (S8_DISPUTE, S8_RECEIPT_TO_STATE_MAP)].

Fixpoint path_allowed (sc : ScenarioType) (c : ScenarioConfig) (p : list BillingState) : bool :=
  match p with
  | a :: (b :: _) as r =>
      mem (a, b) (allowed_transitions c) && is_transition_allowed sc a b && path_allowed sc c r
  | _ => true
  end.

Definition config_ok (sc : ScenarioType) (c : ScenarioConfig) : bool :=
  bool_decide (scenario_type c = sc)
  && mem (start_state c) [INITIATED] && mem (terminal_state c) [SETTLED]
  && path_allowed sc c (state_path c)
  && match dict_get sc receipt_state_maps with
     | None => false
     | Some mp => bool_decide (map fst mp = receipt_types c)
                  && forallb (fun x => mem (snd x) (state_path c)) mp
     end.

(** Every configuration the package registers is one the machine can run: it
    is filed under its own scenario, its path leads from [INITIATED] to [SETTLED]
    through transitions that both the configuration and the machine allow, and
    its receipt map covers exactly its receipt types, each sent to a state of the
    path. *)
Theorem config_paths_run sc c :
  dict_get sc registered = Some c ->
  scenario_type c = sc /\ start_state c = INITIATED /\ terminal_state c = SETTLED
  /\ path_allowed sc c (state_path c) = true
  /\ exists mp, dict_get sc receipt_state_maps = Some mp
       /\ map fst mp = receipt_types c
       /\ forall rt s, (rt, s) ∈ mp -> s ∈ state_path c.
Proof.
  intros Hc%dict_get_In.
  assert (Hall : forallb (fun x => config_ok x.1 x.2) registered = true) by by vm_compute.
  rewrite forallb_forall in Hall. specialize (Hall _ Hc). cbn in Hall.
  unfold config_ok in Hall.
  apply andb_prop in Hall as [Hall Hm]. apply andb_prop in Hall as [Hall Hp].
  apply andb_prop in Hall as [Hall Ht%mem_true%list_elem_of_singleton].
  apply andb_prop in Hall as [Hs%bool_decide_eq_true Hi%mem_true%list_elem_of_singleton].
  repeat (split; [done|]).
  destruct (dict_get sc receipt_state_maps) as [mp|]; [|done].
  exists mp. apply andb_prop in Hm as [Hk%bool_decide_eq_true Hv].
  split; [done|]. split; [done|]. intros rt s Hin. rewrite forallb_forall in Hv.
  apply mem_true. by apply (Hv (rt, s)), list_elem_of_In.
Qed.

Lemma registered_s3 : dict_get S3_PIPELINE registered
  = Some {| scenario_type := S3_PIPELINE; receipt_types := S3_RECEIPT_TYPES;
            state_path := S3_STATE_PATH; allowed_transitions := S3_ALLOWED_TRANSITIONS;
            anchoring_policy_overrides := Some S3_ANCHORING_POLICY |}.
Proof. by vm_compute. Qed.

Lemma config_transitions_exact_witness :
  is_transition_allowed S3_PIPELINE STEP_COMPLETED STEP_IN_PROGRESS
  = xorb (mem (STEP_COMPLETED, STEP_IN_PROGRESS) S3_ALLOWED_TRANSITIONS)
         (mem (S3_PIPELINE, STEP_COMPLETED, STEP_IN_PROGRESS) divergences).
Proof.
  exact (config_transitions_exact S3_PIPELINE _ STEP_COMPLETED STEP_IN_PROGRESS registered_s3).
Defined.

Lemma config_paths_run_witness :
  exists mp, dict_get S3_PIPELINE receipt_state_maps = Some mp
    /\ map fst mp = S3_RECEIPT_TYPES
    /\ forall rt s, (rt, s) ∈ mp -> s ∈ S3_STATE_PATH.
Proof.
  destruct (config_paths_run S3_PIPELINE _ registered_s3) as (_ & _ & _ & _ & H). exact H.
Defined.
