(* ===== verification/BillingSync.v ===== *)
(** * Receipt synchronisation ([packages/karma_billing/sync_service.py])

    [InMemoryPubSub] over an abstract type of callbacks, the Merkle accumulator
    with its pairing loop (run with fuel, and shown to need only the binary
    logarithm of the number of leaves), and [ReceiptSyncService.sync] with its
    three routes.  The callbacks, the database hook and pydantic's [model_dump]
    are code outside the repository: they are parameters of the sections.  A
    callback acts on the world and does not call back into the service. *)

From S2P Require Import Prelude PyBytes PyJson PyDatetime PyFloat BillingSchema.
#[local] Open Scope string_scope.
#[local] Open Scope list_scope.

(** ** [IncrementalMerkleAccumulator] *)

(** One pass of the [while] body: consecutive pairs, an odd last node paired with
    itself. *)
Definition merkle_combine (lhs rhs : bytes) : bytes := lhs ++ rhs.
Fixpoint next_level (level : list bytes) : list bytes :=
  match level with
  | lhs :: rhs :: r => sha256 (merkle_combine lhs rhs) :: next_level r
  | [lhs] => [sha256 (merkle_combine lhs lhs)]
  | [] => []
  end.

(** [while len(current_level) > 1]; [None] when the fuel runs out. *)
Fixpoint merkle_loop (fuel : nat) (level : list bytes) : option (list bytes) :=
  if Nat.ltb 1 (length level)
  then match fuel with O => None | S n => merkle_loop n (next_level level) end
  else Some level.

Definition compute_root (leaves : list bytes) : option string :=
  match leaves with
  | [] => None
  | _ => match merkle_loop (Nat.log2_up (length leaves)) leaves with
         | Some (h :: _) => Some (hex h)
         | _ => None
         end
  end.

Record IncrementalMerkleAccumulator := Merkle {
  leaves : list bytes;
  anchor_count : Z
}.

Definition merkle_append (leaf_hash : bytes) (m : IncrementalMerkleAccumulator) :
    IncrementalMerkleAccumulator * Z :=
  (Merkle (leaves m ++ [leaf_hash]) (anchor_count m), Z.of_nat (length (leaves m))).

Definition mark_anchored (m : IncrementalMerkleAccumulator) :
    IncrementalMerkleAccumulator * string :=
  (Merkle (leaves m) (anchor_count m + 1), default "" (compute_root (leaves m))).

(** *** Termination *)

Lemma pair_ind {A} (P : list A -> Prop) :
  P [] -> (forall x, P [x]) -> (forall x y r, P r -> P (x :: y :: r)) -> forall l, P l.
Proof.
  intros H0 H1 H2 l. cut (P l /\ forall x, P (x :: l)); [tauto|].
  induction l as [|x l [IH IH']]; [auto|]. split; auto.
Qed.

Lemma length_next_level l : length (next_level l) = Nat.div2 (S (length l)).
Proof. induction l using pair_ind; cbn in *; lia. Qed.

Lemma next_level_nonempty l : l <> [] -> next_level l <> [].
Proof. destruct l as [|a [|b l]]; done. Qed.

Lemma merkle_loop_enough k l :
  l <> [] -> length l <= 2 ^ k -> exists h, merkle_loop k l = Some [h].
Proof.
  revert l. induction k as [|k IH]; intros l Hne Hl; cbn [merkle_loop].
  - destruct l as [|a [|b l]]; cbn in *; [done| |lia]. by exists a.
  - destruct (Nat.ltb 1 (length l)) eqn:E.
    + apply IH; [by apply next_level_nonempty|]. rewrite length_next_level.
      pose proof (Nat.div2_odd (S (length l))). cbn [Nat.pow] in Hl. lia.
    + apply Nat.ltb_ge in E. destruct l as [|a [|b l]]; cbn in *; [done| |lia]. by exists a.
Qed.

Lemma log2_up_enough n : n <> 0%nat -> n <= 2 ^ Nat.log2_up n.
Proof.
  intros Hn. destruct (decide (n = 1%nat)) as [->|]; [cbn; lia|].
  apply Nat.log2_log2_up_spec. lia.
Qed.

Lemma compute_root_eq l :
  l <> [] ->
  exists h, merkle_loop (Nat.log2_up (length l)) l = Some [h] /\ compute_root l = Some (hex h).
Proof.
  intros Hl. destruct (merkle_loop_enough (Nat.log2_up (length l)) l Hl) as [h Hh].
  - apply log2_up_enough. by destruct l.
  - exists h. split; [done|]. unfold compute_root. destruct l; [done|]. by rewrite Hh.
Qed.

(** *** The leaves a root commits to *)

(** The digests of one level, and every input the loop hashes. *)
Definition is_digest (b : bytes) : Prop := length b = 32 /\ Forall byte_ok b.

Fixpoint level_inputs (level : list bytes) : list bytes :=
  match level with
  | lhs :: rhs :: r => merkle_combine lhs rhs :: level_inputs r
  | [lhs] => [merkle_combine lhs lhs]
  | [] => []
  end.
Fixpoint hashed_inputs (fuel : nat) (level : list bytes) : list bytes :=
  if Nat.ltb 1 (length level)
  then match fuel with
       | O => []
       | S n => level_inputs level ++ hashed_inputs n (next_level level)
       end
  else [].
Definition root_inputs (l : list bytes) : list bytes :=
  hashed_inputs (Nat.log2_up (length l)) l.

Lemma sha256_digest m : is_digest (sha256 m).
Proof. split; [apply length_sha256|apply sha256_ok]. Qed.

Lemma next_level_digests l : Forall is_digest (next_level l).
Proof. induction l using pair_ind; cbn; eauto using Forall_nil, Forall_cons_2, sha256_digest. Qed.

Lemma next_level_binding l : forall l',
  length l = length l' -> Forall is_digest l -> Forall is_digest l' ->
  next_level l = next_level l' ->
  l = l' \/ collision_between (level_inputs l) (level_inputs l').
Proof.
  induction l as [|x|x y r IH] using pair_ind; intros [|x' [|y' r']] Hlen Hl Hl' H;
    cbn in Hlen; try lia; [by left|..].
  - cbn [next_level] in H. apply cons_eq in H as [H _]. apply sha256_inj_or_collides in H as [H|H].
    + left. apply digest_app_inj in H as [-> _]; [done|].
      inversion Hl as [|? ? [? _]]; inversion Hl' as [|? ? [? _]]; congruence.
    + right. exists (merkle_combine x x), (merkle_combine x' x'). cbn. set_solver.
  - cbn [next_level] in H. apply cons_eq in H as [H Hr].
    inversion Hl as [|? ? [Hx _] Hl1]; inversion Hl1 as [|? ? _ Hl2]; subst.
    inversion Hl' as [|? ? [Hx' _] Hl1']; inversion Hl1' as [|? ? _ Hl2']; subst.
    apply sha256_inj_or_collides in H as [H|H].
    + apply digest_app_inj in H as [-> ->]; [|congruence].
      destruct (IH r' ltac:(lia) Hl2 Hl2' Hr) as [->|Hc]; [by left|].
      right. eapply collision_between_mono; [| |exact Hc]; cbn; set_solver.
    + right. exists (merkle_combine x y), (merkle_combine x' y'). cbn. set_solver.
Qed.

Lemma merkle_loop_binding k l l' h h' :
  length l = length l' -> Forall is_digest l -> Forall is_digest l' ->
  merkle_loop k l = Some [h] -> merkle_loop k l' = Some [h'] -> h = h' ->
  l = l' \/ collision_between (hashed_inputs k l) (hashed_inputs k l').
Proof.
  revert l l'. induction k as [|k IH]; intros l l' Hlen Hl Hl' H H' <-;
    cbn [merkle_loop hashed_inputs] in *; rewrite <- Hlen in *;
    destruct (Nat.ltb 1 (length l)) eqn:E; try congruence.
  - left. congruence.
  - assert (Hn : length (next_level l) = length (next_level l'))
      by by rewrite !length_next_level, Hlen.
    destruct (IH _ _ Hn (next_level_digests l) (next_level_digests l') H H' eq_refl) as [He|Hc].
    + destruct (next_level_binding l l' Hlen Hl Hl' He) as [->|Hc]; [by left|].
      right. eapply collision_between_mono; [| |exact Hc]; set_solver.
    + right. eapply collision_between_mono; [| |exact Hc]; set_solver.
  - left. congruence.
Qed.

(** More fuel changes nothing. *)
Lemma merkle_loop_mono k l x j : merkle_loop k l = Some x -> merkle_loop (k + j) l = Some x.
Proof.
  revert l. induction k as [|k IH]; intros l; cbn [merkle_loop Nat.add].
  - destruct (Nat.ltb 1 (length l)) eqn:E; [done|]. intros [= <-].
    destruct j; cbn [merkle_loop]; by rewrite E.
  - destruct (Nat.ltb 1 (length l)); auto.
Qed.

Lemma merkle_loop_digest k l x :
  Forall is_digest l -> merkle_loop k l = Some x -> Forall is_digest x.
Proof.
  revert l. induction k as [|k IH]; intros l Hl; cbn [merkle_loop];
    destruct (Nat.ltb 1 (length l)); try congruence. intros H.
  eapply IH; [|exact H]. apply next_level_digests.
Qed.

(** [compute_root] terminates and yields one digest: the loop stops within the
    binary logarithm of the number of leaves, more iterations change nothing, and
    the root is [None] exactly for the empty accumulator. *)
Theorem compute_root_total l :
  match compute_root l with
  | None => l = []
  | Some r => l <> [] /\ exists h, r = hex h
      /\ forall j, merkle_loop (Nat.log2_up (length l) + j) l = Some [h]
  end.
Proof.
  destruct (decide (l = [])) as [->|Hl]; [done|].
  destruct (compute_root_eq l Hl) as (h & Hh & ->). split; [done|].
  exists h. split; [done|]. intros j. by apply merkle_loop_mono.
Qed.

(** The root commits to the leaves: two accumulators with equally many leaves
    and the same root hold the same leaves, in the same order, unless two of the
    inputs the computations hashed are a SHA-256 collision. *)
Theorem merkle_root_binding l l' :
  length l = length l' -> Forall is_digest l -> Forall is_digest l' ->
  compute_root l = compute_root l' ->
  l = l' \/ collision_between (root_inputs l) (root_inputs l').
Proof.
  intros Hlen Hl Hl' H.
  destruct (decide (l = [])) as [->|Hne]; [left; by destruct l'|].
  assert (Hne' : l' <> []) by (intros ->; by destruct l).
  destruct (compute_root_eq l Hne) as (h & Hh & Hr).
  destruct (compute_root_eq l' Hne') as (h' & Hh' & Hr').
  rewrite Hr, Hr' in H. injection H as H.
  assert (Hd : Forall is_digest [h]) by (by eapply merkle_loop_digest, Hh).
  assert (Hd' : Forall is_digest [h']) by (by eapply merkle_loop_digest, Hh').
  apply Forall_singleton in Hd as [_ Hd], Hd' as [_ Hd'].
  unfold root_inputs. rewrite <- Hlen in *.
  eapply merkle_loop_binding; eauto using hex_inj.
Qed.

Lemma next_level_app l r :
  Nat.Even (length l) -> next_level (l ++ r) = next_level l ++ next_level r.
Proof.
  induction l as [|x|x y l IH] using pair_ind; intros He; [done| |].
  - by apply Nat.even_spec in He.
  - cbn [app next_level]. rewrite IH; [done|]. apply Nat.even_spec in He. by apply Nat.even_spec.
Qed.

Lemma compute_root_next l :
  1 < length l -> exists k h, merkle_loop k (next_level l) = Some [h] /\ compute_root l = Some (hex h).
Proof.
  intros Hl. destruct (compute_root_eq l) as (h & Hh & Hr); [by intros ->; cbn in Hl; lia|].
  destruct (Nat.log2_up (length l)) as [|k] eqn:Ek.
  - cbn [merkle_loop] in Hh. rewrite (proj2 (Nat.ltb_lt _ _) Hl) in Hh. done.
  - cbn [merkle_loop] in Hh. rewrite (proj2 (Nat.ltb_lt _ _) Hl) in Hh. by exists k, h.
Qed.

Lemma merkle_loop_det k k' l x y :
  merkle_loop k l = Some x -> merkle_loop k' l = Some y -> x = y.
Proof.
  intros H H'. pose proof (merkle_loop_mono k l x k' H) as H1.
  pose proof (merkle_loop_mono k' l y k H') as H2.
  rewrite Nat.add_comm in H2. congruence.
Qed.

(** Accumulators whose first levels agree have one root. *)
Lemma same_next_same_root l l' :
  1 < length l -> 1 < length l' -> next_level l = next_level l' -> compute_root l = compute_root l'.
Proof.
  intros Hl Hl' H.
  destruct (compute_root_next l Hl) as (k & h & Hk & ->).
  destruct (compute_root_next l' Hl') as (k' & h' & Hk' & ->).
  rewrite H in Hk. pose proof (merkle_loop_det _ _ _ _ _ Hk Hk') as E. by injection E as ->.
Qed.

(** The number of leaves is not bound: repeating the last of an odd number of
    leaves (three or more) keeps the root, and so does replacing the leaves by
    the digests of their first pairing. *)
Theorem merkle_root_not_injective l x :
  l <> [] -> Nat.Even (length l) ->
  compute_root (l ++ [x]) = compute_root (l ++ [x; x])
  /\ compute_root (l ++ [x; x]) = compute_root (next_level (l ++ [x; x])).
Proof.
  intros Hne He.
  assert (1 <= length l) by (destruct l; cbn in *; [done|lia]).
  split.
  - apply same_next_same_root; [rewrite length_app; cbn; lia..|].
    by rewrite !next_level_app.
  - destruct (compute_root_next (l ++ [x; x])) as (k & h & Hk & ->); [rewrite length_app; cbn; lia|].
    destruct (compute_root_eq (next_level (l ++ [x; x]))) as (h' & Hh & ->).
    { apply next_level_nonempty. by destruct l. }
    pose proof (merkle_loop_det _ _ _ _ _ Hk Hh) as E. by injection E as ->.
Qed.

(** ** [InMemoryPubSub] *)

Section PubSub.
Context {cb message W : Type} `{EqDecision cb}.
(** Calling a subscriber: what it does to the world, and the exception it raises,
    if any (by its text). *)
Context (call : cb -> message -> M W string unit).

(** [_subscribers] *)
Abbreviation subscribers := (gmap string (list cb)).

Definition subscribe (channel : string) (callback : cb) (s : subscribers) : subscribers :=
  <[channel := default [] (s !! channel) ++ [callback]]> s.

(** Callbacks are compared by identity ([is not]). *)
Definition unsubscribe (channel : string) (callback : cb) (s : subscribers) : subscribers :=
  match s !! channel with
  | None => s
  | Some l =>
      let l' := List.filter (fun c => negb (bool_decide (c = callback))) l in
      match l' with [] => delete channel s | _ => <[channel := l']> s end
  end.

(** [publish]: each callback in turn; an exception is logged and the loop goes on. *)
Fixpoint publish_to (l : list cb) (msg : message) (w : W) : W :=
  match l with
  | [] => w
  | c :: r => publish_to r msg (run_state (call c msg) w)
  end.
Definition publish (s : subscribers) (channel : string) (msg : message) (w : W) : W :=
  match s !! channel with
  | Some l => publish_to l msg w
  | None => w
  end.

Definition subscriber_count (s : subscribers) : gmap string nat := length <$> s.

(** Channels hold at least one callback. *)
Definition channels_live (s : subscribers) : Prop := map_Forall (fun _ l => l <> []) s.

Lemma subscribe_live ch c s : channels_live s -> channels_live (subscribe ch c s).
Proof.
  intros H. apply map_Forall_insert_2; [|done]. cbn. intros Hn. by apply app_nil in Hn as [_ Hn].
Qed.

Lemma unsubscribe_live ch c s : channels_live s -> channels_live (unsubscribe ch c s).
Proof.
  intros H. unfold unsubscribe. destruct (s !! ch) as [l|]; [|done].
  destruct (List.filter _ l) eqn:E; [by apply map_Forall_delete|].
  by apply map_Forall_insert_2.
Qed.

Lemma unsubscribe_lookup ch c s :
  default [] (unsubscribe ch c s !! ch)
  = List.filter (fun x => negb (bool_decide (x = c))) (default [] (s !! ch)).
Proof.
  unfold unsubscribe. destruct (s !! ch) as [l|] eqn:E; [|rewrite E; reflexivity].
  cbn [default]. destruct (List.filter _ l) eqn:F; by simplify_map_eq.
Qed.

Lemma unsubscribe_other ch c s ch' : ch <> ch' -> unsubscribe ch c s !! ch' = s !! ch'.
Proof.
  intros Hne. unfold unsubscribe. destruct (s !! ch); [|done].
  destruct (List.filter _ _); by simplify_map_eq.
Qed.
End PubSub.

(** ** [ReceiptSyncService] *)

Inductive SyncRouteStatus : Type := SUCCESS | FAILED | SKIPPED.

#[export] Instance SyncRouteStatus_eq_dec : EqDecision SyncRouteStatus.
Proof. solve_decision. Defined.

Record SyncResult := {
  result_receipt_id : string;
  pg_status : SyncRouteStatus;
  pubsub_status : SyncRouteStatus;
  merkle_status : SyncRouteStatus;
  anchoring_triggered : bool;
  errors : list string
}.

Definition all_succeeded (r : SyncResult) : bool :=
  forallb (fun s => bool_decide (s = SUCCESS) || bool_decide (s = SKIPPED))
    [pg_status r; pubsub_status r; merkle_status r].

Section Sync.
Context {cb message W : Type} `{EqDecision cb}.
Context (call : cb -> message -> M W string unit).
(** pydantic's [receipt.model_dump(mode="json")] *)
Context (model_dump : UniversalReceipt -> outcome string message).

Record ReceiptSyncService := SyncService {
  pubsub : gmap string (list cb);
  merkle : IncrementalMerkleAccumulator;
  threshold : Z;
  pg_insert_hook : option (UniversalReceipt -> M W string unit);
  task_receipt_count : gmap string Z;
  world : W
}.
Abbreviation MS := (M ReceiptSyncService py_exn).
#[local] Open Scope py_scope.

Definition set_pg_insert_hook (h : UniversalReceipt -> M W string unit) (s : ReceiptSyncService) :
    ReceiptSyncService :=
  SyncService (pubsub s) (merkle s) (threshold s) (Some h) (task_receipt_count s) (world s).

Definition set_world (w : W) (s : ReceiptSyncService) : ReceiptSyncService :=
  SyncService (pubsub s) (merkle s) (threshold s) (pg_insert_hook s) (task_receipt_count s) w.
Definition set_merkle (m : IncrementalMerkleAccumulator) (s : ReceiptSyncService) :
    ReceiptSyncService :=
  SyncService (pubsub s) m (threshold s) (pg_insert_hook s) (task_receipt_count s) (world s).

(** Route 1. *)
Definition route_pg (receipt : UniversalReceipt) : MS (SyncRouteStatus * list string) :=
  let! s := py_get in
  match pg_insert_hook s with
  | None => py_ret (SKIPPED, [])
  | Some hook =>
      let '(w, o) := hook receipt (world s) in
      py_modify (set_world w) ;;;
      match o with
      | Ret _ => py_ret (SUCCESS, [])
      | Raise e => py_ret (FAILED, ["PG: " ++ e]%string)
      end
  end.

(** Route 2. *)
Definition receipt_channel (receipt : UniversalReceipt) : string :=
  ("karma:billing:receipts:" ++ task_id receipt)%string.
Definition route_pubsub (receipt : UniversalReceipt) : MS (SyncRouteStatus * list string) :=
  let! s := py_get in
  match model_dump receipt with
  | Raise e => py_ret (FAILED, ["PubSub: " ++ e]%string)
  | Ret msg =>
      py_modify (set_world (publish call (pubsub s) (receipt_channel receipt) msg (world s))) ;;;
      py_ret (SUCCESS, [])
  end.

(** Route 3: neither [compute_leaf] nor [append] raises. *)
Definition route_merkle (receipt : UniversalReceipt) : MS SyncRouteStatus :=
  let! s := py_get in
  let '(m, _) := merkle_append (compute_leaf receipt) (merkle s) in
  py_modify (set_merkle m) ;;;
  py_ret SUCCESS.

(** The anchoring policy: the count is stored before [count % threshold]. *)
Definition check_anchoring (receipt : UniversalReceipt) : MS bool :=
  let! s := py_get in
  let count := (default 0 (task_receipt_count s !! task_id receipt) + 1)%Z in
  py_modify (fun s => SyncService (pubsub s) (merkle s) (threshold s) (pg_insert_hook s)
                        (<[task_id receipt := count]> (task_receipt_count s)) (world s)) ;;;
  if (threshold s =? 0)%Z then py_raise ZeroDivisionError
  else py_ret (count mod threshold s =? 0)%Z.

(** [sync].  The only suspension point is the awaited hook, which comes first; what
    follows runs without interruption. *)
Definition sync (receipt : UniversalReceipt) : MS SyncResult :=
  let! pg := route_pg receipt in
  let! ps := route_pubsub receipt in
  let! mk := route_merkle receipt in
  let! triggered := check_anchoring receipt in
  py_ret {| result_receipt_id := receipt_id receipt; pg_status := pg.1; pubsub_status := ps.1;
            merkle_status := mk; anchoring_triggered := triggered; errors := pg.2 ++ ps.2 |}.

Definition get_merkle_root (s : ReceiptSyncService) : option string :=
  compute_root (leaves (merkle s)).

(** Syncing a sequence of receipts; the outcomes in order. *)
Fixpoint sync_all (rs : list UniversalReceipt) (s : ReceiptSyncService) :
    ReceiptSyncService * list (outcome py_exn SyncResult) :=
  match rs with
  | [] => (s, [])
  | r :: rest =>
      let '(s1, o) := sync r s in
      let '(s2, os) := sync_all rest s1 in
      (s2, o :: os)
  end.
End Sync.

Arguments ReceiptSyncService : clear implicits.

Section SyncFacts.
Context {cb message W : Type} `{EqDecision cb}.
Context (call : cb -> message -> M W string unit).
Context (model_dump : UniversalReceipt -> outcome string message).
Abbreviation service := (ReceiptSyncService cb W).
Implicit Types (s : service) (r : UniversalReceipt).

(** What the first two routes report. *)
Definition pg_report r s : SyncRouteStatus * list string :=
  match pg_insert_hook s with
  | None => (SKIPPED, [])
  | Some hook => match run_outcome (hook r) (world s) with
                 | Ret _ => (SUCCESS, [])
                 | Raise e => (FAILED, ["PG: " ++ e]%string)
                 end
  end.
Definition pubsub_report r : SyncRouteStatus * list string :=
  match model_dump r with
  | Ret _ => (SUCCESS, [])
  | Raise e => (FAILED, ["PubSub: " ++ e]%string)
  end.

Definition next_count r s : Z := (default 0 (task_receipt_count s !! task_id r) + 1)%Z.

Lemma sync_cases r s :
  exists w,
    sync call model_dump r s
    = (SyncService (pubsub s) (Merkle (leaves (merkle s) ++ [compute_leaf r]) (anchor_count (merkle s)))
         (threshold s) (pg_insert_hook s) (<[task_id r := next_count r s]> (task_receipt_count s)) w,
       if (threshold s =? 0)%Z then Raise ZeroDivisionError
       else Ret {| result_receipt_id := receipt_id r; pg_status := (pg_report r s).1;
                   pubsub_status := (pubsub_report r).1; merkle_status := SUCCESS;
                   anchoring_triggered := (next_count r s mod threshold s =? 0)%Z;
                   errors := (pg_report r s).2 ++ (pubsub_report r).2 |}).
Proof.
  destruct s as [ps mk th hook cnt w0].
  unfold sync, route_pg, route_pubsub, route_merkle, check_anchoring, pg_report, pubsub_report,
    next_count, run_outcome, py_bind, py_get, py_modify, py_ret, py_raise. cbn.
  destruct hook as [h|]; cbn; [destruct (h r w0) as [w1 [?|?]]; cbn|];
    destruct (model_dump r); cbn; destruct (th =? 0)%Z; cbn; eexists; reflexivity.
Qed.

(** The three routes of [sync] are independent: whatever the hook and the
    message serialisation do, the Merkle leaf is appended and the receipt counted;
    each failure is reported under its own route; and [sync] itself raises only
    [ZeroDivisionError], for a service built with threshold zero. *)
Theorem sync_routes_independent r s :
  let (s', o) := sync call model_dump r s in
  leaves (merkle s') = leaves (merkle s) ++ [compute_leaf r]
  /\ anchor_count (merkle s') = anchor_count (merkle s)
  /\ task_receipt_count s' = <[task_id r := next_count r s]> (task_receipt_count s)
  /\ match o with
     | Raise e => threshold s = 0%Z /\ e = ZeroDivisionError
     | Ret res =>
         merkle_status res = SUCCESS
         /\ (pg_status res, pubsub_status res) = ((pg_report r s).1, (pubsub_report r).1)
         /\ (all_succeeded res = true <-> errors res = [])
         /\ (anchoring_triggered res = true <-> (threshold s | next_count r s)%Z)
     end.
Proof.
  destruct (sync_cases r s) as [w ->]. cbn. repeat (split; [done|]).
  destruct (Z.eqb_spec (threshold s) 0) as [Hz|Hz]; [done|]. cbn. repeat (split; [done|]). split.
  - unfold pg_report, pubsub_report.
    destruct (pg_insert_hook s) as [h|]; [destruct (run_outcome (h r) (world s))|];
      destruct (model_dump r); done.
  - rewrite Z.eqb_eq. apply Z.mod_divide. done.
Qed.

(** The anchors a run triggers for one task. *)
Definition triggered (o : outcome py_exn SyncResult) : bool :=
  match o with Ret res => anchoring_triggered res | Raise _ => false end.
Definition is_task (t : string) r : bool := str_eqb (task_id r) t.
Fixpoint triggers (t : string) (rs : list UniversalReceipt) (os : list (outcome py_exn SyncResult)) : Z :=
  match rs, os with
  | r :: rs, o :: os => ((if is_task t r && triggered o then 1 else 0) + triggers t rs os)%Z
  | _, _ => 0%Z
  end.
Definition receipts_of (t : string) (rs : list UniversalReceipt) : Z :=
  Z.of_nat (length (List.filter (is_task t) rs)).

#[local] Ltac Zify.zify_post_hook ::= Z.to_euclidean_division_equations.
Lemma div_succ c n : (0 < n ->
  (c + 1) / n = c / n + (if (c + 1) mod n =? 0 then 1 else 0))%Z.
Proof.
  intros Hn. set (q := ((c + 1) / n)%Z). pose proof (Z.div_mod (c + 1) n ltac:(lia)) as H1.
  pose proof (Z.div_mod c n ltac:(lia)) as H2.
  pose proof (Z.mod_pos_bound (c + 1) n Hn). pose proof (Z.mod_pos_bound c n Hn). fold q in H1.
  destruct (Z.eqb_spec ((c + 1) mod n) 0) as [E|E]; clear -Hn H1 H2 H H0 E; nia.
Qed.

(** Over any run of a service with a positive threshold, every call returns,
    the accumulator holds the receipts' leaves in order, and the anchors triggered
    for a task are exactly the multiples of the threshold its receipt count
    crosses. *)
Theorem anchoring_every_nth rs s t :
  (0 < threshold s)%Z ->
  let c := default 0%Z (task_receipt_count s !! t) in
  let (s', os) := sync_all call model_dump rs s in
  forallb is_ret os = true /\ length os = length rs
  /\ leaves (merkle s') = leaves (merkle s) ++ map compute_leaf rs
  /\ triggers t rs os = ((c + receipts_of t rs) / threshold s - c / threshold s)%Z.
Proof.
  revert s. induction rs as [|r rs IH]; intros s Hpos; cbn [sync_all].
  - unfold receipts_of. cbn. rewrite app_nil_r, Z.add_0_r, Z.sub_diag. done.
  - destruct (sync_cases r s) as [w ->].
    destruct (Z.eqb_spec (threshold s) 0) as [|_]; [lia|].
    match goal with |- context [sync_all _ _ rs ?s1] => specialize (IH s1 Hpos) end.
    cbn [threshold task_receipt_count merkle leaves] in IH.
    destruct (sync_all call model_dump rs _) as [s' os]. destruct IH as (Hr & Hl & Hm & Ht).
    repeat split; [done|cbn; lia|by rewrite Hm, <- app_assoc|].
    cbn [triggers triggered anchoring_triggered]. rewrite Ht. clear Ht Hm.
    unfold receipts_of, is_task, str_eqb, next_count. cbn [List.filter].
    destruct (decide (task_id r = t)) as [->|Hne].
    + rewrite bool_decide_true by done. rewrite lookup_insert_eq. cbn [from_option id andb length].
      rewrite Nat2Z.inj_succ, <- Z.add_1_l, Z.add_assoc.
      pose proof (div_succ (default 0%Z (task_receipt_count s !! t)) (threshold s) Hpos) as E.
      destruct (_ =? 0)%Z; rewrite E; lia.
    + rewrite bool_decide_false by done. rewrite lookup_insert_ne by done. cbn [andb]. lia.
Qed.
End SyncFacts.

(** ** Witnesses *)

Section Examples.
#[local] Definition leaf (n : Z) : bytes := repeat n 32.

Lemma leaf_digest n : byte_ok n -> is_digest (leaf n).
Proof. intros H. split; [apply repeat_length|]. apply Forall_forall. by intros x ->%list_elem_of_In%repeat_spec. Qed.

Lemma merkle_root_binding_witness :
  [leaf 1; leaf 2; leaf 3] = [leaf 1; leaf 2; leaf 3]
  \/ collision_between (root_inputs [leaf 1; leaf 2; leaf 3]) (root_inputs [leaf 1; leaf 2; leaf 3]).
Proof.
  apply (merkle_root_binding [leaf 1; leaf 2; leaf 3] [leaf 1; leaf 2; leaf 3]); [reflexivity| | |reflexivity];
    repeat (apply Forall_cons_2; [apply leaf_digest; unfold byte_ok; lia|]); apply Forall_nil_2.
Defined.

Lemma merkle_root_not_injective_witness :
  compute_root [leaf 1; leaf 2; leaf 3] = compute_root [leaf 1; leaf 2; leaf 3; leaf 3]
  /\ compute_root [leaf 1; leaf 2; leaf 3; leaf 3]
     = compute_root (next_level [leaf 1; leaf 2; leaf 3; leaf 3]).
Proof.
  apply (merkle_root_not_injective [leaf 1; leaf 2] (leaf 3)); [discriminate|by exists 1].
Defined.

#[local] Definition example_receipt (t : string) : UniversalReceipt :=
  {| receipt_id := "r"; task_id := t; scenario := S1_DELEGATION; step_index := 0;
     generator_did := "g"; buyer_did := "b"; seller_did := "s";
     receipt_type := S1_INTENT_CREATED; input_hash := ""; output_hash := "";
     payload_hash := ""; created_at := 0; execution_duration_ms := 0;
     parent_receipt_id := None; previous_payload_hash := None;
     scenario_data := Some [("k", JInt 1)]; status := GENERATED; signature := "";
     signature_algorithm := "EIP712"; anchor_tx := None; anchor_leaf_index := None;
     anchor_root := None |}.
#[local] Definition example_service : ReceiptSyncService nat unit :=
  SyncService ∅ (Merkle [] 0) 2 None ∅ tt.
#[local] Definition no_call : nat -> unit -> M unit string unit := fun _ _ => py_ret tt.
#[local] Definition dump_unit : UniversalReceipt -> outcome string unit := fun _ => Ret tt.

Lemma anchoring_every_nth_witness :
  let rs := [example_receipt "t"; example_receipt "u"; example_receipt "t"; example_receipt "t"] in
  let (s', os) := sync_all no_call dump_unit rs example_service in
  forallb is_ret os = true /\ length os = length rs
  /\ leaves (merkle s') = leaves (merkle example_service) ++ map compute_leaf rs
  /\ triggers "t" rs os = ((0 + receipts_of "t" rs) / 2 - 0 / 2)%Z.
Proof.
  apply (anchoring_every_nth no_call dump_unit
           [example_receipt "t"; example_receipt "u"; example_receipt "t"; example_receipt "t"]
           example_service "t").
  reflexivity.
Defined.
End Examples.
