(* ===== verification/BillingBridge.v ===== *)
(** * The anchoring bridge ([packages/karma_billing/bridge.py])

    [ReceiptSync] is the source's abstract interface of a receipt store and
    [SimpleMemReceiptSync] its in-memory implementation.  The bridge decides from
    its policy when a task's unanchored receipts go to the anchor client, a
    package outside the repository, which is the parameter [append_batch].
    [start_periodic_check] repeats [check_and_anchor]; [create_bridge] imports the
    external client. *)

From S2P Require Import Prelude PyBytes PyJson PyFloat.
#[local] Open Scope string_scope.
#[local] Open Scope list_scope.

(** ** Policy and receipts *)

Record AnchoringPolicy := {
  anchor_every_n_receipts : Z;
  anchor_every_n_seconds : Z;
  anchor_on_state_change : bool;
  anchor_on_milestone : bool;
  force_anchor_states : list string;
  max_batch_size : Z;
  min_batch_size : Z
}.

Definition default_policy : AnchoringPolicy :=
  {| anchor_every_n_receipts := 3; anchor_every_n_seconds := 30;
     anchor_on_state_change := true; anchor_on_milestone := true;
     force_anchor_states := ["funded"; "delivered"; "verified"; "settled"; "disputed"; "frozen"];
     max_batch_size := 10; min_batch_size := 1 |}.

(** A receipt dictionary: its ["id"] entry, if any, and the other items. *)
Record bridge_receipt := BridgeReceipt {
  rid : option string;
  rbody : list (string * json)
}.

(** ** The sync interface and its in-memory implementation *)

Class ReceiptSync (T : Type) := {
  get_unanchored_receipts : T -> string -> Z -> list bridge_receipt;
  get_task_state : T -> string -> string;
  sync_mark_anchored : string -> list string -> T -> T
}.

Record SimpleMemReceiptSync := SimpleMem {
  receipts : gmap string (list bridge_receipt);
  task_state : gmap string string;
  anchored : gmap string (gset string)
}.

Definition empty_sync : SimpleMemReceiptSync := SimpleMem ∅ ∅ ∅.

Definition add_receipt (t : string) (r : bridge_receipt) (m : SimpleMemReceiptSync) :
    SimpleMemReceiptSync :=
  SimpleMem (<[t := default [] (receipts m !! t) ++ [r]]> (receipts m)) (task_state m) (anchored m).

Definition mem_set_state (t s : string) (m : SimpleMemReceiptSync) : SimpleMemReceiptSync :=
  SimpleMem (receipts m) (<[t := s]> (task_state m)) (anchored m).

(** [r.get("id", f"rec-{i}")] *)
Definition key_of (i : nat) (r : bridge_receipt) : string :=
  match rid r with Some x => x | None => "rec-" ++ py_str_int (Z.of_nat i) end.

Fixpoint unanchored_from (i : nat) (l : list bridge_receipt) (done : gset string) :
    list bridge_receipt :=
  match l with
  | [] => []
  | r :: rest =>
      if bool_decide (key_of i r ∈ done) then unanchored_from (S i) rest done
      else r :: unanchored_from (S i) rest done
  end.

(** Every receipt of a task that counts as unanchored. *)
Definition pending (m : SimpleMemReceiptSync) (t : string) : list bridge_receipt :=
  unanchored_from 0 (default [] (receipts m !! t)) (default ∅ (anchored m !! t)).

Definition mem_get_unanchored (m : SimpleMemReceiptSync) (t : string) (limit : Z) :
    list bridge_receipt := py_upto limit (pending m t).

Definition mem_get_task_state (m : SimpleMemReceiptSync) (t : string) : string :=
  default "unknown" (task_state m !! t).

Definition mem_mark_anchored (t : string) (ids : list string) (m : SimpleMemReceiptSync) :
    SimpleMemReceiptSync :=
  SimpleMem (receipts m) (task_state m)
    (<[t := list_to_set ids ∪ default ∅ (anchored m !! t)]> (anchored m)).

#[export] Instance SimpleMem_sync : ReceiptSync SimpleMemReceiptSync :=
  {| get_unanchored_receipts := mem_get_unanchored;
     get_task_state := mem_get_task_state;
     sync_mark_anchored := mem_mark_anchored |}.

(** ** The bridge *)

Section Bridge.
Context {T : Type} `{ReceiptSync T}.
(** The anchor client: its state, its errors and its results. *)
Context {W E R : Type} (append_batch : list bridge_receipt -> M W E R).

Record AnchoringState := Anchoring {
  unanchored_count : Z;
  last_anchor_time : float;
  last_state : string;
  total_anchored : Z;
  last_result : option R
}.

Definition fresh_state : AnchoringState := Anchoring 0 fzero "" 0 None.

Record AnchoringBridge := Bridge {
  bsync : T;
  client : W;
  policy : AnchoringPolicy;
  states : gmap string AnchoringState
}.
Abbreviation MB := (M AnchoringBridge E).
#[local] Open Scope py_scope.

Definition get_state (b : AnchoringBridge) (t : string) : option AnchoringState := states b !! t.

Definition put_state (t : string) (s : AnchoringState) (b : AnchoringBridge) : AnchoringBridge :=
  Bridge (bsync b) (client b) (policy b) (<[t := s]> (states b)).

(** The call of the client; an exception propagates. *)
Definition call_append (l : list bridge_receipt) : MB R :=
  fun b => let '(w, o) := append_batch l (client b) in
           (Bridge (bsync b) w (policy b) (states b), o).

(** [_do_anchor]; [now] is the clock after the batch was accepted. *)
Definition do_anchor (t : string) (l : list bridge_receipt) (now : float) : MB (option R) :=
  match l with
  | [] => py_ret None
  | _ =>
      let! result := call_append l in
      py_modify (fun b =>
        let s := default fresh_state (states b !! t) in
        let ids := map (fun r => default "" (rid r)) l in
        put_state t (Anchoring 0 now (last_state s) (total_anchored s + Z.of_nat (length l))
                       (Some result))
          (Bridge (sync_mark_anchored t ids (bsync b)) (client b) (policy b) (states b))) ;;;
      py_ret (Some result)
  end.

Definition force_anchor (t : string) (now : float) : MB (option R) :=
  let! b := py_get in
  match get_unanchored_receipts (bsync b) t (max_batch_size (policy b)) with
  | [] => py_ret None
  | l => do_anchor t l now
  end.

(** The triggers that come after the force and milestone checks. *)
Definition count_trigger (p : AnchoringPolicy) (n : Z) : bool :=
  ((0 <? anchor_every_n_receipts p) && (anchor_every_n_receipts p <=? n))%Z.
Definition time_trigger (p : AnchoringPolicy) (s : AnchoringState) (n : Z) (now : float) : bool :=
  (0 <? anchor_every_n_seconds p)%Z && fgtb (last_anchor_time s) fzero
  && fgeb (fsub now (last_anchor_time s)) (float_of_int (anchor_every_n_seconds p))
  && (min_batch_size p <=? n)%Z.

(** [check_and_anchor]; [now] and [now'] are the clock at the time check and after
    the batch was accepted. *)
Definition check_and_anchor (t : string) (now now' : float) : MB (option R) :=
  py_modify (fun b => match states b !! t with
                      | Some _ => b
                      | None => put_state t fresh_state b
                      end) ;;;
  let! b := py_get in
  let s := default fresh_state (states b !! t) in
  let p := policy b in
  let current_state := get_task_state (bsync b) t in
  let state_changed := negb (str_eqb current_state (last_state s)) in
  if state_changed && str_mem current_state (force_anchor_states p) then force_anchor t now'
  else if anchor_on_milestone p && state_changed && str_mem current_state (force_anchor_states p)
  then force_anchor t now'
  else
    let l := get_unanchored_receipts (bsync b) t (max_batch_size p) in
    let n := Z.of_nat (length l) in
    let s' := Anchoring n (last_anchor_time s) current_state (total_anchored s) (last_result s) in
    py_modify (put_state t s') ;;;
    if count_trigger p n then do_anchor t l now'
    else if time_trigger p s n now then do_anchor t l now'
    else if anchor_on_state_change p && state_changed then do_anchor t l now'
    else py_ret None.
End Bridge.
Arguments AnchoringBridge : clear implicits.
Arguments AnchoringState : clear implicits.

(** ** Helpers of the module *)

(** [_str_to_fixed_bytes] *)
Definition str_to_fixed_bytes (s : string) (length : Z) : bytes :=
  let b := py_upto length (utf8 s) in
  b ++ repeat 0%Z (Z.to_nat length - List.length b).

(** [_serialize_receipt] *)
Definition serialize_receipt (receipt : list (string * json)) : bytes :=
  utf8 (dumps spaced_sorted (JObj receipt)).

Lemma length_fixed_bytes s n :
  (0 <= n)%Z -> List.length (str_to_fixed_bytes s n) = Z.to_nat n.
Proof.
  intros Hn. unfold str_to_fixed_bytes, py_upto, py_index.
  rewrite length_app, repeat_length, length_take. destruct (Z.ltb_spec n 0); lia.
Qed.

(** ** The decision *)

Section BridgeFacts.
Context {T : Type} `{ReceiptSync T}.
Context {W E R : Type} (append_batch : list bridge_receipt -> M W E R).
Abbreviation bridge := (AnchoringBridge T W R).
Implicit Types (b : bridge) (t : string) (now : float).

Definition with_milestone (v : bool) b : bridge :=
  let p := policy b in
  Bridge (bsync b) (client b)
    {| anchor_every_n_receipts := anchor_every_n_receipts p;
       anchor_every_n_seconds := anchor_every_n_seconds p;
       anchor_on_state_change := anchor_on_state_change p; anchor_on_milestone := v;
       force_anchor_states := force_anchor_states p; max_batch_size := max_batch_size p;
       min_batch_size := min_batch_size p |}
    (states b).

Lemma do_anchor_milestone v t l now b :
  do_anchor append_batch t l now (with_milestone v b)
  = (with_milestone v (run_state (do_anchor append_batch t l now) b),
     run_outcome (do_anchor append_batch t l now) b).
Proof.
  unfold do_anchor, call_append, run_state, run_outcome, py_bind, py_modify, py_ret.
  destruct l as [|r l]; [done|]. cbn [client with_milestone].
  destruct (append_batch (r :: l) (client b)) as [w [res|e]]; done.
Qed.

Lemma force_anchor_milestone v t now b :
  force_anchor append_batch t now (with_milestone v b)
  = (with_milestone v (run_state (force_anchor append_batch t now) b),
     run_outcome (force_anchor append_batch t now) b).
Proof.
  unfold force_anchor, run_state, run_outcome, py_bind, py_get. cbn [policy bsync with_milestone max_batch_size].
  destruct (get_unanchored_receipts (bsync b) t (max_batch_size (policy b))) as [|r l]; [done|].
  apply do_anchor_milestone.
Qed.

(** The policy's [anchor_on_milestone] flag has no effect: whatever its value,
    [check_and_anchor] decides, submits and records the same. *)
Theorem milestone_flag_inert v t now now' b :
  check_and_anchor append_batch t now now' (with_milestone v b)
  = (with_milestone v (run_state (check_and_anchor append_batch t now now') b),
     run_outcome (check_and_anchor append_batch t now now') b).
Proof.
  unfold check_and_anchor, run_state, run_outcome, py_bind, py_modify, py_get.
  set (b1 := match states b !! t with Some _ => b | None => put_state t fresh_state b end).
  assert (Hb1 : match states (with_milestone v b) !! t with
                | Some _ => with_milestone v b
                | None => put_state t fresh_state (with_milestone v b)
                end = with_milestone v b1).
  { subst b1. cbn [states with_milestone]. by destruct (states b !! t). }
  rewrite Hb1. clear Hb1. generalize b1. clear b b1. intros b.
  cbn [policy bsync states with_milestone anchor_on_milestone force_anchor_states max_batch_size].
  set (s := default fresh_state (states b !! t)).
  set (cur := get_task_state (bsync b) t).
  destruct (negb (str_eqb cur (last_state s)) && str_mem cur (force_anchor_states (policy b))) eqn:Hf.
  { apply force_anchor_milestone. }
  assert (Hf' : forall x, x && negb (str_eqb cur (last_state s))
                    && str_mem cur (force_anchor_states (policy b)) = false)
    by (intros x; rewrite <- andb_assoc, Hf; apply andb_false_r).
  rewrite !Hf'.
  set (l := get_unanchored_receipts (bsync b) t (max_batch_size (policy b))).
  set (s' := Anchoring _ _ _ _ _).
  change (put_state t s' (with_milestone v b)) with (with_milestone v (put_state t s' b)).
  unfold count_trigger, time_trigger. cbn [anchor_every_n_receipts anchor_every_n_seconds
    anchor_on_state_change min_batch_size].
  destruct ((0 <? anchor_every_n_receipts (policy b)) && _)%Z; [apply do_anchor_milestone|].
  destruct ((0 <? anchor_every_n_seconds (policy b))%Z && _ && _ && _); [apply do_anchor_milestone|].
  destruct (anchor_on_state_change (policy b) && _); [apply do_anchor_milestone|done].
Qed.
End BridgeFacts.

(** ** The bridge over the in-memory receipts *)

(** An anchor client that records what it accepts and fails on demand. *)
Record recorder := Recorder {
  accepted : list (list bridge_receipt);
  faults : list bool
}.
Definition record_batch (l : list bridge_receipt) : M recorder string unit :=
  fun w => match faults w with
           | true :: fs => (Recorder (accepted w) fs, Raise "client error")
           | _ :: fs => (Recorder (accepted w ++ [l]) fs, Ret tt)
           | [] => (Recorder (accepted w ++ [l]) [], Ret tt)
           end.

Abbreviation mem_bridge := (AnchoringBridge SimpleMemReceiptSync recorder unit).

Definition new_bridge (p : AnchoringPolicy) (faults : list bool) : mem_bridge :=
  Bridge empty_sync (Recorder [] faults) p ∅.

(** What happens to one task. *)
Inductive bridge_op : Type :=
| AddReceipt (r : bridge_receipt)
| SetState (s : string)
| CheckAndAnchor (now now' : float)
| ForceAnchor (now : float).

Definition on_sync (f : SimpleMemReceiptSync -> SimpleMemReceiptSync) (b : mem_bridge) : mem_bridge :=
  Bridge (f (bsync b)) (client b) (policy b) (states b).

Definition bridge_step (t : string) (op : bridge_op) (b : mem_bridge) : mem_bridge :=
  match op with
  | AddReceipt r => on_sync (add_receipt t r) b
  | SetState s => on_sync (mem_set_state t s) b
  | CheckAndAnchor now now' => run_state (check_and_anchor record_batch t now now') b
  | ForceAnchor now => run_state (force_anchor record_batch t now) b
  end.
Definition bridge_run (t : string) (ops : list bridge_op) (b : mem_bridge) : mem_bridge :=
  fold_left (fun b op => bridge_step t op b) ops b.

Definition added (ops : list bridge_op) : list bridge_receipt :=
  omap (fun op => match op with AddReceipt r => Some r | _ => None end) ops.

Definition has_id (r : bridge_receipt) : Prop := is_Some (rid r).
Definition id_of (r : bridge_receipt) : string := default "" (rid r).

Lemma key_of_id i r : has_id r -> key_of i r = id_of r.
Proof. intros [x Hx]. unfold key_of, id_of. by rewrite Hx. Qed.

Lemma unanchored_skip i pre rest d :
  Forall has_id pre -> (forall r, r ∈ pre -> id_of r ∈ d) ->
  unanchored_from i (pre ++ rest) d = unanchored_from (i + length pre) rest d.
Proof.
  revert i. induction pre as [|r pre IH]; intros i Hid Hd; cbn.
  - by rewrite Nat.add_0_r.
  - inversion Hid as [|? ? Hr Hpre]; subst. rewrite (key_of_id i r Hr).
    rewrite bool_decide_true by (apply Hd; left).
    rewrite IH; [f_equal; lia|done|]. intros x Hx. apply Hd. by right.
Qed.

Lemma unanchored_keep i rest d :
  Forall has_id rest -> (forall r, r ∈ rest -> id_of r ∉ d) -> unanchored_from i rest d = rest.
Proof.
  revert i. induction rest as [|r rest IH]; intros i Hid Hd; [done|]. cbn.
  inversion Hid as [|? ? Hr Hrest]; subst. rewrite (key_of_id i r Hr).
  rewrite bool_decide_false by (apply Hd; left).
  rewrite IH; [done|done|]. intros x Hx. apply Hd. by right.
Qed.

(** The receipts of the task are those the client accepted, in order, followed by
    [rest]; the anchored set holds exactly the accepted ids. *)
Record exactly_once (t : string) (b : mem_bridge) (rest : list bridge_receipt) : Prop := {
  eo_receipts : default [] (receipts (bsync b) !! t) = concat (accepted (client b)) ++ rest;
  eo_anchored : default ∅ (anchored (bsync b) !! t)
                = (list_to_set (map id_of (concat (accepted (client b)))) : gset string);
  eo_sizes : Forall (fun l => l <> [] /\ (Z.of_nat (length l) <= max_batch_size (policy b))%Z)
               (accepted (client b))
}.

Definition distinct_ids (l : list bridge_receipt) : Prop := Forall has_id l /\ NoDup (map id_of l).

Lemma pending_rest t b rest :
  exactly_once t b rest -> distinct_ids (concat (accepted (client b)) ++ rest) ->
  pending (bsync b) t = rest.
Proof.
  intros [Hr Ha _] [Hid Hnd]. unfold pending. rewrite Hr, Ha. clear Hr Ha.
  apply Forall_app in Hid as [Hid1 Hid2].
  rewrite map_app in Hnd. apply NoDup_app in Hnd as (_ & Hdisj & _).
  rewrite unanchored_skip; [|done|].
  - apply unanchored_keep; [done|]. intros r Hr Hin. apply elem_of_list_to_set in Hin.
    apply (Hdisj _ Hin), list_elem_of_fmap_2. done.
  - intros r Hr. apply elem_of_list_to_set. by apply list_elem_of_fmap_2.
Qed.

Lemma py_upto_prefix {A} i (l : list A) : exists r, l = py_upto i l ++ r.
Proof. exists (drop (py_index i l) l). symmetry. apply take_drop. Qed.

Lemma py_upto_length {A} i (l : list A) :
  (0 <= i)%Z -> (Z.of_nat (length (py_upto i l)) <= i)%Z.
Proof.
  intros Hi. unfold py_upto, py_index. rewrite length_take. destruct (Z.ltb_spec i 0); lia.
Qed.

(** A batch that starts the rest moves to the accepted side, or nothing changes. *)
Lemma do_anchor_exact t now b l rest :
  exactly_once t b (l ++ rest) -> (Z.of_nat (length l) <= max_batch_size (policy b))%Z ->
  let b' := run_state (do_anchor record_batch t l now) b in
  policy b' = policy b /\ receipts (bsync b') = receipts (bsync b)
  /\ (exactly_once t b' (l ++ rest) \/ exactly_once t b' rest).
Proof.
  intros [Hr Ha Hs] Hl. destruct l as [|r l]; [cbn; split; [done|]; split; [done|]; by left; split|].
  set (batch := r :: l) in *. assert (Hne : batch <> []) by done.
  assert (Hok : exactly_once t
    (put_state t (Anchoring 0 now (last_state (default fresh_state (states b !! t)))
        (total_anchored (default fresh_state (states b !! t)) + Z.of_nat (length batch)) (Some tt))
       (Bridge (mem_mark_anchored t (map (fun r => default "" (rid r)) batch) (bsync b))
          (Recorder (accepted (client b) ++ [batch]) (tl (faults (client b)))) (policy b) (states b)))
    rest).
  { split; cbn.
    - rewrite Hr, concat_app. cbn [concat]. by rewrite app_nil_r, <- !app_assoc.
    - rewrite lookup_insert_eq. cbn [from_option id]. rewrite Ha, concat_app, map_app, list_to_set_app_L.
      cbn [concat]. rewrite app_nil_r. apply union_comm_L.
    - apply Forall_app. split; [done|]. by apply Forall_singleton. }
  unfold do_anchor. subst batch. cbn iota.
  unfold run_state, py_bind, call_append, record_batch, py_modify, py_ret.
  destruct (faults (client b)) as [|[] fs] eqn:Hf.
  - cbn in *. auto.
  - cbn. split; [done|]. split; [done|]. left. split; cbn; auto.
  - cbn in *. auto.
Qed.

Lemma upto_exact t b rest :
  exactly_once t b rest -> distinct_ids (concat (accepted (client b)) ++ rest) ->
  (0 <= max_batch_size (policy b))%Z ->
  exists rest', rest = mem_get_unanchored (bsync b) t (max_batch_size (policy b)) ++ rest'
    /\ (Z.of_nat (length (mem_get_unanchored (bsync b) t (max_batch_size (policy b))))
        <= max_batch_size (policy b))%Z.
Proof.
  intros He Hd Hm. unfold mem_get_unanchored. rewrite (pending_rest t b rest He Hd).
  destruct (py_upto_prefix (max_batch_size (policy b)) rest) as [r Hr].
  exists r. split; [done|]. by apply py_upto_length.
Qed.

(** What every operation preserves, [all] being the receipts of the task. *)
Definition bridge_inv (t : string) (all : list bridge_receipt) (b : mem_bridge) : Prop :=
  (0 <= max_batch_size (policy b))%Z /\ default [] (receipts (bsync b) !! t) = all
  /\ exists rest, exactly_once t b rest.

Lemma do_anchor_inv t all now b :
  bridge_inv t all b -> distinct_ids all ->
  bridge_inv t all (run_state (do_anchor record_batch t
    (mem_get_unanchored (bsync b) t (max_batch_size (policy b))) now) b).
Proof.
  intros (Hm & Hall & rest & He) Hd.
  assert (Hd' : distinct_ids (concat (accepted (client b)) ++ rest))
    by (rewrite <- (eo_receipts _ _ _ He), Hall; done).
  destruct (upto_exact t b rest He Hd' Hm) as (rest' & Hrest & Hlen).
  set (l := mem_get_unanchored _ _ _) in *. rewrite Hrest in He.
  destruct (do_anchor_exact t now b l rest' He Hlen) as (Hp & Hrc & Hor).
  split; [by rewrite Hp|]. split; [by rewrite Hrc|].
  destruct Hor as [H1|H1]; eauto.
Qed.

Lemma force_anchor_inv t all now b :
  bridge_inv t all b -> distinct_ids all ->
  bridge_inv t all (run_state (force_anchor record_batch t now) b).
Proof.
  intros Hi Hd. pose proof (do_anchor_inv t all now b Hi Hd) as Ha.
  unfold force_anchor, run_state, py_bind, py_get in *. cbn [get_unanchored_receipts SimpleMem_sync].
  destruct (mem_get_unanchored _ _ _) as [|r l]; done.
Qed.

Lemma put_state_inv t all s b : bridge_inv t all b -> bridge_inv t all (put_state t s b).
Proof. intros (Hm & Ha & rest & [H1 H2 H3]). split; [done|]. split; [done|]. by exists rest. Qed.

Lemma check_inv t all now now' b :
  bridge_inv t all b -> distinct_ids all ->
  bridge_inv t all (run_state (check_and_anchor record_batch t now now') b).
Proof.
  intros Hi Hd. unfold check_and_anchor, run_state, py_bind, py_modify, py_get.
  set (b1 := match states b !! t with Some _ => b | None => put_state t fresh_state b end).
  assert (H1 : bridge_inv t all b1).
  { subst b1. destruct (states b !! t); [done|]. by apply put_state_inv. }
  clearbody b1. clear Hi b. cbn [get_unanchored_receipts SimpleMem_sync].
  destruct (negb _ && _); [by apply force_anchor_inv|].
  destruct (anchor_on_milestone _ && _ && _); [by apply force_anchor_inv|].
  set (s' := Anchoring _ _ _ _ _).
  pose proof (do_anchor_inv t all now' _ (put_state_inv t all s' b1 H1) Hd) as Ha.
  destruct (count_trigger _ _); [exact Ha|]. destruct (time_trigger _ _ _ _); [exact Ha|].
  destruct (anchor_on_state_change _ && _); [exact Ha|]. by apply put_state_inv.
Qed.

Lemma add_inv t all r b :
  bridge_inv t all b -> bridge_inv t (all ++ [r]) (on_sync (add_receipt t r) b).
Proof.
  intros (Hm & Ha & rest & [H1 H2 H3]). split; [done|]. cbn. rewrite lookup_insert_eq. cbn [from_option id].
  split; [by rewrite Ha|]. exists (rest ++ [r]). split; cbn.
  - rewrite lookup_insert_eq. cbn [from_option id]. by rewrite H1, <- app_assoc.
  - done.
  - done.
Qed.

Lemma distinct_prefix l r : distinct_ids (l ++ r) -> distinct_ids l.
Proof.
  intros [H1 H2]. apply Forall_app in H1 as [H1 _]. rewrite map_app in H2.
  apply NoDup_app in H2 as [H2 _]. done.
Qed.

Lemma run_bridge_inv t ops : forall all b,
  bridge_inv t all b -> distinct_ids (all ++ added ops) ->
  bridge_inv t (all ++ added ops) (bridge_run t ops b).
Proof.
  induction ops as [|op ops IH]; intros all b Hi Hd.
  { cbn. by rewrite app_nil_r. }
  change (bridge_run t (op :: ops) b) with (bridge_run t ops (bridge_step t op b)).
  destruct op as [r|s|now now'|now].
  - assert (E : all ++ added (AddReceipt r :: ops) = (all ++ [r]) ++ added ops)
      by by rewrite <- app_assoc.
    rewrite E in *. apply IH; [|done]. by apply add_inv.
  - apply (IH all); [|done]. destruct Hi as (Hm & Ha & rest & [H1 H2 H3]). split; [done|].
    split; [done|]. by exists rest.
  - apply (IH all); [|done]. apply check_inv; [done|]. by eapply distinct_prefix.
  - apply (IH all); [|done]. apply force_anchor_inv; [done|]. by eapply distinct_prefix.
Qed.

(** C35. Receipts are anchored exactly once and in order.  Whatever sequence of
    additions, state changes, checks and forced anchors runs, and whichever calls
    of the client fail, the batches it accepted concatenate to a prefix of the
    task's receipts, the receipts still pending are exactly the remainder, and no
    batch is empty or larger than [max_batch_size], as long as every receipt
    carries a distinct id and the calls for the task follow one another
    ([overlapping_anchors_duplicate] is why). *)
Theorem bridge_exactly_once t p faults ops :
  (0 <= max_batch_size p)%Z -> distinct_ids (added ops) ->
  let b := bridge_run t ops (new_bridge p faults) in
  concat (accepted (client b)) ++ pending (bsync b) t = added ops
  /\ Forall (fun l => l <> [] /\ (Z.of_nat (length l) <= max_batch_size (policy b))%Z)
       (accepted (client b)).
Proof.
  intros Hm Hd b.
  assert (H0 : bridge_inv t [] (new_bridge p faults)).
  { split; [done|]. split; [done|]. exists []. split; cbn; [done|set_solver|constructor]. }
  destruct (run_bridge_inv t ops [] _ H0 Hd) as (_ & Hall & rest & He). cbn [app] in Hall.
  fold b in Hall, He. rewrite (pending_rest t b rest He).
  - split; [by rewrite <- (eo_receipts _ _ _ He)|]. apply (eo_sizes _ _ _ He).
  - by rewrite <- (eo_receipts _ _ _ He), Hall.
Qed.

(** The policy never changes, and a client without faults stays so. *)
Definition client_frame (b b' : mem_bridge) : Prop :=
  policy b' = policy b /\ (faults (client b) = [] -> faults (client b') = []).

Lemma do_anchor_frame t l now b : client_frame b (run_state (do_anchor record_batch t l now) b).
Proof.
  unfold do_anchor, run_state, py_bind, call_append, record_batch, py_modify, py_ret, client_frame.
  destruct l; [done|]. destruct (faults (client b)) as [|[] fs]; cbn; auto; done.
Qed.

Lemma bridge_step_frame t op b : client_frame b (bridge_step t op b).
Proof.
  assert (Hforce : forall now b, client_frame b (run_state (force_anchor record_batch t now) b)).
  { intros now b1. pose proof (do_anchor_frame t) as Hd.
    unfold force_anchor, run_state, py_bind, py_get in *.
    destruct (get_unanchored_receipts _ _ _) eqn:E; [by split|apply Hd]. }
  destruct op as [r|s|now now'|now]; cbn [bridge_step]; [by split..| |apply Hforce].
  unfold check_and_anchor, run_state, py_bind, py_modify, py_get.
  set (b1 := match states b !! t with Some _ => b | None => put_state t fresh_state b end).
  assert (H1 : client_frame b b1) by (subst b1; by destruct (states b !! t)).
  assert (Htrans : forall b2, client_frame b1 b2 -> client_frame b b2).
  { intros b2 [H2 H3]. destruct H1 as [H1 H1']. split; [congruence|auto]. }
  clearbody b1. apply Htrans.
  destruct (negb _ && _); [apply Hforce|]. destruct (anchor_on_milestone _ && _ && _); [apply Hforce|].
  set (s' := Anchoring _ _ _ _ _).
  assert (Hd : forall l, client_frame b1
                (run_state (do_anchor record_batch t l now') (put_state t s' b1)))
    by (intros l; destruct (do_anchor_frame t l now' (put_state t s' b1)); by split).
  destruct (count_trigger _ _); [apply Hd|]. destruct (time_trigger _ _ _ _); [apply Hd|].
  destruct (anchor_on_state_change _ && _); [apply Hd|by split].
Qed.

Lemma bridge_run_client t ops p :
  faults (client (bridge_run t ops (new_bridge p []))) = []
  /\ policy (bridge_run t ops (new_bridge p [])) = p.
Proof.
  assert (H : client_frame (new_bridge p []) (bridge_run t ops (new_bridge p []))).
  { generalize (new_bridge p []). induction ops as [|op ops IH]; intros b; [by split|].
    change (bridge_run t (op :: ops) b) with (bridge_run t ops (bridge_step t op b)).
    destruct (bridge_step_frame t op b), (IH (bridge_step t op b)). split; [congruence|auto]. }
  destruct H as [H1 H2]. auto.
Qed.

(** One forced anchor of a client that answers. *)
Lemma force_anchor_ok t all now b :
  bridge_inv t all b -> distinct_ids all -> faults (client b) = [] ->
  let b' := run_state (force_anchor record_batch t now) b in
  bridge_inv t all b' /\ faults (client b') = [] /\ policy b' = policy b
  /\ pending (bsync b') t = drop (Z.to_nat (max_batch_size (policy b))) (pending (bsync b) t).
Proof.
  intros Hi Hd Hf b'. pose proof (force_anchor_inv t all now b Hi Hd) as Hi'. fold b' in Hi'.
  split; [done|]. destruct Hi as (Hm & Hall & rest & He).
  destruct Hi' as (_ & Hall' & rest' & He').
  assert (Hdd : distinct_ids (concat (accepted (client b)) ++ rest))
    by (rewrite <- (eo_receipts _ _ _ He), Hall; done).
  assert (Hdd' : distinct_ids (concat (accepted (client b')) ++ rest'))
    by (rewrite <- (eo_receipts _ _ _ He'), Hall'; done).
  rewrite (pending_rest t b rest He Hdd), (pending_rest t b' rest' He' Hdd').
  assert (Hn : py_index (max_batch_size (policy b)) rest
               = Nat.min (Z.to_nat (max_batch_size (policy b))) (length rest)).
  { unfold py_index. destruct (Z.ltb_spec (max_batch_size (policy b)) 0); lia. }
  assert (Hacc : concat (accepted (client b')) = concat (accepted (client b))
                   ++ py_upto (max_batch_size (policy b)) rest
                 /\ faults (client b') = [] /\ policy b' = policy b).
  { subst b'. unfold force_anchor, run_state, py_bind, py_get.
    cbn [get_unanchored_receipts SimpleMem_sync]. unfold mem_get_unanchored.
    rewrite (pending_rest t b rest He Hdd).
    destruct (py_upto (max_batch_size (policy b)) rest) as [|r l] eqn:E.
    - by rewrite app_nil_r.
    - unfold do_anchor, py_bind, call_append, record_batch, py_modify, py_ret. rewrite Hf.
      cbn. rewrite concat_app. cbn. by rewrite app_nil_r. }
  destruct Hacc as (Hacc & Hf' & Hp). split; [done|]. split; [done|].
  pose proof (eo_receipts _ _ _ He) as H1. pose proof (eo_receipts _ _ _ He') as H2.
  rewrite Hall in H1. rewrite Hall', Hacc, <- app_assoc in H2.
  rewrite H1 in H2. apply app_inv_head in H2. unfold py_upto in H2.
  rewrite <- (take_drop (py_index (max_batch_size (policy b)) rest) rest) in H2 at 1.
  apply app_inv_head in H2. rewrite <- H2, Hn.
  destruct (Nat.le_ge_cases (Z.to_nat (max_batch_size (policy b))) (length rest)) as [Hle|Hge].
  - by rewrite Nat.min_l.
  - rewrite Nat.min_r by done. by rewrite !drop_ge.
Qed.

(** A forced anchor submits one batch, not everything: [k] forced anchors of a
    client that answers leave the task's pending receipts after the first
    [k * max_batch_size], so the queue is drained once that covers it. *)
Theorem force_anchor_drains t p ops k now :
  (0 <= max_batch_size p)%Z -> distinct_ids (added ops) ->
  let b := bridge_run t ops (new_bridge p []) in
  pending (bsync (bridge_run t (replicate k (ForceAnchor now)) b)) t
  = drop (k * Z.to_nat (max_batch_size p)) (pending (bsync b) t).
Proof.
  intros Hm Hd b.
  assert (H0 : bridge_inv t [] (new_bridge p [])).
  { split; [done|]. split; [done|]. exists []. split; cbn; [done|set_solver|constructor]. }
  pose proof (run_bridge_inv t ops [] _ H0 Hd) as Hi. cbn [app] in Hi. fold b in Hi.
  assert (Hb : faults (client b) = [] /\ policy b = p) by apply bridge_run_client.
  destruct Hb as [Hf Hp]. clearbody b. clear H0.
  revert b Hi Hf Hp. induction k as [|k IH]; intros b Hi Hf Hp; [done|].
  change (bridge_run t (replicate (S k) (ForceAnchor now)) b)
    with (bridge_run t (replicate k (ForceAnchor now)) (run_state (force_anchor record_batch t now) b)).
  destruct (force_anchor_ok t _ now b Hi Hd Hf) as (Hi' & Hf' & Hp' & Hpend).
  rewrite (IH _ Hi' Hf') by congruence. rewrite Hpend, Hp, drop_drop. done.
Qed.

(** A state in [force_anchor_states] that the bridge has not recorded stays
    unrecorded: [check_and_anchor] returns through [force_anchor] without storing
    the state it saw, so every later check forces an anchor again, whatever the
    thresholds. *)
Theorem force_state_never_recorded t now now' (b : mem_bridge) s :
  states b !! t = Some s ->
  mem_get_task_state (bsync b) t ∈ force_anchor_states (policy b) ->
  mem_get_task_state (bsync b) t <> last_state s ->
  let b' := run_state (check_and_anchor record_batch t now now') b in
  check_and_anchor record_batch t now now' b = force_anchor record_batch t now' b
  /\ (exists s', states b' !! t = Some s' /\ last_state s' = last_state s)
  /\ mem_get_task_state (bsync b') t = mem_get_task_state (bsync b) t
  /\ policy b' = policy b.
Proof.
  intros Hs Hin Hne b'.
  assert (E : check_and_anchor record_batch t now now' b = force_anchor record_batch t now' b).
  { unfold check_and_anchor, py_bind, py_modify, py_get. rewrite Hs. cbn [get_task_state SimpleMem_sync].
    rewrite Hs. cbn [from_option id]. unfold str_eqb, str_mem.
    rewrite bool_decide_false, (bool_decide_true (_ ∈ _)) by done. done. }
  split; [done|]. subst b'. unfold run_state. rewrite E.
  unfold force_anchor, py_bind, py_get. destruct (get_unanchored_receipts _ _ _) as [|r l].
  { cbn. eauto. }
  unfold do_anchor, py_bind, call_append, record_batch, py_modify, py_ret.
  destruct (faults (client b)) as [|[] fs]; cbn; rewrite ?Hs, ?lookup_insert_eq;
    (split; [eexists; split; [done|done]|done]).
Qed.

(** Nothing reserves the receipts of a batch while the client works on it: a call
    that reads the pending receipts before an earlier call has marked its batch
    submits the same batch again. *)
Lemma overlapping_anchors_duplicate t now now' b :
  let batch := get_unanchored_receipts (bsync b) t (max_batch_size (policy b)) in
  batch <> [] -> faults (client b) = [] ->
  let first := run_state (force_anchor record_batch t now) b in
  accepted (client (run_state (do_anchor record_batch t batch now') first))
  = accepted (client b) ++ [batch; batch].
Proof.
  intros batch Hne Hf. unfold force_anchor, run_state, py_bind, py_get. fold batch.
  destruct batch as [|r l]; [done|].
  unfold do_anchor, py_bind, call_append, record_batch, py_modify, py_ret. rewrite Hf. cbn.
  by rewrite <- app_assoc.
Qed.

(** Receipts without an id are anchored over and over: they are looked up as
    ["rec-<index>"] but marked under the empty string, so each of [k] forced
    anchors submits the same receipt again. *)
Theorem idless_receipt_resubmitted t p body now k :
  (1 <= max_batch_size p)%Z ->
  let r := BridgeReceipt None body in
  accepted (client (bridge_run t (AddReceipt r :: replicate k (ForceAnchor now)) (new_bridge p [])))
  = replicate k [r].
Proof.
  intros Hm r.
  assert (H : forall n b,
    default [] (receipts (bsync b) !! t) = [r] ->
    "rec-0" ∉ (default ∅ (anchored (bsync b) !! t) : gset string) ->
    policy b = p -> faults (client b) = [] ->
    accepted (client (bridge_run t (replicate n (ForceAnchor now)) b))
    = accepted (client b) ++ replicate n [r]).
  { induction n as [|n IH]; intros b Hr Ha Hp Hf; [by rewrite app_nil_r|].
    change (bridge_run t (replicate (S n) (ForceAnchor now)) b)
      with (bridge_run t (replicate n (ForceAnchor now)) (run_state (force_anchor record_batch t now) b)).
    assert (Hu : mem_get_unanchored (bsync b) t (max_batch_size (policy b)) = [r]).
    { unfold mem_get_unanchored, pending. rewrite Hr. cbn [unanchored_from].
      change (key_of 0 r) with "rec-0". rewrite bool_decide_false by done. rewrite Hp.
      unfold py_upto, py_index. cbn [length]. destruct (Z.ltb_spec (max_batch_size p) 0); [lia|].
      rewrite Z.min_r, Z.max_r by lia. done. }
    unfold force_anchor, run_state, py_bind, py_get. cbn [get_unanchored_receipts SimpleMem_sync].
    rewrite Hu. unfold do_anchor, py_bind, call_append, record_batch, py_modify, py_ret. rewrite Hf.
    cbn [fst]. rewrite IH; cbn; [by rewrite <- app_assoc|done| |done|done].
    rewrite lookup_insert_eq. cbn. set_solver. }
  change (bridge_run t (AddReceipt r :: replicate k (ForceAnchor now)) (new_bridge p []))
    with (bridge_run t (replicate k (ForceAnchor now)) (on_sync (add_receipt t r) (new_bridge p []))).
  rewrite (H k (on_sync (add_receipt t r) (new_bridge p []))); cbn; [done| |set_solver|done|done].
  by rewrite lookup_insert_eq.
Qed.

(** ** Witnesses *)

Section Examples.
#[local] Definition r1 : bridge_receipt := BridgeReceipt (Some "a") [].
#[local] Definition r2 : bridge_receipt := BridgeReceipt (Some "b") [].
#[local] Definition ops : list bridge_op :=
  [AddReceipt r1; CheckAndAnchor fzero fzero; AddReceipt r2; SetState "funded";
   CheckAndAnchor fzero fzero].

Lemma ops_distinct : distinct_ids (added ops).
Proof.
  split; [repeat constructor; by eexists|]. cbn. apply NoDup_cons. split; [set_solver|].
  apply NoDup_singleton.
Qed.

Lemma bridge_exactly_once_witness :
  let b := bridge_run "t" ops (new_bridge default_policy [true]) in
  concat (accepted (client b)) ++ pending (bsync b) "t" = added ops
  /\ Forall (fun l => l <> [] /\ (Z.of_nat (length l) <= max_batch_size (policy b))%Z)
       (accepted (client b)).
Proof.
  apply (bridge_exactly_once "t" default_policy [true] ops); [cbn; lia|apply ops_distinct].
Defined.

Lemma force_anchor_drains_witness :
  let b := bridge_run "t" ops (new_bridge default_policy []) in
  pending (bsync (bridge_run "t" (replicate 1 (ForceAnchor fzero)) b)) "t"
  = drop (1 * Z.to_nat (max_batch_size default_policy)) (pending (bsync b) "t").
Proof.
  apply (force_anchor_drains "t" default_policy ops 1 fzero); [cbn; lia|apply ops_distinct].
Defined.

Lemma force_state_never_recorded_witness :
  let b := put_state "t" fresh_state (on_sync (mem_set_state "t" "funded") (new_bridge default_policy [])) in
  let b' := run_state (check_and_anchor record_batch "t" fzero fzero) b in
  check_and_anchor record_batch "t" fzero fzero b = force_anchor record_batch "t" fzero b
  /\ (exists s', states b' !! "t" = Some s' /\ last_state s' = last_state (@fresh_state unit))
  /\ mem_get_task_state (bsync b') "t" = mem_get_task_state (bsync b) "t"
  /\ policy b' = policy b.
Proof.
  apply (force_state_never_recorded "t" fzero fzero
           (put_state "t" fresh_state (on_sync (mem_set_state "t" "funded") (new_bridge default_policy [])))
           fresh_state); [reflexivity|by apply list_elem_of_In; left|discriminate].
Defined.

Lemma idless_receipt_resubmitted_witness :
  accepted (client (bridge_run "t" (AddReceipt (BridgeReceipt None []) :: replicate 2 (ForceAnchor fzero))
                      (new_bridge default_policy [])))
  = replicate 2 [BridgeReceipt None []].
Proof. apply (idless_receipt_resubmitted "t" default_policy [] fzero 2). cbn. lia. Defined.
End Examples.
