(* ===== verification/BillingHub.v ===== *)
(** * The WebSocket hub ([packages/karma_billing/ws_hub.py])

    Subscriptions, event push and queries of [WebSocketHub].  [WSConnection] is a
    dataclass with [eq] and without [frozen], so Python sets its [__hash__] to
    [None] and putting one in a set raises [TypeError]; [set_add] and
    [set_discard] say so.  Queues live in a store keyed by the connection's
    identity, [put_nowait] on a full one raising [QueueFull].  pydantic's
    [model_dump] is a parameter. *)

From S2P Require Import Prelude PyBytes PyJson PyDatetime PyFloat BillingSchema.
#[local] Open Scope string_scope.
#[local] Open Scope list_scope.

Record WSPayload := {
  pl_receipt : option UniversalReceipt;
  pl_billing_state : option string;
  pl_step_current : Z;
  pl_step_total : Z;
  pl_cost_accrued_usdc : float;
  pl_latest_merkle_root : option string;
  pl_anchored_count : Z
}.

Record WSMessage := {
  msg_event : string;
  msg_task_id : string;
  msg_timestamp : string;
  msg_payload : WSPayload
}.

(** A connection object: its identity and its fields but for the queue. *)
Record WSConnection := {
  conn_ref : nat;
  conn_task_id : string;
  conn_role : string;
  conn_token : string
}.

#[export] Instance WSConnection_eq_dec : EqDecision WSConnection.
Proof. solve_decision. Defined.

(** [@dataclass] without [frozen=True] or [unsafe_hash=True]. *)
Definition WSConnection_hashable : bool := false.
Definition unhashable : py_exn := TypeError "unhashable type: 'WSConnection'".

Definition set_add (c : WSConnection) (s : list WSConnection) : outcome py_exn (list WSConnection) :=
  if WSConnection_hashable then Ret (if bool_decide (c ∈ s) then s else s ++ [c])
  else Raise unhashable.
Definition set_discard (c : WSConnection) (s : list WSConnection) : outcome py_exn (list WSConnection) :=
  if WSConnection_hashable then Ret (List.filter (fun x => negb (bool_decide (x = c))) s)
  else Raise unhashable.

Record queue := {
  q_items : list WSMessage;
  q_maxsize : Z
}.
(** [Queue.full]: a [maxsize] that is not positive means unbounded. *)
Definition queue_full (q : queue) : bool :=
  (0 <? q_maxsize q)%Z && (q_maxsize q <=? Z.of_nat (length (q_items q)))%Z.

Record WebSocketHub := Hub {
  subscriptions : gmap string (list WSConnection);
  queues : gmap nat queue
}.
Abbreviation MH := (M WebSocketHub py_exn).
#[local] Open Scope py_scope.

Definition new_hub (q : gmap nat queue) : WebSocketHub := Hub ∅ q.

Definition set_subs (t : string) (s : list WSConnection) (h : WebSocketHub) : WebSocketHub :=
  Hub (<[t := s]> (subscriptions h)) (queues h).

Definition of_outcome {A} (o : outcome py_exn A) : MH A := fun h => (h, o).

(** [subscribe]: the empty set is stored before [add] is attempted. *)
Definition subscribe (c : WSConnection) : MH unit :=
  py_modify (fun h => match subscriptions h !! conn_task_id c with
                      | Some _ => h
                      | None => set_subs (conn_task_id c) [] h
                      end) ;;;
  let! h := py_get in
  let! s := of_outcome (set_add c (default [] (subscriptions h !! conn_task_id c))) in
  py_modify (set_subs (conn_task_id c) s).

Definition unsubscribe (c : WSConnection) : MH unit :=
  let! h := py_get in
  match subscriptions h !! conn_task_id c with
  | None => py_ret tt
  | Some s =>
      let! s' := of_outcome (set_discard c s) in
      match s' with
      | [] => py_modify (fun h => Hub (delete (conn_task_id c) (subscriptions h)) (queues h))
      | _ => py_modify (set_subs (conn_task_id c) s')
      end
  end.

(** [conn.queue.put_nowait(message)] over a snapshot of the subscribers; the
    connections whose queue is full are returned. *)
Fixpoint deliver (l : list WSConnection) (m : WSMessage) (q : gmap nat queue) :
    gmap nat queue * list WSConnection :=
  match l with
  | [] => (q, [])
  | c :: r =>
      let cq := default {| q_items := []; q_maxsize := 0 |} (q !! conn_ref c) in
      if queue_full cq
      then let '(q', dead) := deliver r m q in (q', c :: dead)
      else deliver r m (<[conn_ref c := {| q_items := q_items cq ++ [m];
                                           q_maxsize := q_maxsize cq |}]> q)
  end.

Fixpoint unsubscribe_all (l : list WSConnection) : MH unit :=
  match l with
  | [] => py_ret tt
  | c :: r => unsubscribe c ;;; unsubscribe_all r
  end.

Definition push_event (t : string) (m : WSMessage) : MH unit :=
  let! h := py_get in
  match default [] (subscriptions h !! t) with
  | [] => py_ret tt
  | subscribers =>
      let '(q, dead) := deliver subscribers m (queues h) in
      py_modify (fun h => Hub (subscriptions h) q) ;;;
      unsubscribe_all dead
  end.

(** The payload fields taken from an optional snapshot. *)
Definition snapshot_payload (r : option UniversalReceipt) (state : option string)
    (s : option BillingSnapshot) : WSPayload :=
  {| pl_receipt := r; pl_billing_state := state;
     pl_step_current := from_option snap_current_step 0%Z s;
     pl_step_total := from_option snap_total_steps_estimated 0%Z s;
     pl_cost_accrued_usdc := from_option snap_cost_accrued_usdc fzero s;
     pl_latest_merkle_root := s ≫= snap_latest_merkle_root;
     pl_anchored_count := from_option snap_anchored_receipts 0%Z s |}.

Definition push_receipt (r : UniversalReceipt) (s : option BillingSnapshot) (now : datetime) : MH unit :=
  push_event (task_id r)
    {| msg_event := "receipt.created"; msg_task_id := task_id r; msg_timestamp := isoformat now;
       msg_payload := snapshot_payload (Some r)
                        (BillingState_value <$> (snap_billing_state <$> s)) s |}.

Definition push_state_change (t previous_state new_state : string) (s : option BillingSnapshot)
    (now : datetime) : MH unit :=
  push_event t
    {| msg_event := "state.changed"; msg_task_id := t; msg_timestamp := isoformat now;
       msg_payload := snapshot_payload None (Some new_state) s |}.

Definition request_proof (t receipt_id : string) (now : datetime) : MH WSMessage :=
  let response := {| msg_event := "proof.response"; msg_task_id := t; msg_timestamp := isoformat now;
                     msg_payload := snapshot_payload None None None |} in
  push_event t response ;;;
  py_ret response.

(** [subscriber_count(task_id)]: a falsy task id asks for the total. *)
Definition subscriber_count (h : WebSocketHub) (t : option string) : Z :=
  if truthy_str t then Z.of_nat (length (default [] (t ≫= fun t => subscriptions h !! t)))
  else fold_right Z.add 0%Z (map (fun x => Z.of_nat (length x.2)) (map_to_list (subscriptions h))).

Definition active_tasks (h : WebSocketHub) : list string := map fst (map_to_list (subscriptions h)).

Inductive hub_op : Type :=
| Subscribe (c : WSConnection)
| Unsubscribe (c : WSConnection)
| PushReceipt (r : UniversalReceipt) (s : option BillingSnapshot) (now : datetime)
| PushStateChange (t previous_state new_state : string) (s : option BillingSnapshot) (now : datetime)
| RequestProof (t receipt_id : string) (now : datetime).

Definition hub_step (op : hub_op) (h : WebSocketHub) : WebSocketHub :=
  match op with
  | Subscribe c => run_state (subscribe c) h
  | Unsubscribe c => run_state (unsubscribe c) h
  | PushReceipt r s now => run_state (push_receipt r s now) h
  | PushStateChange t p n s now => run_state (push_state_change t p n s now) h
  | RequestProof t r now => run_state (request_proof t r now) h
  end.
Definition hub_run (ops : list hub_op) (h : WebSocketHub) : WebSocketHub :=
  fold_left (fun h op => hub_step op h) ops h.

(** ** No connection is ever subscribed *)

Definition all_empty (h : WebSocketHub) : Prop := map_Forall (fun _ s => s = []) (subscriptions h).

Lemma push_event_empty t m h : all_empty h -> push_event t m h = (h, Ret tt).
Proof.
  intros He. unfold push_event, py_bind, py_get. destruct (subscriptions h !! t) as [s|] eqn:E; [|done].
  by rewrite (He _ _ E).
Qed.

Lemma all_empty_subscribe c h :
  all_empty h ->
  subscribe c h = (set_subs (conn_task_id c) [] h, Raise unhashable)
  /\ all_empty (set_subs (conn_task_id c) [] h).
Proof.
  intros He. split; [|by apply map_Forall_insert_2].
  unfold subscribe, py_bind, py_modify, py_get. cbn.
  destruct (subscriptions h !! conn_task_id c) as [s|] eqn:E; [|done].
  rewrite (He _ _ E) in E. unfold set_subs. rewrite insert_id by done. by destruct h.
Qed.

Lemma hub_step_empty op h : all_empty h -> all_empty (hub_step op h) /\ queues (hub_step op h) = queues h.
Proof.
  intros He. destruct op as [c|c|r s now|t p n s now|t r now]; cbn [hub_step]; unfold run_state.
  - destruct (all_empty_subscribe c h He) as [-> Ha]. done.
  - unfold unsubscribe, py_bind, py_get. by destruct (subscriptions h !! conn_task_id c).
  - unfold push_receipt. by rewrite push_event_empty.
  - unfold push_state_change. by rewrite push_event_empty.
  - unfold request_proof, py_bind. by rewrite push_event_empty.
Qed.

Lemma hub_run_empty ops h :
  all_empty h -> all_empty (hub_run ops h) /\ queues (hub_run ops h) = queues h.
Proof.
  revert h. induction ops as [|op ops IH]; intros h H0; [done|].
  destruct (hub_step_empty op h H0) as [H1 <-].
  change (hub_run (op :: ops) h) with (hub_run ops (hub_step op h)). by apply IH.
Qed.

(** The hub never has a subscriber.  After any sequence of calls every further
    [subscribe] raises [TypeError], every subscriber count is zero, and no message
    has reached any queue; yet a task somebody tried to subscribe to is listed as
    active. *)
Theorem hub_never_subscribed q ops :
  let h := hub_run ops (new_hub q) in
  (forall c, run_outcome (subscribe c) h = Raise unhashable
             /\ conn_task_id c ∈ active_tasks (run_state (subscribe c) h))
  /\ (forall t, subscriber_count h t = 0%Z)
  /\ queues h = q.
Proof.
  intros h.
  destruct (hub_run_empty ops (new_hub q)) as [He Hq]; [by apply map_Forall_empty|].
  fold h in He, Hq. split; [|split; [|done]].
  - intros c. unfold run_outcome, run_state. destruct (all_empty_subscribe c h He) as [-> _].
    split; [done|]. cbn. apply list_elem_of_fmap. exists (conn_task_id c, []).
    split; [done|]. apply elem_of_map_to_list. cbn. apply lookup_insert_eq.
  - intros t. unfold subscriber_count. destruct (truthy_str t).
    + destruct t as [t|]; cbn; [|done]. destruct (subscriptions h !! t) eqn:E; [|done].
      by rewrite (He _ _ E).
    + assert (Hl : forall l, (forall x, x ∈ l -> x.2 = @nil WSConnection) ->
                fold_right Z.add 0%Z (map (fun x : string * list WSConnection => Z.of_nat (length x.2)) l) = 0%Z).
      { induction l as [|x l IH]; intros Hx; [done|]. cbn. rewrite (Hx x) by left. rewrite IH; [done|].
        intros y Hy. apply Hx. by right. }
      apply Hl. intros [k s] Hin%elem_of_map_to_list. by apply (He k).
Qed.
