(* ===== verification/TrustLedger.v ===== *)
(** * The identity trust ledger ([services/identity_gateway/state_machine.py], [services/persist_json.py])

    The credential state machine, the HMAC-chained ledger with its truncation and
    rebase, the alert stream, and the integrity and health checks.  Every public
    operation holds the module lock while it touches the two lists, so it is one
    step here ([health_report] is a sequence of them).  The state also holds what is
    on disk, whether the disk accepts writes, the clock and a counter of the random
    tokens drawn; the HMAC key and the tokens are parameters. *)

From S2P Require Import Prelude PyBytes PyJson PyJsonCanon.
#[local] Open Scope string_scope.
#[local] Open Scope list_scope.

(** ** Credential states *)

Definition PENDING := "pending".
Definition VERIFIED := "verified".
Definition FAILED := "failed".
Definition EXPIRED := "expired".
Definition REVOKED := "revoked".

(** [CREDENTIAL_TRANSITIONS]; the empty string is the state before issuance. *)
Definition CREDENTIAL_TRANSITIONS : list ((string * string) * string) :=
  [(("", "issue"), PENDING);
   ((PENDING, "verify"), VERIFIED);
   ((PENDING, "reject"), FAILED);
   ((PENDING, "revoke"), REVOKED);
   ((FAILED, "reissue"), PENDING);
   ((EXPIRED, "reverify"), PENDING);
   ((VERIFIED, "expire"), EXPIRED);
   ((VERIFIED, "revoke"), REVOKED)].

Definition transition_target (from_state action : string) : option string :=
  snd <$> List.find (fun x => bool_decide (x.1 = (from_state, action))) CREDENTIAL_TRANSITIONS.

Definition SEVERITY_INFO := "info".
Definition SEVERITY_WARN := "warn".
Definition SEVERITY_CRITICAL := "critical".
Definition CATEGORY_ILLEGAL_TRANSITION := "illegal_transition".
Definition CATEGORY_ENVIRONMENT := "environment".
Definition CATEGORY_TAMPER := "ledger_tamper".
Definition CATEGORY_PERSISTENCE := "persistence".

Definition LEDGER_MAX : Z := 100000.
Definition ALERTS_MAX : Z := 10000.
Definition ROOT_CAUSE_DEPTH : Z := 8.

(** ** Ledger entries and alerts *)

Record ledger_entry := Entry {
  entry_id : string;
  e_ts : Z;
  entity_type : string;
  entity_id : string;
  event : string;
  from_state : string;
  to_state : string;
  actor : string;
  reason : string;
  extra : list (string * json);
  entry_hash : string
}.

Record cause := Cause {
  c_ts : Z; c_event : string; c_from_state : string; c_to_state : string;
  c_actor : string; c_reason : string
}.

Record trust_alert := Alert {
  alert_id : string;
  a_ts : Z;
  severity : string;
  category : string;
  a_entity_type : string;
  a_entity_id : string;
  summary : string;
  detail : list (string * json);
  root_cause : list cause
}.

Record trust := Trust {
  ledger : list ledger_entry;
  alerts : list trust_alert;
  disk_ledger : option (list ledger_entry);
  disk_alerts : option (list trust_alert);
  disk_ok : bool;
  now : Z;
  drawn : nat
}.

(** [IllegalTransitionError] *)
Inductive trust_error : Type := IllegalTransitionError (from_state action : string).

(** [persist_json.save]: an exception while writing is logged and swallowed. *)
Definition persist_save {A} (ok : bool) (payload : A) (old : option A) : option A :=
  if ok then Some payload else old.

Definition set_ledger (l : list ledger_entry) (s : trust) : trust :=
  Trust l (alerts s) (disk_ledger s) (disk_alerts s) (disk_ok s) (now s) (drawn s).
Definition save_ledger (s : trust) : trust :=
  Trust (ledger s) (alerts s) (persist_save (disk_ok s) (ledger s) (disk_ledger s)) (disk_alerts s)
    (disk_ok s) (now s) (drawn s).
Definition draw (s : trust) : trust :=
  Trust (ledger s) (alerts s) (disk_ledger s) (disk_alerts s) (disk_ok s) (now s) (S (drawn s)).

Section Trust.
Context (ledger_key : bytes) (token_hex : nat -> string).
Abbreviation MT := (M trust trust_error).
#[local] Open Scope py_scope.

(** ** The hash chain *)

(** [{k: v for k, v in entry.items() if k != "entry_hash"}] *)
Definition entry_items (e : ledger_entry) : list (string * json) :=
  [("entry_id", JStr (entry_id e)); ("ts", JInt (e_ts e)); ("entity_type", JStr (entity_type e));
   ("entity_id", JStr (entity_id e)); ("event", JStr (event e)); ("from_state", JStr (from_state e));
   ("to_state", JStr (to_state e)); ("actor", JStr (actor e)); ("reason", JStr (reason e));
   ("extra", JObj (extra e))].
Definition canonical (e : ledger_entry) : string := dumps compact_sorted_utf8 (JObj (entry_items e)).

Definition hash_input (prev : string) (e : ledger_entry) : bytes :=
  utf8 (prev ++ "|" ++ canonical e).
Definition compute_entry_hash (prev : string) (e : ledger_entry) : string :=
  hmac_hex ledger_key (hash_input prev e).

Definition with_hash (h : string) (e : ledger_entry) : ledger_entry :=
  Entry (entry_id e) (e_ts e) (entity_type e) (entity_id e) (event e) (from_state e) (to_state e)
    (actor e) (reason e) (extra e) h.

(** The rebase loop after a truncation. *)
Fixpoint rebase (prev : string) (l : list ledger_entry) : list ledger_entry :=
  match l with
  | [] => []
  | e :: r => let h := compute_entry_hash prev e in with_hash h e :: rebase h r
  end.

(** The loop of [verify_ledger_integrity]: the first broken entry. *)
Fixpoint first_broken (prev : string) (i : Z) (l : list ledger_entry) : option (Z * ledger_entry) :=
  match l with
  | [] => None
  | e :: r => if negb (str_eqb (entry_hash e) (compute_entry_hash prev e)) then Some (i, e)
              else first_broken (entry_hash e) (i + 1) r
  end.

(** [_recent_entity_events_locked] *)
Definition recent_entity_events (s : trust) (id : string) (limit : Z) : list cause :=
  py_from (- limit)
    (map (fun e => Cause (e_ts e) (event e) (from_state e) (to_state e) (actor e) (reason e))
       (List.filter (fun e => str_eqb (entity_id e) id) (ledger s))).

(** [_broadcast_alert_locked] *)
Definition broadcast_alert (sev cat etype eid smry : string) (det : list (string * json)) :
    MT trust_alert :=
  let! s := py_get in
  let a := Alert ("tal_" ++ token_hex (drawn s)) (now s) sev cat etype eid (str_upto 200 smry) det
             (recent_entity_events s eid ROOT_CAUSE_DEPTH) in
  py_modify (fun s =>
    let l := alerts s ++ [a] in
    let l := if (ALERTS_MAX <? Z.of_nat (length l))%Z
             then drop (Z.to_nat (Z.of_nat (length l) - ALERTS_MAX)) l else l in
    Trust (ledger s) l (disk_ledger s) (persist_save (disk_ok s) l (disk_alerts s)) (disk_ok s)
      (now s) (S (drawn s))) ;;;
  py_ret a.

(** The truncation branch of [_append_ledger_locked]. *)
Definition truncate_ledger : MT unit :=
  let! s := py_get in
  let n := Z.of_nat (length (ledger s)) in
  if (LEDGER_MAX <? n)%Z then
    broadcast_alert SEVERITY_WARN CATEGORY_ENVIRONMENT "ledger" "trust_ledger"
      ("ledger truncated at " ++ py_str_int LEDGER_MAX ++ " entries")
      [("dropped", JInt (n - LEDGER_MAX))] ;;;
    py_modify (fun s => set_ledger
      (rebase "GENESIS" (drop (Z.to_nat (n - LEDGER_MAX)) (ledger s))) s)
  else py_ret tt.

(** [_append_ledger_locked]; the entry returned is the object in the list, so it
    carries the hash a rebase gave it. *)
Definition append_ledger (etype eid ev from to act rsn : string) (ext : list (string * json)) :
    MT (option ledger_entry) :=
  let! s := py_get in
  let prev := match last (ledger s) with Some e => entry_hash e | None => "GENESIS" end in
  let e := Entry ("tle_" ++ token_hex (drawn s)) (now s) etype eid ev from to (str_upto 64 act)
             (str_upto 256 rsn) ext "" in
  let e := with_hash (compute_entry_hash prev e) e in
  py_modify (fun s => draw (set_ledger (ledger s ++ [e]) s)) ;;;
  truncate_ledger ;;;
  py_modify save_ledger ;;;
  let! s := py_get in
  py_ret (last (ledger s)).

Definition record_event := append_ledger.

(** [transition] *)
Definition transition (etype eid from action act rsn : string) (ext : list (string * json)) :
    MT (option ledger_entry) :=
  match transition_target from action with
  | None =>
      broadcast_alert SEVERITY_WARN CATEGORY_ILLEGAL_TRANSITION etype eid
        ("illegal transition blocked: " ++ from ++ " --" ++ action ++ "--> ?")
        [("from_state", JStr from); ("action", JStr action); ("actor", JStr (str_upto 64 act))] ;;;
      py_raise (IllegalTransitionError from action)
  | Some to => append_ledger etype eid ("credential_" ++ action) from to act rsn ext
  end.

Inductive integrity : Type :=
| IntegrityOk (entries : Z)
| IntegrityBroken (broken_at : Z) (id : string).

Definition verify_ledger_integrity : MT integrity :=
  let! s := py_get in
  match first_broken "GENESIS" 0 (ledger s) with
  | None => py_ret (IntegrityOk (Z.of_nat (length (ledger s))))
  | Some (i, e) =>
      broadcast_alert SEVERITY_CRITICAL CATEGORY_TAMPER "ledger" "trust_ledger"
        ("ledger chain broken at index " ++ py_str_int i)
        [("index", JInt i); ("entry_id", JStr (entry_id e))] ;;;
      py_ret (IntegrityBroken i (entry_id e))
  end.

Record health := Health {
  persist_writable : bool;
  ledger_integrity : bool;
  ledger_entries : Z;
  alerts_count : Z;
  clock_sane : bool;
  health_ok : bool
}.

Definition health_items (h : health) : list (string * json) :=
  [("persist_writable", JBool (persist_writable h)); ("ledger_integrity", JBool (ledger_integrity h));
   ("ledger_entries", JInt (ledger_entries h)); ("alerts_count", JInt (alerts_count h));
   ("clock_sane", JBool (clock_sane h)); ("ok", JBool (health_ok h))].

(** [health_report].  Neither [save] nor [delete] of the probe raises, so the
    [except] branch is not taken. *)
Definition health_report : MT health :=
  let! r := verify_ledger_integrity in
  let! s := py_get in
  let intact := match r with IntegrityOk _ => true | _ => false end in
  let entries := match r with IntegrityOk n => n | _ => Z.of_nat (length (ledger s)) end in
  let last_ts := match last (ledger s) with Some e => e_ts e | None => now s end in
  let sane := (last_ts <=? now s + 300)%Z in
  py_when (negb sane)
    (broadcast_alert SEVERITY_WARN CATEGORY_ENVIRONMENT "environment" "clock"
       "ledger timestamp is in the future"
       [("last_ts", JInt last_ts); ("now", JInt (now s))] ;;; py_ret tt) ;;;
  let h := Health true intact entries (Z.of_nat (length (alerts s))) sane (true && intact && sane) in
  py_when (negb (health_ok h))
    (broadcast_alert SEVERITY_CRITICAL CATEGORY_ENVIRONMENT "environment" "runtime"
       "trust environment health check FAILED" (health_items h) ;;; py_ret tt) ;;;
  py_ret h.

(** [get_ledger], [get_alerts] *)
Definition get_ledger (s : trust) (id : option string) (limit : Z) : list ledger_entry :=
  rev (py_from (- limit)
    (List.filter (fun e => match id with None => true | Some x => str_eqb (entity_id e) x end)
       (ledger s))).
Definition get_alerts (s : trust) (sev : option string) (limit : Z) : list trust_alert :=
  rev (py_from (- limit)
    (List.filter (fun a => match sev with None => true | Some x => str_eqb (severity a) x end)
       (alerts s))).

(** [_load], when the process starts. *)
Definition load (s : trust) : trust :=
  Trust (default [] (disk_ledger s)) (default [] (disk_alerts s)) (disk_ledger s) (disk_alerts s)
    (disk_ok s) (now s) (drawn s).

Definition reset_for_tests (s : trust) : trust :=
  Trust [] [] (if disk_ok s then None else disk_ledger s) (if disk_ok s then None else disk_alerts s)
    (disk_ok s) (now s) (drawn s).

Inductive trust_op : Type :=
| RecordEvent (etype eid ev from to act rsn : string) (ext : list (string * json))
| Transition (etype eid from action act rsn : string) (ext : list (string * json))
| BroadcastAlert (sev cat etype eid smry : string) (det : list (string * json))
| VerifyLedger
| HealthReport
| Restart
| SetClock (t : Z)
| SetDisk (ok : bool).

Definition trust_step (op : trust_op) (s : trust) : trust :=
  match op with
  | RecordEvent ty id ev a b act r x => run_state (record_event ty id ev a b act r x) s
  | Transition ty id a ac act r x => run_state (transition ty id a ac act r x) s
  | BroadcastAlert sv c ty id sm d => run_state (broadcast_alert sv c ty id sm d) s
  | VerifyLedger => run_state verify_ledger_integrity s
  | HealthReport => run_state health_report s
  | Restart => load s
  | SetClock t => Trust (ledger s) (alerts s) (disk_ledger s) (disk_alerts s) (disk_ok s) t (drawn s)
  | SetDisk ok => Trust (ledger s) (alerts s) (disk_ledger s) (disk_alerts s) ok (now s) (drawn s)
  end.
Definition trust_run (ops : list trust_op) (s : trust) : trust :=
  fold_left (fun s op => trust_step op s) ops s.
End Trust.

Definition initial_trust (t : Z) : trust := Trust [] [] None None true t 0.

(** ** What the operations do *)

Section TrustFacts.
Context (ledger_key : bytes) (token_hex : nat -> string).
#[local] Abbreviation compute_entry_hash := (compute_entry_hash ledger_key).
#[local] Abbreviation rebase := (rebase ledger_key).
#[local] Abbreviation first_broken := (first_broken ledger_key).
#[local] Abbreviation broadcast_alert := (broadcast_alert token_hex).
#[local] Abbreviation append_ledger := (append_ledger ledger_key token_hex).
#[local] Abbreviation transition := (transition ledger_key token_hex).
#[local] Abbreviation verify_ledger_integrity := (verify_ledger_integrity ledger_key token_hex).
#[local] Abbreviation health_report := (health_report ledger_key token_hex).
#[local] Abbreviation trust_run := (trust_run ledger_key token_hex).
#[local] Abbreviation trust_step := (trust_step ledger_key token_hex).
Implicit Types (s : trust) (e : ledger_entry) (l : list ledger_entry).

(** Each entry's hash is the HMAC over its predecessor's and its content. *)
Fixpoint chain (prev : string) l : Prop :=
  match l with
  | [] => True
  | e :: r => entry_hash e = compute_entry_hash prev e /\ chain (entry_hash e) r
  end.

Lemma first_broken_chain prev i l : first_broken prev i l = None <-> chain prev l.
Proof.
  revert prev i. induction l as [|e l IH]; intros prev i; [done|]. cbn. unfold str_eqb.
  destruct (decide (entry_hash e = compute_entry_hash prev e)) as [He|He].
  - rewrite bool_decide_true by done. cbn. rewrite IH. tauto.
  - rewrite bool_decide_false by done. cbn. split; [done|tauto].
Qed.

Definition last_hash (prev : string) l : string :=
  match last l with Some e => entry_hash e | None => prev end.

Lemma last_hash_cons prev e l : last_hash prev (e :: l) = last_hash (entry_hash e) l.
Proof.
  unfold last_hash. rewrite last_cons. by destruct (last l).
Qed.

Lemma chain_app prev l r : chain prev (l ++ r) <-> chain prev l /\ chain (last_hash prev l) r.
Proof.
  revert prev. induction l as [|e l IH]; intros prev; [cbn; tauto|].
  rewrite last_hash_cons. cbn. rewrite IH. tauto.
Qed.

Lemma rebase_chain prev l : chain prev (rebase prev l).
Proof. revert prev. induction l as [|e l IH]; intros prev; [done|]. split; [done|apply IH]. Qed.

Lemma length_rebase prev l : length (rebase prev l) = length l.
Proof. revert prev. induction l as [|e l IH]; intros prev; [done|]. cbn. by rewrite IH. Qed.

(** A list kept within a bound by dropping its head. *)
Definition trim {A} (bound : Z) (l : list A) : list A :=
  if (bound <? Z.of_nat (length l))%Z then drop (Z.to_nat (Z.of_nat (length l) - bound)) l else l.

Lemma trim_length {A} bound (l : list A) :
  (0 <= bound)%Z -> (Z.of_nat (length (trim bound l)) <= bound)%Z.
Proof.
  intros Hb. unfold trim. destruct (Z.ltb_spec bound (Z.of_nat (length l))); [|lia].
  rewrite length_drop. lia.
Qed.

Definition new_alert s sev cat etype eid smry det : trust_alert :=
  Alert ("tal_" ++ token_hex (drawn s)) (now s) sev cat etype eid (str_upto 200 smry) det
    (recent_entity_events s eid ROOT_CAUSE_DEPTH).

(** The state with one more alert. *)
Definition alerted s (a : trust_alert) : trust :=
  let l := trim ALERTS_MAX (alerts s ++ [a]) in
  Trust (ledger s) l (disk_ledger s) (persist_save (disk_ok s) l (disk_alerts s)) (disk_ok s)
    (now s) (S (drawn s)).

Lemma broadcast_eq s sev cat etype eid smry det :
  broadcast_alert sev cat etype eid smry det s
  = (alerted s (new_alert s sev cat etype eid smry det),
     Ret (new_alert s sev cat etype eid smry det)).
Proof. reflexivity. Qed.

Definition new_entry s etype eid ev from to act rsn ext : ledger_entry :=
  let e := Entry ("tle_" ++ token_hex (drawn s)) (now s) etype eid ev from to (str_upto 64 act)
             (str_upto 256 rsn) ext "" in
  with_hash (compute_entry_hash (last_hash "GENESIS" (ledger s)) e) e.

(** The alert of a truncation, and the state it leaves. *)
Definition truncated s : trust :=
  let n := Z.of_nat (length (ledger s)) in
  if (LEDGER_MAX <? n)%Z then
    set_ledger (rebase "GENESIS" (drop (Z.to_nat (n - LEDGER_MAX)) (ledger s)))
      (alerted s (new_alert s SEVERITY_WARN CATEGORY_ENVIRONMENT "ledger" "trust_ledger"
         ("ledger truncated at " ++ py_str_int LEDGER_MAX ++ " entries")
         [("dropped", JInt (n - LEDGER_MAX))]))
  else s.

Lemma truncate_eq s :
  truncate_ledger ledger_key token_hex s = (truncated s, Ret tt).
Proof.
  unfold truncate_ledger, truncated, py_bind, py_get, py_modify.
  destruct (LEDGER_MAX <? Z.of_nat (length (ledger s)))%Z; [|done].
  rewrite broadcast_eq. done.
Qed.

Definition appended s e : trust := save_ledger (truncated (draw (set_ledger (ledger s ++ [e]) s))).

Lemma append_eq s etype eid ev from to act rsn ext :
  append_ledger etype eid ev from to act rsn ext s
  = (appended s (new_entry s etype eid ev from to act rsn ext),
     Ret (last (ledger (appended s (new_entry s etype eid ev from to act rsn ext))))).
Proof.
  unfold append_ledger, py_bind, py_get, py_modify. cbv beta iota zeta.
  change (match last (ledger s) with Some e => entry_hash e | None => "GENESIS" end)
    with (last_hash "GENESIS" (ledger s)).
  rewrite truncate_eq. done.
Qed.

Lemma verify_eq s :
  verify_ledger_integrity s
  = match first_broken "GENESIS" 0 (ledger s) with
    | None => (s, Ret (IntegrityOk (Z.of_nat (length (ledger s)))))
    | Some (i, e) =>
        (alerted s (new_alert s SEVERITY_CRITICAL CATEGORY_TAMPER "ledger" "trust_ledger"
           ("ledger chain broken at index " ++ py_str_int i)
           [("index", JInt i); ("entry_id", JStr (entry_id e))]),
         Ret (IntegrityBroken i (entry_id e)))
    end.
Proof.
  unfold verify_ledger_integrity, py_bind, py_get.
  destruct (first_broken "GENESIS" 0 (ledger s)) as [[i e]|]; [|done].
  rewrite broadcast_eq. done.
Qed.

(** [health_report] changes nothing but the alerts. *)
Definition only_alerts s s' : Prop :=
  exists la, Forall (fun a => category a <> CATEGORY_PERSISTENCE) la
  /\ s' = fold_left alerted la s.

Lemma only_alerts_refl s : only_alerts s s.
Proof. exists []. split; [constructor|done]. Qed.
Lemma only_alerts_snoc s s' a :
  only_alerts s s' -> category a <> CATEGORY_PERSISTENCE -> only_alerts s (alerted s' a).
Proof.
  intros (la & Hl & ->) Ha. exists (la ++ [a]). split; [|by rewrite fold_left_app].
  apply Forall_app. split; [done|]. by apply Forall_singleton.
Qed.

Lemma verify_only_alerts s : only_alerts s (run_state verify_ledger_integrity s).
Proof.
  unfold run_state. rewrite verify_eq.
  destruct (first_broken "GENESIS" 0 (ledger s)) as [[i e]|]; cbn [fst].
  - apply only_alerts_snoc; [apply only_alerts_refl|done].
  - apply only_alerts_refl.
Qed.

Lemma health_only_alerts s :
  only_alerts s (run_state health_report s)
  /\ exists h, run_outcome health_report s = Ret h /\ persist_writable h = true
     /\ (ledger_integrity h = true <-> chain "GENESIS" (ledger s)).
Proof.
  pose proof (verify_only_alerts s) as Hv.
  assert (Hint : match run_outcome verify_ledger_integrity s with
                 | Ret (IntegrityOk _) => chain "GENESIS" (ledger s)
                 | Ret (IntegrityBroken _ _) => ~ chain "GENESIS" (ledger s)
                 | Raise _ => False
                 end).
  { unfold run_outcome. rewrite verify_eq.
    pose proof (first_broken_chain "GENESIS" 0 (ledger s)) as Hf.
    destruct (first_broken "GENESIS" 0 (ledger s)) as [[i e]|]; cbn; [|by apply Hf].
    intros Hc. by apply Hf in Hc. }
  unfold health_report, run_state, run_outcome, py_bind, py_get, py_when, py_ret in *.
  destruct (verify_ledger_integrity s) as [s1 [r|x]]; [|done]. cbn [fst snd] in Hv, Hint.
  cbv beta iota zeta.
  set (sane := (match last (ledger s1) with Some e => e_ts e | None => now s1 end <=? now s1 + 300)%Z).
  destruct sane, r as [n|i id]; cbn [negb andb health_ok]; cbv beta iota;
    rewrite ?broadcast_eq; cbv beta iota; rewrite ?broadcast_eq; cbn [fst snd];
    (split; [repeat apply only_alerts_snoc; done|]);
    eexists; (split; [reflexivity|]); (split; [reflexivity|]); cbn [ledger_integrity];
    (split; [done|tauto]).
Qed.

(** ** The invariant *)

Record trust_inv s : Prop := {
  ti_chain : chain "GENESIS" (ledger s);
  ti_disk_chain : chain "GENESIS" (default [] (disk_ledger s));
  ti_length : (Z.of_nat (length (ledger s)) <= LEDGER_MAX)%Z;
  ti_disk_length : (Z.of_nat (length (default [] (disk_ledger s))) <= LEDGER_MAX)%Z;
  ti_alerts : (Z.of_nat (length (alerts s)) <= ALERTS_MAX)%Z;
  ti_disk_alerts : (Z.of_nat (length (default [] (disk_alerts s))) <= ALERTS_MAX)%Z
}.

Lemma initial_inv t : trust_inv (initial_trust t).
Proof. by split. Qed.

Lemma alerted_inv s a : trust_inv s -> trust_inv (alerted s a).
Proof.
  intros [H1 H2 H3 H4 H5 H6].
  assert (Ht : (Z.of_nat (length (trim ALERTS_MAX (alerts s ++ [a]))) <= ALERTS_MAX)%Z)
    by by apply trim_length.
  split; try done. cbn. by destruct (disk_ok s).
Qed.

Lemma only_alerts_inv s s' : trust_inv s -> only_alerts s s' -> trust_inv s'.
Proof.
  intros Hi (la & _ & ->). revert s Hi. induction la as [|a la IH]; intros s Hi; [done|].
  cbn. by apply IH, alerted_inv.
Qed.

Lemma truncated_length s : (Z.of_nat (length (ledger (truncated s))) <= LEDGER_MAX)%Z.
Proof.
  unfold truncated. destruct (Z.ltb_spec LEDGER_MAX (Z.of_nat (length (ledger s)))) as [H|H]; [|done].
  cbn [ledger set_ledger]. rewrite length_rebase, length_drop. unfold LEDGER_MAX in *. lia.
Qed.

Lemma appended_inv s etype eid ev from to act rsn ext :
  trust_inv s -> trust_inv (appended s (new_entry s etype eid ev from to act rsn ext)).
Proof.
  intros Hi. set (e := new_entry _ _ _ _ _ _ _ _ _).
  set (s1 := draw (set_ledger (ledger s ++ [e]) s)).
  assert (Hc : chain "GENESIS" (ledger s1)).
  { cbn. apply chain_app. split; [apply Hi|]. by split. }
  assert (H2 : chain "GENESIS" (ledger (truncated s1))).
  { unfold truncated. destruct (_ <? _)%Z; [apply rebase_chain|done]. }
  pose proof (truncated_length s1) as H3.
  assert (H4 : default [] (disk_ledger (truncated s1)) = default [] (disk_ledger s)
               /\ (Z.of_nat (length (alerts (truncated s1))) <= ALERTS_MAX)%Z
               /\ (Z.of_nat (length (default [] (disk_alerts (truncated s1)))) <= ALERTS_MAX)%Z).
  { unfold truncated. destruct (_ <? _)%Z; [|by split; [done|split; [apply Hi|apply Hi]]].
    split; [done|]. assert (Ht : forall a, (Z.of_nat (length (trim ALERTS_MAX (alerts s ++ [a]))) <= ALERTS_MAX)%Z)
      by (intros a; by apply trim_length).
    split; [apply Ht|]. cbn. destruct (disk_ok s); [apply Ht|apply Hi]. }
  destruct H4 as (H4 & H5 & H6). unfold appended. fold s1.
  split; cbn [ledger alerts disk_ledger disk_alerts save_ledger]; try done.
  - destruct (disk_ok (truncated s1)); cbn; [done|]. rewrite H4. apply Hi.
  - destruct (disk_ok (truncated s1)); cbn; [done|]. rewrite H4. apply Hi.
Qed.

Lemma trust_step_inv op s : trust_inv s -> trust_inv (trust_step op s).
Proof.
  intros Hi. destruct op as [ty id ev a b act r x|ty id a ac act r x|sv c ty id sm d| | | |t|ok]; cbn [trust_step].
  - unfold run_state, record_event. rewrite append_eq. by apply appended_inv.
  - unfold run_state, transition. destruct (transition_target a ac) as [to|].
    + rewrite append_eq. by apply appended_inv.
    + unfold py_bind. rewrite broadcast_eq. by apply alerted_inv.
  - by apply alerted_inv.
  - eapply only_alerts_inv; [done|]. apply verify_only_alerts.
  - eapply only_alerts_inv; [done|]. apply health_only_alerts.
  - destruct Hi. by split.
  - destruct Hi. by split.
  - destruct Hi. by split.
Qed.

Lemma trust_run_inv ops s : trust_inv s -> trust_inv (trust_run ops s).
Proof.
  revert s. induction ops as [|op ops IH]; intros s Hi; [done|].
  change (trust_run (op :: ops) s) with (trust_run ops (trust_step op s)).
  by apply IH, trust_step_inv.
Qed.

(** C31. The ledger always verifies and stays bounded: after any sequence of
    operations (truncations, failed writes and restarts included) the integrity
    check reports the whole ledger intact and raises no alert, the ledger holds at
    most 100000 entries and the alert stream at most 10000. *)
Theorem ledger_always_intact ops t :
  let s := trust_run ops (initial_trust t) in
  verify_ledger_integrity s = (s, Ret (IntegrityOk (Z.of_nat (length (ledger s)))))
  /\ (Z.of_nat (length (ledger s)) <= 100000)%Z
  /\ (Z.of_nat (length (alerts s)) <= 10000)%Z.
Proof.
  intros s. pose proof (trust_run_inv ops _ (initial_inv t)) as Hi. fold s in Hi.
  split; [|split; apply Hi]. rewrite verify_eq.
  by rewrite (proj2 (first_broken_chain "GENESIS" 0 (ledger s)) (ti_chain _ Hi)).
Qed.

(** [transition] on both branches.  A move of the table appends one entry, with
    the state it leads to and a hash that extends the chain, and touches no alert
    (below the truncation bound); any other move raises, leaves the ledger and its
    file alone, and adds one warning that carries the entity's last eight events.
    No move leaves [revoked]. *)
Theorem transition_spec s etype eid from action act rsn ext :
  match transition_target from action with
  | Some to =>
      from <> REVOKED
      /\ ((Z.of_nat (length (ledger s)) < LEDGER_MAX)%Z ->
          let e := new_entry s etype eid ("credential_" ++ action) from to act rsn ext in
          exists s', transition etype eid from action act rsn ext s = (s', Ret (Some e))
          /\ ledger s' = ledger s ++ [e] /\ alerts s' = alerts s
          /\ from_state e = from /\ to_state e = to
          /\ entry_hash e = compute_entry_hash (last_hash "GENESIS" (ledger s)) e
          /\ disk_ledger s' = (if disk_ok s then Some (ledger s') else disk_ledger s))
  | None =>
      exists s' a, transition etype eid from action act rsn ext s
                   = (s', Raise (IllegalTransitionError from action))
      /\ ledger s' = ledger s /\ disk_ledger s' = disk_ledger s
      /\ alerts s' = trim ALERTS_MAX (alerts s ++ [a])
      /\ severity a = SEVERITY_WARN /\ category a = CATEGORY_ILLEGAL_TRANSITION
      /\ root_cause a = recent_entity_events s eid 8
  end.
Proof.
  unfold transition. destruct (transition_target from action) as [to|] eqn:Ht.
  - split.
    { intros ->. unfold transition_target in Ht. cbn in Ht.
      repeat (destruct (bool_decide _) eqn:Hb in Ht; [by apply bool_decide_eq_true in Hb|]); done. }
    intros Hlen. set (e := new_entry _ _ _ _ _ _ _ _ _). exists (appended s e). rewrite append_eq. fold e.
    assert (Htr : truncated (draw (set_ledger (ledger s ++ [e]) s)) = draw (set_ledger (ledger s ++ [e]) s)).
    { unfold truncated. cbn [ledger draw set_ledger]. rewrite length_app. cbn [length].
      destruct (Z.ltb_spec LEDGER_MAX (Z.of_nat (length (ledger s) + 1))); [lia|done]. }
    unfold appended. rewrite Htr. cbn [ledger alerts save_ledger draw set_ledger].
    rewrite last_snoc. by destruct (disk_ok s) eqn:Hd; cbn; rewrite Hd.
  - unfold py_bind. rewrite broadcast_eq. eexists _, _. split; [reflexivity|]. done.
Qed.

(** ** Tamper evidence *)

(** Every byte string the chain of [l] feeds to the HMAC. *)
Fixpoint chain_inputs (prev : string) l : list bytes :=
  match l with
  | [] => []
  | e :: r => hash_input prev e :: chain_inputs (entry_hash e) r
  end.

Lemma chain_inputs_app prev l r :
  chain_inputs prev (l ++ r) = chain_inputs prev l ++ chain_inputs (last_hash prev l) r.
Proof.
  revert prev. induction l as [|e l IH]; intros prev; [done|].
  rewrite last_hash_cons. cbn. by rewrite IH.
Qed.

Lemma last_hash_snoc prev l e : last_hash prev (l ++ [e]) = entry_hash e.
Proof. unfold last_hash. by rewrite last_snoc. Qed.

Lemma chain_no_bar l : chain "GENESIS" l -> no_bar (last_hash "GENESIS" l) = true.
Proof.
  induction l as [|e l _] using rev_ind; [done|]. rewrite last_hash_snoc.
  intros [_ [He _]]%chain_app. rewrite He. unfold TrustLedger.compute_entry_hash.
  rewrite hmac_hex_eq. apply hex_no_bar, hmac_ok.
Qed.

(** Entries with the same fields, [extra] up to the order of its keys. *)
Definition same_entry e e' : Prop :=
  entry_id e = entry_id e' /\ e_ts e = e_ts e' /\ entity_type e = entity_type e'
  /\ entity_id e = entity_id e' /\ event e = event e' /\ from_state e = from_state e'
  /\ to_state e = to_state e' /\ actor e = actor e' /\ reason e = reason e'
  /\ canon (JObj (extra e)) = canon (JObj (extra e')).

Lemma canonical_inj e e' : canonical e = canonical e' -> same_entry e e'.
Proof.
  intros H. apply (dumps_inj compact_sorted_utf8 eq_refl) in H; [|by exists ""].
  destruct e, e'. cbn in H. injection H as -> -> -> -> -> Hx -> -> -> ->.
  do 9 (split; [done|]). exact (f_equal JObj Hx).
Qed.

(** The same content and hash, entry by entry. *)
Definition same_content l l' : Prop :=
  Forall2 (fun e e' => same_entry e e' /\ entry_hash e = entry_hash e') l l'.

(** The last hash commits to the whole ledger: two intact ledgers of one length
    that end in the same hash agree on every field of every entry (the keys of
    [extra] in any order), or the HMAC collides, under the ledger key, on two inputs of the chains. *)
Theorem ledger_head_commits l l' :
  chain "GENESIS" l -> chain "GENESIS" l' -> length l = length l' ->
  last_hash "GENESIS" l = last_hash "GENESIS" l' ->
  same_content l l'
  \/ exists x y, x ∈ chain_inputs "GENESIS" l /\ y ∈ chain_inputs "GENESIS" l'
                /\ hmac_collides ledger_key x y.
Proof.
  revert l'. induction l as [|e l IH] using rev_ind; intros l' Hc Hc' Hlen Hh.
  { left. destruct l'; [constructor|done]. }
  assert (Hne : l' <> []) by (intros ->; rewrite length_app in Hlen; cbn in Hlen; lia).
  destruct (exists_last Hne) as (l0' & e' & ->). clear Hne.
  rewrite !length_app in Hlen. cbn in Hlen. rewrite !last_hash_snoc in Hh.
  apply chain_app in Hc as [Hc [He _]], Hc' as [Hc' [He' _]].
  pose proof He as Hx. rewrite Hh, He' in Hx.
  unfold TrustLedger.compute_entry_hash in Hx.
  rewrite !chain_inputs_app.
  destruct (hmac_hex_inj_or_collides _ _ _ Hx) as [Hin|Hcol].
  - apply utf8_inj, bar_split in Hin as [Hp Hcan]; [|by apply chain_no_bar..].
    destruct (IH l0' Hc Hc' ltac:(lia) (eq_sym Hp)) as [Hs|(x & y & Hxin & Hyin & Hxy)].
    + left. apply Forall2_app; [done|]. constructor; [split; [by apply canonical_inj|done]|constructor].
    + right. exists x, y. rewrite !elem_of_app. auto.
  - right. eexists _, _. destruct Hcol as [Hn Heq].
    split; [|split; [|split; [exact (not_eq_sym Hn)|exact (eq_sym Heq)]]];
      apply elem_of_app; right; by left.
Qed.

(** Dropping entries from the end is not detected: every prefix of an intact
    ledger passes the integrity check without an alert. *)
Theorem tail_truncation_undetected s n :
  chain "GENESIS" (ledger s) ->
  let s' := set_ledger (take n (ledger s)) s in
  verify_ledger_integrity s' = (s', Ret (IntegrityOk (Z.of_nat (length (take n (ledger s)))))).
Proof.
  intros Hc s'. rewrite verify_eq. subst s'. cbn [ledger set_ledger].
  rewrite <- (take_drop n (ledger s)) in Hc. apply chain_app in Hc as [Hc _].
  by rewrite (proj2 (first_broken_chain "GENESIS" 0 _) Hc).
Qed.

(** ** Failed writes *)

(** Operations of a process whose disk never accepts a write; the callers' own
    alerts carry other categories. *)
Definition disk_down_op (op : trust_op) : bool :=
  match op with
  | SetDisk ok => negb ok
  | BroadcastAlert _ c _ _ _ _ => negb (str_eqb c CATEGORY_PERSISTENCE)
  | Restart => false
  | _ => true
  end.

Record unsaved s : Prop := {
  us_disk : disk_ok s = false;
  us_ledger : disk_ledger s = None;
  us_disk_alerts : disk_alerts s = None;
  us_alerts : Forall (fun a => category a <> CATEGORY_PERSISTENCE) (alerts s)
}.

Lemma alerted_unsaved s a : unsaved s -> category a <> CATEGORY_PERSISTENCE -> unsaved (alerted s a).
Proof.
  intros [H1 H2 H3 H4] Ha. split; cbn; [done|done|by rewrite H1|].
  assert (Hall : Forall (fun a => category a <> CATEGORY_PERSISTENCE) (alerts s ++ [a])).
  { apply Forall_app. split; [done|]. by apply Forall_singleton. }
  unfold trim. destruct (_ <? _)%Z; [by apply Forall_drop|done].
Qed.

Lemma only_alerts_unsaved s s' : unsaved s -> only_alerts s s' -> unsaved s'.
Proof.
  intros Hi (la & Hla & ->). revert s Hi. induction Hla as [|a la Ha Hla IH]; intros s Hi; [done|].
  cbn. by apply IH, alerted_unsaved.
Qed.

Lemma appended_unsaved s e : unsaved s -> unsaved (appended s e).
Proof.
  intros Hu.
  assert (H1 : unsaved (draw (set_ledger (ledger s ++ [e]) s))) by (destruct Hu; by split).
  assert (H2 : unsaved (truncated (draw (set_ledger (ledger s ++ [e]) s)))).
  { unfold truncated. destruct (_ <? _)%Z; [|done].
    destruct (alerted_unsaved _ (new_alert (draw (set_ledger (ledger s ++ [e]) s)) SEVERITY_WARN
      CATEGORY_ENVIRONMENT "ledger" "trust_ledger"
      ("ledger truncated at " ++ py_str_int LEDGER_MAX ++ " entries")
      [("dropped", JInt (Z.of_nat (length (ledger (draw (set_ledger (ledger s ++ [e]) s)))) - LEDGER_MAX))])
      H1) as [K1 K2 K3 K4]; [done|]. by split. }
  unfold appended. destruct H2 as [K1 K2 K3 K4]. split; [done|cbn; by rewrite K1|done|done].
Qed.

Lemma disk_down_step op s : disk_down_op op = true -> unsaved s -> unsaved (trust_step op s).
Proof.
  intros Hop Hu. destruct op as [ty id ev a b act r x|ty id a ac act r x|sv c ty id sm d| | | |t|ok];
    cbn [trust_step].
  - unfold run_state, record_event. rewrite append_eq. by apply appended_unsaved.
  - unfold run_state, transition. destruct (transition_target a ac).
    + rewrite append_eq. by apply appended_unsaved.
    + unfold py_bind. rewrite broadcast_eq. by apply alerted_unsaved.
  - apply alerted_unsaved; [done|]. cbn. intros ->. by cbn in Hop.
  - eapply only_alerts_unsaved; [done|]. apply verify_only_alerts.
  - eapply only_alerts_unsaved; [done|]. apply health_only_alerts.
  - done.
  - destruct Hu. by split.
  - destruct ok; [done|]. destruct Hu. by split.
Qed.

(** A disk that refuses every write goes unnoticed: nothing reaches it and a
    restart forgets the whole ledger, but [save] has swallowed the error, so no
    persistence alert is ever raised and the health report says that storage is
    writable. *)
Theorem failed_writes_unnoticed ops t :
  forallb disk_down_op ops = true ->
  let s := trust_run (SetDisk false :: ops) (initial_trust t) in
  ledger (load s) = []
  /\ Forall (fun a => category a <> CATEGORY_PERSISTENCE) (alerts s)
  /\ exists h, run_outcome health_report s = Ret h /\ persist_writable h = true.
Proof.
  intros Hops s.
  assert (Hu : unsaved s).
  { subst s. assert (H0 : unsaved (trust_step (SetDisk false) (initial_trust t))) by by split.
    change (trust_run (SetDisk false :: ops) (initial_trust t))
      with (trust_run ops (trust_step (SetDisk false) (initial_trust t))).
    generalize dependent (trust_step (SetDisk false) (initial_trust t)).
    induction ops as [|op ops IH]; intros s Hs; [done|]. apply andb_prop in Hops as [Hop Hops].
    apply (IH Hops (trust_step op s)). by apply disk_down_step. }
  split; [unfold load; by rewrite (us_ledger _ Hu)|]. split; [apply Hu|].
  destruct (health_only_alerts s) as [_ (h & Hh & Hp & _)]. by exists h.
Qed.
End TrustFacts.

(** ** Witnesses *)

Section Examples.
#[local] Definition key : bytes := utf8 "k".
#[local] Definition tok (n : nat) : string := py_str_int (Z.of_nat n).
#[local] Definition entry1 : ledger_entry :=
  Entry "tle_0" 1 "credential" "c1" "credential_issue" "" "pending" "system" "" [] "".
#[local] Definition entry2 : ledger_entry :=
  Entry "tle_1" 2 "credential" "c1" "credential_verify" "pending" "verified" "system" "" [] "".
#[local] Definition two_entries : list ledger_entry := rebase key "GENESIS" [entry1; entry2].

Lemma ledger_head_commits_witness :
  same_content two_entries two_entries
  \/ exists x y, x ∈ chain_inputs "GENESIS" two_entries /\ y ∈ chain_inputs "GENESIS" two_entries
                /\ hmac_collides key x y.
Proof.
  apply (ledger_head_commits key two_entries two_entries);
    [apply rebase_chain|apply rebase_chain|reflexivity|reflexivity].
Defined.

Lemma tail_truncation_undetected_witness :
  let s' := set_ledger (take 1 two_entries) (set_ledger two_entries (initial_trust 0)) in
  verify_ledger_integrity key tok s' = (s', Ret (IntegrityOk (Z.of_nat (length (take 1 two_entries))))).
Proof.
  apply (tail_truncation_undetected key tok (set_ledger two_entries (initial_trust 0)) 1).
  apply rebase_chain.
Defined.

Lemma failed_writes_unnoticed_witness :
  let s := trust_run key tok
             (SetDisk false :: [Transition "credential" "c1" "" "issue" "system" "" []])
             (initial_trust 0) in
  ledger (load s) = []
  /\ Forall (fun a => category a <> CATEGORY_PERSISTENCE) (alerts s)
  /\ exists h, run_outcome (health_report key tok) s = Ret h /\ persist_writable h = true.
Proof.
  apply (failed_writes_unnoticed key tok [Transition "credential" "c1" "" "issue" "system" "" []] 0).
  reflexivity.
Defined.
End Examples.
