(* ===== verification/IdentityStore.v ===== *)
(** * Identities and their credentials ([services/identity_gateway/store.py])

    The identity store with its indexes by wallet, telegram account and invite
    code, sub-identities, one-time binding codes, and the credentials whose every
    change of status goes through the trust ledger.  What the store relies on of
    the ledger is the class [CredentialLedger] with its laws; [TrustLedger]
    discharges them, and the theorems hold whatever else uses the ledger.  The
    module lock is reentrant and held by every operation, so each is one step.
    [_persist] writes a snapshot of all identities, kept here as the map and its
    insertion order. *)

From S2P Require Import Prelude PyBytes PyJson PyFloat PyHoare TrustLedger.
#[local] Open Scope string_scope.

(** ** What the store needs of the ledger *)

Class CredentialLedger (T : Type) := {
  (** [state_machine.transition(...)["to_state"]] *)
  cl_transition : string -> string -> string -> string -> string -> string ->
    list (string * json) -> M T trust_error string;
  (** [state_machine.record_event(...)] *)
  cl_event : string -> string -> string -> string -> string -> string -> string ->
    list (string * json) -> M T trust_error unit
}.

Class CredentialLedgerLaws (T : Type) `{CredentialLedger T} := {
  cl_transition_target : forall etype eid from action actor reason extra s,
    run_outcome (cl_transition etype eid from action actor reason extra) s
    = match transition_target from action with
      | Some to => Ret to
      | None => Raise (IllegalTransitionError from action)
      end;
  cl_event_returns : forall etype eid ev from to actor reason extra s,
    run_outcome (cl_event etype eid ev from to actor reason extra) s = Ret tt
}.

(** ** Identities *)

Definition CREDENTIAL_TYPES : list string :=
  ["email"; "phone"; "wallet"; "domain"; "business_reg"; "telegram"; "twofa"].
Definition IDENTITY_CLASSES : list string := ["user"; "business"; "agent"].
Definition UNVERIFIED := "unverified".
Definition BASIC := "basic".
Definition ENHANCED := "enhanced".

Record credential := Credential {
  cr_id : string;
  cr_type : string;
  cr_status : string;
  cr_issuer : string;
  cr_issued_at : Z;
  cr_verified_at : option Z;
  cr_expires_at : option Z
}.

Record KarmaIdentity := Identity {
  identity_id : string;
  wallet : string;
  id_status : string;
  id_created_at : Z;
  telegram_user_id : option Z;
  telegram_username : option string;
  business_id : option string;
  agent_ids : list string;
  payment_policy : list (string * json);
  metadata : list (string * json);
  parent_identity_id : option string;
  sub_identity_ids : list string;
  invite_code : string;
  referred_by : option string;
  karma_points : float;
  twofa_code : string;
  identity_class : string;
  verification_status : string;
  credentials : list credential
}.

(** Field assignments. *)
Definition set_telegram (tg : option Z) (name : option string) (i : KarmaIdentity) : KarmaIdentity :=
  Identity (identity_id i) (wallet i) (id_status i) (id_created_at i) tg name (business_id i) (agent_ids i) (payment_policy i)
    (metadata i) (parent_identity_id i) (sub_identity_ids i) (invite_code i) (referred_by i)
    (karma_points i) (twofa_code i) (identity_class i) (verification_status i) (credentials i).
Definition set_twofa (code : string) (i : KarmaIdentity) : KarmaIdentity :=
  Identity (identity_id i) (wallet i) (id_status i) (id_created_at i) (telegram_user_id i)
    (telegram_username i) (business_id i) (agent_ids i) (payment_policy i) (metadata i) (parent_identity_id i) (sub_identity_ids i)
    (invite_code i) (referred_by i) (karma_points i) code (identity_class i)
    (verification_status i) (credentials i).
Definition set_policy (p : list (string * json)) (i : KarmaIdentity) : KarmaIdentity :=
  Identity (identity_id i) (wallet i) (id_status i) (id_created_at i) (telegram_user_id i)
    (telegram_username i) (business_id i) (agent_ids i) p (metadata i) (parent_identity_id i) (sub_identity_ids i)
    (invite_code i) (referred_by i) (karma_points i) (twofa_code i) (identity_class i)
    (verification_status i) (credentials i).
Definition set_subs (l : list string) (i : KarmaIdentity) : KarmaIdentity :=
  Identity (identity_id i) (wallet i) (id_status i) (id_created_at i) (telegram_user_id i)
    (telegram_username i) (business_id i) (agent_ids i) (payment_policy i) (metadata i) (parent_identity_id i) l
    (invite_code i) (referred_by i) (karma_points i) (twofa_code i) (identity_class i)
    (verification_status i) (credentials i).
Definition set_points (x : float) (i : KarmaIdentity) : KarmaIdentity :=
  Identity (identity_id i) (wallet i) (id_status i) (id_created_at i) (telegram_user_id i)
    (telegram_username i) (business_id i) (agent_ids i) (payment_policy i) (metadata i) (parent_identity_id i) (sub_identity_ids i)
    (invite_code i) (referred_by i) x (twofa_code i) (identity_class i)
    (verification_status i) (credentials i).
Definition set_class (c : string) (i : KarmaIdentity) : KarmaIdentity :=
  Identity (identity_id i) (wallet i) (id_status i) (id_created_at i) (telegram_user_id i)
    (telegram_username i) (business_id i) (agent_ids i) (payment_policy i) (metadata i) (parent_identity_id i) (sub_identity_ids i)
    (invite_code i) (referred_by i) (karma_points i) (twofa_code i) c
    (verification_status i) (credentials i).
Definition set_credentials (v : string) (l : list credential) (i : KarmaIdentity) : KarmaIdentity :=
  Identity (identity_id i) (wallet i) (id_status i) (id_created_at i) (telegram_user_id i)
    (telegram_username i) (business_id i) (agent_ids i) (payment_policy i) (metadata i) (parent_identity_id i) (sub_identity_ids i)
    (invite_code i) (referred_by i) (karma_points i) (twofa_code i) (identity_class i) v l.

Definition with_status (st : string) (verified_at : option Z) (c : credential) : credential :=
  Credential (cr_id c) (cr_type c) st (cr_issuer c) (cr_issued_at c) verified_at (cr_expires_at c).

(** Pending or verified. *)
Definition is_active (c : credential) : bool := str_mem (cr_status c) [PENDING; VERIFIED].

(** [_recompute_verification_status_locked] *)
Definition verified_types (l : list credential) : gset string :=
  list_to_set (map cr_type (List.filter (fun c => str_eqb (cr_status c) VERIFIED) l)).
Definition derived_status (l : list credential) : string :=
  let types := verified_types l in
  if (3 <=? size types)%nat && bool_decide ("wallet" ∈ types) then ENHANCED
  else if negb (bool_decide (types = ∅)) then BASIC
  else UNVERIFIED.
Definition recompute (i : KarmaIdentity) : KarmaIdentity :=
  set_credentials (derived_status (credentials i)) (credentials i) i.

Inductive id_error : Type :=
| IdError (e : py_exn)
| IdTransition (e : trust_error).

Record id_store (T : Type) := Store {
  by_id : gmap string KarmaIdentity;
  id_order : list string;
  by_wallet : gmap string string;
  by_tg : gmap Z string;
  by_invite : gmap string string;
  trust_state : T;
  id_disk : option (gmap string KarmaIdentity * list string);
  id_disk_ok : bool;
  id_now : Z;
  id_drawn : nat
}.
Arguments Store {T} _ _ _ _ _ _ _ _ _ _.
Arguments by_id {T} _.
Arguments id_order {T} _.
Arguments by_wallet {T} _.
Arguments by_tg {T} _.
Arguments by_invite {T} _.
Arguments trust_state {T} _.
Arguments id_disk {T} _.
Arguments id_disk_ok {T} _.
Arguments id_now {T} _.
Arguments id_drawn {T} _.

(** ** Operations *)

Section Store.
Context {T : Type} `{CredentialLedger T} (token_hex invite_of : nat -> string).
Abbreviation store := (id_store T).
Abbreviation MI := (M store id_error).
#[local] Open Scope py_scope.

Definition put_identity (i : KarmaIdentity) (s : store) : store :=
  Store (<[identity_id i := i]> (by_id s))
    (if bool_decide (is_Some (by_id s !! identity_id i)) then id_order s else (id_order s ++ [identity_id i])%list)
    (by_wallet s) (by_tg s) (by_invite s) (trust_state s) (id_disk s) (id_disk_ok s) (id_now s) (id_drawn s).
(** Assignments to the fields of an identity already in the dict. *)
Definition change (k : string) (f : KarmaIdentity -> KarmaIdentity) (s : store) : store :=
  Store (alter f k (by_id s)) (id_order s) (by_wallet s) (by_tg s) (by_invite s) (trust_state s)
    (id_disk s) (id_disk_ok s) (id_now s) (id_drawn s).
Definition reindex_wallet (i : KarmaIdentity) (s : store) : store :=
  Store (by_id s) (id_order s) (<[wallet i := identity_id i]> (by_wallet s)) (by_tg s) (by_invite s)
    (trust_state s) (id_disk s) (id_disk_ok s) (id_now s) (id_drawn s).
Definition reindex_tg (i : KarmaIdentity) (s : store) : store :=
  Store (by_id s) (id_order s) (by_wallet s)
    (match telegram_user_id i with Some t => <[t := identity_id i]> (by_tg s) | None => by_tg s end)
    (by_invite s) (trust_state s) (id_disk s) (id_disk_ok s) (id_now s) (id_drawn s).
Definition reindex_invite (i : KarmaIdentity) (s : store) : store :=
  Store (by_id s) (id_order s) (by_wallet s) (by_tg s)
    (if str_eqb (invite_code i) "" then by_invite s else <[invite_code i := identity_id i]> (by_invite s))
    (trust_state s) (id_disk s) (id_disk_ok s) (id_now s) (id_drawn s).
Definition persist (s : store) : store :=
  Store (by_id s) (id_order s) (by_wallet s) (by_tg s) (by_invite s) (trust_state s)
    (if id_disk_ok s then Some (by_id s, id_order s) else id_disk s) (id_disk_ok s) (id_now s) (id_drawn s).
Definition draw (s : store) : store :=
  Store (by_id s) (id_order s) (by_wallet s) (by_tg s) (by_invite s) (trust_state s) (id_disk s)
    (id_disk_ok s) (id_now s) (S (id_drawn s)).
Definition set_trust (t : T) (s : store) : store :=
  Store (by_id s) (id_order s) (by_wallet s) (by_tg s) (by_invite s) t (id_disk s) (id_disk_ok s)
    (id_now s) (id_drawn s).

(** A call of the ledger; its exception propagates. *)
Definition call_ledger {A} (m : M T trust_error A) : MI A :=
  fun s => match m (trust_state s) with
           | (t, Ret a) => (set_trust t s, Ret a)
           | (t, Raise e) => (set_trust t s, Raise (IdTransition e))
           end.

Definition raise_py {A} (e : py_exn) : MI A := py_raise (IdError e).
Definition check (cond : bool) (e : py_exn) : MI unit := py_require cond (IdError e).

(** [_BY_ID.get(k)], or [KeyError]. *)
Definition find_identity (message k : string) : MI KarmaIdentity :=
  let! s := py_get in
  match by_id s !! k with Some i => py_ret i | None => raise_py (KeyError message) end.
Definition lookup_identity (k : string) : MI KarmaIdentity := find_identity "identity not found" k.

Definition DEFAULT_POLICY : list (string * json) :=
  [("mode", JStr "manual_confirm"); ("single_limit_usdc", JStr "500");
   ("daily_limit_usdc", JStr "2000"); ("allowed_categories", JList []);
   ("allowed_agents", JList []); ("emergency_revoke", JBool false)].

Definition new_identity (k w invite code : string) (at_ : Z) (policy meta : list (string * json))
    (parent referred : option string) (points : float) : KarmaIdentity :=
  Identity k w "active" at_ None None None [] policy meta parent [] invite referred points code
    "user" UNVERIFIED [].

(** The identity enters the dict and the two indexes it has keys for. *)
Definition insert_identity (i : KarmaIdentity) : MI unit :=
  py_modify (put_identity i) ;;; py_modify (reindex_wallet i) ;;; py_modify (reindex_invite i).

Definition new_id : MI string :=
  let! s := py_get in py_modify draw ;;; py_ret ("kid_" ++ token_hex (id_drawn s)).
Definition new_invite_code : MI string :=
  let! s := py_get in py_modify draw ;;; py_ret (invite_of (id_drawn s)).

Definition get_or_create_by_wallet (wal : string) (meta : list (string * json)) : MI KarmaIdentity :=
  let w := py_lower wal in
  let! s := py_get in
  match by_wallet s !! w ≫= (fun k => if str_eqb k "" then None else by_id s !! k) with
  | Some i => py_ret i
  | None =>
      let! k := new_id in
      let! code := new_invite_code in
      let i := new_identity k w code "" (id_now s) DEFAULT_POLICY meta None None fzero in
      insert_identity i ;;; py_modify persist ;;; py_ret i
  end.

Definition get_by_id (s : store) (k : string) : option KarmaIdentity := by_id s !! k.
(** An index entry, followed when it is truthy. *)
Definition follow (s : store) (k : option string) : option KarmaIdentity :=
  if truthy_str k then k ≫= (fun k => by_id s !! k) else None.
Definition get_by_wallet (s : store) (wal : string) : option KarmaIdentity :=
  follow s (by_wallet s !! py_lower wal).
Definition get_by_telegram (s : store) (tg : Z) : option KarmaIdentity := follow s (by_tg s !! tg).

(** [_BY_ID.get(ident.parent_identity_id) or ident], for a sub-identity. *)
Definition main_of (s : store) (i : KarmaIdentity) : KarmaIdentity :=
  match follow s (parent_identity_id i) with Some m => m | None => i end.
Definition resolve_main_identity (s : store) (k : string) : option KarmaIdentity :=
  main_of s <$> by_id s !! k.
Definition resolve_effective_identity (s : store) (tg : Z) : option KarmaIdentity :=
  main_of s <$> follow s (by_tg s !! tg).

Definition create_sub_identity (parent_id wal : string) : MI KarmaIdentity :=
  let w := py_lower wal in
  let! s := py_get in
  let! parent := find_identity "parent identity not found" parent_id in
  check (negb (truthy_str (parent_identity_id parent)))
    (ValueError "sub-identity cannot create sub-identities") ;;;
  check (length (sub_identity_ids parent) <? 2)%nat (ValueError "max 2 sub-identities allowed") ;;;
  check (negb (bool_decide (is_Some (by_wallet s !! w))))
    (ValueError "wallet already bound to another identity") ;;;
  let! k := new_id in
  let! code := new_invite_code in
  let i := new_identity k w code "" (id_now s) (payment_policy parent)
             [("role", JStr "sub"); ("parent", JStr parent_id)] (Some parent_id)
             (if str_eqb (invite_code parent) "" then None else Some (invite_code parent)) fzero in
  insert_identity i ;;;
  py_modify (change parent_id (fun p => set_subs (sub_identity_ids p ++ [k])%list p)) ;;;
  py_modify persist ;;;
  py_ret i.

Definition bind_telegram (k : string) (tg : Z) (username : option string) : MI KarmaIdentity :=
  let! i := lookup_identity k in
  let! s := py_get in
  check (negb (truthy_str (by_tg s !! tg) && negb (bool_decide (by_tg s !! tg = Some k))))
    (ValueError "telegram already bound to another identity") ;;;
  py_modify (change k (set_telegram (Some tg) username)) ;;;
  py_modify (reindex_tg (set_telegram (Some tg) username i)) ;;;
  py_modify persist ;;;
  lookup_identity k.

(** [_mutate_credential_locked] on the credential object at position [n]. *)
Definition mutate_credential_at (k : string) (n : nat) (action actor reason : string) : MI credential :=
  let! i := lookup_identity k in
  match credentials i !! n with
  | None => raise_py (KeyError "credential not found")
  | Some c =>
      let! st := call_ledger (cl_transition "credential" (cr_id c) (cr_status c) action actor reason
                   [("identity_id", JStr (identity_id i)); ("type", JStr (cr_type c))]) in
      let! s := py_get in
      let c' := with_status st (if str_eqb action "verify" then Some (id_now s) else cr_verified_at c) c in
      py_modify (change k (fun i => recompute (set_credentials (verification_status i)
                                                 (<[n := c']> (credentials i)) i))) ;;;
      py_modify persist ;;;
      py_ret c'
  end.

(** The position of the first credential that satisfies [f]. *)
Fixpoint position (f : credential -> bool) (l : list credential) : option nat :=
  match l with
  | [] => None
  | c :: r => if f c then Some 0%nat else S <$> position f r
  end.

Definition issue_credential (k cred_type issuer : string) (ttl_seconds : Z) (actor : string)
    (auto_verify : bool) : MI credential :=
  check (str_mem cred_type CREDENTIAL_TYPES)
    (ValueError ("unsupported credential type: " ++ cred_type)) ;;;
  check (negb ((ttl_seconds <? 0) || (10 * 365 * 86400 <? ttl_seconds))%Z)
    (ValueError "ttl_seconds out of range") ;;;
  let! i := lookup_identity k in
  check (bool_decide (List.filter (fun c => str_eqb (cr_type c) cred_type && is_active c) (credentials i) = []))
    (ValueError ("credential of type " ++ cred_type ++ " already exists and is active")) ;;;
  let! s := py_get in
  py_modify draw ;;;
  let cid := "cred_" ++ token_hex (id_drawn s) in
  let! st := call_ledger (cl_transition "credential" cid "" "issue" actor
               ("issue " ++ cred_type ++ " for " ++ k)
               [("identity_id", JStr k); ("type", JStr cred_type)]) in
  let c := Credential cid cred_type st (str_upto 64 issuer) (id_now s) None
             (if (0 <? ttl_seconds)%Z then Some (id_now s + ttl_seconds)%Z else None) in
  py_modify (change k (fun i => recompute (set_credentials (verification_status i)
                                             (credentials i ++ [c])%list i))) ;;;
  py_modify persist ;;;
  if auto_verify
  then mutate_credential_at k (length (credentials i)) "verify" actor "verification passed"
  else py_ret c.

(** [bind_by_2fa]; the messages are in Chinese in the source. *)
Definition bind_by_2fa (tg : Z) (identity code : string) (username : option string) : MI KarmaIdentity :=
  let actor := "tg:" ++ py_str_int tg in
  let! i := find_identity "identity id does not exist" (py_strip identity) in
  let k := identity_id i in
  check (negb (str_eqb (twofa_code i) "")) (ValueError "2FA code is burnt") ;;;
  check (py_isascii (twofa_code i) && py_isascii (py_strip code))
    (TypeError "comparing strings with non-ASCII characters is not supported") ;;;
  check (str_eqb (twofa_code i) (py_strip code)) (ValueError "2FA code is wrong") ;;;
  let! s := py_get in
  py_when (truthy_str (by_tg s !! tg) && negb (bool_decide (by_tg s !! tg = Some k)))
    (py_modify (change (default "" (by_tg s !! tg)) (set_telegram None None))) ;;;
  py_modify (change k (fun i => set_twofa "" (set_telegram (Some tg) username i))) ;;;
  py_modify (reindex_tg (set_telegram (Some tg) username i)) ;;;
  call_ledger (cl_event "identity" k "telegram_bind" "unbound" "telegram_bound" actor "2fa bind success" []) ;;;
  match position (fun c => str_eqb (cr_type c) "telegram" && is_active c) (credentials i) with
  | Some n =>
      mutate_credential_at k n "revoke" actor "re-bind replaces old telegram credential" ;;; py_ret tt
  | None => py_ret tt
  end ;;;
  issue_credential k "telegram" "karma" 0 actor true ;;;
  py_modify persist ;;;
  lookup_identity k.

Definition seed_identity (k wal code : string) (policy : option (list (string * json))) (points : float) :
    MI KarmaIdentity :=
  let! s := py_get in
  match by_id s !! k with
  | Some _ =>
      py_modify (change k (set_twofa code)) ;;; py_modify persist ;;; lookup_identity k
  | None =>
      let! invite := new_invite_code in
      let policy := match policy with Some ((_ :: _) as p) => p | _ => DEFAULT_POLICY end in
      let i := new_identity k (py_lower wal) invite code (id_now s) policy [] None None points in
      insert_identity i ;;; py_modify persist ;;; py_ret i
  end.

(** [{**old, **new}] *)
Fixpoint dict_put (k : string) (v : json) (d : list (string * json)) : list (string * json) :=
  match d with
  | [] => [(k, v)]
  | (k', v') :: r => if str_eqb k k' then (k, v) :: r else (k', v') :: dict_put k v r
  end.
Definition dict_merge (old new : list (string * json)) : list (string * json) :=
  fold_left (fun d kv => dict_put kv.1 kv.2 d) new old.

Definition update_policy (k : string) (policy : list (string * json)) : MI KarmaIdentity :=
  let! i := lookup_identity k in
  check (match jget "infinite_approve" policy with JBool true => false | _ => true end)
    (ValueError "infinite USDC approve is forbidden") ;;;
  py_modify (change k (fun i => set_policy
    (dict_put "infinite_approve" (JBool false) (dict_merge (payment_policy i) policy)) i)) ;;;
  py_modify persist ;;;
  lookup_identity k.

Definition add_karma_points (k : string) (points : float) : MI (option KarmaIdentity) :=
  let! s := py_get in
  match by_id s !! k with
  | None => py_ret None
  | Some i =>
      let target := identity_id (main_of s i) in
      py_modify (change target (fun i => set_points (py_round 2 (fadd (karma_points i) points)) i)) ;;;
      py_modify persist ;;;
      let! s := py_get in py_ret (by_id s !! target)
  end.

Definition get_sub_identities (s : store) (k : string) : list KarmaIdentity :=
  match by_id s !! k with
  | None => []
  | Some p => omap (fun sid => by_id s !! sid) (sub_identity_ids p)
  end.
Definition get_referral_chain (s : store) (k : string) : list KarmaIdentity :=
  match by_id s !! k with
  | None => []
  | Some i =>
      if str_eqb (invite_code i) "" then []
      else List.filter (fun x => bool_decide (referred_by x = Some (invite_code i))
                                 && negb (str_eqb (identity_id x) k))
             (omap (fun j => by_id s !! j) (id_order s))
  end.

(** [_mutate_credential], and the public actions. *)
Definition mutate_credential (k cid action actor reason : string) : MI credential :=
  let! i := lookup_identity k in
  match position (fun c => str_eqb (cr_id c) cid) (credentials i) with
  | None => raise_py (KeyError "credential not found")
  | Some n => mutate_credential_at k n action actor reason
  end.
Definition verify_credential (k cid actor : string) : MI credential :=
  mutate_credential k cid "verify" actor "verification passed".
Definition reject_credential (k cid actor reason : string) : MI credential :=
  mutate_credential k cid "reject" actor (if str_eqb reason "" then "verification failed" else reason).
Definition revoke_credential (k cid actor reason : string) : MI credential :=
  check (negb (str_eqb (py_strip reason) ""))
    (ValueError "revoke requires an explicit reason (audit trail)") ;;;
  mutate_credential k cid "revoke" actor reason.

(** The loop of [expire_stale_credentials] over the positions of the list. *)
Definition is_stale (now : Z) (c : credential) : bool :=
  str_eqb (cr_status c) VERIFIED
  && match cr_expires_at c with Some t => negb (t =? 0)%Z && (t <=? now)%Z | None => false end.
Fixpoint expire_loop (k : string) (now : Z) (positions : list nat) (expired : Z) : MI Z :=
  match positions with
  | [] => py_ret expired
  | n :: rest =>
      let! i := lookup_identity k in
      match credentials i !! n with
      | Some c =>
          if is_stale now c then
            let! st := call_ledger (cl_transition "credential" (cr_id c) (cr_status c) "expire" "system"
                         "ttl reached" [("identity_id", JStr k); ("type", JStr (cr_type c))]) in
            py_modify (change k (fun i => set_credentials (verification_status i)
              (<[n := with_status st (cr_verified_at c) c]> (credentials i)) i)) ;;;
            expire_loop k now rest (expired + 1)
          else expire_loop k now rest expired
      | None => expire_loop k now rest expired
      end
  end.
Definition expire_stale_credentials (k : string) : MI Z :=
  let! s := py_get in
  match by_id s !! k with
  | None => py_ret 0%Z
  | Some i =>
      let! expired := expire_loop k (id_now s) (seq 0 (length (credentials i))) 0 in
      py_when (0 <? expired)%Z (py_modify (change k recompute) ;;; py_modify persist) ;;;
      py_ret expired
  end.

Definition set_identity_class (k cls actor : string) : MI KarmaIdentity :=
  check (str_mem cls IDENTITY_CLASSES) (ValueError ("invalid identity_class: " ++ cls)) ;;;
  let! i := lookup_identity k in
  py_when (negb (str_eqb (identity_class i) cls))
    (call_ledger (cl_event "identity" k "identity_class_changed" (identity_class i) cls actor
       "set_identity_class" []) ;;;
     py_modify (change k (set_class cls)) ;;;
     py_modify persist) ;;;
  lookup_identity k.

(** [identity_card] without the masked wallet. *)
Record card := Card {
  card_identity_id : string;
  card_identity_class : string;
  card_status : string;
  card_verification_status : string;
  card_basic : bool;
  card_enhanced : bool;
  card_telegram_bound : bool;
  card_risk_status : string;
  card_issued_at : Z;
  card_credentials : option (list credential);
  card_sub_identity_count : option nat
}.
Definition make_card (i : KarmaIdentity) (full : bool) (at_ : Z) : card :=
  Card (identity_id i) (identity_class i) (id_status i) (verification_status i)
    (str_mem (verification_status i) [BASIC; ENHANCED]) (str_eqb (verification_status i) ENHANCED)
    (bool_decide (is_Some (telegram_user_id i)))
    (if str_eqb (id_status i) "active" then "normal" else "restricted") at_
    (if full then Some (credentials i) else None)
    (if full then Some (length (sub_identity_ids i)) else None).
Definition identity_card (k audience scope : string) : MI card :=
  let! s := py_get in
  match resolve_main_identity s k with
  | None => raise_py (KeyError "identity not found")
  | Some i =>
      let k := identity_id i in
      check (str_mem scope ["basic"; "full"]) (ValueError "scope must be basic or full") ;;;
      expire_stale_credentials k ;;;
      let! i := lookup_identity k in
      let c := make_card i (str_eqb scope "full") (id_now s) in
      call_ledger (cl_event "identity" k "card_presented" "" "" (str_upto 64 audience)
                     ("scope=" ++ scope) [("scope", JStr scope)]) ;;;
      py_ret c
  end.

(** [_load], when the process starts. *)
Definition reindex (m : gmap string KarmaIdentity) (s : store) (k : string) : store :=
  match m !! k with
  | Some i => reindex_invite i (reindex_tg i (reindex_wallet i s))
  | None => s
  end.
Definition load (s : store) : store :=
  let '(m, order) := default (∅, []) (id_disk s) in
  fold_left (reindex m) order
    (Store m order ∅ ∅ ∅ (trust_state s) (id_disk s) (id_disk_ok s) (id_now s) (id_drawn s)).

(** The public operations, and what happens around them: [LedgerMoves] is
    another user of the ledger. *)
Inductive id_op : Type :=
| GetOrCreate (wal : string) (meta : list (string * json))
| CreateSub (parent_id wal : string)
| BindTelegram (k : string) (tg : Z) (username : option string)
| BindBy2fa (tg : Z) (k code : string) (username : option string)
| SeedIdentity (k wal code : string) (policy : option (list (string * json))) (points : float)
| UpdatePolicy (k : string) (policy : list (string * json))
| AddKarmaPoints (k : string) (points : float)
| IssueCredential (k cred_type issuer : string) (ttl_seconds : Z) (actor : string) (auto_verify : bool)
| VerifyCredential (k cid actor : string)
| RejectCredential (k cid actor reason : string)
| RevokeCredential (k cid actor reason : string)
| ExpireStale (k : string)
| PresentCard (k audience scope : string)
| SetIdentityClass (k cls actor : string)
| LedgerMoves (t : T)
| Restart
| SetClock (t : Z)
| SetDisk (ok : bool).

Definition id_step (op : id_op) (s : store) : store :=
  match op with
  | GetOrCreate w m => run_state (get_or_create_by_wallet w m) s
  | CreateSub p w => run_state (create_sub_identity p w) s
  | BindTelegram k t u => run_state (bind_telegram k t u) s
  | BindBy2fa t k c u => run_state (bind_by_2fa t k c u) s
  | SeedIdentity k w c p x => run_state (seed_identity k w c p x) s
  | UpdatePolicy k p => run_state (update_policy k p) s
  | AddKarmaPoints k x => run_state (add_karma_points k x) s
  | IssueCredential k ty i ttl a v => run_state (issue_credential k ty i ttl a v) s
  | VerifyCredential k c a => run_state (verify_credential k c a) s
  | RejectCredential k c a r => run_state (reject_credential k c a r) s
  | RevokeCredential k c a r => run_state (revoke_credential k c a r) s
  | ExpireStale k => run_state (expire_stale_credentials k) s
  | PresentCard k a sc => run_state (identity_card k a sc) s
  | SetIdentityClass k c a => run_state (set_identity_class k c a) s
  | LedgerMoves t => set_trust t s
  | Restart => load s
  | SetClock t => Store (by_id s) (id_order s) (by_wallet s) (by_tg s) (by_invite s) (trust_state s)
                    (id_disk s) (id_disk_ok s) t (id_drawn s)
  | SetDisk ok => Store (by_id s) (id_order s) (by_wallet s) (by_tg s) (by_invite s) (trust_state s)
                    (id_disk s) ok (id_now s) (id_drawn s)
  end.
Definition id_run (ops : list id_op) (s : store) : store := fold_left (fun s op => id_step op s) ops s.
End Store.

Definition empty_store {T} (t : T) (now : Z) : id_store T := Store ∅ [] ∅ ∅ ∅ t None true now 0.

(** ** The trust ledger keeps its promise *)

Section Ledger.
Context (ledger_key : bytes) (token_hex : nat -> string).

Definition trust_transition (etype eid from action actor reason : string) (extra : list (string * json)) :
    M trust trust_error string :=
  py_bind (TrustLedger.transition ledger_key token_hex etype eid from action actor reason extra)
    (fun e => py_ret (match e with Some e => to_state e | None => "" end)).
Definition trust_event (etype eid ev from to actor reason : string) (extra : list (string * json)) :
    M trust trust_error unit :=
  py_bind (record_event ledger_key token_hex etype eid ev from to actor reason extra)
    (fun _ => py_ret tt).

Definition trust_credential_ledger : CredentialLedger trust :=
  {| cl_transition := trust_transition; cl_event := trust_event |}.

Lemma rebase_states prev l : map to_state (rebase ledger_key prev l) = map to_state l.
Proof. revert prev. induction l as [|e l IH]; intros prev; [done|]. cbn. by rewrite IH. Qed.

(** The entry returned is the one appended, a truncation included. *)
Lemma appended_last s e :
  to_state <$> last (ledger (appended ledger_key token_hex s e)) = Some (to_state e).
Proof.
  rewrite <- fmap_last. change (to_state <$> ?l) with (map to_state l).
  unfold appended, truncated. cbn [ledger save_ledger TrustLedger.draw set_ledger].
  destruct (LEDGER_MAX <? _)%Z eqn:E; cbn [ledger set_ledger].
  - rewrite rebase_states. apply Z.ltb_lt in E. rewrite length_app in E |- *. cbn [length] in *.
    rewrite drop_app_le by (unfold LEDGER_MAX in *; lia).
    rewrite map_app. apply last_snoc.
  - cbn [ledger TrustLedger.draw set_ledger]. rewrite map_app. apply last_snoc.
Qed.

Lemma trust_ledger_laws : @CredentialLedgerLaws trust trust_credential_ledger.
Proof.
  split; intros; unfold cl_transition, cl_event, trust_credential_ledger, trust_transition, trust_event,
    run_outcome, py_bind.
  - unfold TrustLedger.transition. destruct (transition_target from action) as [to|] eqn:E.
    + rewrite append_eq. cbn [snd].
      match goal with |- context [appended _ _ s ?e] => pose proof (appended_last s e) as Hl end.
      destruct (last (ledger _)) as [e'|]; [|done]. cbn in Hl |- *. by injection Hl as ->.
    + unfold py_bind. by rewrite broadcast_eq.
  - unfold record_event. by rewrite append_eq.
Qed.
End Ledger.

(** ** Operations keep what their changes keep *)

(** The actions the store sends for a credential it has. *)
Definition STORE_ACTIONS : list string := ["verify"; "reject"; "revoke"; "expire"].

(** What an operation does to the list of credentials. *)
Inductive cred_step (l : list credential) : list credential -> Prop :=
| cs_move n c st at_ action :
    l !! n = Some c -> str_mem action STORE_ACTIONS = true ->
    transition_target (cr_status c) action = Some st ->
    cred_step l (<[n := with_status st at_ c]> l)
| cs_issue c :
    cr_status c = PENDING ->
    List.filter (fun x => str_eqb (cr_type x) (cr_type c) && is_active x) l = [] ->
    cred_step l (l ++ [c])%list.

Section KeepsStore.
Context {T : Type} (I : id_store T -> Prop).

Lemma keeps_check b e : keeps I (check b e).
Proof. apply keeps_require. Qed.
Lemma keeps_find msg k : keeps I (find_identity msg k).
Proof. intros s Hs. unfold find_identity, run_state, py_bind, py_get. by destruct (by_id s !! k). Qed.
Lemma keeps_ledger {A} (m : M T trust_error A) :
  (forall t s, I s -> I (set_trust t s)) -> keeps I (call_ledger m).
Proof.
  intros Ht s Hs. unfold call_ledger, run_state. destruct (m (trust_state s)) as [t [a|e]]; by apply Ht.
Qed.
End KeepsStore.
#[export] Hint Resolve keeps_check keeps_find : keeps.

Section Load.
Context {T : Type}.
Implicit Types s z : id_store T.

Lemma reindex_all m l s :
  let s' := fold_left (reindex m) l s in
  by_id s' = by_id s /\ id_disk s' = id_disk s /\ id_disk_ok s' = id_disk_ok s
  /\ id_order s' = id_order s /\ id_drawn s' = id_drawn s.
Proof.
  revert s. induction l as [|k l IH]; intros s; [done|]. cbn [fold_left].
  destruct (IH (reindex m s k)) as (-> & -> & -> & -> & ->). unfold reindex. by destruct (m !! k).
Qed.
Lemma load_by_id s : by_id (load s) = (default (∅, []) (id_disk s)).1.
Proof. unfold load. destruct (default _ _) as [m o]. exact (proj1 (reindex_all m o _)). Qed.
Lemma load_disk s : id_disk (load s) = id_disk s.
Proof. unfold load. destruct (default _ _) as [m o]. exact (proj1 (proj2 (reindex_all m o _))). Qed.
Lemma load_disk_ok s : id_disk_ok (load s) = id_disk_ok s.
Proof. unfold load. destruct (default _ _) as [m o]. exact (proj1 (proj2 (proj2 (reindex_all m o _)))). Qed.
End Load.

Lemma alter_twice {A} (a b : A) k (m : gmap string A) :
  alter (const a) k (alter (const b) k m) = alter (const a) k m.
Proof.
  apply map_eq. intros j. destruct (decide (j = k)) as [->|Hne];
    [rewrite !lookup_alter_eq; by destruct (m !! k)|by rewrite !lookup_alter_ne].
Qed.

(** A change of an identity that is known. *)
Lemma change_const {T} k f i (s : id_store T) :
  by_id s !! k = Some i -> change k f s = change k (const (f i)) s.
Proof.
  intros E. unfold change. assert (alter f k (by_id s) = alter (const (f i)) k (by_id s)) as ->; [|done].
  apply map_eq. intros j. destruct (decide (j = k)) as [->|Hne];
    [by rewrite !lookup_alter_eq, E|by rewrite !lookup_alter_ne].
Qed.

(** A property of each identity, held in memory and in the snapshot. *)
Section Pointwise.
Context {T : Type} `{CredentialLedgerLaws T} (token_hex invite_of : nat -> string).
Context (good : string -> KarmaIdentity -> Prop) (seedable present : string -> Prop)
  (disk_too : bool) (disk_flag : bool -> Prop).
Context (good_telegram : forall k i t u, good k i -> good k (set_telegram t u i))
  (good_burn : forall k i, good k i -> good k (set_twofa "" i))
  (good_policy : forall k i p, good k i -> good k (set_policy p i))
  (good_points : forall k i x, good k i -> good k (set_points x i))
  (good_class : forall k i c, good k i -> good k (set_class c i))
  (good_seed : forall k i c, seedable k -> good k i -> good k (set_twofa c i))
  (good_subs : forall k i j, (length (sub_identity_ids i) < 2)%nat -> good k i ->
     good k (set_subs (sub_identity_ids i ++ [j])%list i))
  (good_credentials : forall k i l, good k i -> rtc cred_step (credentials i) l ->
     good k (set_credentials (derived_status l) l i))
  (good_new : forall k w inv code at_ p m parent ref x, code = "" \/ seedable k ->
     good k (new_identity k w inv code at_ p m parent ref x)).
Abbreviation store := (id_store T).

Definition map_ok (m : gmap string KarmaIdentity) : Prop :=
  map_Forall good m /\ forall k, present k -> is_Some (m !! k).
Definition everywhere (s : store) : Prop :=
  map_ok (by_id s) /\ (disk_too = true -> map_ok (default (∅, []) (id_disk s)).1)
  /\ disk_flag (id_disk_ok s).

Lemma everywhere_change k f s :
  (forall i, by_id s !! k = Some i -> good k i -> good k (f i)) ->
  everywhere s -> everywhere (change k f s).
Proof.
  intros Hf [[Hm Hp] Hd]. split; [split|done].
  - intros j i. cbn. intros Hj. destruct (decide (j = k)) as [->|Hne].
    + rewrite lookup_alter_eq in Hj. destruct (by_id s !! k) as [i'|] eqn:E; [|done].
      injection Hj as <-. apply Hf; auto.
    + rewrite lookup_alter_ne in Hj by done. by apply Hm.
  - intros j Hj. cbn. rewrite lookup_alter_is_Some. by apply Hp.
Qed.
Lemma everywhere_put i s : good (identity_id i) i -> everywhere s -> everywhere (put_identity i s).
Proof.
  intros Hi [[Hm Hp] Hd]. split; [split|done]; [by apply map_Forall_insert_2|].
  intros j Hj. cbn. rewrite lookup_insert_is_Some'. right. by apply Hp.
Qed.
Lemma everywhere_persist s : everywhere s -> everywhere (persist s).
Proof. intros (Hm & Hd & Hf). split_and!; [done| |done]. cbn. by destruct (id_disk_ok s). Qed.
Lemma everywhere_same s s' :
  by_id s' = by_id s -> id_disk s' = id_disk s -> id_disk_ok s' = id_disk_ok s ->
  everywhere s -> everywhere s'.
Proof. intros E1 E2 E3. unfold everywhere. by rewrite E1, E2, E3. Qed.

Lemma everywhere_load s : disk_too = true -> everywhere s -> everywhere (load s).
Proof.
  intros Ht (Hm & Hd & Hf). unfold everywhere. rewrite load_by_id, load_disk, load_disk_ok.
  split_and!; [by apply Hd|by intros _; apply Hd|done].
Qed.
Lemma everywhere_trust t s : everywhere s -> everywhere (set_trust t s).
Proof. by apply everywhere_same. Qed.
Hint Resolve everywhere_persist everywhere_trust keeps_modify keeps_ledger : keeps.

Lemma keeps_change k f : (forall i, good k i -> good k (f i)) -> keeps (E := id_error) everywhere (py_modify (change k f)).
Proof. intros Hf. apply keeps_modify. intros s Hs. apply everywhere_change; auto. Qed.
Lemma keeps_draw : keeps (E := id_error) everywhere (py_modify draw).
Proof. by apply keeps_modify; intros s; apply everywhere_same. Qed.
Lemma keeps_insert i : good (identity_id i) i -> keeps everywhere (insert_identity i).
Proof.
  intros Hi. unfold insert_identity. apply keeps_bind; [|intros _; apply keeps_bind; [|intros _]];
    apply keeps_modify; intros s; [by apply everywhere_put|by apply everywhere_same..].
Qed.
Hint Resolve keeps_change keeps_draw keeps_insert : keeps.

Lemma keeps_new_id : keeps everywhere (new_id token_hex).
Proof. unfold new_id. keep. Qed.
Lemma keeps_new_invite : keeps everywhere (new_invite_code invite_of).
Proof. unfold new_invite_code. keep. Qed.
Hint Resolve keeps_new_id keeps_new_invite : keeps.

Lemma keeps_get_or_create w m : keeps everywhere (get_or_create_by_wallet token_hex invite_of w m).
Proof.
  unfold get_or_create_by_wallet. keep.
Qed.

(** [_mutate_credential_locked]: the ledger refuses, or the credential moves
    along its table and the level follows. *)
Lemma mutate_at_run k n action actor reason s :
  let '(s', o) := mutate_credential_at k n action actor reason s in
  (exists t e, (s' = s \/ s' = set_trust t s) /\ o = Raise e)
  \/ exists i c st at_ t, by_id s !! k = Some i /\ credentials i !! n = Some c
       /\ transition_target (cr_status c) action = Some st
       /\ let l := <[n := with_status st at_ c]> (credentials i) in
          s' = persist (change k (const (set_credentials (derived_status l) l i)) (set_trust t s)).
Proof.
  unfold mutate_credential_at, lookup_identity, find_identity, py_bind, py_get.
  destruct (by_id s !! k) as [i|] eqn:E; [|left; exists (trust_state s); eauto].
  cbn beta iota delta [py_ret].
  destruct (credentials i !! n) as [c|] eqn:Ec; [|left; exists (trust_state s); unfold raise_py, py_raise; eauto].
  unfold call_ledger.
  match goal with |- context [cl_transition ?a ?b ?d ?e ?f ?g ?h ?x] =>
    pose proof (cl_transition_target a b d e f g h x) as Ht;
    unfold run_outcome in Ht; destruct (cl_transition a b d e f g h x) as [t o] end.
  cbn [snd] in Ht. rewrite Ht. destruct (transition_target (cr_status c) action) as [st|] eqn:Et.
  - right. exists i, c, st. eexists _, t. split_and!; [done..|].
    unfold py_modify, py_ret. cbn beta iota. by rewrite (change_const k _ i).
  - left. eauto.
Qed.

Lemma keeps_mutate_at k n action actor reason : str_mem action STORE_ACTIONS = true ->
  keeps everywhere (mutate_credential_at k n action actor reason).
Proof.
  intros Ha s Hs. unfold run_state. pose proof (mutate_at_run k n action actor reason s) as Hr.
  destruct (mutate_credential_at k n action actor reason s) as [s' o].
  destruct Hr as [(t & e & [->| ->] & _)|(i & c & st & at_ & t & E & Ec & Et & ->)]; cbn [fst].
  { done. }
  { by apply everywhere_trust. }
  apply everywhere_persist, everywhere_change; [|by apply everywhere_trust].
  intros i' E' Hi. cbn in E'. rewrite E in E'. injection E' as <-. apply good_credentials; [done|].
  apply rtc_once. by apply (cs_move _ n c st at_ action).
Qed.
Hint Resolve keeps_mutate_at : keeps.

Lemma keeps_mutate k cid action actor reason : str_mem action STORE_ACTIONS = true ->
  keeps everywhere (mutate_credential k cid action actor reason).
Proof. intros Ha. unfold mutate_credential, lookup_identity. keep. Qed.
Hint Resolve keeps_mutate : keeps.

Lemma filter_nil_position (f : credential -> bool) l :
  bool_decide (List.filter f l = []) = true -> List.filter f l = [].
Proof. apply bool_decide_eq_true. Qed.

Lemma keeps_issue k ty iss ttl actor v :
  keeps everywhere (issue_credential token_hex k ty iss ttl actor v).
Proof.
  unfold issue_credential. apply keeps_bind; [keep|]. intros _. apply keeps_bind; [keep|]. intros _.
  intros s Hs. unfold run_state, lookup_identity, find_identity, py_bind at 1 2, py_get at 1.
  destruct (by_id s !! k) as [i|] eqn:E; [|done]. cbn beta iota delta [py_ret].
  unfold check at 1, py_require. unfold py_bind at 1.
  destruct (bool_decide _) eqn:Ef; [|done]. cbn beta iota delta [py_ret].
  apply bool_decide_eq_true in Ef.
  unfold py_bind at 1 2 3, py_get, py_modify at 1. unfold call_ledger.
  match goal with |- context [cl_transition ?a ?b ?d ?e ?f ?g ?h ?x] =>
    pose proof (cl_transition_target a b d e f g h x) as Ht;
    unfold run_outcome in Ht; destruct (cl_transition a b d e f g h x) as [t o] end.
  cbn [snd] in Ht. change (transition_target "" "issue") with (Some PENDING) in Ht. rewrite Ht.
  unfold py_bind, py_modify, py_ret. cbn beta iota.
  match goal with |- context [persist ?x] => set (s1 := persist x) end.
  assert (everywhere s1).
  { apply everywhere_persist, everywhere_change; [|by apply everywhere_trust, (everywhere_same s)].
    intros i' E' Hi. cbn in E'. rewrite E in E'. injection E' as <-. apply (good_credentials k i); [done|].
    apply rtc_once. by apply cs_issue. }
  destruct v; [by apply keeps_mutate_at|done].
Qed.
Hint Resolve keeps_issue : keeps.

Lemma keeps_reindex_tg i : keeps (E := id_error) everywhere (py_modify (reindex_tg i)).
Proof. apply keeps_modify. intros s. by apply everywhere_same. Qed.
Hint Resolve keeps_reindex_tg : keeps.

Lemma keeps_bind_telegram k t u : keeps everywhere (bind_telegram k t u).
Proof. unfold bind_telegram, lookup_identity. keep. Qed.

Lemma keeps_bind_by_2fa t k c u : keeps everywhere (bind_by_2fa token_hex t k c u).
Proof. unfold bind_by_2fa, lookup_identity. keep. Qed.

Lemma keeps_seed k w c p x : seedable k -> keeps everywhere (seed_identity invite_of k w c p x).
Proof. intros Hk. unfold seed_identity, lookup_identity. keep. Qed.

Lemma keeps_update_policy k p : keeps everywhere (update_policy k p).
Proof. unfold update_policy, lookup_identity. keep. Qed.
Lemma keeps_points k x : keeps everywhere (add_karma_points k x).
Proof. unfold add_karma_points. keep. Qed.
Lemma keeps_set_class k c a : keeps everywhere (set_identity_class k c a).
Proof. unfold set_identity_class, lookup_identity. keep. Qed.

(** The loop of [expire_stale_credentials]. *)
Lemma expire_loop_run k now positions : forall expired i s, by_id s !! k = Some i ->
  let '(s', o) := expire_loop k now positions expired s in
  (s' = s /\ o = Ret expired)
  \/ exists l t n, (expired < n)%Z /\ o = Ret n /\ rtc cred_step (credentials i) l
       /\ s' = change k (const (set_credentials (verification_status i) l i)) (set_trust t s).
Proof.
  induction positions as [|n rest IH]; intros e i s E; [by left|]. cbn [expire_loop].
  unfold lookup_identity, find_identity, py_bind, py_get. rewrite E. cbn beta iota delta [py_ret].
  destruct (credentials i !! n) as [c|] eqn:Ec; [|by apply IH].
  destruct (is_stale now c) eqn:Es; [|by apply IH].
  unfold call_ledger.
  match goal with |- context [cl_transition ?a ?b ?d ?e ?f ?g ?h ?x] =>
    pose proof (cl_transition_target a b d e f g h x) as Ht;
    unfold run_outcome in Ht; destruct (cl_transition a b d e f g h x) as [t o] end.
  unfold is_stale in Es. apply andb_prop in Es as [Es _]. apply bool_decide_eq_true in Es.
  rewrite Es in Ht. change (transition_target VERIFIED "expire") with (Some EXPIRED) in Ht.
  cbn [snd] in Ht. rewrite Ht. unfold py_modify. cbn beta iota.
  rewrite (change_const k _ i) by done.
  set (l := <[n := with_status EXPIRED (cr_verified_at c) c]> (credentials i)).
  set (i1 := set_credentials (verification_status i) l i).
  assert (cred_step (credentials i) l) as Hl.
  { apply (cs_move _ n c EXPIRED _ "expire"); [done|done|]. by rewrite Es. }
  specialize (IH (e + 1)%Z i1 (change k (const i1) (set_trust t s))).
  destruct (expire_loop _ _ _ _ _) as [s' o'].
  destruct IH as [[-> ->]|(l' & t' & m & Hm & -> & Hl' & ->)].
  { cbn. by rewrite lookup_alter_eq, E. }
  - right. exists l, t, (e + 1)%Z. split_and!; [lia|done|by apply rtc_once|done].
  - right. exists l', t', m. split_and!; [lia|done|by eapply rtc_l|].
    unfold change. cbn. f_equal. by rewrite alter_twice.
Qed.

Lemma keeps_expire k : keeps everywhere (expire_stale_credentials k).
Proof.
  intros s Hs. unfold run_state, expire_stale_credentials. unfold py_bind at 1, py_get at 1.
  destruct (by_id s !! k) as [i|] eqn:E; [|done].
  pose proof (expire_loop_run k (id_now s) (seq 0 (length (credentials i))) 0 i s E) as Hl.
  unfold py_bind at 1. destruct (expire_loop _ _ _ _ _) as [s' o].
  destruct Hl as [[-> ->]|(l & t & n & Hn & -> & Hl & ->)]; [done|].
  apply Z.ltb_lt in Hn. rewrite Hn. cbn.
  rewrite (change_const k recompute (set_credentials (verification_status i) l i)).
  2: { cbn. by rewrite lookup_alter_eq, E. }
  unfold change. cbn. rewrite alter_twice.
  apply everywhere_persist, (everywhere_change k (const (recompute (set_credentials (verification_status i) l i))) (set_trust t s)).
  - intros i' E' Hi. cbn in E'. rewrite E in E'. injection E' as <-. by apply (good_credentials k i).
  - by apply everywhere_trust.
Qed.
Hint Resolve keeps_expire : keeps.

Lemma keeps_card k a sc : keeps everywhere (identity_card k a sc).
Proof. unfold identity_card, lookup_identity. keep. Qed.

Lemma keeps_create_sub p w : keeps everywhere (create_sub_identity token_hex invite_of p w).
Proof.
  intros s Hs. unfold run_state, create_sub_identity, find_identity, check, py_require, new_id,
    new_invite_code, insert_identity, raise_py, py_raise, py_bind, py_get, py_modify, py_ret.
  destruct (by_id s !! p) as [i|] eqn:E; [|done].
  destruct (negb (truthy_str _)); [|done]. destruct (_ <? 2)%nat eqn:Hn; [|done].
  destruct (negb (bool_decide _)); [|done]. apply Nat.ltb_lt in Hn. cbn beta iota.
  set (j := new_identity _ _ _ _ _ _ _ _ _ _). cbn [fst].
  apply everywhere_persist, everywhere_change.
  2: { apply (everywhere_same (put_identity j s)); [done..|]. apply everywhere_put; [|done].
       apply good_new. by left. }
  intros i' E' Hi. apply good_subs; [|done]. cbn in E'.
  destruct (decide (p = identity_id j)) as [Hp|Hne].
  - rewrite Hp, lookup_insert_eq in E'. injection E' as <-. cbn. lia.
  - cbn in Hne. rewrite lookup_insert_ne in E' by done. rewrite E in E'. by injection E' as <-.
Qed.

Definition op_allowed (op : @id_op T) : Prop :=
  match op with
  | SeedIdentity k _ _ _ _ => seedable k
  | Restart => disk_too = true
  | SetDisk ok => disk_flag ok
  | _ => True
  end.

Lemma everywhere_step (op : @id_op T) s :
  op_allowed op -> everywhere s -> everywhere (id_step token_hex invite_of op s).
Proof.
  intros Hop Hs. destruct op; cbn [id_step];
    first [apply keeps_get_or_create|apply keeps_create_sub|apply keeps_bind_telegram
          |apply keeps_bind_by_2fa|apply keeps_seed|apply keeps_update_policy|apply keeps_points
          |apply keeps_issue|apply keeps_mutate|apply keeps_expire|apply keeps_card
          |apply keeps_set_class|by apply everywhere_trust|by apply everywhere_load
          |by apply (everywhere_same s)|idtac]; try done.
  - unfold revoke_credential. revert s Hs. keep.
  - by destruct Hs as (? & ? & ?).
Qed.

Lemma everywhere_run (ops : list (@id_op T)) : forall s, Forall op_allowed ops -> everywhere s ->
  everywhere (id_run token_hex invite_of ops s).
Proof.
  induction ops as [|op ops IH]; intros s Hops Hs; [done|].
  apply Forall_cons in Hops as [Hop Hops]. apply IH; [done|]. by apply everywhere_step.
Qed.

Lemma everywhere_empty t now :
  (forall k, ~ present k) -> disk_flag true -> everywhere (empty_store t now).
Proof.
  intros Hp Hf. assert (map_ok ∅) as H0'; [|by split_and!].
  split; [apply map_Forall_empty|]. intros k Hk. by destruct (Hp k).
Qed.
End Pointwise.

(** ** Credentials are sound *)

Definition active_of (ty : string) (l : list credential) : list credential :=
  List.filter (fun x => str_eqb (cr_type x) ty && is_active x) l.

(** Every status is one of the table's, at most one credential of a type is
    pending or verified. *)
Definition creds_ok (l : list credential) : Prop :=
  Forall (fun c => str_mem (cr_status c) [PENDING; VERIFIED; FAILED; EXPIRED; REVOKED] = true) l
  /\ forall ty, (length (active_of ty l) <= 1)%nat.

Lemma active_of_app ty l l' : active_of ty (l ++ l')%list = (active_of ty l ++ active_of ty l')%list.
Proof. apply List.filter_app. Qed.

Lemma active_of_cons ty c l :
  active_of ty (c :: l) = if str_eqb (cr_type c) ty && is_active c then c :: active_of ty l else active_of ty l.
Proof. done. Qed.

Lemma target_status from action to :
  transition_target from action = Some to ->
  str_mem to [PENDING; VERIFIED; FAILED; EXPIRED; REVOKED] = true
  /\ (str_mem action STORE_ACTIONS = true ->
      str_mem from [PENDING; VERIFIED] = true).
Proof.
  unfold transition_target. intros H. apply fmap_Some in H as ([[f a] t] & Hf & ->).
  apply find_some in Hf as [Hin He]. apply bool_decide_eq_true in He. cbn in He. injection He as -> ->.
  cbn in Hin. repeat (destruct Hin as [Hin|Hin]; [injection Hin as <- <- <-; by vm_compute|]). done.
Qed.

(** Two active credentials of a type would be counted twice. *)
Lemma active_unique l n n' c c' :
  (forall ty, length (active_of ty l) <= 1)%nat -> l !! n = Some c -> l !! n' = Some c' ->
  cr_type c = cr_type c' -> is_active c = true -> is_active c' = true -> n = n'.
Proof.
  intros Hact. assert (forall a b x y, (a < b)%nat -> l !! a = Some x -> l !! b = Some y ->
    cr_type x = cr_type y -> is_active x = true -> is_active y = true -> False) as Hlt.
  { intros a b x y Hab Hx Hy Hty Hax Hay. specialize (Hact (cr_type x)).
    rewrite <- (take_drop_middle l a x Hx), active_of_app, active_of_cons, str_eqb_refl, Hax in Hact.
    assert (drop (S a) l !! (b - S a)%nat = Some y) as Hy'.
    { rewrite lookup_drop. by replace (S a + (b - S a))%nat with b by lia. }
    rewrite <- (take_drop_middle _ _ y Hy'), active_of_app, active_of_cons, <- Hty, str_eqb_refl, Hay in Hact.
    cbn [andb] in Hact. rewrite !length_app in Hact. cbn [length] in Hact. rewrite length_app in Hact.
    cbn [length] in Hact. lia. }
  intros Hn Hn' Hty Ha Ha'. destruct (lt_eq_lt_dec n n') as [[Hl|]|Hl]; [|done|];
    exfalso; eauto using eq_sym.
Qed.

Lemma cred_step_ok l l' : creds_ok l -> cred_step l l' -> creds_ok l'.
Proof.
  intros [Hst Hact] [n c st at_ action Hn Ha Ht|c Hc Hnone].
  - apply target_status in Ht as [Hto Hfrom]. specialize (Hfrom Ha).
    rewrite insert_take_drop by (by eapply lookup_lt_Some). split.
    + apply Forall_app. split; [by apply Forall_take|]. apply Forall_cons.
      split; [done|by apply Forall_drop].
    + intros ty. specialize (Hact ty). rewrite <- (take_drop_middle l n c Hn) in Hact.
      rewrite !active_of_app, !active_of_cons, !length_app in *. unfold is_active in *.
      rewrite Hfrom in Hact. cbn [cr_type cr_status with_status].
      destruct (str_eqb (cr_type c) ty), (str_mem st [PENDING; VERIFIED]); cbn [andb length] in *; lia.
  - split.
    + apply Forall_app. split; [done|]. apply Forall_singleton. by rewrite Hc.
    + intros ty. specialize (Hact ty). rewrite active_of_app, length_app. cbn.
      destruct (str_eqb (cr_type c) ty) eqn:Hty; [|cbn; lia].
      apply bool_decide_eq_true in Hty. subst ty. unfold active_of in *. rewrite Hnone.
      destruct (is_active c); cbn; lia.
Qed.

Lemma cred_steps_ok l l' : creds_ok l -> rtc cred_step l l' -> creds_ok l'.
Proof. intros Hl Hr. induction Hr; [done|]. eauto using cred_step_ok. Qed.

Definition identity_ok (k : string) (i : KarmaIdentity) : Prop :=
  identity_id i = k /\ verification_status i = derived_status (credentials i)
  /\ creds_ok (credentials i) /\ (length (sub_identity_ids i) <= 2)%nat.

Lemma verified_types_spec l ty :
  ty ∈ verified_types l <-> exists c, c ∈ l /\ cr_type c = ty /\ cr_status c = VERIFIED.
Proof.
  unfold verified_types. rewrite elem_of_list_to_set, list_elem_of_In, in_map_iff. split.
  - intros (c & Hty & Hin). apply filter_In in Hin as [Hin Hs]. apply bool_decide_eq_true in Hs.
    exists c. by rewrite list_elem_of_In.
  - intros (c & Hin & Hty & Hs). exists c. split; [done|]. apply filter_In.
    rewrite <- list_elem_of_In. split; [done|]. by apply bool_decide_eq_true.
Qed.

(** The level in terms of what is verified. *)
Lemma derived_status_spec l :
  derived_status l = (if decide (Exists (fun c => cr_status c = VERIFIED) l) then
                        if (3 <=? size (verified_types l))%nat && bool_decide ("wallet" ∈ verified_types l)
                        then ENHANCED else BASIC
                      else UNVERIFIED).
Proof.
  unfold derived_status. destruct (decide _) as [Hex|Hno].
  - destruct (_ && _); [done|]. rewrite bool_decide_eq_false_2; [done|].
    apply Exists_exists in Hex as (c & Hin & Hc). intros He.
    assert (cr_type c ∈ verified_types l) as Hv by (apply verified_types_spec; eauto).
    rewrite He in Hv. by apply elem_of_empty in Hv.
  - assert (verified_types l = ∅) as ->.
    { apply set_eq. intros ty. rewrite elem_of_empty, verified_types_spec. split; [|done].
      intros (c & Hin & _ & Hc). apply Hno, Exists_exists. eauto. }
    rewrite size_empty. cbn. by rewrite bool_decide_eq_true_2.
Qed.

Section Sound.
Context {T : Type} `{CredentialLedgerLaws T} (token_hex invite_of : nat -> string).

Lemma identity_ok_run (ops : list (@id_op T)) t now :
  everywhere identity_ok (fun _ => False) true (fun _ => True)
    (id_run token_hex invite_of ops (empty_store t now)).
Proof.
  apply (everywhere_run _ _ _ (fun _ => True)).
  - by intros k i t' u (? & ? & ? & ?).
  - by intros k i (? & ? & ? & ?).
  - by intros k i p (? & ? & ? & ?).
  - by intros k i p (? & ? & ? & ?).
  - by intros k i p (? & ? & ? & ?).
  - by intros k i c _ (? & ? & ? & ?).
  - intros k i j Hlt (? & ? & ? & ?). split_and!; [done..|]. cbn. rewrite length_app. cbn. lia.
  - intros k i l (? & ? & Hc & ?) Hr. split_and!; [done..| |done]. by eapply cred_steps_ok.
  - intros. split_and!; [done|by vm_compute| |cbn; lia]. split; [by apply Forall_nil|intros ty; cbn; lia].
  - apply Forall_forall. intros op _. by destruct op.
  - apply everywhere_empty; [by intros k []|done].
Qed.

(** C33. Whatever operations have run, restarts and failed writes included, and
    whatever else writes to the trust ledger, an identity is stored under its
    own id, every credential is in a state of the ledger's table, at most one
    credential of each type is pending or verified, and the level shown is the
    one its verified credentials give: unverified when there is none, enhanced
    when they are of three types and one is the wallet, basic otherwise. *)
Theorem credentials_sound (ops : list (@id_op T)) t now k i :
  by_id (id_run token_hex invite_of ops (empty_store t now)) !! k = Some i ->
  identity_id i = k
  /\ (forall c, c ∈ credentials i -> cr_status c ∈ [PENDING; VERIFIED; FAILED; EXPIRED; REVOKED])
  /\ (forall n n' c c', credentials i !! n = Some c -> credentials i !! n' = Some c' ->
      cr_type c = cr_type c' -> is_active c = true -> is_active c' = true -> n = n')
  /\ (verification_status i = UNVERIFIED <->
      forall c, c ∈ credentials i -> cr_status c <> VERIFIED)
  /\ (verification_status i = ENHANCED <->
      "wallet" ∈ verified_types (credentials i) /\ 3 <= size (verified_types (credentials i)))%nat.
Proof.
  intros Hi. pose proof (identity_ok_run ops t now) as [[Hall _] _].
  destruct (Hall k i Hi) as (Hk & Hv & [Hst Hact] & _). rewrite Hv. split_and!; [done| | | |].
  - intros c Hc. rewrite Forall_forall in Hst. by apply Hst, bool_decide_eq_true in Hc.
  - intros n n' c c' Hn Hn' Hty Ha Ha'. exact (active_unique _ _ _ _ _ Hact Hn Hn' Hty Ha Ha').
  - rewrite derived_status_spec. destruct (decide _) as [Hex|Hno].
    + apply Exists_exists in Hex as (c & Hin & Hc).
      split; [by destruct (_ && _) as []; unfold ENHANCED, BASIC, UNVERIFIED|]. intros Hn. by destruct (Hn c Hin).
    + split; [|done]. intros _ c Hin Hc. apply Hno, Exists_exists. eauto.
  - unfold derived_status, ENHANCED, BASIC, UNVERIFIED. destruct (3 <=? _)%nat eqn:E1.
    + apply Nat.leb_le in E1. destruct (bool_decide _) eqn:E2; cbn [andb].
      * apply bool_decide_eq_true in E2. done.
      * apply bool_decide_eq_false in E2. destruct (negb _); split; try done; by intros [].
    + apply Nat.leb_gt in E1. cbn [andb]. destruct (negb _); split; try done; intros []; lia.
Qed.

(** ** Binding codes are used once *)

(** The code of [k0] is burnt, in memory or everywhere. *)
Definition burnt (k0 k : string) (i : KarmaIdentity) : Prop := k = k0 -> twofa_code i = "".
Definition code_burnt (disk_too : bool) (flag : bool -> Prop) (k0 : string) : id_store T -> Prop :=
  everywhere (burnt k0) (fun k => k = k0) disk_too flag.

Lemma burnt_run (ops : list (@id_op T)) k0 : forall s,
  Forall (fun op => match op with SeedIdentity k _ _ _ _ => k <> k0 | _ => True end) ops ->
  code_burnt true (fun _ => True) k0 s ->
  code_burnt true (fun _ => True) k0 (id_run token_hex invite_of ops s).
Proof.
  intros s Hops. apply (everywhere_run _ _ _ (fun k => k <> k0)); try done.
  - intros k i c Hk _ Hk0. by destruct (Hk Hk0).
  - intros k w inv code at_ p m parent ref x [Hc|Hc] Hk; [done|by destruct (Hc Hk)].
  - apply (Forall_impl _ _ _ Hops). by intros [].
Qed.

Lemma keeps_burnt_issue k0 k ty iss ttl a v :
  keeps (code_burnt false (fun b => b = true) k0) (issue_credential token_hex k ty iss ttl a v).
Proof. by apply keeps_issue. Qed.
Lemma keeps_burnt_mutate k0 k n actor reason :
  keeps (code_burnt false (fun b => b = true) k0) (mutate_credential_at k n "revoke" actor reason).
Proof. by apply keeps_mutate_at. Qed.

(** The identity is there and saves succeed. *)
Definition savable (k : string) (s : id_store T) : Prop :=
  is_Some (by_id s !! k) /\ id_disk_ok s = true.

(** What a successful binding leaves. *)
Lemma bind_burns tg identity code user s0 s1 i :
  (forall k j, by_id s0 !! k = Some j -> identity_id j = k) ->
  id_disk_ok s0 = true ->
  bind_by_2fa token_hex tg identity code user s0 = (s1, Ret i) ->
  (exists j, by_id s0 !! py_strip identity = Some j /\ twofa_code j = py_strip code /\ twofa_code j <> "")
  /\ code_burnt true (fun _ => True) (py_strip identity) s1.
Proof.
  intros Hkey Hok. unfold bind_by_2fa, find_identity. unfold py_bind at 1 2, py_get at 1.
  destruct (by_id s0 !! py_strip identity) as [j|] eqn:E; [|done]. cbn beta iota delta [py_ret].
  rewrite (Hkey _ _ E). set (k := py_strip identity) in *.
  unfold check at 1, py_require, py_bind at 1. destruct (str_eqb (twofa_code j) "") eqn:E0; [done|].
  cbn [negb]. cbn beta iota delta [py_ret].
  unfold check at 1, py_require, py_bind at 1. destruct (_ && _); [|done]. cbn beta iota delta [py_ret].
  unfold check at 1, py_require, py_bind at 1. destruct (str_eqb (twofa_code j) (py_strip code)) eqn:E1; [|done].
  cbn beta iota delta [py_ret]. apply bool_decide_eq_true in E1. apply bool_decide_eq_false in E0.
  intros Hrun. split; [by exists j|].
  apply (keeps_ret_inv (savable k)) in Hrun as (s' & s2 & Hs2 & Hrun); [|apply keeps_get|by split; [exists j|]].
  apply (keeps_ret_inv (savable k)) in Hrun as (_ & s3 & Hs3 & Hrun); [| |done].
  2: { apply keeps_when, keeps_modify. intros s [Hs Ho]. split; [|done]. cbn. by rewrite lookup_alter_is_Some. }
  unfold py_bind at 1, py_modify at 1 in Hrun.
  match type of Hrun with _ ?s = _ => assert (code_burnt false (fun b => b = true) k s) as HB end.
  { destruct Hs3 as [[j3 Hj3] Hok3]. split_and!; [split|done|done].
    - intros k' j' Hj' ->. cbn in Hj'. rewrite lookup_alter_eq, Hj3 in Hj'. by injection Hj' as <-.
    - intros k' ->. cbn. rewrite lookup_alter_eq, Hj3. eauto. }
  apply (keeps_ret_inv (code_burnt false (fun b => b = true) k)) in Hrun as (_ & s4 & Hs4 & Hrun); [|by apply keeps_reindex_tg|done].
  apply (keeps_ret_inv (code_burnt false (fun b => b = true) k)) in Hrun as (_ & s5 & Hs5 & Hrun); [| |done].
  2: { apply keeps_ledger. intros. by apply everywhere_trust. }
  apply (keeps_ret_inv (code_burnt false (fun b => b = true) k)) in Hrun as (_ & s6 & Hs6 & Hrun); [| |done].
  2: { destruct (position _ _); [|apply keeps_ret].
       apply keeps_bind; [apply keeps_burnt_mutate|intros _; apply keeps_ret]. }
  apply (keeps_ret_inv (code_burnt false (fun b => b = true) k)) in Hrun as (_ & s7 & Hs7 & Hrun); [|apply keeps_burnt_issue|done].
  unfold py_bind at 1, py_modify, lookup_identity, find_identity, py_bind, py_get in Hrun.
  assert (s1 = persist s7) as ->.
  { destruct (by_id (persist s7) !! k); [|done]. by apply (f_equal fst) in Hrun. }
  destruct Hs7 as (Hm & _ & Hf). split_and!; [done| |done]. intros _. cbn. by rewrite Hf.
Qed.

(** Once [bind_by_2fa] has succeeded the code is gone for good: the binding
    needed the code stored for the identity, the identity is held without it in
    memory and, when that save reached the disk, in the snapshot, and whatever
    follows - other bindings, restarts, failed saves - every later attempt on
    the identity is refused as burnt until [seed_identity] gives it a new code. *)
Theorem binding_code_once (ops0 ops : list (@id_op T)) t0 now tg identity code user s1 i
    tg' identity' code' user' :
  let s0 := id_run token_hex invite_of ops0 (empty_store t0 now) in
  id_disk_ok s0 = true ->
  bind_by_2fa token_hex tg identity code user s0 = (s1, Ret i) ->
  Forall (fun op => match op with SeedIdentity k _ _ _ _ => k <> py_strip identity | _ => True end) ops ->
  py_strip identity' = py_strip identity ->
  (exists j, by_id s0 !! py_strip identity = Some j /\ twofa_code j = py_strip code /\ twofa_code j <> "")
  /\ run_outcome (bind_by_2fa token_hex tg' identity' code' user') (id_run token_hex invite_of ops s1)
     = Raise (IdError (ValueError "2FA code is burnt")).
Proof.
  intros s0 Hok Hrun Hops Heq. pose proof (identity_ok_run ops0 t0 now) as [[Hall _] _].
  apply bind_burns in Hrun as [Hcode Hburnt]; [|by intros k j Hj; apply (Hall k j Hj)|done].
  split; [done|]. apply (burnt_run ops) in Hburnt as [[Hgood Hpres] _]; [|done].
  destruct (Hpres _ eq_refl) as [j Hj]. specialize (Hgood _ _ Hj eq_refl).
  unfold run_outcome, bind_by_2fa, find_identity. unfold py_bind at 1 2, py_get at 1.
  rewrite Heq, Hj. cbn beta iota delta [py_ret]. unfold check at 1, py_require, py_bind at 1.
  by rewrite Hgood.
Qed.
End Sound.

(** ** Telegram accounts and sub-identities *)

Section Links.
Context {T : Type} `{CredentialLedger T} (token_hex invite_of : nat -> string).
Context (token_inj : forall n n', token_hex n = token_hex n' -> n = n').
Implicit Types (s : id_store T) (m : gmap string KarmaIdentity).

(** Ids are keys, not empty and not reused; an account is bound once; parents
    and sub-identities know each other, two levels deep. *)
Record links_ok (drawn : nat) m (order : list string) : Prop := {
  lk_key : forall k i, m !! k = Some i -> identity_id i = k;
  lk_name : forall k, is_Some (m !! k) -> k <> "";
  lk_fresh : forall k n, is_Some (m !! k) -> k = ("kid_" ++ token_hex n)%string -> (n < drawn)%nat;
  lk_order : forall k, is_Some (m !! k) -> k ∈ order;
  lk_tg : forall k k' i i' t, m !! k = Some i -> m !! k' = Some i' ->
    telegram_user_id i = Some t -> telegram_user_id i' = Some t -> k = k';
  lk_parent : forall k i p, m !! k = Some i -> parent_identity_id i = Some p ->
    exists j, m !! p = Some j /\ parent_identity_id j = None /\ k ∈ sub_identity_ids j;
  lk_subs : forall k i c, m !! k = Some i -> c ∈ sub_identity_ids i ->
    exists j, m !! c = Some j /\ parent_identity_id j = Some k
}.

Lemma links_empty d : links_ok d ∅ [].
Proof.
  assert (forall k, is_Some ((∅ : gmap string KarmaIdentity) !! k) -> False) as Hno.
  { intros k. rewrite lookup_empty. apply is_Some_None. }
  split; intros; exfalso; eauto.
Qed.

Lemma links_mono d d' m o : (d <= d')%nat -> links_ok d m o -> links_ok d' m o.
Proof. intros Hd []. split; auto. intros k n Hk He. specialize (lk_fresh0 k n Hk He). lia. Qed.

Lemma alter_inv {A} (f : A -> A) k (m : gmap string A) j x :
  alter f k m !! j = Some x -> exists y, m !! j = Some y /\ x = if decide (j = k) then f y else y.
Proof.
  intros Hj. destruct (decide (j = k)) as [->|Hne].
  - rewrite lookup_alter_eq in Hj. destruct (m !! k) as [y|]; [|done]. injection Hj as <-. by exists y.
  - rewrite lookup_alter_ne in Hj by done. by exists x.
Qed.
Lemma alter_fwd {A} (f : A -> A) k (m : gmap string A) j y :
  m !! j = Some y -> alter f k m !! j = Some (if decide (j = k) then f y else y).
Proof.
  intros Hj. destruct (decide (j = k)) as [->|Hne];
    [by rewrite lookup_alter_eq, Hj|by rewrite lookup_alter_ne].
Qed.

(** A change of one identity that gives it no account of another. *)
Lemma links_change d m o k f :
  (forall i, identity_id (f i) = identity_id i
     /\ parent_identity_id (f i) = parent_identity_id i /\ sub_identity_ids (f i) = sub_identity_ids i) ->
  (forall i t k' i', m !! k = Some i -> telegram_user_id (f i) = Some t ->
     m !! k' = Some i' -> telegram_user_id i' = Some t -> k' = k) ->
  links_ok d m o -> links_ok d (alter f k m) o.
Proof.
  intros Hf Ht []. split.
  - intros j i Hj. apply alter_inv in Hj as (y & Hy & ->). destruct (decide _); [|by eauto].
    destruct (Hf y) as (-> & _). eauto.
  - intros j. rewrite lookup_alter_is_Some. auto.
  - intros j n. rewrite lookup_alter_is_Some. eauto.
  - intros j. rewrite lookup_alter_is_Some. auto.
  - intros j j' i i' t Hj Hj' Hi Hi'. apply alter_inv in Hj as (y & Hy & ->), Hj' as (y' & Hy' & ->).
    destruct (decide (j = k)) as [->|Hne], (decide (j' = k)) as [->|Hne']; [done| | |by eauto].
    + symmetry. by apply (Ht y t _ y').
    + by apply (Ht y' t _ y).
  - intros j i p Hj Hp. apply alter_inv in Hj as (y & Hy & ->).
    assert (parent_identity_id y = Some p) as Hp'.
    { destruct (decide _); [|done]. by destruct (Hf y) as (_ & <- & _). }
    destruct (lk_parent0 _ _ _ Hy Hp') as (z & Hz & Hz1 & Hz2). rewrite (alter_fwd _ _ _ _ _ Hz).
    eexists. split; [done|]. destruct (decide (p = k)); [|done]. by destruct (Hf z) as (_ & -> & ->).
  - intros j i c Hj Hc. apply alter_inv in Hj as (y & Hy & ->).
    assert (c ∈ sub_identity_ids y) as Hc'.
    { destruct (decide _); [|done]. by destruct (Hf y) as (_ & _ & <-). }
    destruct (lk_subs0 _ _ _ Hy Hc') as (z & Hz & Hz1). rewrite (alter_fwd _ _ _ _ _ Hz).
    eexists. split; [done|]. destruct (decide (c = k)); [|done]. by destruct (Hf z) as (_ & -> & _).
Qed.

(** A new identity under a key not in use. *)
Lemma links_put d m o i :
  links_ok d m o -> m !! identity_id i = None -> identity_id i <> "" ->
  (forall n, identity_id i = ("kid_" ++ token_hex n)%string -> (n < d)%nat) ->
  telegram_user_id i = None -> parent_identity_id i = None -> sub_identity_ids i = [] ->
  links_ok d (<[identity_id i := i]> m) (o ++ [identity_id i])%list.
Proof.
  intros [] Hno Hne Hfr Htg Hpar Hsubs. set (k := identity_id i) in *.
  assert (forall j x, <[k := i]> m !! j = Some x -> (j = k /\ x = i) \/ (j <> k /\ m !! j = Some x)) as Hinv.
  { intros j x Hj. destruct (decide (j = k)) as [->|Hj'].
    - rewrite lookup_insert_eq in Hj. injection Hj as <-. by left.
    - rewrite lookup_insert_ne in Hj by done. by right. }
  assert (forall j x, m !! j = Some x -> <[k := i]> m !! j = Some x) as Hfwd.
  { intros j x Hj. rewrite lookup_insert_ne; [done|]. intros <-. by rewrite Hno in Hj. }
  split.
  - intros j x Hj. destruct (Hinv _ _ Hj) as [[-> ->]|[_ Hj']]; eauto.
  - intros j [x Hj]. destruct (Hinv _ _ Hj) as [[-> ->]|[_ Hj']]; eauto.
  - intros j n [x Hj] He. destruct (Hinv _ _ Hj) as [[-> ->]|[_ Hj']]; eauto.
  - intros j [x Hj]. apply elem_of_app. destruct (Hinv _ _ Hj) as [[-> ->]|[_ Hj']];
      [right; by apply list_elem_of_singleton|left; eauto].
  - intros j j' x x' t Hj Hj' Ht Ht'. destruct (Hinv _ _ Hj) as [[-> ->]|[_ Hk]]; [by rewrite Htg in Ht|].
    destruct (Hinv _ _ Hj') as [[-> ->]|[_ Hk']]; [by rewrite Htg in Ht'|eauto].
  - intros j x p Hj Hp. destruct (Hinv _ _ Hj) as [[-> ->]|[_ Hk]]; [by rewrite Hpar in Hp|].
    destruct (lk_parent0 _ _ _ Hk Hp) as (y & Hy & Hrest). eauto.
  - intros j x c Hj Hc. destruct (Hinv _ _ Hj) as [[-> ->]|[_ Hk]].
    + rewrite Hsubs in Hc. by apply not_elem_of_nil in Hc.
    + destruct (lk_subs0 _ _ _ Hk Hc) as (y & Hy & Hrest). eauto.
Qed.

(** A new sub-identity, entered and listed by its parent. *)
Lemma links_sub d m o p pr i f :
  links_ok d m o -> m !! p = Some pr -> parent_identity_id pr = None ->
  m !! identity_id i = None -> identity_id i <> "" ->
  (forall n, identity_id i = ("kid_" ++ token_hex n)%string -> (n < d)%nat) ->
  telegram_user_id i = None -> parent_identity_id i = Some p -> sub_identity_ids i = [] ->
  (forall j, identity_id (f j) = identity_id j /\ telegram_user_id (f j) = telegram_user_id j
     /\ parent_identity_id (f j) = parent_identity_id j
     /\ sub_identity_ids (f j) = (sub_identity_ids j ++ [identity_id i])%list) ->
  links_ok d (alter f p (<[identity_id i := i]> m)) (o ++ [identity_id i])%list.
Proof.
  intros [] Hp Hpr Hno Hne Hfr Htg Hpar Hsubs Hf. set (k := identity_id i) in *.
  assert (p <> k) as Hpk by (intros ->; by rewrite Hno in Hp).
  assert (forall j x, alter f p (<[k := i]> m) !! j = Some x ->
    (j = k /\ x = i) \/ (j = p /\ x = f pr) \/ (j <> k /\ j <> p /\ m !! j = Some x)) as Hinv.
  { intros j x Hj. apply alter_inv in Hj as (y & Hj & ->). destruct (decide (j = k)) as [->|Hj'].
    - rewrite lookup_insert_eq in Hj. injection Hj as <-. rewrite decide_False by done. by left.
    - rewrite lookup_insert_ne in Hj by done. right. destruct (decide (j = p)) as [->|]; [|by right].
      rewrite Hp in Hj. injection Hj as <-. by left. }
  assert (forall j x, m !! j = Some x -> exists y, alter f p (<[k := i]> m) !! j = Some y
    /\ parent_identity_id y = parent_identity_id x
    /\ (forall c, c ∈ sub_identity_ids x -> c ∈ sub_identity_ids y)) as Hfwd.
  { intros j x Hj. assert (<[k := i]> m !! j = Some x) as Hj'.
    { rewrite lookup_insert_ne; [done|]. intros <-. by rewrite Hno in Hj. }
    rewrite (alter_fwd _ _ _ _ _ Hj'). eexists. split; [done|]. destruct (decide (j = p)); [|done].
    destruct (Hf x) as (_ & _ & -> & ->). split; [done|]. intros c Hc. apply elem_of_app. by left. }
  destruct (Hf pr) as (Hf1 & Hf2 & Hf3 & Hf4).
  split.
  - intros j x Hj. destruct (Hinv _ _ Hj) as [[-> ->]|[[-> ->]|(_ & _ & Hj')]]; [done| |eauto].
    rewrite Hf1. eauto.
  - intros j [x Hj]. destruct (Hinv _ _ Hj) as [[-> ->]|[[-> ->]|(_ & _ & Hj')]]; eauto.
  - intros j n [x Hj] He. destruct (Hinv _ _ Hj) as [[-> ->]|[[-> ->]|(_ & _ & Hj')]]; eauto.
  - intros j [x Hj]. apply elem_of_app. destruct (Hinv _ _ Hj) as [[-> ->]|[[-> ->]|(_ & _ & Hj')]];
      [right; by apply list_elem_of_singleton|left; eauto..].
  - intros j j' x x' t Hj Hj' Ht Ht'.
    destruct (Hinv _ _ Hj) as [[-> ->]|[[-> ->]|(_ & _ & Hk)]],
      (Hinv _ _ Hj') as [[-> ->]|[[-> ->]|(_ & _ & Hk')]]; try done;
      rewrite ?Hf2 in *; try (by rewrite Htg in Ht); try (by rewrite Htg in Ht'); eauto.
  - intros j x q Hj Hq. destruct (Hinv _ _ Hj) as [[-> ->]|[[-> ->]|(_ & _ & Hk)]].
    + rewrite Hpar in Hq. injection Hq as <-. exists (f pr).
      assert (<[k := i]> m !! p = Some pr) as Hp' by (by rewrite lookup_insert_ne).
      rewrite (alter_fwd _ _ _ _ _ Hp'), decide_True by done. rewrite Hf3, Hf4. split_and!; [done..|].
      apply elem_of_app. right. by apply list_elem_of_singleton.
    + by rewrite Hf3, Hpr in Hq.
    + destruct (lk_parent0 _ _ _ Hk Hq) as (z & Hz & Hz1 & Hz2).
      destruct (Hfwd _ _ Hz) as (y & Hy & Hy1 & Hy2). exists y. rewrite Hy1. auto.
  - intros j x c Hj Hc.
    assert (c = k /\ j = p \/ exists y, m !! j = Some y /\ c ∈ sub_identity_ids y) as [[-> ->]|(y & Hy & Hcy)].
    { destruct (Hinv _ _ Hj) as [[-> ->]|[[-> ->]|(_ & _ & Hk)]]; [|  |eauto].
      - rewrite Hsubs in Hc. by apply not_elem_of_nil in Hc.
      - rewrite Hf4, elem_of_app, list_elem_of_singleton in Hc. destruct Hc as [Hc| ->]; [eauto|by left]. }
    + exists i. rewrite lookup_alter_ne, lookup_insert_eq by done. done.
    + destruct (lk_subs0 _ _ _ Hy Hcy) as (z & Hz & Hz1).
      destruct (Hfwd _ _ Hz) as (w & Hw & Hw1 & _). exists w. by rewrite Hw1.
Qed.

Record linked s : Prop := {
  ln_mem : links_ok (id_drawn s) (by_id s) (id_order s);
  ln_disk : links_ok (id_drawn s) (default (∅, []) (id_disk s)).1 (default (∅, []) (id_disk s)).2;
  ln_tg : forall k i t, by_id s !! k = Some i -> telegram_user_id i = Some t -> by_tg s !! t = Some k
}.

Lemma linked_same s s' :
  by_id s' = by_id s -> id_order s' = id_order s -> id_disk s' = id_disk s -> by_tg s' = by_tg s ->
  (id_drawn s <= id_drawn s')%nat -> linked s -> linked s'.
Proof.
  intros E1 E2 E3 E4 Hd []. split; rewrite ?E1, ?E2, ?E3, ?E4; [by eapply links_mono..|done].
Qed.
Lemma linked_trust t s : linked s -> linked (set_trust t s).
Proof. by apply linked_same. Qed.
Lemma linked_persist s : linked s -> linked (persist s).
Proof. intros []. split; [done| |done]. cbn. by destruct (id_disk_ok s). Qed.
Lemma linked_change k f s :
  (forall i, identity_id (f i) = identity_id i /\ telegram_user_id (f i) = telegram_user_id i
     /\ parent_identity_id (f i) = parent_identity_id i /\ sub_identity_ids (f i) = sub_identity_ids i) ->
  linked s -> linked (change k f s).
Proof.
  intros Hf [Hm Hd Ht]. split; [|done|].
  - apply links_change; [|intros i t k' i' Hi Hfi Hi' Ht'|done].
    + intros i. by destruct (Hf i) as (-> & _ & -> & ->).
    + destruct (Hf i) as (_ & E & _). rewrite E in Hfi. symmetry. by apply (lk_tg _ _ _ Hm _ _ i i' t).
  - intros j i t Hj Hi. apply alter_inv in Hj as (y & Hy & ->). cbn. apply (Ht j y); [done|].
    destruct (decide _); [|done]. by destruct (Hf y) as (_ & <- & _).
Qed.
Hint Resolve linked_trust linked_persist keeps_modify keeps_ledger : keeps.
Lemma keeps_linked_change k f :
  (forall i, identity_id (f i) = identity_id i /\ telegram_user_id (f i) = telegram_user_id i
     /\ parent_identity_id (f i) = parent_identity_id i /\ sub_identity_ids (f i) = sub_identity_ids i) ->
  keeps (E := id_error) linked (py_modify (change k f)).
Proof. intros Hf. apply keeps_modify. intros s. by apply linked_change. Qed.
Lemma keeps_linked_draw : keeps (E := id_error) linked (py_modify draw).
Proof. apply keeps_modify. intros s. apply linked_same; try done. cbn. lia. Qed.
Hint Resolve keeps_linked_change keeps_linked_draw : keeps.

(** An identity entering the dict and its indexes, after [n] draws. *)
Lemma linked_insert s i n :
  linked s -> (n <= 2)%nat -> by_id s !! identity_id i = None -> identity_id i <> "" ->
  (forall j, identity_id i = ("kid_" ++ token_hex j)%string -> (j < id_drawn s + n)%nat) ->
  telegram_user_id i = None -> parent_identity_id i = None -> sub_identity_ids i = [] ->
  linked (reindex_invite i (reindex_wallet i (put_identity i (Nat.iter n draw s)))).
Proof.
  intros [Hm Hd Ht] Hn Hno Hne Hfr Htg Hpar Hsubs.
  assert (linked (Nat.iter n draw s)) as [Hm' Hd' Ht'].
  { destruct n as [|[|[|n]]]; [..|lia]; [done| |]; (eapply linked_same; [..|by split]); try done; cbn; lia. }
  assert (by_id (Nat.iter n draw s) = by_id s /\ id_drawn (Nat.iter n draw s) = (id_drawn s + n)%nat) as [E1 E2].
  { clear. induction n as [|n [IH1 IH2]]; [split; [done|cbn; lia]|].
    change (Nat.iter (S n) draw s) with (draw (Nat.iter n draw s)). split; [exact IH1|].
    change (S (id_drawn (Nat.iter n draw s)) = (id_drawn s + S n)%nat). lia. }
  set (s' := Nat.iter n draw s) in *. clearbody s'.
  split; [|done|].
  - cbn. rewrite bool_decide_eq_false_2 by (rewrite E1, Hno; by apply is_Some_None).
    apply links_put; try done; [by rewrite E1|by rewrite E2].
  - cbn. intros j x t Hj Hx. destruct (decide (j = identity_id i)) as [->|Hne'].
    + rewrite lookup_insert_eq in Hj. injection Hj as <-. by rewrite Htg in Hx.
    + rewrite lookup_insert_ne in Hj by done. by apply (Ht' j x).
Qed.

(** The next token names no identity. *)
Lemma next_unused s : linked s -> by_id s !! ("kid_" ++ token_hex (id_drawn s))%string = None.
Proof.
  intros [Hm _ _]. destruct (by_id s !! _) eqn:E; [|done].
  enough (id_drawn s < id_drawn s)%nat by lia. by apply (lk_fresh _ _ _ Hm _ _ (mk_is_Some _ _ E)).
Qed.
Lemma token_below s j : ("kid_" ++ token_hex (id_drawn s) = "kid_" ++ token_hex j)%string -> j = id_drawn s.
Proof. intros He. cbn in He. injection He as He. by apply token_inj. Qed.

Lemma linked_get_or_create w meta s :
  linked s -> linked (run_state (get_or_create_by_wallet token_hex invite_of w meta) s).
Proof.
  intros Hs. unfold run_state, get_or_create_by_wallet. unfold py_bind at 1, py_get at 1.
  destruct (_ ≫= _); [done|].
  unfold new_id, new_invite_code, insert_identity, py_bind, py_get, py_modify, py_ret. cbn [fst].
  apply linked_persist.
  match goal with |- linked (reindex_invite ?i _) => apply (linked_insert s i 2) end; try done.
  - by apply next_unused.
  - intros j Hj. cbn in Hj. apply (token_below s) in Hj. lia.
Qed.

Lemma linked_seed k w c p x s : k <> "" -> (forall n, k <> "kid_" ++ token_hex n)%string ->
  linked s -> linked (run_state (seed_identity invite_of k w c p x) s).
Proof.
  intros Hk Hk' Hs. unfold run_state, seed_identity. unfold py_bind at 1, py_get at 1.
  destruct (by_id s !! k) eqn:E.
  - match goal with |- linked (fst (?m s)) => change (linked (run_state m s)) end.
    revert s Hs E. intros s Hs _. revert s Hs. change (keeps (E := id_error) linked (py_modify (change k (set_twofa c)) ;;; py_modify persist ;;; lookup_identity k)%py).
    unfold lookup_identity. keep.
  - unfold new_invite_code, insert_identity, py_bind, py_get, py_modify, py_ret. cbn [fst].
    apply linked_persist.
    match goal with |- linked (reindex_invite ?i _) => apply (linked_insert s i 1) end; try done; [lia|].
    intros n Hn. by destruct (Hk' n).
Qed.

Lemma linked_create_sub p w s :
  linked s -> linked (run_state (create_sub_identity token_hex invite_of p w) s).
Proof.
  intros Hs. pose proof Hs as [Hm Hd Ht].
  unfold run_state, create_sub_identity, find_identity, check, py_require, new_id,
    new_invite_code, insert_identity, raise_py, py_raise, py_bind, py_get, py_modify, py_ret.
  destruct (by_id s !! p) as [pr|] eqn:E; [|done].
  destruct (truthy_str (parent_identity_id pr)) eqn:Hpr; [done|]. destruct (_ <? 2)%nat; [|done].
  destruct (negb (bool_decide _)); [|done]. cbn [negb fst]. cbn beta iota.
  set (k := ("kid_" ++ token_hex (id_drawn s))%string).
  apply linked_persist.
  set (i := new_identity _ _ _ _ _ _ _ _ _ _).
  assert (by_id s !! identity_id i = None) as Hno by (by apply next_unused).
  assert (parent_identity_id pr = None) as Hpar.
  { destruct (parent_identity_id pr) as [q|] eqn:Eq; [|done]. cbn in Hpr.
    apply negb_false_iff, bool_decide_eq_true in Hpr as ->.
    destruct (lk_parent _ _ _ Hm _ _ _ E Eq) as (z & Hz & _).
    by destruct (lk_name _ _ _ Hm _ (mk_is_Some _ _ Hz)). }
  apply (links_mono _ (2 + id_drawn s)) in Hm, Hd; [|lia..]. split; [|done|].
  - cbn. rewrite bool_decide_eq_false_2 by (intros [z Hz]; change (by_id s !! identity_id i = Some z) in Hz; by rewrite Hno in Hz).
    apply (links_sub _ _ _ p pr); try done. intros n Hn. apply token_below in Hn. cbn. lia.
  - cbn. intros j x t Hj Hx. apply alter_inv in Hj as (y & Hy & ->).
    assert (telegram_user_id y = Some t) as Hx' by (by destruct (decide _)). clear Hx.
    destruct (decide (j = k)) as [->|Hne].
    + rewrite lookup_insert_eq in Hy. by injection Hy as <-.
    + rewrite lookup_insert_ne in Hy by done. by apply (Ht j y).
Qed.

(** An account that no other identity holds goes to [k]. *)
Lemma linked_bind k tg u f i s :
  (forall j, identity_id (f j) = identity_id j /\ telegram_user_id (f j) = Some tg
     /\ parent_identity_id (f j) = parent_identity_id j /\ sub_identity_ids (f j) = sub_identity_ids j) ->
  identity_id i = k ->
  (forall k' i', by_id s !! k' = Some i' -> telegram_user_id i' = Some tg -> k' = k) ->
  linked s -> linked (reindex_tg (set_telegram (Some tg) u i) (change k f s)).
Proof.
  intros Hf Hi Hfree [Hm Hd Ht]. split; [|done|].
  - apply links_change; [intros j; by destruct (Hf j) as (-> & _ & -> & ->)| |done].
    intros j t k' i' _ Hj Hi' Ht'. destruct (Hf j) as (_ & E & _). rewrite E in Hj. injection Hj as <-. eauto.
  - intros j x t Hj Hx. cbn in Hj. apply alter_inv in Hj as (y & Hy & ->). cbn.
    destruct (decide (j = k)) as [->|Hne].
    + destruct (Hf y) as (_ & E & _). rewrite E in Hx. injection Hx as <-. by rewrite lookup_insert_eq, Hi.
    + rewrite lookup_insert_ne; [by apply (Ht j y)|]. intros <-. by apply Hne, (Hfree j y).
Qed.

(** Who holds an account is in the index, under a key that is not empty. *)
Lemma linked_holder s k i tg :
  linked s -> by_id s !! k = Some i -> telegram_user_id i = Some tg ->
  by_tg s !! tg = Some k /\ truthy_str (by_tg s !! tg) = true.
Proof.
  intros [Hm _ Ht] Hk Hi. rewrite (Ht _ _ _ Hk Hi). split; [done|]. cbn.
  apply negb_true_iff, str_eqb_ne. by apply (lk_name _ _ _ Hm).
Qed.

Lemma linked_bind_telegram k tg u s :
  linked s -> linked (run_state (bind_telegram k tg u) s).
Proof.
  intros Hs. unfold run_state, bind_telegram, lookup_identity, find_identity. unfold py_bind at 1 2, py_get at 1.
  destruct (by_id s !! k) as [i|] eqn:E; [|done]. unfold py_ret at 1. cbn beta iota.
  unfold py_bind at 1, py_get at 1. unfold check, py_require. unfold py_bind at 1.
  destruct (truthy_str (by_tg s !! tg) && negb (bool_decide (by_tg s !! tg = Some k))) eqn:Hc; [done|].
  cbn [negb]. unfold py_bind at 1 2, py_modify at 1 2, py_ret at 1.
  match goal with |- linked (fst (?m ?z)) => change (linked (run_state m z)); assert (linked z) as Hz end.
  - apply linked_bind; [done|by apply (lk_key _ _ _ (ln_mem _ Hs))| |done].
    intros k' i' Hk' Hi'. destruct (linked_holder _ _ _ _ Hs Hk' Hi') as [Hb Htr].
    rewrite Htr in Hc. cbn in Hc. apply negb_false_iff, bool_decide_eq_true in Hc.
    rewrite Hb in Hc. by injection Hc.
  - revert Hz. generalize (reindex_tg (set_telegram (Some tg) u i) (change k (set_telegram (Some tg) u) s)).
    match goal with |- forall z, linked z -> linked (run_state ?m z) => change (keeps linked m) end. keep.
Qed.

Lemma keeps_linked_mutate_at k n action actor reason :
  keeps linked (mutate_credential_at k n action actor reason).
Proof. unfold mutate_credential_at, lookup_identity. keep. Qed.
Hint Resolve keeps_linked_mutate_at : keeps.
Lemma keeps_linked_mutate k cid action actor reason :
  keeps linked (mutate_credential k cid action actor reason).
Proof. unfold mutate_credential, lookup_identity. keep. Qed.
Lemma keeps_linked_issue k ty iss ttl a v : keeps linked (issue_credential token_hex k ty iss ttl a v).
Proof. unfold issue_credential, lookup_identity. keep. Qed.
Hint Resolve keeps_linked_mutate keeps_linked_issue : keeps.

Lemma linked_unbind k s : linked s -> linked (change k (set_telegram None None) s).
Proof.
  intros [Hm Hd Ht]. split; [by apply links_change|done|].
  intros j x t Hj Hx. apply alter_inv in Hj as (y & Hy & ->). cbn. destruct (decide _); [done|]. eauto.
Qed.

Lemma linked_bind_by_2fa tg identity code u s :
  linked s -> linked (run_state (bind_by_2fa token_hex tg identity code u) s).
Proof.
  intros Hs. unfold run_state, bind_by_2fa, find_identity. unfold py_bind at 1 2, py_get at 1.
  destruct (by_id s !! py_strip identity) as [i|] eqn:E; [|done]. unfold py_ret at 1. cbn beta iota.
  unfold check at 1, py_require, py_bind at 1. destruct (negb _); [|done]. unfold py_ret at 1. cbn beta iota.
  unfold check at 1, py_require, py_bind at 1. destruct (_ && _); [|done]. unfold py_ret at 1. cbn beta iota.
  unfold check at 1, py_require, py_bind at 1.
  destruct (str_eqb (twofa_code i) (py_strip code)); [|done]. unfold py_ret at 1. cbn beta iota.
  unfold py_bind at 1, py_get at 1. set (k := identity_id i).
  set (s1 := if truthy_str (by_tg s !! tg) && negb (bool_decide (by_tg s !! tg = Some k))
             then change (default "" (by_tg s !! tg)) (set_telegram None None) s else s).
  assert (linked s1 /\ forall k' i', by_id s1 !! k' = Some i' -> telegram_user_id i' = Some tg -> k' = k)
    as [Hs1 Hfree].
  { subst s1. destruct (_ && _) eqn:Hc.
    - split; [by apply linked_unbind|]. intros k' i' Hk' Hi'. apply alter_inv in Hk' as (y & Hy & ->).
      destruct (decide _) as [|Hne]; [done|]. destruct (linked_holder _ _ _ _ Hs Hy Hi') as [Hb _].
      rewrite Hb in Hne. done.
    - split; [done|]. intros k' i' Hk' Hi'. destruct (linked_holder _ _ _ _ Hs Hk' Hi') as [Hb Htr].
      rewrite Htr in Hc. cbn in Hc. apply negb_false_iff, bool_decide_eq_true in Hc.
      rewrite Hb in Hc. by injection Hc. }
  unfold py_bind at 1. 
  match goal with |- context [py_when ?b (py_modify ?f) s] =>
    assert (py_when (E := id_error) b (py_modify f) s = (s1, Ret tt)) as -> by (subst s1; by destruct b) end.
  unfold py_bind at 1 2, py_modify at 1 2.
  match goal with |- linked (fst (?m ?z)) => change (linked (run_state m z)); assert (linked z) as Hz end.
  - by apply linked_bind.
  - clearbody s1 k. revert Hz. match goal with |- linked ?z -> _ => generalize z end.
    match goal with |- forall z, linked z -> linked (run_state ?m z) => change (keeps linked m) end.
    unfold lookup_identity. keep.
Qed.

(** Restarting rebuilds the account index from identities that hold one each. *)
Lemma reindex_tg_all m order : forall l z d,
  links_ok d m order ->
  (forall k i t, m !! k = Some i -> telegram_user_id i = Some t ->
     (k ∈ l \/ by_tg z !! t = Some k)) ->
  forall k i t, m !! k = Some i -> telegram_user_id i = Some t ->
    by_tg (fold_left (reindex m) l z : id_store T) !! t = Some k.
Proof.
  induction l as [|j l IH]; intros z d Hm Hz k i t Hk Hi.
  - cbn. destruct (Hz _ _ _ Hk Hi) as [Hin|]; [by apply not_elem_of_nil in Hin|done].
  - cbn [fold_left]. apply (IH _ d) with i; [done| |done..].
    clear k i t Hk Hi. intros k i t Hk Hi. unfold reindex.
    destruct (Hz _ _ _ Hk Hi) as [[->|Hin]%elem_of_cons|Hb]; [|by left|].
    + right. rewrite Hk. cbn. rewrite Hi, lookup_insert_eq. by rewrite (lk_key _ _ _ Hm _ _ Hk).
    + right. destruct (m !! j) as [x|] eqn:Ej; [|done]. cbn.
      destruct (telegram_user_id x) as [t'|] eqn:Ex; [|done].
      destruct (decide (t' = t)) as [->|Hne]; [|by rewrite lookup_insert_ne].
      rewrite lookup_insert_eq, (lk_key _ _ _ Hm _ _ Ej).
      by rewrite (lk_tg _ _ _ Hm _ _ _ _ _ Ej Hk Ex Hi).
Qed.

Lemma linked_load s : linked s -> linked (load s).
Proof.
  intros [Hm Hd Ht]. unfold load. destruct (default (∅, []) (id_disk s)) as [m order] eqn:E. cbn in Hd.
  match goal with |- linked (fold_left _ _ ?z) => set (s0 := z) end.
  destruct (reindex_all m order s0) as (E1 & E2 & _ & E3 & E4).
  split; rewrite ?E1, ?E2, ?E3, ?E4; cbn; [done|by rewrite E|].
  intros k i t Hk Hi. eapply reindex_tg_all; [done| |done..].
  intros k' i' t' Hk' Hi'. left. by apply (lk_order _ _ _ Hd).
Qed.

Lemma keeps_linked_expire_loop k now l : forall n, keeps linked (expire_loop k now l n).
Proof.
  induction l as [|j l IH]; intros n; [apply keeps_ret|]. cbn [expire_loop]. unfold lookup_identity. keep.
Qed.
Hint Resolve keeps_linked_expire_loop : keeps.
Lemma keeps_linked_expire k : keeps linked (expire_stale_credentials k).
Proof. unfold expire_stale_credentials. keep. Qed.
Hint Resolve keeps_linked_expire : keeps.

(** Seeded ids are neither empty nor of the generated form. *)
Definition seed_named (op : @id_op T) : Prop :=
  match op with
  | SeedIdentity k _ _ _ _ => k <> "" /\ forall n, k <> ("kid_" ++ token_hex n)%string
  | _ => True
  end.

Lemma linked_step (op : @id_op T) s :
  seed_named op -> linked s -> linked (id_step token_hex invite_of op s).
Proof.
  intros Hop Hs. destruct op; cbn [id_step];
    first [by apply linked_get_or_create|by apply linked_create_sub|by apply linked_bind_telegram
          |by apply linked_bind_by_2fa|by apply linked_seed; destruct Hop|by apply linked_load
          |by apply (linked_same s)|idtac].
  all: match goal with |- linked (run_state ?m ?s) =>
         revert s Hs; match goal with |- forall z, linked z -> linked (run_state m z) => change (keeps linked m) end end.
  - unfold update_policy, lookup_identity. keep.
  - unfold add_karma_points. keep.
  - keep.
  - keep.
  - keep.
  - unfold revoke_credential. keep.
  - apply keeps_linked_expire.
  - unfold identity_card, lookup_identity. keep.
  - unfold set_identity_class, lookup_identity. keep.
Qed.

Lemma linked_run (ops : list (@id_op T)) : forall s, Forall seed_named ops -> linked s ->
  linked (id_run token_hex invite_of ops s).
Proof.
  induction ops as [|op ops IH]; intros s Hops Hs; [done|].
  apply Forall_cons in Hops as [Hop Hops]. apply IH; [done|]. by apply linked_step.
Qed.

Lemma linked_empty t now : linked (empty_store t now).
Proof. split; [apply links_empty..|]. intros k i t' Hk. cbn in Hk. by rewrite lookup_empty in Hk. Qed.

Lemma linked_main s k i : linked s -> by_id s !! k = Some i ->
  exists j, resolve_main_identity s k = Some j /\ parent_identity_id j = None
    /\ by_id s !! identity_id j = Some j /\ (j = i \/ k ∈ sub_identity_ids j).
Proof.
  intros [Hm _ _] Hk. unfold resolve_main_identity. rewrite Hk. cbn. unfold main_of, follow.
  destruct (parent_identity_id i) as [p|] eqn:Ep.
  - destruct (lk_parent _ _ _ Hm _ _ _ Hk Ep) as (j & Hj & Hj1 & Hj2). cbn.
    rewrite str_eqb_ne by (apply (lk_name _ _ _ Hm); eauto). cbn. rewrite Hj. exists j.
    rewrite (lk_key _ _ _ Hm _ _ Hj). auto.
  - cbn. exists i. rewrite (lk_key _ _ _ Hm _ _ Hk). auto.
Qed.
End Links.

Section Resolution.
Context {T : Type} `{CredentialLedgerLaws T} (token_hex invite_of : nat -> string).

(** When generated tokens do not repeat and seeded ids are not of the
    generated form, after any operations: an identity has at most two
    sub-identities; resolving any identity gives a main one, itself or the
    parent that lists it; a telegram account is held by one identity, and
    looking the account up finds that identity and its main one - through
    rebinding, failed saves and restarts. *)
Theorem identity_links (ops : list (@id_op T)) t now k i :
  (forall n n', token_hex n = token_hex n' -> n = n') ->
  Forall (seed_named token_hex) ops ->
  let s := id_run token_hex invite_of ops (empty_store t now) in
  by_id s !! k = Some i ->
  (length (sub_identity_ids i) <= 2)%nat
  /\ (exists m, resolve_main_identity s k = Some m /\ parent_identity_id m = None
       /\ by_id s !! identity_id m = Some m /\ (m = i \/ k ∈ sub_identity_ids m))
  /\ (forall tg, telegram_user_id i = Some tg ->
       get_by_telegram s tg = Some i
       /\ resolve_effective_identity s tg = resolve_main_identity s k
       /\ forall k' i', by_id s !! k' = Some i' -> telegram_user_id i' = Some tg -> k' = k).
Proof.
  intros Hinj Hops s Hk. assert (linked token_hex s) as Hs by (apply linked_run; [done..|apply linked_empty]).
  split_and!.
  - pose proof (identity_ok_run token_hex invite_of ops t now) as [[Hall _] _].
    by destruct (Hall k i Hk) as (_ & _ & _ & ?).
  - by eapply linked_main.
  - intros tg Htg. destruct (linked_holder _ _ _ _ _ Hs Hk Htg) as [Hb Htr].
    unfold get_by_telegram, resolve_effective_identity, resolve_main_identity, follow.
    rewrite Htr, Hb, Hk. cbn. rewrite Hk. split_and!; [done..|].
    intros k' i' Hk' Hi'. destruct (linked_holder _ _ _ _ _ Hs Hk' Hi') as [Hb' _].
    rewrite Hb in Hb'. by injection Hb'.
Qed.
End Resolution.

(** ** Witnesses and examples *)

Section Witness.
Definition tok (n : nat) : string := py_str_int (Z.of_nat n).
Definition w_ledger : CredentialLedger trust := trust_credential_ledger (utf8 "k") tok.
#[local] Existing Instance w_ledger.
Definition w_store (ops : list (@id_op trust)) : id_store trust :=
  id_run tok tok ops (empty_store (initial_trust 1000) 1000).
Definition w_ops : list (@id_op trust) :=
  [SeedIdentity "alice" "0xAA" "4711" None fzero;
   IssueCredential "alice" "wallet" "karma" 0 "system" true;
   IssueCredential "alice" "email" "karma" 60 "system" true;
   CreateSub "alice" "0xBB"].

#[local] Instance w_laws : CredentialLedgerLaws trust := trust_ledger_laws (utf8 "k") tok.

Lemma id_tok_inj n n' : tok n = tok n' -> n = n'.
Proof. intros H. apply py_str_int_inj in H. lia. Qed.

Lemma credentials_sound_witness :
  exists i, by_id (w_store w_ops) !! "alice" = Some i /\ identity_id i = "alice"
    /\ ((verification_status i = ENHANCED <->
         "wallet" ∈ verified_types (credentials i) /\ 3 <= size (verified_types (credentials i)))%nat).
Proof.
  unfold w_store. destruct (by_id (id_run tok tok w_ops (empty_store (initial_trust 1000) 1000)) !! "alice") as [i|] eqn:E; [|by vm_compute in E].
  exists i. destruct (credentials_sound tok tok w_ops _ _ _ _ E) as (H1 & _ & _ & _ & H2).
  split; [reflexivity|split; [exact H1|exact H2]].
Defined.

Lemma identity_links_witness :
  exists i, by_id (w_store w_ops) !! "kid_3" = Some i
    /\ exists m, resolve_main_identity (w_store w_ops) "kid_3" = Some m /\ parent_identity_id m = None.
Proof.
  unfold w_store. destruct (by_id (id_run tok tok w_ops (empty_store (initial_trust 1000) 1000)) !! "kid_3") as [i|] eqn:E; [|by vm_compute in E].
  exists i. refine (conj eq_refl _). destruct (identity_links tok tok w_ops (initial_trust 1000) 1000 "kid_3" i id_tok_inj) as (_ & (m & H1 & H2 & _) & _).
  - apply Forall_cons; split; [split; [discriminate|intros n; discriminate]|].
    repeat (apply Forall_cons; split; [exact Logic.I|]). by apply Forall_nil.
  - exact E.
  - exists m. split; [exact H1|exact H2].
Defined.

Lemma binding_code_once_witness :
  exists s1 i, bind_by_2fa tok 7 " alice" "4711 " None (w_store w_ops) = (s1, Ret i)
    /\ run_outcome (bind_by_2fa tok 8 "alice" "4711" None) (id_run tok tok [SetDisk false; Restart] s1)
       = Raise (IdError (ValueError "2FA code is burnt")).
Proof.
  unfold w_store.
  assert (is_ret (bind_by_2fa tok 7 " alice" "4711 " None (w_store w_ops)).2 = true) as Hr by (by vm_compute).
  unfold w_store in Hr.
  destruct (bind_by_2fa tok 7 " alice" "4711 " None (id_run tok tok w_ops (empty_store (initial_trust 1000) 1000))) as [s1 [i|e]] eqn:E;
    [clear Hr|discriminate Hr].
  exists s1, i. split; [reflexivity|].
  refine (proj2 (binding_code_once tok tok w_ops [SetDisk false; Restart] _ _ 7 " alice" "4711 " None s1 i
                   8 "alice" "4711" None _ E _ _)); [by vm_compute|repeat constructor|done].
Defined.

(** The code comes back when the save of the binding failed. *)
Definition revived : id_store trust :=
  w_store (w_ops ++ [SetDisk false; BindBy2fa 7 "alice" "4711" None; Restart])%list.
Lemma failed_save_revives_code :
  is_ret (run_outcome (bind_by_2fa tok 8 "alice" "4711" None) revived) = true.
Proof. by vm_compute. Qed.

(** An identity moved to a new account is still found under the old one. *)
Lemma old_account_still_resolves :
  let s := w_store (w_ops ++ [BindTelegram "alice" 7 None; BindTelegram "alice" 8 None])%list in
  telegram_user_id <$> get_by_telegram s 7 = Some (Some 8%Z).
Proof. by vm_compute. Qed.
End Witness.
