(* ===== verification/ResponsibilityGraph.v ===== *)
(** * The responsibility graph ([services/responsibility_graph.py])

    Edges between identities with a content hash, the risk signals raised when
    an edge enters, and what is read off the graph: scores, path features of an
    identity, the path hash and the temporal consistency of a task.  The two
    tables are lists of rows in insertion order, which is also the order of a
    [SELECT] without [ORDER BY]; their random primary keys are left out. *)

From S2P Require Import Prelude PyBytes PyJson PyJsonCanon PyDatetime PyFloat PySort.
From stdpp Require Import relations sorting.
From Stdlib Require Import Sorted.
#[local] Open Scope string_scope.

(** ** Rows *)

Inductive edge_kind : Type := VOUCHER_ACCEPT | TASK_DELEGATION | MANUAL_LINK.
Definition edge_kind_value (k : edge_kind) : string :=
  match k with
  | VOUCHER_ACCEPT => "voucher_accept"
  | TASK_DELEGATION => "task_delegation"
  | MANUAL_LINK => "manual_link"
  end.
Inductive signal_kind : Type := DIRECT_LOOP | MUTUAL_EXCHANGE | CYCLE_AUTHORIZATION.
Inductive severity_level : Type := INFO | MEDIUM | HIGH.
Inductive score_band : Type := LOW | ELEVATED | HIGH_BAND | CRITICAL.

#[export] Instance edge_kind_eq_dec : EqDecision edge_kind.
Proof. solve_decision. Defined.
#[export] Instance signal_kind_eq_dec : EqDecision signal_kind.
Proof. solve_decision. Defined.
#[export] Instance severity_level_eq_dec : EqDecision severity_level.
Proof. solve_decision. Defined.

Record edge_row := EdgeRow {
  edge_hash : string;
  source : string;
  target : string;
  edge_type : edge_kind;
  e_task_id : option string;
  voucher_id : option string;
  e_metadata : list (string * json);
  e_created_at : datetime
}.

Record signal_row := SignalRow {
  signal_type : signal_kind;
  sig_severity : severity_level;
  sig_identity : string;
  sig_edge_hash : string;
  related_edge_hashes : list string;
  sig_task_id : option string;
  sig_detail : string;
  sig_created_at : datetime
}.

Record graph := Graph {
  edges : list edge_row;
  signals : list signal_row;
  g_now : datetime
}.

(** ** Hashes *)

(** [_sha256] *)
Definition payload_text (fields : list (string * json)) : bytes := utf8 (dumps compact_sorted (JObj fields)).
Definition sha256_of (fields : list (string * json)) : string := sha256_hex (payload_text fields).

Definition jopt (o : option string) : json := match o with Some s => JStr s | None => JNull end.

Definition edge_payload (src tgt : string) (kind : edge_kind) (task voucher : option string)
    (meta : list (string * json)) : list (string * json) :=
  [("source_identity_id", JStr src); ("target_identity_id", JStr tgt);
   ("edge_type", JStr (edge_kind_value kind)); ("task_id", jopt task); ("voucher_id", jopt voucher);
   ("metadata", JObj meta)].
Definition build_edge_hash (src tgt : string) (kind : edge_kind) (task voucher : option string)
    (meta : list (string * json)) : string :=
  sha256_of (edge_payload src tgt kind task voucher meta).

(** ** The cycle search *)

(** [select(...).where(source_identity_id == node)] *)
Definition edges_from (es : list edge_row) (node : string) : list edge_row :=
  List.filter (fun e => str_eqb (source e) node) es.

(** The inner loop: the path that reaches the target, or the longer queue. *)
Fixpoint scan_edges (goal : string) (path : list string) (hops : Z) (rows : list edge_row)
    (queue : list (string * list string * Z)) : list string + list (string * list string * Z) :=
  match rows with
  | [] => inr queue
  | e :: r =>
      let next := (path ++ [edge_hash e])%list in
      if str_eqb (target e) goal then inl next
      else scan_edges goal path hops r (queue ++ [(target e, next, hops + 1)%Z])%list
  end.

Fixpoint cycle_search (fuel : nat) (es : list edge_row) (goal : string) (max_hops : Z)
    (queue : list (string * list string * Z)) (visited : gset (string * Z)) : option (list string) :=
  match queue with
  | [] => Some []
  | (node, path, hops) :: rest =>
      match fuel with
      | O => None
      | S f =>
          if (max_hops <=? hops)%Z then cycle_search f es goal max_hops rest visited
          else if bool_decide ((node, hops) ∈ visited) then cycle_search f es goal max_hops rest visited
          else match scan_edges goal path hops (edges_from es node) rest with
               | inl found => Some found
               | inr queue => cycle_search f es goal max_hops queue ({[(node, hops)]} ∪ visited)
               end
      end
  end.

(** The start, and every edge once per depth. *)
Definition cycle_fuel (es : list edge_row) (max_hops : Z) : nat :=
  S (Z.to_nat max_hops * length es).

Definition find_cycle_path_hashes (es : list edge_row) (start goal : string) (max_hops : Z) : list string :=
  if str_eqb start goal then []
  else default [] (cycle_search (cycle_fuel es max_hops) es goal max_hops [(start, [], 0%Z)] ∅).

(** ** Ingestion *)

(** [_detect_signals], on the tables that hold the edge already. *)
Definition detect_signals (g : graph) (e : edge_row) : list signal_row :=
  let signal kind sev related text :=
    SignalRow kind sev (source e) (edge_hash e) related (e_task_id e) text (g_now g) in
  let direct :=
    if str_eqb (source e) (target e)
    then [signal DIRECT_LOOP HIGH [edge_hash e] "source and target identities are identical"] else [] in
  let mutual :=
    match sort_by (desc_by e_created_at)
            (List.filter (fun r => str_eqb (source r) (target e) && str_eqb (target r) (source e)
                                   && negb (str_eqb (edge_hash r) (edge_hash e))) (edges g)) with
    | r :: _ => [signal MUTUAL_EXCHANGE MEDIUM [edge_hash e; edge_hash r]
                   "detected reverse direction authorization edge"]
    | [] => []
    end in
  let cyclic :=
    match find_cycle_path_hashes (edges g) (target e) (source e) 6 with
    | [] => []
    | hashes => [signal CYCLE_AUTHORIZATION HIGH (edge_hash e :: hashes)
                   "authorization cycle detected in responsibility graph"]
    end in
  (direct ++ mutual ++ cyclic)%list.

Inductive graph_error : Type :=
| IntegrityError (constraint : string).

(** [ingest_edge]; the [flush] enforces the constraint of the table on vouchers. *)
Definition ingest_edge (src tgt : string) (kind : edge_kind) (task voucher : option string)
    (meta : list (string * json)) : M graph graph_error (edge_row * list signal_row) :=
  fun g =>
    let hash := build_edge_hash src tgt kind task voucher meta in
    match List.find (fun r => str_eqb (edge_hash r) hash) (edges g) with
    | Some row => (g, Ret (row, List.filter (fun s => str_eqb (sig_edge_hash s) hash) (signals g)))
    | None =>
        if match voucher with
           | Some v => existsb (fun r => bool_decide (voucher_id r = Some v)) (edges g)
           | None => false
           end
        then (g, Raise (IntegrityError "uq_responsibility_edge_voucher"))
        else
          let row := EdgeRow hash src tgt kind task voucher meta (g_now g) in
          let g' := Graph (edges g ++ [row])%list (signals g) (g_now g) in
          let found := detect_signals g' row in
          (Graph (edges g') (signals g ++ found)%list (g_now g), Ret (row, found))
    end.

(** ** Reading the graph *)

Definition hours (n : Z) : Z := (n * 3600 * US_PER_SECOND)%Z.

Definition get_identity_signals (g : graph) (identity : string) (limit : nat) : list signal_row :=
  take limit (sort_by (desc_by sig_created_at)
                (List.filter (fun s => str_eqb (sig_identity s) identity) (signals g))).

Definition task_edges (g : graph) (task : string) : list edge_row :=
  sort_by (asc_by e_created_at)
    (List.filter (fun e => bool_decide (e_task_id e = Some task)) (edges g)).

Definition get_task_path_summary (g : graph) (task : string) : list string * option string :=
  let hashes := map edge_hash (task_edges g task) in
  match hashes with
  | [] => ([], None)
  | _ => (hashes, Some (sha256_of [("task_id", JStr task); ("edge_hashes", JList (map JStr hashes))]))
  end.

Definition fmax (x y : float) : float := if fgtb y x then y else x.
Definition fmin (x y : float) : float := if fltb y x then y else x.
Definition dec (n : Z) (d : positive) : float := float_of_ratio n d.

Definition SEVERITY_WEIGHTS (s : severity_level) : float :=
  match s with INFO => dec 1 1 | MEDIUM => dec 5 2 | HIGH => dec 4 1 end.
Definition SIGNAL_TYPE_WEIGHTS (k : signal_kind) : float :=
  match k with DIRECT_LOOP => dec 3 1 | MUTUAL_EXCHANGE => dec 2 1 | CYCLE_AUTHORIZATION => dec 7 2 end.
Definition RECENCY_FLOOR : float := dec 2 10.

Record score_summary := Score {
  weighted_points : float;
  normalized_score : float;
  signal_count : nat;
  risk_band : score_band
}.

Definition recency_weight (now at_ : datetime) (window_hours : Z) : float :=
  let age_hours := fmax fzero (fdiv (float_of_ratio (now - at_) 1000000) (float_of_int 3600)) in
  if (window_hours <=? 0)%Z then dec 1 1
  else fmax RECENCY_FLOOR (fsub (dec 1 1) (fdiv age_hours (float_of_int window_hours))).

Definition band_of (score : float) : score_band :=
  if fgeb score (float_of_int 35) then CRITICAL
  else if fgeb score (float_of_int 20) then HIGH_BAND
  else if fgeb score (float_of_int 8) then ELEVATED else LOW.

(** [get_identity_score], without the two dicts of counts. *)
Definition get_identity_score (g : graph) (identity : string) (window_hours : Z) : score_summary :=
  let since := (g_now g - hours window_hours)%Z in
  let rows := sort_by (desc_by sig_created_at)
    (List.filter (fun s => str_eqb (sig_identity s) identity && (since <=? sig_created_at s)%Z) (signals g)) in
  match rows with
  | [] => Score fzero fzero 0 LOW
  | _ =>
      let points := fold_left (fun acc s =>
        fadd acc (fmul (fmul (SIGNAL_TYPE_WEIGHTS (signal_type s)) (SEVERITY_WEIGHTS (sig_severity s)))
                    (recency_weight (g_now g) (sig_created_at s) window_hours))) rows fzero in
      let normalized := fmin (float_of_int 100) (py_round 2 points) in
      Score (py_round 2 points) normalized (length rows) (band_of normalized)
  end.

(** *** Path features: the breadth-first walk *)

Record walk_state := Walk {
  queue : list (string * Z * list string * list string);
  visited_depth : gmap string Z;
  traversed : gset string;
  reachable : gset string;
  cycles : Z;
  sample : list string;
  seen_paths : gset string
}.

Definition path_hash (identity : string) (path : list string) : string :=
  sha256_of [("start", JStr identity); ("edge_hashes", JList (map JStr path))].

(** The body of the inner loop for one edge of the node taken from the queue. *)
Definition walk_edge (identity : string) (hops : Z) (path nodes : list string) (w : walk_state)
    (e : edge_row) : walk_state :=
  let next := (path ++ [edge_hash e])%list in
  let hashed := path_hash identity next in
  let fresh := negb (bool_decide (hashed ∈ seen_paths w)) && (length (sample w) <? 20)%nat in
  let sample' := if fresh then (sample w ++ [hashed])%list else sample w in
  let seen' := if fresh then {[hashed]} ∪ seen_paths w else seen_paths w in
  let t := target e in
  let reachable' := if str_eqb t identity then reachable w else {[t]} ∪ reachable w in
  let traversed' := {[edge_hash e]} ∪ traversed w in
  if str_eqb t identity || str_mem t nodes
  then Walk (queue w) (visited_depth w) traversed' reachable' (cycles w + 1) sample' seen'
  else
    let d := (hops + 1)%Z in
    if match visited_depth w !! t with None => true | Some p => (d <? p)%Z end
    then Walk (queue w ++ [(t, d, next, nodes ++ [t])])%list (<[t := d]> (visited_depth w))
           traversed' reachable' (cycles w) sample' seen'
    else Walk (queue w) (visited_depth w) traversed' reachable' (cycles w) sample' seen'.

Definition pop (w : walk_state) (rest : list (string * Z * list string * list string)) : walk_state :=
  Walk rest (visited_depth w) (traversed w) (reachable w) (cycles w) (sample w) (seen_paths w).

Fixpoint walk (fuel : nat) (es : list edge_row) (identity : string) (max_hops : Z) (w : walk_state) :
    option walk_state :=
  match queue w with
  | [] => Some w
  | (node, hops, path, nodes) :: rest =>
      match fuel with
      | O => None
      | S f =>
          if (max_hops <=? hops)%Z then walk f es identity max_hops (pop w rest)
          else walk f es identity max_hops
                 (fold_left (walk_edge identity hops path nodes) (edges_from es node) (pop w rest))
      end
  end.

Definition walk_start (identity : string) : walk_state :=
  Walk [(identity, 0%Z, [], [identity])] {[identity := 0%Z]} ∅ ∅ 0 [] ∅.

(** Every target enters the queue at most once per depth. *)
Definition walk_fuel (es : list edge_row) (max_hops : Z) : nat :=
  S (Z.to_nat max_hops * length es).

Record path_features := Features {
  traversed_edge_count : nat;
  reachable_identity_count : nat;
  cycle_paths_detected : Z;
  path_hashes_sample : list string
}.

Definition recent_edges (g : graph) (window_hours : Z) : list edge_row :=
  List.filter (fun e => (g_now g - hours window_hours <=? e_created_at e)%Z) (edges g).

Definition path_walk (g : graph) (identity : string) (window_hours max_hops : Z) : walk_state :=
  let es := recent_edges g window_hours in
  default (walk_start identity) (walk (walk_fuel es max_hops) es identity max_hops (walk_start identity)).

Definition get_identity_path_features (g : graph) (identity : string) (window_hours max_hops : Z) :
    path_features :=
  let w := path_walk g identity window_hours max_hops in
  Features (size (traversed w)) (size (reachable w)) (cycles w) (sample w).

(** *** Temporal consistency *)

Definition EDGE_STAGE_ORDER (k : edge_kind) : Z :=
  match k with VOUCHER_ACCEPT => 1 | TASK_DELEGATION => 2 | MANUAL_LINK => 3 end.

Inductive issue_kind : Type := MISSING_ANCHOR_EDGE | EDGE_TYPE_OUT_OF_ORDER | DUPLICATE_DIRECTION_BURST.
Record issue := Issue { issue_type : issue_kind; issue_severity : severity_level; issue_hashes : list string }.

(** The edges that follow an edge of a later stage. *)
Fixpoint out_of_order (last_stage : Z) (l : list edge_row) : list string :=
  match l with
  | [] => []
  | e :: r =>
      let stage := EDGE_STAGE_ORDER (edge_type e) in
      ((if (stage <? last_stage)%Z then [edge_hash e] else [])
       ++ out_of_order (Z.max last_stage stage) r)%list
  end.

Definition direction (e : edge_row) : string * string * edge_kind := (source e, target e, edge_type e).

(** The dict of groups, in the order of first occurrence. *)
Fixpoint directions (l : list edge_row) : list (string * string * edge_kind) :=
  match l with
  | [] => []
  | e :: r => direction e :: List.filter (fun d => negb (bool_decide (d = direction e))) (directions r)
  end.
Definition group (l : list edge_row) (d : string * string * edge_kind) : list edge_row :=
  List.filter (fun e => bool_decide (direction e = d)) l.

(** The first three consecutive edges of a group within the window. *)
Fixpoint burst_of (burst_us : Z) (l : list edge_row) : list string :=
  match l with
  | a :: ((b :: c :: _) as r) =>
      if (e_created_at c - e_created_at a <=? burst_us)%Z then [edge_hash a; edge_hash b; edge_hash c]
      else burst_of burst_us r
  | _ => []
  end.

Definition bursts (burst_us : Z) (l : list edge_row) : list string :=
  flat_map (fun d => burst_of burst_us (group l d)) (directions l).

(** [list(dict.fromkeys(l))] *)
Fixpoint dedup (l : list string) : list string :=
  match l with
  | [] => []
  | x :: r => x :: List.filter (fun y => negb (str_eqb y x)) (dedup r)
  end.

Definition temporal_issues (burst_seconds : Z) (l : list edge_row) : list issue :=
  match l with
  | [] => []
  | _ =>
      ((if existsb (fun e => bool_decide (edge_type e = VOUCHER_ACCEPT)) l then []
        else [Issue MISSING_ANCHOR_EDGE MEDIUM (map edge_hash (take 5 l))])
       ++ match out_of_order 0 l with
          | [] => []
          | h => [Issue EDGE_TYPE_OUT_OF_ORDER HIGH (take 20 h)]
          end
       ++ match bursts (burst_seconds * US_PER_SECOND) l with
          | [] => []
          | h => [Issue DUPLICATE_DIRECTION_BURST MEDIUM (take 20 (dedup h))]
          end)%list
  end.

Record temporal_report := Report { total_edges : nat; is_consistent : bool; issues : list issue }.

Definition get_task_temporal_consistency_report (g : graph) (task : string) (burst_seconds : Z) :
    temporal_report :=
  let l := task_edges g task in
  let found := temporal_issues burst_seconds l in
  Report (length l) (match found with [] => true | _ => false end) found.

(** ** Walks in the graph *)

Definition authorises (es : list edge_row) (a b : string) : Prop :=
  exists e, e ∈ es /\ source e = a /\ target e = b.

Lemma edges_from_In es n e : e ∈ edges_from es n <-> e ∈ es /\ source e = n.
Proof.
  unfold edges_from. rewrite !list_elem_of_In, filter_In. unfold str_eqb.
  by rewrite bool_decide_eq_true.
Qed.

(** Consecutive edges from [a] to [b]. *)
Inductive chain (es : list edge_row) (a : string) : string -> list string -> Prop :=
| chain_nil : chain es a a []
| chain_snoc b l e : chain es a b l -> e ∈ es -> source e = b ->
    chain es a (target e) (l ++ [edge_hash e])%list.

Lemma chain_nsteps es a b l : chain es a b l -> nsteps (authorises es) (length l) a b.
Proof.
  induction 1 as [|b l e Hc IH Hin Hs]; [constructor|].
  rewrite length_app, Nat.add_1_r. eapply nsteps_r; [exact IH|]. exists e. by rewrite <- Hs.
Qed.

(** ** The cycle search is exact *)

Section CycleSearch.
Context (es : list edge_row) (start goal : string) (max_hops : Z).

Abbreviation entry := (string * list string * Z)%type.
Implicit Types (q : list entry) (vis : gset (string * Z)).

Definition queued q (n : string) (h : Z) : Prop := exists p, (n, p, h) ∈ q.

Definition entry_ok (x : entry) : Prop :=
  let '(n, p, h) := x in h = Z.of_nat (length p) /\ chain es start n p.

(** What is known of a visited node: no edge to the goal, successors pending. *)
Definition edge_seen q vis (h : Z) (e : edge_row) : Prop :=
  target e <> goal /\ ((target e, h + 1)%Z ∈ vis \/ queued q (target e) (h + 1) \/ (max_hops <= h + 1)%Z).

Lemma scan_edges_spec path hops : forall rows q,
  match scan_edges goal path hops rows q with
  | inl p => exists e, e ∈ rows /\ target e = goal /\ p = (path ++ [edge_hash e])%list
  | inr q' => exists l, q' = (q ++ l)%list /\ length l = length rows
              /\ (forall x, x ∈ l -> exists e, e ∈ rows /\ x = (target e, (path ++ [edge_hash e])%list, (hops + 1)%Z))
              /\ (forall e, e ∈ rows -> target e <> goal /\ queued l (target e) (hops + 1))
  end.
Proof.
  induction rows as [|e rows IH]; intros q; cbn.
  - exists []. rewrite app_nil_r. split_and!; [done..| |]; intros x Hx; by apply not_elem_of_nil in Hx.
  - unfold str_eqb. destruct (bool_decide _) eqn:Ht.
    + apply bool_decide_eq_true in Ht. exists e. split; [by left|done].
    + apply bool_decide_eq_false in Ht.
      specialize (IH (q ++ [(target e, (path ++ [edge_hash e])%list, (hops + 1)%Z)])%list).
      destruct (scan_edges _ _ _ rows _) as [p|q'].
      * destruct IH as (e' & He' & Hr). exists e'. split; [by right|done].
      * destruct IH as (l & -> & Hlen & Hl & Hall).
        exists ((target e, (path ++ [edge_hash e])%list, (hops + 1)%Z) :: l).
        rewrite <- app_assoc. split_and!; [done|cbn; lia| |].
        -- intros x [->|Hx]%elem_of_cons; [exists e; split; [by left|done]|].
           destruct (Hl x Hx) as (e' & He' & ->). exists e'. split; [by right|done].
        -- intros e' [->|He']%elem_of_cons; [split; [done|]; eexists; by left|].
           destruct (Hall e' He') as [Hne [p Hp]]. split; [done|]. exists p. by right.
Qed.

Record search_inv q vis : Prop := {
  si_entries : Forall entry_ok q;
  si_start : (start, 0%Z) ∈ vis \/ queued q start 0 \/ (max_hops <= 0)%Z;
  si_closed : forall n h e, (n, h) ∈ vis -> e ∈ edges_from es n -> edge_seen q vis h e
}.

(** The goal of a search that found nothing is out of reach. *)
Lemma search_done vis k b :
  search_inv [] vis -> (Z.of_nat k <= max_hops)%Z ->
  nsteps (authorises es) k start b ->
  (Z.of_nat k < max_hops -> (b, Z.of_nat k) ∈ vis)%Z /\ (k <> 0%nat -> b <> goal).
Proof.
  intros [_ Hs Hc]. revert b. induction k as [|k IH]; intros b Hk Hb.
  - inversion Hb; subst. split; [|done]. intros Hlt.
    destruct Hs as [Hs|[[p Hp]|Hs]]; [done|by apply not_elem_of_nil in Hp|lia].
  - apply nsteps_inv_r in Hb as (a & Ha & e & He & Hsrc & <-).
    destruct (IH a) as [Hvis _]; [lia|done|].
    destruct (Hc a (Z.of_nat k) e) as [Hne Hnext].
    { apply Hvis. lia. }
    { by apply edges_from_In. }
    split; [|done]. intros Hlt. replace (Z.of_nat (S k)) with (Z.of_nat k + 1)%Z by lia.
    destruct Hnext as [Hn|[[p Hp]|Hn]]; [done|by apply not_elem_of_nil in Hp|lia].
Qed.

Lemma edge_seen_mono q q' vis vis' h e :
  (forall n d, queued q n d -> queued q' n d \/ (n, d) ∈ vis' \/ (max_hops <= d)%Z) ->
  vis ⊆ vis' -> edge_seen q vis h e -> edge_seen q' vis' h e.
Proof.
  intros Hq Hv [Hne Hn]. split; [done|]. destruct Hn as [Hn|[Hn|Hn]]; [left; by apply Hv| |by auto].
  destruct (Hq _ _ Hn) as [?|[?|?]]; auto.
Qed.

(** Taking an entry that is too deep or seen before loses nothing. *)
Lemma search_inv_skip n p h q vis :
  (max_hops <= h)%Z \/ (n, h) ∈ vis -> search_inv ((n, p, h) :: q) vis -> search_inv q vis.
Proof.
  intros Hskip [He Hs Hc]. assert (forall m d, queued ((n, p, h) :: q) m d ->
    queued q m d \/ (m, d) ∈ vis \/ (max_hops <= d)%Z) as Hq.
  { intros m d [p' [[= -> -> ->]|Hp']%elem_of_cons]; [destruct Hskip; auto|left; by exists p']. }
  split.
  - by apply Forall_cons in He as [_ He].
  - destruct Hs as [Hs|[Hs|Hs]]; [by auto| |by auto]. destruct (Hq _ _ Hs) as [?|[?|?]]; auto.
  - intros m d e Hm He'. eapply edge_seen_mono; [exact Hq|done|by apply (Hc m)].
Qed.

(** Visiting a node queues all its successors. *)
Lemma search_inv_visit n p h q vis q' :
  scan_edges goal p h (edges_from es n) q = inr q' ->
  search_inv ((n, p, h) :: q) vis -> search_inv q' ({[(n, h)]} ∪ vis).
Proof.
  intros Hscan [He Hs Hc]. pose proof (scan_edges_spec p h (edges_from es n) q) as Hspec.
  rewrite Hscan in Hspec. destruct Hspec as (l & -> & _ & Hl & Hall).
  assert (forall m d, queued ((n, p, h) :: q) m d ->
    queued (q ++ l) m d \/ (m, d) ∈ ({[(n, h)]} ∪ vis : gset _) \/ (max_hops <= d)%Z) as Hq.
  { intros m d [p' [[= -> -> ->]|Hp']%elem_of_cons].
    - right; left. apply elem_of_union_l. by apply elem_of_singleton.
    - left. exists p'. apply elem_of_app. by left. }
  apply Forall_cons in He as [[Hh Hp] He]. split.
  - apply Forall_app. split; [done|]. apply Forall_forall. intros x Hx.
    destruct (Hl x Hx) as (e & He' & ->). apply edges_from_In in He' as [Hin Hsrc].
    split; [rewrite length_app; cbn; lia|]. by eapply chain_snoc.
  - destruct Hs as [Hs|[Hs|Hs]]; [left; by apply elem_of_union_r| |by auto].
    destruct (Hq _ _ Hs) as [?|[?|?]]; auto.
  - intros m d e Hm He'. apply elem_of_union in Hm as [Hm|Hm].
    + apply elem_of_singleton in Hm. injection Hm as -> ->. destruct (Hall e He') as [Hne [p' Hp']].
      split; [done|]. right; left. exists p'. apply elem_of_app. by right.
    + eapply edge_seen_mono; [exact Hq|apply union_subseteq_r|by apply (Hc m)].
Qed.

Lemma cycle_search_sound fuel : forall q vis r,
  search_inv q vis -> cycle_search fuel es goal max_hops q vis = Some r ->
  (r = [] /\ exists vis', search_inv [] vis')
  \/ (r <> [] /\ chain es start goal r /\ (Z.of_nat (length r) <= max_hops)%Z).
Proof.
  induction fuel as [|fuel IH]; intros q vis r Hinv; destruct q as [|[[n p] h] q]; cbn; try done.
  1, 2: intros [= <-]; left; eauto.
  destruct (max_hops <=? h)%Z eqn:Hh.
  { apply IH. eapply search_inv_skip; [|done]. left. lia. }
  apply Z.leb_gt in Hh. destruct (bool_decide _) eqn:Hv.
  { apply bool_decide_eq_true in Hv. apply IH. eapply search_inv_skip; [|done]. by right. }
  destruct (scan_edges goal p h (edges_from es n) q) as [found|q'] eqn:Hscan.
  - intros [= <-]. right. pose proof (scan_edges_spec p h (edges_from es n) q) as Hspec.
    rewrite Hscan in Hspec. destruct Hspec as (e & He & Ht & ->).
    apply edges_from_In in He as [Hin Hsrc]. destruct Hinv as [Hall _ _].
    apply Forall_cons in Hall as [[Hlen Hp] _]. split; [by destruct p|]. rewrite <- Ht. split.
    + by eapply chain_snoc.
    + rewrite length_app. cbn. lia.
  - apply IH. by eapply search_inv_visit.
Qed.

(** *** The fuel suffices *)

(** Edges at depths below [d] whose source is not visited at that depth. *)
Fixpoint unvisited vis (d : nat) : nat :=
  match d with
  | O => 0
  | S d => length (List.filter (fun e => negb (bool_decide ((source e, Z.of_nat d) ∈ vis))) es) + unvisited vis d
  end.

Lemma filter_le {A} (f g : A -> bool) l :
  (forall x, x ∈ l -> f x = true -> g x = true) -> (length (List.filter f l) <= length (List.filter g l))%nat.
Proof.
  induction l as [|x l IH]; cbn; intros H; [done|].
  assert (length (List.filter f l) <= length (List.filter g l))%nat as Hl.
  { apply IH. intros y Hy. apply H. by right. }
  destruct (f x) eqn:Hf; [rewrite (H x) by (done || by left); cbn; lia|].
  destruct (g x); cbn; lia.
Qed.
Lemma filter_split {A} (f g h : A -> bool) l :
  (forall x, x ∈ l -> f x = true -> g x = false /\ h x = true) ->
  (forall x, x ∈ l -> g x = true -> h x = true) ->
  (length (List.filter g l) + length (List.filter f l) <= length (List.filter h l))%nat.
Proof.
  induction l as [|x l IH]; cbn; intros Hf Hg; [done|].
  assert (length (List.filter g l) + length (List.filter f l) <= length (List.filter h l))%nat as Hl.
  { apply IH; intros y Hy; [apply Hf|apply Hg]; by right. }
  destruct (f x) eqn:Ef.
  - destruct (Hf x) as [-> ->]; [by left|done|]. cbn. lia.
  - destruct (g x) eqn:Eg; [rewrite (Hg x) by (done || by left); cbn; lia|]. destruct (h x); cbn; lia.
Qed.

Lemma unvisited_mono vis vis' d : vis ⊆ vis' -> (unvisited vis' d <= unvisited vis d)%nat.
Proof.
  intros Hv. induction d as [|d IH]; cbn; [done|].
  enough (length (List.filter (fun e => negb (bool_decide ((source e, Z.of_nat d) ∈ vis'))) es)
          <= length (List.filter (fun e => negb (bool_decide ((source e, Z.of_nat d) ∈ vis))) es))%nat by lia.
  apply filter_le. intros e _. rewrite !negb_true_iff, !bool_decide_eq_false. auto.
Qed.

Lemma unvisited_visit vis d n h :
  (n, Z.of_nat h) ∉ vis -> (h < d)%nat ->
  (unvisited ({[(n, Z.of_nat h)]} ∪ vis) d + length (edges_from es n) <= unvisited vis d)%nat.
Proof.
  intros Hn. induction d as [|d IH]; [lia|]. intros Hlt. cbn [unvisited].
  pose proof (unvisited_mono vis ({[(n, Z.of_nat h)]} ∪ vis) d (union_subseteq_r _ _)) as Hm.
  destruct (decide (h = d)) as [->|Hne].
  - assert (length (List.filter (fun e => negb (bool_decide ((source e, Z.of_nat d) ∈ ({[(n, Z.of_nat d)]} ∪ vis : gset _)))) es)
            + length (edges_from es n)
            <= length (List.filter (fun e => negb (bool_decide ((source e, Z.of_nat d) ∈ vis))) es))%nat; [|lia].
    apply filter_split; intros e _; rewrite ?negb_true_iff, ?negb_false_iff.
    + intros Hs. apply bool_decide_eq_true in Hs as ->. split; [|by apply bool_decide_eq_false].
      apply bool_decide_eq_true, elem_of_union_l. by apply elem_of_singleton.
    + rewrite !bool_decide_eq_false. intros Hnot Hin. apply Hnot. by apply elem_of_union_r.
  - assert (length (List.filter (fun e => negb (bool_decide ((source e, Z.of_nat d) ∈ ({[(n, Z.of_nat h)]} ∪ vis : gset _)))) es)
            <= length (List.filter (fun e => negb (bool_decide ((source e, Z.of_nat d) ∈ vis))) es))%nat as Hd.
    { apply filter_le. intros e _. rewrite !negb_true_iff, !bool_decide_eq_false.
      intros Hnot Hin. apply Hnot. by apply elem_of_union_r. }
    assert (h < d)%nat as Hlt' by lia. specialize (IH Hlt'). lia.
Qed.

Lemma cycle_search_total fuel : forall q vis,
  Forall (fun x : entry => (0 <= x.2)%Z) q ->
  (length q + unvisited vis (Z.to_nat max_hops) <= fuel)%nat ->
  is_Some (cycle_search fuel es goal max_hops q vis).
Proof.
  induction fuel as [|fuel IH]; intros q vis Hpos Hf; destruct q as [|[[n p] h] q]; cbn in *; try (by eauto); [lia|].
  apply Forall_cons in Hpos as [Hh Hpos]. cbn in Hh.
  destruct (max_hops <=? h)%Z eqn:Hmax; [apply IH; [done|lia]|]. apply Z.leb_gt in Hmax.
  destruct (bool_decide _) eqn:Hv; [apply IH; [done|lia]|]. apply bool_decide_eq_false in Hv.
  pose proof (scan_edges_spec p h (edges_from es n) q) as Hspec.
  destruct (scan_edges goal p h (edges_from es n) q) as [found|q']; [by eauto|].
  destruct Hspec as (l & -> & Hlen & Hl & _). apply IH.
  - apply Forall_app. split; [done|]. apply Forall_forall. intros x Hx.
    destruct (Hl x Hx) as (e & _ & ->). cbn. lia.
  - rewrite <- (Z2Nat.id h) in Hv |- * by lia.
    pose proof (unvisited_visit vis (Z.to_nat max_hops) n (Z.to_nat h) Hv) as Hu.
    rewrite length_app. rewrite Hlen. lia.
Qed.

Lemma unvisited_bound vis d : (unvisited vis d <= d * length es)%nat.
Proof.
  induction d as [|d IH]; cbn; [done|].
  pose proof (List.filter_length_le (fun e => negb (bool_decide ((source e, Z.of_nat d) ∈ vis))) es). lia.
Qed.

Lemma find_cycle_exact :
  let r := find_cycle_path_hashes es start goal max_hops in
  (r <> [] -> chain es start goal r /\ (Z.of_nat (length r) <= max_hops)%Z)
  /\ (r <> [] <-> start <> goal
      /\ exists k, (0 < k)%nat /\ (Z.of_nat k <= max_hops)%Z /\ nsteps (authorises es) k start goal).
Proof.
  intros r. unfold find_cycle_path_hashes in r. unfold str_eqb in r.
  destruct (bool_decide (start = goal)) eqn:Hsg.
  { apply bool_decide_eq_true in Hsg. subst r. split; [done|]. split; [done|]. by intros [? _]. }
  apply bool_decide_eq_false in Hsg.
  assert (search_inv [(start, [], 0%Z)] ∅) as Hinv.
  { split.
    - apply Forall_singleton. split; [done|constructor].
    - right; left. exists []. by left.
    - intros n h e Hin. by apply not_elem_of_empty in Hin. }
  destruct (cycle_search_total (cycle_fuel es max_hops) [(start, [], 0%Z)] ∅) as [found Hf].
  { by apply Forall_singleton. }
  { unfold cycle_fuel. cbn. pose proof (unvisited_bound ∅ (Z.to_nat max_hops)). lia. }
  subst r. rewrite Hf. cbn. destruct (cycle_search_sound _ _ _ _ Hinv Hf) as [[-> [vis Hd]]|(Hr & Hp & Hl)].
  - split; [done|]. split; [done|]. intros [_ (k & Hk & Hkm & Hs)].
    destruct (search_done vis k goal Hd Hkm Hs) as [_ Hno]. by destruct Hno; [lia|].
  - split; [done|]. split; [|done]. intros _. split; [done|]. exists (length found).
    split_and!; [by destruct found; [|cbn; lia]|done|by apply chain_nsteps].
Qed.
End CycleSearch.

(** ** Ingestion *)

Lemma find_none_hash h es :
  List.find (fun r => str_eqb (edge_hash r) h) es = None <-> h ∉ map edge_hash es.
Proof.
  rewrite list_elem_of_In, in_map_iff. split.
  - intros Hf (e & <- & Hin). pose proof (find_none _ _ Hf e Hin) as Hn. cbv beta in Hn. by rewrite str_eqb_refl in Hn.
  - intros Hno. destruct (List.find _ es) as [e|] eqn:E; [|done].
    apply find_some in E as [Hin Heq]. apply bool_decide_eq_true in Heq. destruct Hno. eauto.
Qed.
Lemma find_some_hash h es e :
  List.find (fun r => str_eqb (edge_hash r) h) es = Some e -> e ∈ es /\ edge_hash e = h.
Proof.
  intros E. apply find_some in E as [Hin Heq]. apply bool_decide_eq_true in Heq.
  by rewrite list_elem_of_In.
Qed.

(** An edge out of the end of a walk does not help to get there. *)
Lemma nsteps_drop_last es e k a :
  nsteps (authorises (es ++ [e])) k a (source e) ->
  exists k', (k' <= k)%nat /\ nsteps (authorises es) k' a (source e).
Proof.
  intros Hs. remember (source e) as b eqn:Eb. induction Hs as [x|k x y z Hxy Hyz IH]; [exists 0%nat; by split; [|constructor]|].
  destruct (IH Eb) as (k' & Hk & Hs). destruct Hxy as (e' & He' & Hsrc & Ht).
  apply elem_of_app in He' as [He'|He'].
  - exists (S k'). split; [lia|]. econstructor; [|done]. by exists e'.
  - apply list_elem_of_singleton in He' as ->. exists 0%nat. split; [lia|]. rewrite Eb, <- Hsrc. constructor.
Qed.

Section Detect.
Context (g : graph) (e : edge_row).

Definition reversed (r : edge_row) : bool :=
  str_eqb (source r) (target e) && str_eqb (target r) (source e) && negb (str_eqb (edge_hash r) (edge_hash e)).

Lemma reversed_spec r : reversed r = true <->
  source r = target e /\ target r = source e /\ edge_hash r <> edge_hash e.
Proof.
  unfold reversed, str_eqb. rewrite !andb_true_iff, negb_true_iff, !bool_decide_eq_true, bool_decide_eq_false. tauto.
Qed.

(** What [_detect_signals] finds. *)
Lemma detect_spec s : s ∈ detect_signals g e <->
  sig_identity s = source e /\ sig_edge_hash s = edge_hash e /\ sig_task_id s = e_task_id e
  /\ sig_created_at s = g_now g
  /\ ((s = SignalRow DIRECT_LOOP HIGH (source e) (edge_hash e) [edge_hash e] (e_task_id e)
             "source and target identities are identical" (g_now g) /\ source e = target e)
      \/ (exists r rest, sort_by (desc_by e_created_at) (List.filter reversed (edges g)) = r :: rest
           /\ s = SignalRow MUTUAL_EXCHANGE MEDIUM (source e) (edge_hash e) [edge_hash e; edge_hash r]
                    (e_task_id e) "detected reverse direction authorization edge" (g_now g))
      \/ (exists l, l <> [] /\ find_cycle_path_hashes (edges g) (target e) (source e) 6 = l
           /\ s = SignalRow CYCLE_AUTHORIZATION HIGH (source e) (edge_hash e) (edge_hash e :: l)
                    (e_task_id e) "authorization cycle detected in responsibility graph" (g_now g))).
Proof.
  unfold detect_signals. fold reversed. rewrite !elem_of_app. split.
  - intros [Hs|[Hs|Hs]].
    + destruct (str_eqb _ _) eqn:E; [|by apply not_elem_of_nil in Hs].
      apply list_elem_of_singleton in Hs as ->. apply bool_decide_eq_true in E. cbn. auto 10.
    + destruct (sort_by _ _) as [|r rest] eqn:E; [by apply not_elem_of_nil in Hs|].
      apply list_elem_of_singleton in Hs as ->. cbn. split_and!; [done..|]. right; left. eauto.
    + destruct (find_cycle_path_hashes _ _ _ _) as [|h l] eqn:E; [by apply not_elem_of_nil in Hs|].
      apply list_elem_of_singleton in Hs as ->. cbn. split_and!; [done..|]. right; right. by exists (h :: l).
  - intros (_ & _ & _ & _ & [[-> E]|[(r & rest & E & ->)|(l & Hne & E & ->)]]).
    + left. rewrite (bool_decide_eq_true_2 _ E : str_eqb _ _ = true). by left.
    + right; left. change (fun r0 => _) with reversed in E |- *. rewrite E. by left.
    + right; right. rewrite E. destruct l; [done|]. by left.
Qed.
End Detect.

(** ** Runs *)

Inductive graph_op : Type :=
| IngestEdge (src tgt : string) (kind : edge_kind) (task voucher : option string) (meta : list (string * json))
| GraphClock (t : datetime).

Definition graph_step (op : graph_op) (g : graph) : graph :=
  match op with
  | IngestEdge s t k ta v m => run_state (ingest_edge s t k ta v m) g
  | GraphClock t => Graph (edges g) (signals g) t
  end.
Definition graph_run (ops : list graph_op) (g : graph) : graph := fold_left (fun g op => graph_step op g) ops g.
Definition empty_graph (t : datetime) : graph := Graph [] [] t.

(** The three branches of [ingest_edge]. *)
Lemma ingest_cases src tgt kind task voucher meta g :
  let hash := build_edge_hash src tgt kind task voucher meta in
  let '(g', o) := ingest_edge src tgt kind task voucher meta g in
  (exists row, row ∈ edges g /\ edge_hash row = hash /\ g' = g
     /\ o = Ret (row, List.filter (fun s => str_eqb (sig_edge_hash s) hash) (signals g)))
  \/ ((hash ∉ map edge_hash (edges g)) /\ g' = g /\ o = Raise (IntegrityError "uq_responsibility_edge_voucher")
      /\ (exists v e, voucher = Some v /\ e ∈ edges g /\ voucher_id e = Some v))
  \/ ((hash ∉ map edge_hash (edges g))
      /\ (forall v e, voucher = Some v -> e ∈ edges g -> voucher_id e <> Some v)
      /\ let row := EdgeRow hash src tgt kind task voucher meta (g_now g) in
         let mid := Graph (edges g ++ [row])%list (signals g) (g_now g) in
         g' = Graph (edges g ++ [row])%list (signals g ++ detect_signals mid row)%list (g_now g)
         /\ o = Ret (row, detect_signals mid row)).
Proof.
  cbv zeta. unfold ingest_edge. cbv zeta. destruct (List.find _ (edges g)) as [row|] eqn:E.
  - apply find_some_hash in E as [Hin Hh]. left. by exists row.
  - apply find_none_hash in E.
    assert (forall v, existsb (fun r => bool_decide (voucher_id r = Some v)) (edges g) = true <->
      exists e, e ∈ edges g /\ voucher_id e = Some v) as Hex.
    { intros v. rewrite existsb_exists. split; intros (e & Hin & Hv); exists e;
        by rewrite ?bool_decide_eq_true, ?list_elem_of_In in *. }
    destruct voucher as [v|].
    + destruct (existsb _ _) eqn:Ev.
      * right; left. apply Hex in Ev as (e & He & Hv). split_and!; [done..|]. by exists v, e.
      * right; right. split_and!; [done| |done..]. intros v' e [= <-] Hin Hv.
        assert (existsb (fun r => bool_decide (voucher_id r = Some v)) (edges g) = true) as Ht by (apply Hex; eauto).
        by rewrite Ev in Ht.
    + right; right. split_and!; [done|by intros|done..].
Qed.

(** The rows are consistent: hashes are those of the content and no two edges
    share one, nor a voucher; a signal is about an edge of the table. *)
Record graph_ok (g : graph) : Prop := {
  go_hashes : NoDup (map edge_hash (edges g));
  go_content : forall e, e ∈ edges g ->
    edge_hash e = build_edge_hash (source e) (target e) (edge_type e) (e_task_id e) (voucher_id e) (e_metadata e);
  go_voucher : forall e e' v, e ∈ edges g -> e' ∈ edges g ->
    voucher_id e = Some v -> voucher_id e' = Some v -> e = e';
  go_signals : forall s, s ∈ signals g -> exists e, e ∈ edges g /\ sig_edge_hash s = edge_hash e
    /\ sig_identity s = source e /\ sig_task_id s = e_task_id e
    /\ forall h, h ∈ related_edge_hashes s -> h ∈ map edge_hash (edges g)
}.

Lemma chain_hashes es a b l h : chain es a b l -> h ∈ l -> h ∈ map edge_hash es.
Proof.
  induction 1 as [|b l e Hc IH Hin Hs]; intros Hl; [by apply not_elem_of_nil in Hl|].
  apply elem_of_app in Hl as [Hl|Hl]; [by apply IH|].
  apply list_elem_of_singleton in Hl as ->. apply list_elem_of_In, in_map. by apply list_elem_of_In.
Qed.

Lemma graph_ok_step op g : graph_ok g -> graph_ok (graph_step op g).
Proof.
  intros [Hh Hc Hv Hs]. destruct op as [src tgt kind task voucher meta|t]; [|by split].
  cbn [graph_step]. unfold run_state. pose proof (ingest_cases src tgt kind task voucher meta g) as Hi.
  cbv zeta in Hi. destruct (ingest_edge _ _ _ _ _ _ g) as [g' o]. cbn [fst].
  destruct Hi as [(row & _ & _ & -> & _)|[(_ & -> & _)|(Hnew & Hvnew & -> & _)]]; [by split..|].
  set (row := EdgeRow _ _ _ _ _ _ _ _) in *. split; cbn [edges signals].
  - rewrite map_app. apply NoDup_app. split_and!; [done| |by apply NoDup_singleton].
    intros h Hin Hl. apply list_elem_of_singleton in Hl as ->. done.
  - intros e [He| ->%list_elem_of_singleton]%elem_of_app; [by apply Hc|done].
  - intros e e' v [He| ->%list_elem_of_singleton]%elem_of_app [He'| ->%list_elem_of_singleton]%elem_of_app Ev Ev';
      [by apply (Hv e e' v)| | |done]; exfalso.
    + by apply (Hvnew v e).
    + by apply (Hvnew v e').
  - assert (forall h, h ∈ map edge_hash (edges g) -> h ∈ map edge_hash (edges g ++ [row])) as Hmono.
    { intros h Hin. rewrite map_app. apply elem_of_app. by left. }
    assert (edge_hash row ∈ map edge_hash (edges g ++ [row])) as Hrow.
    { rewrite map_app. apply elem_of_app. right. by left. }
    intros s [Hin|Hin]%elem_of_app.
    + destruct (Hs s Hin) as (e & He & H1 & H2 & H3 & H4). exists e. split_and!; [apply elem_of_app; by left|done..|].
      intros h Hr. apply Hmono. by apply H4.
    + apply detect_spec in Hin as (H1 & H2 & H3 & _ & Hd). exists row. cbn [edges] in Hd.
      split_and!; [apply elem_of_app; right; by left|done..|]. intros h Hr.
      destruct Hd as [[-> _]|[(r & rest & E & ->)|(l & Hl & E & ->)]]; cbn [related_edge_hashes] in Hr.
      * apply list_elem_of_singleton in Hr as ->. done.
      * apply elem_of_cons in Hr as [->|Hr]; [done|]. apply list_elem_of_singleton in Hr as ->.
        assert (r ∈ List.filter (reversed row) (edges g ++ [row])) as Hin.
        { rewrite <- (elem_of_sort_by (desc_by e_created_at)), E. by left. }
        apply list_elem_of_In, filter_In in Hin as [Hin _]. by apply list_elem_of_In, in_map.
      * apply elem_of_cons in Hr as [->|Hr]; [done|].
        destruct (find_cycle_exact (edges g ++ [row]) (target row) (source row) 6) as [Hch _].
        cbv zeta in Hch. rewrite E in Hch. destruct (Hch Hl) as [Hch' _]. by eapply chain_hashes.
Qed.

Lemma graph_ok_run ops : forall g, graph_ok g -> graph_ok (graph_run ops g).
Proof. induction ops as [|op ops IH]; intros g Hg; [done|]. apply IH. by apply graph_ok_step. Qed.
Lemma graph_ok_empty t : graph_ok (empty_graph t).
Proof.
  split; cbn; [apply NoDup_nil_2| | |].
  - intros e He. by apply not_elem_of_nil in He.
  - intros e e' v He. by apply not_elem_of_nil in He.
  - intros s Hs. by apply not_elem_of_nil in Hs.
Qed.

(** After any sequence of ingestions the tables are consistent: no two
    edges have one hash, every hash is the hash of the row's content, a voucher
    anchors at most one edge, and every signal is about an edge that is there,
    names its source and lists hashes of edges that are there. *)
Theorem graph_consistent (ops : list graph_op) (t : datetime) :
  let g := graph_run ops (empty_graph t) in
  NoDup (map edge_hash (edges g))
  /\ (forall e, e ∈ edges g ->
      edge_hash e = build_edge_hash (source e) (target e) (edge_type e) (e_task_id e) (voucher_id e) (e_metadata e))
  /\ (forall e e' v, e ∈ edges g -> e' ∈ edges g -> voucher_id e = Some v -> voucher_id e' = Some v -> e = e')
  /\ (forall s, s ∈ signals g -> exists e, e ∈ edges g /\ sig_edge_hash s = edge_hash e
      /\ sig_identity s = source e /\ sig_task_id s = e_task_id e
      /\ forall h, h ∈ related_edge_hashes s -> h ∈ map edge_hash (edges g)).
Proof. intros g. by destruct (graph_ok_run ops _ (graph_ok_empty t)). Qed.

Definition has_signal (k : signal_kind) (l : list signal_row) : Prop := k ∈ map signal_type l.

Lemma has_signal_spec k l : has_signal k l <-> exists s, s ∈ l /\ signal_type s = k.
Proof.
  unfold has_signal. rewrite list_elem_of_In, in_map_iff.
  split; intros (s & H1 & H2); exists s; by rewrite ?list_elem_of_In in *.
Qed.

Lemma authorises_app es r k a b :
  nsteps (authorises es) k a b -> nsteps (authorises (es ++ r)) k a b.
Proof.
  induction 1 as [|k x y z (e & He & Hxy) _ IH]; [constructor|]. econstructor; [|exact IH].
  exists e. split; [apply elem_of_app; by left|done].
Qed.

(** Which signals an edge that is new to the table raises. *)
Section NewEdge.
Context (g : graph) (r : edge_row) (Hnew : edge_hash r ∉ map edge_hash (edges g)).
#[local] Abbreviation mid := (Graph (edges g ++ [r])%list (signals g) (g_now g)).

Lemma detect_direct : has_signal DIRECT_LOOP (detect_signals mid r) <-> source r = target r.
Proof.
  rewrite has_signal_spec. split.
  - intros (s & Hs & Hk).
    apply detect_spec in Hs as (_ & _ & _ & _ & [[-> Heq]|[(? & ? & _ & ->)|(? & _ & _ & ->)]]); done.
  - intros Heq. eexists. split; [apply detect_spec; split_and!; [..|left; by split]|]; done.
Qed.

Lemma detect_mutual : has_signal MUTUAL_EXCHANGE (detect_signals mid r) <->
  exists e, e ∈ edges g /\ source e = target r /\ target e = source r.
Proof.
  assert (forall x, x ∈ List.filter (reversed r) (edges mid) <->
    x ∈ edges g /\ source x = target r /\ target x = source r) as Hf.
  { intros x. rewrite list_elem_of_In, filter_In, <- list_elem_of_In, reversed_spec. cbn. split.
    - intros ([Hin|Hin%list_elem_of_singleton]%elem_of_app & H1 & H2 & H3); [done|by subst x].
    - intros (Hin & H1 & H2). split_and!; [apply elem_of_app; by left|done..|]. intros Hh.
      apply Hnew. rewrite <- Hh. by apply list_elem_of_In, in_map, list_elem_of_In. }
  rewrite has_signal_spec. split.
  - intros (s & Hs & Hk).
    apply detect_spec in Hs as (_ & _ & _ & _ & [[-> Heq]|[(x & rest & E & ->)|(? & _ & _ & ->)]]); [done| |done].
    exists x. apply Hf. rewrite <- (elem_of_sort_by (desc_by e_created_at)), E. by left.
  - intros (e & He). apply Hf in He. rewrite <- (elem_of_sort_by (desc_by e_created_at)) in He.
    destruct (sort_by _ _) as [|x rest] eqn:E; [by apply not_elem_of_nil in He|].
    eexists. split; [apply detect_spec; split_and!; [..|right; left; by exists x, rest]|]; done.
Qed.

Lemma detect_cycle : has_signal CYCLE_AUTHORIZATION (detect_signals mid r) <->
  source r <> target r /\ exists k, (1 <= k <= 6)%nat /\ nsteps (authorises (edges g)) k (target r) (source r).
Proof.
  destruct (find_cycle_exact (edges mid) (target r) (source r) 6) as [_ Hex]. cbv zeta in Hex.
  rewrite has_signal_spec. split.
  - intros (s & Hs & Hk).
    apply detect_spec in Hs as (_ & _ & _ & _ & [[-> Heq]|[(x & rest & E & ->)|(l & Hl & E & ->)]]); [done..|].
    rewrite <- E in Hl. apply Hex in Hl as (Hne & k & Hk1 & Hk2 & Hsteps). split; [done|].
    apply nsteps_drop_last in Hsteps as (k' & Hle & Hsteps).
    exists k'. split; [|done]. destruct k'; [by inversion Hsteps|lia].
  - intros (Hne & k & Hk & Hsteps).
    assert (find_cycle_path_hashes (edges mid) (target r) (source r) 6 <> []) as Hl.
    { apply Hex. split; [done|]. exists k. split_and!; [lia..|]. by apply authorises_app. }
    eexists. split; [apply detect_spec; split_and!; [..|right; right; eexists; by split_and!]|]; done.
Qed.
End NewEdge.

(** Ingesting content that is in the table changes nothing and returns the
    row and its signals.  A new edge is appended with the signals it deserves
    and no others: a direct loop when it joins an identity to itself, a mutual
    exchange when an edge runs the other way, a cycle exactly when before it
    the target already reached the source through one to six edges. *)
Theorem ingest_signals_exact src tgt kind task voucher meta g g' row found :
  ingest_edge src tgt kind task voucher meta g = (g', Ret (row, found)) ->
  let hash := build_edge_hash src tgt kind task voucher meta in
  (hash ∈ map edge_hash (edges g) ->
     g' = g /\ row ∈ edges g /\ edge_hash row = hash
     /\ forall s, s ∈ found <-> s ∈ signals g /\ sig_edge_hash s = hash)
  /\ (hash ∉ map edge_hash (edges g) ->
     edges g' = (edges g ++ [row])%list /\ signals g' = (signals g ++ found)%list
     /\ edge_hash row = hash /\ source row = src /\ target row = tgt
     /\ (has_signal DIRECT_LOOP found <-> src = tgt)
     /\ (has_signal MUTUAL_EXCHANGE found <-> exists e, e ∈ edges g /\ source e = tgt /\ target e = src)
     /\ (has_signal CYCLE_AUTHORIZATION found <->
         src <> tgt /\ exists k, (1 <= k <= 6)%nat /\ nsteps (authorises (edges g)) k tgt src)).
Proof.
  intros Hrun hash. pose proof (ingest_cases src tgt kind task voucher meta g) as Hi. cbv zeta in Hi.
  rewrite Hrun in Hi. fold hash in Hi.
  destruct Hi as [(r & Hin & Hh & -> & E)|[(_ & _ & E & _)|(Hnew & _ & -> & E)]]; [|done|].
  - injection E as -> ->. split; [|by intros Hno; destruct Hno; rewrite <- Hh; apply list_elem_of_In, in_map, list_elem_of_In].
    intros _. split_and!; [done..|]. intros s. rewrite !list_elem_of_In, filter_In. unfold str_eqb.
    by rewrite bool_decide_eq_true.
  - injection E as -> ->. split; [by intros Hin; destruct Hnew|]. intros _. cbn [edges signals].
    split_and!; [done..| | |];
      [by apply (detect_direct g (EdgeRow _ _ _ _ _ _ _ _))|by apply (detect_mutual g (EdgeRow _ _ _ _ _ _ _ _))
      |by apply (detect_cycle g (EdgeRow _ _ _ _ _ _ _ _))].
Qed.

(** ** Path features are exact *)

Lemma elem_of_sing_l (x : string) (X : gset string) : x ∈ ({[x]} ∪ X : gset string).
Proof. apply elem_of_union_l. by apply elem_of_singleton. Qed.

Section PathWalk.
Context (es : list edge_row) (identity : string) (max_hops : Z).
Implicit Types w : walk_state.

Definition waiting w (n : string) (d : Z) : Prop := exists p l, (n, d, p, l) ∈ queue w.

(** The edge of a node at depth [d] has been accounted for. *)
Definition edge_done w (d : Z) (e : edge_row) : Prop :=
  edge_hash e ∈ traversed w
  /\ (target e <> identity -> target e ∈ reachable w)
  /\ (target e = identity -> (0 < cycles w)%Z)
  /\ exists d', visited_depth w !! target e = Some d' /\ (d' <= d + 1)%Z.

(** Every node found is at its depth by a walk; a queued path ends in its node
    and passes known nodes, each of which leads on to the end. *)
Record walk_ok w : Prop := {
  wo_depth : forall n d, visited_depth w !! n = Some d ->
    (0 <= d)%Z /\ nsteps (authorises es) (Z.to_nat d) identity n;
  wo_start : visited_depth w !! identity = Some 0%Z;
  wo_entry : forall n d p l, (n, d, p, l) ∈ queue w ->
    (0 <= d)%Z /\ nsteps (authorises es) (Z.to_nat d) identity n
    /\ (exists d', visited_depth w !! n = Some d' /\ (d' <= d)%Z)
    /\ forall x, x ∈ l -> exists a b, (Z.of_nat a + Z.of_nat b <= d)%Z
         /\ visited_depth w !! x <> None
         /\ (forall d', visited_depth w !! x = Some d' -> (d' <= d)%Z)
         /\ nsteps (authorises es) a identity x /\ nsteps (authorises es) b x n;
  wo_reach : forall x, x ∈ reachable w ->
    x <> identity /\ exists k, (1 <= Z.of_nat k <= max_hops)%Z /\ nsteps (authorises es) k identity x;
  wo_trav : forall h, h ∈ traversed w ->
    exists e k, e ∈ es /\ edge_hash e = h /\ (Z.of_nat k < max_hops)%Z /\ nsteps (authorises es) k identity (source e);
  wo_cycles : (0 <= cycles w)%Z;
  wo_cycle : (0 < cycles w)%Z -> exists x a b, (1 <= b)%nat /\ (Z.of_nat a + Z.of_nat b <= max_hops)%Z
    /\ nsteps (authorises es) a identity x /\ nsteps (authorises es) b x x
}.

(** Nodes found at a depth below the bound are queued or accounted for, the one
    being expanded excepted. *)
Definition walk_closed (busy : string -> Z -> Prop) w : Prop :=
  forall n d, visited_depth w !! n = Some d -> (d < max_hops)%Z ->
    waiting w n d \/ busy n d \/ forall e, e ∈ edges_from es n -> edge_done w d e.

(** What the loop body leaves of an earlier state. *)
Definition grows w w' : Prop :=
  traversed w ⊆ traversed w' /\ reachable w ⊆ reachable w' /\ (cycles w <= cycles w')%Z
  /\ (forall n d, visited_depth w !! n = Some d -> exists d', visited_depth w' !! n = Some d' /\ (d' <= d)%Z)
  /\ (forall x, x ∈ queue w -> x ∈ queue w').

Lemma grows_refl w : grows w w.
Proof. split_and!; [done..| |done]. intros n d Hd. exists d. split; [done|lia]. Qed.

Lemma edge_done_grows w w' d e : grows w w' -> edge_done w d e -> edge_done w' d e.
Proof.
  intros (Ht & Hr & Hc & Hv & _) (H1 & H2 & H3 & d' & H4 & H5). split_and!.
  - by apply Ht.
  - intros Hne. apply Hr. auto.
  - intros He. specialize (H3 He). lia.
  - destruct (Hv _ _ H4) as (d'' & H6 & H7). exists d''. split; [done|lia].
Qed.

(** One edge of a node taken from the queue. *)
Lemma walk_edge_grows hops p l w e : grows w (walk_edge identity hops p l w e).
Proof.
  unfold walk_edge. cbv zeta.
  assert (reachable w ⊆ (if str_eqb (target e) identity then reachable w else {[target e]} ∪ reachable w)) as Hr.
  { destruct (str_eqb _ _); [done|apply union_subseteq_r]. }
  destruct (_ || _); [|destruct (match visited_depth w !! target e with None => true | Some _ => _ end) eqn:E];
    (split_and!; cbn; [apply union_subseteq_r|exact Hr|lia| |]).
  - intros n d Hd. exists d. split; [done|lia].
  - done.
  - intros n d Hd. destruct (decide (n = target e)) as [->|Hne].
    + exists (hops + 1)%Z. rewrite lookup_insert_eq. split; [done|]. rewrite Hd in E. lia.
    + exists d. rewrite lookup_insert_ne by done. split; [done|lia].
  - intros x Hx. apply elem_of_app. by left.
  - intros n d Hd. exists d. split; [done|lia].
  - done.
Qed.

Section Expand.
Context (node : string) (hops : Z) (p l : list string).
Context (Hhops : (0 <= hops < max_hops)%Z) (Hnode : nsteps (authorises es) (Z.to_nat hops) identity node).

(** The nodes on the path are known at no greater depth and lead to [node]. *)
Definition path_ok w : Prop := forall x, x ∈ l -> exists a b, (Z.of_nat a + Z.of_nat b <= hops)%Z
  /\ visited_depth w !! x <> None
  /\ (forall d', visited_depth w !! x = Some d' -> (d' <= hops)%Z)
  /\ nsteps (authorises es) a identity x /\ nsteps (authorises es) b x node.

Lemma known_grows w w' x d : grows w w' ->
  visited_depth w !! x <> None /\ (forall d', visited_depth w !! x = Some d' -> (d' <= d)%Z) ->
  visited_depth w' !! x <> None /\ (forall d', visited_depth w' !! x = Some d' -> (d' <= d)%Z).
Proof.
  intros (_ & _ & _ & Hv & _) [Hn Hd]. destruct (visited_depth w !! x) as [d0|] eqn:E; [|done].
  destruct (Hv _ _ E) as (d1 & -> & Hle). split; [done|]. intros d' [= <-]. specialize (Hd d0 eq_refl). lia.
Qed.

Lemma path_ok_grows w w' : grows w w' -> path_ok w -> path_ok w'.
Proof.
  intros Hg Hp x Hx. destruct (Hp x Hx) as (a & b & H1 & H2 & H3 & H4 & H5).
  destruct (known_grows _ _ _ _ Hg (conj H2 H3)). exists a, b. auto.
Qed.

Lemma walk_edge_done w e :
  walk_ok w -> path_ok w -> edge_done (walk_edge identity hops p l w e) hops e.
Proof.
  intros Hok Hp. unfold walk_edge. cbv zeta.
  destruct (str_eqb (target e) identity) eqn:Et.
  - apply bool_decide_eq_true in Et. cbn [orb]. split_and!; cbn; [apply elem_of_sing_l|done|intros _; pose proof (wo_cycles _ Hok); lia|].
    rewrite Et. exists 0%Z. split; [apply (wo_start _ Hok)|lia].
  - apply bool_decide_eq_false in Et. cbn [orb]. destruct (str_mem (target e) l) eqn:El.
    + apply bool_decide_eq_true in El. split_and!; cbn; [apply elem_of_sing_l|intros _; apply elem_of_sing_l|done|].
      destruct (Hp _ El) as (a & b & _ & Hn & Hd & _).
      destruct (visited_depth w !! target e) as [d|] eqn:E; [|done]. exists d. split; [done|].
      specialize (Hd d eq_refl). lia.
    + destruct (match visited_depth w !! target e with None => true | Some _ => _ end) eqn:E;
        (split_and!; cbn; [apply elem_of_sing_l|intros _; apply elem_of_sing_l|done|]).
      * exists (hops + 1)%Z. rewrite lookup_insert_eq. split; [done|lia].
      * destruct (visited_depth w !! target e) as [d|]; [|done]. exists d. split; [done|]. lia.
Qed.

Lemma walk_edge_ok w e : e ∈ es -> source e = node ->
  walk_ok w -> path_ok w -> walk_ok (walk_edge identity hops p l w e).
Proof.
  intros Hin Hsrc Hok Hp. pose proof (walk_edge_grows hops p l w e) as Hg.
  assert (nsteps (authorises es) (S (Z.to_nat hops)) identity (target e)) as Hstep.
  { eapply nsteps_r; [exact Hnode|]. exists e. by rewrite Hsrc. }
  assert (forall h, h ∈ ({[edge_hash e]} ∪ traversed w : gset string) -> exists e k, e ∈ es /\ edge_hash e = h
    /\ (Z.of_nat k < max_hops)%Z /\ nsteps (authorises es) k identity (source e)) as Htrav.
  { intros h [->%elem_of_singleton|Hh]%elem_of_union; [|by apply (wo_trav _ Hok)].
    exists e, (Z.to_nat hops). rewrite Hsrc. split_and!; [done..|lia|done]. }
  assert (forall x, x ∈ (if str_eqb (target e) identity then reachable w else {[target e]} ∪ reachable w) ->
    x <> identity /\ exists k, (1 <= Z.of_nat k <= max_hops)%Z /\ nsteps (authorises es) k identity x) as Hreach.
  { intros x. destruct (str_eqb _ _) eqn:Et; [apply (wo_reach _ Hok)|].
    apply bool_decide_eq_false in Et. intros [->%elem_of_singleton|Hx]%elem_of_union; [|by apply (wo_reach _ Hok)].
    split; [done|]. exists (S (Z.to_nat hops)). split; [lia|done]. }
  assert (forall n d q l', (n, d, q, l') ∈ queue w -> (0 <= d)%Z /\ nsteps (authorises es) (Z.to_nat d) identity n
    /\ (exists d', visited_depth (walk_edge identity hops p l w e) !! n = Some d' /\ (d' <= d)%Z)
    /\ forall x, x ∈ l' -> exists a b, (Z.of_nat a + Z.of_nat b <= d)%Z
         /\ visited_depth (walk_edge identity hops p l w e) !! x <> None
         /\ (forall d', visited_depth (walk_edge identity hops p l w e) !! x = Some d' -> (d' <= d)%Z)
         /\ nsteps (authorises es) a identity x /\ nsteps (authorises es) b x n) as Hold.
  { intros n d q l' Hq. destruct (wo_entry _ Hok _ _ _ _ Hq) as (H1 & H2 & (d' & H3 & H4) & H5).
    split_and!; [done..| |].
    - destruct Hg as (_ & _ & _ & Hv & _). destruct (Hv _ _ H3) as (d'' & H6 & H7). exists d''. split; [done|lia].
    - intros x Hx. destruct (H5 x Hx) as (a & b & H6 & H7 & H8 & H9).
      destruct (known_grows _ _ _ _ Hg (conj H7 H8)). exists a, b. auto. }
  revert Hold Hg. unfold walk_edge. cbv zeta.
  destruct (str_eqb (target e) identity || str_mem (target e) l) eqn:Ec.
  - intros Hold Hg. split; cbn; [apply (wo_depth _ Hok)|apply (wo_start _ Hok)|exact Hold|exact Hreach|exact Htrav
      |pose proof (wo_cycles _ Hok); lia|].
    intros _. apply orb_prop in Ec as [Ec|Ec]; apply bool_decide_eq_true in Ec.
    + exists identity, 0%nat, (S (Z.to_nat hops)). rewrite Ec in Hstep. split_and!; [lia|lia|constructor|done].
    + destruct (Hp _ Ec) as (a & b & H1 & _ & _ & H2 & H3). exists (target e), a, (S b).
      split_and!; [lia|lia|done|]. eapply nsteps_r; [exact H3|]. exists e. by rewrite Hsrc.
  - apply orb_false_elim in Ec as [Ec _]. apply bool_decide_eq_false in Ec.
    destruct (match visited_depth w !! target e with None => true | Some _ => _ end) eqn:E; intros Hold Hg.
    + split; cbn.
      * intros n d Hd. destruct (decide (n = target e)) as [->|Hne].
        -- rewrite lookup_insert_eq in Hd. injection Hd as <-. split; [lia|].
           by replace (Z.to_nat (hops + 1)) with (S (Z.to_nat hops)) by lia.
        -- rewrite lookup_insert_ne in Hd by done. by apply (wo_depth _ Hok).
      * rewrite lookup_insert_ne by done. apply (wo_start _ Hok).
      * intros n d q l' [Hq|Hq%list_elem_of_singleton]%elem_of_app; [by apply (Hold _ _ q)|].
        injection Hq as -> -> -> ->.
        assert (nsteps (authorises es) (Z.to_nat (hops + 1)) identity (target e)) as Hstep'.
        { by replace (Z.to_nat (hops + 1)) with (S (Z.to_nat hops)) by lia. }
        split_and!; [lia|done|exists (hops + 1)%Z; rewrite lookup_insert_eq; by split|].
        intros x [Hx|Hx%list_elem_of_singleton]%elem_of_app.
        -- destruct (Hp x Hx) as (a & b & H1 & H2 & H3 & H4 & H5). exists a, (S b).
           assert (grows w (walk_edge identity hops p l w e)) as Hg' by apply walk_edge_grows.
           destruct (known_grows _ _ x hops Hg (conj H2 H3)) as [H6 H7].
           split_and!; [lia|exact H6|intros d' Hd'; specialize (H7 d' Hd'); lia|done|].
           eapply nsteps_r; [exact H5|]. exists e. by rewrite Hsrc.
        -- subst x. exists (Z.to_nat (hops + 1)), 0%nat. rewrite lookup_insert_eq.
           split_and!; [lia|done|intros d' [= <-]; lia|done|constructor].
      * exact Hreach.
      * exact Htrav.
      * apply (wo_cycles _ Hok).
      * apply (wo_cycle _ Hok).
    + split; cbn; [apply (wo_depth _ Hok)|apply (wo_start _ Hok)|exact Hold|exact Hreach|exact Htrav
        |apply (wo_cycles _ Hok)|apply (wo_cycle _ Hok)].
Qed.
End Expand.

Lemma grows_trans w1 w2 w3 : grows w1 w2 -> grows w2 w3 -> grows w1 w3.
Proof.
  intros (A1 & A2 & A3 & A4 & A5) (B1 & B2 & B3 & B4 & B5). split_and!; [by etrans|by etrans|lia| |auto].
  intros n d Hd. destruct (A4 _ _ Hd) as (d1 & H1 & L1). destruct (B4 _ _ H1) as (d2 & H2 & L2).
  exists d2. split; [done|lia].
Qed.

(** The loop over the edges of a node. *)
Lemma walk_node node hops p l : (0 <= hops < max_hops)%Z -> nsteps (authorises es) (Z.to_nat hops) identity node ->
  forall rows w, (forall e, e ∈ rows -> e ∈ es /\ source e = node) ->
  walk_ok w -> path_ok node hops l w ->
  let w' := fold_left (walk_edge identity hops p l) rows w in
  walk_ok w' /\ grows w w' /\ forall e, e ∈ rows -> edge_done w' hops e.
Proof.
  intros Hh Hn. induction rows as [|e rows IH]; intros w Hrows Hok Hp; cbn [fold_left].
  - split_and!; [done|apply grows_refl|]. intros e He. by apply not_elem_of_nil in He.
  - destruct (Hrows e) as [Hin Hsrc]; [by left|]. pose proof (walk_edge_grows hops p l w e) as Hg.
    destruct (IH (walk_edge identity hops p l w e)) as (H1 & H2 & H3).
    + intros e' He'. apply Hrows. by right.
    + by apply (walk_edge_ok node).
    + by eapply path_ok_grows.
    + split_and!; [done|by eapply grows_trans|]. intros e' [->|He']%elem_of_cons; [|auto].
      eapply edge_done_grows; [exact H2|]. by apply (walk_edge_done node).
Qed.

(** New entries are waiting for their depth. *)
Lemma walk_edge_waiting hops p l w e n d :
  visited_depth (walk_edge identity hops p l w e) !! n = Some d ->
  visited_depth w !! n = Some d \/ waiting (walk_edge identity hops p l w e) n d.
Proof.
  unfold walk_edge. cbv zeta. destruct (_ || _); [by left|].
  destruct (match visited_depth w !! target e with None => true | Some _ => _ end); [|by left]. cbn.
  intros Hd. destruct (decide (n = target e)) as [->|Hne].
  - rewrite lookup_insert_eq in Hd. injection Hd as <-. right. do 2 eexists. apply elem_of_app. right. by left.
  - rewrite lookup_insert_ne in Hd by done. by left.
Qed.
Lemma walk_node_waiting hops p l rows : forall w n d,
  let w' := fold_left (walk_edge identity hops p l) rows w in
  grows w w' /\ (visited_depth w' !! n = Some d -> visited_depth w !! n = Some d \/ waiting w' n d).
Proof.
  induction rows as [|e rows IH]; intros w n d; cbn [fold_left]; [split; [apply grows_refl|by left]|].
  pose proof (walk_edge_grows hops p l w e) as Hg.
  destruct (IH (walk_edge identity hops p l w e) n d) as [Hg' Hw]. split; [by eapply grows_trans|].
  intros Hd. destruct (Hw Hd) as [Hd'|]; [|by right].
  destruct (walk_edge_waiting _ _ _ _ _ _ _ Hd') as [|(q & l' & Hq)]; [by left|].
  right. exists q, l'. by apply Hg'.
Qed.

Lemma walk_ok_pop w x rest : queue w = x :: rest -> walk_ok w -> walk_ok (pop w rest).
Proof.
  intros Eq []. split; try done. intros n d p l Hin. apply (wo_entry0 n d p l). rewrite Eq. by right.
Qed.

Lemma walk_run fuel : forall w w',
  walk_ok w -> walk_closed (fun _ _ => False) w -> walk fuel es identity max_hops w = Some w' ->
  walk_ok w' /\ walk_closed (fun _ _ => False) w' /\ queue w' = [].
Proof.
  induction fuel as [|fuel IH]; intros w w' Hok Hcl; cbn [walk]; destruct (queue w) as [|[[[n h] p] l] rest] eqn:Eq;
    [by intros [= <-]|done|by intros [= <-]|].
  assert (walk_closed (fun m d => m = n /\ d = h) (pop w rest)) as Hpop.
  { intros m d Hm Hd. destruct (Hcl m d Hm Hd) as [(q & l' & Hq)|[[]|Hdone]]; [|by right; right].
    rewrite Eq in Hq. apply elem_of_cons in Hq as [[= -> -> -> ->]|Hq]; [by right; left|].
    left. by exists q, l'. }
  pose proof (walk_ok_pop _ _ _ Eq Hok) as Hok'.
  destruct (wo_entry _ Hok n h p l) as (Hh0 & Hn & _ & Hl); [rewrite Eq; by left|].
  destruct (max_hops <=? h)%Z eqn:Hh.
  - apply IH; [done|]. intros m d Hm Hd. destruct (Hpop m d Hm Hd) as [?|[[-> ->]|?]]; [by left|lia|by right; right].
  - apply Z.leb_gt in Hh. destruct (walk_node n h p l) with (rows := edges_from es n) (w := pop w rest)
      as (H1 & H2 & H3); [lia|done|by intros e He; apply edges_from_In|done|exact Hl|].
    apply IH; [done|]. intros m d Hm Hd.
    destruct (walk_node_waiting h p l (edges_from es n) (pop w rest) m d) as [_ Hw].
    destruct (Hw Hm) as [Hm'|]; [|by left].
    destruct (Hpop m d Hm' Hd) as [(q & l' & Hq)|[[-> ->]|Hdone]].
    + left. exists q, l'. by apply H2.
    + by right; right.
    + right; right. intros e He. eapply edge_done_grows; [exact H2|]. by apply Hdone.
Qed.

(** *** The fuel suffices *)

(** How much the depth of the targets can still fall. *)
Fixpoint slack (v : gmap string Z) (rows : list edge_row) : nat :=
  match rows with
  | [] => 0
  | e :: r => Z.to_nat (default (max_hops + 1) (v !! target e) - 1)%Z + slack v r
  end.

Lemma slack_le v v' rows :
  (forall n, (default (max_hops + 1) (v' !! n) <= default (max_hops + 1) (v !! n))%Z) ->
  (slack v' rows <= slack v rows)%nat.
Proof.
  intros Hv. induction rows as [|e rows IH]; cbn [slack]; [done|]. specialize (Hv (target e)). lia.
Qed.
Lemma slack_lt v rows e d :
  e ∈ rows -> (1 <= d < default (max_hops + 1) (v !! target e))%Z ->
  (slack (<[target e := d]> v) rows < slack v rows)%nat.
Proof.
  intros He Hd. induction rows as [|e' rows IH]; [by apply not_elem_of_nil in He|].
  assert (slack (<[target e := d]> v) rows <= slack v rows)%nat as Hle.
  { apply slack_le. intros n. destruct (decide (n = target e)) as [->|Hne];
      [rewrite lookup_insert_eq; apply Z.lt_le_incl, Hd|by rewrite lookup_insert_ne]. }
  assert (Z.to_nat (d - 1) < Z.to_nat (default (max_hops + 1)%Z (v !! target e) - 1))%nat as Hlt by lia.
  cbn [slack]. apply elem_of_cons in He as [<-|He].
  { rewrite lookup_insert_eq. change (default _ (Some d)) with d. lia. }
  specialize (IH He). destruct (decide (target e' = target e)) as [->|Hne];
    [rewrite lookup_insert_eq; change (default _ (Some d)) with d; lia|rewrite lookup_insert_ne by done; lia].
Qed.

Lemma walk_edge_slack hops p l w e : e ∈ es -> (0 <= hops < max_hops)%Z ->
  (length (queue (walk_edge identity hops p l w e)) + slack (visited_depth (walk_edge identity hops p l w e)) es
   <= length (queue w) + slack (visited_depth w) es)%nat.
Proof.
  intros He Hh. unfold walk_edge. cbv zeta. destruct (_ || _); [done|].
  destruct (match visited_depth w !! target e with None => true | Some _ => _ end) eqn:E; [|done].
  cbn. rewrite length_app. cbn. enough (slack (<[target e := (hops + 1)%Z]> (visited_depth w)) es
    < slack (visited_depth w) es)%nat by lia.
  apply slack_lt; [done|]. destruct (visited_depth w !! target e); cbn; lia.
Qed.
Lemma walk_node_slack hops p l rows : (0 <= hops < max_hops)%Z -> forall w,
  (forall e, e ∈ rows -> e ∈ es) ->
  (length (queue (fold_left (walk_edge identity hops p l) rows w))
   + slack (visited_depth (fold_left (walk_edge identity hops p l) rows w)) es
   <= length (queue w) + slack (visited_depth w) es)%nat.
Proof.
  intros Hh. induction rows as [|e rows IH]; intros w Hr; cbn [fold_left]; [done|].
  etrans; [apply IH; intros e' He'; apply Hr; by right|]. apply walk_edge_slack; [apply Hr; by left|done].
Qed.

Lemma walk_total fuel : forall w,
  Forall (fun x => (0 <= x.1.1.2)%Z) (queue w) ->
  (length (queue w) + slack (visited_depth w) es <= fuel)%nat ->
  is_Some (walk fuel es identity max_hops w).
Proof.
  induction fuel as [|fuel IH]; intros w Hpos Hf; cbn [walk]; destruct (queue w) as [|[[[n h] p] l] rest] eqn:Eq;
    cbn [length] in Hf; [by eauto|lia|by eauto|].
  apply Forall_cons in Hpos as [Hh0 Hpos]. cbn in Hh0.
  destruct (max_hops <=? h)%Z eqn:Hh; [by apply IH; [done|cbn; lia]|]. apply Z.leb_gt in Hh.
  assert (forall e, e ∈ edges_from es n -> e ∈ es) as Hsub by (intros e He; by apply edges_from_In in He as []).
  apply IH.
  - assert (forall rows w0, Forall (fun x => (0 <= x.1.1.2)%Z) (queue w0) ->
      Forall (fun x => (0 <= x.1.1.2)%Z) (queue (fold_left (walk_edge identity h p l) rows w0))) as Hq; [|by apply Hq].
    clear -Hh0. induction rows as [|e rows IH]; intros w0 H0; [done|]. cbn [fold_left]. apply IH.
    unfold walk_edge. cbv zeta. destruct (_ || _); [done|].
    destruct (match visited_depth w0 !! target e with None => true | Some _ => _ end); [|done].
    apply Forall_app. split; [done|]. apply Forall_singleton. cbn. lia.
  - etrans; [by apply walk_node_slack|]. cbn. lia.
Qed.

Lemma slack_start : (slack {[identity := 0%Z]} es <= Z.to_nat max_hops * length es)%nat.
Proof.
  induction es as [|e rows IH]; cbn [slack length]; [lia|].
  assert (Z.to_nat (default (max_hops + 1) (({[identity := 0%Z]} : gmap string Z) !! target e) - 1)%Z <= Z.to_nat max_hops)%nat.
  { destruct (decide (identity = target e)) as [<-|Hne]; [rewrite lookup_singleton_eq|rewrite lookup_singleton_ne by done]; cbn; lia. }
  lia.
Qed.

Lemma walk_start_ok : walk_ok (walk_start identity).
Proof.
  split; cbn.
  - intros n d Hd. apply lookup_singleton_Some in Hd as [<- <-]. split; [done|constructor].
  - by rewrite lookup_singleton_eq.
  - intros n d p l [= -> -> -> ->]%list_elem_of_singleton. split_and!; [done|constructor| |].
    + exists 0%Z. by rewrite lookup_singleton_eq.
    + intros x ->%list_elem_of_singleton. exists 0%nat, 0%nat. rewrite lookup_singleton_eq.
      split_and!; [done|done|by intros d' [= <-]|constructor|constructor].
  - intros x Hx. by apply not_elem_of_empty in Hx.
  - intros x Hx. by apply not_elem_of_empty in Hx.
  - done.
  - lia.
Qed.

Lemma walk_complete : exists w,
  walk (walk_fuel es max_hops) es identity max_hops (walk_start identity) = Some w
  /\ walk_ok w /\ walk_closed (fun _ _ => False) w /\ queue w = [].
Proof.
  destruct (walk_total (walk_fuel es max_hops) (walk_start identity)) as [w Hw].
  { by apply Forall_singleton. }
  { unfold walk_fuel. cbn. pose proof slack_start. lia. }
  exists w. split; [done|]. eapply walk_run; [apply walk_start_ok| |exact Hw].
  intros n d Hd _. cbn in Hd. apply lookup_singleton_Some in Hd as [<- <-]. left. do 2 eexists. by left.
Qed.

(** At the end every node within reach has a depth that is not too large. *)
Lemma walk_depths w : walk_ok w -> walk_closed (fun _ _ => False) w -> queue w = [] ->
  forall k n, (Z.of_nat k <= max_hops)%Z -> nsteps (authorises es) k identity n ->
  exists d, visited_depth w !! n = Some d /\ (d <= Z.of_nat k)%Z.
Proof.
  intros Hok Hcl Hq. induction k as [|k IH]; intros n Hk Hn.
  - inversion Hn; subst. exists 0%Z. split; [apply (wo_start _ Hok)|lia].
  - apply nsteps_inv_r in Hn as (m & Hm & e & He & Hsrc & <-).
    destruct (IH m) as (d & Hd & Hle); [lia|done|].
    destruct (Hcl m d Hd) as [(q & l & Hin)|[[]|Hdone]]; [lia|rewrite Hq in Hin; by apply not_elem_of_nil in Hin|].
    destruct (Hdone e) as (_ & _ & _ & d' & Hd' & Hle'); [by apply edges_from_In|].
    exists d'. split; [done|lia].
Qed.
Lemma walk_edges_done w : walk_ok w -> walk_closed (fun _ _ => False) w -> queue w = [] ->
  forall k e, (Z.of_nat k < max_hops)%Z -> nsteps (authorises es) k identity (source e) -> e ∈ es ->
  exists d, edge_done w d e.
Proof.
  intros Hok Hcl Hq k e Hk Hn He. destruct (walk_depths w Hok Hcl Hq k _ ltac:(lia) Hn) as (d & Hd & Hle).
  destruct (Hcl _ d Hd) as [(q & l & Hin)|[[]|Hdone]]; [lia|rewrite Hq in Hin; by apply not_elem_of_nil in Hin|].
  exists d. apply Hdone. by apply edges_from_In.
Qed.
End PathWalk.

(** The breadth-first walk ends with the fuel it is given, and its counts
    are exact: the reachable identities are those, other than the identity
    itself, that a walk of one to [max_hops] recent edges leads to, and the
    traversed edges those whose source is fewer than [max_hops] edges away.
    A cycle through the identity of at most [max_hops] edges is always counted,
    and a cycle is only counted when one exists within [max_hops] edges. *)
Theorem path_features_exact (g : graph) (identity : string) (window_hours max_hops : Z) :
  let es := recent_edges g window_hours in
  let w := path_walk g identity window_hours max_hops in
  walk (walk_fuel es max_hops) es identity max_hops (walk_start identity) = Some w
  /\ (forall x, x ∈ reachable w <->
      x <> identity /\ exists k, (1 <= Z.of_nat k <= max_hops)%Z /\ nsteps (authorises es) k identity x)
  /\ (forall h, h ∈ traversed w <-> exists e k, e ∈ es /\ edge_hash e = h
      /\ (Z.of_nat k < max_hops)%Z /\ nsteps (authorises es) k identity (source e))
  /\ ((exists k, (1 <= Z.of_nat k <= max_hops)%Z /\ nsteps (authorises es) k identity identity) -> (0 < cycles w)%Z)
  /\ ((0 < cycles w)%Z -> exists x a b, (1 <= b)%nat /\ (Z.of_nat a + Z.of_nat b <= max_hops)%Z
      /\ nsteps (authorises es) a identity x /\ nsteps (authorises es) b x x).
Proof.
  intros es w. destruct (walk_complete es identity max_hops) as (w' & Hw & Hok & Hcl & Hq).
  assert (w = w') as -> by (subst w; unfold path_walk; fold es; by rewrite Hw).
  assert (forall k x, (1 <= Z.of_nat k <= max_hops)%Z -> nsteps (authorises es) k identity x ->
    exists d e, e ∈ es /\ target e = x /\ edge_done identity w' d e) as Hlast.
  { intros [|k] x Hk Hx; [lia|]. apply nsteps_inv_r in Hx as (m & Hm & e & He & Hsrc & Ht).
    rewrite <- Hsrc in Hm. destruct (walk_edges_done _ _ _ _ Hok Hcl Hq k e ltac:(lia) Hm He) as [d Hd]. eauto. }
  split_and!; [done| | | |apply (wo_cycle _ _ _ _ Hok)].
  - intros x. split; [apply (wo_reach _ _ _ _ Hok)|]. intros [Hne (k & Hk & Hx)].
    destruct (Hlast k x Hk Hx) as (d & e & _ & Ht & (_ & Hr & _)). rewrite Ht in Hr. auto.
  - intros h. split; [apply (wo_trav _ _ _ _ Hok)|]. intros (e & k & He & <- & Hk & Hn).
    by destruct (walk_edges_done _ _ _ _ Hok Hcl Hq k e Hk Hn He) as [d [Ht _]].
  - intros (k & Hk & Hx). destruct (Hlast k identity Hk Hx) as (d & e & _ & Ht & (_ & _ & Hc & _)). auto.
Qed.

(** ** Temporal consistency *)

Definition earlier (a b : edge_row) : Prop := (e_created_at a <= e_created_at b)%Z.
Definition stage_le (a b : edge_row) : Prop := (EDGE_STAGE_ORDER (edge_type a) <= EDGE_STAGE_ORDER (edge_type b))%Z.

Lemma out_of_order_nil l : forall s,
  out_of_order s l = [] <-> Forall (fun e => (s <= EDGE_STAGE_ORDER (edge_type e))%Z) l /\ StronglySorted stage_le l.
Proof.
  induction l as [|e l IH]; intros s; cbn [out_of_order].
  { split; [intros _; split; constructor|done]. }
  rewrite Forall_cons, StronglySorted_cons. split.
  - intros E. apply app_eq_nil in E as [E1 E2]. destruct (_ <? s)%Z eqn:Hs; [done|]. apply Z.ltb_ge in Hs.
    apply IH in E2 as [Hall Hsort]. split_and!; [done| | |done].
    + eapply List.Forall_impl; [|exact Hall]. cbn. lia.
    + eapply List.Forall_impl; [|exact Hall]. unfold stage_le. cbn. lia.
  - intros [[Hs Hall] [Hle Hsort]]. apply Z.ltb_ge in Hs as ->. cbn. apply IH. split; [|done].
    rewrite Forall_forall in Hall, Hle |- *. intros x Hx. specialize (Hall x Hx). specialize (Hle x Hx).
    unfold stage_le in Hle. lia.
Qed.

Lemma burst_of_nil b l : StronglySorted earlier l ->
  burst_of b l = [] <-> forall x y z, [x; y; z] `sublist_of` l -> (b < e_created_at z - e_created_at x)%Z.
Proof.
  induction l as [|a l IH]; intros Hs.
  { split; [|done]. intros _ x y z Hl. apply sublist_length in Hl. cbn in Hl. lia. }
  apply StronglySorted_inv in Hs as [Hs Ha]. specialize (IH Hs).
  destruct l as [|c [|d l]]; [split; [|done]; intros _ x y z Hl; apply sublist_length in Hl; cbn in Hl; lia..|].
  cbn [burst_of]. destruct (_ <=? b)%Z eqn:Hb.
  - split; [done|]. intros Hall. specialize (Hall a c d). exfalso.
    assert ([a; c; d] `sublist_of` (a :: c :: d :: l)) as Hsub by (do 3 constructor; apply sublist_nil_l).
    specialize (Hall Hsub). lia.
  - apply Z.leb_gt in Hb. rewrite IH. split; [|intros Hall x y z Hl; apply (Hall x y z); by constructor].
    intros Hall x y z Hl. apply sublist_cons_r in Hl as [Hl|(k & [= <- <-] & Hl)]; [by apply (Hall x y z)|].
    assert (z ∈ d :: l) as Hz.
    { apply sublist_cons_r in Hl as [Hl|(k & [= <- <-] & Hl)].
      - eapply sublist_subseteq; [exact Hl|]. right. by left.
      - eapply sublist_subseteq; [exact Hl|]. by left. }
    assert (earlier d z) as Hdz; [|unfold earlier in Hdz; lia].
    apply elem_of_cons in Hz as [->|Hz]; [unfold earlier; lia|].
    apply StronglySorted_inv in Hs as [Hs _]. apply StronglySorted_inv in Hs as [_ Hs].
    rewrite Forall_forall in Hs. by apply Hs.
Qed.

Lemma group_sublist l d k : k `sublist_of` group l d <-> k `sublist_of` l /\ Forall (fun e => direction e = d) k.
Proof.
  revert k. induction l as [|e l IH]; intros k; unfold group; cbn.
  - split; [|by intros []]. intros Hk. apply sublist_nil_r in Hk as ->. split; [done|constructor].
  - destruct (bool_decide _) eqn:Hd.
    + apply bool_decide_eq_true in Hd. rewrite !sublist_cons_r. fold (group l d). rewrite IH. split.
      * intros [[Hk Hf]|(k' & -> & Hk')]; [split; [by left|done]|]. apply IH in Hk' as [Hk' Hf].
        split; [right; by exists k'|by constructor].
      * intros [[Hk|(k' & -> & Hk')] Hf]; [by left|]. right. exists k'. split; [done|].
        apply IH. split; [done|]. by apply Forall_cons in Hf as [_ Hf].
    + apply bool_decide_eq_false in Hd. rewrite sublist_cons_r. fold (group l d). rewrite IH. split.
      * intros [Hk Hf]. split; [by left|done].
      * intros [[Hk|(k' & -> & Hk')] Hf]; [done|]. by apply Forall_cons in Hf as [He _].
Qed.

Lemma direction_in l e : e ∈ l -> direction e ∈ directions l.
Proof.
  induction l as [|x l IH]; [by intros ?%not_elem_of_nil|]. intros [->|Hin]%elem_of_cons; cbn; [by left|].
  specialize (IH Hin). destruct (decide (direction e = direction x)) as [->|Hne]; [by left|]. right.
  apply list_elem_of_In, filter_In. split; [by apply list_elem_of_In|].
  by rewrite bool_decide_eq_false_2.
Qed.

Lemma sorted_sublist {A} (R : A -> A -> Prop) k l : k `sublist_of` l -> StronglySorted R l -> StronglySorted R k.
Proof.
  induction 1 as [|x k l Hk IH|x k l Hk IH]; intros Hs; [done| |].
  - apply StronglySorted_inv in Hs as [Hs Hx]. constructor; [by apply IH|].
    rewrite Forall_forall in Hx |- *. intros y Hy. apply Hx. by eapply sublist_subseteq.
  - apply IH. by apply StronglySorted_inv in Hs as [Hs _].
Qed.

Lemma bursts_nil b l : StronglySorted earlier l ->
  bursts b l = [] <-> forall x y z, [x; y; z] `sublist_of` l ->
    direction x = direction y -> direction y = direction z -> (b < e_created_at z - e_created_at x)%Z.
Proof.
  intros Hs. assert (forall d, StronglySorted earlier (group l d)) as Hg.
  { intros d. apply (sorted_sublist _ _ l); [|done]. by apply (group_sublist l d (group l d)). }
  unfold bursts. split.
  - intros E x y z Hsub Hxy Hyz.
    assert (burst_of b (group l (direction x)) = []) as Hb.
    { assert (direction x ∈ directions l) as Hin.
      { apply direction_in. eapply sublist_subseteq; [exact Hsub|]. by left. }
      apply list_elem_of_In in Hin. rewrite flat_map_concat_map in E.
      eapply concat_nil_Forall in E. rewrite List.Forall_forall in E. apply E.
      apply (in_map (fun d => burst_of b (group l d))), Hin. }
    rewrite burst_of_nil in Hb by done. apply (Hb x y z), group_sublist. split; [done|].
    repeat constructor; congruence.
  - intros Hall. rewrite flat_map_concat_map. apply concat_nil_Forall, List.Forall_forall.
    intros r Hr. apply in_map_iff in Hr as (d & <- & _). apply burst_of_nil; [done|].
    intros x y z Hsub. apply group_sublist in Hsub as [Hsub Hf].
    apply Forall_cons in Hf as [Hx Hf]. apply Forall_cons in Hf as [Hy Hf]. apply Forall_cons in Hf as [Hz _].
    apply (Hall x y z Hsub); congruence.
Qed.

Lemma sorted_earlier l : StronglySorted (fun a b => asc_by e_created_at a b = true) l -> StronglySorted earlier l.
Proof.
  induction l as [|x l IH]; intros Hs; [constructor|]. apply StronglySorted_inv in Hs as [Hs Hx].
  constructor; [by apply IH|]. eapply List.Forall_impl; [|exact Hx].
  intros y. unfold asc_by, earlier. by rewrite Z.leb_le.
Qed.

(** The temporal report calls a task consistent exactly when it has no
    edges, or some edge is a voucher acceptance, the stages never go back in
    the order of creation, and no three edges of one direction and type were
    created within the burst window. *)
Theorem temporal_consistent_iff (g : graph) (task : string) (burst_seconds : Z) :
  let l := task_edges g task in
  is_consistent (get_task_temporal_consistency_report g task burst_seconds) = true <->
  l = [] \/
  ((exists e, e ∈ l /\ edge_type e = VOUCHER_ACCEPT)
   /\ StronglySorted stage_le l
   /\ forall x y z, [x; y; z] `sublist_of` l -> direction x = direction y -> direction y = direction z ->
      (burst_seconds * US_PER_SECOND < e_created_at z - e_created_at x)%Z).
Proof.
  intros l. unfold get_task_temporal_consistency_report. fold l. cbn [is_consistent].
  assert (StronglySorted earlier l) as Hs.
  { subst l. unfold task_edges. apply sorted_earlier, sort_by_sorted; [apply asc_total|apply asc_trans]. }
  transitivity (temporal_issues burst_seconds l = []); [by destruct (temporal_issues burst_seconds l)|].
  destruct (decide (l = [])) as [->|Hne]; [by split; [left|]|].
  assert (temporal_issues burst_seconds l = [] <->
    existsb (fun e => bool_decide (edge_type e = VOUCHER_ACCEPT)) l = true /\ out_of_order 0 l = []
    /\ bursts (burst_seconds * US_PER_SECOND) l = []) as ->.
  { unfold temporal_issues. destruct l as [|e0 l0]; [done|]. set (k := e0 :: l0).
    destruct (existsb _ k), (out_of_order 0 k), (bursts _ k); cbn; split; try done; by intros (? & ? & ?). }
  rewrite bursts_nil, out_of_order_nil by done.
  assert (existsb (fun e => bool_decide (edge_type e = VOUCHER_ACCEPT)) l = true <->
    exists e, e ∈ l /\ edge_type e = VOUCHER_ACCEPT) as ->.
  { rewrite existsb_exists. split; intros (e & Hin & He); exists e;
      by rewrite ?bool_decide_eq_true, ?list_elem_of_In in *. }
  split.
  - intros (H1 & [_ H2] & H3). by right.
  - intros [?|(H1 & H2 & H3)]; [done|]. split_and!; [done| |done|done].
    apply Forall_forall. intros e _. by destruct (edge_type e).
Qed.

(** ** Witness *)

Section Witness.
Definition w_graph : graph :=
  graph_run [IngestEdge "a" "b" TASK_DELEGATION (Some "t") None [];
             IngestEdge "b" "c" VOUCHER_ACCEPT None (Some "v") [("amount", JInt 5)]] (empty_graph 0).

Lemma ingest_signals_exact_witness : exists g' row found,
  ingest_edge "c" "a" MANUAL_LINK None None [] w_graph = (g', Ret (row, found))
  /\ has_signal CYCLE_AUTHORIZATION found.
Proof.
  assert (is_ret (ingest_edge "c" "a" MANUAL_LINK None None [] w_graph).2 = true) as Hr by (vm_compute; reflexivity).
  destruct (ingest_edge "c" "a" MANUAL_LINK None None [] w_graph) as [g' [[row found]|e]] eqn:E;
    [clear Hr|discriminate Hr].
  exists g', row, found. split; [reflexivity|].
  destruct (ingest_signals_exact "c" "a" MANUAL_LINK None None [] w_graph g' row found E) as [_ Hnew].
  apply Hnew; [apply (bool_decide_unpack _); vm_compute; reflexivity|]. split; [discriminate|].
  exists 2%nat. split; [lia|]. econstructor; [|econstructor; [|constructor]].
  - exists (nth 0 (edges w_graph) (EdgeRow "" "" "" MANUAL_LINK None None [] 0)).
    split; [apply list_elem_of_In, nth_In; vm_compute; lia|split; vm_compute; reflexivity].
  - exists (nth 1 (edges w_graph) (EdgeRow "" "" "" MANUAL_LINK None None [] 0)).
    split; [apply list_elem_of_In, nth_In; vm_compute; lia|split; vm_compute; reflexivity].
Defined.

(** One voucher, two contents: the second ingestion is refused. *)
Example voucher_constraint :
  run_outcome (ingest_edge "b" "c" VOUCHER_ACCEPT None (Some "v") [("amount", JInt 6)]) w_graph
  = Raise (IntegrityError "uq_responsibility_edge_voucher").
Proof. by vm_compute. Qed.

Example features_ex :
  get_identity_path_features w_graph "a" 24 4
  = Features 2 2 0 (sample (path_walk w_graph "a" 24 4)) /\ risk_band (get_identity_score w_graph "a" 24) = LOW.
Proof. by vm_compute. Qed.
End Witness.
