(* ===== verification/ScanQueue.v ===== *)
(** * The queue of graph scans ([services/responsibility_graph.py])

    Scan runs are rows claimed by workers under a lease, executed, retried with
    a back-off, dead-lettered when their attempts are used up, requeued, purged
    or cancelled, with an event logged for each move.  One operation runs in one
    database session ([db/session.py]): it commits when the call returns and is
    rolled back when it raises.  The clock is read once per operation.  Where
    the order of [NULL]s matters it is a parameter, since it depends on the
    database. *)

From S2P Require Import Prelude PyBytes PyJson PyDatetime PyFloat PyHoare PySort ResponsibilityGraph.
#[local] Open Scope string_scope.

Inductive scan_status : Type :=
| PENDING | CLAIMED | RUNNING | COMPLETED | FAILED | CANCELLED | DEAD_LETTER.
#[export] Instance scan_status_eq_dec : EqDecision scan_status.
Proof. solve_decision. Defined.
Definition status_value (s : scan_status) : string :=
  match s with
  | PENDING => "pending" | CLAIMED => "claimed" | RUNNING => "running" | COMPLETED => "completed"
  | FAILED => "failed" | CANCELLED => "cancelled" | DEAD_LETTER => "dead_letter"
  end.

Inductive event_kind : Type :=
| EV_CREATED | EV_CLAIMED | EV_HEARTBEAT | EV_EXECUTION_STARTED | EV_EXECUTION_COMPLETED
| EV_EXECUTION_FAILED | EV_CANCELLED | EV_STALE_RECOVERED | EV_DEAD_LETTERED | EV_REQUEUED.
#[export] Instance event_kind_eq_dec : EqDecision event_kind.
Proof. solve_decision. Defined.

(** ** Rows

    The columns set when the run is created, those of the claim, and the rest. *)
Record run_spec := Spec {
  scan_id : string;
  is_async : bool;
  incremental : bool;
  base_scan_id : option string;
  requested_identity_ids : option (list string);
  window_hours : Z;
  max_hops : Z;
  min_score_threshold : float;
  retry_max_attempts : Z;
  retry_backoff_seconds : Z;
  created_at : datetime
}.

Record claim_fields := Claim {
  claimed_by : option string;
  claimed_at : option datetime;
  lease_expires_at : option datetime;
  last_heartbeat_at : option datetime
}.
(** [_clear_claim_fields] *)
Definition no_claim : claim_fields := Claim None None None None.

Record scan_run := Run {
  spec : run_spec;
  status : scan_status;
  incremental_since_at : option datetime;
  current_attempt : Z;
  claim : claim_fields;
  started_at : option datetime;
  next_retry_at : option datetime;
  last_error : option string;
  cancelled_at : option datetime;
  cancel_reason : option string;
  dead_lettered_at : option datetime;
  dead_letter_reason : option string;
  total_identities : nat;
  flagged_identities : nat;
  completed_at : option datetime
}.
Definition run_id (r : scan_run) : string := scan_id (spec r).

Record scan_event := Event {
  ev_scan_id : string;
  ev_type : event_kind;
  ev_detail : string;
  ev_metadata : list (string * json);
  ev_created_at : datetime
}.

(** The text of a finding, which formats a float, is left out. *)
Record scan_finding := Finding {
  f_scan_id : string;
  f_identity : string;
  f_score : float;
  f_band : score_band;
  f_signal_count : nat;
  f_cycles : Z;
  f_created_at : datetime
}.

Record queue_db := Queue {
  graph_tables : graph;
  runs : list scan_run;
  events : list scan_event;
  findings : list scan_finding;
  q_drawn : nat
}.
Definition q_now (q : queue_db) : datetime := g_now (graph_tables q).

(** [ValueError], or another exception while the scan queries the tables. *)
Inductive queue_error : Type :=
| QValueError (msg : string)
| QFault (msg : string).
Definition error_text (e : queue_error) : string := match e with QValueError m | QFault m => m end.

(** ** Moves of one row *)

Definition seconds (n : Z) : Z := (n * US_PER_SECOND)%Z.

Definition claim_run (runner : string) (lease : Z) (now : datetime) (r : scan_run) : scan_run :=
  Run (spec r) CLAIMED (incremental_since_at r) (current_attempt r)
    (Claim (Some runner) (Some now) (Some (now + seconds (Z.max 1 lease))%Z) (Some now))
    (started_at r) (next_retry_at r) (last_error r) None None None None
    (total_identities r) (flagged_identities r) (completed_at r).

Definition recover_run (now : datetime) (r : scan_run) : scan_run :=
  match status r with
  | CLAIMED =>
      Run (spec r) PENDING (incremental_since_at r) (current_attempt r) no_claim (started_at r)
        None (Some "stale claim recovered to pending") (cancelled_at r) (cancel_reason r)
        (dead_lettered_at r) (dead_letter_reason r) (total_identities r) (flagged_identities r) (completed_at r)
  | RUNNING =>
      Run (spec r) FAILED (incremental_since_at r) (current_attempt r) no_claim (started_at r)
        (if (current_attempt r <? retry_max_attempts (spec r))%Z then Some now else None)
        (Some "worker lease expired during run execution") (cancelled_at r) (cancel_reason r)
        (dead_lettered_at r) (dead_letter_reason r) (total_identities r) (flagged_identities r) None
  | _ =>
      Run (spec r) (status r) (incremental_since_at r) (current_attempt r) no_claim (started_at r)
        (next_retry_at r) (last_error r) (cancelled_at r) (cancel_reason r)
        (dead_lettered_at r) (dead_letter_reason r) (total_identities r) (flagged_identities r) (completed_at r)
  end.

Definition dead_letter_run (now : datetime) (reason : string) (r : scan_run) : scan_run :=
  Run (spec r) DEAD_LETTER (incremental_since_at r) (current_attempt r) no_claim (started_at r)
    (next_retry_at r) (last_error r) (cancelled_at r) (cancel_reason r) (Some now) (Some reason)
    (total_identities r) (flagged_identities r) (completed_at r).

Definition requeue_run (r : scan_run) : scan_run :=
  Run (spec r) PENDING (incremental_since_at r) 0 no_claim (started_at r) None
    (Some "requeued from dead-letter") None None None None
    (total_identities r) (flagged_identities r) None.

Definition heartbeat_run (runner : string) (lease : Z) (now : datetime) (r : scan_run) : scan_run :=
  Run (spec r) (status r) (incremental_since_at r) (current_attempt r)
    (Claim (Some runner) (claimed_at (claim r)) (Some (now + seconds (Z.max 1 lease))%Z) (Some now))
    (started_at r) (next_retry_at r) (last_error r) (cancelled_at r) (cancel_reason r)
    (dead_lettered_at r) (dead_letter_reason r) (total_identities r) (flagged_identities r) (completed_at r).

Definition cancel_run (reason : option string) (now : datetime) (r : scan_run) : scan_run :=
  Run (spec r) CANCELLED (incremental_since_at r) (current_attempt r)
    (Claim (claimed_by (claim r)) (claimed_at (claim r)) None None)
    (started_at r) None (last_error r) (Some now)
    (Some (if truthy_str reason then default "" reason else "cancelled by operator")) None None
    (total_identities r) (flagged_identities r) None.

Definition start_run (runner : option string) (lease : Z) (now : datetime) (r : scan_run) : scan_run :=
  Run (spec r) RUNNING (incremental_since_at r) (current_attempt r + 1)
    (Claim (if truthy_str runner then runner else claimed_by (claim r))
       (match claimed_at (claim r) with Some t => Some t | None => Some now end)
       (Some (now + seconds (Z.max 1 lease))%Z) (Some now))
    (Some now) None None None None None None
    (total_identities r) (flagged_identities r) (completed_at r).

Definition complete_run (total flagged : nat) (now : datetime) (r : scan_run) : scan_run :=
  Run (spec r) COMPLETED (incremental_since_at r) (current_attempt r) no_claim (started_at r) None None
    (cancelled_at r) (cancel_reason r) (dead_lettered_at r) (dead_letter_reason r) total flagged (Some now).

Definition backoff (r : scan_run) : Z := (Z.max 1 (retry_backoff_seconds (spec r)) * current_attempt r)%Z.

Definition fail_run (error : string) (now : datetime) (r : scan_run) : scan_run :=
  Run (spec r) FAILED (incremental_since_at r) (current_attempt r) no_claim (started_at r)
    (if (current_attempt r <? retry_max_attempts (spec r))%Z then Some (now + seconds (backoff r))%Z else None)
    (Some error) (cancelled_at r) (cancel_reason r) (dead_lettered_at r) (dead_letter_reason r)
    (total_identities r) (flagged_identities r) None.

Definition since_run (since : option datetime) (r : scan_run) : scan_run :=
  Run (spec r) (status r) since (current_attempt r) (claim r) (started_at r) (next_retry_at r) (last_error r)
    (cancelled_at r) (cancel_reason r) (dead_lettered_at r) (dead_letter_reason r)
    (total_identities r) (flagged_identities r) (completed_at r).

(** ** Sessions *)

Definition get_run (q : queue_db) (id : string) : option scan_run :=
  List.find (fun r => str_eqb (run_id r) id) (runs q).
Definition update_run (id : string) (f : scan_run -> scan_run) (q : queue_db) : queue_db :=
  Queue (graph_tables q) (map (fun r => if str_eqb (run_id r) id then f r else r) (runs q))
    (events q) (findings q) (q_drawn q).
Definition append_scan_event (id : string) (kind : event_kind) (text : string)
    (meta : list (string * json)) (q : queue_db) : queue_db :=
  Queue (graph_tables q) (runs q) (events q ++ [Event id kind text meta (q_now q)])%list
    (findings q) (q_drawn q).
Definition set_findings (l : list scan_finding) (q : queue_db) : queue_db :=
  Queue (graph_tables q) (runs q) (events q) l (q_drawn q).
Definition add_run (r : scan_run) (q : queue_db) : queue_db :=
  Queue (graph_tables q) (runs q ++ [r])%list (events q) (findings q) (S (q_drawn q)).
Definition set_graph (g : graph) (q : queue_db) : queue_db :=
  Queue g (runs q) (events q) (findings q) (q_drawn q).

(** [get_session]: commit, or roll back and raise. *)
Definition get_session {A} (m : M queue_db queue_error A) : M queue_db queue_error A :=
  fun q => match m q with (q', Ret a) => (q', Ret a) | (_, Raise e) => (q, Raise e) end.

(** [try ... except Exception] *)
Definition py_try {A} (m : M queue_db queue_error A) (h : queue_error -> M queue_db queue_error A) :
    M queue_db queue_error A :=
  fun q => match m q with (q', Ret a) => (q', Ret a) | (q', Raise e) => h e q' end.

(** ** Operations *)

(** [ORDER BY] on nullable columns. *)
Definition opt_asc {A} (nulls_first : bool) (f : A -> option Z) (x y : A) : bool :=
  match f x, f y with
  | None, None => true
  | None, Some _ => nulls_first
  | Some _, None => negb nulls_first
  | Some a, Some b => (a <=? b)%Z
  end.
Definition then_by {A} (le le' : A -> A -> bool) (x y : A) : bool := le x y && (negb (le y x) || le' x y).
Definition reversed_order {A} (le : A -> A -> bool) (x y : A) : bool := le y x.

Section Operations.
Context (nulls_first : bool) (token : nat -> string).
Abbreviation MQ := (M queue_db queue_error).
#[local] Open Scope py_scope.

Definition value_error {A} (m : string) : MQ A := py_raise (QValueError m).
Definition check (b : bool) (m : string) : MQ unit := py_require b (QValueError m).
Definition not_found (id : string) : string := "scan run " ++ id ++ " not found".
Definition load_run (id : string) : MQ scan_run :=
  let! q := py_get in
  match get_run q id with Some r => py_ret r | None => value_error (not_found id) end.

Definition has_status (s : scan_status) (r : scan_run) : bool := bool_decide (status r = s).
(** A lease that has run out; the query ignores rows without one. *)
Definition lease_over (now : datetime) (r : scan_run) : bool :=
  match lease_expires_at (claim r) with Some t => (t <=? now)%Z | None => false end.
Definition retriable (r : scan_run) : bool := (current_attempt r <? retry_max_attempts (spec r))%Z.

(** *** Claiming *)

(** The three queries of [claim_next_scan_run]. *)
Definition claim_candidate (include_failed : bool) (q : queue_db) : option scan_run :=
  let now := q_now q in
  match sort_by (asc_by (fun r => created_at (spec r))) (List.filter (has_status PENDING) (runs q)) with
  | r :: _ => Some r
  | [] =>
      match sort_by (opt_asc nulls_first (fun r => lease_expires_at (claim r)))
              (List.filter (fun r => has_status CLAIMED r && lease_over now r) (runs q)) with
      | r :: _ => Some r
      | [] =>
          if include_failed then
            match sort_by (then_by (opt_asc nulls_first next_retry_at) (asc_by (fun r => created_at (spec r))))
                    (List.filter (fun r => has_status FAILED r && retriable r) (runs q)) with
            | r :: _ => if match next_retry_at r with Some t => (now <? t)%Z | None => false end
                        then None else Some r
            | [] => None
            end
          else None
      end
  end.

(** The update of the row that was selected. *)
Definition take_claim (runner : string) (lease_seconds : Z) (r : scan_run) : MQ unit :=
  let! q := py_get in
  let lease := Z.max 1 lease_seconds in
  py_modify (update_run (run_id r) (claim_run runner lease (q_now q))) ;;;
  py_modify (append_scan_event (run_id r) EV_CLAIMED "scan run claimed by worker"
    [("runner_identity_id", JStr runner); ("lease_seconds", JInt lease);
     ("status_before_claim", JStr (status_value (status r)))]).

Definition claim_next_scan_run (runner : string) (lease_seconds : Z) (include_failed : bool) :
    MQ (option scan_run) :=
  let! q := py_get in
  match claim_candidate include_failed q with
  | None => py_ret None
  | Some r =>
      take_claim runner lease_seconds r ;;;
      let! q := py_get in py_ret (get_run q (run_id r))
  end.

(** *** Maintenance *)

Definition clamp (limit : Z) : nat := Z.to_nat (Z.max 1 (Z.min limit 1000)).

Definition recover_one (q : queue_db) (r : scan_run) : queue_db :=
  let q' := update_run (run_id r) (recover_run (q_now q)) q in
  append_scan_event (run_id r) EV_STALE_RECOVERED "scan run recovered after lease expiration"
    [("previous_status", JStr (status_value (status r)));
     ("recovered_status", JStr (status_value (status (recover_run (q_now q) r))))] q'.
Definition stale_runs (limit : Z) (q : queue_db) : list scan_run :=
  take (clamp limit)
    (sort_by (opt_asc nulls_first (fun r => lease_expires_at (claim r)))
       (List.filter (fun r => (has_status CLAIMED r || has_status RUNNING r) && lease_over (q_now q) r) (runs q))).
Definition recover_stale_scan_runs (limit : Z) : MQ (list string) :=
  let! q := py_get in
  let rows := stale_runs limit q in
  py_modify (fun q => fold_left recover_one rows q) ;;;
  py_ret (map run_id rows).

Definition sweep_one (reason : string) (q : queue_db) (r : scan_run) : queue_db :=
  append_scan_event (run_id r) EV_DEAD_LETTERED "scan run moved to dead-letter" [("reason", JStr reason)]
    (update_run (run_id r) (dead_letter_run (q_now q) reason) q).
Definition exhausted_runs (limit : Z) (q : queue_db) : list scan_run :=
  take (clamp limit)
    (sort_by (asc_by (fun r => created_at (spec r)))
       (List.filter (fun r => has_status FAILED r && negb (retriable r)) (runs q))).
Definition sweep_dead_letter_scan_runs (limit : Z) (reason : option string) : MQ (list string) :=
  let! q := py_get in
  let rows := exhausted_runs limit q in
  let why := if truthy_str reason then default "" reason else "retry attempts exhausted" in
  py_modify (fun q => fold_left (sweep_one why) rows q) ;;;
  py_ret (map run_id rows).

Definition requeue_dead_letter_scan_run (id : string) (reason : option string) : MQ scan_run :=
  let! r := load_run id in
  check (has_status DEAD_LETTER r) "scan run is not in dead-letter state" ;;;
  py_modify (update_run id requeue_run) ;;;
  py_modify (append_scan_event id EV_REQUEUED "scan run requeued from dead-letter"
    [("reason", JStr (if truthy_str reason then default "" reason else "manual requeue"))]) ;;;
  load_run id.

Definition requeue_one (reason : string) (q : queue_db) (r : scan_run) : queue_db :=
  append_scan_event (run_id r) EV_REQUEUED "scan run batch requeued from dead-letter" [("reason", JStr reason)]
    (update_run (run_id r) requeue_run q).
Definition dead_by_age : list scan_run -> list scan_run :=
  sort_by (then_by (opt_asc nulls_first dead_lettered_at) (asc_by (fun r => created_at (spec r)))).
Definition requeue_dead_letter_scan_runs (limit : Z) (reason : option string) : MQ (list string) :=
  let! q := py_get in
  let rows := take (clamp limit) (dead_by_age (List.filter (has_status DEAD_LETTER) (runs q))) in
  let why := if truthy_str reason then default "" reason else "batch requeue" in
  py_modify (fun q => fold_left (requeue_one why) rows q) ;;;
  py_ret (map run_id rows).

Definition list_dead_letter_scan_runs (limit : Z) (q : queue_db) : list scan_run :=
  take (clamp limit)
    (sort_by (then_by (reversed_order (opt_asc nulls_first dead_lettered_at))
                (desc_by (fun r => created_at (spec r))))
       (List.filter (has_status DEAD_LETTER) (runs q))).

Definition purgeable (cutoff : datetime) (r : scan_run) : bool :=
  has_status DEAD_LETTER r && match dead_lettered_at r with Some t => (t <=? cutoff)%Z | None => true end.
Definition purge_dead_letter_scan_runs (limit older_than_hours : Z) : MQ (list string) :=
  let! q := py_get in
  let age := Z.max 1 (Z.min older_than_hours (24 * 365)) in
  let rows := take (clamp limit) (dead_by_age (List.filter (purgeable (q_now q - hours age)%Z) (runs q))) in
  let ids := map run_id rows in
  py_modify (fun q => Queue (graph_tables q)
    (List.filter (fun r => negb (str_mem (run_id r) ids)) (runs q))
    (List.filter (fun e => negb (str_mem (ev_scan_id e) ids)) (events q))
    (List.filter (fun f => negb (str_mem (f_scan_id f) ids)) (findings q)) (q_drawn q)) ;;;
  py_ret ids.

(** *** Heartbeat and cancellation *)

(** [run_row.claimed_by and run_row.claimed_by != runner] *)
Definition claimed_by_other (runner : string) (r : scan_run) : bool :=
  truthy_str (claimed_by (claim r)) && negb (bool_decide (claimed_by (claim r) = Some runner)).

Definition heartbeat_scan_run (id runner : string) (lease_seconds : Z) : MQ scan_run :=
  let! r := load_run id in
  check (has_status CLAIMED r || has_status RUNNING r) "scan run is not claimable for heartbeat" ;;;
  check (negb (claimed_by_other runner r)) "scan run is claimed by another runner" ;;;
  let! q := py_get in
  py_modify (update_run id (heartbeat_run runner lease_seconds (q_now q))) ;;;
  py_modify (append_scan_event id EV_HEARTBEAT "scan run lease heartbeat"
    [("runner_identity_id", JStr runner); ("lease_seconds", JInt (Z.max 1 lease_seconds))]) ;;;
  load_run id.

Definition cancel_scan_run (id : string) (runner reason : option string) : MQ scan_run :=
  let! r := load_run id in
  check (negb (has_status COMPLETED r || has_status CANCELLED r))
    "scan run is already terminal and cannot be cancelled" ;;;
  check (negb (truthy_str runner && claimed_by_other (default "" runner) r))
    "scan run is claimed by another runner" ;;;
  let! q := py_get in
  py_modify (update_run id (cancel_run reason (q_now q))) ;;;
  py_modify (append_scan_event id EV_CANCELLED "scan run cancelled"
    [("runner_identity_id", jopt runner); ("reason", jopt (cancel_reason (cancel_run reason (q_now q) r)))]) ;;;
  load_run id.

(** *** Execution *)

Definition resolve_incremental_since (r : scan_run) : MQ (option datetime) :=
  let! q := py_get in
  if negb (incremental (spec r)) then py_ret None
  else if truthy_str (base_scan_id (spec r)) then
    match get_run q (default "" (base_scan_id (spec r))) with
    | None => value_error ("base scan run not found: " ++ default "" (base_scan_id (spec r)))
    | Some b => py_ret (match completed_at b with Some t => Some t | None => Some (created_at (spec b)) end)
    end
  else match incremental_since_at r with
       | Some t => py_ret (Some t)
       | None => py_ret (Some (q_now q - hours (window_hours (spec r)))%Z)
       end.

(** [sorted] of a set of strings. *)
Definition sorted_set (l : list string) : list string := sort_by String.leb (dedup l).
Definition strip_all (l : list string) : list string :=
  List.filter (fun s => negb (str_eqb s "")) (map py_strip l).

Definition resolve_scan_identities (r : scan_run) (since : option datetime) (q : queue_db) : list string :=
  match requested_identity_ids (spec r) with
  | Some ((_ :: _) as ids) => sorted_set (strip_all ids)
  | _ =>
      let from := default (q_now q - hours (window_hours (spec r)))%Z since in
      let es := List.filter (fun e => (from <=? e_created_at e)%Z) (edges (graph_tables q)) in
      let ss := List.filter (fun s => (from <=? sig_created_at s)%Z) (signals (graph_tables q)) in
      sorted_set (List.filter (fun s => negb (str_eqb s ""))
        (map source es ++ map target es ++ map sig_identity ss))
  end.

(** The loop over the identities: the finding of one, if it is flagged.  [fault]
    makes the queries of the [n]-th identity raise. *)
Definition finding_of (r : scan_run) (q : queue_db) (identity : string) : option scan_finding :=
  let score := get_identity_score (graph_tables q) identity (window_hours (spec r)) in
  let features := get_identity_path_features (graph_tables q) identity (window_hours (spec r)) (max_hops (spec r)) in
  if fgeb (normalized_score score) (min_score_threshold (spec r)) || (0 <? cycle_paths_detected features)%Z
  then Some (Finding (run_id r) identity (normalized_score score) (risk_band score) (signal_count score)
               (cycle_paths_detected features) (q_now q))
  else None.

Fixpoint scan_loop (r : scan_run) (fault : option (nat * string)) (ids : list string) (flagged : nat) : MQ nat :=
  match ids with
  | [] => py_ret flagged
  | identity :: rest =>
      match fault with
      | Some (O, msg) => py_raise (QFault msg)
      | _ =>
          let fault := match fault with Some (S n, msg) => Some (n, msg) | _ => None end in
          let! q := py_get in
          match finding_of r q identity with
          | Some f => py_modify (set_findings (findings q ++ [f])%list) ;;; scan_loop r fault rest (S flagged)
          | None => scan_loop r fault rest flagged
          end
      end
  end.

(** The [try] block. *)
Definition scan_body (r : scan_run) (fault : option (nat * string)) : MQ unit :=
  let! since := resolve_incremental_since r in
  py_modify (update_run (run_id r) (since_run since)) ;;;
  let! q := py_get in
  let ids := resolve_scan_identities r since q in
  py_modify (set_findings (List.filter (fun f => negb (str_eqb (f_scan_id f) (run_id r))) (findings q))) ;;;
  let! flagged := scan_loop r fault ids 0 in
  let! q := py_get in
  py_modify (update_run (run_id r) (complete_run (length ids) flagged (q_now q))) ;;;
  py_modify (append_scan_event (run_id r) EV_EXECUTION_COMPLETED "scan run execution completed"
    [("total_identities", JInt (Z.of_nat (length ids))); ("flagged_identities", JInt (Z.of_nat flagged));
     ("attempt", JInt (current_attempt r)); ("runner_identity_id", jopt (claimed_by (claim r)))]).

(** The [except] block. *)
Definition scan_failed (r : scan_run) (e : queue_error) : MQ unit :=
  let! q := py_get in
  let failed := fail_run (error_text e) (q_now q) r in
  py_modify (update_run (run_id r) (fail_run (error_text e) (q_now q))) ;;;
  py_modify (append_scan_event (run_id r) EV_EXECUTION_FAILED "scan run execution failed"
    [("error", JStr (error_text e)); ("attempt", JInt (current_attempt r));
     ("next_retry_at", match next_retry_at failed with Some t => JStr (isoformat t) | None => JNull end);
     ("runner_identity_id", jopt (claimed_by (claim r)))]) ;;;
  py_raise e.

(** What the guards of [execute_scan_run] decide: raise, return the stored
    result, or run as a worker. *)
Inductive verdict : Type :=
| Refuse (msg : string)
| Stored
| Proceed (runner : option string).

Definition execute_guard (runner : option string) (force require_failed : bool) (now : datetime) (r : scan_run) :
    verdict :=
  if require_failed && negb (has_status FAILED r) then Refuse "scan run is not in failed state"
  else if has_status CANCELLED r then Refuse "scan run is cancelled"
  else if has_status CLAIMED r && truthy_str runner && claimed_by_other (default "" runner) r
  then Refuse "scan run is claimed by another runner"
  else
    let runner := if has_status CLAIMED r && negb (truthy_str runner) then claimed_by (claim r) else runner in
    if has_status COMPLETED r && negb force then Stored
    else if has_status RUNNING r && negb force then Stored
    else if has_status FAILED r && negb force
            && match next_retry_at r with Some t => (now <? t)%Z | None => false end
    then Refuse "scan run is waiting for next retry window"
    else if has_status FAILED r && negb force && negb (retriable r)
    then Refuse "scan run retry attempts exhausted"
    else Proceed runner.

Definition execute_scan_run (id : string) (runner : option string) (lease_seconds : Z)
    (force require_failed : bool) (fault : option (nat * string)) : MQ scan_run :=
  let! r := load_run id in
  let! q := py_get in
  match execute_guard runner force require_failed (q_now q) r with
  | Refuse msg => value_error msg
  | Stored => load_run id
  | Proceed runner =>
      py_modify (update_run id (start_run runner lease_seconds (q_now q))) ;;;
      let! r := load_run id in
      py_modify (append_scan_event id EV_EXECUTION_STARTED "scan run execution started"
        [("runner_identity_id", jopt (claimed_by (claim r))); ("attempt", JInt (current_attempt r));
         ("force", JBool force)]) ;;;
      py_try (scan_body r fault) (scan_failed r) ;;;
      load_run id
  end.

Definition run_batch_scan (identity_ids : option (list string)) (async incremental : bool)
    (base : option string) (window hops : Z) (threshold : float) (retry_max retry_backoff : Z)
    (fault : option (nat * string)) : MQ scan_run :=
  let! q := py_get in
  let now := q_now q in
  let id := token (q_drawn q) in
  let requested := (fun l => sorted_set (strip_all l)) <$> identity_ids in
  let since := if incremental && negb (truthy_str base) then Some (now - hours window)%Z else None in
  let r := Run (Spec id async incremental base requested window hops threshold retry_max retry_backoff now)
             PENDING since 0 no_claim None None None None None None None 0 0 None in
  py_modify (add_run r) ;;;
  py_modify (append_scan_event id EV_CREATED "scan run created"
    [("execution_mode", JStr (if async then "async" else "sync"));
     ("scan_mode", JStr (if incremental then "incremental" else "full"));
     ("requested_identity_ids", JList (map JStr (default [] requested)))]) ;;;
  if async then py_ret r else execute_scan_run id None 300 true false fault.

Inductive pull_outcome : Type :=
| Idle
| PulledOk (id : string)
| PulledFailed (id msg : string).

Definition pull_and_execute_scan_run (runner : string) (lease_seconds : Z) (include_failed force : bool)
    (fault : option (nat * string)) : MQ pull_outcome :=
  let! claimed := claim_next_scan_run runner lease_seconds include_failed in
  match claimed with
  | None => py_ret Idle
  | Some r =>
      py_try (execute_scan_run (run_id r) (Some runner) lease_seconds force false fault ;;;
              py_ret (PulledOk (run_id r)))
        (fun e => py_ret (PulledFailed (run_id r) (error_text e)))
  end.

(** [run_scan_queue_maintenance_tick]; [faults] holds what goes wrong in each job. *)
Fixpoint tick_loop (n : nat) (runner : string) (lease_seconds : Z) (include_failed : bool)
    (faults : list (option (nat * string))) (done : list pull_outcome) : MQ (list pull_outcome) :=
  match n with
  | O => py_ret done
  | S n =>
      let! o := pull_and_execute_scan_run runner lease_seconds include_failed false (default None (head faults)) in
      match o with
      | Idle => py_ret done
      | _ => tick_loop n runner lease_seconds include_failed (tail faults) (done ++ [o])%list
      end
  end.
Definition run_scan_queue_maintenance_tick (runner : string) (recover_limit max_claim_execute lease_seconds : Z)
    (include_failed : bool) (faults : list (option (nat * string))) : MQ (list string * list pull_outcome) :=
  let! recovered := recover_stale_scan_runs recover_limit in
  let! done := tick_loop (Z.to_nat (Z.max 0 (Z.min max_claim_execute 100))) runner lease_seconds
                 include_failed faults [] in
  py_ret (recovered, done).
End Operations.

(** ** Requests: one operation in one session *)

Inductive queue_op : Type :=
| RunBatchScan (ids : option (list string)) (async incremental : bool) (base : option string)
    (window hops : Z) (threshold : float) (retry_max retry_backoff : Z) (fault : option (nat * string))
| ClaimNext (runner : string) (lease : Z) (include_failed : bool)
| RecoverStale (limit : Z)
| SweepDead (limit : Z) (reason : option string)
| RequeueOne (id : string) (reason : option string)
| RequeueDead (limit : Z) (reason : option string)
| PurgeDead (limit older_than_hours : Z)
| PullExecute (runner : string) (lease : Z) (include_failed force : bool) (fault : option (nat * string))
| MaintenanceTick (runner : string) (recover_limit max_jobs lease : Z) (include_failed : bool)
    (faults : list (option (nat * string)))
| Heartbeat (id runner : string) (lease : Z)
| CancelScan (id : string) (runner reason : option string)
| ExecuteScan (id : string) (runner : option string) (lease : Z) (force require_failed : bool)
    (fault : option (nat * string))
| GraphOp (op : graph_op).

Section Requests.
Context (nulls_first : bool) (token : nat -> string).

Definition queue_step (op : queue_op) (q : queue_db) : queue_db :=
  match op with
  | RunBatchScan i a inc b w h t m r f =>
      run_state (get_session (run_batch_scan token i a inc b w h t m r f)) q
  | ClaimNext w l f => run_state (get_session (claim_next_scan_run nulls_first w l f)) q
  | RecoverStale l => run_state (get_session (recover_stale_scan_runs nulls_first l)) q
  | SweepDead l r => run_state (get_session (sweep_dead_letter_scan_runs l r)) q
  | RequeueOne i r => run_state (get_session (requeue_dead_letter_scan_run i r)) q
  | RequeueDead l r => run_state (get_session (requeue_dead_letter_scan_runs nulls_first l r)) q
  | PurgeDead l o => run_state (get_session (purge_dead_letter_scan_runs nulls_first l o)) q
  | PullExecute w l f fo ft => run_state (get_session (pull_and_execute_scan_run nulls_first w l f fo ft)) q
  | MaintenanceTick w rl mj l f fs =>
      run_state (get_session (run_scan_queue_maintenance_tick nulls_first w rl mj l f fs)) q
  | Heartbeat i w l => run_state (get_session (heartbeat_scan_run i w l)) q
  | CancelScan i w r => run_state (get_session (cancel_scan_run i w r)) q
  | ExecuteScan i w l fo rf ft => run_state (get_session (execute_scan_run i w l fo rf ft)) q
  | GraphOp op => set_graph (graph_step op (graph_tables q)) q
  end.
Definition queue_run (ops : list queue_op) (q : queue_db) : queue_db :=
  fold_left (fun q op => queue_step op q) ops q.
End Requests.

Definition empty_queue (t : datetime) : queue_db := Queue (empty_graph t) [] [] [] 0.

(** ** The abstract queue: guarded moves of single rows

    Who may move a row, and when; an execution is one move, since it is
    committed as a whole. *)

Definition claimable (now : datetime) (r : scan_run) : Prop :=
  status r = PENDING
  \/ (status r = CLAIMED /\ lease_over now r = true)
  \/ (status r = FAILED /\ retriable r = true /\ forall t, next_retry_at r = Some t -> (t <= now)%Z).

(** An execution by a worker takes the run it has claimed, the one that follows
    a creation the new run, and one by a request what the guards let through. *)
Inductive authority : Type := Worker | Creator | Direct (force : bool).
Definition may_execute (auth : authority) (actor : option string) (now : datetime) (r : scan_run)
    (runner : option string) : Prop :=
  match auth with
  | Worker => status r = CLAIMED /\ execute_guard actor false false now r = Proceed runner
  | Creator => status r = PENDING
  | Direct force => exists rf, execute_guard actor force rf now r = Proceed runner
  end.

(** [actor] is the runner a request names. *)
Inductive move (now : datetime) (actor : option string) (auth : authority) : scan_run -> scan_run -> Prop :=
| m_claim w lease r : actor = Some w -> claimable now r -> move now actor auth r (claim_run w lease now r)
| m_recover r : status r = CLAIMED \/ status r = RUNNING -> lease_over now r = true ->
    move now actor auth r (recover_run now r)
| m_dead_letter reason r : status r = FAILED -> retriable r = false ->
    move now actor auth r (dead_letter_run now reason r)
| m_requeue r : status r = DEAD_LETTER -> move now actor auth r (requeue_run r)
| m_heartbeat w lease r : actor = Some w -> status r = CLAIMED \/ status r = RUNNING ->
    claimed_by_other w r = false -> move now actor auth r (heartbeat_run w lease now r)
| m_cancel reason r : status r <> COMPLETED -> status r <> CANCELLED ->
    truthy_str actor && claimed_by_other (default "" actor) r = false ->
    move now actor auth r (cancel_run reason now r)
| m_complete runner lease since total flagged r : may_execute auth actor now r runner ->
    move now actor auth r (complete_run total flagged now (since_run since (start_run runner lease now r)))
| m_fail runner lease since error r : may_execute auth actor now r runner ->
    move now actor auth r (fail_run error now (since_run since (start_run runner lease now r))).

(** One step of the table: a row moves, a row is added, or dead rows go. *)
Inductive table_step (token : nat -> string) (now : datetime) (actor : option string) (auth : authority) :
    list scan_run * nat -> list scan_run * nat -> Prop :=
| ts_move l n id r r' : List.find (fun x => str_eqb (run_id x) id) l = Some r -> move now actor auth r r' ->
    table_step token now actor auth (l, n) (map (fun x => if str_eqb (run_id x) id then r' else x) l, n)
| ts_add l n r : run_id r = token n -> status r = PENDING -> current_attempt r = 0%Z -> claim r = no_claim ->
    next_retry_at r = None -> cancelled_at r = None -> cancel_reason r = None -> dead_lettered_at r = None ->
    dead_letter_reason r = None -> completed_at r = None ->
    table_step token now actor auth (l, n) ((l ++ [r])%list, S n)
| ts_purge l n ids : (forall x, x ∈ l -> run_id x ∈ ids -> status x = DEAD_LETTER) ->
    table_step token now actor auth (l, n) (List.filter (fun x => negb (str_mem (run_id x) ids)) l, n).

Definition table (q : queue_db) : list scan_run * nat := (runs q, q_drawn q).

(** ** Rows of the table *)

Record row_ok (r : scan_run) : Prop := {
  ro_running : status r <> RUNNING;
  ro_claimed : status r = CLAIMED -> is_Some (claimed_by (claim r)) /\ is_Some (claimed_at (claim r))
    /\ is_Some (lease_expires_at (claim r)) /\ is_Some (last_heartbeat_at (claim r));
  ro_unclaimed : status r <> CLAIMED -> status r <> CANCELLED -> claim r = no_claim;
  ro_no_lease : status r = CANCELLED -> lease_expires_at (claim r) = None /\ last_heartbeat_at (claim r) = None;
  ro_dead : (is_Some (dead_lettered_at r) <-> status r = DEAD_LETTER)
    /\ (is_Some (dead_letter_reason r) <-> status r = DEAD_LETTER);
  ro_cancelled : (is_Some (cancelled_at r) <-> status r = CANCELLED)
    /\ (is_Some (cancel_reason r) <-> status r = CANCELLED);
  ro_completed : is_Some (completed_at r) <-> status r = COMPLETED;
  ro_retry : status r = FAILED -> (is_Some (next_retry_at r) <-> retriable r = true);
  ro_pending : status r = PENDING -> next_retry_at r = None;
  ro_attempts : (0 <= current_attempt r)%Z
}.

Lemma move_id now actor auth r r' : move now actor auth r r' -> spec r' = spec r.
Proof. destruct 1; try done. unfold recover_run. by destruct (status r). Qed.

(** The equivalences of [row_ok], from those of the row before. *)
Ltac row_field :=
  cbn in *; try congruence; try done;
  match goal with
  | |- _ /\ _ => split; row_field
  | |- _ -> _ => intros; row_field
  | |- is_Some (Some _) <-> _ => split; intros _; [reflexivity|by eauto]
  | |- is_Some None <-> _ => split; [intros [? ?]; discriminate|intros ?; discriminate]
  | H : is_Some ?x <-> ?s = ?a |- is_Some ?x <-> _ = ?a => rewrite H; split; intros ?; congruence
  | |- is_Some (Some _) => by eauto
  | |- _ => idtac
  end.

Lemma attempt_start r w lease now : (0 <= current_attempt r)%Z ->
  (0 <= current_attempt (start_run w lease now r))%Z.
Proof. cbn. lia. Qed.

Lemma move_ok now actor auth r r' : row_ok r -> move now actor auth r r' -> row_ok r'.
Proof.
  intros [H1 H2 H3 H4 [H5 H5'] [H6 H6'] H7 H8 H9 H10] Hm. destruct Hm as
    [w lease r Ha Hc|r Hs Hl|reason r Hs Hr|r Hs|w lease r Ha Hs Ho|reason r Hs Hs' Ho
    |runner lease since total flagged r Hg|runner lease since error r Hg].
  - destruct Hc as [Hc|[[Hc _]|[Hc _]]]; split; row_field.
  - destruct Hs as [Hs|Hs]; [|done]. unfold recover_run. rewrite Hs in *. split; row_field.
  - split; row_field.
  - split; row_field.
  - destruct Hs as [Hs|Hs]; [|done]. split; row_field. by destruct H2 as (_ & ? & _).
  - split; row_field.
  - split; row_field. lia.
  - split; row_field; [|lia]. unfold retriable. cbn.
    by destruct (_ <? _)%Z; split; try (intros [? ?]).
Qed.

(** ** Operations follow the abstract queue *)

Lemma find_update l id f :
  (forall x, run_id (f x) = run_id x) ->
  List.find (fun x => str_eqb (run_id x) id) (map (fun x => if str_eqb (run_id x) id then f x else x) l)
  = f <$> List.find (fun x => str_eqb (run_id x) id) l.
Proof.
  intros Hf. induction l as [|x l IH]; [done|]. cbn. destruct (str_eqb (run_id x) id) eqn:E; cbn.
  - by rewrite Hf, E.
  - by rewrite E.
Qed.
Lemma get_run_update q id f : (forall x, run_id (f x) = run_id x) ->
  get_run (update_run id f q) id = f <$> get_run q id.
Proof. apply find_update. Qed.
Lemma get_run_update_ne q id id' f : (forall x, run_id (f x) = run_id x) -> id <> id' ->
  get_run (update_run id f q) id' = get_run q id'.
Proof.
  intros Hf Hne. unfold get_run, update_run. cbn. induction (runs q) as [|x l IH]; [done|]. cbn.
  destruct (str_eqb (run_id x) id) eqn:E.
  - apply bool_decide_eq_true in E. rewrite Hf, (str_eqb_ne (run_id x) id') by congruence. done.
  - by rewrite IH.
Qed.
Lemma get_run_some q id r : get_run q id = Some r -> r ∈ runs q /\ run_id r = id.
Proof.
  intros E. apply find_some in E as [Hin He]. apply bool_decide_eq_true in He. by rewrite list_elem_of_In.
Qed.
Lemma get_run_in q r : NoDup (map run_id (runs q)) -> r ∈ runs q -> get_run q (run_id r) = Some r.
Proof.
  unfold get_run. induction (runs q) as [|x l IH]; [by intros _ ?%not_elem_of_nil|].
  cbn. intros Hnd [->|Hin]%elem_of_cons; [by rewrite str_eqb_refl|].
  apply NoDup_cons in Hnd as [Hx Hnd]. rewrite str_eqb_ne; [by apply IH|].
  intros He. apply Hx. rewrite He. by apply list_elem_of_In, in_map, list_elem_of_In.
Qed.
Lemma update_twice id f g q : (forall x, run_id (f x) = run_id x) ->
  update_run id g (update_run id f q) = update_run id (fun x => g (f x)) q.
Proof.
  intros Hf. unfold update_run. cbn. f_equal. rewrite map_map. apply map_ext. intros x.
  destruct (str_eqb (run_id x) id) eqn:E; [by rewrite Hf, E|by rewrite E].
Qed.

(** Under one id only the row that [get_run] finds is changed. *)
Lemma update_const q id f r : NoDup (map run_id (runs q)) -> get_run q id = Some r ->
  map (fun x => if str_eqb (run_id x) id then f x else x) (runs q)
  = map (fun x => if str_eqb (run_id x) id then f r else x) (runs q).
Proof.
  intros Hnd Hr. apply map_ext_in. intros x Hx. destruct (str_eqb (run_id x) id) eqn:E; [|done].
  apply bool_decide_eq_true in E. apply list_elem_of_In in Hx. apply (get_run_in q) in Hx; [|done].
  rewrite E, Hr in Hx. by injection Hx as ->.
Qed.

Section Follows.
Context (nulls_first : bool) (token : nat -> string) (token_inj : forall n n', token n = token n' -> n = n').

Record queue_ok (q : queue_db) : Prop := {
  qo_ids : NoDup (map run_id (runs q));
  qo_rows : forall r, r ∈ runs q -> row_ok r;
  qo_fresh : forall r, r ∈ runs q -> exists n, (n < q_drawn q)%nat /\ run_id r = token n
}.

Lemma table_step_ok now actor auth t t' : table_step token now actor auth t t' ->
  forall q q', table q = t -> table q' = t' -> queue_ok q -> queue_ok q'.
Proof.
  intros Hstep q q' Et Et' [Hids Hrows Hfresh]. unfold table in *.
  assert (runs q' = t'.1 /\ q_drawn q' = t'.2) as [E1 E2] by (by rewrite <- Et').
  assert (runs q = t.1 /\ q_drawn q = t.2) as [E3 E4] by (by rewrite <- Et). clear Et Et'.
  rewrite E3, ?E4 in *. destruct Hstep as [l n id r r' Hf Hm|l n r Hid Hs Ha Hc H1 H2 H3 H4 H5 H6|l n ids Hdead];
    cbn [fst snd] in *.
  - pose proof (move_id _ _ _ _ _ Hm) as Hspec. apply find_some in Hf as [Hin He].
    apply bool_decide_eq_true in He. apply list_elem_of_In in Hin.
    assert (forall x, x ∈ map (fun x => if str_eqb (run_id x) id then r' else x) l -> x = r' \/ x ∈ l) as Hx.
    { intros x Hx. apply list_elem_of_In, in_map_iff in Hx as (y & <- & Hy).
      destruct (str_eqb _ _); [by left|right; by apply list_elem_of_In]. }
    assert (run_id r' = id) as Hr' by (unfold run_id in *; by rewrite Hspec).
    split; rewrite ?E1, ?E2.
    + assert (map run_id (map (fun x => if str_eqb (run_id x) id then r' else x) l) = map run_id l) as ->; [|done].
      rewrite map_map. apply map_ext. intros x. destruct (str_eqb (run_id x) id) eqn:E; [|done].
      apply bool_decide_eq_true in E. by rewrite E.
    + intros x [->|Hx']%Hx; [|auto]. eapply move_ok; [|exact Hm]. auto.
    + intros x [->|Hx']%Hx; [|auto]. destruct (Hfresh r Hin) as (m & Hm' & Htok). exists m.
      split; [done|]. congruence.
  - split; rewrite ?E1, ?E2.
    + rewrite map_app. apply NoDup_app. split_and!; [done| |by apply NoDup_singleton].
      intros x Hin Hx. apply list_elem_of_singleton in Hx as ->.
      apply list_elem_of_In, in_map_iff in Hin as (y & Hy & Hin). apply list_elem_of_In in Hin.
      destruct (Hfresh y Hin) as (m & Hlt & Htok). rewrite Hy, Hid in Htok. apply token_inj in Htok. lia.
    + intros x [Hx|Hx%list_elem_of_singleton]%elem_of_app; [auto|]. subst x.
      split; rewrite ?Hs, ?Ha, ?Hc, ?H1, ?H2, ?H3, ?H4, ?H5, ?H6; row_field.
    + intros x [Hx|Hx%list_elem_of_singleton]%elem_of_app.
      * destruct (Hfresh x Hx) as (m & Hlt & ?). exists m. split; [lia|done].
      * subst x. exists n. split; [lia|done].
  - assert (forall x, x ∈ List.filter (fun x => negb (str_mem (run_id x) ids)) l -> x ∈ l) as Hx.
    { intros x Hx. apply list_elem_of_In, filter_In in Hx as [Hx _]. by apply list_elem_of_In. }
    split; rewrite ?E1, ?E2; [|auto..].
    eapply sublist_NoDup; [exact Hids|]. clear. induction l as [|x l IH]; cbn; [constructor|].
    destruct (negb _); cbn; by constructor.
Qed.

(** [q'] follows from [q] by steps of the abstract queue, in one session. *)
Definition reaches (actor : option string) (auth : authority) (q q' : queue_db) : Prop :=
  graph_tables q' = graph_tables q /\ rtc (table_step token (q_now q) actor auth) (table q) (table q').

Lemma table_steps_ok now actor auth t t' : rtc (table_step token now actor auth) t t' ->
  forall q q', table q = t -> table q' = t' -> queue_ok q -> queue_ok q'.
Proof.
  induction 1 as [t|t t1 t2 Hs Hr IH]; intros q q' Et Et' Hq.
  - unfold table in *. rewrite <- Et in Et'. injection Et' as E1 E2. destruct Hq. split; by rewrite ?E1, ?E2.
  - apply (IH (Queue (graph_tables q) t1.1 (events q) (findings q) t1.2)); [by destruct t1|done|].
    eapply table_step_ok; [exact Hs|exact Et| |exact Hq]. by destruct t1.
Qed.
Lemma reaches_ok actor auth q q' : reaches actor auth q q' -> queue_ok q -> queue_ok q'.
Proof. intros [_ Hr]. by eapply table_steps_ok. Qed.
Lemma reaches_refl actor auth q q' : graph_tables q' = graph_tables q -> table q' = table q ->
  reaches actor auth q q'.
Proof. intros Hg Ht. split; [done|]. rewrite Ht. constructor. Qed.
Lemma reaches_trans actor auth q1 q2 q3 :
  reaches actor auth q1 q2 -> reaches actor auth q2 q3 -> reaches actor auth q1 q3.
Proof.
  intros [G1 R1] [G2 R2]. unfold q_now in R2. rewrite G1 in R2. split; [by rewrite G2|]. by etrans.
Qed.

(** A row replaced by what a move makes of it. *)
Lemma reaches_update actor auth q q' id f r :
  queue_ok q -> get_run q id = Some r -> move (q_now q) actor auth r (f r) ->
  graph_tables q' = graph_tables q -> table q' = table (update_run id f q) -> reaches actor auth q q'.
Proof.
  intros [Hids _ _] Hr Hm Hg Ht. split; [done|]. rewrite Ht. apply rtc_once. unfold table, update_run. cbn.
  rewrite (update_const _ _ _ r) by done. by eapply ts_move.
Qed.

Lemma reaches_session {A} actor auth (m : M queue_db queue_error A) q :
  reaches actor auth q (run_state m q) -> reaches actor auth q (run_state (get_session m) q).
Proof.
  unfold run_state, get_session. destruct (m q) as [q' [a|e]]; [done|]. intros _. by apply reaches_refl.
Qed.

(** The loops over the rows a query selected. *)
Lemma reaches_fold actor auth (one : queue_db -> scan_run -> queue_db) (f : scan_run -> scan_run) now rows :
  (forall q r, q_now q = now -> graph_tables (one q r) = graph_tables q
     /\ table (one q r) = table (update_run (run_id r) f q)) ->
  (forall x, run_id (f x) = run_id x) ->
  NoDup (map run_id rows) ->
  forall q, q_now q = now -> queue_ok q ->
  (forall r, r ∈ rows -> get_run q (run_id r) = Some r /\ move now actor auth r (f r)) ->
  reaches actor auth q (fold_left one rows q).
Proof.
  intros Hone Hf. induction rows as [|r rows IH]; intros Hnd q Hnow Hq Hrows; cbn [fold_left];
    [by apply reaches_refl|].
  cbn in Hnd. apply NoDup_cons in Hnd as [Hr Hnd]. destruct (Hone q r Hnow) as [Hg Ht].
  destruct (Hrows r) as [Hget Hm]; [by left|].
  assert (reaches actor auth q (one q r)) as Hstep.
  { eapply reaches_update; [done|exact Hget|by rewrite Hnow|done|exact Ht]. }
  eapply reaches_trans; [exact Hstep|].
  apply IH; [done|by unfold q_now; rewrite Hg|by eapply reaches_ok|].
  intros x Hx. destruct (Hrows x) as [Hgx Hmx]; [by right|]. split; [|done].
  assert (run_id r <> run_id x) as Hne.
  { intros He. apply Hr. rewrite He. by apply list_elem_of_In, in_map, list_elem_of_In. }
  rewrite <- Hgx, <- (get_run_update_ne q (run_id r) (run_id x) f Hf Hne).
  unfold get_run. unfold table in Ht. by injection Ht as -> _.
Qed.

(** A selection has the rows of the table, each once. *)
Lemma selection q (le : scan_run -> scan_run -> bool) p n : queue_ok q ->
  NoDup (map run_id (take n (sort_by le (List.filter p (runs q)))))
  /\ forall r, r ∈ take n (sort_by le (List.filter p (runs q))) ->
     get_run q (run_id r) = Some r /\ p r = true.
Proof.
  intros [Hids _ _]. split.
  - eapply sublist_NoDup; [|rewrite <- firstn_map; apply sublist_take].
    eapply (NoDup_Permutation_proper _ _ (Permutation_map run_id (sort_by_perm le _))).
    eapply sublist_NoDup; [exact Hids|]. clear. induction (runs q) as [|x l IH]; cbn; [constructor|].
    destruct (p x); cbn; by constructor.
  - intros r Hr. apply (sublist_subseteq _ _ (sublist_take _ n)) in Hr.
    rewrite elem_of_sort_by in Hr. apply list_elem_of_In, filter_In in Hr as [Hin Hp].
    split; [|done]. apply get_run_in; [done|]. by apply list_elem_of_In.
Qed.

(** *** Claiming *)

Lemma claim_candidate_spec inc q r : claim_candidate nulls_first inc q = Some r ->
  r ∈ runs q /\ claimable (q_now q) r.
Proof.
  unfold claim_candidate, claimable.
  assert (forall (le : scan_run -> scan_run -> bool) p x l, sort_by le (List.filter p (runs q)) = x :: l ->
    x ∈ runs q /\ p x = true) as Hsel.
  { intros le p x l E. assert (x ∈ sort_by le (List.filter p (runs q))) as Hx by (rewrite E; by left).
    rewrite elem_of_sort_by in Hx. apply list_elem_of_In, filter_In in Hx as [Hx Hp].
    by rewrite list_elem_of_In. }
  destruct (sort_by _ (List.filter (has_status PENDING) _)) as [|x l] eqn:E1.
  2: { intros [= <-]. destruct (Hsel _ _ _ _ E1) as [Hin Hp]. apply bool_decide_eq_true in Hp. auto. }
  destruct (sort_by _ (List.filter (fun r => has_status CLAIMED r && _) _)) as [|x l] eqn:E2.
  2: { intros [= <-]. destruct (Hsel _ _ _ _ E2) as [Hin Hp]. apply andb_prop in Hp as [Hp Hl].
       apply bool_decide_eq_true in Hp. auto. }
  destruct inc; [|done].
  destruct (sort_by _ (List.filter (fun r => has_status FAILED r && _) _)) as [|x l] eqn:E3; [done|].
  destruct (match next_retry_at x with Some _ => _ | None => _ end) eqn:Ew; [done|]. intros [= <-].
  destruct (Hsel _ _ _ _ E3) as [Hin Hp]. apply andb_prop in Hp as [Hp Hl].
  apply bool_decide_eq_true in Hp. split; [done|]. right; right. split_and!; [done..|].
  intros t' Ht. rewrite Ht in Ew. lia.
Qed.

Lemma reaches_take_claim w lease auth q r : queue_ok q -> get_run q (run_id r) = Some r ->
  claimable (q_now q) r -> reaches (Some w) auth q (run_state (take_claim w lease r) q).
Proof.
  intros Hq Hr Hc. eapply (reaches_update _ _ _ _ (run_id r)); [done|exact Hr| |done|reflexivity].
  by apply m_claim.
Qed.

(** The claim, when the table has one row per id. *)
Lemma claim_outcome w lease inc q : queue_ok q ->
  claim_next_scan_run nulls_first w lease inc q
  = match claim_candidate nulls_first inc q with
    | None => (q, Ret None)
    | Some x => (run_state (take_claim w lease x) q, Ret (Some (claim_run w (Z.max 1 lease) (q_now q) x)))
    end.
Proof.
  intros Hq. unfold claim_next_scan_run, take_claim, py_bind, py_get, py_modify, run_state, py_ret.
  destruct (claim_candidate nulls_first inc q) as [x|] eqn:Ex; [|done].
  apply claim_candidate_spec in Ex as [Hx _]. apply get_run_in in Hx; [|apply (qo_ids _ Hq)].
  cbn [fst]. do 2 f_equal.
  change (get_run (update_run (run_id x) (claim_run w (Z.max 1 lease) (q_now q)) q) (run_id x)
    = Some (claim_run w (Z.max 1 lease) (q_now q) x)). by rewrite get_run_update, Hx.
Qed.

Lemma reaches_claim w lease inc auth q : queue_ok q ->
  reaches (Some w) auth q (run_state (claim_next_scan_run nulls_first w lease inc) q).
Proof.
  intros Hq. unfold claim_next_scan_run, run_state, py_bind at 1, py_get at 1.
  destruct (claim_candidate _ inc q) as [r|] eqn:E; [|by apply reaches_refl].
  apply claim_candidate_spec in E as [Hin Hc].
  apply (reaches_take_claim w lease auth q r); [done| |done]. by apply get_run_in; [apply (qo_ids _ Hq)|].
Qed.

(** *** Maintenance *)

Lemma reaches_recover actor auth limit q : queue_ok q ->
  reaches actor auth q (run_state (recover_stale_scan_runs nulls_first limit) q).
Proof.
  intros Hq. unfold recover_stale_scan_runs, run_state, py_bind, py_get, py_modify, py_ret. cbn [fst].
  unfold stale_runs.
  match goal with |- context [take ?n (sort_by ?le (List.filter ?p _))] =>
    destruct (selection q le p n Hq) as [Hnd Hrows] end.
  apply (reaches_fold actor auth recover_one (recover_run (q_now q)) (q_now q)); [| |done|done|done|].
  - intros q' r Hnow. unfold recover_one. rewrite Hnow. done.
  - intros x. unfold recover_run. by destruct (status x).
  - intros r Hr. destruct (Hrows r Hr) as [Hg Hp]. split; [done|]. apply andb_prop in Hp as [Hs Hl].
    apply m_recover; [|done]. apply orb_prop in Hs as [Hs|Hs]; apply bool_decide_eq_true in Hs; auto.
Qed.

Lemma reaches_sweep actor auth limit reason q : queue_ok q ->
  reaches actor auth q (run_state (sweep_dead_letter_scan_runs limit reason) q).
Proof.
  intros Hq. unfold sweep_dead_letter_scan_runs, run_state, py_bind, py_get, py_modify, py_ret. cbn [fst].
  unfold exhausted_runs.
  match goal with |- context [take ?n (sort_by ?le (List.filter ?p _))] =>
    destruct (selection q le p n Hq) as [Hnd Hrows] end.
  eapply (reaches_fold actor auth _ (dead_letter_run (q_now q) _) (q_now q)); [| |done|done|done|].
  - intros q' r Hnow. unfold sweep_one. rewrite Hnow. done.
  - done.
  - intros r Hr. destruct (Hrows r Hr) as [Hg Hp]. split; [done|]. apply andb_prop in Hp as [Hs Hl].
    apply bool_decide_eq_true in Hs. apply negb_true_iff in Hl. by apply m_dead_letter.
Qed.

Lemma reaches_requeue actor auth limit reason q : queue_ok q ->
  reaches actor auth q (run_state (requeue_dead_letter_scan_runs nulls_first limit reason) q).
Proof.
  intros Hq. unfold requeue_dead_letter_scan_runs, run_state, py_bind, py_get, py_modify, py_ret. cbn [fst].
  unfold dead_by_age.
  match goal with |- context [take ?n (sort_by ?le (List.filter ?p _))] =>
    destruct (selection q le p n Hq) as [Hnd Hrows] end.
  eapply (reaches_fold actor auth _ requeue_run (q_now q)); [| |done|done|done|]; [done|done|].
  intros r Hr. destruct (Hrows r Hr) as [Hg Hp]. split; [done|]. apply bool_decide_eq_true in Hp.
  by apply m_requeue.
Qed.

Lemma reaches_purge actor auth limit older q : queue_ok q ->
  reaches actor auth q (run_state (purge_dead_letter_scan_runs nulls_first limit older) q).
Proof.
  intros Hq. unfold purge_dead_letter_scan_runs, run_state, py_bind, py_get, py_modify, py_ret. cbn [fst].
  split; [done|]. apply rtc_once. unfold dead_by_age.
  match goal with |- context [take ?n (sort_by ?le (List.filter ?p _))] =>
    destruct (selection q le p n Hq) as [Hnd Hrows] end.
  unfold table. cbn [runs q_drawn]. apply ts_purge. intros x Hx Hin.
  apply list_elem_of_In, in_map_iff in Hin as (r & He & Hr). apply list_elem_of_In in Hr.
  destruct (Hrows r Hr) as [Hg Hp]. apply andb_prop in Hp as [Hs _]. apply bool_decide_eq_true in Hs.
  rewrite He in Hg. apply get_run_in in Hx; [|apply (qo_ids _ Hq)]. rewrite Hg in Hx. by injection Hx as <-.
Qed.

(** *** Requests about one run *)

Lemma load_run_eq id q :
  load_run id q = (q, match get_run q id with Some r => Ret r | None => Raise (QValueError (not_found id)) end).
Proof. unfold load_run, py_bind, py_get. by destruct (get_run q id). Qed.

(** Change a row, log it, and return it. *)
Lemma change_state id f kind text meta q :
  run_state (py_modify (update_run id f) ;;; py_modify (append_scan_event id kind text meta) ;;; load_run id)%py q
  = append_scan_event id kind text meta (update_run id f q).
Proof. unfold run_state, py_bind, py_modify. by rewrite load_run_eq. Qed.

(** A request starts by loading the row and checking it. *)
Lemma reaches_load {A} actor auth id (k : scan_run -> M queue_db queue_error A) q :
  (forall r, get_run q id = Some r -> reaches actor auth q (run_state (k r) q)) ->
  reaches actor auth q (run_state (py_bind (load_run id) k) q).
Proof.
  intros Hk. unfold run_state, py_bind. rewrite load_run_eq.
  destruct (get_run q id) as [r|] eqn:E; [by apply Hk|by apply reaches_refl].
Qed.
Lemma reaches_check {A} actor auth b m (k : unit -> M queue_db queue_error A) q :
  (b = true -> reaches actor auth q (run_state (k tt) q)) ->
  reaches actor auth q (run_state (py_bind (check b m) k) q).
Proof.
  intros Hk. unfold run_state, py_bind, check, py_require. destruct b; [by apply Hk|by apply reaches_refl].
Qed.

Lemma reaches_change actor auth id f kind text meta q r : queue_ok q ->
  get_run q id = Some r -> move (q_now q) actor auth r (f r) ->
  reaches actor auth q
    (run_state (py_modify (update_run id f) ;;; py_modify (append_scan_event id kind text meta) ;;; load_run id)%py q).
Proof. intros Hq Hr Hm. rewrite change_state. by eapply (reaches_update _ _ _ _ id f r). Qed.

Lemma reaches_requeue_one actor auth id reason q : queue_ok q ->
  reaches actor auth q (run_state (requeue_dead_letter_scan_run id reason) q).
Proof.
  intros Hq. apply reaches_load. intros r Hr. apply reaches_check. intros Hs%bool_decide_eq_true.
  eapply reaches_change; [done|exact Hr|by apply m_requeue].
Qed.

Lemma reaches_heartbeat w auth id lease q : queue_ok q ->
  reaches (Some w) auth q (run_state (heartbeat_scan_run id w lease) q).
Proof.
  intros Hq. apply reaches_load. intros r Hr. apply reaches_check. intros Hs. apply reaches_check.
  intros Ho%negb_true_iff. eapply reaches_change; [done|exact Hr|]. apply m_heartbeat; [done| |done].
  apply orb_prop in Hs as [Hs|Hs]; apply bool_decide_eq_true in Hs; auto.
Qed.

Lemma reaches_cancel runner auth id reason q : queue_ok q ->
  reaches runner auth q (run_state (cancel_scan_run id runner reason) q).
Proof.
  intros Hq. apply reaches_load. intros r Hr. apply reaches_check.
  intros [Hs Hs']%negb_true_iff%orb_false_elim. apply reaches_check. intros Ho%negb_true_iff.
  apply bool_decide_eq_false in Hs, Hs'. eapply reaches_change; [done|exact Hr|by apply m_cancel].
Qed.

(** *** Execution *)

(** [f] sets [incremental_since_at], to its old value perhaps. *)
Definition resinces (f : scan_run -> scan_run) : Prop := forall x, exists since, f x = since_run since x.
Lemma resinces_id : resinces (fun x => x).
Proof. intros x. exists (incremental_since_at x). by destruct x. Qed.
Lemma resinces_since since : resinces (since_run since).
Proof. intros x. by exists since. Qed.
Lemma resinces_run_id f x : resinces f -> run_id (f x) = run_id x.
Proof. intros Hf. by destruct (Hf x) as [s ->]. Qed.

(** [q'] is [q] with one row changed, as far as the table goes. *)
Definition row_changed (id : string) (f : scan_run -> scan_run) (q q' : queue_db) : Prop :=
  graph_tables q' = graph_tables q /\ table q' = table (update_run id f q).

Lemma row_changed_update id f g q q' : (forall x, run_id (f x) = run_id x) ->
  row_changed id f q q' -> row_changed id (fun x => g (f x)) q (update_run id g q').
Proof.
  intros Hf [Hg Ht]. split; [done|]. rewrite <- (update_twice id f g q Hf). unfold table, update_run in *.
  cbn in *. by injection Ht as -> ->.
Qed.
Lemma row_changed_same id f q q1 q2 : row_changed id f q q1 -> graph_tables q2 = graph_tables q1 ->
  table q2 = table q1 -> row_changed id f q q2.
Proof. intros [Hg Ht] Hg' Ht'. split; congruence. Qed.
Lemma row_changed_get id f q q' : (forall x, run_id (f x) = run_id x) -> row_changed id f q q' ->
  get_run q' id = f <$> get_run q id.
Proof.
  intros Hf [_ Ht]. rewrite <- (get_run_update q id f Hf). unfold get_run, table in *. by injection Ht as -> _.
Qed.
Lemma row_changed_some id f q q' r : (forall x, run_id (f x) = run_id x) -> row_changed id f q q' ->
  get_run q id = Some r -> get_run q' id = Some (f r).
Proof. intros Hf Hq Hr. by rewrite (row_changed_get _ _ _ _ Hf Hq), Hr. Qed.
Lemma row_changed_now id f q q' : row_changed id f q q' -> q_now q' = q_now q.
Proof. intros [Hg _]. unfold q_now. by rewrite Hg. Qed.

Lemma scan_loop_state r ids : forall fault n q,
  graph_tables (run_state (scan_loop r fault ids n) q) = graph_tables q
  /\ table (run_state (scan_loop r fault ids n) q) = table q.
Proof.
  induction ids as [|i ids IH]; intros fault n q; [done|]. unfold run_state in *. cbn [scan_loop].
  destruct fault as [[[|m] msg]|]; [done| |]; unfold py_bind, py_get, py_modify;
    (destruct (finding_of r q i); [|apply IH]);
    (match goal with |- context [scan_loop _ ?ft _ ?k ?s] => destruct (IH ft k s) as [-> ->] end); done.
Qed.

Lemma resolve_incremental_since_state r q : run_state (resolve_incremental_since r) q = q.
Proof.
  unfold resolve_incremental_since, run_state, py_bind, py_get. destruct (negb _); [done|].
  destruct (truthy_str _); [by destruct (get_run _ _)|]. by destruct (incremental_since_at r).
Qed.

(** What the [try] block leaves: the row completed, or an exception. *)
Lemma scan_body_outcome r fault q : exists f, resinces f /\
  match scan_body r fault q with
  | (q', Ret _) => exists total flagged,
      row_changed (run_id r) (fun x => complete_run total flagged (q_now q) (f x)) q q'
  | (q', Raise _) => row_changed (run_id r) f q q'
  end.
Proof.
  unfold scan_body. unfold py_bind at 1. pose proof (resolve_incremental_since_state r q) as Hs.
  unfold run_state in Hs. destruct (resolve_incremental_since r q) as [q1 [since|e]]; cbn in Hs; subst q1.
  2: { exists (fun x => x). split; [apply resinces_id|]. split; [done|].
    unfold table, update_run. cbn. f_equal. symmetry. erewrite map_ext; [apply List.map_id|].
    intros x. by destruct (str_eqb _ _). }
  exists (since_run since). split; [apply resinces_since|].
  unfold py_bind at 1, py_modify at 1. unfold py_bind at 1, py_get at 1. unfold py_bind at 1, py_modify at 1.
  unfold py_bind at 1.
  match goal with |- context [scan_loop r ?ft ?ids ?n ?s] => pose proof (scan_loop_state r ids ft n s) as [Hg Ht];
    unfold run_state in Hg, Ht; destruct (scan_loop r ft ids n s) as [q1 [flagged|e]] end; cbn [fst] in Hg, Ht.
  - eexists _, flagged. unfold py_bind, py_get, py_modify.
    match goal with |- row_changed _ _ _ (append_scan_event _ _ _ _ ?s) =>
      apply (row_changed_same _ _ _ s); [|done|done] end.
    assert (q_now q1 = q_now q) as -> by (unfold q_now; by rewrite Hg).
    apply (row_changed_update _ (since_run since)); [done|]. by split; rewrite ?Hg, ?Ht.
  - by split; rewrite ?Hg, ?Ht.
Qed.

(** An execution that gets past the guards. *)
Lemma execute_outcome id runner w lease force rf fault q r :
  get_run q id = Some r -> execute_guard runner force rf (q_now q) r = Proceed w ->
  exists f, resinces f /\
  match execute_scan_run id runner lease force rf fault q with
  | (q', Ret _) => exists total flagged, row_changed id
      (fun x => complete_run total flagged (q_now q) (f (start_run w lease (q_now q) x))) q q'
  | (q', Raise e) => row_changed id
      (fun x => fail_run (error_text e) (q_now q) (f (start_run w lease (q_now q) x))) q q'
  end.
Proof.
  intros Hr Hg. pose proof (proj2 (get_run_some _ _ _ Hr)) as Hid.
  unfold execute_scan_run. unfold py_bind at 1. rewrite load_run_eq, Hr. unfold py_bind at 1, py_get at 1.
  rewrite Hg. unfold py_bind at 1, py_modify at 1.
  set (start := start_run w lease (q_now q)). set (q1 := update_run id start q).
  assert (get_run q1 id = Some (start r)) as Hr1 by (unfold q1; by rewrite get_run_update, Hr).
  unfold py_bind at 1. rewrite load_run_eq, Hr1. unfold py_bind at 1, py_modify at 1. unfold py_bind at 1, py_try.
  match goal with |- context [scan_body _ _ ?s] => set (q2 := s) end.
  assert (row_changed id start q q2) as Hq2 by done.
  destruct (scan_body_outcome (start r) fault q2) as (f & Hf & Hout). exists f. split; [done|].
  assert (run_id (start r) = id) as Hid' by done. rewrite Hid' in *.
  assert (forall x, run_id (f (start x)) = run_id x) as Hfs by (intros x; by rewrite resinces_run_id).
  destruct (scan_body (start r) fault q2) as [q3 [[]|e]].
  - destruct Hout as (total & flagged & Hq3). rewrite load_run_eq.
    assert (row_changed id (fun x => complete_run total flagged (q_now q) (f (start x))) q q3) as Hall.
    { destruct Hq3 as [G3 T3]. rewrite (row_changed_now _ _ _ _ Hq2) in T3.
      split; [by rewrite G3|]. rewrite T3.
      apply (row_changed_update id start (fun x => complete_run total flagged (q_now q) (f x)) q q2); done. }
    assert (forall x, run_id (complete_run total flagged (q_now q) (f (start x))) = run_id x) as Hfs' by apply Hfs.
    rewrite (row_changed_get _ _ _ _ Hfs' Hall), Hr. by exists total, flagged.
  - unfold scan_failed, py_bind, py_get, py_modify, py_raise. rewrite Hid'.
    match goal with |- row_changed _ _ _ (append_scan_event _ _ _ _ ?s) =>
      apply (row_changed_same _ _ _ s); [|done|done] end.
    assert (row_changed id (fun x => f (start x)) q q3) as Hall.
    { destruct Hout as [G3 T3]. split; [by rewrite G3|]. rewrite T3. by apply row_changed_update. }
    rewrite (row_changed_now _ _ _ _ Hall). by apply (row_changed_update id (fun x => f (start x))).
Qed.

Lemma reaches_row_changed actor auth q q' id f r : queue_ok q -> get_run q id = Some r ->
  move (q_now q) actor auth r (f r) -> row_changed id f q q' -> reaches actor auth q q'.
Proof. intros Hq Hr Hm [Hg Ht]. by eapply reaches_update. Qed.

(** An execution past the guards is one move, whoever may make it. *)
Lemma reaches_proceed actor auth id runner w lease force rf fault q r : queue_ok q ->
  get_run q id = Some r -> execute_guard runner force rf (q_now q) r = Proceed w ->
  may_execute auth actor (q_now q) r w ->
  reaches actor auth q (run_state (execute_scan_run id runner lease force rf fault) q).
Proof.
  intros Hq Hr Hg Hm. destruct (execute_outcome id runner w lease force rf fault q r Hr Hg) as (f & Hf & Hout).
  unfold run_state. destruct (Hf (start_run w lease (q_now q) r)) as [since Hs].
  destruct (execute_scan_run _ _ _ _ _ _ q) as [q' [a|e]]; [destruct Hout as (total & flagged & Hout)|];
    (eapply reaches_row_changed; [done|exact Hr| |exact Hout]; cbn beta; rewrite Hs).
  - by apply m_complete.
  - by apply m_fail.
Qed.

Lemma reaches_execute id runner lease force rf fault q : queue_ok q ->
  reaches runner (Direct force) q (run_state (execute_scan_run id runner lease force rf fault) q).
Proof.
  intros Hq. destruct (get_run q id) as [r|] eqn:Hr.
  2: { unfold execute_scan_run, run_state, py_bind. rewrite load_run_eq, Hr. by apply reaches_refl. }
  destruct (execute_guard runner force rf (q_now q) r) as [msg| |w] eqn:Hg.
  - unfold execute_scan_run, run_state, py_bind, py_get. rewrite load_run_eq, Hr, Hg. by apply reaches_refl.
  - unfold execute_scan_run, run_state, py_bind, py_get. rewrite load_run_eq, Hr, Hg, load_run_eq, Hr.
    by apply reaches_refl.
  - eapply reaches_proceed; [done|exact Hr|exact Hg|]. by exists rf.
Qed.

(** A worker executes the run it has just claimed. *)
Lemma execute_guard_claimed w force now r : status r = CLAIMED -> claimed_by (claim r) = Some w ->
  execute_guard (Some w) force false now r = Proceed (Some w).
Proof.
  intros Hs Hc. unfold execute_guard, has_status, claimed_by_other. rewrite Hs, Hc. cbn.
  rewrite (bool_decide_eq_true_2 (Some w = Some w)), andb_false_r by done.
  rewrite (bool_decide_eq_true_2 (CLAIMED = CLAIMED)) by done. cbn. by destruct (str_eqb w "").
Qed.

Lemma reaches_pull w lease inc force fault q : queue_ok q ->
  reaches (Some w) Worker q (run_state (pull_and_execute_scan_run nulls_first w lease inc force fault) q).
Proof.
  intros Hq. pose proof (reaches_claim w lease inc Worker q Hq) as Hc.
  unfold pull_and_execute_scan_run, run_state. unfold py_bind at 1. unfold run_state in Hc.
  destruct (claim_next_scan_run nulls_first w lease inc q) as [q1 [[r|]|e]] eqn:E; [|exact Hc..].
  eapply reaches_trans; [exact Hc|]. cbn [fst] in Hc.
  assert (queue_ok q1) as Hq1 by (by eapply reaches_ok).
  assert (get_run q1 (run_id r) = Some r /\ status r = CLAIMED /\ claimed_by (claim r) = Some w) as (Hr & Hs & Hw).
  { rewrite claim_outcome in E by done. destruct (claim_candidate nulls_first inc q) as [x|] eqn:Ex; [|done].
    injection E as <- <-. apply claim_candidate_spec in Ex as [Hx _]. apply get_run_in in Hx; [|apply (qo_ids _ Hq)].
    split; [|done]. change (get_run (update_run (run_id x) (claim_run w (Z.max 1 lease) (q_now q)) q) (run_id x)
      = Some (claim_run w (Z.max 1 lease) (q_now q) x)). by rewrite get_run_update, Hx. }
  assert (reaches (Some w) Worker q1 (run_state (execute_scan_run (run_id r) (Some w) lease force false fault) q1)) as He.
  { eapply reaches_proceed; [done|exact Hr|by apply execute_guard_claimed|].
    split; [done|by apply execute_guard_claimed]. }
  unfold py_try, py_bind. unfold run_state in He.
  by destruct (execute_scan_run _ _ _ _ _ _ q1) as [q2 [a|e]].
Qed.

Lemma reaches_tick_loop w lease inc n : forall faults acc q, queue_ok q ->
  reaches (Some w) Worker q (run_state (tick_loop nulls_first n w lease inc faults acc) q).
Proof.
  induction n as [|n IH]; intros faults acc q Hq; [by apply reaches_refl|]. cbn [tick_loop].
  unfold run_state. unfold py_bind at 1.
  pose proof (reaches_pull w lease inc false (default None (head faults)) q Hq) as Hp. unfold run_state in Hp.
  destruct (pull_and_execute_scan_run _ _ _ _ _ _ q) as [q1 [o|e]]; [|done].
  assert (queue_ok q1) as Hq1 by (by eapply reaches_ok).
  destruct o; [exact Hp|..]; (eapply reaches_trans; [exact Hp|]; by apply IH).
Qed.

Lemma reaches_tick w limit jobs lease inc faults q : queue_ok q ->
  reaches (Some w) Worker q
    (run_state (run_scan_queue_maintenance_tick nulls_first w limit jobs lease inc faults) q).
Proof.
  intros Hq. unfold run_scan_queue_maintenance_tick, run_state. unfold py_bind at 1.
  pose proof (reaches_recover (Some w) Worker limit q Hq) as Hr. unfold run_state in Hr.
  destruct (recover_stale_scan_runs nulls_first limit q) as [q1 [ids|e]]; [|done].
  assert (queue_ok q1) as Hq1 by (by eapply reaches_ok). unfold py_bind at 1.
  match goal with |- context [tick_loop nulls_first ?n w lease inc faults [] q1] =>
    pose proof (reaches_tick_loop w lease inc n faults [] q1 Hq1) as Ht; unfold run_state in Ht;
    destruct (tick_loop nulls_first n w lease inc faults [] q1) as [q2 [d|e]] end;
  by eapply reaches_trans.
Qed.

(** A new run waits, and is executed at once unless it is asynchronous. *)
Lemma reaches_batch actor ids async inc base window hops threshold rmax backoff fault q : queue_ok q ->
  reaches actor Creator q
    (run_state (run_batch_scan token ids async inc base window hops threshold rmax backoff fault) q).
Proof.
  intros Hq. unfold run_batch_scan, run_state. unfold py_bind at 1, py_get at 1.
  unfold py_bind at 1, py_modify at 1. unfold py_bind at 1, py_modify at 1.
  set (sp := Spec (token (q_drawn q)) async inc base ((fun l => sorted_set (strip_all l)) <$> ids)
    window hops threshold rmax backoff (q_now q)).
  match goal with |- context [add_run ?x q] => set (r := x) end.
  match goal with |- context [append_scan_event ?i ?k ?t ?m (add_run r q)] =>
    set (q1 := append_scan_event i k t m (add_run r q)) end.
  assert (reaches actor Creator q q1) as Hadd.
  { split; [done|]. apply rtc_once. by apply ts_add. }
  destruct async; [exact Hadd|]. eapply reaches_trans; [exact Hadd|].
  assert (queue_ok q1) as Hq1 by (by eapply reaches_ok).
  assert (get_run q1 (token (q_drawn q)) = Some r) as Hr.
  { apply (get_run_in q1 r); [apply (qo_ids _ Hq1)|]. apply elem_of_app. right. by apply list_elem_of_singleton. }
  apply (reaches_proceed _ _ _ _ None _ _ _ _ _ r); done.
Qed.
End Follows.

(** Who makes the moves of an operation: the runner it names, or anyone. *)
Definition acts_as (op : queue_op) (actor : option string) : Prop :=
  match op with
  | ClaimNext w _ _ | PullExecute w _ _ _ _ | MaintenanceTick w _ _ _ _ _ | Heartbeat _ w _ => actor = Some w
  | CancelScan _ w _ | ExecuteScan _ w _ _ _ _ => actor = w
  | _ => True
  end.
Definition op_authority (op : queue_op) : authority :=
  match op with
  | RunBatchScan _ _ _ _ _ _ _ _ _ _ => Creator
  | ExecuteScan _ _ _ force _ _ => Direct force
  | _ => Worker
  end.

Section Reachable.
Context (nulls_first : bool) (token : nat -> string) (token_inj : forall n n', token n = token n' -> n = n').

Lemma step_reaches actor op q : queue_ok token q -> acts_as op actor ->
  (exists g, op = GraphOp g) \/ reaches token actor (op_authority op) q (queue_step nulls_first token op q).
Proof.
  intros Hq Ha. destruct op; cbn [queue_step acts_as op_authority] in *; [right..|left; by eexists];
    apply reaches_session; try subst actor.
  - by apply reaches_batch.
  - by apply reaches_claim.
  - by apply reaches_recover.
  - by apply reaches_sweep.
  - by apply reaches_requeue_one.
  - by apply reaches_requeue.
  - by apply reaches_purge.
  - by apply reaches_pull.
  - by apply reaches_tick.
  - by apply reaches_heartbeat.
  - by apply reaches_cancel.
  - by apply reaches_execute.
Qed.

Lemma step_follows actor op q : queue_ok token q -> acts_as op actor ->
  rtc (table_step token (q_now q) actor (op_authority op))
    (table q) (table (queue_step nulls_first token op q)).
Proof. intros Hq Ha. destruct (step_reaches actor op q Hq Ha) as [[g ->]|[_ Hr]]; [constructor|done]. Qed.

Lemma acts_as_someone op : exists actor, acts_as op actor.
Proof. destruct op; cbn; (by eexists) || (by exists None). Qed.

Lemma queue_step_ok op q : queue_ok token q -> queue_ok token (queue_step nulls_first token op q).
Proof.
  intros Hq. destruct (acts_as_someone op) as [actor Ha].
  eapply table_steps_ok; [exact token_inj|by apply (step_follows actor op)|done|done|done].
Qed.

Lemma queue_run_ok ops : forall q, queue_ok token q -> queue_ok token (queue_run nulls_first token ops q).
Proof. induction ops as [|op ops IH]; intros q Hq; [done|]. apply IH. by apply queue_step_ok. Qed.

Lemma empty_queue_ok t : queue_ok token (empty_queue t).
Proof. split; [constructor|intros r Hr; by apply not_elem_of_nil in Hr..]. Qed.
Lemma reachable_ok t ops : queue_ok token (queue_run nulls_first token ops (empty_queue t)).
Proof. apply queue_run_ok, empty_queue_ok. Qed.

(** The guards refuse a cancelled run, and one that another runner has claimed. *)
Lemma cancelled_not_executed auth actor now r runner : status r = CANCELLED ->
  ~ may_execute auth actor now r runner.
Proof.
  intros Hs Hm. destruct auth as [| |force]; cbn in Hm; [by destruct Hm; congruence|congruence|].
  destruct Hm as [rf Hm]. unfold execute_guard, has_status in Hm. rewrite Hs in Hm. cbn in Hm.
  by destruct rf.
Qed.
Lemma held_not_executed auth w now r runner : status r = CLAIMED -> truthy_str (Some w) = true ->
  claimed_by_other w r = true -> ~ may_execute auth (Some w) now r runner.
Proof.
  intros Hs Ht Ho Hm.
  assert (forall force rf, execute_guard (Some w) force rf now r <> Proceed runner) as Hg.
  { intros force rf. unfold execute_guard, has_status. rewrite Hs, Ht. change (default "" (Some w)) with w. rewrite Ho.
    rewrite (bool_decide_eq_true_2 (CLAIMED = CLAIMED)) by done. cbn. by destruct rf. }
  destruct auth as [| |force]; unfold may_execute in Hm; [by destruct Hm as [_ Hm%Hg]|congruence|].
  destruct Hm as [rf Hm]. by apply Hg in Hm.
Qed.

(** A row that no move leaves, and that is not dead, stays in the table. *)
Definition row (id : string) (t : list scan_run * nat) : option scan_run :=
  List.find (fun x => str_eqb (run_id x) id) t.1.

Lemma stuck_step now actor auth t t' id r : table_step token now actor auth t t' -> row id t = Some r ->
  status r <> DEAD_LETTER -> (forall r', ~ move now actor auth r r') -> row id t' = Some r.
Proof.
  intros Hs Hr Hd Hm. unfold row in *. destruct Hs as [l n id' x x' Hf Hx|l n x _ _ _ _ _ _ _ _ _ _|l n ids Hp];
    cbn [fst] in *.
  - assert (id <> id') as Hne by (intros ->; rewrite Hr in Hf; injection Hf as <-; by eapply Hm).
    rewrite <- Hr. clear Hr. pose proof (move_id _ _ _ _ _ Hx) as Hid. apply find_some in Hf as [_ He].
    apply bool_decide_eq_true in He. assert (run_id x' = id') as Hx' by (unfold run_id in *; congruence).
    induction l as [|y l IH]; [done|]. cbn. destruct (str_eqb (run_id y) id') eqn:E; [|by rewrite IH].
    apply bool_decide_eq_true in E. rewrite !str_eqb_ne by congruence. done.
  - induction l as [|y l IH]; [done|]. cbn in *. destruct (str_eqb (run_id y) id); [done|auto].
  - assert (str_mem id ids = false) as Hid.
    { destruct (str_mem id ids) eqn:E; [|done]. apply find_some in Hr as [Hin He].
      apply bool_decide_eq_true in He. apply list_elem_of_In in Hin. exfalso. apply Hd, Hp; [done|].
      rewrite He. by apply bool_decide_eq_true in E. }
    clear Hp. induction l as [|y l IH]; [done|]. cbn in *. destruct (str_eqb (run_id y) id) eqn:E.
    + injection Hr as ->. pose proof E as E'. apply bool_decide_eq_true in E'. rewrite E', Hid. cbn. by rewrite E.
    + destruct (negb _); cbn; [by rewrite E, IH|by apply IH].
Qed.

Lemma stuck_steps now actor auth t t' : rtc (table_step token now actor auth) t t' -> forall id r,
  row id t = Some r -> status r <> DEAD_LETTER -> (forall r', ~ move now actor auth r r') -> row id t' = Some r.
Proof. induction 1 as [|t t1 t2 Hs Hr IH]; intros id r Ht Hd Hm; [done|]. eapply IH; [|done..]. by eapply stuck_step. Qed.

(** The row is left by the operation, whoever makes its moves. *)
Lemma stuck_op actor op q id r : queue_ok token q -> acts_as op actor -> get_run q id = Some r ->
  status r <> DEAD_LETTER -> (forall r', ~ move (q_now q) actor (op_authority op) r r') ->
  get_run (queue_step nulls_first token op q) id = Some r.
Proof.
  intros Hq Ha Hr Hd Hm. exact (stuck_steps _ _ _ _ _ (step_follows actor op q Hq Ha) id r Hr Hd Hm).
Qed.

Lemma cancelled_stuck now actor auth r r' : status r = CANCELLED -> ~ move now actor auth r r'.
Proof.
  intros Hs Hm. destruct Hm as [w lease r Ha Hc|r Hs' Hl|reason r Hs' Hr|r Hs'|w lease r Ha Hs' Ho|reason r Hs1 Hs2 Ho
    |runner lease since total flagged r Hg|runner lease since error r Hg]; try congruence.
  - by destruct Hc as [Hc|[[Hc _]|[Hc _]]]; rewrite Hs in Hc.
  - by destruct Hs' as [Hc|Hc]; rewrite Hs in Hc.
  - by destruct Hs' as [Hc|Hc]; rewrite Hs in Hc.
  - by eapply cancelled_not_executed.
  - by eapply cancelled_not_executed.
Qed.

(** A claim whose lease runs, held by [w]. *)
Definition held_by (w : string) (until : datetime) (r : scan_run) : Prop :=
  status r = CLAIMED /\ claimed_by (claim r) = Some w /\ w <> "" /\ lease_expires_at (claim r) = Some until.

Lemma held_stuck now w w' until auth r r' : held_by w until r -> (now < until)%Z -> w' <> "" -> w' <> w ->
  ~ move now (Some w') auth r r'.
Proof.
  intros (Hs & Hc & Hw & Hl) Hlt Hw' Hne Hm.
  assert (lease_over now r = false) as Hover by (unfold lease_over; rewrite Hl; lia).
  assert (truthy_str (Some w') = true) as Ht by (cbn; by rewrite str_eqb_ne).
  assert (claimed_by_other w' r = true) as Hother.
  { unfold claimed_by_other. rewrite Hc. cbn. rewrite str_eqb_ne by done. cbn.
    rewrite bool_decide_eq_false_2; [done|]. congruence. }
  destruct Hm as [x lease r Ha Hcl|r Hs' Hl'|reason r Hs' Hr|r Hs'|x lease r Ha Hs' Ho|reason r Hs1 Hs2 Ho
    |runner lease since total flagged r Hg|runner lease since error r Hg]; try congruence.
  - destruct Hcl as [Hx|[[_ Hx]|[Hx _]]]; congruence.
  - change (default "" (Some w')) with w' in Ho. by rewrite Ht, Hother in Ho.
  - by eapply held_not_executed.
  - by eapply held_not_executed.
Qed.
End Reachable.

(** ** Properties *)

Section Properties.
Context (nulls_first : bool) (token : nat -> string) (token_inj : forall n n', token n = token n' -> n = n').
#[local] Abbreviation Q t ops := (queue_run nulls_first token ops (empty_queue t)).

(** In every reachable state the rows are of the shape the code relies on: one
    row per [scan_id]; none is [RUNNING], as an execution is committed as a
    whole; a claimed run has its claim, lease and heartbeat and a run that is
    neither claimed nor cancelled has none of them; the dead-letter,
    cancellation and completion columns are set exactly in their states; a
    failed run has a retry time exactly when attempts are left. *)
Theorem rows_well_formed t ops :
  NoDup (map run_id (runs (Q t ops))) /\ forall r, r ∈ runs (Q t ops) -> row_ok r.
Proof. destruct (reachable_ok nulls_first token token_inj t ops) as [Hids Hrows _]. done. Qed.

(** C32. The queue refines the abstract table of guarded moves: whatever an
    operation does, with its loops, its rollback and its nested execution, is a
    sequence of steps in which one row makes a move the abstract queue allows to
    the runner the operation names, a waiting run is added under a new id, or
    dead-lettered runs are removed. *)
Theorem queue_refines_moves t ops op actor : acts_as op actor ->
  rtc (table_step token (q_now (Q t ops)) actor (op_authority op))
    (table (Q t ops)) (table (queue_step nulls_first token op (Q t ops))).
Proof. apply step_follows; [done|]. by apply reachable_ok. Qed.

(** A cancelled run stays as it is through every later operation, forced
    executions and purges included. *)
Theorem cancelled_is_final t ops later id r : get_run (Q t ops) id = Some r -> status r = CANCELLED ->
  get_run (queue_run nulls_first token later (Q t ops)) id = Some r.
Proof.
  intros Hr Hs. pose proof (reachable_ok nulls_first token token_inj t ops) as Hq. revert Hq Hr.
  generalize (Q t ops). induction later as [|op later IH]; intros q Hq Hr; [done|].
  apply IH; [by apply queue_step_ok|]. destruct (acts_as_someone op) as [actor Ha].
  apply (stuck_op _ _ token_inj actor); [done..|congruence|]. intros r'. by apply cancelled_stuck.
Qed.

(** The operation names another runner than [w], or none is needed; the clock
    does not reach [until]. *)
Definition others (w : string) (until : datetime) (op : queue_op) : Prop :=
  match op with
  | ClaimNext w' _ _ | PullExecute w' _ _ _ _ | MaintenanceTick w' _ _ _ _ _ | Heartbeat _ w' _ =>
      w' <> "" /\ w' <> w
  | CancelScan _ w' _ | ExecuteScan _ w' _ _ _ _ => exists x, w' = Some x /\ x <> "" /\ x <> w
  | GraphOp (GraphClock now) => (now < until)%Z
  | _ => True
  end.

Lemma others_actor w until op : w <> "" -> others w until op ->
  exists x, acts_as op (Some x) /\ x <> "" /\ x <> w.
Proof.
  intros Hw Ho. assert (exists x, x <> "" /\ x <> w) as (x & Hx & Hxw).
  { exists (w ++ "'"). split; destruct w as [|a w]; [done..|]. intros He. injection He as He. clear - He.
    induction w as [|b w IH]; [done|]. injection He as He. by apply IH. }
  destruct op; cbn in *; try (by exists x); try (by eexists); by destruct Ho as (y & -> & Hy); exists y.
Qed.

Lemma others_now w until op q : others w until op -> queue_ok token q -> (q_now q < until)%Z ->
  (q_now (queue_step nulls_first token op q) < until)%Z.
Proof.
  intros Ho Hq Hlt. destruct (acts_as_someone op) as [actor Ha].
  destruct (step_reaches nulls_first token token_inj actor op q Hq Ha) as [[g ->]|[Hg _]].
  - cbn. destruct g as [src tgt kind task voucher meta|d]; [|exact Ho]. cbn. unfold run_state, q_now. cbn.
    pose proof (ingest_cases src tgt kind task voucher meta (graph_tables q)) as Hi. cbv zeta in Hi.
    destruct (ingest_edge _ _ _ _ _ _ _) as [g' o]. cbn [fst].
    by destruct Hi as [(row & _ & _ & -> & _)|[(_ & -> & _)|(_ & _ & -> & _)]].
  - unfold q_now. by rewrite Hg.
Qed.

(** A lease protects its holder: while the clock has not reached the lease's
    end, no operation of another runner, forced or not, and no maintenance
    changes the row. *)
Theorem lease_protects t ops later id r w until :
  get_run (Q t ops) id = Some r -> held_by w until r -> (q_now (Q t ops) < until)%Z ->
  Forall (others w until) later ->
  get_run (queue_run nulls_first token later (Q t ops)) id = Some r.
Proof.
  intros Hr Hh Hlt Hl. pose proof (reachable_ok nulls_first token token_inj t ops) as Hq. revert Hq Hr Hlt.
  generalize (Q t ops). induction Hl as [|op later Ho Hl IH]; intros q Hq Hr Hlt; [done|].
  apply IH; [by apply queue_step_ok| |by apply (others_now w)].
  pose proof Hh as (Hs & _ & Hw & _). destruct (others_actor w until op Hw Ho) as (x & Ha & Hx & Hxw).
  apply (stuck_op _ _ token_inj (Some x)); [done..|congruence|]. intros r'. by apply (held_stuck _ w x until).
Qed.

(** Attempts are counted up to the limit, of one at least. *)
Definition attempts_ok (r : scan_run) : Prop :=
  (current_attempt r <= Z.max 1 (retry_max_attempts (spec r)))%Z
  /\ (status r = PENDING \/ status r = CLAIMED ->
      (current_attempt r < Z.max 1 (retry_max_attempts (spec r)))%Z).

Lemma move_attempts now actor auth r r' : auth = Worker \/ auth = Creator -> attempts_ok r ->
  move now actor auth r r' -> attempts_ok r'.
Proof.
  intros Hauth [Hle Hlt] Hm.
  assert (forall w, may_execute auth actor now r w -> status r = PENDING \/ status r = CLAIMED) as Hexec.
  { intros w Hw. destruct Hauth as [->| ->]; cbn in Hw; [right; apply Hw|by left]. }
  destruct Hm as [w lease r Ha Hc|r Hs Hl|reason r Hs Hr|r Hs|w lease r Ha Hs Ho|reason r Hs Hs' Ho
    |runner lease since total flagged r Hg|runner lease since error r Hg]; split; cbn; try lia.
  - intros _. destruct Hc as [Hc|[[Hc _]|[_ [Hr _]]]]; [auto..|]. unfold retriable in Hr. lia.
  - unfold recover_run. by destruct (status r).
  - unfold recover_run. destruct (status r) eqn:E; cbn; rewrite ?E; auto; intros [?|?]; done.
  - by intros [?|?].
  - intros [Hc|Hc]; rewrite Hc in Hs; destruct Hs; try done. auto.
  - by intros [?|?].
  - apply Hexec, Hlt in Hg. lia.
  - by intros [?|?].
  - apply Hexec, Hlt in Hg. lia.
  - by intros [?|?].
Qed.

Lemma steps_attempts now actor auth t t' : auth = Worker \/ auth = Creator ->
  rtc (table_step token now actor auth) t t' -> (forall r, r ∈ t.1 -> attempts_ok r) ->
  forall r, r ∈ t'.1 -> attempts_ok r.
Proof.
  intros Hauth. induction 1 as [|t t1 t2 Hs Hr IH]; intros Hok; [done|]. apply IH. clear Hr IH.
  destruct Hs as [l n id x x' Hf Hx|l n x _ Hs Ha|l n ids Hp]; cbn [fst] in *; intros r Hr.
  - apply list_elem_of_In, in_map_iff in Hr as (y & <- & Hy). apply list_elem_of_In in Hy.
    destruct (str_eqb _ _); [|auto]. apply find_some in Hf as [Hin _]. apply list_elem_of_In in Hin.
    eapply move_attempts; [done| |exact Hx]. auto.
  - apply elem_of_app in Hr as [Hr| ->%list_elem_of_singleton]; [auto|]. split; rewrite Ha; lia.
  - apply list_elem_of_In, filter_In in Hr as [Hr _]. apply Hok. by apply list_elem_of_In.
Qed.

Definition by_hand (op : queue_op) : bool := match op with ExecuteScan _ _ _ _ _ _ => true | _ => false end.

(** Without executions requested by hand, no run is tried more often than its
    retry limit, or once for a limit below one, since it was created or last
    requeued, whatever claims, failures, lease expiries and ticks happen. *)
Theorem attempts_bounded t ops r :
  Forall (fun op => by_hand op = false) ops -> r ∈ runs (Q t ops) ->
  (0 <= current_attempt r <= Z.max 1 (retry_max_attempts (spec r)))%Z.
Proof.
  intros Hops Hr. pose proof (reachable_ok nulls_first token token_inj t ops) as Hq.
  split; [by apply ro_attempts, (qo_rows _ _ Hq)|].
  cut (forall r, r ∈ runs (Q t ops) -> attempts_ok r); [intros H; by apply H|]. clear r Hr Hq.
  assert (queue_ok token (empty_queue t)) as Hq by apply empty_queue_ok.
  assert (forall r, r ∈ runs (empty_queue t) -> attempts_ok r) as Hok by (intros r Hr; by apply not_elem_of_nil in Hr).
  revert Hq Hok. generalize (empty_queue t). induction Hops as [|op ops Hop Hops IH]; intros q Hq Hok; [done|].
  apply IH; [by apply queue_step_ok|]. destruct (acts_as_someone op) as [actor Ha].
  assert (op_authority op = Worker \/ op_authority op = Creator) as Hauth.
  { destruct op; cbn; auto. discriminate Hop. }
  apply (steps_attempts (q_now q) actor (op_authority op) (table q) (table (queue_step nulls_first token op q)));
    [done| |done].
  by apply step_follows.
Qed.

(** The runs a worker may claim now, failed ones where it asks for them. *)
Definition offered (include_failed : bool) (now : datetime) (r : scan_run) : Prop :=
  claimable now r /\ (status r = FAILED -> include_failed = true).
(** Waiting runs by age, then expired claims, then due retries. *)
Definition claimed_before (x y : scan_run) : Prop :=
  match status x, status y with
  | PENDING, PENDING => (created_at (spec x) <= created_at (spec y))%Z
  | PENDING, _ => True
  | CLAIMED, CLAIMED => forall a b, lease_expires_at (claim x) = Some a -> lease_expires_at (claim y) = Some b -> (a <= b)%Z
  | CLAIMED, FAILED => True
  | FAILED, FAILED => forall a b, next_retry_at x = Some a -> next_retry_at y = Some b ->
      (a < b \/ (a = b /\ created_at (spec x) <= created_at (spec y)))%Z
  | _, _ => False
  end.

Lemma selected_head (le : scan_run -> scan_run -> bool) p l x rest :
  (forall x y, le x y = true \/ le y x = true) ->
  (forall x y z, le x y = true -> le y z = true -> le x z = true) ->
  sort_by le (List.filter p l) = x :: rest ->
  x ∈ l /\ p x = true /\ forall y, y ∈ l -> p y = true -> le x y = true.
Proof.
  intros Htot Htr E. assert (x ∈ sort_by le (List.filter p l)) as Hx by (rewrite E; by left).
  rewrite elem_of_sort_by in Hx. apply list_elem_of_In, filter_In in Hx as [Hx Hp]. rewrite list_elem_of_In.
  split_and!; [done..|]. intros y Hy Hpy.
  destruct (sort_by_head le Htot Htr x _ _ E y) as [H| ->]; [|done|by destruct (Htot y y)].
  apply list_elem_of_In, filter_In. by rewrite <- list_elem_of_In.
Qed.
Lemma selected_none (le : scan_run -> scan_run -> bool) p l y : sort_by le (List.filter p l) = [] -> y ∈ l -> p y = false.
Proof.
  intros E Hy. apply sort_by_nil in E. destruct (p y) eqn:Hp; [|done].
  assert (List.In y (List.filter p l)) as Hin by (apply filter_In; by rewrite <- list_elem_of_In).
  by rewrite E in Hin.
Qed.

Lemma opt_asc_total {A} (f : A -> option Z) x y :
  opt_asc nulls_first f x y = true \/ opt_asc nulls_first f y x = true.
Proof. unfold opt_asc. destruct (f x), (f y), nulls_first; cbn; auto; lia. Qed.
Lemma opt_asc_trans {A} (f : A -> option Z) x y z :
  opt_asc nulls_first f x y = true -> opt_asc nulls_first f y z = true -> opt_asc nulls_first f x z = true.
Proof. unfold opt_asc. destruct (f x), (f y), (f z), nulls_first; cbn; auto; try done; lia. Qed.
Lemma then_by_total {A} (le le' : A -> A -> bool) x y :
  (forall x y, le x y = true \/ le y x = true) -> (forall x y, le' x y = true \/ le' y x = true) ->
  then_by le le' x y = true \/ then_by le le' y x = true.
Proof.
  intros H H'. unfold then_by. pose proof (H x y) as Hx. pose proof (H' x y) as Hx'.
  destruct (le x y), (le y x), (le' x y), (le' y x); cbn; tauto.
Qed.
Lemma then_by_trans {A} (le le' : A -> A -> bool) x y z :
  (forall x y z, le x y = true -> le y z = true -> le x z = true) ->
  (forall x y z, le' x y = true -> le' y z = true -> le' x z = true) ->
  then_by le le' x y = true -> then_by le le' y z = true -> then_by le le' x z = true.
Proof.
  intros H H' [H1 H2]%andb_prop [H3 H4]%andb_prop. unfold then_by. rewrite (H x y z H1 H3). cbn.
  destruct (le z x) eqn:E; [|done]. cbn. rewrite (H y z x) in H2 by done. rewrite (H z x y) in H4 by done. by apply (H' x y z).
Qed.

(** The three selections of [claim_candidate], with what they pass over. *)
Lemma claim_candidate_min inc q x : (forall r, r ∈ runs q -> row_ok r) ->
  claim_candidate nulls_first inc q = Some x ->
  forall y, y ∈ runs q -> offered inc (q_now q) y -> claimed_before x y.
Proof.
  intros Hok. unfold claim_candidate, claimed_before.
  destruct (sort_by _ (List.filter (has_status PENDING) _)) as [|a l] eqn:E1.
  2: { intros [= <-] y Hy _. apply selected_head in E1 as (_ & Hp%bool_decide_eq_true & Hmin);
         [|apply asc_total|apply asc_trans]. rewrite Hp. destruct (status y) eqn:Es; try done.
       assert (has_status PENDING y = true) as Hpy by (by apply bool_decide_eq_true_2).
       specialize (Hmin y Hy Hpy). unfold asc_by in Hmin. lia. }
  assert (forall y, y ∈ runs q -> status y <> PENDING) as Hnp.
  { intros y Hy. apply (selected_none _ _ _ _ E1) in Hy. by apply bool_decide_eq_false in Hy. }
  destruct (sort_by _ (List.filter (fun r => has_status CLAIMED r && _) _)) as [|a l] eqn:E2.
  2: { intros [= <-] y Hy [Hc _]. apply selected_head in E2 as (_ & Hp & Hmin);
         [|apply opt_asc_total|apply opt_asc_trans].
       apply andb_prop in Hp as [Hp%bool_decide_eq_true _]. rewrite Hp.
       destruct Hc as [Hc|[[Hc Hl]|[Hc _]]]; [by apply Hnp in Hc| |by rewrite Hc]. rewrite Hc.
       assert (has_status CLAIMED y && lease_over (q_now q) y = true) as Hpy
         by (unfold has_status; by rewrite bool_decide_eq_true_2, Hl).
       specialize (Hmin y Hy Hpy). unfold opt_asc in Hmin. intros u v Hu Hv. rewrite Hu, Hv in Hmin. lia. }
  destruct inc; [|done].
  destruct (sort_by _ (List.filter (fun r => has_status FAILED r && _) _)) as [|a l] eqn:E3; [done|].
  destruct (match next_retry_at a with Some _ => _ | None => _ end); [done|]. intros [= <-] y Hy [Hc _].
  apply selected_head in E3 as (_ & Hp & Hmin).
  2: intros; apply then_by_total; [apply opt_asc_total|apply asc_total].
  2: intros ???; apply then_by_trans; [apply opt_asc_trans|apply asc_trans].
  apply andb_prop in Hp as [Hp%bool_decide_eq_true _]. rewrite Hp.
  destruct Hc as [Hc|[[Hc Hl]|[Hc [Hr _]]]]; [by apply Hnp in Hc| |].
  { pose proof (selected_none _ _ _ _ E2 Hy) as Hn. unfold has_status in Hn.
    by rewrite bool_decide_eq_true_2, Hl in Hn. }
  rewrite Hc. assert (has_status FAILED y && retriable y = true) as Hpy
    by (unfold has_status; by rewrite bool_decide_eq_true_2, Hr).
  specialize (Hmin y Hy Hpy). unfold then_by, opt_asc, asc_by in Hmin. intros u v Hu Hv. rewrite Hu, Hv in Hmin. lia.
Qed.

Lemma claim_candidate_none inc q : (forall r, r ∈ runs q -> row_ok r) ->
  claim_candidate nulls_first inc q = None -> forall y, y ∈ runs q -> ~ offered inc (q_now q) y.
Proof.
  intros Hok. unfold claim_candidate.
  destruct (sort_by _ (List.filter (has_status PENDING) _)) as [|a l] eqn:E1; [|done].
  destruct (sort_by _ (List.filter (fun r => has_status CLAIMED r && _) _)) as [|a l] eqn:E2; [|done].
  intros E3 y Hy [[Hc|[[Hc Hl]|[Hc [Hr Hd]]]] Hinc].
  - pose proof (selected_none _ _ _ _ E1 Hy) as Hn. by apply bool_decide_eq_false in Hn.
  - pose proof (selected_none _ _ _ _ E2 Hy) as Hn. unfold has_status in Hn.
    by rewrite bool_decide_eq_true_2, Hl in Hn.
  - rewrite Hinc in E3 by done.
    assert (has_status FAILED y && retriable y = true) as Hpy
      by (unfold has_status; by rewrite bool_decide_eq_true_2, Hr).
    destruct (sort_by _ (List.filter (fun r => has_status FAILED r && _) _)) as [|a l] eqn:E4.
    { pose proof (selected_none _ _ _ _ E4 Hy) as Hn. cbn beta in Hn. congruence. }
    apply selected_head in E4 as (_ & _ & Hmin).
    2: intros; apply then_by_total; [apply opt_asc_total|apply asc_total].
    2: intros ???; apply then_by_trans; [apply opt_asc_trans|apply asc_trans].
    specialize (Hmin y Hy Hpy). unfold then_by, opt_asc, asc_by in Hmin.
    destruct (ro_retry y (Hok y Hy) Hc) as [_ Hsome]. destruct (Hsome Hr) as [v Hv]. specialize (Hd v Hv).
    rewrite Hv in Hmin. destruct (next_retry_at a) as [u|]; [|done].
    destruct (q_now q <? u)%Z eqn:Eu; [|done]. lia.
Qed.

(** A claim is exact: it returns nothing, and changes nothing, exactly when no
    run is offered; otherwise it claims an offered run that comes first among
    them (waiting runs by age, then expired claims by the end of their lease,
    then due retries by their time), giving it to the runner with a full lease,
    and leaves every other row as it is. *)
Theorem claim_exact t ops w lease inc :
  let q := Q t ops in
  match claim_next_scan_run nulls_first w lease inc q with
  | (q', Ret None) => q' = q /\ forall y, y ∈ runs q -> ~ offered inc (q_now q) y
  | (q', Ret (Some r')) => exists x, x ∈ runs q /\ offered inc (q_now q) x
      /\ (forall y, y ∈ runs q -> offered inc (q_now q) y -> claimed_before x y)
      /\ r' = claim_run w lease (q_now q) x /\ get_run q' (run_id x) = Some r'
      /\ (forall id, id <> run_id x -> get_run q' id = get_run q id)
      /\ findings q' = findings q
      /\ exists e, events q' = (events q ++ [e])%list /\ ev_scan_id e = run_id x /\ ev_type e = EV_CLAIMED
  | (_, Raise _) => False
  end.
Proof.
  intros q. pose proof (reachable_ok nulls_first token token_inj t ops) as Hq. fold q in Hq.
  rewrite (claim_outcome nulls_first token) by done.
  destruct (claim_candidate nulls_first inc q) as [x|] eqn:E.
  2: { split; [done|]. apply claim_candidate_none; [apply (qo_rows _ _ Hq)|done]. }
  pose proof (claim_candidate_min inc q x (qo_rows _ _ Hq) E) as Hmin.
  pose proof (claim_candidate_spec nulls_first inc q x E) as [Hin Hc].
  pose proof (get_run_in q x (qo_ids _ _ Hq) Hin) as Hx.
  assert (claim_run w (Z.max 1 lease) (q_now q) x = claim_run w lease (q_now q) x) as Hl
    by (unfold claim_run; by rewrite Z.max_assoc).
  exists x. split_and!; try done; try (by eexists).
  - split; [done|]. intros Hs. revert E. unfold claim_candidate.
    destruct (sort_by _ (List.filter (has_status PENDING) _)) as [|a l] eqn:E1.
    2: { intros [= <-]. apply selected_head in E1 as (_ & Hp%bool_decide_eq_true & _);
         [congruence|apply asc_total|apply asc_trans]. }
    destruct (sort_by _ (List.filter (fun r => has_status CLAIMED r && _) _)) as [|a l] eqn:E2.
    2: { intros [= <-]. apply selected_head in E2 as (_ & Hp & _); [|apply opt_asc_total|apply opt_asc_trans].
         apply andb_prop in Hp as [Hp%bool_decide_eq_true _]. congruence. }
    by destruct inc.
  - change (get_run (update_run (run_id x) (claim_run w (Z.max 1 lease) (q_now q)) q) (run_id x)
      = Some (claim_run w (Z.max 1 lease) (q_now q) x)). by rewrite get_run_update, Hx.
  - intros id Hne. change (get_run (update_run (run_id x) (claim_run w (Z.max 1 lease) (q_now q)) q) id = get_run q id).
    by apply get_run_update_ne.
Qed.

(** What an execution leaves.  A worker's pull is idle exactly when no run is
    offered; otherwise the run it claimed ends completed, or failed with the
    error and, while attempts are left, a retry after the back-off times the
    attempt, the attempt being counted and the claim given back in both cases.
    An execution requested by hand that fails leaves nothing at all: the request
    raises and its session is rolled back, the attempt and the error with it. *)
Theorem execution_outcomes t ops w lease inc force fault :
  let q := Q t ops in
  (match pull_and_execute_scan_run nulls_first w lease inc force fault q with
   | (q', Ret Idle) => q' = q /\ forall y, y ∈ runs q -> ~ offered inc (q_now q) y
   | (q', Ret (PulledOk id)) => exists x r', get_run q id = Some x /\ claimable (q_now q) x
       /\ get_run q' id = Some r' /\ status r' = COMPLETED /\ completed_at r' = Some (q_now q)
       /\ current_attempt r' = (current_attempt x + 1)%Z /\ claim r' = no_claim
   | (q', Ret (PulledFailed id msg)) => exists x r', get_run q id = Some x /\ claimable (q_now q) x
       /\ get_run q' id = Some r' /\ status r' = FAILED /\ last_error r' = Some msg
       /\ current_attempt r' = (current_attempt x + 1)%Z /\ claim r' = no_claim
       /\ next_retry_at r' = if (current_attempt x + 1 <? retry_max_attempts (spec x))%Z
            then Some (q_now q + seconds (Z.max 1 (retry_backoff_seconds (spec x)) * (current_attempt x + 1)))%Z
            else None
   | (_, Raise _) => False
   end)
  /\ forall id runner e, (execute_scan_run id runner lease force false fault q).2 = Raise e ->
       queue_step nulls_first token (ExecuteScan id runner lease force false fault) q = q.
Proof.
  intros q. split.
  2: { intros id runner e He. cbn [queue_step]. unfold run_state, get_session.
       by destruct (execute_scan_run _ _ _ _ _ _ q) as [q' [a|e']]. }
  pose proof (reachable_ok nulls_first token token_inj t ops) as Hq. fold q in Hq.
  unfold pull_and_execute_scan_run. unfold py_bind at 1. rewrite (claim_outcome nulls_first token) by done.
  destruct (claim_candidate nulls_first inc q) as [x|] eqn:E.
  2: { split; [done|]. apply claim_candidate_none; [apply (qo_rows _ _ Hq)|done]. }
  pose proof (claim_candidate_spec nulls_first inc q x E) as [Hin Hc].
  pose proof (get_run_in q x (qo_ids _ _ Hq) Hin) as Hx.
  set (r := claim_run w (Z.max 1 lease) (q_now q) x). set (q1 := run_state (take_claim w lease x) q).
  assert (get_run q1 (run_id x) = Some r) as Hr.
  { change (get_run (update_run (run_id x) (claim_run w (Z.max 1 lease) (q_now q)) q) (run_id x) = Some r).
    by rewrite get_run_update, Hx. }
  change (run_id r) with (run_id x).
  destruct (execute_outcome (run_id x) (Some w) (Some w) lease force false fault q1 r Hr) as (f & Hf & Hout).
  { by apply execute_guard_claimed. }
  change (q_now q1) with (q_now q) in Hout. unfold py_try, py_bind, py_ret.
  destruct (Hf (start_run (Some w) lease (q_now q) r)) as [since Hs].
  destruct (execute_scan_run _ _ _ _ _ _ q1) as [q2 [a|e]].
  - destruct Hout as (total & flagged & Hq2). eexists x, _. split_and!; [done..| | | | |].
    { eapply row_changed_some; [|exact Hq2|exact Hr]. intros y. apply (resinces_run_id f (start_run _ _ _ y) Hf). }
    all: cbn beta; rewrite ?Hs; done.
  - eexists x, _. split_and!; [done..| | | | | |].
    { eapply row_changed_some; [|exact Hout|exact Hr]. intros y. apply (resinces_run_id f (start_run _ _ _ y) Hf). }
    all: cbn beta; rewrite ?Hs; done.
Qed.
End Properties.

(** ** Witnesses and examples *)

Section Witness.
Fixpoint w_token (n : nat) : string := match n with O => "s" | S n => String "n" (w_token n) end.
Lemma w_token_inj n n' : w_token n = w_token n' -> n = n'.
Proof. revert n'. induction n as [|n IH]; intros [|n'] E; try done. injection E as E. f_equal. by apply IH. Qed.

(** A run that is claimed, one that fails for want of its base scan, one cancelled. *)
Definition w_new (inc : bool) (base : option string) : queue_op :=
  RunBatchScan (Some ["alice"]) true inc base 24 3 fzero 2 60 None.
Definition w_ops : list queue_op :=
  [w_new false None; w_new true (Some "gone"); w_new false None;
   CancelScan "nns" None None; ClaimNext "w1" 300 true; PullExecute "w2" 300 true false None].
#[local] Abbreviation w_q ops := (queue_run false w_token ops (empty_queue 1000)).

Example w_statuses : map (fun r => (run_id r, status r, current_attempt r)) (runs (w_q w_ops))
  = [("s", CLAIMED, 0%Z); ("ns", FAILED, 1%Z); ("nns", CANCELLED, 0%Z)].
Proof. vm_compute. reflexivity. Qed.

Lemma rows_well_formed_witness :
  length (runs (w_q w_ops)) = 3 /\ NoDup (map run_id (runs (w_q w_ops))) /\ forall r, r ∈ runs (w_q w_ops) -> row_ok r.
Proof. split; [vm_compute; reflexivity|exact (rows_well_formed false w_token w_token_inj 1000 w_ops)]. Defined.

Lemma queue_refines_moves_witness :
  let op := PullExecute "w2" 300 true false None in
  runs (queue_step false w_token op (w_q (take 5 w_ops))) <> runs (w_q (take 5 w_ops))
  /\ rtc (table_step w_token (q_now (w_q (take 5 w_ops))) (Some "w2") Worker)
       (table (w_q (take 5 w_ops))) (table (queue_step false w_token op (w_q (take 5 w_ops)))).
Proof.
  split.
  - intros E. apply (f_equal (map current_attempt)) in E. vm_compute in E. discriminate E.
  - exact (queue_refines_moves false w_token w_token_inj 1000 (take 5 w_ops) (PullExecute "w2" 300 true false None) (Some "w2") eq_refl).
Defined.

Lemma cancelled_is_final_witness : exists r, get_run (w_q w_ops) "nns" = Some r /\ status r = CANCELLED
  /\ get_run (queue_run false w_token
       [ExecuteScan "nns" None 300 true false None; PurgeDead 10 1; ClaimNext "w" 300 true] (w_q w_ops)) "nns" = Some r.
Proof.
  assert (option_map status (get_run (w_q w_ops) "nns") = Some CANCELLED) as Hs by (vm_compute; reflexivity).
  destruct (get_run (w_q w_ops) "nns") as [r|] eqn:E; [|discriminate Hs]. injection Hs as Hs.
  exists r. split; [reflexivity|]. split; [exact Hs|].
  apply (cancelled_is_final false w_token w_token_inj 1000 w_ops); [exact E|exact Hs].
Defined.

Lemma lease_protects_witness : exists r until, get_run (w_q w_ops) "s" = Some r /\ held_by "w1" until r
  /\ get_run (queue_run false w_token
       [PullExecute "w2" 300 true true None; GraphOp (GraphClock 2000); RecoverStale 10;
        CancelScan "s" (Some "w2") None; ExecuteScan "s" (Some "w3") 300 true false None] (w_q w_ops)) "s" = Some r.
Proof.
  assert (option_map (fun r => (status r, claimed_by (claim r), lease_expires_at (claim r))) (get_run (w_q w_ops) "s")
    = Some (CLAIMED, Some "w1", Some (1000 + seconds 300)%Z)) as Hs by (vm_compute; reflexivity).
  destruct (get_run (w_q w_ops) "s") as [r|] eqn:E; [|discriminate Hs]. injection Hs as H1 H2 H3.
  assert (held_by "w1" (1000 + seconds 300) r) as Hh by (repeat split; [exact H1|exact H2|discriminate|exact H3]).
  exists r, (1000 + seconds 300)%Z. split; [reflexivity|]. split; [exact Hh|].
  apply (lease_protects false w_token w_token_inj 1000 w_ops _ "s" r "w1" (1000 + seconds 300)%Z E Hh).
  - vm_compute. reflexivity.
  - repeat constructor; cbn; try discriminate; try (eexists; repeat split; discriminate).
Defined.

Lemma attempts_bounded_witness : exists r, r ∈ runs (w_q w_ops) /\ current_attempt r = 1%Z
  /\ (current_attempt r <= Z.max 1 (retry_max_attempts (spec r)))%Z.
Proof.
  assert (option_map current_attempt (get_run (w_q w_ops) "ns") = Some 1%Z) as Hs by (vm_compute; reflexivity).
  destruct (get_run (w_q w_ops) "ns") as [r|] eqn:E; [|discriminate Hs]. injection Hs as Hs.
  apply get_run_some in E as [Hin _]. exists r. split; [exact Hin|]. split; [exact Hs|].
  apply (attempts_bounded false w_token w_token_inj 1000 w_ops r); [|exact Hin]. repeat constructor.
Defined.

Lemma claim_exact_witness : exists r', (claim_next_scan_run false "w2" 300 true (w_q (take 4 w_ops))).2 = Ret (Some r')
  /\ exists x, x ∈ runs (w_q (take 4 w_ops)) /\ r' = claim_run "w2" 300 (q_now (w_q (take 4 w_ops))) x
  /\ forall y, y ∈ runs (w_q (take 4 w_ops)) -> offered true (q_now (w_q (take 4 w_ops))) y -> claimed_before x y.
Proof.
  pose proof (claim_exact false w_token w_token_inj 1000 (take 4 w_ops) "w2" 300 true) as H. cbv zeta in H.
  assert (match (claim_next_scan_run false "w2" 300 true (w_q (take 4 w_ops))).2 with
    | Ret (Some _) => true | _ => false end = true) as Hr by (vm_compute; reflexivity).
  destruct (claim_next_scan_run false "w2" 300 true _) as [q' [[r'|]|e]]; [clear Hr|discriminate Hr..].
  destruct H as (x & Hx & _ & Hmin & Hr' & _). exists r'. split; [reflexivity|]. exists x.
  split; [exact Hx|]. split; [exact Hr'|exact Hmin].
Defined.

Lemma execution_outcomes_witness :
  let q := w_q (take 5 w_ops) in
  exists id msg x r', (pull_and_execute_scan_run false "w2" 300 true false None q).2 = Ret (PulledFailed id msg)
  /\ get_run q id = Some x /\ get_run (run_state (pull_and_execute_scan_run false "w2" 300 true false None) q) id = Some r'
  /\ status r' = FAILED /\ current_attempt r' = (current_attempt x + 1)%Z.
Proof.
  intros q. destruct (execution_outcomes false w_token w_token_inj 1000 (take 5 w_ops) "w2" 300 true false None) as [H _].
  assert (match (pull_and_execute_scan_run false "w2" 300 true false None q).2 with
    | Ret (PulledFailed _ _) => true | _ => false end = true) as Hr by (vm_compute; reflexivity).
  unfold run_state, q in *.
  destruct (pull_and_execute_scan_run false "w2" 300 true false None _) as [q' [[|id|id msg]|e]];
    [discriminate Hr..|clear Hr|discriminate Hr].
  destruct H as (x & r' & Hx & _ & Hr' & Hs & _ & Ha & _). exists id, msg, x, r'.
  split; [reflexivity|]. split; [exact Hx|]. split; [exact Hr'|]. split; [exact Hs|exact Ha].
Defined.

(** A failing request may be repeated for ever: the attempt is never counted,
    while two pulls of the same run use its attempts up. *)
Example failing_request_uncounted : forall n,
  runs (queue_run false w_token (repeat (ExecuteScan "ns" None 300 false false None) n) (w_q (take 3 w_ops)))
  = runs (w_q (take 3 w_ops)).
Proof.
  induction n as [|n IH]; [reflexivity|]. set (op := ExecuteScan "ns" None 300 false false None) in *.
  change (runs (queue_run false w_token (repeat op n) (queue_step false w_token op (w_q (take 3 w_ops))))
    = runs (w_q (take 3 w_ops))).
  assert (queue_step false w_token op (w_q (take 3 w_ops))
    = w_q (take 3 w_ops)) as -> by (vm_compute; reflexivity). exact IH.
Qed.

(** A dead-lettered run is executed, past its limit, without being requeued. *)
Example dead_run_executed :
  let die := [w_new false None; PullExecute "w" 1 true false (Some (0, "boom")); GraphOp (GraphClock 1000000000000);
              PullExecute "w" 1 true false (Some (0, "boom")); SweepDead 10 None] in
  map (fun r => (status r, current_attempt r)) (runs (w_q die)) = [(DEAD_LETTER, 2%Z)]
  /\ map (fun r => (status r, current_attempt r))
       (runs (w_q (die ++ [ExecuteScan "s" None 300 false false None])%list)) = [(COMPLETED, 3%Z)].
Proof. split; vm_compute; reflexivity. Qed.
End Witness.
