(* ===== verification/SettlementEngine.v ===== *)
(** * Settlement status ([core/schemas.py], [core/settlement/engine.py], [db/stores/settlement_store.py], [services/settlement_transitions.py])

    The task-status enumeration with its legacy values, the transition table, the
    Postgres store with its persistence guards, and the audited transition.  The
    database is a map of rows by settlement id with a unique task id; SQLAlchemy's
    sessions and the monitoring sink are outside the model.  [SettlementClient] only
    calls HTTP. *)

From S2P Require Import Prelude PyBytes PyJson PyDatetime PyFloat.
#[local] Open Scope string_scope.

(** ** [TaskStatus] *)

Inductive TaskStatus : Type :=
| TS_DRAFT | TS_PENDING | TS_ACCEPTED | TS_IN_PROGRESS | TS_PROGRESS_SUBMITTED |
TS_PROGRESS_CONFIRMED | TS_DELIVERED | TS_DISPUTED | TS_ARBITRATED | TS_SETTLED |
TS_REFUNDED | TS_CANCELLED | TS_CREATED | TS_LOCKED | TS_RUNNING | TS_SUBMITTED |
TS_BUYER_REGRET | TS_VERIFYING | TS_VERIFIED | TS_RELEASED | TS_FAILED |
TS_ARBITRATION | TS_BUYER_WINS | TS_SELLER_WINS | TS_PARTIAL | TS_AUTHORIZED |
TS_AUTO_CONFIRMED | TS_PARTIALLY_SETTLED | TS_FROZEN.

#[export] Instance TaskStatus_eq_dec : EqDecision TaskStatus.
Proof. solve_decision. Defined.

Definition TaskStatus_value (s : TaskStatus) : string :=
  match s with
  | TS_DRAFT => "draft"
  | TS_PENDING => "pending"
  | TS_ACCEPTED => "accepted"
  | TS_IN_PROGRESS => "in_progress"
  | TS_PROGRESS_SUBMITTED => "progress_submitted"
  | TS_PROGRESS_CONFIRMED => "progress_confirmed"
  | TS_DELIVERED => "delivered"
  | TS_DISPUTED => "disputed"
  | TS_ARBITRATED => "arbitrated"
  | TS_SETTLED => "settled"
  | TS_REFUNDED => "refunded"
  | TS_CANCELLED => "cancelled"
  | TS_CREATED => "created"
  | TS_LOCKED => "locked"
  | TS_RUNNING => "running"
  | TS_SUBMITTED => "submitted"
  | TS_BUYER_REGRET => "buyer_regret"
  | TS_VERIFYING => "verifying"
  | TS_VERIFIED => "verified"
  | TS_RELEASED => "released"
  | TS_FAILED => "failed"
  | TS_ARBITRATION => "arbitration"
  | TS_BUYER_WINS => "buyer_wins"
  | TS_SELLER_WINS => "seller_wins"
  | TS_PARTIAL => "partial"
  | TS_AUTHORIZED => "authorized"
  | TS_AUTO_CONFIRMED => "auto_confirmed"
  | TS_PARTIALLY_SETTLED => "partially_settled"
  | TS_FROZEN => "frozen"
  end.

Definition all_TaskStatus : list TaskStatus :=
  [
   TS_DRAFT; TS_PENDING; TS_ACCEPTED; TS_IN_PROGRESS; TS_PROGRESS_SUBMITTED;
   TS_PROGRESS_CONFIRMED; TS_DELIVERED; TS_DISPUTED; TS_ARBITRATED; TS_SETTLED;
   TS_REFUNDED; TS_CANCELLED; TS_CREATED; TS_LOCKED; TS_RUNNING; TS_SUBMITTED;
   TS_BUYER_REGRET; TS_VERIFYING; TS_VERIFIED; TS_RELEASED; TS_FAILED; TS_ARBITRATION;
   TS_BUYER_WINS; TS_SELLER_WINS; TS_PARTIAL; TS_AUTHORIZED; TS_AUTO_CONFIRMED;
   TS_PARTIALLY_SETTLED; TS_FROZEN].

(** [TaskStatus(s)]; [None] stands for the [ValueError]. *)
Definition TaskStatus_of_value (s : string) : option TaskStatus :=
  List.find (fun x => str_eqb (TaskStatus_value x) s) all_TaskStatus.

(** ** [core/settlement/engine.py] *)

Definition LEGACY_TO_CANONICAL_STATUS : list (TaskStatus * TaskStatus) :=
  [(TS_CREATED, TS_DRAFT);
   (TS_LOCKED, TS_ACCEPTED);
   (TS_RUNNING, TS_IN_PROGRESS);
   (TS_SUBMITTED, TS_DELIVERED);
   (TS_BUYER_REGRET, TS_SETTLED);
   (TS_VERIFYING, TS_DELIVERED);
   (TS_VERIFIED, TS_DELIVERED);
   (TS_RELEASED, TS_SETTLED);
   (TS_FAILED, TS_CANCELLED);
   (TS_ARBITRATION, TS_ARBITRATED);
   (TS_BUYER_WINS, TS_REFUNDED);
   (TS_SELLER_WINS, TS_SETTLED);
   (TS_PARTIAL, TS_SETTLED);
   (TS_AUTHORIZED, TS_AUTHORIZED);
   (TS_AUTO_CONFIRMED, TS_AUTO_CONFIRMED);
   (TS_PARTIALLY_SETTLED, TS_PARTIALLY_SETTLED);
   (TS_FROZEN, TS_FROZEN)].

Definition VALID_TRANSITIONS : list (TaskStatus * list TaskStatus) :=
  [(TS_DRAFT, [TS_PENDING; TS_ACCEPTED; TS_CANCELLED]);
   (TS_PENDING, [TS_ACCEPTED; TS_CANCELLED]);
   (TS_ACCEPTED, [TS_IN_PROGRESS; TS_DISPUTED; TS_CANCELLED]);
   (TS_IN_PROGRESS, [TS_PROGRESS_SUBMITTED; TS_DELIVERED; TS_SETTLED; TS_DISPUTED;
      TS_CANCELLED]);
   (TS_PROGRESS_SUBMITTED, [TS_PROGRESS_CONFIRMED; TS_DELIVERED; TS_SETTLED; TS_DISPUTED]);
   (TS_PROGRESS_CONFIRMED, [TS_DELIVERED; TS_DISPUTED; TS_SETTLED; TS_AUTO_CONFIRMED]);
   (TS_DELIVERED, [TS_SETTLED; TS_DISPUTED; TS_REFUNDED; TS_FROZEN]);
   (TS_DISPUTED, [TS_ARBITRATED; TS_FROZEN]);
   (TS_ARBITRATED, [TS_SETTLED; TS_REFUNDED; TS_PARTIALLY_SETTLED; TS_FROZEN]);
   (TS_SETTLED, [TS_FROZEN]);
   (TS_PARTIALLY_SETTLED, [TS_SETTLED; TS_FROZEN]);
   (TS_REFUNDED, [TS_FROZEN]);
   (TS_CANCELLED, [TS_FROZEN]);
   (TS_AUTO_CONFIRMED, [TS_SETTLED; TS_DISPUTED; TS_FROZEN]);
   (TS_FROZEN, [TS_DELIVERED; TS_DISPUTED; TS_SETTLED; TS_REFUNDED; TS_CANCELLED])].

Definition STATUS_ORDER : list (TaskStatus * Z) :=
  [(TS_DRAFT, 1);
   (TS_PENDING, 2);
   (TS_ACCEPTED, 3);
   (TS_IN_PROGRESS, 4);
   (TS_PROGRESS_SUBMITTED, 5);
   (TS_PROGRESS_CONFIRMED, 6);
   (TS_DELIVERED, 7);
   (TS_DISPUTED, 8);
   (TS_ARBITRATED, 9);
   (TS_AUTO_CONFIRMED, 6);
   (TS_PARTIALLY_SETTLED, 9);
   (TS_FROZEN, 0);
   (TS_REFUNDED, 10);
   (TS_CANCELLED, 10)]%Z.

(** [canonical_task_status] of a member, and of a string. *)
Definition canonical_task_status (s : TaskStatus) : TaskStatus :=
  default s (dict_get s LEGACY_TO_CANONICAL_STATUS).
Definition canonical_status_of_value (s : string) : option TaskStatus :=
  canonical_task_status <$> TaskStatus_of_value s.

Definition targets (s : TaskStatus) : list TaskStatus :=
  default [] (dict_get (canonical_task_status s) VALID_TRANSITIONS).

Definition is_terminal (s : TaskStatus) : bool :=
  match targets s with [] => true | _ => false end.

Definition can_transition (from_status to_status : TaskStatus) : bool :=
  mem (canonical_task_status to_status) (targets from_status).

Definition is_post_accepted (s : TaskStatus) : bool :=
  (default 0 (dict_get TS_ACCEPTED STATUS_ORDER)
   <=? default 0 (dict_get (canonical_task_status s) STATUS_ORDER))%Z.

(** ** [SettlementState] and its row *)

(** The fields the code inspects; [other], of any type, stands for the remaining
    columns, which both directions copy. *)
Record SettlementState (X : Type) := Settlement {
  settlement_id : string;
  task_id : string;
  escrow_amount : float;
  currency : string;
  status : TaskStatus;
  client_agent_id : string;
  worker_agent_id : option string;
  updated_at : datetime;
  other : X
}.

Record SettlementModel (X : Type) := Row {
  row_settlement_id : string;
  row_task_id : string;
  row_escrow_amount : float;
  row_currency : string;
  row_status : string;
  row_client_agent_id : string;
  row_worker_agent_id : option string;
  row_updated_at : datetime;
  row_other : X
}.
Arguments Settlement {X}. Arguments settlement_id {X}. Arguments task_id {X}.
Arguments escrow_amount {X}. Arguments currency {X}. Arguments status {X}.
Arguments client_agent_id {X}. Arguments worker_agent_id {X}. Arguments updated_at {X}. Arguments other {X}.
Arguments Row {X}. Arguments row_settlement_id {X}. Arguments row_task_id {X}.
Arguments row_escrow_amount {X}. Arguments row_currency {X}. Arguments row_status {X}.
Arguments row_client_agent_id {X}. Arguments row_worker_agent_id {X}. Arguments row_updated_at {X}.
Arguments row_other {X}.



(** The table, by settlement id. *)
Abbreviation settlements X := (gmap string (SettlementModel X)).

Section Columns.
Context {X : Type}.

(** [_to_row], [_from_row] *)
Definition to_row (s : SettlementState X) : SettlementModel X :=
  Row (settlement_id s) (task_id s) (escrow_amount s) (currency s)
    (TaskStatus_value (canonical_task_status (status s))) (client_agent_id s) (worker_agent_id s)
    (updated_at s) (other s).
Definition from_row (r : SettlementModel X) : option (SettlementState X) :=
  st ← canonical_status_of_value (row_status r);
  Some (Settlement (row_settlement_id r) (row_task_id r) (row_escrow_amount r) (row_currency r) st
          (row_client_agent_id r) (row_worker_agent_id r) (row_updated_at r) (row_other r)).

(** [InMemorySettlementStore] *)
Definition mem_save (s : SettlementState X) (m : gmap string (SettlementState X)) :
    gmap string (SettlementState X) := <[task_id s := s]> m.
Definition mem_get (t : string) (m : gmap string (SettlementState X)) : option (SettlementState X) := m !! t.
Definition mem_list_by_status (st : TaskStatus) (m : gmap string (SettlementState X)) :
    list (SettlementState X) :=
  List.filter (fun s => bool_decide (status s = st)) (map snd (map_to_list m)).

(** ** [PostgresSettlementStore] *)

Inductive store_error : Type :=
| InvalidStatusTransition (from_status to_status : TaskStatus)
| ImmutableField (field_name : string)
| InvalidStatusValue (value : string)
| IntegrityError.

(** [str(exc)] of the three [ValueError]s; [IntegrityError] is not one. *)
Definition store_error_text (e : store_error) : option string :=
  match e with
  | InvalidStatusTransition a b =>
      Some ("invalid status transition persistence guard: " ++ TaskStatus_value a ++ " -> "
              ++ TaskStatus_value b)
  | ImmutableField f => Some ("immutable field cannot be modified after accepted: " ++ f)
  | InvalidStatusValue v => Some ("'" ++ v ++ "' is not a valid TaskStatus")
  | IntegrityError => None
  end.

(** The first immutable field whose value would change. *)
Definition changed_field (existing row : SettlementModel X) : option string :=
  if negb (feqb (row_escrow_amount existing) (row_escrow_amount row)) then Some "escrow_amount"
  else if negb (str_eqb (row_currency existing) (row_currency row)) then Some "currency"
  else if negb (str_eqb (row_client_agent_id existing) (row_client_agent_id row))
  then Some "client_agent_id"
  else if negb (bool_decide (row_worker_agent_id existing = row_worker_agent_id row))
  then Some "worker_agent_id"
  else None.

(** Another row already has the task id (the column is [unique]). *)
Definition task_taken (t sid : string) (db : settlements X) : bool :=
  existsb (fun x => str_eqb (row_task_id x.2) t && negb (str_eqb x.1 sid)) (map_to_list db).

#[local] Open Scope py_scope.

Definition flush_row (sid : string) (row : SettlementModel X) : M (settlements X) store_error unit :=
  let! db := py_get in
  if task_taken (row_task_id row) sid db then py_raise IntegrityError
  else py_modify <[sid := row]>.

Definition save (s : SettlementState X) : M (settlements X) store_error unit :=
  let! db := py_get in
  let row := to_row s in
  match db !! settlement_id s with
  | None => flush_row (settlement_id s) row
  | Some existing =>
      match canonical_status_of_value (row_status existing) with
      | None => py_raise (InvalidStatusValue (row_status existing))
      | Some existing_status =>
          let next_status := canonical_task_status (status s) in
          if negb (bool_decide (existing_status = next_status))
             && negb (can_transition existing_status next_status)
          then py_raise (InvalidStatusTransition existing_status next_status)
          else
            match (if is_post_accepted existing_status then changed_field existing row else None) with
            | Some f => py_raise (ImmutableField f)
            | None => flush_row (settlement_id s) row
            end
      end
  end.

(** [get]: the row of a task; [None] in the result's place stands for the
    [ValueError] of an unreadable status. *)
Definition get (t : string) (db : settlements X) : option (option (SettlementState X)) :=
  match List.find (fun x => str_eqb (row_task_id x.2) t) (map_to_list db) with
  | None => Some None
  | Some (_, r) => Some <$> from_row r
  end.

(** ** [services/settlement_transitions.py] *)

Record transition_audit := Audit {
  au_settlement_id : string;
  au_task_id : string;
  au_from : option TaskStatus;
  au_to : TaskStatus;
  au_allowed : bool;
  au_stage : string;
  au_reason : option string;
  au_route : option string;
  au_actor : option string
}.

(** The database, the audit table and the state object of the caller, which the
    function mutates. *)
Record settlement_world := World {
  w_db : settlements X;
  w_audits : list transition_audit;
  w_state : SettlementState X
}.

Inductive transition_error : Type :=
| HTTP409 (detail : string)
| Uncaught (e : store_error).

Definition set_status (st : TaskStatus) (at_ : datetime) (s : SettlementState X) : SettlementState X :=
  Settlement (settlement_id s) (task_id s) (escrow_amount s) (currency s) st (client_agent_id s)
    (worker_agent_id s) at_ (other s).

Definition record_settlement_transition_audit (from_status : option TaskStatus)
    (to_status : TaskStatus) (transition_allowed : bool) (guard_stage : string)
    (reason route_path actor_id : option string) : M settlement_world transition_error unit :=
  py_modify (fun w =>
    World (w_db w)
      (w_audits w ++ [Audit (settlement_id (w_state w)) (task_id (w_state w)) from_status to_status
                        transition_allowed guard_stage reason route_path actor_id])%list
      (w_state w)).

Definition apply_settlement_transition (target_status : TaskStatus) (reason : string)
    (route_path actor_id : option string) (now : datetime) :
    M settlement_world transition_error (SettlementState X) :=
  let! w := py_get in
  let from_status := status (w_state w) in
  if negb (can_transition from_status target_status) then
    let detail := "invalid status transition: " ++ TaskStatus_value from_status ++ " -> "
                    ++ TaskStatus_value target_status in
    record_settlement_transition_audit (Some from_status) target_status false "pipeline"
      (Some detail) route_path actor_id ;;;
    py_raise (HTTP409 detail)
  else
    py_modify (fun w => World (w_db w) (w_audits w) (set_status target_status now (w_state w))) ;;;
    let! w := py_get in
    match save (w_state w) (w_db w) with
    | (db, Ret _) =>
        py_modify (fun w => World db (w_audits w) (w_state w)) ;;;
        record_settlement_transition_audit (Some from_status) target_status true "store"
          (Some reason) route_path actor_id ;;;
        let! w := py_get in
        py_ret (w_state w)
    | (db, Raise e) =>
        match store_error_text e with
        | None => py_raise (Uncaught e)
        | Some detail =>
            record_settlement_transition_audit (Some from_status) target_status false "store"
              (Some detail) route_path actor_id ;;;
            py_raise (HTTP409 detail)
        end
    end.

(** ** Statuses *)

Lemma all_TaskStatus_complete s : s ∈ all_TaskStatus.
Proof. by destruct s; vm_compute; repeat constructor. Qed.

Lemma forall_TaskStatus (P : TaskStatus -> bool) :
  forallb P all_TaskStatus = true -> forall s, P s = true.
Proof. intros H s. rewrite forallb_forall in H. apply H, list_elem_of_In, all_TaskStatus_complete. Qed.

Lemma TaskStatus_roundtrip s : TaskStatus_of_value (TaskStatus_value s) = Some s.
Proof. by destruct s. Qed.

Lemma canonical_idempotent s :
  canonical_task_status (canonical_task_status s) = canonical_task_status s.
Proof.
  apply (bool_decide_eq_true (canonical_task_status (canonical_task_status s) = canonical_task_status s)).
  destruct s; by vm_compute.
Qed.

Lemma canonical_row s :
  canonical_status_of_value (row_status (to_row s)) = Some (canonical_task_status (status s)).
Proof.
  unfold canonical_status_of_value. cbn [row_status to_row]. rewrite TaskStatus_roundtrip.
  exact (f_equal Some (canonical_idempotent (status s))).
Qed.

(** Of the statuses the documentation calls terminal none is: [is_terminal]
    holds of [AUTHORIZED] alone, which no transition enters; a settled, refunded
    or cancelled task can still be frozen, and from there refunded, cancelled or
    settled. *)
Theorem terminal_statuses s :
  (is_terminal s = true <-> canonical_task_status s = TS_AUTHORIZED)
  /\ can_transition s TS_AUTHORIZED = false
  /\ (canonical_task_status s ∈ [TS_SETTLED; TS_REFUNDED; TS_CANCELLED] ->
      can_transition s TS_FROZEN = true
      /\ forall s', s' ∈ [TS_SETTLED; TS_REFUNDED; TS_CANCELLED] ->
           can_transition TS_FROZEN s' = true).
Proof.
  split; [|split].
  - destruct s; by vm_compute.
  - destruct s; by vm_compute.
  - intros Hs. split.
    + assert (H : implb (mem (canonical_task_status s) [TS_SETTLED; TS_REFUNDED; TS_CANCELLED])
                    (can_transition s TS_FROZEN) = true) by (by destruct s; vm_compute).
      by rewrite (proj2 (mem_true _ _) Hs) in H.
    + intros s' Hs'.
      assert (H : implb (mem s' [TS_SETTLED; TS_REFUNDED; TS_CANCELLED])
                    (can_transition TS_FROZEN s') = true) by (by destruct s'; vm_compute).
      by rewrite (proj2 (mem_true _ _) Hs') in H.
Qed.

(** ** The store *)

Lemma flush_row_cases sid row db :
  flush_row sid row db = if task_taken (row_task_id row) sid db then (db, Raise IntegrityError)
                         else (<[sid := row]> db, Ret tt).
Proof. unfold flush_row, py_bind, py_get. by destruct (task_taken _ _ _). Qed.

(** When [save] stores, it stores [to_row s] and nothing else changes; when it
    raises, nothing changes. *)
Lemma save_frame s db :
  match save s db with
  | (db', Ret _) => db' = <[settlement_id s := to_row s]> db
                    /\ task_taken (task_id s) (settlement_id s) db = false
  | (db', Raise _) => db' = db
  end.
Proof.
  unfold save, py_bind, py_get.
  destruct (db !! settlement_id s) as [existing|].
  - destruct (canonical_status_of_value (row_status existing)) as [st|]; [|done].
    destruct (negb _ && negb _); [done|].
    destruct (if is_post_accepted st then _ else _); [done|].
    rewrite flush_row_cases. cbn [row_task_id to_row]. by destruct (task_taken _ _ _) eqn:Ht.
  - rewrite flush_row_cases. cbn [row_task_id to_row]. by destruct (task_taken _ _ _) eqn:Ht.
Qed.

(** *** The table

    Rows are stored under their own id, with a canonical status, and no two for
    one task. *)
Definition readable (r : SettlementModel X) : Prop :=
  exists st, row_status r = TaskStatus_value st /\ canonical_task_status st = st.
Record rows_ok (db : settlements X) : Prop := {
  ro_key : forall k r, db !! k = Some r -> row_settlement_id r = k;
  ro_status : forall k r, db !! k = Some r -> readable r;
  ro_task : forall k k' r r', db !! k = Some r -> db !! k' = Some r' -> row_task_id r = row_task_id r' -> k = k'
}.

Definition canonical (s : SettlementState X) : SettlementState X :=
  Settlement (settlement_id s) (task_id s) (escrow_amount s) (currency s) (canonical_task_status (status s))
    (client_agent_id s) (worker_agent_id s) (updated_at s) (other s).

Lemma from_to_row s : from_row (to_row s) = Some (canonical s).
Proof. unfold from_row. rewrite canonical_row. by destruct s. Qed.
Lemma to_row_canonical s : to_row (canonical s) = to_row s.
Proof. unfold to_row. cbn [settlement_id task_id escrow_amount currency status client_agent_id worker_agent_id updated_at other canonical]. by rewrite canonical_idempotent. Qed.
Lemma readable_to_row s : readable (to_row s).
Proof. exists (canonical_task_status (status s)). split; [done|apply canonical_idempotent]. Qed.
(** A readable row is the row of what is read from it. *)
Lemma to_from_row r : readable r -> exists s, from_row r = Some s /\ to_row s = r /\ canonical s = s.
Proof.
  intros (st & E & Hc). unfold from_row, canonical_status_of_value. rewrite E, TaskStatus_roundtrip.
  change (canonical_task_status <$> Some st) with (Some (canonical_task_status st)). rewrite Hc.
  eexists. split; [reflexivity|]. unfold to_row, canonical.
  cbn [settlement_id task_id escrow_amount currency status client_agent_id worker_agent_id updated_at other].
  rewrite Hc. split; [|done]. rewrite <- E. by destruct r.
Qed.

Lemma get_row db k r : rows_ok db -> db !! k = Some r -> get (row_task_id r) db = Some <$> from_row r.
Proof.
  intros Hok Hr. unfold get. destruct (List.find _ _) as [[k' r']|] eqn:E.
  - apply find_some in E as [Hin Ht]. apply bool_decide_eq_true in Ht. cbn in Ht.
    apply list_elem_of_In, elem_of_map_to_list in Hin.
    rewrite (ro_task _ Hok k' k r' r Hin Hr Ht), Hr in Hin. by injection Hin as ->.
  - exfalso. apply (find_none _ _) with (x := (k, r)) in E; [|by apply list_elem_of_In, elem_of_map_to_list].
    by rewrite str_eqb_refl in E.
Qed.
Lemma get_no_row db t : (forall k r, db !! k = Some r -> row_task_id r <> t) -> get t db = Some None.
Proof.
  intros H. unfold get. destruct (List.find _ _) as [[k r]|] eqn:E; [|done].
  apply find_some in E as [Hin Ht]. apply bool_decide_eq_true in Ht. apply list_elem_of_In, elem_of_map_to_list in Hin.
  by destruct (H k r Hin).
Qed.
(** What [get] returns is in the table. *)
Lemma get_Some db t s : rows_ok db -> get t db = Some (Some s) ->
  db !! settlement_id s = Some (to_row s) /\ canonical s = s /\ task_id s = t.
Proof.
  intros Hok. unfold get. destruct (List.find _ _) as [[k r]|] eqn:E; [|done].
  apply find_some in E as [Hin Ht]. apply bool_decide_eq_true in Ht. apply list_elem_of_In, elem_of_map_to_list in Hin.
  destruct (to_from_row r (ro_status _ Hok k r Hin)) as (s' & -> & Er & Hc). intros [= <-].
  assert (settlement_id s' = k) as ->.
  { rewrite <- (ro_key _ Hok k r Hin), <- Er. done. }
  rewrite Er. repeat split; [done..|]. by rewrite <- Ht, <- Er.
Qed.

Lemma task_taken_false t sid db : task_taken t sid db = false <->
  forall k r, db !! k = Some r -> row_task_id r = t -> k = sid.
Proof.
  unfold task_taken. rewrite <- not_true_iff_false, existsb_exists. split.
  - intros H k r Hr Ht. destruct (decide (k = sid)) as [|Hne]; [done|]. exfalso. apply H.
    exists (k, r). split; [by apply list_elem_of_In, elem_of_map_to_list|]. cbn. by rewrite Ht, str_eqb_refl, str_eqb_ne.
  - intros H ([k r] & Hin & Hb). apply andb_true_iff in Hb as [Ht Hn]. apply bool_decide_eq_true in Ht.
    apply list_elem_of_In, elem_of_map_to_list in Hin. rewrite (H k r Hin Ht) in Hn. by rewrite str_eqb_refl in Hn.
Qed.

Lemma rows_ok_insert db s : rows_ok db -> task_taken (task_id s) (settlement_id s) db = false ->
  rows_ok (<[settlement_id s := to_row s]> db).
Proof.
  intros [Hk Hs Ht] Hf. rewrite task_taken_false in Hf. split.
  - intros k r [[<- <-]|[_ H]]%lookup_insert_Some; [done|by apply Hk].
  - intros k r [[_ <-]|[_ H]]%lookup_insert_Some; [apply readable_to_row|by apply (Hs k)].
  - intros k k' r r' [[<- <-]|[Hn H]]%lookup_insert_Some [[<- <-]|[Hn' H']]%lookup_insert_Some E; [done|..|by apply (Ht k k' r r')].
    + by destruct (Hf k' r' H').
    + by destruct (Hf k r H).
Qed.

(** What a successful [save] stores, [get] reads back with its status in
    canonical form; the other tasks read as before, and the table keeps one
    readable row per task. *)
Theorem save_get_roundtrip s db db' : rows_ok db -> save s db = (db', Ret tt) ->
  get (task_id s) db' = Some (Some (canonical s))
  /\ (forall t, t <> task_id s -> (forall r, db !! settlement_id s = Some r -> row_task_id r <> t) ->
      get t db' = get t db)
  /\ rows_ok db'.
Proof.
  intros Hok Hsave. pose proof (save_frame s db) as Hf. rewrite Hsave in Hf. destruct Hf as [-> Hf].
  pose proof (rows_ok_insert db s Hok Hf) as Hok'. split; [|split; [|done]].
  - change (task_id s) with (row_task_id (to_row s)). rewrite (get_row _ (settlement_id s)); [|done|apply lookup_insert_eq].
    by rewrite from_to_row.
  - intros t Hne Hold. assert (Hkeep : forall k r, row_task_id r = t ->
      <[settlement_id s := to_row s]> db !! k = Some r <-> db !! k = Some r).
    { intros k r Hr. rewrite lookup_insert_Some. split; [intros [[_ <-]|[_ ?]]; [by destruct Hne|done]|].
      intros H. right. split; [|done]. intros <-. by apply (Hold r). }
    destruct (decide (exists k r, db !! k = Some r /\ row_task_id r = t)) as [(k & r & H & Hr)|Hno].
    + rewrite <- Hr, (get_row db k r Hok H), (get_row _ k r Hok'); [done|]. by apply Hkeep.
    + rewrite !get_no_row; [done|..]; intros k r H Hr; apply Hno; exists k, r; [done|]. split; [|done]. by apply (Hkeep k r Hr).
Qed.

(** A successful [save] over a row keeps the status or moves it along the table. *)
Lemma save_status_moves s db existing st : db !! settlement_id s = Some existing ->
  canonical_status_of_value (row_status existing) = Some st -> run_outcome (save s) db = Ret tt ->
  st = canonical_task_status (status s) \/ can_transition st (status s) = true.
Proof.
  intros Hdb Hst. unfold run_outcome, save, py_bind, py_get. rewrite Hdb, Hst.
  assert (can_transition st (canonical_task_status (status s)) = can_transition st (status s)) as ->.
  { unfold can_transition. by rewrite canonical_idempotent. }
  destruct (bool_decide (st = canonical_task_status (status s))) eqn:He.
  - intros _. left. by apply bool_decide_eq_true in He.
  - destruct (can_transition st (status s)) eqn:Hc; [by right|]. discriminate.
Qed.

(** The statuses whose rows are guarded. *)
Lemma post_accepted_iff s :
  is_post_accepted s
  = negb (mem (canonical_task_status s) [TS_DRAFT; TS_PENDING; TS_SETTLED; TS_AUTHORIZED; TS_FROZEN]).
Proof. by destruct s; vm_compute. Qed.

(** What the store guards.  A successful [save] over an existing row keeps or
    legally moves the status; from every status after acceptance but [SETTLED],
    [FROZEN] and [AUTHORIZED] it keeps escrow amount, currency, client and worker.
    A settled or frozen row is not guarded: any amount and any parties are
    stored. *)
Theorem save_guards s db existing st :
  db !! settlement_id s = Some existing ->
  canonical_status_of_value (row_status existing) = Some st ->
  task_taken (task_id s) (settlement_id s) db = false ->
  (run_outcome (save s) db = Ret tt ->
     (st = canonical_task_status (status s) \/ can_transition st (status s) = true)
     /\ (st ∉ [TS_DRAFT; TS_PENDING; TS_SETTLED; TS_AUTHORIZED; TS_FROZEN] ->
         changed_field existing (to_row s) = None))
  /\ (st ∈ [TS_SETTLED; TS_FROZEN] -> can_transition st (status s) = true ->
      save s db = (<[settlement_id s := to_row s]> db, Ret tt)).
Proof.
  intros Hdb Hst Ht. unfold run_outcome, save, py_bind, py_get. rewrite Hdb, Hst.
  assert (Hcan : canonical_task_status st = st).
  { unfold canonical_status_of_value in Hst. apply fmap_Some in Hst as (x & _ & ->).
    apply canonical_idempotent. }
  assert (Hct : can_transition st (canonical_task_status (status s)) = can_transition st (status s)).
  { unfold can_transition. by rewrite canonical_idempotent. }
  rewrite Hct, post_accepted_iff, Hcan. split.
  - destruct (bool_decide (st = canonical_task_status (status s))) eqn:He,
             (can_transition st (status s)) eqn:Hc; cbn [negb andb snd]; intros Ho; try discriminate Ho;
      (split; [try (left; by apply bool_decide_eq_true in He); by right|]);
      intros Hn; rewrite (proj1 (not_true_iff_false _) (fun H => Hn (proj1 (mem_true _ _) H))) in Ho;
      cbn [negb] in Ho; by destruct (changed_field existing (to_row s)).
  - intros Hin Hc. rewrite Hc, andb_false_r.
    assert (Hm : mem st [TS_DRAFT; TS_PENDING; TS_SETTLED; TS_AUTHORIZED; TS_FROZEN] = true).
    { apply list_elem_of_In in Hin as [<-|[<-|[]]]; by vm_compute. }
    rewrite Hm. cbn [negb]. rewrite flush_row_cases. cbn [row_task_id to_row]. by rewrite Ht.
Qed.

(** The audited transition on every branch.  A move off the table is refused
    with 409 and changes nothing but the audit table.  A legal move is written
    with its audit, or, if the store's guard objects, refused with 409, the
    database unchanged; but then the caller's state object already carries the
    target status. *)
Theorem apply_transition_spec target reason route who now w :
  let st := status (w_state w) in
  let audit ok stage why := Audit (settlement_id (w_state w)) (task_id (w_state w)) (Some st) target
                              ok stage why route who in
  let moved := set_status target now (w_state w) in
  let (w', o) := apply_settlement_transition target reason route who now w in
  match o with
  | Ret s => can_transition st target = true /\ s = moved /\ status s = target /\ w_state w' = moved
             /\ w_db w' = <[settlement_id moved := to_row moved]> (w_db w)
             /\ w_audits w' = (w_audits w ++ [audit true "store" (Some reason)])%list
  | Raise (HTTP409 d) =>
      w_db w' = w_db w
      /\ ((can_transition st target = false /\ w_state w' = w_state w
           /\ w_audits w' = (w_audits w ++ [audit false "pipeline" (Some d)])%list)
          \/ (can_transition st target = true /\ w_state w' = moved
              /\ (exists e, run_outcome (save moved) (w_db w) = Raise e /\ store_error_text e = Some d)
              /\ w_audits w' = (w_audits w ++ [audit false "store" (Some d)])%list))
  | Raise (Uncaught e) =>
      e = IntegrityError /\ w_db w' = w_db w /\ w_state w' = moved /\ w_audits w' = w_audits w
  end.
Proof.
  intros st audit moved. destruct w as [db au s]. subst st audit moved.
  unfold apply_settlement_transition, record_settlement_transition_audit, py_bind, py_get, py_modify.
  cbn [w_state w_db w_audits].
  destruct (can_transition (status s) target) eqn:Hc; cbn [negb].
  - pose proof (save_frame (set_status target now s) db) as Hf.
    unfold run_outcome. cbv beta iota zeta. cbn [w_state w_db w_audits].
    destruct (save (set_status target now s) db) as [db' [[]|e]] eqn:Hs; cbv beta iota.
    + destruct Hf as [-> _]. done.
    + subst db'. destruct (store_error_text e) as [d|] eqn:He; cbv beta iota; cbn [w_state w_db w_audits].
      * split; [done|]. right. split; [done|]. split; [done|]. split; [|done]. by exists e.
      * destruct e; try discriminate He. done.
  - cbn. split; [done|]. by left.
Qed.

(** ** Witnesses *)

End Columns.

Section Examples.
#[local] Definition settled_state : SettlementState (list (string * json)) :=
  Settlement "s1" "t1" (float_of_int 10) "USD" TS_SETTLED "buyer" (Some "worker") 0 [].
#[local] Definition frozen_state : SettlementState (list (string * json)) :=
  Settlement "s1" "t1" (float_of_int 99) "USD" TS_FROZEN "buyer" (Some "other") 1 [].
#[local] Definition settled_db : settlements (list (string * json)) := {["s1" := to_row settled_state]}.

Lemma save_guards_witness :
  (run_outcome (save frozen_state) settled_db = Ret tt ->
     (TS_SETTLED = canonical_task_status (status frozen_state)
      \/ can_transition TS_SETTLED (status frozen_state) = true)
     /\ (TS_SETTLED ∉ [TS_DRAFT; TS_PENDING; TS_SETTLED; TS_AUTHORIZED; TS_FROZEN] ->
         changed_field (to_row settled_state) (to_row frozen_state) = None))
  /\ (TS_SETTLED ∈ [TS_SETTLED; TS_FROZEN] -> can_transition TS_SETTLED (status frozen_state) = true ->
      save frozen_state settled_db
      = (<[settlement_id frozen_state := to_row frozen_state]> settled_db, Ret tt)).
Proof.
  apply (save_guards frozen_state settled_db (to_row settled_state) TS_SETTLED); reflexivity.
Defined.

#[local] Definition other_state : SettlementState (list (string * json)) :=
  Settlement "s2" "t2" (float_of_int 5) "USD" TS_CREATED "buyer" None 2 [].
Lemma settled_db_ok : rows_ok settled_db.
Proof.
  unfold settled_db. split.
  - by intros k r [<- <-]%lookup_singleton_Some.
  - intros k r [<- <-]%lookup_singleton_Some. apply readable_to_row.
  - by intros k k' r r' [<- <-]%lookup_singleton_Some [<- <-]%lookup_singleton_Some.
Qed.
Lemma save_get_roundtrip_witness :
  get "t2" (<["s2" := to_row other_state]> settled_db) = Some (Some (canonical other_state))
  /\ get "t1" (<["s2" := to_row other_state]> settled_db) = get "t1" settled_db.
Proof.
  destruct (save_get_roundtrip other_state settled_db (<["s2" := to_row other_state]> settled_db) settled_db_ok) as (H1 & H2 & _);
    [by vm_compute|].
  split; [exact H1|]. by apply H2.
Defined.
End Examples.
