(* ===== verification/PaymentCycle.v ===== *)
(** * The payment-cycle guard ([services/settlement_cycle_guard.py])

    The depth-first search over buyer-to-worker edges, with its stack and [seen]
    set, and the guard that refuses a lock which would close a cycle.  The rows the
    guard selects are an argument; the selection itself is modelled. *)

From S2P Require Import Prelude PyBytes PyJson PyDatetime PyFloat SettlementEngine.
From stdpp Require Import relations.
#[local] Open Scope string_scope.

(** A directed edge: the client pays the worker. *)
Definition edge : Type := (string * string)%type.

(** The workers of [n], in the order the loop pushes them. *)
Definition workers_of (edges : list edge) (n : string) : list string :=
  map snd (List.filter (fun e => str_eqb (fst e) n) edges).

(** The [while stack] loop; the head of the list is the top of the stack, [None]
    when the fuel runs out. *)
Fixpoint search (fuel : nat) (edges : list edge) (buyer : string) (stack : list string)
    (seen : gset string) : option bool :=
  match stack with
  | [] => Some false
  | n :: rest =>
      match fuel with
      | O => None
      | S f =>
          if str_eqb n buyer then Some true
          else if bool_decide (n ∈ seen) then search f edges buyer rest seen
          else search f edges buyer (rev (workers_of edges n) ++ rest)%list ({[n]} ∪ seen)
      end
  end.

(** Every edge is pushed at most once: the start and the edges bound the pops. *)
Definition search_fuel (edges : list edge) : nat := S (length edges).

Definition worker_reaches_buyer_on_edges (edges : list edge) (worker_id buyer_id : string) : bool :=
  if str_eqb worker_id buyer_id then false
  else default false (search (search_fuel edges) edges buyer_id [worker_id] ∅).

(** A row of the settlements table, as far as the query reads it. *)
Record settlement_row := SettlementRow {
  r_task_id : string;
  r_client : string;
  r_worker : option string;
  r_status : string
}.

Definition terminal_status_strings : list string :=
  [TaskStatus_value TS_SETTLED; TaskStatus_value TS_REFUNDED; TaskStatus_value TS_CANCELLED].

(** The [select]: locked rows of other tasks in a status that is not terminal. *)
Definition active_edges (task_id : string) (rows : list settlement_row) : list edge :=
  omap (fun r =>
    match r_worker r with
    | Some w => if negb (str_eqb (r_task_id r) task_id)
                   && negb (str_mem (r_status r) terminal_status_strings)
                then Some (r_client r, w) else None
    | None => None
    end) rows.

(** [assert_lock_does_not_close_payment_cycle]; the arrow of the message is written
    [->]. *)
Definition assert_lock_does_not_close_payment_cycle (enabled : bool) (rows : list settlement_row)
    (task_id buyer_id worker_id : string) : outcome py_exn unit :=
  if negb enabled then Ret tt
  else if worker_reaches_buyer_on_edges (active_edges task_id rows) worker_id buyer_id
  then Raise (HTTPException 409
    ("locking this worker would close a directed buyer->worker payment cycle across active "
       ++ "settlements; choose a different worker or complete/terminalize related settlements first"))
  else Ret tt.

(** ** The search *)

(** A payment from [a] to [b]. *)
Definition pays (edges : list edge) (a b : string) : Prop := (a, b) ∈ edges.

Lemma workers_of_pays edges n w : w ∈ workers_of edges n <-> pays edges n w.
Proof.
  unfold workers_of, pays. rewrite list_elem_of_fmap. split.
  - intros ([c w'] & -> & Hin). apply list_elem_of_In, filter_In in Hin as [Hin Hc].
    apply bool_decide_eq_true in Hc. cbn in Hc. subst c. by apply list_elem_of_In.
  - intros Hin. exists (n, w). split; [done|]. apply list_elem_of_In, filter_In.
    split; [by apply list_elem_of_In|]. by apply bool_decide_eq_true.
Qed.

(** The edges not yet expanded. *)
Definition unexpanded (edges : list edge) (seen : gset string) : list edge :=
  List.filter (fun e => negb (bool_decide (fst e ∈ seen))) edges.

Lemma unexpanded_split edges n seen :
  n ∉ seen ->
  length (unexpanded edges seen)
  = length (workers_of edges n) + length (unexpanded edges ({[n]} ∪ seen)).
Proof.
  intros Hn. unfold workers_of. rewrite length_map.
  induction edges as [|[c w] edges IH]; [done|]. unfold unexpanded, str_eqb in *. cbn [List.filter fst].
  destruct (decide (c = n)) as [->|Hc].
  - rewrite (bool_decide_false (n ∈ seen)), (bool_decide_true (n = n)), (bool_decide_true (n ∈ _))
      by (rewrite ?elem_of_union, ?elem_of_singleton; auto).
    cbn. lia.
  - rewrite (bool_decide_false (c = n)) by done.
    destruct (decide (c ∈ seen)).
    + rewrite !bool_decide_true by (rewrite ?elem_of_union; auto). done.
    + rewrite !bool_decide_false by (rewrite ?elem_of_union, ?elem_of_singleton; intuition). cbn. lia.
Qed.

Lemma search_enough fuel edges buyer stack seen :
  length stack + length (unexpanded edges seen) <= fuel ->
  is_Some (search fuel edges buyer stack seen).
Proof.
  revert stack seen. induction fuel as [|f IH]; intros [|n rest] seen Hf; cbn [search];
    try (by eexists); cbn in Hf; [lia|].
  destruct (str_eqb n buyer); [by eexists|].
  destruct (bool_decide (n ∈ seen)) eqn:Hs; [apply IH; lia|].
  apply IH. apply bool_decide_eq_false in Hs. pose proof (unexpanded_split edges n seen Hs).
  rewrite length_app, length_rev. lia.
Qed.

Lemma search_fuel_enough edges buyer worker :
  is_Some (search (search_fuel edges) edges buyer [worker] ∅).
Proof.
  apply search_enough. unfold search_fuel, unexpanded. cbn [length].
  apply le_n_S, filter_length_le.
Qed.

Lemma search_sound fuel edges buyer worker stack seen :
  (forall n, n ∈ stack -> rtc (pays edges) worker n) ->
  search fuel edges buyer stack seen = Some true -> rtc (pays edges) worker buyer.
Proof.
  revert stack seen. induction fuel as [|f IH]; intros [|n rest] seen Hst; cbn [search]; try done.
  destruct (str_eqb n buyer) eqn:Hb.
  - intros _. apply bool_decide_eq_true in Hb as <-. apply Hst. by left.
  - assert (Hrest : forall m, m ∈ rest -> rtc (pays edges) worker m) by (intros m Hm; apply Hst; by right).
    destruct (bool_decide (n ∈ seen)); [by apply IH|]. apply IH. intros m Hm.
    apply elem_of_app in Hm as [Hm|Hm]; [|by apply Hrest].
    apply list_elem_of_In, in_rev, list_elem_of_In, workers_of_pays in Hm.
    eapply rtc_r; [|exact Hm]. apply Hst. by left.
Qed.

(** What [seen] reaches in one step is seen or waiting; the buyer is not seen. *)
Definition frontier (edges : list edge) (buyer : string) (stack : list string) (seen : gset string) : Prop :=
  (buyer ∉ seen) /\ forall n m, n ∈ seen -> pays edges n m -> m ∈ seen \/ m ∈ stack.

Lemma search_complete fuel edges buyer stack seen :
  frontier edges buyer stack seen -> search fuel edges buyer stack seen = Some false ->
  forall n, n ∈ seen \/ n ∈ stack -> ~ rtc (pays edges) n buyer.
Proof.
  revert stack seen. induction fuel as [|f IH]; intros [|n rest] seen [Hb Hf]; cbn [search]; try done.
  1-2: (intros _ n [Hn|Hn] Hr; [|by inversion Hn]); clear -Hb Hf Hn Hr;
    induction Hr as [x|x y z Hxy Hr IHr]; [done|];
    apply IHr; [done|]; by destruct (Hf x y Hn Hxy) as [|Hy%elem_of_nil].
  destruct (str_eqb n buyer) eqn:Hnb; [done|]. apply bool_decide_eq_false in Hnb.
  destruct (bool_decide (n ∈ seen)) eqn:Hs; intros Hse m Hm.
  - apply bool_decide_eq_true in Hs. apply (IH rest seen); [|done|].
    + split; [done|]. intros a b Ha Hab. destruct (Hf a b Ha Hab) as [|[->|]%elem_of_cons]; auto.
    + destruct Hm as [|[->|]%elem_of_cons]; auto.
  - apply (IH _ _) with (n := m) in Hse; [done| |].
    + split; [by intros [->%elem_of_singleton|?]%elem_of_union|]. intros a b Ha Hab. rewrite elem_of_app.
      apply elem_of_union in Ha as [->%elem_of_singleton|Ha].
      * right. left. apply list_elem_of_In, in_rev. rewrite rev_involutive.
        by apply list_elem_of_In, workers_of_pays.
      * rewrite elem_of_union, elem_of_singleton. destruct (Hf a b Ha Hab) as [|[->|]%elem_of_cons]; auto.
    + rewrite elem_of_app, elem_of_union, elem_of_singleton. destruct Hm as [|[->|]%elem_of_cons]; auto.
Qed.

(** The search decides reachability, whatever the worker and the buyer. *)
Lemma search_decides edges worker buyer :
  match search (search_fuel edges) edges buyer [worker] ∅ with
  | Some b => b = true <-> rtc (pays edges) worker buyer
  | None => False
  end.
Proof.
  destruct (search_fuel_enough edges buyer worker) as [b Hb]. rewrite Hb. destruct b; split; try done.
  - intros _. refine (search_sound _ _ _ worker _ _ _ Hb).
    intros n ->%list_elem_of_singleton. apply rtc_refl.
  - intros Hr. exfalso. refine (search_complete _ _ _ _ _ _ Hb worker _ Hr).
    + split; [by intros Hn%elem_of_empty|]. intros n m Hn. by apply not_elem_of_empty in Hn.
    + right. by left.
Qed.

(** C36. The guard's search terminates within one step per edge and is exact: it
    returns true just when the worker is another agent from whom a chain of
    payments leads to the buyer. *)
Theorem cycle_search_exact edges worker buyer :
  is_Some (search (search_fuel edges) edges buyer [worker] ∅)
  /\ (worker_reaches_buyer_on_edges edges worker buyer = true
      <-> worker <> buyer /\ rtc (pays edges) worker buyer).
Proof.
  split; [apply search_fuel_enough|]. unfold worker_reaches_buyer_on_edges.
  pose proof (search_decides edges worker buyer) as Hd.
  destruct (str_eqb worker buyer) eqn:He.
  - apply bool_decide_eq_true in He. split; [done|]. by intros [? _].
  - apply bool_decide_eq_false in He.
    destruct (search _ _ _ _ _) as [b|]; [|done]. cbn. rewrite Hd. tauto.
Qed.

(** ** Acyclicity *)

Definition acyclic (edges : list edge) : Prop := forall n, ~ tc (pays edges) n n.

Lemma pays_cons e edges a b : pays (e :: edges) a b <-> (a, b) = e \/ pays edges a b.
Proof. apply elem_of_cons. Qed.

(** The first step of a non-empty path. *)
Lemma tc_first {A} (R : relation A) x z : tc R x z -> exists y, R x y /\ rtc R y z.
Proof. destruct 1 as [x y H|x y z H1 H2]; exists y; split; auto using rtc_refl, tc_rtc. Qed.

(** A path of the extended graph avoids the new edge or passes through it. *)
Lemma new_edge_path u v edges a b :
  rtc (pays ((u, v) :: edges)) a b ->
  rtc (pays edges) a b \/ (rtc (pays edges) a u /\ rtc (pays edges) v b).
Proof.
  induction 1 as [x|x y z [[= -> ->]|Hxy]%pays_cons _ IH].
  - left. apply rtc_refl.
  - right. split; [apply rtc_refl|]. by destruct IH as [|[_ ?]].
  - destruct IH as [IH|[IH1 IH2]]; [left|right; split; [|done]]; by eapply rtc_l.
Qed.

Lemma acyclic_new_edge u v edges :
  acyclic edges -> ~ rtc (pays edges) v u -> acyclic ((u, v) :: edges).
Proof.
  intros Ha Hvu n Hn. apply tc_first in Hn as (m & Hnm & Hmn).
  apply new_edge_path in Hmn. apply pays_cons in Hnm as [[= -> ->]|Hnm].
  - destruct Hmn as [|[]]; done.
  - destruct Hmn as [Hmn|[Hmu Hvn]].
    + apply (Ha n). eapply tc_rtc_r; [by apply tc_once|done].
    + apply Hvu. etrans; [exact Hvn|]. by eapply rtc_l.
Qed.

(** What the enabled guard lets through closes no chain back to the buyer. *)
Lemma guard_no_path rows task buyer worker : buyer <> worker ->
  assert_lock_does_not_close_payment_cycle true rows task buyer worker = Ret tt ->
  ~ rtc (pays (active_edges task rows)) worker buyer.
Proof.
  intros Hne H Hr. unfold assert_lock_does_not_close_payment_cycle, worker_reaches_buyer_on_edges in H. cbn [negb] in H.
  unfold str_eqb in H. rewrite bool_decide_false in H by congruence.
  pose proof (search_decides (active_edges task rows) worker buyer) as Hd.
  destruct (search _ _ _ _ _) as [b|]; [|done]. apply Hd in Hr as ->. discriminate H.
Qed.

(** The guard keeps the payments of active settlements acyclic: when they form
    no cycle and the guard, enabled, lets a buyer lock another agent as worker,
    they form none with the new payment either. *)
Theorem guard_keeps_acyclic rows task buyer worker :
  acyclic (active_edges task rows) -> buyer <> worker ->
  assert_lock_does_not_close_payment_cycle true rows task buyer worker = Ret tt ->
  acyclic ((buyer, worker) :: active_edges task rows).
Proof. intros Ha Hne H. apply acyclic_new_edge; [done|]. by apply guard_no_path. Qed.

Lemma guard_keeps_acyclic_witness :
  acyclic [("a", "b")].
Proof.
  apply (guard_keeps_acyclic [SettlementRow "t0" "b" (Some "c") "settled"] "t1" "a" "b");
    [|discriminate|by vm_compute].
  intros n Hn. apply tc_first in Hn as (m & Hnm & _). by apply elem_of_nil in Hnm.
Defined.
