(* ===== verification/EscrowDb.v ===== *)
(** * The escrow database (tables of [db/models/orm.py], [db/session.py])

    The tables that the capacity, voucher, progress, settlement and arbitration
    requests share, and the session one request runs in: its changes are
    committed when it returns and rolled back when it raises, while the safety
    mode, a module variable of [services/runtime_safety.py], keeps what the
    request did to it.  The clock is read once per request. *)

From S2P Require Import Prelude PyBytes PyJson PyDatetime PyFloat PyHoare SettlementEngine ResponsibilityGraph.
#[local] Open Scope string_scope.

(** ** Capacity *)

Record capacity_row := Capacity {
  c_profile_id : option string;
  total_locked_usdc : float;
  total_bill_credits : float;
  available_credits : float;
  reserved_credits : float;
  in_progress_credits : float;
  confirmed_progress_credits : float;
  disputed_credits : float;
  pending_settlement_credits : float;
  burned_credits : float;
  released_credits : float;
  c_updated_at : datetime
}.

Record profile_row := Profile {
  p_owner : string;
  p_allocated : float;
  p_available : float;
  p_in_progress : float;
  p_pending_settlement : float;
  p_disputed : float;
  p_released : float;
  p_updated_at : datetime
}.

(** ** Vouchers *)

Inductive voucher_status : Type := V_CREATED | V_ACCEPTED | V_USED | V_EXPIRED | V_CANCELLED | V_REJECTED.
#[export] Instance voucher_status_eq_dec : EqDecision voucher_status.
Proof. solve_decision. Defined.
Definition voucher_status_value (s : voucher_status) : string :=
  match s with
  | V_CREATED => "created" | V_ACCEPTED => "accepted" | V_USED => "used"
  | V_EXPIRED => "expired" | V_CANCELLED => "cancelled" | V_REJECTED => "rejected"
  end.

(** A non-empty [progress_rule_spec], as far as the code reads it: the type, the
    points, each a pair of numbers or malformed, the scene, and whether it holds a
    non-empty attestation of a trade launch.  [None] and [{}] are read alike. *)
Record rule_spec := RuleSpec {
  spec_type : option string;
  spec_points : option (list (option (float * float)));
  spec_scene_id : option string;
  spec_attested : bool
}.

(** The terms of a voucher, set when it is created. *)
Record voucher_terms := Terms {
  v_buyer : string;
  v_seller : string;
  v_profile_id : option string;
  v_amount : float;
  v_currency : string;
  v_bill_credit : float;
  v_task_type : string;
  v_task_description_hash : string;
  v_progress_rule_hash : string;
  v_evidence_requirement_hash : string;
  v_expiry_time : datetime;
  v_nonce : string;
  v_signature : string;
  v_buyer_sub : option string;
  v_seller_sub : option string;
  v_rule_spec : option rule_spec;
  v_created_at : datetime
}.
Inductive payment_mode : Type := MANUAL | PREAUTH.
#[export] Instance payment_mode_eq_dec : EqDecision payment_mode.
Proof. solve_decision. Defined.

(** The last three columns belong to payment codes. *)
Record voucher_row := Voucher {
  v_terms : voucher_terms;
  v_status : voucher_status;
  v_accepted_at : option datetime;
  v_rejection_reason : option string;
  v_rejected_at : option datetime;
  v_rejected_by : option string;
  v_task_precision : option float;
  v_payment_mode : payment_mode;
  v_chain_anchor_hash : option string
}.

(** What an operator lets an agent do on its own. *)
Record automation_policy := Policy {
  ap_auto_enabled : bool;
  ap_single_limit : float;
  ap_daily_limit : float;
  ap_permissions : list string;
  ap_high_risk_mode : string;
  ap_responsibility_acknowledged : bool;
  ap_version : Z;
  ap_updated_at : datetime;
  ap_preauth_enabled : bool;
  ap_allowed_task_types : list string;
  ap_task_precision_min : option float;
  ap_task_precision_max : option float;
  ap_trusted_counterparty_ids : list string;
  ap_payment_code_ttl_seconds : Z;
  ap_responsibility_boundary_id : option string;
  ap_auto_accept_incoming : bool;
  ap_auto_execute_pipeline : bool;
  ap_human_not_present_allowed : bool
}.

Record sub_identity := SubIdentity { sub_parent : string; sub_active : bool }.

Record voucher_event := VoucherEvent {
  ve_voucher_id : string;
  ve_type : string;
  ve_actor : option string;
  ve_target : option string;
  ve_created_at : datetime
}.

(** ** Settlements

    The columns of a settlement that [SettlementEngine] does not look at; the
    arbitration notes, which print amounts, and the columns of the chain are left
    out. *)
Record settlement_columns := Columns {
  s_profile_id : option string;
  s_released_amount : option float;
  s_refunded_amount : option float;
  s_dispute_reason : option string;
  s_released_at : option datetime;
  s_voucher_id : option string;
  s_delivery_deadline_at : option datetime;
  s_rule_spec : option rule_spec
}.
Abbreviation settlement := (SettlementState settlement_columns).

(** ** Receipts and progress *)

(** An execution receipt and the digest that the evidence bundle declares for it. *)
Record receipt_row := Receipt {
  r_task_id : string;
  r_id : string;
  r_step_index : Z;
  r_success : bool;
  r_digest : string
}.
Record bundle_row := Bundle {
  b_receipt_ids : list string;
  b_receipt_hashes : list string;
  b_total_steps : Z;
  b_successful_steps : Z;
  b_failed_steps : Z
}.

Inductive progress_status : Type := P_PENDING | P_CONFIRMED | P_REJECTED.
#[export] Instance progress_status_eq_dec : EqDecision progress_status.
Proof. solve_decision. Defined.
Record progress_row := Progress {
  pr_id : string;
  pr_task_id : string;
  pr_seller : string;
  pr_percent : float;
  pr_claimed : float;
  pr_evidence_hash : string;
  pr_runtime_log_hash : string;
  pr_timestamp : datetime;
  pr_signature : string;
  pr_validation_method : string;
  pr_status : progress_status;
  pr_confirmed_at : option datetime
}.

(** ** Arbitration *)

Inductive case_status : Type := A_OPEN | A_VOTING | A_DECIDED | A_EXECUTED | A_CANCELLED.
#[export] Instance case_status_eq_dec : EqDecision case_status.
Proof. solve_decision. Defined.
Definition case_status_value (s : case_status) : string :=
  match s with
  | A_OPEN => "open" | A_VOTING => "voting" | A_DECIDED => "decided"
  | A_EXECUTED => "executed" | A_CANCELLED => "cancelled"
  end.
Inductive decision : Type := BUYER_WINS | SELLER_WINS | PARTIAL.
#[export] Instance decision_eq_dec : EqDecision decision.
Proof. solve_decision. Defined.

Record pool_member := Member {
  m_id : string;
  m_stake : float;
  m_active : bool;
  m_joined_at : datetime
}.
Record case_row := Case {
  k_id : string;
  k_task_id : string;
  k_settlement_id : string;
  k_opened_by : string;
  k_reason : option string;
  k_status : case_status;
  k_required : Z;
  k_outcome : option decision;
  k_partial : option float;
  k_created_at : datetime;
  k_updated_at : datetime;
  k_executed_at : option datetime
}.
Record assignment_row := Assignment { a_case : string; a_arbitrator : string; a_at : datetime }.
Record material_row := Material {
  mt_case : string;
  mt_task : string;
  mt_submitted_by : string;
  mt_bundle_id : option string;
  mt_progress_receipt_ids : list string;
  mt_evidence_hashes : list string;
  mt_package_hash : string;
  mt_storage_uri : option string;
  mt_format_version : string;
  mt_at : datetime
}.
Inductive case_event_kind : Type :=
| CASE_CREATED | ARBITRATORS_ASSIGNED | MATERIAL_SUBMITTED | VOTE_CAST | CASE_DECIDED | CASE_EXECUTED.
Record case_event := CaseEvent { ce_case : string; ce_kind : case_event_kind; ce_at : datetime }.
Record vote_row := Vote {
  vt_case : string;
  vt_arbitrator : string;
  vt_decision : decision;
  vt_partial : option float;
  vt_at : datetime
}.

(** ** The database *)

Record escrow_db := EscrowDb {
  capacities : gmap string capacity_row;
  profiles : gmap string profile_row;
  role_owners : gmap string string;
  policies : gmap string automation_policy;
  sub_identities : gmap string sub_identity;
  vouchers : gmap string voucher_row;
  voucher_events : list voucher_event;
  contracts : gset string;
  rows : settlements settlement_columns;
  audits : list transition_audit;
  receipts : list receipt_row;
  bundles : gmap string bundle_row;
  progress : list progress_row;
  pool : list pool_member;
  cases : list case_row;
  assignments : list assignment_row;
  votes : list vote_row;
  materials : list material_row;
  case_events : list case_event;
  responsibility : graph
}.

(** ** Safety mode ([RuntimeSafetyModeState]) *)

Record safety_mode := Safety {
  sm_enabled : bool;
  sm_reason : option string;
  sm_triggered_by : option string;
  sm_triggered_at : option datetime;
  pause_new_lock : bool;
  pause_new_authorization : bool;
  pause_new_task : bool;
  pause_new_settlement : bool;
  sm_last_audit_at : option datetime;
  sm_total_locked : float;
  sm_total_bill : float
}.
Definition initial_safety : safety_mode :=
  Safety false None None None false false false false None fzero fzero.

(** The world of the requests: the tables, the module variable, and the number
    of identifiers drawn, which are never drawn twice. *)
Record world := EscrowWorld { db : escrow_db; safety : safety_mode; drawn : nat }.
Definition now (w : world) : datetime := g_now (responsibility (db w)).

Definition set_db (d : escrow_db) (w : world) : world := EscrowWorld d (safety w) (drawn w).
Definition set_safety (s : safety_mode) (w : world) : world := EscrowWorld (db w) s (drawn w).
Definition draw_id (w : world) : world := EscrowWorld (db w) (safety w) (S (drawn w)).

(** One table replaced. *)
Definition set_capacities (x : gmap string capacity_row) (w : world) : world :=
  let d := db w in set_db (EscrowDb
    x (profiles d) (role_owners d) (policies d) (sub_identities d) (vouchers d) (voucher_events d)
    (contracts d) (rows d) (audits d) (receipts d) (bundles d) (progress d) (pool d) (cases d)
    (assignments d) (votes d) (materials d) (case_events d) (responsibility d)) w.
Definition set_profiles (x : gmap string profile_row) (w : world) : world :=
  let d := db w in set_db (EscrowDb
    (capacities d) x (role_owners d) (policies d) (sub_identities d) (vouchers d) (voucher_events d)
    (contracts d) (rows d) (audits d) (receipts d) (bundles d) (progress d) (pool d) (cases d)
    (assignments d) (votes d) (materials d) (case_events d) (responsibility d)) w.
Definition set_role_owners (x : gmap string string) (w : world) : world :=
  let d := db w in set_db (EscrowDb
    (capacities d) (profiles d) x (policies d) (sub_identities d) (vouchers d) (voucher_events d)
    (contracts d) (rows d) (audits d) (receipts d) (bundles d) (progress d) (pool d) (cases d)
    (assignments d) (votes d) (materials d) (case_events d) (responsibility d)) w.
Definition set_policies (x : gmap string automation_policy) (w : world) : world :=
  let d := db w in set_db (EscrowDb
    (capacities d) (profiles d) (role_owners d) x (sub_identities d) (vouchers d) (voucher_events d)
    (contracts d) (rows d) (audits d) (receipts d) (bundles d) (progress d) (pool d) (cases d)
    (assignments d) (votes d) (materials d) (case_events d) (responsibility d)) w.
Definition set_sub_identities (x : gmap string sub_identity) (w : world) : world :=
  let d := db w in set_db (EscrowDb
    (capacities d) (profiles d) (role_owners d) (policies d) x (vouchers d) (voucher_events d)
    (contracts d) (rows d) (audits d) (receipts d) (bundles d) (progress d) (pool d) (cases d)
    (assignments d) (votes d) (materials d) (case_events d) (responsibility d)) w.
Definition set_vouchers (x : gmap string voucher_row) (w : world) : world :=
  let d := db w in set_db (EscrowDb
    (capacities d) (profiles d) (role_owners d) (policies d) (sub_identities d) x (voucher_events d)
    (contracts d) (rows d) (audits d) (receipts d) (bundles d) (progress d) (pool d) (cases d)
    (assignments d) (votes d) (materials d) (case_events d) (responsibility d)) w.
Definition set_voucher_events (x : list voucher_event) (w : world) : world :=
  let d := db w in set_db (EscrowDb
    (capacities d) (profiles d) (role_owners d) (policies d) (sub_identities d) (vouchers d) x
    (contracts d) (rows d) (audits d) (receipts d) (bundles d) (progress d) (pool d) (cases d)
    (assignments d) (votes d) (materials d) (case_events d) (responsibility d)) w.
Definition set_contracts (x : gset string) (w : world) : world :=
  let d := db w in set_db (EscrowDb
    (capacities d) (profiles d) (role_owners d) (policies d) (sub_identities d) (vouchers d)
    (voucher_events d) x (rows d) (audits d) (receipts d) (bundles d) (progress d) (pool d) (cases
    d) (assignments d) (votes d) (materials d) (case_events d) (responsibility d)) w.
Definition set_rows (x : settlements settlement_columns) (w : world) : world :=
  let d := db w in set_db (EscrowDb
    (capacities d) (profiles d) (role_owners d) (policies d) (sub_identities d) (vouchers d)
    (voucher_events d) (contracts d) x (audits d) (receipts d) (bundles d) (progress d) (pool d)
    (cases d) (assignments d) (votes d) (materials d) (case_events d) (responsibility d)) w.
Definition set_audits (x : list transition_audit) (w : world) : world :=
  let d := db w in set_db (EscrowDb
    (capacities d) (profiles d) (role_owners d) (policies d) (sub_identities d) (vouchers d)
    (voucher_events d) (contracts d) (rows d) x (receipts d) (bundles d) (progress d) (pool d)
    (cases d) (assignments d) (votes d) (materials d) (case_events d) (responsibility d)) w.
Definition set_receipts (x : list receipt_row) (w : world) : world :=
  let d := db w in set_db (EscrowDb
    (capacities d) (profiles d) (role_owners d) (policies d) (sub_identities d) (vouchers d)
    (voucher_events d) (contracts d) (rows d) (audits d) x (bundles d) (progress d) (pool d) (cases
    d) (assignments d) (votes d) (materials d) (case_events d) (responsibility d)) w.
Definition set_bundles (x : gmap string bundle_row) (w : world) : world :=
  let d := db w in set_db (EscrowDb
    (capacities d) (profiles d) (role_owners d) (policies d) (sub_identities d) (vouchers d)
    (voucher_events d) (contracts d) (rows d) (audits d) (receipts d) x (progress d) (pool d) (cases
    d) (assignments d) (votes d) (materials d) (case_events d) (responsibility d)) w.
Definition set_progress (x : list progress_row) (w : world) : world :=
  let d := db w in set_db (EscrowDb
    (capacities d) (profiles d) (role_owners d) (policies d) (sub_identities d) (vouchers d)
    (voucher_events d) (contracts d) (rows d) (audits d) (receipts d) (bundles d) x (pool d) (cases
    d) (assignments d) (votes d) (materials d) (case_events d) (responsibility d)) w.
Definition set_pool (x : list pool_member) (w : world) : world :=
  let d := db w in set_db (EscrowDb
    (capacities d) (profiles d) (role_owners d) (policies d) (sub_identities d) (vouchers d)
    (voucher_events d) (contracts d) (rows d) (audits d) (receipts d) (bundles d) (progress d) x
    (cases d) (assignments d) (votes d) (materials d) (case_events d) (responsibility d)) w.
Definition set_cases (x : list case_row) (w : world) : world :=
  let d := db w in set_db (EscrowDb
    (capacities d) (profiles d) (role_owners d) (policies d) (sub_identities d) (vouchers d)
    (voucher_events d) (contracts d) (rows d) (audits d) (receipts d) (bundles d) (progress d) (pool
    d) x (assignments d) (votes d) (materials d) (case_events d) (responsibility d)) w.
Definition set_assignments (x : list assignment_row) (w : world) : world :=
  let d := db w in set_db (EscrowDb
    (capacities d) (profiles d) (role_owners d) (policies d) (sub_identities d) (vouchers d)
    (voucher_events d) (contracts d) (rows d) (audits d) (receipts d) (bundles d) (progress d) (pool
    d) (cases d) x (votes d) (materials d) (case_events d) (responsibility d)) w.
Definition set_votes (x : list vote_row) (w : world) : world :=
  let d := db w in set_db (EscrowDb
    (capacities d) (profiles d) (role_owners d) (policies d) (sub_identities d) (vouchers d)
    (voucher_events d) (contracts d) (rows d) (audits d) (receipts d) (bundles d) (progress d) (pool
    d) (cases d) (assignments d) x (materials d) (case_events d) (responsibility d)) w.
Definition set_materials (x : list material_row) (w : world) : world :=
  let d := db w in set_db (EscrowDb
    (capacities d) (profiles d) (role_owners d) (policies d) (sub_identities d) (vouchers d)
    (voucher_events d) (contracts d) (rows d) (audits d) (receipts d) (bundles d) (progress d) (pool
    d) (cases d) (assignments d) (votes d) x (case_events d) (responsibility d)) w.
Definition set_case_events (x : list case_event) (w : world) : world :=
  let d := db w in set_db (EscrowDb
    (capacities d) (profiles d) (role_owners d) (policies d) (sub_identities d) (vouchers d)
    (voucher_events d) (contracts d) (rows d) (audits d) (receipts d) (bundles d) (progress d) (pool
    d) (cases d) (assignments d) (votes d) (materials d) x (responsibility d)) w.
Definition set_responsibility (x : graph) (w : world) : world :=
  let d := db w in set_db (EscrowDb
    (capacities d) (profiles d) (role_owners d) (policies d) (sub_identities d) (vouchers d)
    (voucher_events d) (contracts d) (rows d) (audits d) (receipts d) (bundles d) (progress d) (pool
    d) (cases d) (assignments d) (votes d) (materials d) (case_events d) x) w.

(** ** Requests *)

(** [HTTPException], or an exception no handler catches. *)
Inductive http_error : Type :=
| HTTP (code : Z) (detail : string)
| Failure (what : string).

Abbreviation MW := (M world http_error).

(** [get_db]: the request's session.  A failed request leaves the tables as they
    were; nobody saw the identifiers it drew, and the supply takes them back. *)
Definition get_db {A} (m : MW A) : MW A :=
  fun w => match m w with
           | (w', Ret a) => (w', Ret a)
           | (w', Raise e) => (EscrowWorld (db w) (safety w') (drawn w), Raise e)
           end.

Definition fail {A} (code : Z) (detail : string) : MW A := py_raise (HTTP code detail).
Definition ensure (b : bool) (code : Z) (detail : string) : MW unit := py_require b (HTTP code detail).
(** A request ends in the services that are not modelled: they return or raise. *)
Definition afterwards (fault : option string) : MW unit :=
  match fault with None => py_ret tt | Some e => py_raise (Failure e) end.

(** The settings the requests read. *)
Record settings := Settings {
  escrow_min_amount : float;
  escrow_max_amount : float;
  auth_enforce_protected_routes : bool;
  settlement_require_party_actor : bool;
  ledger_require_party_actor : bool;
  progress_confirm_require_buyer_actor : bool;
  settlement_lock_requires_pending : bool;
  block_payment_cycle : bool;
  requires_success_receipt : bool;
  voucher_require_eip712 : bool;
  trade_launch_require_eip712 : bool;
  production : bool;
  relax_delivery_signatures : option bool;
  phase1_auto_relax : bool;
  progress_require_signature : bool;
  receipt_max_future_skew_seconds : Z;
  receipt_max_past_hours : Z
}.

(** ** Rules for requests *)

Section Rules.
Context {A : Type}.

(** A failed request leaves the tables as they were. *)
Lemma keeps_get_db (P : escrow_db -> Prop) (Q : safety_mode -> Prop) (m : MW A) :
  keeps (fun w => P (db w) /\ Q (safety w)) m -> keeps (fun w => P (db w) /\ Q (safety w)) (get_db m).
Proof.
  intros Hm w Hw. specialize (Hm w Hw). unfold run_state, get_db in *.
  destruct (m w) as [w' [a|e]]; [done|]. split; [apply Hw|apply Hm].
Qed.
Lemma safe_get_db (P : escrow_db -> nat -> Prop) (m : MW A) :
  safe (fun w => P (db w) (drawn w)) m -> keeps (fun w => P (db w) (drawn w)) (get_db m).
Proof.
  intros Hm w Hw. unfold run_state, get_db. destruct (m w) as [w' [a|e]] eqn:E; [by apply (Hm w w' a)|done].
Qed.

Lemma keeps_fail (I : world -> Prop) code detail : keeps I (fail (A := A) code detail).
Proof. apply keeps_raise. Qed.
Lemma keeps_ensure (I : world -> Prop) b code detail : keeps I (ensure b code detail).
Proof. apply keeps_require. Qed.
Lemma keeps_afterwards (I : world -> Prop) fault : keeps I (afterwards fault).
Proof. destruct fault; [apply keeps_raise|apply keeps_ret]. Qed.
Lemma safe_fail (I : world -> Prop) code detail : safe I (fail (A := A) code detail).
Proof. apply safe_raise. Qed.
Lemma safe_ensure (I : world -> Prop) b code detail : safe I (ensure b code detail).
Proof. apply safe_require. Qed.
Lemma safe_afterwards (I : world -> Prop) fault : safe I (afterwards fault).
Proof. destruct fault; [apply safe_raise|apply safe_ret]. Qed.
End Rules.

#[export] Hint Resolve keeps_fail keeps_ensure keeps_afterwards : keeps.
#[export] Hint Resolve safe_fail safe_ensure safe_afterwards : safe.
