(* ===== verification/CapacityLedger.v ===== *)
(** * The capacity ledger

    [services/capacity_ledger.py], [services/capacity_resolution.py],
    [services/runtime_safety.py], [services/profile_capacity.py],
    [services/ledger_party_access.py] and the requests of
    [api/routes/capacity.py].  Amounts are binary64 floats, compared with the
    tolerances of the code.  How a database adds up a column is a parameter. *)

From S2P Require Import Prelude PyBytes PyJson PyDatetime PyFloat PyFloatOrder PyHoare SettlementEngine ResponsibilityGraph EscrowDb.
#[local] Open Scope string_scope.
#[local] Open Scope py_scope.

(** [x or 0.0] *)
Definition f_or0 (x : float) : float := if ftruthy x then x else fzero.
(** [1e-9] *)
Definition EPSILON : float := float_of_ratio 1 1000000000.
(** [abs] *)
Definition fabs (x : float) : float := SpecFloat.SFabs x.
Infix "+." := fadd (at level 50, left associativity).
Infix "-." := fsub (at level 50, left associativity).

(** ** Checks of one row ([capacity_ledger.py]) *)

Definition active_credits (c : capacity_row) : float :=
  available_credits c +. reserved_credits c +. in_progress_credits c
    +. confirmed_progress_credits c +. disputed_credits c +. pending_settlement_credits c.

Definition responsibility_credits (c : capacity_row) : float :=
  reserved_credits c +. in_progress_credits c
    +. confirmed_progress_credits c +. disputed_credits c +. pending_settlement_credits c.

(** The [ValueError] it raises, if any. *)
Definition assert_can_release_locked_funds (c : capacity_row) (amount : float) : option string :=
  if fleb amount fzero then Some "release amount must be > 0"
  else if fltb (available_credits c +. EPSILON) amount then Some "insufficient available credits"
  else if fgtb (responsibility_credits c) EPSILON
  then Some "cannot release locked funds while bill credits hold active responsibility (reserved, in_progress, confirmed, disputed, or pending_settlement)"
  else None.

Definition assert_capacity_invariants (c : capacity_row) : option string :=
  let active := active_credits c in
  if fgtb (fabs (total_bill_credits c -. active)) EPSILON
  then Some "capacity invariant violated: total_bill_credits != active credit sum"
  else if fltb (total_locked_usdc c +. EPSILON) active
  then Some "capacity invariant violated: locked usdc below active credits"
  else None.

(** [_validate], [_assert_capacity] *)
Definition validate (c : capacity_row) : MW unit :=
  match assert_capacity_invariants c with
  | None => py_ret tt
  | Some _ => fail 500 "capacity invariant check failed"
  end.

(** ** Safety mode ([runtime_safety.py]) *)

Definition opt_or (a b : option string) : option string := if truthy_str a then a else b.

Definition set_runtime_safety_mode (enabled : bool) (reason actor : option string) (at_ : datetime)
    (s : safety_mode) : safety_mode :=
  if enabled then
    Safety true
      (opt_or reason (opt_or (sm_reason s) (Some "manual safety mode enabled")))
      (opt_or actor (Some "system"))
      (match sm_triggered_at s with Some t => Some t | None => Some at_ end)
      true true true true (sm_last_audit_at s) (sm_total_locked s) (sm_total_bill s)
  else
    Safety false (opt_or reason (Some "safety mode disabled")) (opt_or actor (Some "system")) (Some at_)
      false false false false (sm_last_audit_at s) (sm_total_locked s) (sm_total_bill s).

Definition set_runtime_operational_pauses (lock authorization task settlement : bool)
    (reason actor : option string) (at_ : datetime) (s : safety_mode) : safety_mode :=
  let enabled := lock || authorization || task || settlement in
  Safety enabled
    (opt_or reason (Some (if enabled then "manual operational pause update" else "operational pauses disabled")))
    (opt_or actor (Some "system")) (Some at_)
    lock authorization task settlement (sm_last_audit_at s) (sm_total_locked s) (sm_total_bill s).

Definition operation_blocked (operation : string) (s : safety_mode) : bool :=
  let op := py_lower (py_strip operation) in
  if str_eqb op "new_lock" then pause_new_lock s
  else if str_eqb op "new_authorization" then pause_new_authorization s
  else if str_eqb op "new_task" then pause_new_task s
  else if str_eqb op "new_settlement" then pause_new_settlement s
  else if str_eqb op "release_unused_capacity" then false
  else sm_enabled s.
Definition assert_runtime_operation_allowed (operation : string) : MW unit :=
  let! w := py_get in
  ensure (negb (operation_blocked operation (safety w))) 503
    ("safety mode active: blocked operation '" ++ operation ++ "'").

Section Ledger.
Context (cfg : settings) (sql_sum : list float -> float).

(** [coalesce(sum(column), 0.0)] over the rows of one query. *)
Definition column_sum (f : capacity_row -> float) (d : escrow_db) : float :=
  match map snd (map_to_list (capacities d)) with
  | [] => fzero
  | l => sql_sum (map f l)
  end.

Definition audit_capacity_anchor_and_maybe_trip : MW unit :=
  let! w := py_get in
  let locked := f_or0 (column_sum total_locked_usdc (db w)) in
  let bill := f_or0 (column_sum total_bill_credits (db w)) in
  let s := safety w in
  let s := Safety (sm_enabled s) (sm_reason s) (sm_triggered_by s) (sm_triggered_at s)
    (pause_new_lock s) (pause_new_authorization s) (pause_new_task s) (pause_new_settlement s)
    (Some (now w)) locked bill in
  py_modify (set_safety s) ;;;
  if fgtb bill (locked +. EPSILON) then
    py_modify (set_safety (set_runtime_safety_mode true
      (Some "capacity anchor breach: total bill credits exceed total locked usdc") (Some "system") (now w) s)) ;;;
    fail 503 "safety mode enabled: capacity anchor breach detected"
  else py_ret tt.

(** ** Access *)

(** [require_actor] *)
Definition require_actor (actor : option string) : MW string :=
  match actor with
  | Some a => if str_eqb a "" then fail 401 "authentication required for this operation" else py_ret a
  | None => fail 401 "authentication required for this operation"
  end.
Definition ledger_party_binding_active : bool := ledger_require_party_actor cfg && auth_enforce_protected_routes cfg.
Definition require_ledger_identity (actor : option string) (identity : string) : MW unit :=
  if ledger_party_binding_active then
    let! a := require_actor actor in
    ensure (str_eqb a identity) 403 "authenticated actor must match the target identity for this ledger operation"
  else py_ret tt.

(** ** Locking and releasing ([routes/capacity.py]) *)

Definition empty_capacity (profile : option string) (at_ : datetime) : capacity_row :=
  Capacity profile fzero fzero fzero fzero fzero fzero fzero fzero fzero fzero at_.
Definition put_capacity (id : string) (c : capacity_row) : MW unit :=
  py_modify (fun w => set_capacities (<[id := c]> (capacities (db w))) w).

Definition add_locked (profile : option string) (amount : float) (at_ : datetime) (c : capacity_row) : capacity_row :=
  Capacity (if truthy_str profile then profile else c_profile_id c)
    (total_locked_usdc c +. amount) (total_bill_credits c +. amount) (available_credits c +. amount)
    (reserved_credits c) (in_progress_credits c) (confirmed_progress_credits c) (disputed_credits c)
    (pending_settlement_credits c) (burned_credits c) (released_credits c) at_.

Definition lock_usdc (actor : option string) (identity : string) (amount : float) (profile : option string) :
    MW capacity_row :=
  ensure (fgtb amount fzero) 422 "amount must be greater than 0" ;;;
  require_ledger_identity actor identity ;;;
  assert_runtime_operation_allowed "new_lock" ;;;
  ensure (negb (fltb amount (escrow_min_amount cfg))) 422 "amount below minimum" ;;;
  ensure (negb (fgtb amount (escrow_max_amount cfg))) 422 "amount exceeds maximum" ;;;
  audit_capacity_anchor_and_maybe_trip ;;;
  let! w := py_get in
  let row := default (empty_capacity profile (now w)) (capacities (db w) !! identity) in
  let row := add_locked profile amount (now w) row in
  put_capacity identity row ;;;
  validate row ;;;
  audit_capacity_anchor_and_maybe_trip ;;;
  py_ret row.

Definition take_released (profile : option string) (amount : float) (at_ : datetime) (c : capacity_row) : capacity_row :=
  Capacity (if truthy_str profile then profile else c_profile_id c)
    (total_locked_usdc c -. amount) (total_bill_credits c -. amount) (available_credits c -. amount)
    (reserved_credits c) (in_progress_credits c) (confirmed_progress_credits c) (disputed_credits c)
    (pending_settlement_credits c) (burned_credits c) (released_credits c +. amount) at_.

Definition release_unused (actor : option string) (identity : string) (amount : float) (profile : option string) :
    MW capacity_row :=
  ensure (fgtb amount fzero) 422 "amount must be greater than 0" ;;;
  require_ledger_identity actor identity ;;;
  assert_runtime_operation_allowed "release_unused_capacity" ;;;
  audit_capacity_anchor_and_maybe_trip ;;;
  let! w := py_get in
  match capacities (db w) !! identity with
  | None => fail 404 ("Capacity for " ++ identity ++ " not found")
  | Some row =>
      match assert_can_release_locked_funds row amount with
      | Some detail => fail 409 detail
      | None =>
          let row := take_released profile amount (now w) row in
          put_capacity identity row ;;;
          validate row ;;;
          audit_capacity_anchor_and_maybe_trip ;;;
          py_ret row
      end
  end.

(** ** Disputes and resolutions ([capacity_resolution.py]) *)

Definition freeze (escrow : float) (at_ : datetime) (c : capacity_row) : capacity_row :=
  Capacity (c_profile_id c) (total_locked_usdc c) (total_bill_credits c) (available_credits c)
    (reserved_credits c -. escrow) (in_progress_credits c) (confirmed_progress_credits c)
    (disputed_credits c +. escrow) (pending_settlement_credits c) (burned_credits c) (released_credits c) at_.

Definition move_reserved_to_disputed (buyer : string) (escrow : float) : MW unit :=
  let! w := py_get in
  match capacities (db w) !! buyer with
  | None => fail 409 "buyer has no capacity ledger; cannot open dispute"
  | Some cap =>
      ensure (negb (fltb (reserved_credits cap +. EPSILON) escrow)) 409
        "insufficient reserved credits to freeze for dispute" ;;;
      let cap := freeze escrow (now w) cap in
      put_capacity buyer cap ;;;
      validate cap ;;;
      audit_capacity_anchor_and_maybe_trip ;;;
      audit_capacity_anchor_and_maybe_trip
  end.

(** The bucket the escrow is taken from: disputed first, then reserved. *)
Definition take_escrow (escrow : float) (c : capacity_row) : option (float * float) :=
  if fgeb (disputed_credits c +. EPSILON) escrow then Some (reserved_credits c, disputed_credits c -. escrow)
  else if fgeb (reserved_credits c +. EPSILON) escrow then Some (reserved_credits c -. escrow, disputed_credits c)
  else None.

Definition resolve (escrow settled refunded : float) (buckets : float * float) (at_ : datetime) (c : capacity_row) :
    capacity_row :=
  Capacity (c_profile_id c) (total_locked_usdc c -. escrow) (total_bill_credits c -. escrow) (available_credits c)
    buckets.1 (in_progress_credits c) (confirmed_progress_credits c) buckets.2
    (pending_settlement_credits c) (burned_credits c +. settled) (released_credits c +. refunded) at_.

Definition apply_capacity_resolution (buyer : string) (escrow settled refunded : float) : MW unit :=
  let! w := py_get in
  match capacities (db w) !! buyer with
  | None => py_ret tt
  | Some cap =>
      ensure (negb (fltb (total_bill_credits cap +. EPSILON) escrow)) 409
        "capacity total_bill_credits lower than settlement escrow amount" ;;;
      ensure (negb (fltb (total_locked_usdc cap +. EPSILON) escrow)) 409
        "capacity total_locked_usdc lower than settlement escrow amount" ;;;
      match take_escrow escrow cap with
      | None => fail 409 "capacity: neither disputed_credits nor reserved_credits cover escrow amount"
      | Some buckets =>
          let cap := resolve escrow settled refunded buckets (now w) cap in
          put_capacity buyer cap ;;;
          validate cap ;;;
          audit_capacity_anchor_and_maybe_trip
      end
  end.

(** ** Quotas of profiles ([profile_capacity.py]) *)

Definition in_use (p : profile_row) : float :=
  f_or0 (p_in_progress p) +. f_or0 (p_pending_settlement p) +. f_or0 (p_disputed p).

Definition put_profile (id : string) (p : profile_row) : MW unit :=
  py_modify (fun w => set_profiles (<[id := p]> (profiles (db w))) w).

(** The sum of the requested allocations, or the first negative one. *)
Fixpoint total_requested (l : list (string * float)) (total : float) : float + string :=
  match l with
  | [] => inl total
  | (p, a) :: r => if fltb a fzero then inr ("negative allocation for " ++ p) else total_requested r (total +. a)
  end.

Fixpoint allocate_loop (identity : string) (l : list (string * float)) : MW unit :=
  match l with
  | [] => py_ret tt
  | (p, amount) :: r =>
      let! w := py_get in
      ensure (bool_decide (role_owners (db w) !! p = Some identity)) 404
        ("profile " ++ p ++ " not found for this identity") ;;;
      match profiles (db w) !! p with
      | None => put_profile p (Profile identity amount amount fzero fzero fzero fzero (now w))
      | Some row =>
          let used := in_use row in
          ensure (negb (fltb (amount +. EPSILON) used)) 409 ("cannot reduce " ++ p ++ " below in-use credits") ;;;
          put_profile p (Profile (p_owner row) amount (amount -. used) (p_in_progress row)
            (p_pending_settlement row) (p_disputed row) (p_released row) (now w))
      end ;;;
      allocate_loop identity r
  end.

Definition allocate (identity : string) (allocations : list (string * float)) : MW unit :=
  match total_requested allocations fzero with
  | inr detail => fail 400 detail
  | inl total =>
      let! w := py_get in
      match capacities (db w) !! identity with
      | None => fail 409 "no master capacity"
      | Some cap =>
          ensure (negb (fgtb total (f_or0 (total_locked_usdc cap) +. EPSILON))) 409
            "total allocation exceeds master locked" ;;;
          allocate_loop identity allocations
      end
  end.
(** [set_allocations]; the actor is already resolved to an identity. *)
Definition set_allocations (actor : option string) (identity : string) (allocations : list (string * float)) :
    MW unit :=
  ensure (truthy_str actor && bool_decide (actor = Some identity)) 403
    "only the identity owner can set allocations" ;;;
  allocate identity allocations.

Definition spend_profile_credits (p : string) (amount : float) : MW unit :=
  let! w := py_get in
  match profiles (db w) !! p with
  | None => fail 409 ("profile " ++ p ++ " has no allocation")
  | Some row =>
      ensure (negb (fgtb amount (f_or0 (p_available row) +. EPSILON))) 409 "insufficient profile credits" ;;;
      put_profile p (Profile (p_owner row) (p_allocated row) (p_available row -. amount)
        (p_in_progress row +. amount) (p_pending_settlement row) (p_disputed row) (p_released row) (now w))
  end.

(** What is settled, refunded and taken from [in_progress]; [None] when there is
    nothing to take. *)
Definition clamp_release (settled refunded in_progress : float) : option (float * float * float) :=
  let settled := fmax fzero settled in
  let refunded := fmax fzero refunded in
  let total := settled +. refunded in
  if fgtb total (in_progress +. EPSILON) then
    if fleb in_progress fzero then None
    else
      let scale := if fgtb (settled +. refunded) fzero then fdiv in_progress (settled +. refunded) else fzero in
      Some (py_round 8 (fmul settled scale), py_round 8 (fmul refunded scale), in_progress)
  else Some (settled, refunded, total).

Definition release_profile_credits (p : string) (settled refunded : float) : MW unit :=
  let! w := py_get in
  match profiles (db w) !! p with
  | None => py_ret tt
  | Some row =>
      match clamp_release settled refunded (f_or0 (p_in_progress row)) with
      | None => py_ret tt
      | Some (settled, refunded, total) =>
          put_profile p (Profile (p_owner row) (p_allocated row)
            (if fgtb refunded fzero then f_or0 (p_available row) +. refunded else p_available row)
            (p_in_progress row -. total) (p_pending_settlement row) (p_disputed row)
            (f_or0 (p_released row) +. settled) (now w))
      end
  end.
End Ledger.

(** ** The anchor *)

Definition balanced (c : capacity_row) : Prop := total_locked_usdc c = total_bill_credits c.
Definition anchored (d : escrow_db) : Prop := forall id c, capacities d !! id = Some c -> balanced c.
(** What the safety mode blocks. *)
Definition pauses (s : safety_mode) : bool * (bool * bool * bool * bool) :=
  (sm_enabled s, (pause_new_lock s, pause_new_authorization s, pause_new_task s, pause_new_settlement s)).

(** The rows a committed request leaves: balanced, and past the code's check. *)
Definition row_ok (c : capacity_row) : Prop := balanced c /\ assert_capacity_invariants c = None.
Definition ledger_ok (d : escrow_db) : Prop := forall id c, capacities d !! id = Some c -> row_ok c.
Definition quiet p (w : world) : Prop := anchored (db w) /\ pauses (safety w) = p.

Lemma ledger_ok_anchored d : ledger_ok d -> anchored d.
Proof. intros H id c Hc. by apply (H id). Qed.
Lemma anchored_put id c w : balanced c -> anchored (db w) -> anchored (db (set_capacities (<[id := c]> (capacities (db w))) w)).
Proof. intros Hc Hw id' c' H. cbn in H. apply lookup_insert_Some in H as [[_ <-]|[_ H]]; [done|by apply (Hw id')]. Qed.

Create HintDb balanced.
Lemma balanced_empty profile at_ : balanced (empty_capacity profile at_).
Proof. done. Qed.
Lemma balanced_add_locked profile x at_ c : balanced c -> balanced (add_locked profile x at_ c).
Proof. unfold balanced. by cbn; intros ->. Qed.
Lemma balanced_take_released profile x at_ c : balanced c -> balanced (take_released profile x at_ c).
Proof. unfold balanced. by cbn; intros ->. Qed.
Lemma balanced_freeze x at_ c : balanced c -> balanced (freeze x at_ c).
Proof. done. Qed.
Lemma balanced_resolve x y z b at_ c : balanced c -> balanced (resolve x y z b at_ c).
Proof. unfold balanced. by cbn; intros ->. Qed.
Lemma balanced_default profile at_ d id : anchored d -> balanced (default (empty_capacity profile at_) (capacities d !! id)).
Proof. intros Hd. destruct (capacities d !! id) as [c|] eqn:E; [by apply (Hd id)|done]. Qed.
#[export] Hint Resolve balanced_empty balanced_add_locked balanced_take_released balanced_freeze balanced_resolve
  balanced_default ledger_ok_anchored : balanced.

Section Anchor.
Context (cfg : settings) (sql_sum : list float -> float).

Lemma column_sums_agree d : anchored d -> column_sum sql_sum total_locked_usdc d = column_sum sql_sum total_bill_credits d.
Proof.
  intros Hd. unfold column_sum. assert (Forall balanced (map snd (map_to_list (capacities d)))) as Hall.
  { apply Forall_forall. intros c ((id & c') & -> & H)%list_elem_of_fmap. apply (Hd id). by apply elem_of_map_to_list in H. }
  destruct (map snd _) as [|c l]; [done|]. f_equal. revert Hall. generalize (c :: l). clear. intros l Hl.
  induction Hl as [|c l Hc _ IH]; [done|]. cbn. by rewrite Hc, IH.
Qed.

(** The database's sums are binary64 numbers. *)
Context (sql_sum_valid : forall l, valid (sql_sum l) = true).

Lemma audit_quiet w : anchored (db w) ->
  exists s, pauses s = pauses (safety w) /\ audit_capacity_anchor_and_maybe_trip sql_sum w = (set_safety s w, Ret tt).
Proof.
  intros Hw. unfold audit_capacity_anchor_and_maybe_trip, py_bind, py_get, py_modify.
  rewrite <- (column_sums_agree _ Hw). cbv beta iota zeta. set (x := f_or0 _). eexists.
  assert (fgtb x (x +. EPSILON) = false) as ->; [|by split; [|reflexivity]].
  apply fadd_not_below; [|by vm_compute].
  { subst x. unfold f_or0, column_sum. destruct (ftruthy _); [|done].
    destruct (map snd _); [done|apply sql_sum_valid]. }
Qed.

Lemma keeps_audit p : keeps (quiet p) (audit_capacity_anchor_and_maybe_trip sql_sum).
Proof.
  intros w [Hw Hp]. destruct (audit_quiet w Hw) as (s & Hs & E). unfold run_state. rewrite E. split; [done|]. cbn. by rewrite Hs.
Qed.
End Anchor.

Lemma safe_audit sql_sum (I : world -> Prop) : (forall m w, I w -> I (set_safety m w)) ->
  safe I (audit_capacity_anchor_and_maybe_trip sql_sum).
Proof.
  intros HI. apply safe_read. intros w _. apply safe_bind; [apply safe_modify; intros w'; apply HI|]. intros _.
  match goal with |- safe _ (if ?b then _ else _) => generalize b end.
  intros []; [|apply safe_ret]. apply safe_bind; [apply safe_modify; intros w'; apply HI|]. intros _. apply safe_fail.
Qed.
#[export] Hint Opaque audit_capacity_anchor_and_maybe_trip put_capacity validate put_profile require_actor
  assert_runtime_operation_allowed require_ledger_identity : keeps safe.
#[export] Hint Resolve keeps_audit : keeps.
#[export] Hint Extern 1 (safe _ (audit_capacity_anchor_and_maybe_trip _)) =>
  apply safe_audit; first [assumption|intros ? ? ?; assumption] : safe.

(** ** What the operations keep *)

Lemma quiet_anchored p w : quiet p w -> anchored (db w).
Proof. by intros [H _]. Qed.
Lemma balanced_lookup d id c : anchored d -> capacities d !! id = Some c -> balanced c.
Proof. intros H Hc. by apply (H id). Qed.
Lemma ledger_lookup d id c : ledger_ok d -> capacities d !! id = Some c -> balanced c.
Proof. intros H Hc. by apply (H id). Qed.
#[export] Hint Resolve quiet_anchored balanced_lookup ledger_lookup : balanced.

Lemma keeps_put_capacity p id c : balanced c -> keeps (quiet p) (put_capacity id c).
Proof. intros Hc. apply keeps_modify. intros w [Hw Hp]. split; [by apply anchored_put|done]. Qed.
Lemma keeps_validate (I : world -> Prop) c : keeps I (validate c).
Proof. unfold validate. destruct (assert_capacity_invariants c); [apply keeps_fail|apply keeps_ret]. Qed.
Lemma keeps_put_profile p id r : keeps (quiet p) (put_profile id r).
Proof. by apply keeps_modify. Qed.
Lemma keeps_allowed (I : world -> Prop) op : keeps I (assert_runtime_operation_allowed op).
Proof. unfold assert_runtime_operation_allowed. keep. Qed.
Lemma keeps_actor (I : world -> Prop) actor : keeps I (require_actor actor).
Proof. unfold require_actor. keep. Qed.
#[export] Hint Resolve keeps_put_capacity keeps_validate keeps_put_profile keeps_allowed keeps_actor : keeps.
#[export] Hint Extern 2 (balanced _) => solve [eauto with balanced] : keeps safe.
Lemma keeps_ledger_identity (I : world -> Prop) cfg actor id : keeps I (require_ledger_identity cfg actor id).
Proof. unfold require_ledger_identity. keep. Qed.
#[export] Hint Resolve keeps_ledger_identity : keeps.

(** The rows after [put_capacity] and [validate]: the two together keep [ledger_ok]. *)
Lemma safe_put_validate {A} id c (k : unit -> MW A) : balanced c ->
  safe (fun w => ledger_ok (db w)) (k tt) ->
  safe (fun w => ledger_ok (db w)) (put_capacity id c ;;; py_bind (validate c) k)%py.
Proof.
  intros Hc Hk s s' a Hs. unfold py_bind, put_capacity, py_modify, validate.
  destruct (assert_capacity_invariants c) as [e|] eqn:E; [discriminate|]. apply Hk.
  intros id' c' H. cbn in H. apply lookup_insert_Some in H as [[_ <-]|[_ H]]; [done|by apply (Hs id')].
Qed.
Lemma safe_allowed (I : world -> Prop) op : safe I (assert_runtime_operation_allowed op).
Proof. unfold assert_runtime_operation_allowed. stay_safe. Qed.
Lemma safe_actor (I : world -> Prop) actor : safe I (require_actor actor).
Proof. unfold require_actor. stay_safe. Qed.
Lemma safe_put_profile (P : escrow_db -> Prop) id r : (forall d x, P d -> P (db (set_profiles x (EscrowWorld d initial_safety 0)))) ->
  safe (fun w => P (db w)) (put_profile id r).
Proof. intros H. apply safe_modify. intros w Hw. exact (H _ _ Hw). Qed.
#[export] Hint Resolve safe_allowed safe_actor : safe.
Lemma safe_ledger_identity (I : world -> Prop) cfg actor id : safe I (require_ledger_identity cfg actor id).
Proof. unfold require_ledger_identity. stay_safe. Qed.
#[export] Hint Resolve safe_ledger_identity : safe.

Lemma ok_put_profile id r : safe (fun w => ledger_ok (db w)) (put_profile id r).
Proof. by apply safe_put_profile. Qed.
#[export] Hint Resolve ok_put_profile : safe.

(** [stay_safe], taking [put_capacity] and [validate] together. *)
Ltac ledger_safe :=
  repeat first
    [ progress intros
    | lazymatch goal with
      | |- safe _ (py_bind py_get _) => apply safe_read
      | |- safe _ (py_bind (put_capacity _ _) _) => apply safe_put_validate
      | |- safe _ (py_bind _ _) => apply safe_bind
      | |- safe _ (py_when _ _) => apply safe_when
      | |- safe _ (match ?x with _ => _ end) => destruct x eqn:?
      end
    | solve [eauto with safe balanced] ].

Section Keep.
Context (cfg : settings) (sql_sum : list float -> float) (sql_sum_valid : forall l, valid (sql_sum l) = true).

Lemma quiet_lock p actor id x profile : keeps (quiet p) (lock_usdc cfg sql_sum actor id x profile).
Proof. unfold lock_usdc. keep_reads. Qed.
Lemma quiet_release p actor id x profile : keeps (quiet p) (release_unused cfg sql_sum actor id x profile).
Proof. unfold release_unused. keep_reads. Qed.
Lemma quiet_freeze p buyer x : keeps (quiet p) (move_reserved_to_disputed sql_sum buyer x).
Proof. unfold move_reserved_to_disputed. keep_reads. Qed.
Lemma quiet_resolution p buyer x y z : keeps (quiet p) (apply_capacity_resolution sql_sum buyer x y z).
Proof. unfold apply_capacity_resolution. keep_reads. Qed.
Lemma quiet_allocate_loop p id l : keeps (quiet p) (allocate_loop id l).
Proof. induction l as [|[q x] l IH]; cbn [allocate_loop]; keep_reads. Qed.
Lemma quiet_allocations p actor id l : keeps (quiet p) (set_allocations actor id l).
Proof. pose proof quiet_allocate_loop. unfold set_allocations, allocate. keep_reads. Qed.
Lemma quiet_spend p q x : keeps (quiet p) (spend_profile_credits q x).
Proof. unfold spend_profile_credits. keep_reads. Qed.
Lemma quiet_release_profile p q x y : keeps (quiet p) (release_profile_credits q x y).
Proof. unfold release_profile_credits. keep_reads. Qed.

Lemma ok_lock actor id x profile : safe (fun w => ledger_ok (db w)) (lock_usdc cfg sql_sum actor id x profile).
Proof. unfold lock_usdc. ledger_safe. Qed.
Lemma ok_release actor id x profile : safe (fun w => ledger_ok (db w)) (release_unused cfg sql_sum actor id x profile).
Proof. unfold release_unused. ledger_safe. Qed.
Lemma ok_freeze buyer x : safe (fun w => ledger_ok (db w)) (move_reserved_to_disputed sql_sum buyer x).
Proof. unfold move_reserved_to_disputed. ledger_safe. Qed.
Lemma ok_resolution buyer x y z : safe (fun w => ledger_ok (db w)) (apply_capacity_resolution sql_sum buyer x y z).
Proof. unfold apply_capacity_resolution. ledger_safe. Qed.
Lemma ok_allocate_loop id l : safe (fun w => ledger_ok (db w)) (allocate_loop id l).
Proof. induction l as [|[q x] l IH]; cbn [allocate_loop]; ledger_safe. Qed.
Lemma ok_allocations actor id l : safe (fun w => ledger_ok (db w)) (set_allocations actor id l).
Proof. pose proof ok_allocate_loop. unfold set_allocations, allocate. ledger_safe. Qed.
Lemma ok_spend q x : safe (fun w => ledger_ok (db w)) (spend_profile_credits q x).
Proof. unfold spend_profile_credits. ledger_safe. Qed.
Lemma ok_release_profile q x y : safe (fun w => ledger_ok (db w)) (release_profile_credits q x y).
Proof. unfold release_profile_credits. ledger_safe. Qed.
End Keep.
#[export] Hint Opaque lock_usdc release_unused move_reserved_to_disputed apply_capacity_resolution set_allocations
  spend_profile_credits release_profile_credits : keeps safe.
#[export] Hint Resolve quiet_lock quiet_release quiet_freeze quiet_resolution quiet_allocations quiet_spend
  quiet_release_profile : keeps.
#[export] Hint Resolve ok_lock ok_release ok_freeze ok_resolution ok_allocations ok_spend ok_release_profile : safe.
