(* ===== verification/Vouchers.v ===== *)
(** * Vouchers

    [api/routes/vouchers.py], [services/voucher_lifecycle.py],
    [services/voucher_buyer_commitment.py], [services/settlement_voucher.py] and the
    seller's actions of [api/routes/payment_codes.py].  A request reaches the model
    after the validation of its path segments and texts; signatures are checked by
    parameters, and the primary keys are drawn from a supply [uid]. *)

From S2P Require Import Prelude PyBytes PyJson PyDatetime PyFloat PyHoare SettlementEngine ResponsibilityGraph EscrowDb CapacityLedger.
#[local] Open Scope string_scope.
#[local] Open Scope py_scope.

(** ** Requests *)

Record CreateVoucherRequest := VoucherRequest {
  q_buyer : string;
  q_seller : string;
  q_amount : float;
  q_currency : string;
  q_bill_credit : float;
  q_task_type : string;
  q_task_description_hash : string;
  q_progress_rule_hash : string;
  q_evidence_requirement_hash : string;
  q_expiry_time : datetime;
  q_nonce : string;
  q_signature : string;
  q_buyer_sub : option string;
  q_seller_sub : option string;
  q_rule_spec : option rule_spec;
  q_wallet : option string;
  q_profile_id : option string
}.

Record VoucherVerificationResult := Verification {
  is_expired : bool;
  is_used : bool;
  amount_matches : bool;
  seller_matches : bool;
  has_sufficient_capacity : bool;
  can_start : bool;
  verified_status : voucher_status;
  voucher_accepted : bool;
  reserved_covers_voucher_amount : bool
}.

Definition put_voucher (id : string) (v : voucher_row) : MW unit :=
  py_modify (fun w => set_vouchers (<[id := v]> (vouchers (db w))) w).

Definition record_voucher_event (id kind : string) (actor target : option string) : MW unit :=
  py_modify (fun w => set_voucher_events (voucher_events (db w) ++ [VoucherEvent id kind actor target (now w)])%list w).

(** The operations of the graph inside a request. *)
Definition on_graph {A} (m : M graph graph_error A) : MW A :=
  fun w => match m (responsibility (db w)) with
           | (g, Ret a) => (set_responsibility g w, Ret a)
           | (g, Raise (ResponsibilityGraph.IntegrityError c)) => (set_responsibility g w, Raise (Failure c))
           end.

(** ** Creating *)

Definition validate_sub_identity_binding (parent : string) (sub : option string) : MW unit :=
  match sub with
  | None => py_ret tt
  | Some s =>
      let! w := py_get in
      match sub_identities (db w) !! s with
      | None => fail 404 "sub-identity not found"
      | Some r =>
          ensure (str_eqb (sub_parent r) parent) 409 "sub-identity parent mismatch" ;;;
          ensure (sub_active r) 409 "sub-identity is not active"
      end
  end.

(** The unique constraint on buyer and nonce. *)
Definition nonce_taken (buyer nonce : string) (d : escrow_db) : bool :=
  existsb (fun x => str_eqb (v_buyer (v_terms x.2)) buyer && str_eqb (v_nonce (v_terms x.2)) nonce)
    (map_to_list (vouchers d)).

Section Vouchers.
Context (cfg : settings) (sql_sum : list float -> float) (uid : nat -> string).
(** The checks of the two kinds of signature: the text of the [ValueError], if any. *)
Context (verify_launch verify_buyer : CreateVoucherRequest -> option string).

Definition assert_buyer_commitment_for_voucher (q : CreateVoucherRequest) : MW string :=
  let attested := match q_rule_spec q with Some s => spec_attested s | None => false end in
  if attested && trade_launch_require_eip712 cfg then
    match verify_launch q with
    | Some e => fail 400 e
    | None => py_ret "trade_launch"
    end
  else if voucher_require_eip712 cfg then
    ensure (truthy_str (py_strip <$> q_wallet q)) 400
      "buyer_wallet_address is required when voucher EIP-712 is enforced" ;;;
    match verify_buyer q with
    | Some e => fail 400 e
    | None => py_ret "authorization_voucher"
    end
  else py_ret "legacy".

Definition new_voucher (q : CreateVoucherRequest) (at_ : datetime) : voucher_row :=
  Voucher (Terms (q_buyer q) (q_seller q) (q_profile_id q) (q_amount q) (q_currency q) (q_bill_credit q)
             (q_task_type q) (q_task_description_hash q) (q_progress_rule_hash q)
             (q_evidence_requirement_hash q) (q_expiry_time q) (q_nonce q) (q_signature q)
             (q_buyer_sub q) (q_seller_sub q) (q_rule_spec q) at_)
    V_CREATED None None None None None MANUAL None.

Definition create_voucher (actor : option string) (q : CreateVoucherRequest) : MW (string * voucher_row) :=
  assert_runtime_operation_allowed "new_authorization" ;;;
  audit_capacity_anchor_and_maybe_trip sql_sum ;;;
  require_ledger_identity cfg actor (q_buyer q) ;;;
  ensure (negb (fleb (q_amount q) fzero || fleb (q_bill_credit q) fzero)) 400
    "amount and bill_credit_amount must be > 0" ;;;
  let! w := py_get in
  ensure (negb (q_expiry_time q <=? now w)%Z) 400 "expiry_time must be in the future" ;;;
  ensure (match capacities (db w) !! q_buyer q with
          | Some cap => negb (fltb (available_credits cap) (q_bill_credit q))
          | None => false
          end) 409 "insufficient buyer available credits" ;;;
  match q_profile_id q with
  | Some p => py_when (truthy_str (Some p)) (spend_profile_credits p (q_bill_credit q))
  | None => py_ret tt
  end ;;;
  validate_sub_identity_binding (q_buyer q) (q_buyer_sub q) ;;;
  validate_sub_identity_binding (q_seller q) (q_seller_sub q) ;;;
  let! mode := assert_buyer_commitment_for_voucher q in
  py_require (fgtb (q_amount q) fzero && fgtb (q_bill_credit q) fzero) (Failure "ValidationError") ;;;
  let! w := py_get in
  let id := uid (drawn w) in
  let row := new_voucher q (now w) in
  py_modify draw_id ;;;
  ensure (negb (nonce_taken (q_buyer q) (q_nonce q) (db w))) 409 "duplicate voucher nonce for this buyer" ;;;
  put_voucher id row ;;;
  record_voucher_event id "voucher.created" (Some (q_buyer q)) (Some (q_seller q)) ;;;
  py_ret (id, row).

(** ** Accepting and rejecting ([voucher_lifecycle.py]) *)

Definition with_status (s : voucher_status) (v : voucher_row) : voucher_row :=
  Voucher (v_terms v) s (v_accepted_at v) (v_rejection_reason v) (v_rejected_at v) (v_rejected_by v)
    (v_task_precision v) (v_payment_mode v) (v_chain_anchor_hash v).
Definition accepted (at_ : datetime) (v : voucher_row) : voucher_row :=
  Voucher (v_terms v) V_ACCEPTED (Some at_) (v_rejection_reason v) (v_rejected_at v) (v_rejected_by v)
    (v_task_precision v) (v_payment_mode v) (v_chain_anchor_hash v).
Definition rejected (reason seller : string) (at_ : datetime) (v : voucher_row) : voucher_row :=
  Voucher (v_terms v) V_REJECTED (v_accepted_at v) (Some (str_upto 2000 reason)) (Some at_) (Some seller)
    (v_task_precision v) (v_payment_mode v) (v_chain_anchor_hash v).

Definition reserve (amount : float) (at_ : datetime) (c : capacity_row) : capacity_row :=
  Capacity (c_profile_id c) (total_locked_usdc c) (total_bill_credits c) (available_credits c -. amount)
    (reserved_credits c +. amount) (in_progress_credits c) (confirmed_progress_credits c)
    (disputed_credits c) (pending_settlement_credits c) (burned_credits c) (released_credits c) at_.

(** Only here the failed check is a [ValueError] that nothing catches. *)
Definition validate_capacity_row (c : capacity_row) : MW unit :=
  match assert_capacity_invariants c with
  | None => py_ret tt
  | Some e => py_raise (Failure e)
  end.

(** The metadata of the edge are what [meta] makes of the voucher and the actor. *)
Context (meta : voucher_terms -> string -> list (string * json)).

Definition accept_voucher_row (id : string) (row : voucher_row) (seller actor : string) : MW voucher_row :=
  let t := v_terms row in
  let! w := py_get in
  ensure (bool_decide (v_status row = V_CREATED)) 409
    ("voucher already processed: " ++ voucher_status_value (v_status row)) ;;;
  if (v_expiry_time t <=? now w)%Z then
    put_voucher id (with_status V_EXPIRED row) ;;;
    fail 409 "voucher expired"
  else
    ensure (str_eqb (v_seller t) seller) 403 "seller mismatch" ;;;
    match capacities (db w) !! v_buyer t with
    | None => fail 409 "insufficient buyer available credits"
    | Some cap =>
        ensure (negb (fltb (available_credits cap) (v_bill_credit t))) 409
          "insufficient buyer available credits" ;;;
        let cap := reserve (v_bill_credit t) (now w) cap in
        put_capacity (v_buyer t) cap ;;;
        validate_capacity_row cap ;;;
        audit_capacity_anchor_and_maybe_trip sql_sum ;;;
        let row := accepted (now w) row in
        put_voucher id row ;;;
        on_graph (ingest_edge (v_buyer t) (v_seller t) VOUCHER_ACCEPT None (Some id) (meta t actor)) ;;;
        record_voucher_event id "voucher.accepted" (Some seller) (Some (v_buyer t)) ;;;
        py_ret row
    end.

Definition reject_voucher_row (id : string) (row : voucher_row) (seller reason : string) : MW voucher_row :=
  ensure (bool_decide (v_status row = V_CREATED)) 409
    ("voucher already processed: " ++ voucher_status_value (v_status row)) ;;;
  ensure (str_eqb (v_seller (v_terms row)) seller) 403 "seller mismatch" ;;;
  let! w := py_get in
  let row := rejected reason seller (now w) row in
  put_voucher id row ;;;
  record_voucher_event id "voucher.rejected" (Some seller) (Some (v_buyer (v_terms row))) ;;;
  py_ret row.

Definition get_voucher (id : string) : MW voucher_row :=
  let! w := py_get in
  match vouchers (db w) !! id with
  | None => fail 404 ("Voucher " ++ id ++ " not found")
  | Some row => py_ret row
  end.

Definition accept_voucher (actor : option string) (id seller : string) : MW voucher_row :=
  assert_runtime_operation_allowed "new_authorization" ;;;
  audit_capacity_anchor_and_maybe_trip sql_sum ;;;
  require_ledger_identity cfg actor seller ;;;
  let! row := get_voucher id in
  accept_voucher_row id row seller "api".

(** The console's accept and reject: no safety mode is asked. *)
Definition accept_payment_code (actor : option string) (id seller : string) : MW voucher_row :=
  require_ledger_identity cfg actor seller ;;;
  let! row := get_voucher id in
  accept_voucher_row id row seller "console_manual".
Definition reject_payment_code (actor : option string) (id seller reason : string) : MW voucher_row :=
  require_ledger_identity cfg actor seller ;;;
  let! row := get_voucher id in
  reject_voucher_row id row seller reason.

Definition verify_voucher (actor : option string) (id seller : string) (expected : option float) :
    MW VoucherVerificationResult :=
  let! row := get_voucher id in
  require_ledger_identity cfg actor seller ;;;
  let! w := py_get in
  let t := v_terms row in
  let is_expired := (v_expiry_time t <=? now w)%Z in
  let is_used := mem (v_status row) [V_USED; V_CANCELLED] in
  let seller_matches := str_eqb (v_seller t) seller in
  let amount_matches := match expected with
                        | None => true
                        | Some x => fltb (fabs (v_amount t -. x)) EPSILON
                        end in
  let cap := capacities (db w) !! v_buyer t in
  let has_capacity := match cap with
                      | Some c => fgeb (available_credits c) (v_bill_credit t)
                      | None => false
                      end in
  let is_accepted := bool_decide (v_status row = V_ACCEPTED) in
  let reserved_ok := is_accepted && match cap with
                                    | Some c => fgeb (reserved_credits c +. EPSILON) (v_bill_credit t)
                                    | None => false
                                    end in
  py_ret (Verification is_expired is_used amount_matches seller_matches has_capacity
    (negb is_expired && negb is_used && seller_matches && amount_matches
       && (if is_accepted then reserved_ok else has_capacity))
    (v_status row) is_accepted reserved_ok).

(** ** Using ([settlement_voucher.py]) *)

Definition mark_voucher_used_if_linked (task : string) : MW unit :=
  let! w := py_get in
  match List.find (fun x => str_eqb (row_task_id x.2) task) (map_to_list (rows (db w))) with
  | None => py_ret tt
  | Some (_, r) =>
      match s_voucher_id (row_other r) with
      | None => py_ret tt
      | Some v =>
          match vouchers (db w) !! v with
          | Some row => py_when (negb (str_eqb v "") && bool_decide (v_status row = V_ACCEPTED))
                          (put_voucher v (with_status V_USED row))
          | None => py_ret tt
          end
      end
  end.
End Vouchers.
