(* ===== verification/PaymentCodes.v ===== *)
(** * Payment codes and pre-authorisation

    [api/routes/payment_codes.py] (creation), [services/voucher_preauth.py] and
    [services/agent_automation_policy.py] with
    [services/human_not_present_policy.py].  The payload of a code is not stored
    in a column the requests read and is left out; a fresh nonce is an argument. *)

From S2P Require Import Prelude PyBytes PyJson PyDatetime PyFloat PyRepr PyHoare PySort SettlementEngine ResponsibilityGraph EscrowDb CapacityLedger Vouchers.
#[local] Open Scope string_scope.
#[local] Open Scope py_scope.

(** ** Policies ([agent_automation_policy.py]) *)

Definition HIGH_RISK_MODES : list string := ["above_single"; "always"; "off"].
Definition ALLOWED_PERMISSIONS : list string :=
  ["request_voucher"; "verify_voucher"; "submit_receipt"; "update_progress"; "request_settlement"; "sync_task_status"].
Definition HNP_MAX_SINGLE_LIMIT : float := float_of_int 50.
Definition HNP_MAX_DAILY_LIMIT : float := float_of_int 200.
Definition HNP_SPEND_MULTIPLIER : float := float_of_ratio 1 2.

(** The fields of the request are those of the row it writes; its version and
    date are not read. *)
Definition assert_human_not_present_policy_fields (p : automation_policy) : MW unit :=
  if ap_human_not_present_allowed p then
    ensure (ap_responsibility_acknowledged p) 400
      "responsibility_acknowledged required for human_not_present_allowed" ;;;
    ensure (ap_auto_enabled p) 400 "auto_enabled must be true when human_not_present_allowed is set" ;;;
    ensure (negb (fgtb (ap_single_limit p) (HNP_MAX_SINGLE_LIMIT +. EPSILON))) 400
      "human_not_present single_limit must be <= 50.0" ;;;
    ensure (negb (fgtb (ap_daily_limit p) (HNP_MAX_DAILY_LIMIT +. EPSILON))) 400
      "human_not_present daily_limit must be <= 200.0"
  else py_ret tt.

(** Python's [min] of two numbers. *)
Definition py_fmin (x y : float) : float := if fltb y x then y else x.
Definition effective_spending_limits (p : automation_policy) : float * float :=
  if ap_human_not_present_allowed p
  then (fmul (py_fmin (ap_single_limit p) HNP_MAX_SINGLE_LIMIT) HNP_SPEND_MULTIPLIER,
        fmul (py_fmin (ap_daily_limit p) HNP_MAX_DAILY_LIMIT) HNP_SPEND_MULTIPLIER)
  else (ap_single_limit p, ap_daily_limit p).

Definition allowed_permissions (perms : list string) : MW unit :=
  match List.find (fun p => negb (str_mem p ALLOWED_PERMISSIONS)) perms with
  | Some p => fail 400 ("unknown or disallowed permission: " ++ p)
  | None => py_ret tt
  end.
(** [normalize_permissions] of [runtime_key_service.py] *)
Definition normalize_permissions (perms : list string) : MW (list string) :=
  let out := normal_set py_strip perms in
  allowed_permissions out ;;;
  ensure (match out with [] => false | _ => true end) 400
    "permissions must be a non-empty subset of allowed scopes" ;;;
  py_ret out.

Definition stored_policy (p : automation_policy) (perms : list string) (version : Z) (at_ : datetime) :
    automation_policy :=
  Policy (ap_auto_enabled p) (ap_single_limit p) (ap_daily_limit p) perms (ap_high_risk_mode p)
    (ap_responsibility_acknowledged p) version at_ (ap_preauth_enabled p) (ap_allowed_task_types p)
    (ap_task_precision_min p) (ap_task_precision_max p) (ap_trusted_counterparty_ids p)
    (ap_payment_code_ttl_seconds p) (ap_responsibility_boundary_id p) (ap_auto_accept_incoming p)
    (ap_auto_execute_pipeline p) (ap_human_not_present_allowed p).

Definition upsert_automation_policy (identity : string) (p : automation_policy) : MW automation_policy :=
  assert_human_not_present_policy_fields p ;;;
  ensure (negb (fleb (ap_single_limit p) fzero || fleb (ap_daily_limit p) fzero)) 400
    "single_limit and daily_limit must be > 0" ;;;
  ensure (negb (fltb (ap_daily_limit p +. EPSILON) (ap_single_limit p))) 400 "daily_limit must be >= single_limit" ;;;
  ensure (str_mem (ap_high_risk_mode p) HIGH_RISK_MODES) 400
    "high_risk_mode must be one of ['above_single', 'always', 'off']" ;;;
  ensure (negb ((ap_auto_enabled p || ap_preauth_enabled p) && negb (ap_responsibility_acknowledged p))) 400
    "responsibility_acknowledged must be true before enabling AI automation or preauth" ;;;
  match ap_task_precision_min p, ap_task_precision_max p with
  | Some lo, Some hi => ensure (negb (fltb (hi +. EPSILON) lo)) 400 "task_precision_max must be >= task_precision_min"
  | _, _ => py_ret tt
  end ;;;
  ensure (60 <=? ap_payment_code_ttl_seconds p)%Z 400 "payment_code_ttl_seconds must be >= 60" ;;;
  let! perms := (if ap_auto_enabled p then normalize_permissions (ap_permissions p)
                 else let out := normal_set py_strip (ap_permissions p) in allowed_permissions out ;;; py_ret out) in
  let! w := py_get in
  let version := match policies (db w) !! identity with Some old => (ap_version old + 1)%Z | None => 1%Z end in
  let row := stored_policy p perms version (now w) in
  py_modify (fun w => set_policies (<[identity := row]> (policies (db w))) w) ;;;
  py_ret row.

Definition assert_runtime_key_matches_policy (policy : automation_policy) (permissions : list string)
    (single_limit daily_limit : float) : MW unit :=
  ensure (ap_auto_enabled policy) 403
    "AI automation disabled: save automation policy with auto_enabled=true first" ;;;
  ensure (ap_responsibility_acknowledged policy) 403
    "responsibility boundary not acknowledged in automation policy" ;;;
  let! asked := normalize_permissions permissions in
  ensure (bool_decide (sort_by String.leb asked = sort_by String.leb (ap_permissions policy))) 403
    "runtime key permissions must match saved automation policy" ;;;
  ensure (negb (fgtb single_limit (ap_single_limit policy +. EPSILON))) 403
    "single_limit exceeds saved automation policy" ;;;
  ensure (negb (fgtb daily_limit (ap_daily_limit policy +. EPSILON))) 403
    "daily_limit exceeds saved automation policy".

(** ** Pre-authorisation ([voucher_preauth.py]) *)

Record PreauthEvaluation := Evaluation { ev_accept : bool; ev_reason : string; ev_code : string }.

Definition precision_in_range (value lo hi : option float) : bool :=
  match value with
  | None => match lo, hi with None, None => true | _, _ => false end
  | Some v =>
      negb (match lo with Some l => fltb (v +. EPSILON) l | None => false end)
      && negb (match hi with Some h => fgtb v (h +. EPSILON) | None => false end)
  end.
(** An empty list of allowed texts allows every one. *)
Definition listed (x : string) (l : list string) : bool := match l with [] => true | _ => str_mem x l end.
Definition boundary_of (p : automation_policy) : string := py_strip (default "" (ap_responsibility_boundary_id p)).

Definition evaluate_seller_preauth (d : escrow_db) (at_ : datetime) (seller : string) (v : voucher_row) :
    PreauthEvaluation :=
  let t := v_terms v in
  match policies d !! seller with
  | None => Evaluation false "seller preauth auto-accept not enabled" "preauth_disabled"
  | Some p =>
      if negb (ap_preauth_enabled p && ap_auto_accept_incoming p)
      then Evaluation false "seller preauth auto-accept not enabled" "preauth_disabled"
      else if negb (ap_responsibility_acknowledged p)
      then Evaluation false "seller responsibility boundary not acknowledged" "no_responsibility_ack"
      else if (v_expiry_time t <=? at_)%Z then Evaluation false "payment code expired" "expired"
      else if negb (listed (v_task_type t) (ap_allowed_task_types p))
      then Evaluation false ("task_type " ++ repr_str (v_task_type t) ++ " not allowed") "task_type_mismatch"
      else if negb (precision_in_range (v_task_precision v) (ap_task_precision_min p) (ap_task_precision_max p))
      then Evaluation false "task_precision out of seller preauth range" "precision_mismatch"
      else if fgtb (v_amount t) (ap_single_limit p +. EPSILON)
      then Evaluation false "amount exceeds seller single_limit" "amount_over_limit"
      else if fgtb (v_bill_credit t) (ap_single_limit p +. EPSILON)
      then Evaluation false "bill_credit exceeds seller single_limit" "bill_credit_over_limit"
      else if negb (listed (v_buyer t) (ap_trusted_counterparty_ids p))
      then Evaluation false "buyer not in seller trusted list" "buyer_not_trusted"
      else
        let theirs := match policies d !! v_buyer t with Some b => boundary_of b | None => "" end in
        if negb (str_eqb (boundary_of p) "") && bool_decide (v_payment_mode v = PREAUTH)
             && negb (str_eqb theirs "") && negb (str_eqb theirs (boundary_of p))
        then Evaluation false "responsibility_boundary_id mismatch" "boundary_mismatch"
        else Evaluation true "preauth rules satisfied" "accepted"
  end.

Definition evaluate_buyer_preauth_for_create (policy : option automation_policy) (seller : string) (amount : float)
    (task_type : string) (precision : option float) : PreauthEvaluation :=
  match policy with
  | None => Evaluation true "manual mode or buyer preauth off" "skipped"
  | Some p =>
      if negb (ap_preauth_enabled p) then Evaluation true "manual mode or buyer preauth off" "skipped"
      else if negb (ap_responsibility_acknowledged p)
      then Evaluation false "buyer responsibility boundary not acknowledged" "no_responsibility_ack"
      else if negb (listed task_type (ap_allowed_task_types p))
      then Evaluation false ("task_type " ++ repr_str task_type ++ " not allowed for buyer") "task_type_mismatch"
      else if negb (precision_in_range precision (ap_task_precision_min p) (ap_task_precision_max p))
      then Evaluation false "task_precision out of buyer preauth range" "precision_mismatch"
      else if fgtb amount (ap_single_limit p +. EPSILON)
      then Evaluation false "amount exceeds buyer single_limit" "amount_over_limit"
      else if negb (listed seller (ap_trusted_counterparty_ids p))
      then Evaluation false "seller not in buyer trusted list" "seller_not_trusted"
      else Evaluation true "buyer preauth ok" "ok"
  end.

(** ** Creating a code *)

Record CreatePaymentCodeRequest := CodeRequest {
  cq_buyer : string;
  cq_seller : string;
  cq_amount : float;
  cq_currency : string;
  cq_bill_credit : float;
  cq_task_type : string;
  cq_task_precision : option float;
  cq_task_description_hash : string;
  cq_progress_rule_hash : string;
  cq_evidence_requirement_hash : string;
  cq_signature : string;
  cq_nonce : option string;
  cq_wallet : option string;
  cq_buyer_sub : option string;
  cq_seller_sub : option string;
  cq_rule_spec : option rule_spec;
  cq_payment_mode : payment_mode;
  cq_chain_anchor_hash : option string;
  cq_ttl_seconds : option Z
}.

Definition or_text (s : string) (d : string) : string := if str_eqb s "" then d else s.

(** The digest of [f"{task_type}:{task_precision}:{amount}"]. *)
Definition described (q : CreatePaymentCodeRequest) : string :=
  sha256_hex (utf8 (cq_task_type q ++ ":" ++ match cq_task_precision q with Some x => repr_float x | None => "None" end
    ++ ":" ++ repr_float (cq_amount q))).

Definition code_ttl (q : CreatePaymentCodeRequest) (policy : option automation_policy) : Z :=
  match cq_ttl_seconds q, policy with
  | Some t, _ => t
  | None, Some p => if (ap_payment_code_ttl_seconds p =? 0)%Z then 3600 else ap_payment_code_ttl_seconds p
  | None, None => 3600
  end.

Definition voucher_request (q : CreatePaymentCodeRequest) (policy : option automation_policy) (fresh : string)
    (at_ : datetime) : CreateVoucherRequest :=
  VoucherRequest (cq_buyer q) (cq_seller q) (cq_amount q) (cq_currency q) (cq_bill_credit q) (cq_task_type q)
    (if str_mem (cq_task_description_hash q) [""; "auto"] then described q else cq_task_description_hash q)
    (or_text (cq_progress_rule_hash q) (sha256_hex (utf8 "progress")))
    (or_text (cq_evidence_requirement_hash q) (sha256_hex (utf8 "evidence")))
    (at_ + code_ttl q policy * US_PER_SECOND)%Z
    (or_text (py_strip (default "" (cq_nonce q))) fresh)
    (cq_signature q) (cq_buyer_sub q) (cq_seller_sub q) (cq_rule_spec q) (cq_wallet q) None.

(** The columns written after the voucher is created. *)
Definition with_code (q : CreatePaymentCodeRequest) (v : voucher_row) : voucher_row :=
  let anchor := py_strip (default "" (cq_chain_anchor_hash q)) in
  Voucher (v_terms v) (v_status v) (v_accepted_at v) (v_rejection_reason v) (v_rejected_at v) (v_rejected_by v)
    (cq_task_precision q) (cq_payment_mode q) (if str_eqb anchor "" then None else Some anchor).

Section Codes.
Context (cfg : settings) (sql_sum : list float -> float) (uid : nat -> string).
Context (verify_launch verify_buyer : CreateVoucherRequest -> option string).
Context (meta : voucher_terms -> string -> list (string * json)).

Definition create_payment_code (actor : option string) (q : CreatePaymentCodeRequest) (fresh : string) :
    MW (string * voucher_row) :=
  ensure (fgtb (cq_amount q) fzero && fgtb (cq_bill_credit q) fzero
            && match cq_task_precision q with Some x => fgeb x fzero | None => true end
            && match cq_ttl_seconds q with Some t => (60 <=? t)%Z && (t <=? 604800)%Z | None => true end) 422
    "invalid payment code request" ;;;
  require_ledger_identity cfg actor (cq_buyer q) ;;;
  let! w := py_get in
  let policy := policies (db w) !! cq_buyer q in
  (if bool_decide (cq_payment_mode q = PREAUTH) then
     ensure (match policy with Some p => ap_preauth_enabled p | None => false end) 400
       "buyer preauth_enabled required for payment_mode=preauth" ;;;
     let ev := evaluate_buyer_preauth_for_create policy (cq_seller q) (cq_amount q) (cq_task_type q)
       (cq_task_precision q) in
     ensure (ev_accept ev) 400 ("buyer_preauth_failed: " ++ ev_reason ev)
   else py_ret tt) ;;;
  let! c := create_voucher cfg sql_sum uid verify_launch verify_buyer actor (voucher_request q policy fresh (now w)) in
  let '(id, v) := c in
  let v := with_code q v in
  put_voucher id v ;;;
  record_voucher_event id "payment_code.created" (Some (cq_buyer q)) (Some (cq_seller q)) ;;;
  if bool_decide (cq_payment_mode q = PREAUTH) then
    let! w := py_get in
    let ev := evaluate_seller_preauth (db w) (now w) (cq_seller q) v in
    let! v := (if ev_accept ev then accept_voucher_row sql_sum meta id v (cq_seller q) "preauth_auto"
               else reject_voucher_row id v (cq_seller q) (ev_reason ev)) in
    py_ret (id, v)
  else py_ret (id, v).
End Codes.
