(* ===== verification/ProgressReceipts.v ===== *)
(** * Progress receipts

    [services/progress_curve.py], the checks of [services/receipt_guard.py] and
    the requests of [api/routes/progress.py], with the access rules of
    [services/settlement_party_access.py].  A [SELECT] without [ORDER BY] returns
    rows in insertion order, and of rows with the latest timestamp the first. *)

From S2P Require Import Prelude PyBytes PyJson PyDatetime PyFloat PyHoare PySort SettlementEngine ResponsibilityGraph EscrowDb CapacityLedger.
#[local] Open Scope string_scope.
#[local] Open Scope py_scope.

(** ** The value curve ([progress_curve.py]) *)

Definition f100 : float := float_of_int 100.
(** [1e-12] *)
Definition e12 : float := float_of_ratio 1 1000000000000.
(** [1e-6] *)
Definition e6 : float := float_of_ratio 1 1000000.

Fixpoint pairs (l : list (option (float * float))) : option (list (float * float)) :=
  match l with
  | [] => Some []
  | Some p :: r => cons p <$> pairs r
  | None :: _ => None
  end.

(** The loop over adjacent points. *)
Fixpoint on_segment (pp : float) (l : list (float * float)) : option float :=
  match l with
  | (p0, v0) :: (((p1, v1) :: rest) as l') =>
      let last := match rest with [] => true | _ => false end in
      if (fleb p0 pp && fleb pp p1) || (last && fltb (fabs (pp -. p1)) EPSILON) then
        if fltb (fabs (p1 -. p0)) e12 then Some (fmax v0 v1)
        else Some (v0 +. fmul (fdiv (pp -. p0) (p1 -. p0)) (v1 -. v0))
      else on_segment pp l'
  | _ => None
  end.

(** The ceiling, or the [ValueError]. *)
Definition max_allowed_claimed_value_percent (percent : float) (spec : option rule_spec) : float + string :=
  match spec with
  | None => inl percent
  | Some s =>
      match spec_type s with
      | None => inl percent
      | Some k =>
          if str_eqb k "linear" then inl percent
          else if negb (str_eqb k "piecewise") then inr "unsupported progress_rule_spec.type"
          else match spec_points s with
               | Some ((_ :: _ :: _) as raw) =>
                   match pairs raw with
                   | None => inr "each piecewise point must be [progress_percent, value_percent]"
                   | Some ps =>
                       let points := sort_by (fun a b => fleb a.1 b.1) ps in
                       let first := default (fzero, fzero) (hd_error points) in
                       let last := List.last points (fzero, fzero) in
                       if fgtb first.1 EPSILON || fltb last.1 (f100 -. EPSILON)
                       then inr "piecewise points must cover 0..100 on progress axis"
                       else inl (default last.2 (on_segment (fmax fzero (fmin f100 percent)) points))
                   end
               | _ => inr "piecewise progress_rule_spec requires points: list of [progress, value] pairs"
               end
      end
  end.

Definition validate_claimed_against_curve (percent claimed : float) (spec : option rule_spec) : option string :=
  match max_allowed_claimed_value_percent percent spec with
  | inr e => Some e
  | inl ceiling => if fgtb (claimed -. e6) ceiling then Some "claimed_value_percent exceeds curve ceiling" else None
  end.

(** ** The static checks ([receipt_guard.py]) *)

Definition hex_char (c : ascii) : bool :=
  let n := nat_of_ascii c in ((48 <=? n) && (n <=? 57) || (97 <=? n) && (n <=? 102))%nat.
Fixpoint all_hex (s : string) : bool :=
  match s with
  | EmptyString => true
  | String c r => hex_char c && all_hex r
  end.
Definition is_hex_64 (s : string) : bool := (String.length s =? 64)%nat && all_hex (py_lower s).

Definition delivery_signatures_relaxed (cfg : settings) : bool :=
  if production cfg then false
  else match relax_delivery_signatures cfg with
       | Some b => b
       | None => phase1_auto_relax cfg && negb (trade_launch_require_eip712 cfg)
       end.

Definition validate_progress_receipt_static (cfg : settings) (at_ : datetime) (p : progress_row) : option string :=
  if negb (is_hex_64 (pr_evidence_hash p)) then Some "progress evidence_hash must be 64-char lowercase hex"
  else if negb (is_hex_64 (pr_runtime_log_hash p)) then Some "progress runtime_log_hash must be 64-char lowercase hex"
  else if progress_require_signature cfg && negb (delivery_signatures_relaxed cfg)
          && str_eqb (py_strip (pr_signature p)) ""
  then Some "progress seller_signature is required"
  else if (at_ + Z.max 0 (receipt_max_future_skew_seconds cfg) * US_PER_SECOND <? pr_timestamp p)%Z
  then Some "progress timestamp is too far in the future"
  else if (pr_timestamp p <? at_ - hours (Z.max 1 (receipt_max_past_hours cfg)))%Z
  then Some "progress timestamp is too far in the past"
  else None.

(** ** Access ([settlement_party_access.py]) *)

Section Access.
Context (cfg : settings) (actor : option string).

Definition party_binding_active : bool := settlement_require_party_actor cfg && auth_enforce_protected_routes cfg.

Definition require_buyer (s : settlement) : MW unit :=
  if party_binding_active then
    let! a := require_actor actor in
    ensure (str_eqb a (client_agent_id s)) 403 "only the settlement buyer may perform this action"
  else py_ret tt.
Definition require_worker (s : settlement) : MW unit :=
  if party_binding_active then
    let! a := require_actor actor in
    ensure (truthy_str (worker_agent_id s)) 409 "settlement has no assigned worker" ;;;
    ensure (bool_decide (worker_agent_id s = Some a)) 403 "only the assigned worker may perform this action"
  else py_ret tt.
Definition require_buyer_or_worker (s : settlement) : MW unit :=
  if party_binding_active then
    let! a := require_actor actor in
    ensure (str_eqb a (client_agent_id s) || (truthy_str (worker_agent_id s) && bool_decide (worker_agent_id s = Some a)))
      403 "only the settlement buyer or assigned worker may perform this action"
  else py_ret tt.
(** [require_buyer_on_create], [require_actor_matches_identity] *)
Definition require_actor_matches (identity : string) : MW unit :=
  if party_binding_active then
    let! a := require_actor actor in
    ensure (str_eqb a identity) 403 "authenticated actor must match the asserted identity for this operation"
  else py_ret tt.
End Access.

(** ** Settlement rows inside a request *)

(** [store.get]; a status that cannot be read is an uncaught [ValueError]. *)
Definition load_settlement (task : string) : MW (option settlement) :=
  let! w := py_get in
  match get task (rows (db w)) with
  | Some s => py_ret s
  | None => py_raise (Failure "invalid status value")
  end.
(** ... or 404. *)
Definition settlement_of (task : string) : MW settlement :=
  let! s := load_settlement task in
  match s with
  | Some s => py_ret s
  | None => fail 404 ("Settlement " ++ task ++ " not found")
  end.
(** [store.save] where nothing catches its errors. *)
Definition save_settlement (s : settlement) : MW unit :=
  let! w := py_get in
  match save s (rows (db w)) with
  | (rs, Ret _) => py_modify (set_rows rs)
  | (_, Raise e) => py_raise (Failure (default "IntegrityError" (store_error_text e)))
  end.

(** ** The requests ([routes/progress.py]) *)

Definition of_task (task : string) (p : progress_row) : bool := str_eqb (pr_task_id p) task.
(** The first row with the greatest timestamp. *)
Definition later (best : option progress_row) (p : progress_row) : option progress_row :=
  match best with
  | Some b => if (pr_timestamp b <? pr_timestamp p)%Z then Some p else best
  | None => Some p
  end.
Definition latest_progress (task : string) (l : list progress_row) : option progress_row :=
  fold_left later (List.filter (of_task task) l) None.
Definition same_hashes (p q : progress_row) : bool :=
  of_task (pr_task_id p) q && str_eqb (pr_evidence_hash q) (pr_evidence_hash p)
    && str_eqb (pr_runtime_log_hash q) (pr_runtime_log_hash p).

Definition in_percent (x : float) : bool := fgeb x fzero && fleb x f100.

Definition submit_progress_receipt (cfg : settings) (actor : option string) (p : progress_row) : MW progress_row :=
  ensure (in_percent (pr_percent p) && in_percent (pr_claimed p)) 422 "percentages must be between 0 and 100" ;;;
  let! w := py_get in
  match validate_progress_receipt_static cfg (now w) p with
  | Some e => fail 400 e
  | None => py_ret tt
  end ;;;
  ensure (negb (existsb (fun q => str_eqb (pr_id q) (pr_id p)) (progress (db w)))) 409
    ("Progress receipt " ++ pr_id p ++ " already exists") ;;;
  match latest_progress (pr_task_id p) (progress (db w)) with
  | Some l =>
      ensure (negb (pr_timestamp p <? pr_timestamp l)%Z) 409 "progress timestamp is older than latest receipt" ;;;
      ensure (negb (fltb (pr_percent p +. EPSILON) (pr_percent l))) 409 "progress_percent rollback is not allowed" ;;;
      ensure (negb (fltb (pr_claimed p +. EPSILON) (pr_claimed l))) 409 "claimed_value_percent rollback is not allowed"
  | None => py_ret tt
  end ;;;
  ensure (negb (existsb (same_hashes p) (progress (db w)))) 409
    "duplicate progress evidence/runtime hash pair already submitted" ;;;
  let! s := settlement_of (pr_task_id p) in
  require_actor_matches cfg actor (pr_seller p) ;;;
  match validate_claimed_against_curve (pr_percent p) (pr_claimed p) (s_rule_spec (other s)) with
  | Some e => fail 400 e
  | None => py_ret tt
  end ;;;
  ensure (negb (truthy_str (worker_agent_id s)) || bool_decide (worker_agent_id s = Some (pr_seller p))) 409
    "seller_identity_id does not match settlement worker_agent_id" ;;;
  ensure (can_transition (status s) TS_PROGRESS_SUBMITTED) 409 "invalid status transition" ;;;
  py_modify (fun w => set_progress (progress (db w) ++ [p])%list w) ;;;
  save_settlement (set_status TS_PROGRESS_SUBMITTED (now w) s) ;;;
  py_ret p.

Definition confirm_row (at_ : datetime) (p : progress_row) : progress_row :=
  Progress (pr_id p) (pr_task_id p) (pr_seller p) (pr_percent p) (pr_claimed p) (pr_evidence_hash p)
    (pr_runtime_log_hash p) (pr_timestamp p) (pr_signature p) (pr_validation_method p) P_CONFIRMED (Some at_).
Definition confirm_where (c : progress_row -> bool) (at_ : datetime) (l : list progress_row) : list progress_row :=
  map (fun p => if c p then confirm_row at_ p else p) l.

Definition confirm_progress_receipt (cfg : settings) (actor : option string) (id : string) : MW progress_row :=
  let! w := py_get in
  match List.find (fun p => str_eqb (pr_id p) id) (progress (db w)) with
  | None => fail 404 ("Progress receipt " ++ id ++ " not found")
  | Some row =>
      if bool_decide (pr_status row = P_CONFIRMED) then py_ret row
      else
        let! s := settlement_of (pr_task_id row) in
        (if party_binding_active cfg then require_buyer cfg actor s
         else if progress_confirm_require_buyer_actor cfg
              then ensure (truthy_str actor && bool_decide (actor = Some (client_agent_id s))) 403
                     "progress confirmation must be performed by the settlement buyer"
              else py_ret tt) ;;;
        ensure (can_transition (status s) TS_PROGRESS_CONFIRMED) 409 "invalid status transition" ;;;
        py_modify (fun w => set_progress
          (confirm_where (fun p => str_eqb (pr_id p) id) (now w) (progress (db w))) w) ;;;
        save_settlement (set_status TS_PROGRESS_CONFIRMED (now w) s) ;;;
        py_ret (confirm_row (now w) row)
  end.

Definition overdue (task : string) (cutoff : datetime) (p : progress_row) : bool :=
  of_task task p && bool_decide (pr_status p = P_PENDING) && (pr_timestamp p <=? cutoff)%Z.

Definition timeout_confirm_progress (cfg : settings) (actor : option string) (task : string) (max_pending_us : Z) :
    MW (list progress_row) :=
  let! w := py_get in
  let cutoff := (now w - max_pending_us)%Z in
  let! s := settlement_of task in
  require_buyer cfg actor s ;;;
  let found := List.filter (overdue task cutoff) (progress (db w)) in
  let none := match found with [] => true | _ => false end in
  ensure (none || can_transition (status s) TS_PROGRESS_CONFIRMED) 409 "cannot timeout-confirm" ;;;
  py_modify (fun w => set_progress (confirm_where (overdue task cutoff) (now w) (progress (db w))) w) ;;;
  (if none then py_ret tt else save_settlement (set_status TS_PROGRESS_CONFIRMED (now w) s)) ;;;
  py_ret (map (confirm_row (now w)) found).
