(* ===== verification/AutoArbitration.v ===== *)
(** * Automatic arbitration ([services/auto_arbitration_rules.py])

    What the rules look at, and the split they decide.  The digest of a stored
    receipt is a column of its row; the digests a bundle declares are text. *)

From S2P Require Import Prelude PyBytes PyJson PyDatetime PyFloat PySort SettlementEngine ResponsibilityGraph EscrowDb ProgressReceipts.
#[local] Open Scope string_scope.

Definition normal_hash (h : string) : string := py_lower (py_strip h).
Definition hashes_well_formed (l : list string) : bool :=
  match l with [] => false | _ => forallb (fun h => is_hex_64 (normal_hash h)) l end.

Record AutoArbitrationContext := Context_ {
  delivery_overdue : bool;
  has_success_receipt : bool;
  bundle_receipt_ids_ok : option bool;
  bundle_step_counts_ok : option bool;
  bundle_receipt_hashes_match : option bool
}.

Definition task_receipts (task : string) (l : list receipt_row) : list receipt_row :=
  List.filter (fun r => str_eqb (r_task_id r) task) l.

Definition step_counts_ok (b : bundle_row) (n : Z) : bool :=
  ((b_total_steps b =? n) && (b_successful_steps b + b_failed_steps b <=? n)
     && (0 <=? b_successful_steps b) && (0 <=? b_failed_steps b))%Z.

Definition build_auto_arbitration_context (d : escrow_db) (at_ : datetime) (task : string) (st : TaskStatus)
    (deadline : option datetime) : AutoArbitrationContext :=
  let late := match deadline with
              | Some t => (t <? at_)%Z && negb (bool_decide (st = TS_DELIVERED))
              | None => false
              end in
  let rs := task_receipts task (receipts d) in
  let success := existsb r_success rs in
  match bundles d !! task, rs with
  | None, _ => Context_ late success None None None
  | Some _, [] => Context_ late success (Some false) (Some false) (Some false)
  | Some b, _ =>
      let ordered := sort_by (fun x y => (r_step_index x <=? r_step_index y)%Z) rs in
      Context_ late success
        (Some (bool_decide (b_receipt_ids b = map r_id ordered)))
        (Some (step_counts_ok b (Z.of_nat (length ordered))))
        (Some (hashes_well_formed (b_receipt_hashes b)
                 && bool_decide (map normal_hash (b_receipt_hashes b) = map r_digest ordered)))
  end.

Definition f50 : float := float_of_int 50.
Definition f90 : float := float_of_int 90.
Definition round2 : float -> float := py_round 2.

Inductive split_rule : Type :=
| Bundle_format | Integrity_no_progress | Overdue_no_progress | No_success_receipt
| Integrity_partial | No_progress | Near_complete | Partial_progress.

(** What the rule is, what is settled and what is refunded. *)
Definition adjust_auto_split_for_rules (c : AutoArbitrationContext) (confirmed escrow : float) :
    float * float * split_rule :=
  let buyer_wins r := (fzero, round2 escrow, r) in
  let integrity_bad := bool_decide (bundle_receipt_ids_ok c = Some false)
                         || bool_decide (bundle_receipt_hashes_match c = Some false) in
  let none := fleb confirmed fzero in
  if bool_decide (bundle_step_counts_ok c = Some false) then buyer_wins Bundle_format
  else if integrity_bad && none then buyer_wins Integrity_no_progress
  else if delivery_overdue c && none then buyer_wins Overdue_no_progress
  else if negb (has_success_receipt c) && none then buyer_wins No_success_receipt
  else if integrity_bad && fltb confirmed f50 then
    let settled := round2 (fdiv (fmul escrow (fmax confirmed fzero)) f100) in
    (settled, round2 (fsub escrow settled), Integrity_partial)
  else if none then buyer_wins No_progress
  else if fgeb confirmed f90 then (round2 escrow, fzero, Near_complete)
  else
    let settled := round2 (fdiv (fmul escrow confirmed) f100) in
    (settled, round2 (fsub escrow settled), Partial_progress).
