(* ===== verification/SettlementRoutes.v ===== *)
(** * Settlement requests ([api/routes/settlement.py])

    Every request that changes a settlement, with
    [services/settlement_receipt_release_guard.py] and
    [services/task_contract_guard.py].  What services outside the model answer is
    an argument of the request: the delivery and confirmation gates, and whether
    what runs after the last modelled change fails ([afterwards]). *)

From S2P Require Import Prelude PyBytes PyJson PyDatetime PyFloat PyHoare SettlementEngine PaymentCycle ResponsibilityGraph EscrowDb CapacityLedger Vouchers ProgressReceipts AutoArbitration.
#[local] Open Scope string_scope.
#[local] Open Scope py_scope.

(** The caller, as the headers tell, and the path of the request. *)
Record request := Request { rq_actor : option string; rq_path : string }.

(** ** Transitions *)

Definition audit_row (s : settlement) (from : option TaskStatus) (to : TaskStatus) (ok : bool)
    (stage reason : string) (rq : request) : transition_audit :=
  Audit (settlement_id s) (task_id s) from to ok stage (Some reason) (Some (rq_path rq)) (rq_actor rq).
Definition record_transition_audit (a : transition_audit) : MW unit :=
  py_modify (fun w => set_audits (audits (db w) ++ [a])%list w).

Definition apply_transition (rq : request) (s : settlement) (target : TaskStatus) (reason : string) : MW settlement :=
  let from := status s in
  if negb (can_transition from target) then
    let detail := "invalid status transition: " ++ TaskStatus_value from ++ " -> " ++ TaskStatus_value target in
    record_transition_audit (audit_row s (Some from) target false "route" detail rq) ;;;
    fail 409 detail
  else
    let! w := py_get in
    let s := set_status target (now w) s in
    match save s (rows (db w)) with
    | (rs, Ret _) =>
        py_modify (set_rows rs) ;;;
        record_transition_audit (audit_row s (Some from) target true "store" reason rq) ;;;
        py_ret s
    | (_, Raise e) =>
        match store_error_text e with
        | Some detail =>
            record_transition_audit (audit_row s (Some from) target false "store" detail rq) ;;;
            fail 409 detail
        | None => py_raise (Failure "IntegrityError")
        end
    end.

Definition set_worker (worker : string) (s : settlement) : settlement :=
  Settlement (settlement_id s) (task_id s) (escrow_amount s) (currency s) (status s) (client_agent_id s)
    (Some worker) (updated_at s) (other s).
Definition set_columns (c : settlement_columns) (s : settlement) : settlement :=
  Settlement (settlement_id s) (task_id s) (escrow_amount s) (currency s) (status s) (client_agent_id s)
    (worker_agent_id s) (updated_at s) c.
(** [released_amount], [refunded_amount] and [released_at] assigned. *)
Definition set_split (settled refunded : float) (at_ : option datetime) (s : settlement) : settlement :=
  let c := other s in
  set_columns (Columns (s_profile_id c) (Some settled) (Some refunded) (s_dispute_reason c) at_
    (s_voucher_id c) (s_delivery_deadline_at c) (s_rule_spec c)) s.
Definition set_dispute_reason (reason : string) (s : settlement) : settlement :=
  let c := other s in
  set_columns (Columns (s_profile_id c) (s_released_amount c) (s_refunded_amount c) (Some reason)
    (s_released_at c) (s_voucher_id c) (s_delivery_deadline_at c) (s_rule_spec c)) s.
Definition set_rule_spec (spec : rule_spec) (s : settlement) : settlement :=
  let c := other s in
  set_columns (Columns (s_profile_id c) (s_released_amount c) (s_refunded_amount c) (s_dispute_reason c)
    (s_released_at c) (s_voucher_id c) (s_delivery_deadline_at c) (Some spec)) s.

(** A scene asked for is written into a rule that is missing. *)
Definition set_scene (scene : option string) (s : settlement) : settlement :=
  match scene, s_rule_spec (other s) with
  | Some h, None => set_rule_spec (RuleSpec None None (Some h) false) s
  | _, _ => s
  end.

(** ** Guards *)

(** [_confirmed_progress_percent] *)
Definition confirmed_progress_percent (task : string) (d : escrow_db) : float :=
  match List.filter (fun p => of_task task p && bool_decide (pr_status p = P_CONFIRMED)) (progress d) with
  | [] => fzero
  | p :: r => fold_left (fun m q => fmax m (pr_claimed q)) r (pr_claimed p)
  end.

(** [_scene_id_from_settlement] *)
Definition scene_id_from_settlement (s : settlement) : option string :=
  match s_rule_spec (other s) with
  | Some r => match spec_scene_id r with
              | Some x => if str_eqb (py_strip x) "" then None else Some (py_strip x)
              | None => None
              end
  | None => None
  end.

(** The payment cycle is looked for over the rows of the table. *)
Definition payment_rows (rs : settlements settlement_columns) : list settlement_row :=
  map (fun x => SettlementRow (row_task_id x.2) (row_client_agent_id x.2) (row_worker_agent_id x.2) (row_status x.2))
    (map_to_list rs).

Section Routes.
Context (cfg : settings) (sql_sum : list float -> float) (uid : nat -> string).

Definition ensure_success_execution_receipt (task : string) (settled : float) : MW unit :=
  if requires_success_receipt cfg && negb (fleb settled e6) then
    let! w := py_get in
    ensure (existsb r_success (task_receipts task (receipts (db w)))) 409
      "at least one successful execution receipt is required before releasing funds to the seller"
  else py_ret tt.

(** A gate of an unmodelled service: the code and detail of its refusal, if any. *)
Definition gate (refusal : option (Z * string)) : MW unit :=
  match refusal with Some (code, detail) => fail code detail | None => py_ret tt end.

(** [_release_profile_credits_if_bound], without the reputation of the profile. *)
Definition release_profile_credits_if_bound (s : settlement) : MW unit :=
  match s_profile_id (other s) with
  | Some p =>
      py_when (truthy_str (Some p))
        (release_profile_credits p
           (match s_released_amount (other s) with
            | Some x => if ftruthy x then x else f_or0 (escrow_amount s)
            | None => f_or0 (escrow_amount s)
            end)
           (f_or0 (default fzero (s_refunded_amount (other s)))))
  | None => py_ret tt
  end.

(** ** Creating and moving *)

Record CreateSettlementRequest := SettlementRequest {
  n_task_id : string;
  n_client_agent_id : string;
  n_escrow_amount : float;
  n_currency : string;
  n_voucher_id : option string;
  n_delivery_deadline_at : option datetime;
  n_profile_id : option string
}.

(** The voucher a settlement is bound to: its profile and its rule. *)
Definition bind_voucher (q : CreateSettlementRequest) : MW (option string * option rule_spec) :=
  match n_voucher_id q with
  | Some v =>
      if str_eqb v "" then py_ret (n_profile_id q, None)
      else
        let! w := py_get in
        match vouchers (db w) !! v with
        | None => fail 404 ("voucher " ++ v ++ " not found")
        | Some row =>
            ensure (bool_decide (v_status row = V_ACCEPTED)) 409
              ("voucher must be accepted before settlement bind, got " ++ voucher_status_value (v_status row)) ;;;
            ensure (str_eqb (v_buyer (v_terms row)) (n_client_agent_id q)) 409
              "settlement client_agent_id must match voucher buyer_identity_id" ;;;
            ensure (negb (fgtb (fabs (v_bill_credit (v_terms row) -. n_escrow_amount q)) e6)) 409
              "escrow_amount must equal voucher bill_credit_amount when voucher_id is set" ;;;
            py_ret (if truthy_str (v_profile_id (v_terms row)) && negb (truthy_str (n_profile_id q))
                    then v_profile_id (v_terms row) else n_profile_id q, v_rule_spec (v_terms row))
        end
  | None => py_ret (n_profile_id q, None)
  end.

Definition create_settlement (rq : request) (q : CreateSettlementRequest) : MW settlement :=
  assert_runtime_operation_allowed "new_task" ;;;
  audit_capacity_anchor_and_maybe_trip sql_sum ;;;
  require_actor_matches cfg (rq_actor rq) (n_client_agent_id q) ;;;
  let! w := py_get in
  ensure (bool_decide (n_task_id q ∈ contracts (db w))) 404 "task contract not found for this task_id" ;;;
  let! b := bind_voucher q in
  let s := Settlement (uid (drawn w)) (n_task_id q) (n_escrow_amount q) (n_currency q) TS_DRAFT
    (n_client_agent_id q) None (now w)
    (Columns b.1 None None None None (n_voucher_id q) (n_delivery_deadline_at q) b.2) in
  py_modify draw_id ;;;
  let! existing := load_settlement (n_task_id q) in
  ensure (match existing with None => true | Some _ => false end) 409
    ("Settlement already exists for task " ++ n_task_id q) ;;;
  save_settlement s ;;;
  record_transition_audit (audit_row s None TS_DRAFT true "route" "settlement created" rq) ;;;
  py_ret s.

(** The requests that only move the status. *)
Definition move (rq : request) (who : settlement -> MW unit) (refusal : option (Z * string)) (task : string)
    (target : TaskStatus) (reason : string) : MW settlement :=
  assert_runtime_operation_allowed "new_task" ;;;
  audit_capacity_anchor_and_maybe_trip sql_sum ;;;
  let! s := settlement_of task in
  who s ;;;
  gate refusal ;;;
  apply_transition rq s target reason.

Definition mark_settlement_pending (rq : request) (task : string) : MW settlement :=
  move rq (require_buyer cfg (rq_actor rq)) None task TS_PENDING "task moved to pending".
Definition start_settlement (rq : request) (task : string) : MW settlement :=
  move rq (require_worker cfg (rq_actor rq)) None task TS_IN_PROGRESS "task execution started".
Definition submit_settlement (rq : request) (refusal : option (Z * string)) (task : string) : MW settlement :=
  move rq (require_worker cfg (rq_actor rq)) refusal task TS_DELIVERED "delivery submitted".
Definition fail_settlement (rq : request) (task : string) : MW settlement :=
  move rq (require_buyer_or_worker cfg (rq_actor rq)) None task TS_CANCELLED "task failed and cancelled".

Definition lock_settlement (rq : request) (task worker : string) (fault : option string) : MW settlement :=
  assert_runtime_operation_allowed "new_task" ;;;
  audit_capacity_anchor_and_maybe_trip sql_sum ;;;
  let! s := settlement_of task in
  require_buyer cfg (rq_actor rq) s ;;;
  ensure (negb (str_eqb worker (client_agent_id s))) 409
    "worker_agent_id cannot equal settlement buyer (client_agent_id)" ;;;
  let! w := py_get in
  match assert_lock_does_not_close_payment_cycle (block_payment_cycle cfg) (payment_rows (rows (db w))) task
          (client_agent_id s) worker with
  | Raise (HTTPException code detail) => fail code detail
  | _ => py_ret tt
  end ;;;
  ensure (negb (settlement_lock_requires_pending cfg && bool_decide (canonical_task_status (status s) = TS_DRAFT))) 409
    "settlement must be moved to pending before lock (settlement_lock_requires_pending)" ;;;
  let! s := apply_transition rq (set_worker worker s) TS_ACCEPTED "worker accepted settlement" in
  afterwards fault ;;;
  py_ret s.

(** ** Resolving *)

(** The end of every resolution: the status is moved, the escrow leaves the
    buyer's ledger, the profile's quota (where the request releases it) and the
    voucher follow. *)
Definition finish (rq : request) (s : settlement) (target : TaskStatus) (reason payer : string)
    (settled refunded : float) (release_profile : bool) (fault : option string) : MW settlement :=
  let! s := apply_transition rq s target reason in
  apply_capacity_resolution sql_sum payer (escrow_amount s) settled refunded ;;;
  py_when release_profile (release_profile_credits_if_bound s) ;;;
  mark_voucher_used_if_linked (task_id s) ;;;
  afterwards fault ;;;
  py_ret s.

(** What a percentage of the escrow settles, and what remains. *)
Definition split_percent (escrow percent : float) : float * float :=
  let settled := round2 (fdiv (fmul escrow percent) f100) in (settled, round2 (escrow -. settled)).

Definition new_settlement_allowed : MW unit :=
  assert_runtime_operation_allowed "new_settlement" ;;;
  audit_capacity_anchor_and_maybe_trip sql_sum.

Definition e4 : float := float_of_ratio 1 10000.

Definition partial_settlement (rq : request) (task : string) (percent : float) (fault : option string) : MW settlement :=
  ensure (fgtb percent fzero && fleb percent f100) 422 "settled_value_percent must be in (0, 100]" ;;;
  new_settlement_allowed ;;;
  let! s := settlement_of task in
  require_buyer cfg (rq_actor rq) s ;;;
  let! w := py_get in
  let confirmed := confirmed_progress_percent task (db w) in
  (if fgtb percent e4 then
     if fgtb confirmed EPSILON then
       ensure (negb (fgtb percent (confirmed +. e4))) 400 "settled_value_percent exceeds confirmed claimed value ceiling"
     else
       ensure (bool_decide (canonical_task_status (status s) = TS_DELIVERED)) 400
         "partial settlement with no confirmed progress requires delivered status"
   else py_ret tt) ;;;
  let '(settled, refunded) := split_percent (escrow_amount s) percent in
  ensure_success_execution_receipt task settled ;;;
  finish rq (set_split settled refunded (Some (now w)) s) TS_SETTLED "manual partial settlement applied"
    (client_agent_id s) settled refunded false fault.

Definition regret_settlement (rq : request) (task : string) (buyer reason : option string) (fault : option string) :
    MW settlement :=
  new_settlement_allowed ;;;
  let! s := settlement_of task in
  require_buyer cfg (rq_actor rq) s ;;;
  ensure (match buyer with None => true | Some b => str_eqb b (client_agent_id s) end) 403
    "buyer_identity_id does not match settlement buyer (client_agent_id)" ;;;
  let! w := py_get in
  let '(settled, refunded) := split_percent (escrow_amount s) (confirmed_progress_percent task (db w)) in
  ensure_success_execution_receipt task settled ;;;
  let s := set_dispute_reason (if truthy_str reason then default "" reason else "buyer regret") s in
  finish rq (set_split settled refunded (Some (now w)) s) TS_SETTLED "buyer regret settlement"
    (if truthy_str buyer then default "" buyer else client_agent_id s) settled refunded false fault.

Definition buyer_accept_settlement (rq : request) (task : string) (scene : option string)
    (delivery confirmation : option (Z * string)) (fault : option string) : MW settlement :=
  let! s := settlement_of task in
  require_buyer cfg (rq_actor rq) s ;;;
  ensure (bool_decide (status s = TS_DELIVERED)) 409 "buyer accept requires delivered status" ;;;
  new_settlement_allowed ;;;
  let asked := py_strip (default "" scene) in
  let hint := if str_eqb asked "" then scene_id_from_settlement s else Some asked in
  let s := set_scene hint s in
  gate delivery ;;;
  gate confirmation ;;;
  ensure_success_execution_receipt task (escrow_amount s) ;;;
  let! w := py_get in
  finish rq (set_split (round2 (escrow_amount s)) fzero (Some (now w)) s) TS_SETTLED "buyer accepted delivered work"
    (client_agent_id s) (escrow_amount s) fzero true fault.

(** Columns that the table does not have: every settlement read from it has none. *)
Definition confirm_window_hours (s : settlement) : option Z := None.
Definition confirm_deadline_at (s : settlement) : option datetime := None.

Definition auto_confirm_settlement (rq : request) (task : string) (delivery forbidden : option (Z * string))
    (fault : option string) : MW settlement :=
  let! s := settlement_of task in
  ensure (bool_decide (canonical_task_status (status s) = TS_DELIVERED)) 409 "auto-confirm requires delivered" ;;;
  match confirm_window_hours s with
  | None => fail 409 "confirm_window_hours not set"
  | Some window =>
      let! w := py_get in
      let deadline := default (updated_at s + hours window)%Z (confirm_deadline_at s) in
      ensure (deadline <=? now w)%Z 409 "confirm window not expired" ;;;
      require_buyer_or_worker cfg (rq_actor rq) s ;;;
      new_settlement_allowed ;;;
      gate delivery ;;;
      gate forbidden ;;;
      let! s := apply_transition rq s TS_AUTO_CONFIRMED "confirm window expired" in
      finish rq (set_split (round2 (escrow_amount s)) fzero (Some (now w)) s) TS_SETTLED "auto-confirmed -> settled"
        (client_agent_id s) (escrow_amount s) fzero true fault
  end.

(** ** Disputes *)

Definition open_dispute (rq : request) (task : string) (reason : option string) : MW settlement :=
  let! s := settlement_of task in
  require_buyer cfg (rq_actor rq) s ;;;
  move_reserved_to_disputed sql_sum (client_agent_id s) (escrow_amount s) ;;;
  apply_transition rq
    (set_dispute_reason (if truthy_str reason then default "" reason else "buyer disputed task result") s)
    TS_DISPUTED "dispute opened".

Definition buyer_reject_settlement (rq : request) (task code : string) (reason : option string) : MW settlement :=
  let! s := settlement_of task in
  require_buyer cfg (rq_actor rq) s ;;;
  ensure (bool_decide (canonical_task_status (status s) = TS_DELIVERED)) 409 "buyer reject requires delivered status" ;;;
  let s := set_dispute_reason (py_strip ("[" ++ code ++ "] " ++ default "" reason)) s in
  move_reserved_to_disputed sql_sum (client_agent_id s) (escrow_amount s) ;;;
  apply_transition rq s TS_DISPUTED ("buyer rejected: " ++ code).

Definition auto_arbitrate (rq : request) (task : string) (fault : option string) : MW settlement :=
  let! s := settlement_of task in
  require_buyer_or_worker cfg (rq_actor rq) s ;;;
  let before := status s in
  let! s := apply_transition rq s TS_ARBITRATED "auto arbitration started" in
  let! w := py_get in
  let ctx := build_auto_arbitration_context (db w) (now w) task before (s_delivery_deadline_at (other s)) in
  let '(settled, refunded, _) :=
    adjust_auto_split_for_rules ctx (confirmed_progress_percent task (db w)) (escrow_amount s) in
  ensure_success_execution_receipt task settled ;;;
  let decision := if fleb settled e6 then TS_REFUNDED else TS_SETTLED in
  finish rq (set_split settled refunded (if fgtb settled fzero then Some (now w) else None) s) decision
    "auto arbitration finalized" (client_agent_id s) settled refunded false fault.
End Routes.

(** The window to confirm has no column, so the automatic confirmation never
    succeeds. *)
Lemma auto_confirm_never_returns cfg sql_sum rq task delivery forbidden fault w :
  exists e, run_outcome (auto_confirm_settlement cfg sql_sum rq task delivery forbidden fault) w = Raise e.
Proof.
  unfold auto_confirm_settlement, settlement_of, load_settlement, run_outcome, py_bind, py_get.
  destruct (get task (rows (db w))) as [[s|]|]; [|by eexists..]. cbn. unfold ensure, py_require.
  destruct (bool_decide _); by eexists.
Qed.
