(* ===== verification/ArbitrationPool.v ===== *)
(** * The arbitration pool ([api/routes/arbitration.py])

    Arbitrators, cases, their assignments, materials and votes, and the execution
    of a decision into the settlement.  No request asks who the caller is.  The
    reports and alerts for operators only read and are left out.  Python's [sum]
    of floats is the compensated one of version 3.12. *)

From S2P Require Import Prelude PyBytes PyJson PyDatetime PyFloat PyHoare PySort SettlementEngine ResponsibilityGraph EscrowDb CapacityLedger Vouchers ProgressReceipts AutoArbitration SettlementRoutes.
#[local] Open Scope string_scope.
#[local] Open Scope py_scope.

(** ** [sum] of floats *)

Definition fabs_ge (x y : float) : bool := fgeb (fabs x) (fabs y).
Definition is_finite (x : float) : bool :=
  match x with SpecFloat.S754_zero _ | SpecFloat.S754_finite _ _ _ => true | _ => false end.
Fixpoint sum_loop (total c : float) (l : list float) : float :=
  match l with
  | [] => if ftruthy c && is_finite c then total +. c else total
  | x :: r =>
      let t := total +. x in
      sum_loop t (c +. (if fabs_ge total x then (total -. t) +. x else (x -. t) +. total)) r
  end.
Definition py_fsum (l : list float) : float :=
  match l with [] => fzero | x :: r => sum_loop (fzero +. x) fzero r end.

(** ** Rows *)

Definition put_where {A} (c : A -> bool) (f : A -> A) (l : list A) : list A := map (fun x => if c x then f x else x) l.
Definition is_case (id : string) (k : case_row) : bool := str_eqb (k_id k) id.

Definition set_case_status (s : case_status) (at_ : datetime) (k : case_row) : case_row :=
  Case (k_id k) (k_task_id k) (k_settlement_id k) (k_opened_by k) (k_reason k) s (k_required k)
    (k_outcome k) (k_partial k) (k_created_at k) at_ (k_executed_at k).
Definition decide_case (o : decision) (p : option float) (at_ : datetime) (k : case_row) : case_row :=
  Case (k_id k) (k_task_id k) (k_settlement_id k) (k_opened_by k) (k_reason k) A_DECIDED (k_required k)
    (Some o) p (k_created_at k) at_ (k_executed_at k).
Definition execute_case (at_ : datetime) (k : case_row) : case_row :=
  Case (k_id k) (k_task_id k) (k_settlement_id k) (k_opened_by k) (k_reason k) A_EXECUTED (k_required k)
    (k_outcome k) (k_partial k) (k_created_at k) at_ (Some at_).

Definition update_case (id : string) (f : case_row -> case_row) : MW unit :=
  py_modify (fun w => set_cases (put_where (is_case id) f (cases (db w))) w).
Definition add_case (k : case_row) : MW unit := py_modify (fun w => set_cases (cases (db w) ++ [k])%list w).
Definition append_case_event (id : string) (kind : case_event_kind) : MW unit :=
  py_modify (fun w => set_case_events (case_events (db w) ++ [CaseEvent id kind (now w)])%list w).

Definition case_of (id : string) : MW case_row :=
  let! w := py_get in
  match List.find (is_case id) (cases (db w)) with
  | Some k => py_ret k
  | None => fail 404 ("arbitration case " ++ id ++ " not found")
  end.

(** ** Requests *)

Definition join_arbitration_pool (id : string) (stake : float) : MW unit :=
  ensure (fgeb stake fzero) 422 "stake_amount must be >= 0" ;;;
  let! w := py_get in
  if existsb (fun m => str_eqb (m_id m) id) (pool (db w)) then
    py_modify (fun w => set_pool
      (put_where (fun m => str_eqb (m_id m) id) (fun m => Member id stake true (m_joined_at m)) (pool (db w))) w)
  else py_modify (fun w => set_pool (pool (db w) ++ [Member id stake true (now w)])%list w).

Section Cases.
Context (sql_sum : list float -> float) (uid : nat -> string).

Definition create_arbitration_case (task opened_by : string) (reason : option string) (required : Z) : MW case_row :=
  ensure ((1 <=? required) && (required <=? 21))%Z 422 "required_arbitrators must be between 1 and 21" ;;;
  let! w := py_get in
  ensure (negb (existsb (fun k => str_eqb (k_task_id k) task) (cases (db w)))) 409
    ("arbitration case already exists for task " ++ task) ;;;
  let! s := settlement_of task in
  ensure (mem (status s) [TS_DISPUTED; TS_ARBITRATED]) 409
    "settlement must be disputed before arbitration case creation" ;;;
  (if bool_decide (status s = TS_DISPUTED) then
     ensure (can_transition (status s) TS_ARBITRATED) 409 "invalid settlement transition to arbitration" ;;;
     save_settlement (set_status TS_ARBITRATED (now w) s)
   else py_ret tt) ;;;
  let! w := py_get in
  let k := Case (uid (drawn w)) task (settlement_id s) opened_by reason A_OPEN required None None (now w) (now w) None in
  py_modify draw_id ;;;
  add_case k ;;;
  append_case_event (k_id k) CASE_CREATED ;;;
  py_ret k.

Definition finalized (k : case_row) : bool := mem (k_status k) [A_DECIDED; A_EXECUTED].

(** Active members that are not assigned yet, longest in the pool first. *)
Definition candidates (id : string) (d : escrow_db) : list pool_member :=
  let taken := map a_arbitrator (List.filter (fun a => str_eqb (a_case a) id) (assignments d)) in
  List.filter (fun m => negb (str_mem (m_id m) taken))
    (sort_by (fun a b => (m_joined_at a <=? m_joined_at b)%Z) (List.filter m_active (pool d))).

Definition assign_arbitrators (id : string) (count : nat) : MW (list assignment_row) :=
  ensure ((1 <=? count) && (count <=? 21))%nat 422 "count must be between 1 and 21" ;;;
  let! k := case_of id in
  ensure (negb (finalized k)) 409 ("arbitration case already finalized: " ++ case_status_value (k_status k)) ;;;
  let! w := py_get in
  let selected := take count (candidates id (db w)) in
  ensure (match selected with [] => false | _ => true end) 409 "no active arbitrators available for assignment" ;;;
  let added := map (fun m => Assignment id (m_id m) (now w)) selected in
  py_modify (fun w => set_assignments (assignments (db w) ++ added)%list w) ;;;
  update_case id (set_case_status A_VOTING (now w)) ;;;
  append_case_event id ARBITRATORS_ASSIGNED ;;;
  py_ret added.

Definition package_hash (id task : string) (bundle : option string) (ids hashes : list string) (version : string) : string :=
  sha256_of [("case_id", JStr id); ("task_id", JStr task); ("bundle_id", jopt bundle);
             ("progress_receipt_ids", JList (map JStr ids)); ("evidence_hashes", JList (map JStr hashes));
             ("format_version", JStr version)].

Definition submit_material (id submitted_by : string) (bundle : option string) (progress_ids hashes : list string)
    (uri : option string) (version : string) : MW material_row :=
  let! k := case_of id in
  ensure (negb (mem (k_status k) [A_EXECUTED; A_CANCELLED])) 409
    ("cannot submit material for case status " ++ case_status_value (k_status k)) ;;;
  let hashes := normal_set (fun h => py_lower (py_strip h)) hashes in
  let ids := normal_set py_strip progress_ids in
  ensure (truthy_str bundle || negb (bool_decide (hashes = [])) || negb (bool_decide (ids = []))) 400
    "at least one of bundle_id, progress_receipt_ids, evidence_hashes must be provided" ;;;
  let hash := package_hash id (k_task_id k) bundle ids hashes version in
  let! w := py_get in
  ensure (negb (existsb (fun m => str_eqb (mt_case m) id && str_eqb (mt_package_hash m) hash) (materials (db w)))) 409
    "duplicate arbitration material package hash" ;;;
  let row := Material id (k_task_id k) submitted_by bundle ids hashes hash uri version (now w) in
  py_modify (fun w => set_materials (materials (db w) ++ [row])%list w) ;;;
  append_case_event id MATERIAL_SUBMITTED ;;;
  py_ret row.

(** ** Voting *)

Definition votes_of (id : string) (l : list vote_row) : list vote_row := List.filter (fun v => str_eqb (vt_case v) id) l.
Definition count_votes (o : decision) (l : list vote_row) : nat :=
  length (List.filter (fun v => bool_decide (vt_decision v = o)) l).

(** The decision of the votes of a case. *)
Definition tally (l : list vote_row) : decision * option float :=
  let buyer := count_votes BUYER_WINS l in
  let seller := count_votes SELLER_WINS l in
  if (seller <? buyer)%nat then (BUYER_WINS, None)
  else if (buyer <? seller)%nat then (SELLER_WINS, None)
  else
    let values := omap vt_partial (List.filter (fun v => bool_decide (vt_decision v = PARTIAL)) l) in
    (PARTIAL, Some (match values with
                    | [] => f50
                    | _ => round2 (fdiv (py_fsum values) (float_of_int (Z.of_nat (length values))))
                    end)).

Definition cast_vote (id arbitrator : string) (d : decision) (partial : option float) : MW case_row :=
  ensure (match partial with None => true | Some p => in_percent p end) 422 "partial_percent must be between 0 and 100" ;;;
  let! k := case_of id in
  ensure (negb (finalized k)) 409 ("arbitration case already finalized: " ++ case_status_value (k_status k)) ;;;
  let! w := py_get in
  ensure (existsb (fun a => str_eqb (a_case a) id && str_eqb (a_arbitrator a) arbitrator) (assignments (db w))) 403
    "arbitrator is not assigned to this case" ;;;
  ensure (negb (bool_decide (d = PARTIAL) && negb (bool_decide (is_Some partial)))) 400
    "partial_percent is required when decision is partial" ;;;
  ensure (negb (negb (bool_decide (d = PARTIAL)) && bool_decide (is_Some partial))) 400
    "partial_percent is only allowed for partial decision" ;;;
  ensure (negb (existsb (fun v => str_eqb (vt_case v) id && str_eqb (vt_arbitrator v) arbitrator) (votes (db w)))) 409
    "duplicate vote for arbitrator in this case" ;;;
  py_modify (fun w => set_votes (votes (db w) ++ [Vote id arbitrator d partial (now w)])%list w) ;;;
  append_case_event id VOTE_CAST ;;;
  let! w := py_get in
  let vs := votes_of id (votes (db w)) in
  if (k_required k <=? Z.of_nat (length vs))%Z then
    let '(o, p) := tally vs in
    update_case id (decide_case o p (now w)) ;;;
    append_case_event id CASE_DECIDED ;;;
    py_ret (decide_case o p (now w) k)
  else if bool_decide (k_status k = A_OPEN) then
    update_case id (set_case_status A_VOTING (now w)) ;;;
    py_ret (set_case_status A_VOTING (now w) k)
  else py_ret k.

(** ** Executing *)

(** The status a decision gives the settlement, and the split. *)
Definition decided_split (o : decision) (partial : option float) (escrow : float) : TaskStatus * (float * float) :=
  match o with
  | BUYER_WINS => (TS_REFUNDED, (fzero, round2 escrow))
  | SELLER_WINS => (TS_SETTLED, (round2 escrow, fzero))
  | PARTIAL => (TS_SETTLED, split_percent escrow (default f50 partial))
  end.

Definition execute_arbitration_case (id : string) : MW settlement :=
  let! k := case_of id in
  ensure (bool_decide (k_status k = A_DECIDED)) 409
    ("arbitration case status must be decided, got " ++ case_status_value (k_status k)) ;;;
  match k_outcome k with
  | None => fail 409 "arbitration decision is missing"
  | Some o =>
      let! s := settlement_of (k_task_id k) in
      let! w := py_get in
      (if bool_decide (status s = TS_DISPUTED)
       then ensure (can_transition (status s) TS_ARBITRATED) 409 "cannot transition settlement to arbitration"
       else py_ret tt) ;;;
      let from := if bool_decide (status s = TS_DISPUTED) then TS_ARBITRATED else status s in
      let '(target, (settled, refunded)) := decided_split o (k_partial k) (escrow_amount s) in
      ensure (can_transition from target) 409 "invalid settlement transition" ;;;
      let s := set_status target (now w)
        (set_split settled refunded (if fgtb settled fzero then Some (now w) else None) s) in
      save_settlement s ;;;
      apply_capacity_resolution sql_sum (client_agent_id s) (escrow_amount s) settled refunded ;;;
      mark_voucher_used_if_linked (k_task_id k) ;;;
      update_case id (execute_case (now w)) ;;;
      append_case_event id CASE_EXECUTED ;;;
      py_ret s
  end.
End Cases.
