(* ===== verification/EscrowFlow.v ===== *)
(** * Escrow: the requests together

    Every request of the capacity, voucher, progress, settlement and arbitration
    routes, as one step on the database and the safety mode, with what other parts
    of the system do to the tables: contracts, profiles, sub-identities, execution
    receipts and evidence bundles appear, administrators set the safety mode, time
    passes.  A run is a sequence of such steps, each in its own session. *)

From S2P Require Import Prelude PyBytes PyJson PyDatetime PyFloat PyHoare SettlementEngine PaymentCycle ResponsibilityGraph EscrowDb CapacityLedger Vouchers PaymentCodes ProgressReceipts AutoArbitration SettlementRoutes ArbitrationPool.
#[local] Open Scope string_scope.
#[local] Open Scope py_scope.

Inductive escrow_op : Type :=
| LockUsdc (actor : option string) (identity : string) (amount : float) (profile : option string)
| ReleaseUnused (actor : option string) (identity : string) (amount : float) (profile : option string)
| SetAllocations (actor : option string) (identity : string) (allocations : list (string * float))
| CreateVoucher (actor : option string) (q : CreateVoucherRequest)
| AcceptVoucher (actor : option string) (id seller : string)
| AcceptPaymentCode (actor : option string) (id seller : string)
| RejectPaymentCode (actor : option string) (id seller reason : string)
| CreatePaymentCode (actor : option string) (q : CreatePaymentCodeRequest) (fresh : string)
| UpsertPolicy (identity : string) (p : automation_policy)
| SubmitProgress (actor : option string) (p : progress_row)
| ConfirmProgress (actor : option string) (id : string)
| TimeoutConfirm (actor : option string) (task : string) (max_pending_us : Z)
| CreateSettlement (rq : request) (q : CreateSettlementRequest)
| MarkPending (rq : request) (task : string)
| LockSettlement (rq : request) (task worker : string) (fault : option string)
| StartSettlement (rq : request) (task : string)
| SubmitSettlement (rq : request) (refusal : option (Z * string)) (task : string)
| FailSettlement (rq : request) (task : string)
| PartialSettlement (rq : request) (task : string) (percent : float) (fault : option string)
| Regret (rq : request) (task : string) (buyer reason fault : option string)
| BuyerAccept (rq : request) (task : string) (scene : option string) (delivery confirmation : option (Z * string))
    (fault : option string)
| AutoConfirm (rq : request) (task : string) (delivery forbidden : option (Z * string)) (fault : option string)
| OpenDispute (rq : request) (task : string) (reason : option string)
| BuyerReject (rq : request) (task code : string) (reason : option string)
| AutoArbitrate (rq : request) (task : string) (fault : option string)
| JoinPool (id : string) (stake : float)
| CreateCase (task opened_by : string) (reason : option string) (required : Z)
| AssignArbitrators (id : string) (count : nat)
| SubmitMaterial (id submitted_by : string) (bundle : option string) (ids hashes : list string) (uri : option string)
    (version : string)
| CastVote (id arbitrator : string) (d : decision) (partial : option float)
| ExecuteCase (id : string)
| SafetyMode (enabled : bool) (reason actor : option string)
| OperationalPauses (lock authorization task settlement : bool) (reason actor : option string)
| NewContract (task : string)
| NewProfile (id owner : string)
| NewSubIdentity (id : string) (r : sub_identity)
| NewReceipt (r : receipt_row)
| NewBundle (task : string) (b : bundle_row)
| Wait (us : N).

(** The requests of administrators. *)
Definition administers (op : escrow_op) : bool :=
  match op with SafetyMode _ _ _ | OperationalPauses _ _ _ _ _ _ => true | _ => false end.

Definition done_with {A} (m : MW A) : MW unit := m ;;; py_ret tt.

(** A receipt is stored when its id and its step are new. *)
Definition receipt_fits (r : receipt_row) (l : list receipt_row) : bool :=
  negb (existsb (fun q => str_eqb (r_id q) (r_id r)
    || (str_eqb (r_task_id q) (r_task_id r) && (r_step_index q =? r_step_index r)%Z)) l).
Definition add_receipt (r : receipt_row) : MW unit :=
  py_modify (fun w => set_receipts (receipts (db w) ++ [r])%list w).
Definition advance (us : N) (g : graph) : graph := Graph (edges g) (signals g) (g_now g + Z.of_N us)%Z.

Section Flow.
Context (cfg : settings) (sql_sum : list float -> float) (uid : nat -> string).
Context (verify_launch verify_buyer : CreateVoucherRequest -> option string).
Context (meta : voucher_terms -> string -> list (string * json)).

Definition body (op : escrow_op) : MW unit :=
  match op with
  | LockUsdc actor id amount profile => done_with (lock_usdc cfg sql_sum actor id amount profile)
  | ReleaseUnused actor id amount profile => done_with (release_unused cfg sql_sum actor id amount profile)
  | SetAllocations actor id l => set_allocations actor id l
  | CreateVoucher actor q => done_with (create_voucher cfg sql_sum uid verify_launch verify_buyer actor q)
  | AcceptVoucher actor id seller => done_with (accept_voucher cfg sql_sum meta actor id seller)
  | AcceptPaymentCode actor id seller => done_with (accept_payment_code cfg sql_sum meta actor id seller)
  | RejectPaymentCode actor id seller reason => done_with (reject_payment_code cfg actor id seller reason)
  | CreatePaymentCode actor q fresh =>
      done_with (create_payment_code cfg sql_sum uid verify_launch verify_buyer meta actor q fresh)
  | UpsertPolicy identity p => done_with (upsert_automation_policy identity p)
  | SubmitProgress actor p => done_with (submit_progress_receipt cfg actor p)
  | ConfirmProgress actor id => done_with (confirm_progress_receipt cfg actor id)
  | TimeoutConfirm actor task us => done_with (timeout_confirm_progress cfg actor task us)
  | CreateSettlement rq q => done_with (create_settlement cfg sql_sum uid rq q)
  | MarkPending rq task => done_with (mark_settlement_pending cfg sql_sum rq task)
  | LockSettlement rq task worker fault => done_with (lock_settlement cfg sql_sum rq task worker fault)
  | StartSettlement rq task => done_with (start_settlement cfg sql_sum rq task)
  | SubmitSettlement rq refusal task => done_with (submit_settlement cfg sql_sum rq refusal task)
  | FailSettlement rq task => done_with (fail_settlement cfg sql_sum rq task)
  | PartialSettlement rq task percent fault => done_with (partial_settlement cfg sql_sum rq task percent fault)
  | Regret rq task buyer reason fault => done_with (regret_settlement cfg sql_sum rq task buyer reason fault)
  | BuyerAccept rq task scene delivery confirmation fault =>
      done_with (buyer_accept_settlement cfg sql_sum rq task scene delivery confirmation fault)
  | AutoConfirm rq task delivery forbidden fault =>
      done_with (auto_confirm_settlement cfg sql_sum rq task delivery forbidden fault)
  | OpenDispute rq task reason => done_with (open_dispute cfg sql_sum rq task reason)
  | BuyerReject rq task code reason => done_with (buyer_reject_settlement cfg sql_sum rq task code reason)
  | AutoArbitrate rq task fault => done_with (auto_arbitrate cfg sql_sum rq task fault)
  | JoinPool id stake => join_arbitration_pool id stake
  | CreateCase task opened_by reason required => done_with (create_arbitration_case uid task opened_by reason required)
  | AssignArbitrators id count => done_with (assign_arbitrators id count)
  | SubmitMaterial id by_ bundle ids hashes uri version =>
      done_with (submit_material id by_ bundle ids hashes uri version)
  | CastVote id arbitrator d partial => done_with (cast_vote id arbitrator d partial)
  | ExecuteCase id => done_with (execute_arbitration_case sql_sum id)
  | SafetyMode enabled reason actor =>
      py_modify (fun w => set_safety (set_runtime_safety_mode enabled reason actor (now w) (safety w)) w)
  | OperationalPauses a b c d reason actor =>
      py_modify (fun w => set_safety (set_runtime_operational_pauses a b c d reason actor (now w) (safety w)) w)
  | NewContract task => py_modify (fun w => set_contracts ({[task]} ∪ contracts (db w)) w)
  | NewProfile id owner => py_modify (fun w => set_role_owners (<[id := owner]> (role_owners (db w))) w)
  | NewSubIdentity id r => py_modify (fun w => set_sub_identities (<[id := r]> (sub_identities (db w))) w)
  | NewReceipt r => let! w := py_get in py_when (receipt_fits r (receipts (db w))) (add_receipt r)
  | NewBundle task b => py_modify (fun w => set_bundles (<[task := b]> (bundles (db w))) w)
  | Wait us => py_modify (fun w => set_responsibility (advance us (responsibility (db w))) w)
  end.

Definition escrow_step (op : escrow_op) (w : world) : world := run_state (get_db (body op)) w.
Definition escrow_run (ops : list escrow_op) (w : world) : world := fold_left (fun w op => escrow_step op w) ops w.
Definition empty_db (t : datetime) : escrow_db :=
  EscrowDb ∅ ∅ ∅ ∅ ∅ ∅ [] ∅ ∅ [] [] ∅ [] [] [] [] [] [] [] (Graph [] [] t).
Definition empty_world (t : datetime) : world := EscrowWorld (empty_db t) initial_safety 0.

(** An invariant that every body keeps when it returns holds in every run. *)
Lemma run_keeps (P : escrow_db -> nat -> Prop) :
  (forall op, safe (fun w => P (db w) (drawn w)) (body op)) ->
  forall ops w, P (db w) (drawn w) -> P (db (escrow_run ops w)) (drawn (escrow_run ops w)).
Proof.
  intros H ops. induction ops as [|op ops IH]; intros w Hw; [done|]. apply IH.
  exact (safe_get_db P (body op) (H op) w Hw).
Qed.
End Flow.

(** ** Frames

    What does not write the tables of an invariant keeps it. *)

Create HintDb escrow_ops.
#[export] Hint Unfold done_with put_profile put_voucher record_voucher_event record_transition_audit update_case add_case add_receipt
  append_case_event require_actor_matches require_buyer require_worker require_buyer_or_worker load_settlement
  settlement_of case_of get_voucher gate validate_capacity_row release_profile_credits_if_bound
  ensure_success_execution_receipt new_settlement_allowed validate_sub_identity_binding : escrow_ops.

(** The requests, down to the operations that write. *)
Create HintDb escrow_bodies.
#[export] Hint Unfold create_payment_code upsert_automation_policy normalize_permissions allowed_permissions
  assert_human_not_present_policy_fields create_voucher assert_buyer_commitment_for_voucher accept_voucher accept_payment_code
  reject_payment_code reject_voucher_row submit_progress_receipt confirm_progress_receipt timeout_confirm_progress
  create_settlement bind_voucher lock_settlement mark_settlement_pending start_settlement submit_settlement
  fail_settlement move partial_settlement regret_settlement buyer_accept_settlement auto_confirm_settlement
  open_dispute buyer_reject_settlement auto_arbitrate join_arbitration_pool create_arbitration_case
  assign_arbitrators submit_material cast_vote execute_arbitration_case : escrow_bodies.

Section Frames.
Context {A : Type}.
Lemma keeps_on_graph (I : world -> Prop) (m : M graph graph_error A) :
  (forall g w, I w -> I (set_responsibility g w)) -> keeps I (on_graph m).
Proof.
  intros H w Hw. unfold run_state, on_graph. destruct (m (responsibility (db w))) as [g [a|[c]]]; by apply H.
Qed.
Lemma safe_on_graph (I : world -> Prop) (m : M graph graph_error A) :
  (forall g w, I w -> I (set_responsibility g w)) -> safe I (on_graph m).
Proof.
  intros H w w' a Hw. unfold on_graph. destruct (m (responsibility (db w))) as [g [b|[c]]]; [|done].
  intros [= <- <-]. by apply H.
Qed.
End Frames.

(** What writes other tables only. *)
Ltac writes_elsewhere :=
  let H := fresh in
  lazymatch goal with
  | |- safe _ (on_graph _) => apply safe_on_graph; intros ? ? H; exact H
  | |- safe _ (py_modify _) => apply safe_modify; intros ? H; exact H
  | |- safe _ (put_capacity _ _) => apply safe_modify; intros ? H; exact H
  | |- safe _ (validate _) => unfold validate
  | |- keeps _ (on_graph _) => apply keeps_on_graph; intros ? ? H; exact H
  | |- keeps _ (py_modify _) => apply keeps_modify; intros ? H; exact H
  end.

(** One construct of an operation. *)
Ltac one_construct :=
  lazymatch goal with
  | |- safe _ (py_bind py_get _) => apply safe_read
  | |- safe _ (py_bind _ _) => apply safe_bind
  | |- safe _ (py_when _ _) => apply safe_when
  | |- safe _ (match ?x with _ => _ end) => destruct x eqn:?
  | |- keeps _ (py_bind py_get _) => apply keeps_read
  | |- keeps _ (py_bind _ _) => apply keeps_bind
  | |- keeps _ (py_when _ _) => apply keeps_when
  | |- keeps _ (match ?x with _ => _ end) => destruct x eqn:?
  end.
Ltac stays special :=
  repeat first
    [ progress intros | special | writes_elsewhere | one_construct | solve [eauto with keeps safe balanced] ].

(** ** Requests that only ask *)

Section Asking.
Context (I : world -> Prop) (cfg : settings).

Lemma safe_require_buyer actor s : safe I (require_buyer cfg actor s).
Proof. unfold require_buyer. stays ltac:(fail). Qed.
Lemma safe_require_worker actor s : safe I (require_worker cfg actor s).
Proof. unfold require_worker. stays ltac:(fail). Qed.
Lemma safe_require_party actor s : safe I (require_buyer_or_worker cfg actor s).
Proof. unfold require_buyer_or_worker. stays ltac:(fail). Qed.
Lemma safe_require_matches actor x : safe I (require_actor_matches cfg actor x).
Proof. unfold require_actor_matches. stays ltac:(fail). Qed.
Lemma safe_gate r : safe I (gate r).
Proof. unfold gate. stays ltac:(fail). Qed.
Lemma safe_evidence task x : safe I (ensure_success_execution_receipt cfg task x).
Proof. unfold ensure_success_execution_receipt. stays ltac:(fail). Qed.
Lemma safe_sub_identity parent sub : safe I (validate_sub_identity_binding parent sub).
Proof. unfold validate_sub_identity_binding. stays ltac:(fail). Qed.
Lemma safe_bind_voucher q : safe I (bind_voucher q).
Proof. unfold bind_voucher. stays ltac:(fail). Qed.
Lemma safe_get_voucher id : safe I (get_voucher id).
Proof. unfold get_voucher. stays ltac:(fail). Qed.
Lemma safe_case_of id : safe I (case_of id).
Proof. unfold case_of. stays ltac:(fail). Qed.
Lemma safe_load task : safe I (load_settlement task).
Proof. unfold load_settlement. stays ltac:(fail). Qed.
End Asking.
#[export] Hint Opaque require_buyer require_worker require_buyer_or_worker require_actor_matches gate
  ensure_success_execution_receipt validate_sub_identity_binding bind_voucher get_voucher case_of load_settlement : safe.
#[export] Hint Resolve safe_require_buyer safe_require_worker safe_require_party safe_require_matches safe_gate
  safe_evidence safe_sub_identity safe_bind_voucher safe_get_voucher safe_case_of safe_load : safe.

(** ** The ledger's operations, for what the ledger is not part of *)

Section Elsewhere.
Context (I : world -> Prop) (sql_sum : list float -> float).
Context (capacities_free : forall x w, I w -> I (set_capacities x w)) (safety_free : forall m w, I w -> I (set_safety m w)).
Context (profiles_free : forall x w, I w -> I (set_profiles x w)) (vouchers_free : forall x w, I w -> I (set_vouchers x w)).

Local Ltac elsewhere := stays ltac:(idtac;
  lazymatch goal with
  | |- safe _ (put_capacity _ _) => apply safe_modify; intros ?; apply capacities_free
  | |- safe _ (put_profile _ _) => apply safe_modify; intros ?; apply profiles_free
  | |- safe _ (put_voucher _ _) => apply safe_modify; intros ?; apply vouchers_free
  end).

Lemma safe_lock_elsewhere cfg actor id x profile : safe I (lock_usdc cfg sql_sum actor id x profile).
Proof. unfold lock_usdc, validate. elsewhere. Qed.
Lemma safe_release_elsewhere cfg actor id x profile : safe I (release_unused cfg sql_sum actor id x profile).
Proof. unfold release_unused, validate. elsewhere. Qed.
Lemma safe_freeze_elsewhere buyer x : safe I (move_reserved_to_disputed sql_sum buyer x).
Proof. unfold move_reserved_to_disputed, validate. elsewhere. Qed.
Lemma safe_resolution_elsewhere buyer x y z : safe I (apply_capacity_resolution sql_sum buyer x y z).
Proof. unfold apply_capacity_resolution, validate. elsewhere. Qed.
Lemma safe_allocations_elsewhere actor id l : safe I (set_allocations actor id l).
Proof.
  assert (forall l, safe I (allocate_loop id l)).
  { clear l. intros l. induction l as [|[q x] l IH]; cbn [allocate_loop]; elsewhere. }
  unfold set_allocations, allocate. elsewhere.
Qed.
Lemma safe_spend_elsewhere q x : safe I (spend_profile_credits q x).
Proof. unfold spend_profile_credits. elsewhere. Qed.
Lemma safe_release_profile_elsewhere s : safe I (release_profile_credits_if_bound s).
Proof. unfold release_profile_credits_if_bound, release_profile_credits. elsewhere. Qed.
Lemma safe_used_elsewhere task : safe I (mark_voucher_used_if_linked task).
Proof. unfold mark_voucher_used_if_linked. elsewhere. Qed.

Context (events_free : forall x w, I w -> I (set_voucher_events x w)).
Context (graph_free : forall x w, I w -> I (set_responsibility x w)).
Lemma safe_accept_elsewhere meta id v seller actor : safe I (accept_voucher_row sql_sum meta id v seller actor).
Proof.
  unfold accept_voucher_row, validate_capacity_row, record_voucher_event. stays ltac:(idtac;
  lazymatch goal with
  | |- safe _ (put_capacity _ _) => apply safe_modify; intros ?; apply capacities_free
  | |- safe _ (put_voucher _ _) => apply safe_modify; intros ?; apply vouchers_free
  | |- safe _ (on_graph _) => apply safe_on_graph; intros ? ?; apply graph_free
  | |- safe _ (py_modify _) => apply safe_modify; intros ?; apply events_free
  end).
Qed.
Lemma safe_reject_elsewhere id v seller reason : safe I (reject_voucher_row id v seller reason).
Proof.
  unfold reject_voucher_row, record_voucher_event. stays ltac:(idtac;
  lazymatch goal with
  | |- safe _ (put_voucher _ _) => apply safe_modify; intros ?; apply vouchers_free
  | |- safe _ (py_modify _) => apply safe_modify; intros ?; apply events_free
  end).
Qed.
End Elsewhere.

(** What moves a settlement, for what the settlements are not part of. *)
Section Settling.
Context (I : world -> Prop) (sql_sum : list float -> float).
Context (rows_free : forall x w, I w -> I (set_rows x w)) (audits_free : forall x w, I w -> I (set_audits x w)).

Lemma safe_save_elsewhere s : safe I (save_settlement s).
Proof.
  unfold save_settlement. stays ltac:(idtac;
  lazymatch goal with |- safe _ (py_modify _) => apply safe_modify; intros ?; apply rows_free end).
Qed.
Lemma safe_transition_elsewhere rq s target reason : safe I (apply_transition rq s target reason).
Proof.
  unfold apply_transition, record_transition_audit. stays ltac:(idtac;
  lazymatch goal with
  | |- safe _ (py_modify (set_rows _)) => apply safe_modify; intros ?; apply rows_free
  | |- safe _ (py_modify _) => apply safe_modify; intros ?; apply audits_free
  end).
Qed.
(** [finish], given how the vouchers fare. *)
Lemma safe_finish_elsewhere rq s target reason payer x y b fault :
  (forall task, safe I (mark_voucher_used_if_linked task)) ->
  (forall x w, I w -> I (set_capacities x w)) -> (forall m w, I w -> I (set_safety m w)) ->
  (forall x w, I w -> I (set_profiles x w)) ->
  safe I (finish sql_sum rq s target reason payer x y b fault).
Proof.
  intros Hu Hc Hs Hp. unfold finish. stays ltac:(idtac;
  lazymatch goal with
  | |- safe _ (apply_transition _ _ _ _) => apply safe_transition_elsewhere
  | |- safe _ (apply_capacity_resolution _ _ _ _ _) => by apply safe_resolution_elsewhere
  | |- safe _ (release_profile_credits_if_bound _) => by apply safe_release_profile_elsewhere
  | |- safe _ (mark_voucher_used_if_linked _) => apply Hu
  end).
Qed.
End Settling.

#[export] Hint Extern 2 (safe _ (lock_usdc _ _ _ _ _ _)) => apply safe_lock_elsewhere; intros ? ? ?; assumption : safe.
#[export] Hint Extern 2 (safe _ (release_unused _ _ _ _ _ _)) => apply safe_release_elsewhere; intros ? ? ?; assumption : safe.
#[export] Hint Extern 2 (safe _ (move_reserved_to_disputed _ _ _)) => apply safe_freeze_elsewhere; intros ? ? ?; assumption : safe.
#[export] Hint Extern 2 (safe _ (apply_capacity_resolution _ _ _ _ _)) =>
  apply safe_resolution_elsewhere; intros ? ? ?; assumption : safe.
#[export] Hint Extern 2 (safe _ (set_allocations _ _ _)) => apply safe_allocations_elsewhere; intros ? ? ?; assumption : safe.
#[export] Hint Extern 2 (safe _ (spend_profile_credits _ _)) => apply safe_spend_elsewhere; intros ? ? ?; assumption : safe.
#[export] Hint Extern 2 (safe _ (release_profile_credits_if_bound _)) =>
  apply safe_release_profile_elsewhere; intros ? ? ?; assumption : safe.
#[export] Hint Extern 2 (safe _ (mark_voucher_used_if_linked _)) => apply safe_used_elsewhere; intros ? ? ?; assumption : safe.
#[export] Hint Opaque accept_voucher_row reject_voucher_row apply_transition finish : keeps safe.
#[export] Hint Extern 2 (safe _ (accept_voucher_row _ _ _ _ _ _)) => apply safe_accept_elsewhere; intros ? ? ?; assumption : safe.
#[export] Hint Extern 2 (safe _ (reject_voucher_row _ _ _ _)) => apply safe_reject_elsewhere; intros ? ? ?; assumption : safe.
#[export] Hint Extern 2 (safe _ (save_settlement _)) => apply safe_save_elsewhere; intros ? ? ?; assumption : safe.
#[export] Hint Extern 2 (safe _ (apply_transition _ _ _ _)) => apply safe_transition_elsewhere; intros ? ? ?; assumption : safe.
#[export] Hint Extern 3 (safe _ (finish _ _ _ _ _ _ _ _ _ _)) =>
  apply safe_finish_elsewhere; first [intros; solve [eauto with safe]|intros ? ? ?; assumption] : safe.

(** Along an operation with triples, up to what [special] treats. *)
Ltac walk_until special :=
  repeat first
    [ progress cbv beta
    | special
    | lazymatch goal with
      | |- forall _, _ => intro
      | |- triple _ (py_bind py_get _) _ => apply triple_get
      | |- triple _ (py_bind (ensure _ _ _) _) _ => apply triple_require
      | |- triple _ (py_bind (py_require _ _) _) _ => apply triple_require
      | |- triple _ (py_bind (py_ret _) _) _ => apply triple_pass
      | |- triple _ (py_bind (py_bind _ _) _) _ => apply triple_assoc
      | |- triple _ (py_bind (fail _ _) _) _ => apply triple_fail
      | |- triple _ (fail _ _) _ => apply triple_raise
      | |- triple _ (py_raise _) _ => apply triple_raise
      | |- triple _ (match ?x with _ => _ end) _ => destruct x eqn:?
      | |- triple _ (py_ret _) _ => apply triple_ret
      end
    | apply triple_frame; [solve [stays ltac:(fail)]|] ].
(** A request keeps an invariant that its operations keep. *)
Ltac bodies :=
  lazymatch goal with |- safe _ (body _ _ _ _ _ _ ?op) => destruct op end; cbn [body];
  first [ solve [eauto with safe]
        | solve [unfold done_with; apply safe_bind; [eauto with safe|intros; apply safe_ret]]
        | autounfold with escrow_bodies; autounfold with escrow_ops; stays ltac:(fail) ].
