(* ===== verification/EscrowLedger.v ===== *)
(** * Escrow: the capacity ledger in every run

    The anchor of the ledger (a row's locked amount equals its bill credits) under
    every request, and what follows: the audit never finds a breach, so that the
    safety mode moves by administrators' hands only. *)

From S2P Require Import Prelude PyBytes PyJson PyDatetime PyFloat PyFloatOrder PyHoare SettlementEngine PaymentCycle ResponsibilityGraph EscrowDb CapacityLedger Vouchers PaymentCodes ProgressReceipts AutoArbitration SettlementRoutes ArbitrationPool EscrowFlow.
#[local] Open Scope string_scope.
#[local] Open Scope py_scope.

Lemma balanced_reserve x at_ c : balanced c -> balanced (reserve x at_ c).
Proof. done. Qed.
#[export] Hint Resolve balanced_reserve : balanced.

Section Ledger.
Context (cfg : settings) (sql_sum : list float -> float) (uid : nat -> string).
Context (verify_launch verify_buyer : CreateVoucherRequest -> option string).
Context (meta : voucher_terms -> string -> list (string * json)).
Context (sql_sum_valid : forall l, valid (sql_sum l) = true).

Local Ltac quiet := autounfold with escrow_ops; stays ltac:(fail).

Lemma quiet_accept_row p id row seller actor : keeps (quiet p) (accept_voucher_row sql_sum meta id row seller actor).
Proof. unfold accept_voucher_row. quiet. Qed.
Lemma quiet_transition p rq s target reason : keeps (quiet p) (apply_transition rq s target reason).
Proof. unfold apply_transition. quiet. Qed.
Lemma quiet_save p s : keeps (quiet p) (save_settlement s).
Proof. unfold save_settlement. quiet. Qed.
Lemma quiet_used p task : keeps (quiet p) (mark_voucher_used_if_linked task).
Proof. unfold mark_voucher_used_if_linked. quiet. Qed.
Local Hint Resolve quiet_accept_row quiet_transition quiet_save quiet_used : keeps.
Local Hint Opaque accept_voucher_row apply_transition save_settlement mark_voucher_used_if_linked : keeps.

Lemma quiet_finish p rq s target reason payer x y b fault :
  keeps (quiet p) (finish sql_sum rq s target reason payer x y b fault).
Proof. unfold finish. quiet. Qed.
Local Hint Resolve quiet_finish : keeps.
Local Hint Opaque finish : keeps.

Lemma quiet_body p op : administers op = false -> keeps (quiet p) (body cfg sql_sum uid verify_launch verify_buyer meta op).
Proof.
  intros Ha. destruct op; try discriminate Ha; cbn [body]; autounfold with escrow_bodies; quiet.
Qed.

(** ** Committed rows *)

Lemma safe_put_validate_row {A} id c (k : unit -> MW A) : balanced c ->
  safe (fun w => ledger_ok (db w)) (k tt) ->
  safe (fun w => ledger_ok (db w)) (put_capacity id c ;;; py_bind (validate_capacity_row c) k)%py.
Proof.
  intros Hc Hk s s' a Hs. unfold py_bind, put_capacity, py_modify, validate_capacity_row.
  destruct (assert_capacity_invariants c) as [e|] eqn:E; [discriminate|]. apply Hk.
  intros id' c' H. cbn in H. apply lookup_insert_Some in H as [[_ <-]|[_ H]]; [done|by apply (Hs id')].
Qed.

Local Ltac ok := stays ltac:(idtac;
  lazymatch goal with
  | |- safe _ (py_bind (put_capacity _ _) (fun _ => py_bind (validate_capacity_row _) _)) =>
      apply safe_put_validate_row; [eauto with balanced|]
  | |- safe _ (py_bind (put_capacity _ _) _) => apply safe_put_validate; [eauto with balanced|]
  end).

Lemma ok_accept_row id row seller actor : safe (fun w => ledger_ok (db w)) (accept_voucher_row sql_sum meta id row seller actor).
Proof. unfold accept_voucher_row, put_voucher, record_voucher_event. ok. Qed.
Lemma ok_transition rq s target reason : safe (fun w => ledger_ok (db w)) (apply_transition rq s target reason).
Proof. unfold apply_transition, record_transition_audit. ok. Qed.
Lemma ok_save s : safe (fun w => ledger_ok (db w)) (save_settlement s).
Proof. unfold save_settlement. ok. Qed.
Lemma ok_used task : safe (fun w => ledger_ok (db w)) (mark_voucher_used_if_linked task).
Proof. unfold mark_voucher_used_if_linked, put_voucher. ok. Qed.
Local Hint Resolve ok_accept_row ok_transition ok_save ok_used : safe.
Local Hint Opaque accept_voucher_row apply_transition save_settlement mark_voucher_used_if_linked : safe.
Lemma ok_finish rq s target reason payer x y b fault :
  safe (fun w => ledger_ok (db w)) (finish sql_sum rq s target reason payer x y b fault).
Proof. unfold finish, release_profile_credits_if_bound. ok. Qed.
Local Hint Resolve ok_finish : safe.
Local Hint Opaque finish : safe.

Lemma ok_body op : safe (fun w => ledger_ok (db w)) (body cfg sql_sum uid verify_launch verify_buyer meta op).
Proof. destruct op; cbn [body]; autounfold with escrow_bodies; autounfold with escrow_ops; ok. Qed.
Abbreviation run ops t := (escrow_run cfg sql_sum uid verify_launch verify_buyer meta ops (empty_world t)).
Abbreviation step := (escrow_step cfg sql_sum uid verify_launch verify_buyer meta).

Lemma run_ledger_ok ops t : ledger_ok (db (run ops t)).
Proof. apply (run_keeps _ _ _ _ _ _ (fun d _ => ledger_ok d)); [apply ok_body|]. intros id c H. cbn in H. by rewrite lookup_empty in H. Qed.

Lemma step_pauses op w : administers op = false -> anchored (db w) -> pauses (safety (step op w)) = pauses (safety w).
Proof.
  intros Ho Hw. refine (proj2 (keeps_get_db anchored (fun s => pauses s = pauses (safety w)) (body _ _ _ _ _ _ op) _ w (conj Hw eq_refl))).
  exact (quiet_body _ op Ho).
Qed.

(** C4. In every run of requests, each row of the ledger has as many bill credits
    as locked USDC and passes the code's own check; the audit finds no breach, and
    no request but an administrator's ever changes what the safety mode blocks. *)
Theorem ledger_always_anchored ops t :
  (forall id c, capacities (db (run ops t)) !! id = Some c ->
     total_locked_usdc c = total_bill_credits c /\ assert_capacity_invariants c = None)
  /\ run_outcome (audit_capacity_anchor_and_maybe_trip sql_sum) (run ops t) = Ret tt
  /\ (forall op, administers op = false -> pauses (safety (step op (run ops t))) = pauses (safety (run ops t))).
Proof.
  pose proof (run_ledger_ok ops t) as Hok. pose proof (ledger_ok_anchored _ Hok) as Ha.
  split; [exact Hok|]. split.
  - destruct (audit_quiet sql_sum sql_sum_valid _ Ha) as (s & _ & E). unfold run_outcome. by rewrite E.
  - intros op Ho. by apply step_pauses.
Qed.
End Ledger.

(** A sum that is a number of Python: what it computes when that is one. *)
Definition left_sum (l : list float) : float := let x := fold_left fadd l fzero in if valid x then x else fnan.
Lemma left_sum_valid l : valid (left_sum l) = true.
Proof. unfold left_sum. cbv zeta. by destruct (valid (fold_left fadd l fzero)) eqn:E. Qed.

Lemma ledger_always_anchored_witness : exists c, capacities (db (escrow_run
    (Settings fzero (float_of_int 1000) false false false false true true true false false false None false false 300 24)
    left_sum (fun _ => "id") (fun _ => None) (fun _ => None) (fun _ _ => []) [LockUsdc None "b" f100 None; LockUsdc None "b" (float_of_int 1) None]
    (empty_world 0))) !! "b" = Some c /\ total_locked_usdc c = float_of_int 101 /\ total_bill_credits c = float_of_int 101.
Proof.
  pose proof (proj1 (ledger_always_anchored
    (Settings fzero (float_of_int 1000) false false false false true true true false false false None false false 300 24)
    left_sum (fun _ => "id") (fun _ => None) (fun _ => None) (fun _ _ => []) left_sum_valid
    [LockUsdc None "b" f100 None; LockUsdc None "b" (float_of_int 1) None] 0%Z)) as H.
  set (m := capacities _) in *.
  assert (total_locked_usdc <$> m !! "b" = Some (float_of_int 101)) as Hl by (vm_compute; reflexivity).
  destruct (m !! "b") as [c|] eqn:Hc; [|discriminate]. injection Hl as Hl. exists c. split; [done|split; [exact Hl|]].
  exact (eq_trans (eq_sym (proj1 (H "b" c Hc))) Hl).
Defined.
