(* ===== verification/EscrowSettlements.v ===== *)
(** * Escrow: what the requests do to the settlements

    The abstract machine of the settlement table: few kinds of move, each with its
    guard.  Every request refines it, so what the moves keep holds in every run. *)

From S2P Require Import Prelude PyBytes PyJson PyDatetime PyFloat PyHoare SettlementEngine PaymentCycle ResponsibilityGraph EscrowDb CapacityLedger Vouchers PaymentCodes ProgressReceipts AutoArbitration SettlementRoutes ArbitrationPool EscrowFlow.
From stdpp Require Import relations.
#[local] Open Scope string_scope.
#[local] Open Scope py_scope.

(** What the moves are about: the settlements, the execution receipts, the
    arbitration cases and the supply of identifiers. *)
Record view := View {
  v_rows : settlements settlement_columns;
  v_receipts : list receipt_row;
  v_cases : list case_row;
  v_drawn : nat
}.
Definition view_of (w : world) : view := View (rows (db w)) (receipts (db w)) (cases (db w)) (drawn w).

Definition put (s : settlement) (v : view) : view :=
  View (<[settlement_id s := to_row s]> (v_rows v)) (v_receipts v) (v_cases v) (v_drawn v).
Definition draw (v : view) : view := View (v_rows v) (v_receipts v) (v_cases v) (S (v_drawn v)).
Definition with_cases (l : list case_row) (v : view) : view := View (v_rows v) (v_receipts v) l (v_drawn v).

(** [s] is in the table. *)
Definition loaded (v : view) (s : settlement) : Prop :=
  v_rows v !! settlement_id s = Some (to_row s) /\ canonical s = s.
(** What no request changes. *)
Definition same_deal (s s' : settlement) : Prop :=
  settlement_id s' = settlement_id s /\ task_id s' = task_id s /\ escrow_amount s' = escrow_amount s
  /\ currency s' = currency s /\ client_agent_id s' = client_agent_id s.

Section Moves.
Context (cfg : settings) (uid : nat -> string).

(** A seller is paid more than dust only on a successful execution receipt. *)
Definition evidence (v : view) (task : string) (amount : float) : Prop :=
  requires_success_receipt cfg = true -> fleb amount e6 = false ->
  existsb r_success (task_receipts task (v_receipts v)) = true.

Inductive smove (v : view) : view -> Prop :=
| SM_create s :
    settlement_id s = uid (v_drawn v) -> task_taken (task_id s) (settlement_id s) (v_rows v) = false ->
    status s = TS_DRAFT -> worker_agent_id s = None -> s_released_amount (other s) = None ->
    smove v (put s (draw v))
| SM_status s s' :
    loaded v s -> same_deal s s' -> worker_agent_id s' = worker_agent_id s ->
    s_released_amount (other s') = s_released_amount (other s) ->
    can_transition (status s) (status s') = true ->
    canonical_task_status (status s') ∉ [TS_ACCEPTED; TS_SETTLED; TS_REFUNDED; TS_FROZEN] ->
    smove v (put s' v)
| SM_accept s worker at_ :
    loaded v s -> can_transition (status s) TS_ACCEPTED = true -> worker <> client_agent_id s ->
    assert_lock_does_not_close_payment_cycle (block_payment_cycle cfg) (payment_rows (v_rows v)) (task_id s)
      (client_agent_id s) worker = Ret tt ->
    smove v (put (set_status TS_ACCEPTED at_ (set_worker worker s)) v)
| SM_resolve s s' settled refunded :
    loaded v s -> same_deal s s' -> worker_agent_id s' = worker_agent_id s ->
    can_transition (status s) (status s') = true -> status s' ∈ [TS_SETTLED; TS_REFUNDED] ->
    s_released_amount (other s') = Some settled -> s_refunded_amount (other s') = Some refunded ->
    evidence v (task_id s) settled \/ evidence v (task_id s) (escrow_amount s) ->
    smove v (put s' v)
| SM_execute k o s s' settled refunded at_ :
    k ∈ v_cases v -> k_status k = A_DECIDED -> k_outcome k = Some o ->
    loaded v s -> task_id s = k_task_id k -> same_deal s s' -> worker_agent_id s' = worker_agent_id s ->
    can_transition (status s) (status s') = true ->
    decided_split o (k_partial k) (escrow_amount s) = (status s', (settled, refunded)) ->
    s_released_amount (other s') = Some settled -> s_refunded_amount (other s') = Some refunded ->
    smove v (with_cases (put_where (is_case (k_id k)) (execute_case at_) (v_cases v)) (put s' v))
| SM_new_case k :
    k_id k = uid (v_drawn v) -> k_status k = A_OPEN -> smove v (with_cases (v_cases v ++ [k])%list (draw v))
| SM_case k f :
    k ∈ v_cases v -> finalized k = false ->
    (forall c, k_id (f c) = k_id c /\ k_task_id (f c) = k_task_id c /\ k_status (f c) <> A_EXECUTED) ->
    smove v (with_cases (put_where (is_case (k_id k)) f (v_cases v)) v)
| SM_receipt r : smove v (View (v_rows v) (v_receipts v ++ [r])%list (v_cases v) (v_drawn v))
| SM_draw : smove v (draw v).

(** ** Rules *)

Definition At (v : view) (w : world) : Prop := view_of w = v.

Section Rules.
Context {A B : Type} (v : view) (Q : B -> world -> Prop).

Lemma at_frame (m : MW A) (k : A -> MW B) : safe (At v) m -> (forall a, triple (At v) (k a) Q) -> triple (At v) (py_bind m k) Q.
Proof. apply triple_frame. Qed.
Lemma at_read (k : world -> MW B) : (forall w, view_of w = v -> triple (At v) (k w) Q) -> triple (At v) (py_bind py_get k) Q.
Proof.
  intros Hk. apply triple_read. intros w Hw. apply (triple_pre _ (At v)); [by intros _ <-|]. by apply Hk.
Qed.
Lemma at_ensure b code detail (k : unit -> MW B) :
  (b = true -> triple (At v) (k tt) Q) -> triple (At v) (py_bind (ensure b code detail) k) Q.
Proof. apply triple_require. Qed.

Lemma at_assoc {C} (m : MW C) (k : C -> MW A) (k' : A -> MW B) :
  triple (At v) (py_bind m (fun c => py_bind (k c) k')) Q -> triple (At v) (py_bind (py_bind m k) k') Q.
Proof. apply triple_assoc. Qed.
Lemma at_modify f v' (k : unit -> MW B) : (forall w, view_of w = v -> view_of (f w) = v') ->
  triple (At v') (k tt) Q -> triple (At v) (py_bind (py_modify f) k) Q.
Proof. intros Hf. by apply triple_modify. Qed.

Lemma at_load task (k : option settlement -> MW B) : rows_ok (v_rows v) ->
  (forall s, loaded v s -> task_id s = task -> triple (At v) (k (Some s)) Q) ->
  triple (At v) (k None) Q ->
  triple (At v) (py_bind (load_settlement task) k) Q.
Proof.
  intros Hok Hs Hn w w' b Hw Hr. unfold load_settlement, py_bind, py_get in Hr.
  destruct (get task (rows (db w))) as [[s|]|] eqn:E; [|by apply (Hn w)|done].
  replace (rows (db w)) with (v_rows v) in E by by rewrite <- Hw.
  destruct (get_Some _ _ _ Hok E) as (H1 & H2 & H3). by apply (Hs s (conj H1 H2) H3 w).
Qed.
Lemma at_settlement task (k : settlement -> MW B) : rows_ok (v_rows v) ->
  (forall s, loaded v s -> task_id s = task -> triple (At v) (k s) Q) ->
  triple (At v) (py_bind (settlement_of task) k) Q.
Proof.
  intros Hok Hs w w' b Hw Hr. unfold settlement_of, load_settlement, py_bind, py_get in Hr.
  destruct (get task (rows (db w))) as [[s|]|] eqn:E; [|done..].
  replace (rows (db w)) with (v_rows v) in E by by rewrite <- Hw.
  destruct (get_Some _ _ _ Hok E) as (H1 & H2 & H3). by apply (Hs s (conj H1 H2) H3 w).
Qed.

(** A save that returns. *)
Lemma at_save s (k : unit -> MW B) :
  (task_taken (task_id s) (settlement_id s) (v_rows v) = false -> run_outcome (save s) (v_rows v) = Ret tt ->
   triple (At (put s v)) (k tt) Q) ->
  triple (At v) (py_bind (save_settlement s) k) Q.
Proof.
  intros Hk w w' b Hw Hr. unfold save_settlement, py_bind, py_get, py_modify in Hr.
  pose proof (save_frame s (rows (db w))) as Hf. assert (rows (db w) = v_rows v) as E by by rewrite <- Hw.
  destruct (save s (rows (db w))) as [rs [[]|e]] eqn:Es; [|done]. destruct Hf as [-> Hf].
  rewrite E in *. refine (Hk Hf _ _ w' b _ Hr); [unfold run_outcome; by rewrite Es|].
  unfold At, put. by rewrite <- Hw.
Qed.
Lemma at_transition rq s target reason (k : settlement -> MW B) :
  (forall at_, can_transition (status s) target = true ->
   triple (At (put (set_status target at_ s) v)) (k (set_status target at_ s)) Q) ->
  triple (At v) (py_bind (apply_transition rq s target reason) k) Q.
Proof.
  intros Hk w w' b Hw Hr. unfold apply_transition, record_transition_audit, py_bind, py_get, py_modify in Hr.
  destruct (can_transition (status s) target) eqn:Hc; cbn [negb] in Hr; [|done].
  set (s' := set_status target (now w) s) in *.
  pose proof (save_frame s' (rows (db w))) as Hf. assert (rows (db w) = v_rows v) as E by by rewrite <- Hw.
  destruct (save s' (rows (db w))) as [rs [[]|e]] eqn:Es; [|by destruct (store_error_text e)]. destruct Hf as [-> Hf].
  refine (Hk (now w) eq_refl _ w' b _ Hr). unfold At, put. by rewrite <- Hw.
Qed.
Lemma at_ret a (k : A -> MW B) : triple (At v) (k a) Q -> triple (At v) (py_bind (py_ret a) k) Q.
Proof. done. Qed.
Lemma at_raise e (k : A -> MW B) : triple (At v) (py_bind (py_raise e) k) Q.
Proof. intros w w' b _ Hr. discriminate Hr. Qed.
Lemma at_case id (k : case_row -> MW B) :
  (forall c, c ∈ v_cases v -> k_id c = id -> triple (At v) (k c) Q) -> triple (At v) (py_bind (case_of id) k) Q.
Proof.
  intros Hk w w' b Hw Hr. unfold case_of, py_bind, py_get in Hr.
  destruct (List.find (is_case id) (cases (db w))) as [c|] eqn:E; [|done]. apply find_some in E as [Hin Hc].
  apply bool_decide_eq_true in Hc. apply list_elem_of_In in Hin. refine (Hk c _ Hc w w' b Hw Hr). by rewrite <- Hw.
Qed.
Lemma at_done (a : B) : (forall w, view_of w = v -> Q a w) -> triple (At v) (py_ret a : MW B) Q.
Proof. apply triple_ret. Qed.
Lemma at_draw (k : unit -> MW B) : triple (At (draw v)) (k tt) Q -> triple (At v) (py_bind (py_modify draw_id) k) Q.
Proof. apply at_modify. by intros w <-. Qed.
Lemma at_update_case id f (k : unit -> MW B) :
  triple (At (with_cases (put_where (is_case id) f (v_cases v)) v)) (k tt) Q -> triple (At v) (py_bind (update_case id f) k) Q.
Proof. apply at_modify. by intros w <-. Qed.
Lemma at_add_case c (k : unit -> MW B) :
  triple (At (with_cases (v_cases v ++ [c])%list v)) (k tt) Q -> triple (At v) (py_bind (add_case c) k) Q.
Proof. apply at_modify. by intros w <-. Qed.
Lemma at_evidence task x (k : unit -> MW B) : (evidence v task x -> triple (At v) (k tt) Q) ->
  triple (At v) (py_bind (ensure_success_execution_receipt cfg task x) k) Q.
Proof.
  intros Hk w w' b Hw Hr. unfold ensure_success_execution_receipt, py_bind, py_get, ensure, py_require in Hr.
  unfold evidence in Hk. replace (v_receipts v) with (receipts (db w)) in Hk by by rewrite <- Hw.
  destruct (requires_success_receipt cfg) eqn:E1; cbn [andb] in Hr; [|by apply (Hk ltac:(done) w)].
  destruct (fleb x e6) eqn:E2; cbn [negb] in Hr; [by apply (Hk ltac:(done) w)|].
  destruct (existsb r_success _) eqn:E3; [|done]. by apply (Hk ltac:(done) w).
Qed.
End Rules.

(** The request, from here on, does not touch the view. *)
Lemma at_rest (v0 v : view) (m : MW unit) : safe (At v) m -> rtc smove v0 v -> triple (At v) m (fun _ w' => rtc smove v0 (view_of w')).
Proof. intros Hm Hv w w' a Hw Hr. by rewrite (Hm w w' a Hw Hr). Qed.

End Moves.

Local Ltac frame := stays ltac:(fail).
Ltac at_steps :=
  repeat first
    [ progress intros
    | lazymatch goal with
      | |- triple _ (py_bind py_get _) _ => apply at_read
      | |- triple _ (py_bind (ensure _ _ _) _) _ => apply at_ensure
      | |- triple _ (py_bind (fail _ _) _) _ => apply at_raise
      | |- triple _ (py_bind (py_raise _) _) _ => apply at_raise
      | |- triple _ (fail _ _) _ => apply triple_raise
      | |- triple _ (py_raise _) _ => apply triple_raise
      | |- triple _ (py_bind (py_ret _) _) _ => apply at_ret
      | |- triple _ (py_bind (load_settlement _) _) _ => apply at_load; [assumption|..]
      | |- triple _ (py_bind (settlement_of _) _) _ => apply at_settlement; [assumption|]
      | |- triple _ (py_bind (case_of _) _) _ => apply at_case
      | |- triple _ (py_bind (save_settlement _) _) _ => apply at_save
      | |- triple _ (py_bind (apply_transition _ _ _ _) _) _ => apply at_transition
      | |- triple _ (py_bind (ensure_success_execution_receipt _ _ _) _) _ => apply at_evidence
      | |- triple _ (py_bind (py_modify draw_id) _) _ => apply at_draw
      | |- triple _ (py_bind (update_case _ _) _) _ => apply at_update_case
      | |- triple _ (py_bind (add_case _) _) _ => apply at_add_case
      | |- triple _ (py_bind (py_bind _ _) _) _ => apply at_assoc
      | |- triple _ (py_bind (match assert_lock_does_not_close_payment_cycle ?a ?b ?c ?d ?e with _ => _ end) _) _ =>
          destruct (assert_lock_does_not_close_payment_cycle a b c d e) as [[]|[]] eqn:?
      | |- triple _ (match ?x with _ => _ end) _ => destruct x eqn:?
      | |- triple _ (py_ret _) _ => apply at_done
      end
    | apply at_frame; [solve [frame]|]
    | lazymatch goal with
      | |- triple _ (py_bind (match ?x with _ => _ end) _) _ => destruct x eqn:?
      end ].

Lemma set_scene_deal scene s : same_deal s (set_scene scene s) /\ worker_agent_id (set_scene scene s) = worker_agent_id s
  /\ s_released_amount (other (set_scene scene s)) = s_released_amount (other s) /\ status (set_scene scene s) = status s.
Proof. unfold set_scene. destruct scene as [h|]; [destruct (s_rule_spec (other s))|]; repeat split. Qed.
Lemma lock_guard_answers b rows task buyer worker e :
  assert_lock_does_not_close_payment_cycle b rows task buyer worker = Raise e -> exists d, e = HTTPException 409 d.
Proof.
  unfold assert_lock_does_not_close_payment_cycle. destruct b; [|discriminate]. cbn [negb].
  destruct (worker_reaches_buyer_on_edges _ _ _); [|discriminate]. intros [= <-]. eauto.
Qed.

Section SolveMoves.
Context (cfg : settings) (uid : nat -> string) (v : view) (s : settlement) (at_ : datetime).

(** The moves the requests make, with what they owe. *)
Lemma moves_status s' target : loaded v s -> same_deal s s' -> worker_agent_id s' = worker_agent_id s ->
  s_released_amount (other s') = s_released_amount (other s) -> status s' = status s ->
  can_transition (status s') target = true ->
  mem (canonical_task_status target) [TS_ACCEPTED; TS_SETTLED; TS_REFUNDED; TS_FROZEN] = false ->
  smove cfg uid v (put (set_status target at_ s') v).
Proof.
  intros Hl Hd Hw Hr Hs Hc Ht. apply (SM_status cfg uid v s); [done..| |by apply mem_false].
  rewrite <- Hs. exact Hc.
Qed.
Lemma moves_resolve s' target settled refunded released_at : loaded v s -> same_deal s s' ->
  worker_agent_id s' = worker_agent_id s -> status s' = status s ->
  can_transition (status s') target = true -> mem target [TS_SETTLED; TS_REFUNDED] = true ->
  evidence cfg v (task_id s) settled \/ evidence cfg v (task_id s) (escrow_amount s) ->
  smove cfg uid v (put (set_status target at_ (set_split settled refunded released_at s')) v).
Proof.
  intros Hl Hd Hw Hs Hc Ht He. apply (SM_resolve cfg uid v s _ settled refunded); [done..| | |done|done|done].
  - rewrite <- Hs. exact Hc.
  - by apply mem_true.
Qed.
End SolveMoves.

Lemma loaded_put v s target at_ : canonical_task_status target = target ->
  loaded (put (set_status target at_ s) v) (set_status target at_ s).
Proof. intros Ht. split; [apply lookup_insert_eq|]. unfold canonical. cbn [status set_status]. by rewrite Ht. Qed.

Lemma canonical_status (s : settlement) : canonical s = s -> canonical_task_status (status s) = status s.
Proof. intros H. exact (f_equal (@status _) H). Qed.
Lemma decided_status o partial escrow t settled refunded : decided_split o partial escrow = (t, (settled, refunded)) ->
  t = TS_SETTLED \/ t = TS_REFUNDED.
Proof. destruct o; cbn; intros [= <- _ _]; auto. Qed.

Lemma decided_not_again t : t = TS_SETTLED \/ t = TS_REFUNDED ->
  can_transition (if bool_decide (canonical_task_status t = TS_DISPUTED) then TS_ARBITRATED else canonical_task_status t) t
  = false.
Proof. by intros [-> | ->]; vm_compute. Qed.

(** The status the store lets a loaded settlement move to. *)
Lemma save_moves v s s' : loaded v s -> settlement_id s' = settlement_id s -> run_outcome (save s') (v_rows v) = Ret tt ->
  status s = canonical_task_status (status s') \/ can_transition (status s) (status s') = true.
Proof.
  intros [Hr Hc] Hid Ho. rewrite <- Hid in Hr. apply (save_status_moves s' (v_rows v) (to_row s)); [done| |done].
  by rewrite canonical_row, canonical_status.
Qed.

Section Refine.
Context (cfg : settings) (sql_sum : list float -> float) (uid : nat -> string).
Context (verify_launch verify_buyer : CreateVoucherRequest -> option string).
Context (meta : voucher_terms -> string -> list (string * json)).

Lemma body_refines op v : rows_ok (v_rows v) ->
  triple (At v) (body cfg sql_sum uid verify_launch verify_buyer meta op) (fun _ w' => rtc (smove cfg uid) v (view_of w')).
Proof.
  intros Hok. destruct op; cbn [body]; autounfold with escrow_bodies; unfold done_with, finish, accept_voucher_row,
    new_settlement_allowed, put_voucher, record_voucher_event, append_case_event,
    record_transition_audit.
  all: try solve [apply at_rest; [frame|apply rtc_refl]].
  all: at_steps.
  all: try solve [discriminate | apply at_rest; [frame|apply rtc_refl]].
  all: try match goal with H : view_of _ = _ |- rtc _ _ _ => rewrite H; clear H end.
  all: try solve [apply rtc_refl].
  all: try match goal with H : assert_lock_does_not_close_payment_cycle _ _ _ _ _ = Raise _ |- _ =>
    by destruct (lock_guard_answers _ _ _ _ _ _ H) as [d ?] end.
  all: try solve [apply rtc_once; eapply moves_status; [eassumption|by repeat split|done|done|done|eassumption|reflexivity]].
  all: try solve [apply rtc_once; eapply moves_resolve; [eassumption|by repeat split|done|done|eassumption|reflexivity|]; subst; auto].
  all: try solve [apply rtc_once, SM_draw].
  - (* create_settlement *) apply rtc_once, SM_create; [|done..]. cbn. by subst v.
  - (* lock_settlement *) apply rtc_once, SM_accept; [done..| |].
    + intros ->. by rewrite str_eqb_refl in H1.
    + subst task v. done.
  - (* buyer_accept_settlement *)
    match goal with |- context [set_scene ?x s] => destruct (set_scene_deal x s) as (Hd & Hw & _ & Hs) end.
    apply rtc_once. eapply moves_resolve; [eassumption|done..| | |].
    + done.
    + reflexivity.
    + right. subst task. destruct Hd as (_ & _ & <- & _). done.
  - (* auto_arbitrate *)
    eapply rtc_l; [eapply moves_status; [eassumption|by repeat split|done|done|done|eassumption|reflexivity]|].
    apply rtc_once. eapply moves_resolve; [by apply loaded_put|by repeat split|done|done|done| |].
    + by destruct (fleb s1 e6).
    + left. subst task. done.
  - (* create_arbitration_case *)
    eapply rtc_l; [eapply moves_status; [eassumption|by repeat split|done|done|done|eassumption|reflexivity]|].
    apply rtc_once, (SM_new_case cfg uid (put _ v)); [|done]. exact (f_equal (fun x => uid (v_drawn x)) H8).
  - apply rtc_once, (SM_new_case cfg uid v); [|done]. exact (f_equal (fun x => uid (v_drawn x)) H5).
  - (* assign_arbitrators *)
    subst id. apply rtc_once, SM_case; [done| |done]. by destruct (finalized c).
  - (* cast_vote *) subst id. apply rtc_once, SM_case; [done| |done]. by destruct (finalized c).
  - subst id. apply rtc_once, SM_case; [done| |done]. by destruct (finalized c).
  - (* execute_arbitration_case *)
    subst id. apply rtc_once. apply bool_decide_eq_true in H1.
    apply (SM_execute cfg uid v c d s _ s0 s1); [done..|by repeat split|done| |done|done|done].
    refine (or_ind (fun Hm => _) id (save_moves v s (set_status t _ (set_split s0 s1 _ s)) H2 eq_refl H7)).
    cbn [status set_status] in Hm. rewrite Hm in H5.
    by rewrite (decided_not_again t (decided_status _ _ _ _ _ _ Heqp)) in H5.
  - unfold py_when. destruct (receipt_fits _ _); [|apply at_rest; [frame|apply rtc_refl]].
    unfold add_receipt. apply triple_modify_last. intros w' <-. apply rtc_once. exact (SM_receipt cfg uid (view_of w') r).
Qed.

Abbreviation step := (escrow_step cfg sql_sum uid verify_launch verify_buyer meta).
Abbreviation run ops w := (escrow_run cfg sql_sum uid verify_launch verify_buyer meta ops w).

(** A request that fails leaves the view as it was. *)
Lemma step_refines op w : rows_ok (rows (db w)) -> rtc (smove cfg uid) (view_of w) (view_of (step op w)).
Proof.
  intros Hok. unfold escrow_step, run_state, get_db.
  destruct (body cfg sql_sum uid verify_launch verify_buyer meta op w) as [w' [[]|e]] eqn:E; [|apply rtc_refl].
  exact (body_refines op (view_of w) Hok w w' tt eq_refl E).
Qed.
End Refine.
