(* ===== verification/EscrowRuns.v ===== *)
(** * Escrow: what holds of settlements in every run

    Invariants of the moves of [EscrowSettlements], and with the refinement the
    theorems about runs of requests. *)

From S2P Require Import Prelude PyBytes PyJson PyDatetime PyFloat PyHoare SettlementEngine PaymentCycle ResponsibilityGraph EscrowDb CapacityLedger Vouchers PaymentCodes ProgressReceipts AutoArbitration SettlementRoutes ArbitrationPool EscrowFlow EscrowSettlements.
From stdpp Require Import relations.
#[local] Open Scope string_scope.
#[local] Open Scope py_scope.

Definition finals : list TaskStatus := [TS_SETTLED; TS_REFUNDED; TS_CANCELLED].
Definition resolved : list TaskStatus := [TS_SETTLED; TS_REFUNDED].
Definition has_status (l : list TaskStatus) (r : SettlementModel settlement_columns) : bool :=
  str_mem (row_status r) (map TaskStatus_value l).

(** An active settlement of buyer [b] with worker [a]. *)
Definition active_payment (rs : settlements settlement_columns) (b a : string) : Prop :=
  exists k r, rs !! k = Some r /\ row_client_agent_id r = b /\ row_worker_agent_id r = Some a /\ has_status finals r = false.

(** The decision of an executed case is what its settlement carries. *)
Definition applied (v : view) (c : case_row) : Prop :=
  exists k r o st settled refunded, v_rows v !! k = Some r /\ row_task_id r = k_task_id c /\ k_outcome c = Some o
  /\ decided_split o (k_partial c) (row_escrow_amount r) = (st, (settled, refunded))
  /\ row_status r = TaskStatus_value st
  /\ s_released_amount (row_other r) = Some settled /\ s_refunded_amount (row_other r) = Some refunded.

Section Invariants.
Context (cfg : settings) (uid : nat -> string) (uid_inj : forall n n', uid n = uid n' -> n = n').

(** A payment to the seller has its ground: a receipt, or an executed case. *)
Definition grounded (v : view) (r : SettlementModel settlement_columns) : Prop :=
  forall x, s_released_amount (row_other r) = Some x -> requires_success_receipt cfg = true ->
  fleb x e6 = false -> fleb (row_escrow_amount r) e6 = false ->
  existsb r_success (task_receipts (row_task_id r) (v_receipts v)) = true
  \/ exists c, c ∈ v_cases v /\ k_status c = A_EXECUTED /\ k_task_id c = row_task_id r.

Record runs_ok (v : view) : Prop := {
  ru_rows : rows_ok (v_rows v);
  ru_fresh : forall k r, v_rows v !! k = Some r -> exists n, (n < v_drawn v)%nat /\ k = uid n;
  ru_fresh_cases : forall c, c ∈ v_cases v -> exists n, (n < v_drawn v)%nat /\ k_id c = uid n;
  ru_cases : NoDup (map k_id (v_cases v));
  ru_released : forall k r, v_rows v !! k = Some r ->
    (is_Some (s_released_amount (row_other r)) <-> has_status resolved r = true);
  ru_grounded : forall k r, v_rows v !! k = Some r -> grounded v r;
  ru_acyclic : block_payment_cycle cfg = true -> forall n, ~ tc (active_payment (v_rows v)) n n;
  ru_applied : forall c, c ∈ v_cases v -> k_status c = A_EXECUTED -> applied v c
}.

(** ** Rows that a move writes *)

Lemma has_status_row l s : has_status l (to_row s) = mem (canonical_task_status (status s)) l.
Proof.
  unfold has_status. cbn [row_status to_row]. apply bool_decide_ext. rewrite list_elem_of_fmap. split.
  - intros (st & E & Hin). apply (f_equal TaskStatus_of_value) in E. rewrite !TaskStatus_roundtrip in E. by injection E as ->.
  - intros Hin. by exists (canonical_task_status (status s)).
Qed.

(** From a final status the table only leads to [FROZEN]. *)
Lemma final_moves st target : mem st finals = true -> can_transition st target = true -> canonical_task_status target = TS_FROZEN.
Proof.
  intros Hf%mem_true Hc. apply list_elem_of_In in Hf. revert Hc. unfold can_transition, targets.
  destruct Hf as [<-|[<-|[<-|[]]]]; cbn; by intros Hm%mem_true%list_elem_of_singleton.
Qed.

(** A settlement that moves along the table, and not into [FROZEN]. *)
Definition legal (v : view) (s s' : settlement) : Prop :=
  loaded v s /\ same_deal s s' /\ can_transition (status s) (status s') = true
  /\ canonical_task_status (status s') <> TS_FROZEN.

Lemma legal_not_final v s s' : legal v s s' -> has_status finals (to_row s) = false.
Proof.
  intros ([_ Hc] & _ & Ht & Hf). rewrite has_status_row, (canonical_status s Hc).
  destruct (mem (status s) finals) eqn:Hm; [|done]. by destruct (Hf (final_moves _ _ Hm Ht)).
Qed.
Lemma finals_resolved r : has_status resolved r = true -> has_status finals r = true.
Proof.
  unfold has_status, str_mem. rewrite !bool_decide_eq_true. cbn. set_solver.
Qed.
Lemma legal_unreleased v s s' : runs_ok v -> legal v s s' -> s_released_amount (other s) = None.
Proof.
  intros Hv Hl. destruct Hl as [[Hs Hc] Hl'] eqn:E. pose proof (legal_not_final v s s' (conj (conj Hs Hc) Hl')) as Hn.
  destruct (s_released_amount (other s)) as [x|] eqn:Ex; [|done]. exfalso.
  assert (has_status resolved (to_row s) = true) as Hr by (apply (ru_released _ Hv _ _ Hs); cbn; by rewrite Ex).
  by rewrite (finals_resolved _ Hr) in Hn.
Qed.

(** What a move does to the table. *)
Lemma smove_rows v v' : smove cfg uid v v' ->
  v_rows v' = v_rows v
  \/ (exists s, v_rows v' = <[settlement_id s := to_row s]> (v_rows v) /\ settlement_id s = uid (v_drawn v)
        /\ v_drawn v' = S (v_drawn v) /\ task_taken (task_id s) (settlement_id s) (v_rows v) = false
        /\ status s = TS_DRAFT /\ worker_agent_id s = None /\ s_released_amount (other s) = None)
  \/ (exists s s', legal v s s' /\ v_rows v' = <[settlement_id s' := to_row s']> (v_rows v) /\ v_drawn v' = v_drawn v
        /\ (worker_agent_id s' = worker_agent_id s
            \/ exists w, worker_agent_id s' = Some w /\ w <> client_agent_id s
                /\ assert_lock_does_not_close_payment_cycle (block_payment_cycle cfg) (payment_rows (v_rows v)) (task_id s)
                      (client_agent_id s) w = Ret tt)
        /\ (mem (canonical_task_status (status s')) resolved = false /\ s_released_amount (other s') = s_released_amount (other s)
            \/ mem (canonical_task_status (status s')) resolved = true /\ is_Some (s_released_amount (other s')))).
Proof.
  intros Hm. destruct Hm as [s H1 H2 H3 H4 H5|s s' Hl Hd Hw Hr Hc Hn|s w at_ Hl Hc Hw Hg|s s' x y Hl Hd Hw Hc Hs Hx Hy He
    |c o s s' x y at_ Hin Hk Ho Hl Ht Hd Hw Hc Hsp Hx Hy|c Hid Hst|c f Hin Hf Hok|r|]; try (by left).
  - right. left. exists s. repeat split; done.
  - right. right. exists s, s'. split; [|split; [done|split; [done|split; [by left|]]]].
    + split; [done|]. split; [done|]. split; [done|]. intros E. apply Hn. rewrite E. set_solver.
    + left. split; [|done]. apply bool_decide_eq_false. intros Hin. apply Hn. unfold resolved in Hin. set_solver.
  - right. right. exists s, (set_status TS_ACCEPTED at_ (set_worker w s)).
    split; [|split; [done|split; [done|split; [right; by exists w|by left]]]]. split; [done|]. split; [by repeat split|done].
  - right. right. exists s, s'. split; [|split; [done|split; [done|split; [by left|]]]].
    + split; [done|]. split; [done|]. split; [done|]. apply list_elem_of_In in Hs. by destruct Hs as [<-|[<-|[]]].
    + right. rewrite Hx. apply list_elem_of_In in Hs. destruct Hs as [<-|[<-|[]]]; by eauto.
  - right. right. exists s, s'. split; [|split; [done|split; [done|split; [by left|]]]].
    + split; [done|]. split; [done|]. split; [done|]. by destruct (decided_status _ _ _ _ _ _ Hsp) as [-> | ->].
    + right. rewrite Hx. destruct (decided_status _ _ _ _ _ _ Hsp) as [-> | ->]; by eauto.
Qed.

(** ** Keeping the invariants *)

Section Keep.
Context (v v' : view) (Hv : runs_ok v) (Hm : smove cfg uid v v').

Lemma final_stays k r : v_rows v !! k = Some r -> has_status finals r = true -> v_rows v' !! k = Some r.
Proof.
  intros Hr Hf. destruct (smove_rows v v' Hm) as [->|[(s & -> & Hid & _)|(s & s' & Hl & -> & _)]]; [done|..].
  - rewrite lookup_insert_ne; [done|]. intros E. destruct (ru_fresh _ Hv k r Hr) as (n & Hn & Ek).
    rewrite Hid, Ek in E. apply uid_inj in E. lia.
  - rewrite lookup_insert_ne; [done|]. intros E. pose proof (legal_not_final v s s' Hl) as Hn.
    destruct Hl as ([Hs _] & (Hid & _) & _). rewrite <- Hid, E, Hr in Hs. injection Hs as ->. by rewrite Hn in Hf.
Qed.

Lemma keep_rows : rows_ok (v_rows v').
Proof.
  pose proof (ru_rows _ Hv) as Hok.
  destruct (smove_rows v v' Hm) as [->|[(s & -> & _ & _ & Ht & _)|(s & s' & Hl & -> & _)]]; [done|by apply rows_ok_insert|].
  apply rows_ok_insert; [done|]. destruct Hl as ([Hs _] & (Hid & Ht & _) & _). rewrite Hid, Ht.
  apply task_taken_false. intros k r Hr E. by apply (ro_task _ Hok k _ r (to_row s)).
Qed.
Lemma keep_fresh k r : v_rows v' !! k = Some r -> exists n, (n < v_drawn v')%nat /\ k = uid n.
Proof.
  destruct (smove_rows v v' Hm) as [E|[(s & -> & Hid & -> & _)|(s & s' & Hl & -> & -> & _)]].
  - rewrite E. intros Hr. destruct (ru_fresh _ Hv k r Hr) as (n & Hn & ->). exists n. split; [|done].
    revert Hn. destruct Hm; cbn; lia.
  - intros [[<- _]|[_ Hr]]%lookup_insert_Some; [exists (v_drawn v); split; [lia|done]|].
    destruct (ru_fresh _ Hv k r Hr) as (n & Hn & ->). exists n. split; [lia|done].
  - intros [[<- _]|[_ Hr]]%lookup_insert_Some; [|by apply (ru_fresh _ Hv k r)].
    destruct Hl as ([Hs _] & (Hid & _) & _). rewrite Hid. by apply (ru_fresh _ Hv _ (to_row s)).
Qed.
Lemma keep_released k r : v_rows v' !! k = Some r ->
  (is_Some (s_released_amount (row_other r)) <-> has_status resolved r = true).
Proof.
  destruct (smove_rows v v' Hm) as [->|[(s & -> & _ & _ & _ & Hst & _ & Hx)|(s & s' & Hl & -> & _ & _ & Hx)]].
  - apply (ru_released _ Hv).
  - intros [[_ <-]|[_ Hr]]%lookup_insert_Some; [|by apply (ru_released _ Hv k)].
    rewrite has_status_row, Hst. cbn [row_other to_row]. rewrite Hx. split; [by intros []|done].
  - intros [[_ <-]|[_ Hr]]%lookup_insert_Some; [|by apply (ru_released _ Hv k)].
    rewrite has_status_row. cbn [row_other to_row]. destruct Hx as [[-> ->]|[-> Hx]]; [|done].
    rewrite (legal_unreleased v s s' Hv Hl). split; [by intros []|done].
Qed.

(** *** Cases *)
Lemma put_where_ids id f (l : list case_row) : (forall c, k_id (f c) = k_id c) -> map k_id (put_where (is_case id) f l) = map k_id l.
Proof. intros Hf. unfold put_where. rewrite map_map. apply map_ext. intros c. by destruct (is_case id c). Qed.
Lemma same_case c c' : c ∈ v_cases v -> c' ∈ v_cases v -> k_id c = k_id c' -> c = c'.
Proof.
  pose proof (ru_cases _ Hv) as Hnd. intros Hc Hc' E.
  apply list_elem_of_lookup in Hc as [i Hi], Hc' as [j Hj].
  assert (i = j) as ->; [|congruence]. apply (NoDup_lookup (map k_id (v_cases v)) i j (k_id c)); [done|..].
  - change (map k_id (v_cases v)) with (k_id <$> v_cases v). by rewrite list_lookup_fmap, Hi.
  - change (map k_id (v_cases v)) with (k_id <$> v_cases v). by rewrite list_lookup_fmap, Hj, E.
Qed.
Lemma put_where_elem id f c (l : list case_row) : c ∈ put_where (is_case id) f l <->
  exists c0, c0 ∈ l /\ c = (if is_case id c0 then f c0 else c0).
Proof. unfold put_where. rewrite list_elem_of_fmap. split; intros (c0 & H1 & H2); by exists c0. Qed.
Lemma is_case_spec id c : is_case id c = true <-> k_id c = id.
Proof. apply bool_decide_eq_true. Qed.

Lemma keep_fresh_cases c : c ∈ v_cases v' -> exists n, (n < v_drawn v')%nat /\ k_id c = uid n.
Proof.
  pose proof (ru_fresh_cases _ Hv) as Hf. destruct Hm; cbn; try (exact (Hf c)).
  - intros Hc. destruct (Hf c Hc) as (n & ? & ?). exists n. split; [lia|done].
  - intros (c0 & Hc0 & ->)%put_where_elem. destruct (Hf c0 Hc0) as (n & ? & ?). exists n. by destruct (is_case _ c0).
  - intros [Hc| ->%list_elem_of_singleton]%elem_of_app; [|exists (v_drawn v); split; [lia|done]].
    destruct (Hf c Hc) as (n & ? & ?). exists n. split; [lia|done].
  - intros (c0 & Hc0 & ->)%put_where_elem. destruct (Hf c0 Hc0) as (n & ? & ?). exists n. split; [done|].
    destruct (is_case _ c0); [|done]. by rewrite (proj1 (H1 c0)).
  - intros Hc. destruct (Hf c Hc) as (n & ? & ?). exists n. split; [lia|done].
Qed.
Lemma keep_cases : NoDup (map k_id (v_cases v')).
Proof.
  pose proof (ru_cases _ Hv) as Hnd. destruct Hm; cbn; try exact Hnd.
  - by rewrite put_where_ids.
  - rewrite map_app. apply NoDup_app. split; [done|]. split; [|apply NoDup_singleton].
    intros id (c & -> & Hc)%list_elem_of_fmap Hk%list_elem_of_singleton.
    destruct (ru_fresh_cases _ Hv c Hc) as (n & Hn & E). rewrite E, H in Hk. apply uid_inj in Hk. lia.
  - rewrite put_where_ids; [done|]. intros c. by apply H1.
Qed.

(** Executed cases stay executed, and only [SM_execute] adds one. *)
Lemma executed_stays c : c ∈ v_cases v -> k_status c = A_EXECUTED ->
  exists c', c' ∈ v_cases v' /\ k_status c' = A_EXECUTED /\ k_task_id c' = k_task_id c.
Proof.
  intros Hc Hs. destruct Hm; cbn; try (by exists c).
  - exists (if is_case (k_id k) c then execute_case at_ c else c). split; [apply put_where_elem; by exists c|].
    by destruct (is_case _ c).
  - exists c. split; [apply elem_of_app; by left|done].
  - exists c. split; [|done]. apply put_where_elem. exists c. split; [done|].
    destruct (is_case (k_id k) c) eqn:E; [|done]. apply is_case_spec in E.
    rewrite (same_case c k Hc H E) in Hs. unfold finalized in H0. by rewrite Hs in H0.
Qed.

Lemma receipts_grow task : existsb r_success (task_receipts task (v_receipts v)) = true ->
  existsb r_success (task_receipts task (v_receipts v')) = true.
Proof.
  intros H. destruct Hm; try exact H. cbn. unfold task_receipts in *. rewrite List.filter_app, existsb_app. by rewrite H.
Qed.
Lemma grounded_stays r : grounded v r -> grounded v' r.
Proof.
  intros H x H1 H2 H3 H4. destruct (H x H1 H2 H3 H4) as [Hr|(c & Hc & Hs & Ht)]; [left; by apply receipts_grow|right].
  destruct (executed_stays c Hc Hs) as (c' & Hc' & Hs' & Ht'). exists c'. split; [done|split; [done|congruence]].
Qed.
Lemma unreleased_grounded r : s_released_amount (row_other r) = None -> grounded v' r.
Proof. intros Hn x H1. by rewrite Hn in H1. Qed.

Lemma keep_grounded k r : v_rows v' !! k = Some r -> grounded v' r.
Proof.
  pose proof (fun r' H => grounded_stays r' (ru_grounded _ Hv k r' H)) as Hold. revert Hold.
  pose proof unreleased_grounded as Hun. pose proof (fun s s' => legal_unreleased v s s' Hv) as Hleg.
  destruct Hm as [s H1 H2 H3 H4 H5|s s' Hl Hd Hw Hr Hc Hn|s w at_ Hl Hc Hw Hg|s s' x y Hl Hd Hw Hc Hs Hx Hy He
    |c o s s' x y at_ Hin Hk Ho Hl Ht Hd Hw Hc Hsp Hx Hy|c Hid Hst|c f Hin Hf Hok|rc|]; cbn; intros Hold;
    try exact (Hold r); intros [[_ <-]|[_ Hr']]%lookup_insert_Some; try (by apply Hold).
  - by apply Hun.
  - apply Hun. cbn. rewrite Hr. apply (Hleg s s'). split; [done|]. split; [done|]. split; [done|].
    intros E. apply Hn. rewrite E. set_solver.
  - apply Hun. apply (Hleg s (set_status TS_ACCEPTED at_ (set_worker w s))). split; [done|]. split; [by repeat split|done].
  - intros x0 H1 H2 H3 H4. cbn in H1, H4. rewrite Hx in H1. injection H1 as <-. left.
    destruct Hd as (_ & Ht & Ha & _). cbn. rewrite Ht. rewrite Ha in H4. destruct He as [He|He]; by apply He.
  - intros _ _ _ _ _. right. exists (execute_case at_ c). split; [|split; [done|]].
    + apply put_where_elem. exists c. split; [done|]. by rewrite (proj2 (is_case_spec _ _) eq_refl).
    + cbn. destruct Hd as (_ & -> & _). done.
Qed.

Lemma keep_applied c : c ∈ v_cases v' -> k_status c = A_EXECUTED -> applied v' c.
Proof.
  assert (forall c0, c0 ∈ v_cases v -> k_status c0 = A_EXECUTED -> forall c1, k_task_id c1 = k_task_id c0 ->
    k_outcome c1 = k_outcome c0 -> k_partial c1 = k_partial c0 -> applied v' c1) as Hold.
  { intros c0 Hc0 Hs c1 Et Eo Ep. destruct (ru_applied _ Hv c0 Hc0 Hs) as (k & r & o & st & x & y & Hr & Ht & Ho & Hsp & Hst & Hx & Hy).
    exists k, r, o, st, x, y. rewrite Et, Eo, Ep. split; [|done]. apply final_stays; [done|].
    apply finals_resolved. unfold has_status, str_mem. apply bool_decide_eq_true. rewrite Hst. apply list_elem_of_fmap.
    exists st. split; [done|]. destruct (decided_status _ _ _ _ _ _ Hsp) as [-> | ->]; set_solver. }
  revert Hold. destruct Hm as [s H1 H2 H3 H4 H5|s s' Hl Hd Hw Hr Hc Hn|s w at_ Hl Hc Hw Hg|s s' x y Hl Hd Hw Hc Hs Hx Hy He
    |k o s s' x y at_ Hin Hk Ho Hl Ht Hd Hw Hc Hsp Hx Hy|k Hid Hst|k f Hin Hf Hok|rc|]; cbn; intros Hold Hc0 Hs0;
    try (by apply (Hold c)).
  - apply put_where_elem in Hc0 as (c0 & Hc0 & ->). destruct (is_case (k_id k) c0) eqn:E; [|by apply (Hold c0)].
    apply is_case_spec in E. rewrite (same_case c0 k Hc0 Hin E). clear E Hs0.
    exists (settlement_id s'), (to_row s'), o, (status s'), x, y. destruct Hd as (_ & Et & Ea & _). cbn.
    split; [apply lookup_insert_eq|]. split; [by rewrite Et|]. split; [done|]. rewrite Ea. split; [done|].
    split; [|done]. by destruct (decided_status _ _ _ _ _ _ Hsp) as [-> | ->].
  - apply elem_of_app in Hc0 as [Hc0| ->%list_elem_of_singleton]; [by apply (Hold c)|]. by rewrite Hst in Hs0.
  - apply put_where_elem in Hc0 as (c0 & Hc0 & ->). destruct (is_case (k_id k) c0) eqn:E; [|by apply (Hold c0)].
    by destruct (Hok c0) as (_ & _ & Hne).
Qed.

(** *** Payments *)
Lemma active_edges_spec task rs b a : pays (active_edges task (payment_rows rs)) b a <->
  exists k r, rs !! k = Some r /\ row_client_agent_id r = b /\ row_worker_agent_id r = Some a
    /\ row_task_id r <> task /\ has_status finals r = false.
Proof.
  unfold pays, active_edges, payment_rows. rewrite list_elem_of_omap. split.
  - intros (x & ([k r] & -> & Hin)%list_elem_of_fmap & He). cbn in He. apply elem_of_map_to_list in Hin.
    destruct (row_worker_agent_id r) as [w|] eqn:Ew; [|done]. destruct (negb (str_eqb _ _) && negb _) eqn:Eb; [|done].
    injection He as <- <-. apply andb_true_iff in Eb as [E1 E2]. exists k, r. repeat split; [done..| |].
    + intros E. by rewrite E, str_eqb_refl in E1.
    + by destruct (str_mem _ _) eqn:E in E2.
  - intros (k & r & Hr & Hc & Hw & Ht & Hf). eexists. split.
    + apply list_elem_of_fmap. exists (k, r). split; [reflexivity|]. by apply elem_of_map_to_list.
    + cbn. rewrite Hw, Hc, (str_eqb_ne _ _ Ht). unfold has_status in Hf.
      change (map TaskStatus_value finals) with terminal_status_strings in Hf. by rewrite Hf.
Qed.
Lemma tc_mono {A} (R R' : relation A) x y : (forall x y, R x y -> R' x y) -> tc R x y -> tc R' x y.
Proof. intros H. induction 1 as [x y Hxy|x y z Hxy _ IH]; [apply tc_once|eapply tc_l; [|exact IH]]; by apply H. Qed.

Lemma keep_acyclic : block_payment_cycle cfg = true -> forall n, ~ tc (active_payment (v_rows v')) n n.
Proof.
  intros Hb n Hn. pose proof (ru_acyclic _ Hv Hb) as Hold.
  assert ((forall b a, active_payment (v_rows v') b a -> active_payment (v_rows v) b a) -> False) as Hmono.
  { intros H. apply (Hold n). exact (tc_mono _ _ n n H Hn). }
  destruct (smove_rows v v' Hm) as [E|[(s & E & Hid & _ & _ & _ & Hw & _)|(s & s' & Hl & E & _ & Hw & _)]].
  - rewrite E in *. by apply Hmono.
  - apply Hmono. intros b a (k & r & Hr & Hrest). rewrite E in Hr. apply lookup_insert_Some in Hr as [[_ <-]|[_ Hr]]; [|by exists k, r].
    destruct Hrest as (_ & Hw' & _). cbn in Hw'. congruence.
  - pose proof (legal_not_final v s s' Hl) as Hnf. destruct Hl as ([Hs _] & (Hid & Ht & _ & _ & Hc) & _).
    destruct Hw as [Hw|(w & Hw & Hne & Hg)].
    + apply Hmono. intros b a (k & r & Hr & Hrest). rewrite E in Hr. apply lookup_insert_Some in Hr as [[_ <-]|[_ Hr]]; [|by exists k, r].
      destruct Hrest as (Hb' & Hw' & _). cbn in Hb', Hw'. exists (settlement_id s), (to_row s). cbn.
      rewrite <- Hc, <- Hw. by repeat split.
    + rewrite Hb in Hg. set (old := active_edges (task_id s) (payment_rows (v_rows v))) in *.
      assert (acyclic old) as Ha.
      { intros m Hcyc. apply (Hold m). refine (tc_mono _ _ m m _ Hcyc). intros b a Hp.
        apply active_edges_spec in Hp as (k & r & Hr & H1 & H2 & _ & H3). by exists k, r. }
      refine (acyclic_new_edge (client_agent_id s) w old Ha (guard_no_path _ _ _ _ _ Hg) n _); [congruence|].
      refine (tc_mono _ _ n n _ Hn). intros b a (k & r & Hr & Hb' & Hw' & Hf). rewrite E in Hr. apply pays_cons.
      apply lookup_insert_Some in Hr as [[_ <-]|[Hk Hr]].
      * left. cbn in Hb', Hw'. rewrite Hw in Hw'. injection Hw' as <-. by rewrite <- Hb', Hc.
      * right. apply active_edges_spec. exists k, r. repeat split; [done..| |done]. intros Hsame.
        apply Hk. rewrite Hid. by apply (ro_task _ (ru_rows _ Hv) _ k (to_row s) r).
Qed.

Lemma keep_runs_ok : runs_ok v'.
Proof.
  split; [exact keep_rows|exact keep_fresh|exact keep_fresh_cases|exact keep_cases|exact keep_released|exact keep_grounded
    |exact keep_acyclic|exact keep_applied].
Qed.
End Keep.

Lemma keep_moves v v' : runs_ok v -> rtc (smove cfg uid) v v' -> runs_ok v'.
Proof. intros Hv H. induction H as [v|v v1 v2 H1 _ IH]; [done|]. apply IH. by apply (keep_runs_ok v). Qed.
Lemma finals_stay_moves v v' k r : runs_ok v -> rtc (smove cfg uid) v v' -> v_rows v !! k = Some r ->
  has_status finals r = true -> v_rows v' !! k = Some r.
Proof.
  intros Hv H Hr Hf. induction H as [v|v v1 v2 H1 _ IH]; [done|].
  apply IH; [by apply (keep_runs_ok v)|by apply (final_stays v)].
Qed.

Lemma runs_ok_empty t : runs_ok (view_of (empty_world t)).
Proof.
  split; cbn; try (intros ? ?; rewrite lookup_empty; done); try (intros ? Hin; by apply elem_of_nil in Hin).
  - split; intros k r; [intros H|intros H|intros r1 r2 H]; by rewrite lookup_empty in H.
  - constructor.
  - intros _ n Hn. apply tc_first in Hn as (m & (k & r & Hr & _) & _). by rewrite lookup_empty in Hr.
Qed.

(** ** Runs *)

Section Run.
Context (sql_sum : list float -> float).
Context (verify_launch verify_buyer : CreateVoucherRequest -> option string).
Context (meta : voucher_terms -> string -> list (string * json)).
Abbreviation run ops w := (escrow_run cfg sql_sum uid verify_launch verify_buyer meta ops w).

Lemma run_moves ops w : runs_ok (view_of w) -> rtc (smove cfg uid) (view_of w) (view_of (run ops w)).
Proof.
  revert w. induction ops as [|op ops IH]; intros w Hw; [apply rtc_refl|].
  pose proof (step_refines cfg sql_sum uid verify_launch verify_buyer meta op w (ru_rows _ Hw)) as H1.
  etrans; [exact H1|]. apply IH. by apply (keep_moves (view_of w)).
Qed.
Lemma run_ok ops t : runs_ok (view_of (run ops (empty_world t))).
Proof. apply (keep_moves (view_of (empty_world t))); [apply runs_ok_empty|]. apply run_moves, runs_ok_empty. Qed.
End Run.
End Invariants.

(** ** A purchase, for the witnesses

    [b] locks 100 USDC, authorises [s] for 10, who delivers with a receipt and is
    paid; a second task of the same two ends in arbitration. *)

Definition example_uid (n : nat) : string := "id" ++ py_str_int (Z.of_nat n).
Lemma example_uid_inj n n' : example_uid n = example_uid n' -> n = n'.
Proof. intros H%(inj (String.append "id"))%py_str_int_inj. lia. Qed.

Definition example_settings : settings :=
  Settings fzero (float_of_int 1000) false false false false true true true false false false None false false 300 24.
Definition example_sum (l : list float) : float := fold_left fadd l fzero.
Definition example_meta (t : voucher_terms) (actor : string) : list (string * json) := [].
Definition example_rq : request := Request None "/".
Definition example_voucher (nonce : string) : CreateVoucherRequest :=
  VoucherRequest "b" "s" (float_of_int 10) "USDC" (float_of_int 10) "t" "" "" "" 1000000000 nonce "" None None None None None.
Definition purchase (task voucher nonce : string) : list escrow_op :=
  [NewContract task; CreateVoucher None (example_voucher nonce); AcceptVoucher None voucher "s";
   CreateSettlement example_rq (SettlementRequest task "b" (float_of_int 10) "USDC" (Some voucher) None None);
   MarkPending example_rq task; LockSettlement example_rq task "s" None; StartSettlement example_rq task;
   NewReceipt (Receipt task ("r-" ++ task) 0 true ""); SubmitSettlement example_rq None task].
Definition example_ops : list escrow_op :=
  LockUsdc None "b" f100 None :: purchase "t1" "id0" "n1"
  ++ [BuyerAccept example_rq "t1" None None None None]
  ++ purchase "t2" "id2" "n2"
  ++ [OpenDispute example_rq "t2" None; JoinPool "j" f100; CreateCase "t2" "b" None 1; AssignArbitrators "id4" 1;
      CastVote "id4" "j" SELLER_WINS None; ExecuteCase "id4"].
Abbreviation example_run ops :=
  (escrow_run example_settings example_sum example_uid (fun _ => None) (fun _ => None) example_meta ops (empty_world 0)).


Section Theorems.
Context (cfg : settings) (sql_sum : list float -> float) (uid : nat -> string).
Context (verify_launch verify_buyer : CreateVoucherRequest -> option string).
Context (meta : voucher_terms -> string -> list (string * json)).
Context (uid_inj : forall n n', uid n = uid n' -> n = n').
Abbreviation run ops w := (escrow_run cfg sql_sum uid verify_launch verify_buyer meta ops w).

(** C5. In every run, each request moves the settlements, receipts and cases by
    moves of the abstract machine: a settlement appears as a draft for a task that
    has none; it moves along the transition table with its deal unchanged; a worker
    other than the buyer is accepted past the cycle guard; money is split on the way
    to [settled] or [refunded], against a successful receipt or as the decided case
    says.  A request that fails moves nothing. *)
Theorem requests_refine_moves ops op t :
  rtc (smove cfg uid) (view_of (run ops (empty_world t))) (view_of (run (ops ++ [op]) (empty_world t)))
  /\ forall e, run_outcome (get_db (body cfg sql_sum uid verify_launch verify_buyer meta op)) (run ops (empty_world t)) = Raise e ->
     db (run (ops ++ [op]) (empty_world t)) = db (run ops (empty_world t)).
Proof.
  unfold escrow_run. rewrite fold_left_app. cbn [fold_left]. fold (run ops (empty_world t)). split.
  - apply step_refines. exact (ru_rows _ _ _ (run_ok cfg uid uid_inj _ _ _ _ ops t)).
  - intros e. unfold escrow_step, run_state, run_outcome, get_db.
    destruct (body _ _ _ _ _ _ op _) as [w' [a|e']]; [discriminate|done].
Qed.

(** C8. A settlement that is settled, refunded or cancelled stays as it is,
    column by column, whatever requests follow. *)
Theorem final_settlements_stay ops ops' t k r :
  rows (db (run ops (empty_world t))) !! k = Some r -> has_status finals r = true ->
  rows (db (run (ops ++ ops') (empty_world t))) !! k = Some r.
Proof.
  intros Hr Hf. unfold escrow_run. rewrite fold_left_app.
  pose proof (run_ok cfg uid uid_inj sql_sum verify_launch verify_buyer meta ops t) as Hok.
  refine (finals_stay_moves cfg uid uid_inj _ _ k r Hok (run_moves cfg uid uid_inj _ _ _ _ ops' _ Hok) Hr Hf).
Qed.

(** C7. With the cycle guard on, the payments of active settlements (locked, and
    not settled, refunded or cancelled) never form a cycle of agents, and no agent
    buys from itself. *)
Theorem active_payments_acyclic ops t : block_payment_cycle cfg = true ->
  forall n, ~ tc (active_payment (rows (db (run ops (empty_world t))))) n n.
Proof. exact (ru_acyclic _ _ _ (run_ok cfg uid uid_inj sql_sum verify_launch verify_buyer meta ops t)). Qed.

(** C6. Money is released for a settlement just when it is settled or refunded, and,
    with the receipt guard on, more than dust of more than a dust escrow only if the
    task has a successful execution receipt or an executed arbitration case. *)
Theorem payouts_grounded ops t k r : rows (db (run ops (empty_world t))) !! k = Some r ->
  (is_Some (s_released_amount (row_other r)) <-> has_status resolved r = true)
  /\ grounded cfg (view_of (run ops (empty_world t))) r.
Proof.
  pose proof (run_ok cfg uid uid_inj sql_sum verify_launch verify_buyer meta ops t) as Hok. intros Hr.
  split; [exact (ru_released _ _ _ Hok k r Hr)|exact (ru_grounded _ _ _ Hok k r Hr)].
Qed.

(** An executed arbitration case stays applied: the settlement of its task has
    the status and the split the decision gives for its escrow; and the cases of the
    pool have distinct identifiers. *)
Theorem executed_cases_applied ops t :
  NoDup (map k_id (cases (db (run ops (empty_world t)))))
  /\ forall c, c ∈ cases (db (run ops (empty_world t))) -> k_status c = A_EXECUTED ->
     applied (view_of (run ops (empty_world t))) c.
Proof.
  pose proof (run_ok cfg uid uid_inj sql_sum verify_launch verify_buyer meta ops t) as Hok.
  split; [exact (ru_cases _ _ _ Hok)|exact (ru_applied _ _ _ Hok)].
Qed.
End Theorems.

Abbreviation at_example P := (P example_settings example_sum example_uid (fun _ => None) (fun _ => None) example_meta example_uid_inj).

Lemma requests_refine_moves_witness :
  rtc (smove example_settings example_uid) (view_of (example_run example_ops))
    (view_of (example_run (example_ops ++ [NewContract "t3"]))).
Proof. exact (proj1 (at_example requests_refine_moves example_ops (NewContract "t3") 0%Z)). Defined.

Lemma final_settlements_stay_witness : exists r,
  rows (db (example_run example_ops)) !! "id1" = Some r /\ row_status r = "settled"
  /\ rows (db (example_run (example_ops ++ [Regret example_rq "t1" None None None]))) !! "id1" = Some r.
Proof.
  assert (bool_decide (row_status <$> rows (db (example_run example_ops)) !! "id1" = Some "settled") = true) as Hs
    by (vm_compute; reflexivity).
  apply bool_decide_eq_true in Hs. destruct (rows (db (example_run example_ops)) !! "id1") as [r|] eqn:Hr; [|discriminate].
  injection Hs as Hs. exists r. split; [done|split; [done|]].
  apply (at_example final_settlements_stay example_ops [Regret example_rq "t1" None None None] 0%Z "id1" r Hr).
  unfold has_status. rewrite Hs. vm_compute. reflexivity.
Defined.

Lemma active_payments_acyclic_witness :
  ~ tc (active_payment (rows (db (example_run (LockUsdc None "b" f100 None :: purchase "t1" "id0" "n1"))))) "b" "b".
Proof. exact (at_example active_payments_acyclic (LockUsdc None "b" f100 None :: purchase "t1" "id0" "n1") 0%Z eq_refl "b"). Defined.

Lemma payouts_grounded_witness : exists r, rows (db (example_run example_ops)) !! "id1" = Some r
  /\ s_released_amount (row_other r) = Some (float_of_int 10)
  /\ grounded example_settings (view_of (example_run example_ops)) r.
Proof.
  assert ((fun r => s_released_amount (row_other r)) <$> rows (db (example_run example_ops)) !! "id1"
    = Some (Some (float_of_int 10))) as Hs by (vm_compute; reflexivity).
  destruct (rows (db (example_run example_ops)) !! "id1") as [r|] eqn:Hr; [|discriminate].
  injection Hs as Hs. exists r. split; [done|split; [done|]].
  exact (proj2 (at_example payouts_grounded example_ops 0%Z "id1" r Hr)).
Defined.

Lemma executed_cases_applied_witness : exists c, c ∈ cases (db (example_run example_ops)) /\ k_id c = "id4"
  /\ applied (view_of (example_run example_ops)) c.
Proof.
  assert (bool_decide ((fun c => (k_id c, k_status c)) <$> cases (db (example_run example_ops)) = [("id4", A_EXECUTED)]) = true) as Hs
    by (vm_compute; reflexivity).
  apply bool_decide_eq_true in Hs. pose proof (proj2 (at_example executed_cases_applied example_ops 0%Z)) as Ha.
  destruct (cases (db (example_run example_ops))) as [|c l] eqn:Hc; [discriminate|]. injection Hs as Hid Hst _.
  exists c. split; [left|]. split; [done|]. apply Ha; [left|done].
Defined.

(** A settlement with a negative escrow, refunded by regret, locks USDC nobody
    deposited. *)
Lemma negative_escrow_mints :
  (fun c => (total_locked_usdc c, disputed_credits c)) <$>
    capacities (db (example_run
      [LockUsdc None "b" f100 None; NewContract "t";
       CreateSettlement example_rq (SettlementRequest "t" "b" (float_of_int (-50)) "USDC" None None None);
       MarkPending example_rq "t"; LockSettlement example_rq "t" "s" None; StartSettlement example_rq "t";
       SubmitSettlement example_rq None "t"; Regret example_rq "t" None None None])) !! "b"
  = Some (float_of_int 150, float_of_int 50).
Proof. by vm_compute. Qed.
