(* ===== verification/EscrowVouchers.v ===== *)
(** * Escrow: the life of vouchers

    What a request may do to the table of vouchers, as an invariant of runs: fresh
    identifiers and nonces, the shape of a row in each status, and rows that only
    move forward with their terms unchanged. *)

From S2P Require Import Prelude PyBytes PyJson PyDatetime PyFloat PyHoare SettlementEngine PaymentCycle ResponsibilityGraph EscrowDb CapacityLedger Vouchers PaymentCodes ProgressReceipts AutoArbitration SettlementRoutes ArbitrationPool EscrowFlow EscrowRuns.
#[local] Open Scope string_scope.
#[local] Open Scope py_scope.

(** ** Rows *)

(** What a row of each status carries; two statuses are never stored. *)
Definition status_shape (v : voucher_row) : Prop :=
  match v_status v with
  | V_CREATED => v_accepted_at v = None /\ v_rejected_by v = None
  | V_ACCEPTED | V_USED =>
      (exists at_, v_accepted_at v = Some at_ /\ (at_ < v_expiry_time (v_terms v))%Z) /\ v_rejected_by v = None
  | V_REJECTED => v_accepted_at v = None /\ v_rejected_by v = Some (v_seller (v_terms v)) /\ is_Some (v_rejection_reason v)
  | V_EXPIRED | V_CANCELLED => False
  end.
Definition terms_valid (t : voucher_terms) : Prop :=
  fgtb (v_amount t) fzero = true /\ fgtb (v_bill_credit t) fzero = true /\ (v_created_at t < v_expiry_time t)%Z.

(** A row and a later state of it. *)
Definition next_statuses (s : voucher_status) : list voucher_status :=
  match s with
  | V_CREATED => [V_CREATED; V_ACCEPTED; V_USED; V_REJECTED]
  | V_ACCEPTED => [V_ACCEPTED; V_USED]
  | s => [s]
  end.
Definition closed (v : voucher_row) : bool := match v_status v with V_USED | V_REJECTED => true | _ => false end.
Definition evolves (v v' : voucher_row) : Prop :=
  v_terms v' = v_terms v /\ v_status v' ∈ next_statuses (v_status v)
  /\ (v_status v <> V_CREATED -> v_accepted_at v' = v_accepted_at v /\ v_payment_mode v' = v_payment_mode v)
  /\ (closed v = true -> v' = v).

Lemma evolves_refl v : evolves v v.
Proof. split; [done|]. split; [|done]. destruct (v_status v); left. Qed.
Lemma evolves_trans v1 v2 v3 : evolves v1 v2 -> evolves v2 v3 -> evolves v1 v3.
Proof.
  intros (Ht1 & Hs1 & Ha1 & Hc1) (Ht2 & Hs2 & Ha2 & Hc2). split; [congruence|]. split; [|split].
  - destruct (v_status v1), (v_status v2); cbn in *; set_solver.
  - intros Hn. destruct (Ha1 Hn) as [Ea Em]. rewrite <- Ea, <- Em. apply Ha2. intros E.
    destruct (v_status v1); rewrite E in Hs1; cbn in Hs1; set_solver.
  - intros Hc. rewrite (Hc1 Hc) in *. by apply Hc2.
Qed.

(** ** The table *)

Section Table.
Context (uid : nat -> string).

Record vouchers_ok (m : gmap string voucher_row) (n : nat) : Prop := {
  vo_fresh : forall k v, m !! k = Some v -> exists i, (i < n)%nat /\ k = uid i;
  vo_nonce : forall k k' v v', m !! k = Some v -> m !! k' = Some v' ->
    v_buyer (v_terms v) = v_buyer (v_terms v') -> v_nonce (v_terms v) = v_nonce (v_terms v') -> k = k';
  vo_terms : forall k v, m !! k = Some v -> terms_valid (v_terms v);
  vo_shape : forall k v, m !! k = Some v -> status_shape v
}.

(** A code that asks to be decided at once is open only while its request runs. *)
Definition undecided (v : voucher_row) : Prop := v_payment_mode v = PREAUTH /\ v_status v = V_CREATED.

Record lifecycle (m0 : gmap string voucher_row) (open : option string) (m : gmap string voucher_row) (n : nat) : Prop := {
  lc_ok : vouchers_ok m n;
  lc_grown : forall k v, m0 !! k = Some v -> exists v', m !! k = Some v' /\ evolves v v';
  lc_decided : forall k v, m !! k = Some v -> undecided v -> open = Some k
}.
Definition living m0 open (w : world) : Prop := lifecycle m0 open (vouchers (db w)) (drawn w).
Definition holds m0 open id v (w : world) : Prop := living m0 open w /\ vouchers (db w) !! id = Some v.

Lemma ok_drawn m n : vouchers_ok m n -> vouchers_ok m (S n).
Proof.
  intros H. split; [|apply (vo_nonce _ _ H)|apply (vo_terms _ _ H)|apply (vo_shape _ _ H)].
  intros k v Hk. destruct (vo_fresh _ _ H k v Hk) as (i & Hi & ->). exists i. split; [lia|done].
Qed.
Lemma ok_insert m n k v : vouchers_ok m n -> (exists i, (i < n)%nat /\ k = uid i) ->
  (forall k' v', m !! k' = Some v' -> v_buyer (v_terms v') = v_buyer (v_terms v) ->
     v_nonce (v_terms v') = v_nonce (v_terms v) -> k' = k) ->
  terms_valid (v_terms v) -> status_shape v -> vouchers_ok (<[k := v]> m) n.
Proof.
  intros H Hf Hn Ht Hs. split.
  - intros k' v' [[<- _]|[_ Hk]]%lookup_insert_Some; [done|by apply (vo_fresh _ _ H k' v')].
  - intros k1 k2 v1 v2 H1 H2. apply lookup_insert_Some in H1 as [[<- <-]|[_ H1]], H2 as [[<- <-]|[_ H2]]; intros Eb En.
    + done.
    + symmetry. by apply (Hn k2 v2).
    + by apply (Hn k1 v1).
    + by apply (vo_nonce _ _ H k1 k2 v1 v2).
  - intros k' v' [[_ <-]|[_ Hk]]%lookup_insert_Some; [done|by apply (vo_terms _ _ H k')].
  - intros k' v' [[_ <-]|[_ Hk]]%lookup_insert_Some; [done|by apply (vo_shape _ _ H k')].
Qed.

(** A row replaced by a later state of it. *)
Lemma put_later m0 o o' id v v' w : holds m0 o id v w -> evolves v v' -> status_shape v' ->
  o = None \/ o = Some id -> (undecided v' -> o' = Some id) -> 
  holds m0 o' id v' (set_vouchers (<[id := v']> (vouchers (db w))) w).
Proof.
  intros [Hw Hv] He Hs Ho Hu. split; [|apply lookup_insert_eq]. destruct Hw as [Hok Hg Hd]. split; cbn.
  - destruct He as (Et & _). apply ok_insert; [done|by apply (vo_fresh _ _ Hok _ v)| | |done].
    + rewrite Et. intros k1 v1 H1 Eb En. by apply (vo_nonce _ _ Hok k1 id v1 v).
    + rewrite Et. by apply (vo_terms _ _ Hok id).
  - intros k1 v1 H1. destruct (Hg k1 v1 H1) as (v2 & H2 & He2).
    destruct (decide (id = k1)) as [->|Hne].
    + exists v'. split; [apply lookup_insert_eq|]. rewrite Hv in H2. injection H2 as <-. by eapply evolves_trans.
    + exists v2. by rewrite lookup_insert_ne.
  - intros k1 v1 [[<- <-]|[Hne H1]]%lookup_insert_Some Hu1; [by apply Hu|].
    specialize (Hd k1 v1 H1 Hu1). destruct Ho as [-> | ->]; congruence.
Qed.

(** A new row. *)
Lemma put_new m0 id v w : living m0 None w -> id = uid (drawn w) ->
  nonce_taken (v_buyer (v_terms v)) (v_nonce (v_terms v)) (db w) = false ->
  (forall i j, uid i = uid j -> i = j) ->
  terms_valid (v_terms v) -> status_shape v -> ~ undecided v ->
  holds m0 None id v (set_vouchers (<[id := v]> (vouchers (db w))) (draw_id w)).
Proof.
  intros [Hok Hg Hd] -> Hn Hinj Ht Hs Hu. split; [|apply lookup_insert_eq].
  assert (vouchers (db w) !! uid (drawn w) = None) as Hnew.
  { destruct (_ !! _) as [v1|] eqn:E; [|done]. destruct (vo_fresh _ _ Hok _ v1 E) as (i & Hi & Ei). apply Hinj in Ei. lia. }
  split; cbn.
  - apply ok_insert; [by apply ok_drawn|exists (drawn w); split; [lia|done]| |done|done].
    intros k1 v1 H1 Eb En. exfalso. unfold nonce_taken in Hn.
    assert (existsb (fun x : string * voucher_row => str_eqb (v_buyer (v_terms x.2)) (v_buyer (v_terms v))
      && str_eqb (v_nonce (v_terms x.2)) (v_nonce (v_terms v))) (map_to_list (vouchers (db w))) = true) as Hx; [|congruence].
    apply existsb_exists. exists (k1, v1). split; [by apply list_elem_of_In, elem_of_map_to_list|].
    cbn. by rewrite Eb, En, !str_eqb_refl.
  - intros k1 v1 H1. destruct (Hg k1 v1 H1) as (v2 & H2 & He2). exists v2. split; [|done].
    rewrite lookup_insert_ne; [done|congruence].
  - intros k1 v1 [[_ <-]|[_ H1]]%lookup_insert_Some Hu1; [done|by apply (Hd k1 v1)].
Qed.
End Table.

(** ** Requests *)

Section Requests.
Context (cfg : settings) (sql_sum : list float -> float) (uid : nat -> string).
Context (verify_launch verify_buyer : CreateVoucherRequest -> option string).
Context (meta : voucher_terms -> string -> list (string * json)).
Context (uid_inj : forall n n', uid n = uid n' -> n = n') (m0 : gmap string voucher_row).
Abbreviation living := (living uid m0).
Abbreviation holds := (holds uid m0).

Local Ltac frame := stays ltac:(fail).
Local Ltac held := lazymatch goal with H : EscrowVouchers.holds _ _ _ _ _ ?s |- _ ?s => exact (proj1 H) end.
Local Ltac walk := walk_until ltac:(fail).

Lemma triple_fails {A B} (P : world -> Prop) (m : MW A) code detail Q : triple P (m ;;; fail (A := B) code detail) Q.
Proof. apply triple_bind with (fun _ _ => True); [done|]. intros _. apply triple_raise. Qed.
Lemma put_later_rule {A} o o' id v v' (k : unit -> MW A) Q : evolves v v' ->
  (status_shape v -> status_shape v') -> o = None \/ o = Some id -> (undecided v' -> o' = Some id) ->
  triple (holds o' id v') (k tt) Q -> triple (holds o id v) (py_bind (put_voucher id v') k) Q.
Proof.
  intros He Hs Ho Hu Hk. unfold put_voucher. apply triple_modify with (P' := holds o' id v'); [|done].
  intros w Hw. apply put_later with o v; [done|done| |done|done].
  apply Hs. destruct Hw as [Hl Hv]. exact (vo_shape _ _ _ (lc_ok _ _ _ _ _ Hl) _ _ Hv).
Qed.

Lemma accept_rule o id v seller actor : o = None \/ o = Some id ->
  triple (holds o id v) (accept_voucher_row sql_sum meta id v seller actor) (fun _ => living None).
Proof.
  intros Ho. unfold accept_voucher_row, record_voucher_event. walk; [by apply triple_fails|].
  apply bool_decide_eq_true in H0. apply put_later_rule with None; [| |done|by intros []|].
  - split; [done|]. split; [cbn; rewrite H0; set_solver|]. split; [by intros|]. unfold closed. by rewrite H0.
  - intros Hs. unfold status_shape in *. rewrite H0 in Hs. cbn in *. split; [|apply Hs]. eexists. split; [done|]. lia.
  - walk. held.
Qed.

Lemma reject_rule o id v seller reason : o = None \/ o = Some id ->
  triple (holds o id v) (reject_voucher_row id v seller reason) (fun _ => living None).
Proof.
  intros Ho. unfold reject_voucher_row, record_voucher_event. walk. apply bool_decide_eq_true in H.
  apply put_later_rule with None; [| |done|by intros []|].
  - split; [done|]. split; [cbn; rewrite H; set_solver|]. split; [by intros|]. unfold closed. by rewrite H.
  - intros Hs. unfold status_shape in *. rewrite H in Hs. cbn in *. split; [apply Hs|]. split; [|done].
    apply bool_decide_eq_true in H0. by rewrite H0.
  - walk. held.
Qed.

Lemma used_rule task : safe (living None) (mark_voucher_used_if_linked task).
Proof.
  unfold safe, mark_voucher_used_if_linked. apply triple_read. intros w Hw.
  repeat match goal with |- triple _ (match ?x with _ => _ end) _ => destruct x eqn:? end;
    try (by apply triple_ret; intros ? <-).
  unfold py_when. destruct (_ && _) eqn:Hc; [|by apply triple_ret; intros ? <-].
  apply andb_true_iff in Hc as [_ Hc%bool_decide_eq_true]. apply triple_modify_last. intros ? <-.
  match goal with H : vouchers _ !! ?i = Some ?v |- _ =>
    refine (proj1 (put_later uid m0 None None i v (with_status V_USED v) w (conj Hw H) _ _ _ _)) end; [| |by left|by intros []].
  - split; [done|]. split; [cbn; rewrite Hc; set_solver|]. split; [done|]. unfold closed. by rewrite Hc.
  - pose proof (vo_shape _ _ _ (lc_ok _ _ _ _ _ Hw) _ _ Heqo1) as Hs. unfold status_shape in *. by rewrite Hc in Hs.
Qed.

(** The clock of a request. *)
Lemma triple_now {A} (P : world -> Prop) (m : MW A) Q :
  (forall t, triple (fun w => P w /\ now w = t) m Q) -> triple P m Q.
Proof. intros H w w' a Hw. by apply (H (now w) w w' a). Qed.

Lemma insert_rule q t : fgtb (q_amount q) fzero && fgtb (q_bill_credit q) fzero = true -> (t < q_expiry_time q)%Z ->
  triple (fun w => living None w /\ now w = t)
    (let! w := py_get in
     py_modify draw_id ;;;
     ensure (negb (nonce_taken (q_buyer q) (q_nonce q) (db w))) 409 "duplicate voucher nonce for this buyer" ;;;
     put_voucher (uid (drawn w)) (new_voucher q (now w)) ;;;
     record_voucher_event (uid (drawn w)) "voucher.created" (Some (q_buyer q)) (Some (q_seller q)) ;;;
     py_ret (uid (drawn w), new_voucher q (now w)))
    (fun r w => holds None r.1 r.2 w /\ v_status r.2 = V_CREATED).
Proof.
  intros [Ha Hb]%andb_true_iff Ht w w' r [Hw Hn] Hr.
  unfold py_modify, put_voucher, record_voucher_event, ensure, py_require, py_get, py_ret, py_bind in Hr.
  destruct (nonce_taken _ _ _) eqn:Hk; [done|]. injection Hr as <- <-. split; [|done].
  apply (put_new uid m0 (uid (drawn w)) (new_voucher q (now w)) w); [done..| | |by intros [[=] _]].
  - split; [done|split; [done|]]. cbn. by rewrite Hn.
  - done.
Qed.

Lemma create_rule actor q : triple (living None)
  (create_voucher cfg sql_sum uid verify_launch verify_buyer actor q)
  (fun r w => holds None r.1 r.2 w /\ v_status r.2 = V_CREATED).
Proof.
  apply triple_now. intros t. unfold create_voucher, assert_buyer_commitment_for_voucher.
  walk_until ltac:(apply insert_rule; [done|]). destruct H0 as [_ <-]. apply negb_true_iff, Z.leb_gt in H1. done.
Qed.

Lemma code_rule actor q fresh : safe (living None)
  (create_payment_code cfg sql_sum uid verify_launch verify_buyer meta actor q fresh).
Proof.
  unfold safe, create_payment_code, record_voucher_event.
  walk_until ltac:(eapply triple_bind; [apply create_rule|]). apply triple_pure. cbn. intros Hs.
  assert (evolves v (with_code q v)) as He.
  { split; [done|]. split; [cbn; rewrite Hs; set_solver|]. split; [done|]. unfold closed. by rewrite Hs. }
  destruct (bool_decide (cq_payment_mode q = PREAUTH)) eqn:Hm.
  - apply put_later_rule with (Some s0); [done|done|by left|done|]. walk.
    apply triple_bind with (fun _ => living None); [|by intros; apply triple_ret].
    destruct (ev_accept _); [apply accept_rule|apply reject_rule]; by right.
  - apply put_later_rule with None; [done|done|by left| |].
    + intros [Hc _]. apply bool_decide_eq_false in Hm. by destruct Hm.
    + walk. held.
Qed.

Lemma get_rule {A} id (k : voucher_row -> MW A) Q : (forall v, triple (holds None id v) (k v) Q) ->
  triple (living None) (py_bind (get_voucher id) k) Q.
Proof.
  intros Hk w w' a Hw Hr. unfold get_voucher, py_bind, py_get in Hr. cbn in Hr.
  destruct (vouchers (db w) !! id) as [v|] eqn:E; [|done]. by apply (Hk v w w' a (conj Hw E)).
Qed.

Lemma accept_voucher_safe actor id seller : safe (living None) (accept_voucher cfg sql_sum meta actor id seller).
Proof.
  unfold safe, accept_voucher. walk_until ltac:(apply get_rule; intros v; apply accept_rule; by left).
Qed.
Lemma accept_code_safe actor id seller : safe (living None) (accept_payment_code cfg sql_sum meta actor id seller).
Proof. unfold safe, accept_payment_code. walk_until ltac:(apply get_rule; intros v; apply accept_rule; by left). Qed.
Lemma reject_code_safe actor id seller reason : safe (living None) (reject_payment_code cfg actor id seller reason).
Proof. unfold safe, reject_payment_code. walk_until ltac:(apply get_rule; intros v; apply reject_rule; by left). Qed.
Lemma create_safe actor q : safe (living None) (create_voucher cfg sql_sum uid verify_launch verify_buyer actor q).
Proof. refine (triple_post _ _ _ _ _ (create_rule actor q)). by intros r w [[Hw _] _]. Qed.

Lemma draw_safe : safe (living None) (py_modify draw_id : MW unit).
Proof. apply safe_modify. intros w [H1 H2 H3]. split; [by apply ok_drawn|done|done]. Qed.
Local Hint Resolve used_rule draw_safe code_rule accept_voucher_safe accept_code_safe reject_code_safe create_safe : safe.
Local Hint Opaque create_payment_code accept_voucher accept_payment_code reject_payment_code create_voucher
  mark_voucher_used_if_linked : safe.

Lemma voucher_bodies op : safe (living None) (body cfg sql_sum uid verify_launch verify_buyer meta op).
Proof. bodies. Qed.
End Requests.

(** ** Runs *)

Section Runs.
Context (cfg : settings) (sql_sum : list float -> float) (uid : nat -> string).
Context (verify_launch verify_buyer : CreateVoucherRequest -> option string).
Context (meta : voucher_terms -> string -> list (string * json)).
Context (uid_inj : forall n n', uid n = uid n' -> n = n').
Abbreviation run ops w := (escrow_run cfg sql_sum uid verify_launch verify_buyer meta ops w).

Lemma living_run m0 ops w : living uid m0 None w -> living uid m0 None (run ops w).
Proof.
  apply (run_keeps cfg sql_sum uid verify_launch verify_buyer meta (fun d n => lifecycle uid m0 None (vouchers d) n)).
  intros op. exact (voucher_bodies cfg sql_sum uid verify_launch verify_buyer meta uid_inj m0 op).
Qed.
Lemma living_empty t : living uid ∅ None (empty_world t).
Proof. split; [split|..]; cbn; intros *; by rewrite lookup_empty. Qed.

(** C9. In every run no two vouchers share a buyer and a nonce, each carries what
    its status calls for (an accepted one was accepted before it expired, none is
    stored expired or cancelled), and none created with pre-authorisation is left
    undecided; and whatever requests follow, a voucher keeps its terms and moves
    only from created to accepted to used or from created to rejected, a used or
    rejected one not at all. *)
Theorem voucher_lifecycle ops ops' t :
  let m := vouchers (db (run ops (empty_world t))) in
  (forall k k' v v', m !! k = Some v -> m !! k' = Some v' -> v_buyer (v_terms v) = v_buyer (v_terms v') ->
     v_nonce (v_terms v) = v_nonce (v_terms v') -> k = k')
  /\ (forall k v, m !! k = Some v -> terms_valid (v_terms v) /\ status_shape v /\ ~ undecided v)
  /\ (forall k v, m !! k = Some v ->
     exists v', vouchers (db (run (ops ++ ops') (empty_world t))) !! k = Some v' /\ evolves v v').
Proof.
  pose proof (living_run ∅ ops _ (living_empty t)) as [Hok _ Hd]. split; [exact (vo_nonce _ _ _ Hok)|]. split.
  - intros k v Hv. split; [exact (vo_terms _ _ _ Hok k v Hv)|]. split; [exact (vo_shape _ _ _ Hok k v Hv)|].
    intros Hu. discriminate (Hd k v Hv Hu).
  - unfold escrow_run. rewrite fold_left_app. cbn [fold_left].
    set (w := fold_left _ ops _) in *. intros k v Hv.
    assert (living uid (vouchers (db w)) None w) as Hl.
    { split; [exact Hok| |exact Hd]. intros k1 v1 H1. exists v1. split; [done|apply evolves_refl]. }
    exact (lc_grown _ _ _ _ _ (living_run _ ops' w Hl) k v Hv).
Qed.
End Runs.

(** A seller that takes what its buyer pre-authorises. *)
Definition seller_policy : automation_policy :=
  Policy false (float_of_int 20) (float_of_int 50) [] "always" true 0 0 true [] None None ["b"] 600 None true false false.
Definition buyer_policy : automation_policy :=
  Policy false (float_of_int 20) (float_of_int 50) [] "always" true 0 0 true [] None None [] 600 None false false false.
Definition example_code (amount : Z) (nonce : string) : CreatePaymentCodeRequest :=
  CodeRequest "b" "s" (float_of_int amount) "USDC" (float_of_int amount) "t" None "auto" "" "" "" (Some nonce) None None None None
    PREAUTH None None.
Definition preauth_ops : list escrow_op :=
  [LockUsdc None "b" f100 None; UpsertPolicy "b" buyer_policy; UpsertPolicy "s" seller_policy;
   CreatePaymentCode None (example_code 10 "n1") "x"].

Lemma voucher_lifecycle_witness : exists v v',
  vouchers (db (example_run preauth_ops)) !! "id0" = Some v /\ v_status v = V_ACCEPTED
  /\ vouchers (db (example_run (preauth_ops ++ purchase "t1" "id0" "n2"))) !! "id0" = Some v' /\ evolves v v'.
Proof.
  assert (v_status <$> vouchers (db (example_run preauth_ops)) !! "id0" = Some V_ACCEPTED) as Hs by (vm_compute; reflexivity).
  destruct (vouchers (db (example_run preauth_ops)) !! "id0") as [v|] eqn:Hv; [|discriminate]. injection Hs as Hs.
  destruct (proj2 (proj2 (at_example voucher_lifecycle preauth_ops (purchase "t1" "id0" "n2") 0%Z)) "id0" v Hv) as (v' & Hv' & He).
  exists v, v'. exact (conj eq_refl (conj Hs (conj Hv' He))).
Defined.
