(* ===== verification/EscrowVotes.v ===== *)
(** * Escrow: arbitration cases and their votes

    The tables of the arbitration pool in every run of requests: who may vote, how
    often, and that what a case decides is the tally of its votes. *)

From S2P Require Import Prelude PyBytes PyJson PyDatetime PyFloat PyHoare PySort SettlementEngine PaymentCycle ResponsibilityGraph EscrowDb CapacityLedger Vouchers PaymentCodes ProgressReceipts AutoArbitration SettlementRoutes ArbitrationPool EscrowFlow EscrowRuns.
#[local] Open Scope string_scope.
#[local] Open Scope py_scope.

(** ** The tables *)

Definition vote_key (v : vote_row) : string * string := (vt_case v, vt_arbitrator v).
Definition assignment_key (a : assignment_row) : string * string := (a_case a, a_arbitrator a).

(** A percentage comes with partial votes and with no other. *)
Definition vote_shape (v : vote_row) : Prop :=
  match vt_partial v with
  | Some p => vt_decision v = PARTIAL /\ in_percent p = true
  | None => vt_decision v <> PARTIAL
  end.
(** Open until the votes suffice, then decided by them. *)
Definition case_shape (vs : list vote_row) (c : case_row) : Prop :=
  (1 <= k_required c <= 21)%Z /\
  match k_status c with
  | A_OPEN | A_VOTING => k_outcome c = None /\ (Z.of_nat (length (votes_of (k_id c) vs)) < k_required c)%Z
  | A_DECIDED | A_EXECUTED => Z.of_nat (length (votes_of (k_id c) vs)) = k_required c
      /\ k_outcome c = Some (tally (votes_of (k_id c) vs)).1 /\ k_partial c = (tally (votes_of (k_id c) vs)).2
  | A_CANCELLED => False
  end.

Section Poll.
Context (uid : nat -> string).

Record poll (members : list pool_member) (cs : list case_row) (asg : list assignment_row) (vs : list vote_row) (n : nat) : Prop := {
  po_members : NoDup (map m_id members);
  po_fresh : forall c, c ∈ cs -> exists i, (i < n)%nat /\ k_id c = uid i;
  po_cases : NoDup (map k_id cs);
  po_tasks : NoDup (map k_task_id cs);
  po_assignments : NoDup (map assignment_key asg);
  po_votes : NoDup (map vote_key vs);
  po_assigned : forall v, v ∈ vs -> vote_key v ∈ map assignment_key asg;
  po_known : forall v, v ∈ vs -> exists c, c ∈ cs /\ k_id c = vt_case v;
  po_partial : forall v, v ∈ vs -> vote_shape v;
  po_state : forall c, c ∈ cs -> case_shape vs c
}.
Definition polled (w : world) : Prop :=
  poll (pool (db w)) (cases (db w)) (assignments (db w)) (votes (db w)) (drawn w).

(** *** Lists *)

Lemma map_put_where {B} (g : case_row -> B) id f (l : list case_row) : (forall c, g (f c) = g c) ->
  map g (put_where (is_case id) f l) = map g l.
Proof. intros H. unfold put_where. rewrite map_map. apply map_ext. intros c. by destruct (is_case id c). Qed.
Lemma in_put_where id f c (l : list case_row) : c ∈ put_where (is_case id) f l ->
  exists c0, c0 ∈ l /\ c = (if is_case id c0 then f c0 else c0).
Proof. unfold put_where. intros (c0 & H1 & H2)%list_elem_of_fmap. by exists c0. Qed.
Lemma votes_of_app id vs v : votes_of id (vs ++ [v])%list = (votes_of id vs ++ if str_eqb (vt_case v) id then [v] else [])%list.
Proof. unfold votes_of. rewrite List.filter_app. cbn. by destruct (str_eqb _ _). Qed.
Lemma existsb_key {A} (key : A -> string * string) (l : list A) (f : A -> bool) x y :
  (forall a, f a = true <-> key a = (x, y)) -> existsb f l = true <-> (x, y) ∈ map key l.
Proof.
  intros Hf. rewrite existsb_exists, list_elem_of_fmap. split.
  - intros (a & Ha%list_elem_of_In & Hk%Hf). by exists a.
  - intros (a & Hk & Ha). exists a. split; [by apply list_elem_of_In|by apply Hf].
Qed.
Lemma pair_test (a b x y : string) : str_eqb a x && str_eqb b y = true <-> (a, b) = (x, y).
Proof.
  split; [intros [->%bool_decide_eq_true ->%bool_decide_eq_true]%andb_true_iff; done|].
  intros [= -> ->]. by rewrite !str_eqb_refl.
Qed.

(** *** Rows that change *)

(** A case replaced by one with the same identity, in the shape the votes ask. *)
Lemma poll_put_case ms cs asg vs n id f : poll ms cs asg vs n ->
  (forall c, k_id (f c) = k_id c /\ k_task_id (f c) = k_task_id c) ->
  (forall c, c ∈ cs -> k_id c = id -> case_shape vs (f c)) ->
  poll ms (put_where (is_case id) f cs) asg vs n.
Proof.
  intros [H1 H2 H3 H4 H5 H6 H7 H8 H9 H10] Hf Hs. split; try done.
  - intros c (c0 & Hc0 & ->)%in_put_where. destruct (H2 c0 Hc0) as (i & Hi & E). exists i. split; [done|].
    destruct (is_case id c0); [by rewrite (proj1 (Hf c0))|done].
  - rewrite map_put_where; [done|]. intros c. apply Hf.
  - rewrite map_put_where; [done|]. intros c. apply Hf.
  - intros v Hv. destruct (H8 v Hv) as (c & Hc & E). exists (if is_case id c then f c else c). split.
    + unfold put_where. apply list_elem_of_fmap. by exists c.
    + destruct (is_case id c); [by rewrite (proj1 (Hf c))|done].
  - intros c (c0 & Hc0 & ->)%in_put_where. destruct (is_case id c0) eqn:E; [|by apply H10].
    apply Hs; [done|]. by apply bool_decide_eq_true in E.
Qed.
Lemma poll_draw ms cs asg vs n : poll ms cs asg vs n -> poll ms cs asg vs (S n).
Proof.
  intros [H1 H2 H3 H4 H5 H6 H7 H8 H9 H10]. split; try done.
  intros c Hc. destruct (H2 c Hc) as (i & Hi & E). exists i. split; [lia|done].
Qed.
Lemma case_unique ms cs asg vs n c c' : poll ms cs asg vs n -> c ∈ cs -> c' ∈ cs -> k_id c = k_id c' -> c = c'.
Proof.
  intros H Hc Hc' E. pose proof (po_cases _ _ _ _ _ H) as Hn. apply list_elem_of_lookup in Hc as [i Hi], Hc' as [j Hj].
  assert (i = j) as ->; [|congruence]. apply (NoDup_lookup (map k_id cs) i j (k_id c)); [done|..]; change (map k_id cs) with (k_id <$> cs).
  - by rewrite list_lookup_fmap, Hi.
  - by rewrite list_lookup_fmap, Hj, E.
Qed.

(** *** The requests' changes of the tables *)

Context (uid_inj : forall i j, uid i = uid j -> i = j).

Lemma poll_new_case ms cs asg vs n c : poll ms cs asg vs n -> k_id c = uid n -> k_task_id c ∉ map k_task_id cs ->
  (1 <= k_required c <= 21)%Z -> k_status c = A_OPEN -> k_outcome c = None -> poll ms (cs ++ [c])%list asg vs (S n).
Proof.
  intros Hp Hid Ht Hr Hs Ho. pose proof (poll_draw _ _ _ _ _ Hp) as [H1 H2 H3 H4 H5 H6 H7 H8 H9 H10].
  assert (k_id c ∉ map k_id cs) as Hnew.
  { intros (c0 & E & Hc0)%list_elem_of_fmap. destruct (po_fresh _ _ _ _ _ Hp c0 Hc0) as (i & Hi & E').
    rewrite E, E' in Hid. apply uid_inj in Hid. lia. }
  split; try done.
  - intros c0 [H0| ->%list_elem_of_singleton]%elem_of_app; [by apply H2|]. exists n. split; [lia|done].
  - rewrite map_app. by apply NoDup_snoc.
  - rewrite map_app. by apply NoDup_snoc.
  - intros v Hv. destruct (H8 v Hv) as (c0 & Hc0 & E). exists c0. split; [apply elem_of_app; by left|done].
  - intros c0 [H0| ->%list_elem_of_singleton]%elem_of_app; [by apply H10|]. split; [done|]. rewrite Hs. split; [done|].
    assert (votes_of (k_id c) vs = []) as ->; [|cbn; lia].
    unfold votes_of. destruct (List.filter _ vs) as [|v l] eqn:E; [done|].
    assert (In v (v :: l)) as Hin by by left. rewrite <- E in Hin. apply filter_In in Hin as [Hin He].
    apply bool_decide_eq_true in He. apply list_elem_of_In in Hin. destruct (H8 v Hin) as (c0 & Hc0 & E0).
    destruct Hnew. apply list_elem_of_fmap. exists c0. split; [congruence|done].
Qed.

Lemma poll_assign ms cs asg vs n added : poll ms cs asg vs n -> NoDup (map assignment_key (asg ++ added)%list) ->
  poll ms cs (asg ++ added)%list vs n.
Proof.
  intros [H1 H2 H3 H4 H5 H6 H7 H8 H9 H10] Hn. split; try done.
  intros v Hv. rewrite map_app. apply elem_of_app. left. by apply H7.
Qed.

(** A vote, and what it makes of its case. *)
Lemma poll_vote ms cs asg vs n c v f : poll ms cs asg vs n -> c ∈ cs -> vt_case v = k_id c ->
  vote_key v ∈ map assignment_key asg -> vote_key v ∉ map vote_key vs -> vote_shape v ->
  (forall c, k_id (f c) = k_id c /\ k_task_id (f c) = k_task_id c) -> case_shape (vs ++ [v])%list (f c) ->
  poll ms (put_where (is_case (k_id c)) f cs) asg (vs ++ [v])%list n.
Proof.
  intros Hp Hc Hv Ha Hk Hsh Hf Hs. pose proof Hp as [H1 H2 H3 H4 H5 H6 H7 H8 H9 H10].
  assert (forall c0, c0 ∈ cs -> case_shape (vs ++ [v])%list (if is_case (k_id c) c0 then f c0 else c0)) as Hstate.
  { intros c0 Hc0. destruct (is_case (k_id c) c0) eqn:E.
    - apply bool_decide_eq_true in E. by rewrite (case_unique _ _ _ _ _ c0 c Hp Hc0 Hc E).
    - unfold case_shape. rewrite votes_of_app, Hv. rewrite (str_eqb_ne (k_id c) (k_id c0)), app_nil_r; [by apply H10|].
      intros E'. unfold is_case in E. by rewrite E', str_eqb_refl in E. }
  split; try done.
  - intros c1 (c0 & Hc0 & ->)%in_put_where. destruct (H2 c0 Hc0) as (i & Hi & E). exists i. split; [done|].
    destruct (is_case _ c0); [by rewrite (proj1 (Hf c0))|done].
  - rewrite map_put_where; [done|]. intros c0. apply Hf.
  - rewrite map_put_where; [done|]. intros c0. apply Hf.
  - rewrite map_app. by apply NoDup_snoc.
  - intros v0 [H0| ->%list_elem_of_singleton]%elem_of_app; [by apply H7|done].
  - assert (forall v0, v0 ∈ vs \/ v0 = v -> exists c0, c0 ∈ cs /\ k_id c0 = vt_case v0) as Hkn.
    { intros v0 [H0| ->]; [by apply H8|by exists c]. }
    intros v0 [H0| ->%list_elem_of_singleton]%elem_of_app; [destruct (Hkn v0 (or_introl H0)) as (c0 & Hc0 & E)|
      destruct (Hkn v (or_intror eq_refl)) as (c0 & Hc0 & E)];
      (exists (if is_case (k_id c) c0 then f c0 else c0); split;
       [unfold put_where; apply list_elem_of_fmap; by exists c0|destruct (is_case _ c0); [by rewrite (proj1 (Hf c0))|done]]).
  - intros v0 [H0| ->%list_elem_of_singleton]%elem_of_app; [by apply H9|done].
  - intros c1 (c0 & Hc0 & ->)%in_put_where. by apply Hstate.
Qed.
End Poll.

(** ** Requests *)

Section Requests.
Context (cfg : settings) (sql_sum : list float -> float) (uid : nat -> string).
Context (verify_launch verify_buyer : CreateVoucherRequest -> option string).
Context (meta : voucher_terms -> string -> list (string * json)).
Context (uid_inj : forall n n', uid n = uid n' -> n = n').
Abbreviation polled := (polled uid).

Local Ltac frame := stays ltac:(fail).
(** The tables are these. *)
Definition tables t ms cs asg vs n (w : world) : Prop :=
  pool (db w) = ms /\ cases (db w) = cs /\ assignments (db w) = asg /\ votes (db w) = vs /\ drawn w = n /\ now w = t.
Lemma with_tables {A} (m : MW A) :
  (forall t ms cs asg vs n, poll uid ms cs asg vs n -> triple (tables t ms cs asg vs n) m (fun _ => polled)) -> safe polled m.
Proof. intros H w w' a Hw. by apply (H (now w) _ _ _ _ _ Hw w w' a). Qed.
Lemma tables_polled t ms cs asg vs n w : poll uid ms cs asg vs n -> tables t ms cs asg vs n w -> polled w.
Proof. intros H (<- & <- & <- & <- & <- & _). exact H. Qed.
(** Along an operation, up to what writes the tables. *)
Local Ltac walk := walk_until ltac:(fail).

Lemma case_rule {A} id (k : case_row -> MW A) t ms cs asg vs n Q :
  (forall c, k_id c = id -> c ∈ cs -> triple (tables t ms cs asg vs n) (k c) Q) ->
  triple (tables t ms cs asg vs n) (py_bind (case_of id) k) Q.
Proof.
  intros Hk w w' a Hw Hr. unfold case_of, py_bind, py_get in Hr.
  destruct (List.find (is_case id) (cases (db w))) as [c|] eqn:E; [|done]. apply find_some in E as [Hin Hc].
  apply bool_decide_eq_true in Hc. apply list_elem_of_In in Hin. destruct Hw as (E1 & E2 & E3). rewrite E2 in Hin.
  exact (Hk c Hc Hin w w' a (conj E1 (conj E2 E3)) Hr).
Qed.
Local Ltac writes :=
  let E1 := fresh in let E2 := fresh in let E3 := fresh in let E4 := fresh in let E5 := fresh in let E6 := fresh in
  intros ? (E1 & E2 & E3 & E4 & E5 & E6); repeat split; unfold now in *; cbn; rewrite ?E1, ?E2, ?E3, ?E4, ?E5, ?E6; reflexivity.
Lemma modify_rule {A} f (k : unit -> MW A) t ms cs asg vs n ms' cs' asg' vs' n' Q :
  (forall w, tables t ms cs asg vs n w -> tables t ms' cs' asg' vs' n' (f w)) ->
  triple (tables t ms' cs' asg' vs' n') (k tt) Q -> triple (tables t ms cs asg vs n) (py_bind (py_modify f) k) Q.
Proof. apply triple_modify. Qed.

Lemma vote_shape_given d partial id arb at_ : match partial with None => true | Some p => in_percent p end = true ->
  negb (bool_decide (d = PARTIAL) && negb (bool_decide (is_Some partial))) = true ->
  negb (negb (bool_decide (d = PARTIAL)) && bool_decide (is_Some partial)) = true ->
  vote_shape (Vote id arb d partial at_).
Proof. intros H1 H2 H3. unfold vote_shape. by destruct partial, d. Qed.

(** What the guards of a vote establish. *)
Record may_vote ms cs asg vs n (c : case_row) (v : vote_row) : Prop := {
  mv_poll : poll uid ms cs asg vs n;
  mv_case : c ∈ cs;
  mv_open : finalized c = false;
  mv_of : vt_case v = k_id c;
  mv_assigned : vote_key v ∈ map assignment_key asg;
  mv_first : vote_key v ∉ map vote_key vs;
  mv_shape : vote_shape v
}.

Lemma open_shape ms cs asg vs n c v : may_vote ms cs asg vs n c v ->
  (1 <= k_required c <= 21)%Z /\ k_outcome c = None
  /\ (Z.of_nat (length (votes_of (k_id c) (vs ++ [v])%list)) <= k_required c)%Z.
Proof.
  intros [Hp Hc Ho Hv _ _ _]. destruct (po_state _ _ _ _ _ _ Hp c Hc) as [Hr Hs]. split; [done|].
  rewrite votes_of_app, Hv, str_eqb_refl, length_app. unfold finalized in Ho.
  destruct (k_status c); try discriminate Ho; try done; destruct Hs as [-> Hs]; (split; [done|cbn; lia]).
Qed.
Lemma vote_decides ms cs asg vs n c v at_ : may_vote ms cs asg vs n c v ->
  (k_required c <=? Z.of_nat (length (votes_of (k_id c) (vs ++ [v])%list)))%Z = true ->
  poll uid ms (put_where (is_case (k_id c))
    (decide_case (tally (votes_of (k_id c) (vs ++ [v])%list)).1 (tally (votes_of (k_id c) (vs ++ [v])%list)).2 at_) cs)
    asg (vs ++ [v])%list n.
Proof.
  intros H Hn. destruct (open_shape _ _ _ _ _ _ _ H) as (Hr & _ & Hl). destruct H. apply poll_vote; [done..|].
  split; [done|]. cbn. split; [lia|done].
Qed.
Lemma vote_waits ms cs asg vs n c v f : may_vote ms cs asg vs n c v ->
  (k_required c <=? Z.of_nat (length (votes_of (k_id c) (vs ++ [v])%list)))%Z = false ->
  (forall c, k_id (f c) = k_id c /\ k_task_id (f c) = k_task_id c) ->
  k_required (f c) = k_required c -> k_outcome (f c) = k_outcome c -> k_status (f c) ∈ [A_OPEN; A_VOTING] ->
  poll uid ms (put_where (is_case (k_id c)) f cs) asg (vs ++ [v])%list n.
Proof.
  intros H Hn Hf Er Eo Hs. destruct (open_shape _ _ _ _ _ _ _ H) as (Hr & Ho & _). destruct H. apply poll_vote; [done..|].
  split; [by rewrite Er|]. rewrite (proj1 (Hf c)), Er, Eo, Ho.
  apply list_elem_of_In in Hs as [<-|[<-|[]]]; (split; [done|lia]).
Qed.
Lemma put_where_same id (l : list case_row) : put_where (is_case id) (fun c => c) l = l.
Proof. unfold put_where. rewrite <- (map_id l) at 2. apply map_ext. intros c. by destruct (is_case id c). Qed.

Lemma cast_safe id arbitrator d partial : safe polled (cast_vote id arbitrator d partial).
Proof.
  apply with_tables. intros t ms cs asg vs n Hp. unfold cast_vote, append_case_event, update_case.
  apply triple_require. intros Hpc. apply case_rule. intros c <- Hc. walk.
  set (v := Vote (k_id c) arbitrator d partial t).
  assert (may_vote ms cs asg vs n c v) as Hv.
  { destruct H0 as (_ & _ & E3 & E4 & _). rewrite E3 in H1. rewrite E4 in H4. split; [done|done| |done|..].
    - by apply negb_true_iff.
    - revert H1. apply existsb_key. intros a. apply pair_test.
    - apply negb_true_iff, not_true_iff_false in H4. intros Hk. apply H4.
      exact (proj2 (existsb_key vote_key vs _ (k_id c) arbitrator (fun a => pair_test _ _ _ _)) Hk).
    - by apply vote_shape_given. }
  apply modify_rule with ms cs asg (vs ++ [v])%list n; [writes|].
  walk.
  - match goal with H : tables t ms cs asg (vs ++ [v])%list n s0 |- _ => destruct H as (_ & _ & _ & E & _ & Et) end.
    rewrite E in *. apply modify_rule with ms (put_where (is_case (k_id c)) (decide_case d0 o (now s0)) cs) asg (vs ++ [v])%list n; [writes|]. walk.
    eapply tables_polled; [|eassumption]. pose proof (vote_decides _ _ _ _ _ _ _ (now s0) Hv Heqb) as Hd.
    by rewrite Heqp in Hd.
  - match goal with H : tables t ms cs asg (vs ++ [v])%list n s0 |- _ => destruct H as (_ & _ & _ & E & _ & Et) end.
    rewrite E in *. apply modify_rule with ms (put_where (is_case (k_id c)) (set_case_status A_VOTING (now s0)) cs) asg (vs ++ [v])%list n; [writes|]. walk.
    eapply tables_polled; [|eassumption]. apply vote_waits; [done..|set_solver].
  - destruct H5 as (_ & _ & _ & E & _ & Et). rewrite E in *. eapply tables_polled; [|eassumption].
    rewrite <- (put_where_same (k_id c) cs). apply vote_waits; [done..|].
    destruct Hv. unfold finalized in mv_open0. destruct (po_state _ _ _ _ _ _ Hp c Hc) as [_ Hs].
    by destruct (k_status c); [set_solver|set_solver| | |].
Qed.

(** *** Assigning *)

Lemma NoDup_map_take {A B} (f : A -> B) n (l : list A) : NoDup (map f l) -> NoDup (map f (take n l)).
Proof. rewrite <- (take_drop n l) at 1. rewrite map_app. by intros [H _]%NoDup_app. Qed.
Lemma candidates_distinct id d : NoDup (map m_id (pool d)) -> NoDup (map m_id (candidates id d)).
Proof.
  intros H. unfold candidates. apply NoDup_map_filter. rewrite (Permutation_map m_id (sort_by_perm _ _)). by apply NoDup_map_filter.
Qed.
Lemma candidates_new id d m : m ∈ candidates id d -> (id, m_id m) ∉ map assignment_key (assignments d).
Proof.
  intros Hm%list_elem_of_In Hk. apply filter_In in Hm as [_ Hm]. apply negb_true_iff, mem_false in Hm.
  apply list_elem_of_fmap in Hk as (a & [= Ei Em] & Ha). apply Hm, list_elem_of_fmap. exists a. split; [done|].
  apply list_elem_of_In, filter_In. split; [by apply list_elem_of_In|]. by rewrite Ei, str_eqb_refl.
Qed.
Lemma added_distinct id d count at_ : NoDup (map m_id (pool d)) -> NoDup (map assignment_key (assignments d)) ->
  NoDup (map assignment_key (assignments d ++ map (fun m => Assignment id (m_id m) at_) (take count (candidates id d)))%list).
Proof.
  intros Hp Ha. rewrite map_app, map_map. apply NoDup_app. split; [done|]. split.
  - intros k Hk (m & -> & Hm)%list_elem_of_fmap. apply (candidates_new id d m); [|done].
    rewrite <- (take_drop count (candidates id d)). apply elem_of_app. by left.
  - rewrite <- (map_map m_id (pair id)). apply (NoDup_fmap_2 (pair id)). by apply NoDup_map_take, candidates_distinct.
Qed.

Lemma assign_safe id count : safe polled (assign_arbitrators id count).
Proof.
  apply with_tables. intros t ms cs asg vs n Hp. unfold assign_arbitrators, append_case_event, update_case.
  apply triple_require. intros _. apply case_rule. intros c <- Hc. walk.
  set (added := map _ _). apply modify_rule with ms cs (asg ++ added)%list vs n; [writes|]. cbv beta.
  apply modify_rule with ms (put_where (is_case (k_id c)) (set_case_status A_VOTING t) cs) (asg ++ added)%list vs n.
  { destruct H0 as (_ & _ & _ & _ & _ & Et). rewrite Et. writes. }
  walk. eapply tables_polled; [|eassumption]. apply poll_put_case; [|done|].
  - apply poll_assign; [done|]. destruct H0 as (E1 & _ & E3 & _). pose proof (added_distinct (k_id c) (db s) count (now s)) as Hd.
    rewrite E1, E3 in Hd. exact (Hd (po_members _ _ _ _ _ _ Hp) (po_assignments _ _ _ _ _ _ Hp)).
  - intros c' Hc' E. rewrite (case_unique uid _ _ _ _ _ c' c Hp Hc' Hc E). destruct (po_state _ _ _ _ _ _ Hp c Hc) as [Hr Hs].
    split; [done|]. cbn. unfold finalized in H. by destruct (k_status c).
Qed.

Lemma poll_members ms ms' cs asg vs n : poll uid ms cs asg vs n -> NoDup (map m_id ms') -> poll uid ms' cs asg vs n.
Proof. by intros [H1 H2 H3 H4 H5 H6 H7 H8 H9 H10] H. Qed.
Lemma join_safe id stake : safe polled (join_arbitration_pool id stake).
Proof.
  apply with_tables. intros t ms cs asg vs n Hp. unfold join_arbitration_pool. walk;
    (apply triple_modify_last; intros w (<- & <- & <- & <- & <- & _); eapply poll_members; [exact Hp|]; cbn).
  - unfold put_where. rewrite map_map. rewrite (map_ext _ m_id); [exact (po_members _ _ _ _ _ _ Hp)|].
    intros m. destruct (str_eqb (m_id m) id) eqn:E; [|done]. by apply bool_decide_eq_true in E.
  - rewrite map_app. apply NoDup_snoc; [exact (po_members _ _ _ _ _ _ Hp)|]. destruct H0 as (E1 & _). rewrite E1 in Heqb.
    intros (m & E & Hm)%list_elem_of_fmap. apply not_true_iff_false in Heqb. apply Heqb, existsb_exists. exists m.
    split; [by apply list_elem_of_In|]. cbn in E. by rewrite <- E, str_eqb_refl.
Qed.

Local Ltac at_end := eapply tables_polled; [|eassumption].
Lemma create_case_safe task opened_by reason required : safe polled (create_arbitration_case uid task opened_by reason required).
Proof.
  apply with_tables. intros t ms cs asg vs n Hp. unfold create_arbitration_case, append_case_event, add_case, save_settlement,
    settlement_of, load_settlement. walk.
  match goal with |- triple _ (_ ;;; py_modify (fun w => set_cases (cases (db w) ++ [?k])%list w) ;;; _) _ =>
    apply modify_rule with ms cs asg vs (S n); [writes|]; cbv beta;
    apply modify_rule with ms (cs ++ [k])%list asg vs (S n); [writes|] end.
  walk. at_end.
  match goal with H : tables _ _ _ _ _ _ ?w |- context [uid (drawn ?w)] => destruct H as (_ & _ & _ & _ & E & _) end.
  apply poll_new_case; [done|done|cbn; by rewrite E| |cbn|done|done].
  - intros (k & Ek & Hk)%list_elem_of_fmap. cbn in Ek. destruct H0 as (_ & E2 & _). rewrite E2 in H1.
    apply negb_true_iff, not_true_iff_false in H1. apply H1, existsb_exists. exists k.
    split; [by apply list_elem_of_In|]. by rewrite <- Ek, str_eqb_refl.
  - apply andb_true_iff in H as [Ha Hb]. lia.
Qed.

Lemma execute_safe id : safe polled (execute_arbitration_case sql_sum id).
Proof.
  apply with_tables. intros t ms cs asg vs n Hp. unfold execute_arbitration_case, append_case_event, update_case,
    save_settlement, settlement_of, load_settlement. apply case_rule. intros c <- Hc. walk.
  match goal with |- triple _ (py_modify (fun w => set_cases (put_where _ ?f (cases (db w))) w) ;;; _) _ =>
    apply modify_rule with ms (put_where (is_case (k_id c)) f cs) asg vs n; [writes|] end.
  walk. at_end. apply poll_put_case; [done|done|]. intros c' Hc' E.
  rewrite (case_unique uid _ _ _ _ _ c' c Hp Hc' Hc E). destruct (po_state _ _ _ _ _ _ Hp c Hc) as [Hr Hs].
  split; [done|]. cbn. apply bool_decide_eq_true in H. by rewrite H in Hs.
Qed.

(** *** Every request *)

Lemma polled_draw : safe polled (py_modify draw_id : MW unit).
Proof. apply safe_modify. intros w Hw. exact (poll_draw _ _ _ _ _ _ Hw). Qed.
Local Hint Resolve polled_draw cast_safe assign_safe join_safe create_case_safe execute_safe : safe.
Local Hint Opaque cast_vote assign_arbitrators join_arbitration_pool create_arbitration_case execute_arbitration_case : safe.

Lemma polled_bodies op : safe polled (body cfg sql_sum uid verify_launch verify_buyer meta op).
Proof. bodies. Qed.
End Requests.

(** ** Runs *)

Lemma tally_majority l :
  ((tally l).1 = BUYER_WINS <-> (count_votes SELLER_WINS l < count_votes BUYER_WINS l)%nat)
  /\ ((tally l).1 = SELLER_WINS <-> (count_votes BUYER_WINS l < count_votes SELLER_WINS l)%nat).
Proof. unfold tally. destruct (Nat.ltb_spec (count_votes SELLER_WINS l) (count_votes BUYER_WINS l)); [cbn; split; split; (done || lia)|].
  destruct (Nat.ltb_spec (count_votes BUYER_WINS l) (count_votes SELLER_WINS l)); cbn; split; split; (done || lia).
Qed.
Lemma polled_empty uid t : polled uid (empty_world t).
Proof. split; cbn; try (by apply NoDup_nil_2); by intros ? ?%elem_of_nil. Qed.

Section Runs.
Context (cfg : settings) (sql_sum : list float -> float) (uid : nat -> string).
Context (verify_launch verify_buyer : CreateVoucherRequest -> option string).
Context (meta : voucher_terms -> string -> list (string * json)).
Context (uid_inj : forall n n', uid n = uid n' -> n = n').
Abbreviation run ops w := (escrow_run cfg sql_sum uid verify_launch verify_buyer meta ops w).

Lemma polled_run ops t : polled uid (run ops (empty_world t)).
Proof.
  apply (run_keeps cfg sql_sum uid verify_launch verify_buyer meta
    (fun d n => poll uid (pool d) (cases d) (assignments d) (votes d) n)); [|exact (polled_empty uid t)].
  intros op. exact (polled_bodies cfg sql_sum uid verify_launch verify_buyer meta uid_inj op).
Qed.

(** C10. In every run an arbitrator votes at most once in a case, only in one it is
    assigned to, with a percentage just when the vote is partial; a task has at
    most one case; and a case is undecided while it has fewer votes than it
    requires, and once decided has exactly that many and the outcome their majority
    gives: the buyer with more buyer votes, the seller with more seller votes, a
    partial split otherwise. *)
Theorem decisions_are_tallies ops t :
  let d := db (run ops (empty_world t)) in
  NoDup (map vote_key (votes d)) /\ NoDup (map k_task_id (cases d))
  /\ (forall v, v ∈ votes d -> vote_key v ∈ map assignment_key (assignments d) /\ vote_shape v)
  /\ forall c, c ∈ cases d -> case_shape (votes d) c
     /\ (k_status c ∈ [A_DECIDED; A_EXECUTED] ->
         (k_outcome c = Some BUYER_WINS <->
            (count_votes SELLER_WINS (votes_of (k_id c) (votes d)) < count_votes BUYER_WINS (votes_of (k_id c) (votes d)))%nat)
         /\ (k_outcome c = Some SELLER_WINS <->
            (count_votes BUYER_WINS (votes_of (k_id c) (votes d)) < count_votes SELLER_WINS (votes_of (k_id c) (votes d)))%nat)).
Proof.
  cbv zeta. destruct (polled_run ops t) as [H1 H2 H3 H4 H5 H6 H7 H8 H9 H10]. split; [done|]. split; [done|]. split; [by intros v Hv; auto|].
  intros c Hc. pose proof (H10 c Hc) as [Hr Hs]. split; [done|]. intros Hd.
  assert (k_outcome c = Some (tally (votes_of (k_id c) (votes (db (run ops (empty_world t)))))).1) as ->.
  { apply list_elem_of_In in Hd as [Hd|[Hd|[]]]; rewrite <- Hd in Hs; apply Hs. }
  destruct (tally_majority (votes_of (k_id c) (votes (db (run ops (empty_world t)))))) as [<- <-].
  split; (split; [by intros [=]|congruence]).
Qed.
End Runs.

Lemma decisions_are_tallies_witness : exists c, cases (db (example_run example_ops)) = [c]
  /\ k_outcome c = Some SELLER_WINS /\ count_votes SELLER_WINS (votes_of (k_id c) (votes (db (example_run example_ops)))) <> 0%nat.
Proof.
  assert (map (fun c => (k_status c, k_outcome c)) (cases (db (example_run example_ops))) = [(A_EXECUTED, Some SELLER_WINS)]) as Hs
    by (vm_compute; reflexivity).
  pose proof (proj2 (proj2 (proj2 (at_example decisions_are_tallies example_ops 0%Z)))) as Ha.
  destruct (cases (db (example_run example_ops))) as [|c [|]] eqn:Hc; [discriminate Hs| |discriminate Hs].
  injection Hs as Hst Ho. exists c. split; [exact eq_refl|]. split; [exact Ho|].
  destruct (Ha c ltac:(left)) as [_ Hm]. destruct (Hm ltac:(rewrite Hst; right; left)) as [_ [Hw _]]. specialize (Hw Ho). lia.
Defined.
