(* ===== verification/EscrowProgress.v ===== *)
(** * Escrow: progress receipts in every run

    The table of progress receipts only grows; a stored receipt changes once, when
    it is confirmed; identifiers and evidence are never used twice, and the
    receipts of a task are in the order of their timestamps. *)

From Stdlib Require Import Sorted.
From S2P Require Import Prelude PyBytes PyJson PyDatetime PyFloat PyHoare SettlementEngine PaymentCycle ResponsibilityGraph EscrowDb CapacityLedger Vouchers PaymentCodes ProgressReceipts AutoArbitration SettlementRoutes ArbitrationPool EscrowFlow EscrowRuns.
#[local] Open Scope string_scope.
#[local] Open Scope py_scope.

(** ** Rows *)

(** What of a receipt identifies its evidence. *)
Definition evidence_key (p : progress_row) : string * string * string :=
  (pr_task_id p, pr_evidence_hash p, pr_runtime_log_hash p).
Definition percents_ok (p : progress_row) : Prop := in_percent (pr_percent p) = true /\ in_percent (pr_claimed p) = true.
(** Of one task, not later than. *)
Definition in_order (p q : progress_row) : Prop := pr_task_id p = pr_task_id q -> (pr_timestamp p <= pr_timestamp q)%Z.

(** A receipt and a later state of it. *)
Definition confirmed_from (p p' : progress_row) : Prop :=
  p' = p \/ (pr_status p <> P_CONFIRMED /\ exists at_, p' = confirm_row at_ p).
Definition extends (l0 l : list progress_row) : Prop := exists l1 l2, l = (l1 ++ l2)%list /\ Forall2 confirmed_from l0 l1.

Record progress_ok (l : list progress_row) : Prop := {
  pk_ids : NoDup (map pr_id l);
  pk_evidence : NoDup (map evidence_key l);
  pk_percents : Forall percents_ok l;
  pk_order : StronglySorted in_order l
}.
Definition tracked (l0 : list progress_row) (l : list progress_row) : Prop := progress_ok l /\ extends l0 l.

Lemma confirmed_from_refl p : confirmed_from p p.
Proof. by left. Qed.
Lemma confirmed_from_trans p q r : confirmed_from p q -> confirmed_from q r -> confirmed_from p r.
Proof. intros [->|[Hp [a ->]]]; [done|]. intros [->|[Hq _]]; [right; split; [done|by exists a]|by destruct Hq]. Qed.
Lemma extends_refl l : extends l l.
Proof. exists l, []. rewrite app_nil_r. split; [done|]. induction l; constructor; auto using confirmed_from_refl. Qed.
Lemma Forall2_then l0 l1 l2 : Forall2 confirmed_from l0 l1 -> Forall2 confirmed_from l1 l2 -> Forall2 confirmed_from l0 l2.
Proof.
  intros H. revert l2. induction H as [|p q l0 l1 Hpq _ IH]; intros l2 H2; inversion H2; subst; constructor; [|by apply IH].
  by eapply confirmed_from_trans.
Qed.
Lemma extends_snoc l0 l p : extends l0 l -> extends l0 (l ++ [p])%list.
Proof. intros (l1 & l2 & -> & H). exists l1, (l2 ++ [p])%list. split; [by rewrite app_assoc|done]. Qed.
Lemma extends_change l0 l l' : extends l0 l -> Forall2 confirmed_from l l' -> extends l0 l'.
Proof.
  intros (l1 & l2 & -> & H) Hc. apply Forall2_app_inv_l in Hc as (k1 & k2 & H1 & _ & ->). exists k1, k2. split; [done|].
  by eapply Forall2_then.
Qed.

(** ** Confirming *)

Lemma confirm_where_map {B} (f : progress_row -> B) c at_ l : (forall a p, f (confirm_row a p) = f p) ->
  map f (confirm_where c at_ l) = map f l.
Proof. intros H. unfold confirm_where. rewrite map_map. apply map_ext. intros p. by destruct (c p). Qed.
Lemma confirm_where_ok c at_ l : progress_ok l -> progress_ok (confirm_where c at_ l).
Proof.
  intros [H1 H2 H3 H4]. split.
  - by rewrite confirm_where_map.
  - by rewrite confirm_where_map.
  - apply Forall_map. eapply Forall_impl; [exact H3|]. intros p. by destruct (c p).
  - clear -H4. induction H4 as [|p l H IH Hp]; cbn; constructor; [done|].
    apply Forall_map. eapply Forall_impl; [exact Hp|]. intros q. unfold in_order. by destruct (c p), (c q).
Qed.
Lemma confirm_where_change c at_ l : (forall p, p ∈ l -> c p = true -> pr_status p <> P_CONFIRMED) ->
  Forall2 confirmed_from l (confirm_where c at_ l).
Proof.
  induction l as [|p l IH]; intros H; [constructor|]. cbn. constructor.
  - destruct (c p) eqn:E; [right; split; [apply H; [left|done]|by exists at_]|by left].
  - apply IH. intros q Hq. apply H. by right.
Qed.
Lemma tracked_confirm l0 c at_ l : tracked l0 l -> (forall p, p ∈ l -> c p = true -> pr_status p <> P_CONFIRMED) ->
  tracked l0 (confirm_where c at_ l).
Proof. intros [H1 H2] Hc. split; [by apply confirm_where_ok|]. by eapply extends_change, confirm_where_change. Qed.

(** ** Submitting *)

(** The latest receipt of a task is not earlier than any of it. *)
Lemma later_max l best :
  match fold_left later l best with
  | Some m => (forall p, p ∈ l -> (pr_timestamp p <= pr_timestamp m)%Z)
      /\ match best with Some b => (pr_timestamp b <= pr_timestamp m)%Z | None => True end
  | None => l = [] /\ best = None
  end.
Proof.
  revert best. induction l as [|p l IH]; intros best; cbn.
  - destruct best; [split; [by intros ? ?%elem_of_nil|lia]|done].
  - specialize (IH (later best p)). destruct (fold_left later l (later best p)) as [m|] eqn:E.
    + destruct IH as [Hl Hb]. unfold later in Hb. destruct best as [b|].
      * destruct (Z.ltb_spec (pr_timestamp b) (pr_timestamp p)); (split; [intros q [->|Hq]%elem_of_cons; [lia|by apply Hl]|lia]).
      * split; [|done]. intros q [->|Hq]%elem_of_cons; [lia|by apply Hl].
    + destruct IH as [_ IH]. unfold later in IH. destruct best; [by destruct (_ <? _)%Z|done].
Qed.
Lemma StronglySorted_snoc {A} (R : A -> A -> Prop) l x : StronglySorted R l -> Forall (fun y => R y x) l ->
  StronglySorted R (l ++ [x])%list.
Proof.
  induction 1 as [|y l H IH Hy]; intros Hx; cbn; [by repeat constructor|]. inversion Hx; subst. constructor; [by apply IH|].
  apply Forall_app. split; [done|by constructor].
Qed.

(** What the checks of a submission establish. *)
Lemma tracked_submit l0 l p : tracked l0 l -> percents_ok p ->
  existsb (fun q => str_eqb (pr_id q) (pr_id p)) l = false -> existsb (same_hashes p) l = false ->
  match latest_progress (pr_task_id p) l with Some m => (pr_timestamp m <= pr_timestamp p)%Z | None => True end ->
  tracked l0 (l ++ [p])%list.
Proof.
  intros [[H1 H2 H3 H4] He] Hp Hid Hev Hts. split; [split|by apply extends_snoc].
  - rewrite map_app. apply NoDup_snoc; [done|]. intros (q & E & Hq)%list_elem_of_fmap. apply not_true_iff_false in Hid.
    apply Hid, existsb_exists. exists q. split; [by apply list_elem_of_In|]. cbn in E. by rewrite E, str_eqb_refl.
  - rewrite map_app. apply NoDup_snoc; [done|]. intros (q & E & Hq)%list_elem_of_fmap. apply not_true_iff_false in Hev.
    apply Hev, existsb_exists. exists q. split; [by apply list_elem_of_In|]. injection E as E1 E2 E3.
    unfold same_hashes, of_task. by rewrite E1, E2, E3, !str_eqb_refl.
  - apply Forall_app. split; [done|by constructor].
  - apply StronglySorted_snoc; [done|]. apply Forall_forall. intros q Hq Ht. unfold latest_progress in Hts.
    pose proof (later_max (List.filter (of_task (pr_task_id p)) l) None) as Hm.
    assert (q ∈ List.filter (of_task (pr_task_id p)) l) as Hin.
    { apply list_elem_of_In, filter_In. split; [by apply list_elem_of_In|]. unfold of_task. by rewrite Ht, str_eqb_refl. }
    destruct (fold_left later _ None) as [m|]; [destruct Hm as [Hm _]; specialize (Hm q Hin); lia|].
    destruct Hm as [Hm _]. rewrite Hm in Hin. by apply elem_of_nil in Hin.
Qed.

(** ** Requests *)

Section Requests.
Context (cfg : settings) (sql_sum : list float -> float) (uid : nat -> string).
Context (verify_launch verify_buyer : CreateVoucherRequest -> option string).
Context (meta : voucher_terms -> string -> list (string * json)).
Context (l0 : list progress_row).
Definition track (w : world) : Prop := tracked l0 (progress (db w)).
(** The table is this. *)
Definition has_progress (l : list progress_row) (w : world) : Prop := progress (db w) = l.

Lemma with_progress {A} (m : MW A) :
  (forall l, tracked l0 l -> triple (has_progress l) m (fun _ => track)) -> safe track m.
Proof. intros H w w' a Hw. by apply (H _ Hw w w' a). Qed.
Lemma progress_tracked l w : tracked l0 l -> has_progress l w -> track w.
Proof. by intros H <-. Qed.

Local Ltac frame := stays ltac:(fail).
(** Along an operation, up to what writes a receipt. *)
Local Ltac walk :=
  walk_until ltac:(idtac; lazymatch goal with |- triple _ (py_bind (match ?x with _ => _ end) _) _ => destruct x eqn:? end).

Lemma write_rule {A} l (f : datetime -> list progress_row -> list progress_row) (k : unit -> MW A) :
  (forall at_, tracked l0 (f at_ l)) -> (forall l, safe (has_progress l) (k tt)) ->
  triple (has_progress l) (py_modify (fun w => set_progress (f (now w) (progress (db w))) w) ;;; k tt) (fun _ => track).
Proof.
  intros Hf Hk w w' a <- Hr. exact (progress_tracked _ _ (Hf (now w)) (Hk _ _ w' a eq_refl Hr)).
Qed.

Lemma submit_safe actor p : safe track (submit_progress_receipt cfg actor p).
Proof.
  apply with_progress. intros l Hl. unfold submit_progress_receipt, settlement_of, load_settlement, require_actor_matches. walk.
  all: refine (write_rule l (fun _ l => l ++ [p])%list (fun _ => save_settlement _ ;;; py_ret p) (fun _ => _) _); [|intros; frame].
  all: match goal with H : has_progress ?l ?s |- tracked _ (?l ++ _)%list => rewrite H in * end.
  all: apply tracked_submit; [done|by apply andb_true_iff|by apply negb_true_iff|by apply negb_true_iff|].
  all: match goal with H : latest_progress _ _ = _ |- _ => rewrite H end; try done.
  all: apply Z.ltb_ge, negb_true_iff; assumption.
Qed.

(** Only the receipt that was found has its identifier. *)
Lemma only_found l id p : NoDup (map pr_id l) -> List.find (fun p => str_eqb (pr_id p) id) l = Some p ->
  forall q, q ∈ l -> str_eqb (pr_id q) id = true -> q = p.
Proof.
  intros Hn Hf q Hq E%bool_decide_eq_true. apply find_some in Hf as [Hp%list_elem_of_In Ep%bool_decide_eq_true].
  apply list_elem_of_lookup in Hq as [i Hi], Hp as [j Hj].
  assert (i = j) as ->; [|congruence]. apply (NoDup_lookup (map pr_id l) i j id); [done|..]; change (map pr_id l) with (pr_id <$> l).
  - by rewrite list_lookup_fmap, Hi, <- E.
  - by rewrite list_lookup_fmap, Hj, <- Ep.
Qed.

Local Ltac confirms :=
  lazymatch goal with |- triple (has_progress ?l) (py_bind (py_modify (fun w => set_progress (confirm_where ?c (now w) (progress (db w))) w)) ?k) _ =>
    apply (write_rule l (fun at_ => confirm_where c at_) k); [intros ?; apply tracked_confirm; [assumption|]|intros; frame] end.

Lemma confirm_safe actor id : safe track (confirm_progress_receipt cfg actor id).
Proof.
  apply with_progress. intros l Hl. unfold confirm_progress_receipt, settlement_of, load_settlement, require_buyer. walk.
  1: by apply (progress_tracked l).
  all: confirms.
  all: match goal with H : has_progress _ ?s, F : List.find _ (progress (db ?s)) = Some _ |- _ => rewrite H in F end.
  all: intros q Hq Eq; rewrite (only_found _ _ _ (pk_ids _ (proj1 Hl)) Heqo q Hq Eq); exact (proj1 (bool_decide_eq_false _) Heqb).
Qed.
Lemma timeout_safe actor task us : safe track (timeout_confirm_progress cfg actor task us).
Proof.
  apply with_progress. intros l Hl. unfold timeout_confirm_progress, settlement_of, load_settlement, require_buyer. walk.
  all: confirms.
  all: intros p Hp Ho; unfold overdue in Ho; apply andb_true_iff in Ho as [[_ Ho%bool_decide_eq_true]%andb_true_iff _]; by rewrite Ho.
Qed.

(** *** Every request *)

Local Hint Resolve submit_safe confirm_safe timeout_safe : safe.
Local Hint Opaque submit_progress_receipt confirm_progress_receipt timeout_confirm_progress : safe.

Lemma track_bodies op : safe track (body cfg sql_sum uid verify_launch verify_buyer meta op).
Proof. bodies. Qed.
End Requests.

(** ** Runs *)

Lemma tracked_empty t l : l = [] -> tracked l (progress (db (empty_world t))).
Proof. intros ->. split; [split; constructor|apply extends_refl]. Qed.

Section Runs.
Context (cfg : settings) (sql_sum : list float -> float) (uid : nat -> string).
Context (verify_launch verify_buyer : CreateVoucherRequest -> option string).
Context (meta : voucher_terms -> string -> list (string * json)).
Abbreviation run ops w := (escrow_run cfg sql_sum uid verify_launch verify_buyer meta ops w).

Lemma track_run l0 ops w : track l0 w -> track l0 (run ops w).
Proof.
  apply (run_keeps cfg sql_sum uid verify_launch verify_buyer meta (fun d _ => tracked l0 (progress d))).
  exact (track_bodies cfg sql_sum uid verify_launch verify_buyer meta l0).
Qed.

(** In every run the progress receipts have distinct identifiers, no evidence is
    claimed twice for a task, percentages lie between 0 and 100, and the receipts of
    a task are stored in the order of their timestamps; whatever requests follow, the
    table only grows at its end, and a stored receipt changes only by being
    confirmed, once. *)
Theorem progress_append_only ops ops' t :
  let l := progress (db (run ops (empty_world t))) in
  progress_ok l /\ extends l (progress (db (run (ops ++ ops') (empty_world t)))).
Proof.
  destruct (track_run [] ops (empty_world t) (tracked_empty t [] eq_refl)) as [Hok _]. split; [exact Hok|].
  unfold escrow_run. rewrite fold_left_app. cbn [fold_left].
  exact (proj2 (track_run _ ops' _ (conj Hok (extends_refl _)))).
Qed.
End Runs.
