(* ===== verification/RuntimeKeys.v ===== *)
(** * Runtime keys

    [services/runtime_key_service.py], [runtime_daily_spend.py],
    [runtime_wallet.py], [identity_wallet_binding.py] and
    [path_param_safety.py]: the keys with which an operator lets an agent act, what
    they may spend in a day, and the nonces they have used.  Keys, daily totals and
    bound wallets are tables; the nonces and a second count of the day's spending are
    variables of the process.  Recovering the signer of a text is a parameter, the
    two random texts of a new key are arguments. *)

From S2P Require Import Prelude PyBytes PyJson PyJsonCanon PyDatetime PyFloat PyRepr PyHoare PySort SettlementEngine ResponsibilityGraph EscrowDb CapacityLedger Vouchers PaymentCodes ProgressReceipts.
#[local] Open Scope string_scope.
#[local] Open Scope py_scope.

(** ** State *)

Inductive key_status : Type := K_ACTIVE | K_REVOKED.
#[export] Instance key_status_eq_dec : EqDecision key_status.
Proof. solve_decision. Defined.
Record key_row := RuntimeKey {
  rk_secret_hash : string;
  rk_wallet : string;
  rk_identity : string;
  rk_profile : option string;
  rk_permissions : list string;
  rk_single_limit : float;
  rk_daily_limit : float;
  rk_expire_at : datetime;
  rk_agent_name : string;
  rk_agent_binding : option string;
  rk_status : key_status;
  rk_created_at : datetime;
  rk_revoked_at : option datetime
}.

(** The tables of the gateway beside those of the escrow, and the variables
    [_replay] and [_DAILY] of the process.  A bucket that is missing is empty, a day
    that is missing has no spending. *)
Record gateway := Gateway {
  escrow : world;
  keys : gmap string key_row;
  daily_spend : gmap (string * string) float;
  bound_wallets : gmap string string;
  replay : gmap string (list (string * Z));
  daily_memory : gmap (string * string) float;
  monotonic : Z
}.
Abbreviation MG := (M gateway http_error).

Definition set_escrow (x : world) (s : gateway) : gateway :=
  Gateway x (keys s) (daily_spend s) (bound_wallets s) (replay s) (daily_memory s) (monotonic s).
Definition set_keys (x : gmap string key_row) (s : gateway) : gateway :=
  Gateway (escrow s) x (daily_spend s) (bound_wallets s) (replay s) (daily_memory s) (monotonic s).
Definition set_daily_spend (x : gmap (string * string) float) (s : gateway) : gateway :=
  Gateway (escrow s) (keys s) x (bound_wallets s) (replay s) (daily_memory s) (monotonic s).
Definition set_bound_wallets (x : gmap string string) (s : gateway) : gateway :=
  Gateway (escrow s) (keys s) (daily_spend s) x (replay s) (daily_memory s) (monotonic s).
Definition set_replay (x : gmap string (list (string * Z))) (s : gateway) : gateway :=
  Gateway (escrow s) (keys s) (daily_spend s) (bound_wallets s) x (daily_memory s) (monotonic s).
Definition set_daily_memory (x : gmap (string * string) float) (s : gateway) : gateway :=
  Gateway (escrow s) (keys s) (daily_spend s) (bound_wallets s) (replay s) x (monotonic s).
Definition set_monotonic (x : Z) (s : gateway) : gateway :=
  Gateway (escrow s) (keys s) (daily_spend s) (bound_wallets s) (replay s) (daily_memory s) x.
Definition clock (s : gateway) : datetime := now (escrow s).

Definition deny {A} (code : Z) (detail : string) : MG A := py_raise (HTTP code detail).
Definition demand (b : bool) (code : Z) (detail : string) : MG unit := py_require b (HTTP code detail).

(** An operation of the escrow in the session of the request. *)
Definition on_escrow {A} (m : MW A) : MG A :=
  fun s => let (w, r) := m (escrow s) in (set_escrow w s, r).

(** The session: a request that fails leaves the tables as they were, while the
    process keeps its variables. *)
Definition session {A} (m : MG A) : MG A :=
  fun s => match m s with
           | (s', Ret a) => (s', Ret a)
           | (s', Raise e) =>
               (Gateway (EscrowWorld (db (escrow s)) (safety (escrow s')) (drawn (escrow s)))
                  (keys s) (daily_spend s) (bound_wallets s) (replay s') (daily_memory s') (monotonic s'), Raise e)
           end.

(** The settings of the gateway. *)
Record gateway_settings := GatewaySettings {
  base : settings;
  app_secret_key : string;
  auth_api_keys : list (string * string);
  auth_allow_dev_key_fallback : bool;
  development : bool;
  require_saved_automation_policy : bool;
  require_wallet_identity_binding : bool;
  auto_bind_wallet_on_create_key : bool;
  daily_spend_persist : bool
}.

(** ** Path segments ([path_param_safety.py])

    [$] also matches before a line feed that ends the text. *)

Definition alnum (c : ascii) : bool :=
  let n := nat_of_ascii c in
  ((48 <=? n) && (n <=? 57) || (65 <=? n) && (n <=? 90) || (97 <=? n) && (n <=? 122))%nat.
Definition segment_char (c : ascii) : bool := alnum c || mem c ["_"; "."; "-"]%char.
Definition line_feed : string := String "010"%char "".
Fixpoint chop_line_feed (s : string) : string :=
  match s with
  | EmptyString => ""
  | String c r => if str_eqb s line_feed then "" else String c (chop_line_feed r)
  end.
Definition safe_segment (value : string) : bool :=
  let s := chop_line_feed value in
  all_chars segment_char s && (1 <=? String.length s)%nat && (String.length s <=? 256)%nat.
Definition validate_public_url_segment (name value : string) : MG unit :=
  demand (safe_segment value) 400
    ("invalid " ++ name ++ ": allowed characters are [A-Za-z0-9_.-], max length 256").

(** ** Tokens *)

Definition PREFIX : string := "KRM_RT_".
Definition runtime_token (key_id secret : string) : string := PREFIX ++ key_id ++ "_" ++ secret.

(** [s.index("_")], as the texts before and after. *)
Fixpoint partition (c : ascii) (s : string) : option (string * string) :=
  match s with
  | EmptyString => None
  | String x r => if Ascii.eqb x c then Some ("", r)
                  else match partition c r with Some (a, b) => Some (String x a, b) | None => None end
  end.
Definition hex_of_length (n : nat) (s : string) : bool := (String.length s =? n)%nat && all_hex (py_lower s).

Definition parse_runtime_key_token (token : string) : MG (string * string) :=
  match after_prefix PREFIX (py_strip token) with
  | None => deny 401 "invalid runtime key format"
  | Some rest =>
      match partition "_"%char rest with
      | None => deny 401 "invalid runtime key format"
      | Some (key_id, secret) =>
          demand (hex_of_length 32 key_id) 401 "invalid runtime key id segment" ;;;
          demand (hex_of_length 64 secret) 401 "invalid runtime key secret segment" ;;;
          py_ret (key_id, py_lower secret)
      end
  end.

(** ** Wallets ([runtime_wallet.py], [identity_wallet_binding.py]) *)

Definition lines (l : list string) : string := join line_feed l.
Definition build_create_key_message (identity wallet : string) (permissions : list string)
    (single_limit daily_limit : float) (expire_time : datetime) (agent_name : string) (agent_binding : option string) :
    string :=
  lines ["Karma Runtime Key Create"; "karma_identity_id:" ++ identity; "wallet_address:" ++ wallet;
         "permissions:" ++ join "," (sort_by String.leb permissions); "single_limit:" ++ repr_float single_limit;
         "daily_limit:" ++ repr_float daily_limit; "expire_time:" ++ isoformat expire_time;
         "agent_name:" ++ agent_name; "agent_binding:" ++ default "" agent_binding].
Definition build_revoke_key_message (key_id identity wallet : string) : string :=
  lines ["Karma Runtime Key Revoke"; "key_id:" ++ key_id; "karma_identity_id:" ++ identity; "wallet_address:" ++ wallet].
Definition build_list_keys_message (identity wallet client_nonce : string) : string :=
  lines ["Karma Runtime Key List"; "karma_identity_id:" ++ identity; "wallet_address:" ++ wallet;
         "client_nonce:" ++ client_nonce].

Section Keys.
Context (cfg : gateway_settings).
(** [Account.recover_message] on a text and 65 bytes in hexadecimal, [None] when it
    raises. *)
Context (recover : string -> string -> option string).
(** The date of the process's time zone, as [date.today().isoformat()] gives it. *)
Context (local_date : datetime -> string).

Definition normalize_sig (sig : string) : MG string :=
  let s := py_strip sig in
  let s := default s (after_prefix "0x" s) in
  demand (String.length s =? 130)%nat 400 "wallet_signature must be 65-byte hex (0x + 130 hex chars)" ;;;
  py_ret s.

(** Whatever fails inside the [try], a malformed signature included, answers the
    same. *)
Definition verify_personal_message (message wallet sig : string) : MG unit :=
  let wa := py_strip wallet in
  demand (starts_with "0x" wa && (String.length wa =? 42)%nat) 400
    "wallet_address must be a 0x-prefixed 20-byte address" ;;;
  let! s := py_get in
  match (normalize_sig sig s).2 with
  | Ret raw =>
      match recover message raw with
      | Some signer => demand (str_eqb (py_lower signer) (py_lower wa)) 403 "wallet_signature does not match wallet_address"
      | None => deny 400 "wallet_signature verification failed"
      end
  | Raise _ => deny 400 "wallet_signature verification failed"
  end.

Definition norm_wallet (addr : string) : string := py_lower (py_strip addr).

(** The profile of an identity is made when it is missing; of its columns only the
    wallet is kept, empty when none is bound. *)
Definition ensure_profile (identity : string) : MG string :=
  let! s := py_get in
  match bound_wallets s !! identity with
  | Some w => py_ret w
  | None => py_modify (fun s => set_bound_wallets (<[identity := ""]> (bound_wallets s)) s) ;;; py_ret ""
  end.
Definition ensure_wallet_authorized_for_runtime_key (identity wallet : string) : MG unit :=
  if negb (require_wallet_identity_binding cfg) && negb (auto_bind_wallet_on_create_key cfg) then py_ret tt
  else
    let wallet := norm_wallet wallet in
    demand (starts_with "0x" wallet && (10 <=? String.length wallet)%nat) 400 "invalid wallet_address" ;;;
    let identity := py_strip identity in
    let! profile := ensure_profile identity in
    let bound := norm_wallet profile in
    if str_eqb bound "" then
      if auto_bind_wallet_on_create_key cfg then
        py_modify (fun s => set_bound_wallets (<[identity := wallet]> (bound_wallets s)) s)
      else demand (negb (require_wallet_identity_binding cfg)) 403
             "identity has no bound wallet: complete wallet binding in Console first"
    else demand (str_eqb bound wallet) 403 "wallet_address does not match bound wallet for this karma_identity_id".

(** ** Keys ([runtime_key_service.py]) *)

Definition server_material : bytes := utf8 (app_secret_key cfg ++ ":karma_runtime_key_v1").
Definition hash_runtime_secret (key_id secret : string) : string :=
  hmac_hex server_material (utf8 (key_id ++ ":" ++ secret)).
Definition verify_runtime_secret (key_id secret secret_hash : string) : bool :=
  str_eqb (hash_runtime_secret key_id secret) secret_hash.

Definition or_none (s : string) : option string := if str_eqb s "" then None else Some s.
Definition new_key (key_id secret wallet identity : string) (profile : option string) (permissions : list string)
    (single_limit daily_limit : float) (expire_at : datetime) (agent_name : string) (agent_binding : option string)
    (at_ : datetime) : key_row :=
  RuntimeKey (hash_runtime_secret key_id secret) (py_strip wallet) (py_strip identity)
    (or_none (py_strip (default "" profile))) permissions single_limit daily_limit expire_at
    (or_text (py_strip agent_name) "agent") (or_none (py_strip (default "" agent_binding))) K_ACTIVE at_ None.

Definition create_runtime_key_record (key_id secret wallet identity : string) (profile : option string)
    (permissions : list string) (single_limit daily_limit : float) (expire_at : datetime) (agent_name : string)
    (agent_binding : option string) : MG (string * key_row) :=
  demand (negb (fleb single_limit fzero || fleb daily_limit fzero)) 400 "single_limit and daily_limit must be > 0" ;;;
  demand (negb (fltb (daily_limit +. EPSILON) single_limit)) 400 "daily_limit must be >= single_limit" ;;;
  let! perms := on_escrow (normalize_permissions permissions) in
  let! s := py_get in
  let row := new_key key_id secret wallet identity profile perms single_limit daily_limit expire_at agent_name
               agent_binding (clock s) in
  py_require (negb (bool_decide (is_Some (keys s !! key_id)))) (Failure "IntegrityError") ;;;
  py_modify (fun s => set_keys (<[key_id := row]> (keys s)) s) ;;;
  py_ret (runtime_token key_id secret, row).

Definition revoked (at_ : datetime) (r : key_row) : key_row :=
  RuntimeKey (rk_secret_hash r) (rk_wallet r) (rk_identity r) (rk_profile r) (rk_permissions r) (rk_single_limit r)
    (rk_daily_limit r) (rk_expire_at r) (rk_agent_name r) (rk_agent_binding r) K_REVOKED (rk_created_at r) (Some at_).
Definition revoke_runtime_key (key_id : string) : MG unit :=
  let! s := py_get in
  match keys s !! key_id with
  | None => py_ret tt
  | Some r =>
      py_when (bool_decide (rk_status r = K_ACTIVE))
        (py_modify (fun s => set_keys (<[key_id := revoked (clock s) r]> (keys s)) s))
  end.

Definition list_runtime_keys_for_identity (identity : string) (s : gateway) : list (string * key_row) :=
  sort_by (desc_by (fun x => rk_created_at x.2))
    (List.filter (fun x => str_eqb (rk_identity x.2) identity) (map_to_list (keys s))).

(** Who a token speaks for: the identifier of the key and its row. *)
Definition load_active_context (token : string) : MG (string * key_row) :=
  let! t := parse_runtime_key_token token in
  let '(key_id, secret) := t in
  let! s := py_get in
  match keys s !! key_id with
  | None => deny 401 "invalid or revoked runtime key"
  | Some r =>
      demand (bool_decide (rk_status r = K_ACTIVE)) 401 "invalid or revoked runtime key" ;;;
      demand (verify_runtime_secret key_id secret (rk_secret_hash r)) 401 "invalid runtime key" ;;;
      demand (negb (rk_expire_at r + 30 * US_PER_SECOND <? clock s)%Z) 401 "runtime key expired" ;;;
      py_ret (key_id, r)
  end.

Definition assert_permission (r : key_row) (permission : string) : MG unit :=
  demand (str_mem permission (rk_permissions r)) 403 ("runtime key missing permission: " ++ permission).

(** ** Nonces *)

Definition REPLAY_TTL : Z := 600 * US_PER_SECOND.
Definition REPLAY_MAX : nat := 2000.
Fixpoint drop_expired (now ttl : Z) (l : list (string * Z)) : list (string * Z) :=
  match l with
  | [] => []
  | (_, t) :: r => if (ttl <? now - t)%Z then drop_expired now ttl r else l
  end.
Definition bucket (key_id : string) (s : gateway) : list (string * Z) := default [] (replay s !! key_id).
Definition put_bucket (key_id : string) (l : list (string * Z)) : MG unit :=
  py_modify (fun s => set_replay (<[key_id := l]> (replay s)) s).
Definition replay_tag (endpoint nonce : string) : string := endpoint ++ ":" ++ nonce.

(** Expired entries leave the bucket before the check and stay out of it when the
    check fails. *)
Definition check_replay_nonce (key_id endpoint nonce : string) : MG unit :=
  demand (negb (str_eqb nonce "") && (String.length nonce <=? 128)%nat) 400
    "client_nonce is required (max 128 chars)" ;;;
  let! s := py_get in
  let l := drop_expired (monotonic s) REPLAY_TTL (bucket key_id s) in
  put_bucket key_id l ;;;
  let tag := replay_tag endpoint nonce in
  demand (negb (str_mem tag (map fst l))) 409 "duplicate client_nonce (replay protection)" ;;;
  let l := (l ++ [(tag, monotonic s)])%list in
  put_bucket key_id (drop (length l - REPLAY_MAX) l).

(** ** Spending *)

Definition today (s : gateway) : string := local_date (clock s).
Definition spent_in (m : gmap (string * string) float) (key_id day : string) : float := default fzero (m !! (key_id, day)).

(** [get_daily_used_async] *)
Definition get_daily_used (key_id : string) (s : gateway) : float :=
  let memory := spent_in (daily_memory s) key_id (today s) in
  if daily_spend_persist cfg then default memory (daily_spend s !! (key_id, today s)) else memory.

Definition check_single_and_daily_limits (r : key_row) (amount daily_used : float) : MG unit :=
  demand (negb (fleb amount fzero)) 400 "amount must be positive" ;;;
  demand (negb (fgtb amount (rk_single_limit r +. EPSILON))) 403 "amount exceeds runtime key single_limit" ;;;
  demand (negb (fgtb (daily_used +. amount) (rk_daily_limit r +. EPSILON))) 403 "amount exceeds runtime key daily_limit".

(** [record_daily_spend_async]: in memory first, then in the table. *)
Definition record_daily_spend (key_id : string) (amount : float) : MG unit :=
  py_modify (fun s =>
    let k := (key_id, today s) in
    set_daily_memory (<[k := spent_in (daily_memory s) key_id (today s) +. amount]> (daily_memory s)) s) ;;;
  py_when (daily_spend_persist cfg)
    (py_modify (fun s =>
       let k := (key_id, today s) in
       set_daily_spend (<[k := match daily_spend s !! k with Some x => x +. amount | None => amount end]> (daily_spend s)) s)).
End Keys.
