(* ===== verification/RuntimeGateway.v ===== *)
(** * Runtime gateway

    [api/routes/runtime_gateway.py] over the escrow, with the keys of
    [api/middleware/auth.py] and what a trade launch adds to the spending of a key
    ([services/trade_launch_audit.py]).  An agent's request is checked against its
    runtime key and then calls the escrow's route in the same session, as a caller
    that holds a key made for it.  The answers of
    [assert_task_automation_ready], of the gates of the escrow's routes and whether the
    commit fails are arguments; execution receipts arrive as in [EscrowFlow]. *)

From S2P Require Import Prelude PyBytes PyJson PyJsonCanon PyDatetime PyFloat PyFloatOrder PyRepr PyHoare PySort SettlementEngine PaymentCycle ResponsibilityGraph EscrowDb CapacityLedger Vouchers PaymentCodes ProgressReceipts AutoArbitration SettlementRoutes ArbitrationPool EscrowFlow RuntimeKeys.
#[local] Open Scope string_scope.
#[local] Open Scope py_scope.

(** ** API keys ([api/middleware/auth.py]) *)

Definition agent_char (c : ascii) : bool := alnum c || mem c ["_"; "-"]%char.
Definition agent_id_matches (id : string) : bool :=
  let s := chop_line_feed id in
  match s with
  | EmptyString => false
  | String c r => alnum c && all_chars agent_char r && (1 <=? String.length r)%nat && (String.length r <=? 63)%nat
  end.

(** [api_key.split("_", 2)] *)
Definition parse_api_key (api_key : string) : option (string * string) :=
  match after_prefix "karma_" api_key with
  | Some rest => partition "_"%char rest
  | None => None
  end.

Section ApiKeys.
Context (cfg : gateway_settings).
(** [verify_minted_api_key], a file of hashes. *)
Context (minted : string -> string -> bool).

Definition validate_api_key (api_key : string) : option string :=
  match parse_api_key api_key with
  | None => None
  | Some (agent_id, secret) =>
      if negb (agent_id_matches agent_id) then None
      else match assoc agent_id (auth_api_keys cfg) with
           | Some expected => if str_eqb secret expected then Some agent_id else None
           | None =>
               if minted agent_id secret then Some agent_id
               else if auth_allow_dev_key_fallback cfg && negb (auth_enforce_protected_routes (base cfg))
                       && development cfg && (12 <=? String.length secret)%nat
               then Some agent_id else None
           end
  end.

Definition dev_api_key (actor : string) : string := "karma_" ++ actor ++ "_devruntimekey12".
(** The caller that the delegated request shows to the escrow's route. *)
Definition delegate (actor : string) : option string := validate_api_key (dev_api_key actor).
End ApiKeys.

(** ** Requests *)

Record CreateRuntimeKeyBody := CreateKeyBody {
  ck_wallet : string;
  ck_identity : string;
  ck_signature : string;
  ck_permissions : list string;
  ck_single_limit : float;
  ck_daily_limit : float;
  ck_expire_time : datetime;
  ck_agent_name : string;
  ck_agent_binding : option string;
  ck_profile_id : option string
}.

(** The kinds of [request-settlement], each with what its route is told. *)
Inductive settlement_kind : Type :=
| SubmitDelivery (refusal : option (Z * string))
| BuyerAcceptance (delivery confirmation : option (Z * string)) (fault : option string)
| PartialRelease (percent : option float) (fault : option string).

Inductive gateway_op : Type :=
| CreateKey (b : CreateRuntimeKeyBody) (key_id secret : string)
| RevokeKey (key_id identity wallet sig : string)
| RequestVoucher (token client_nonce : string) (q : CreateVoucherRequest) (fault : option string)
| CheckVoucher (token voucher_id client_nonce : string) (expected : option float) (readiness : option (Z * string))
| UpdateProgress (token : string) (p : progress_row) (readiness : option (Z * string))
| RequestSettlement (token task client_nonce : string) (kind : settlement_kind) (readiness : option (Z * string))
| TradeLaunched (identity key_id : string) (amount : float)
| OtherRequest (op : escrow_op)
| Elapse (us : N)
| Restart.

Definition with_profile (p : option string) (q : CreateVoucherRequest) : CreateVoucherRequest :=
  VoucherRequest (q_buyer q) (q_seller q) (q_amount q) (q_currency q) (q_bill_credit q) (q_task_type q)
    (q_task_description_hash q) (q_progress_rule_hash q) (q_evidence_requirement_hash q) (q_expiry_time q) (q_nonce q)
    (q_signature q) (q_buyer_sub q) (q_seller_sub q) (q_rule_spec q) (q_wallet q) p.
(** The profile of the key, when the request names none. *)
Definition bound_voucher (r : key_row) (q : CreateVoucherRequest) : CreateVoucherRequest :=
  if truthy_str (rk_profile r) && negb (truthy_str (q_profile_id q)) then with_profile (rk_profile r) q else q.
Definition with_signature (sig : string) (p : progress_row) : progress_row :=
  Progress (pr_id p) (pr_task_id p) (pr_seller p) (pr_percent p) (pr_claimed p) (pr_evidence_hash p)
    (pr_runtime_log_hash p) (pr_timestamp p) sig (pr_validation_method p) (pr_status p) (pr_confirmed_at p).

Section Gateway.
Context (cfg : gateway_settings) (sql_sum : list float -> float) (uid : nat -> string).
Context (verify_launch verify_buyer : CreateVoucherRequest -> option string).
Context (meta : voucher_terms -> string -> list (string * json)).
Context (recover : string -> string -> option string) (local_date : datetime -> string).
Context (minted : string -> string -> bool).
(** [Ed25519PrivateKey.sign], in base 64. *)
Context (sign_bytes : bytes -> string).
Abbreviation delegate := (delegate cfg minted).
Abbreviation ebody := (body (base cfg) sql_sum uid verify_launch verify_buyer meta).

Definition commit (fault : option string) : MG unit :=
  match fault with None => py_ret tt | Some e => py_raise (Failure e) end.
Definition valid_nonce (client_nonce : string) : MG unit :=
  demand ((8 <=? String.length client_nonce)%nat && (String.length client_nonce <=? 128)%nat) 422
    "client_nonce must have 8 to 128 characters".

Definition runtime_create_key (b : CreateRuntimeKeyBody) (key_id secret : string) : MG (string * key_row) :=
  demand (fgtb (ck_single_limit b) fzero && fgtb (ck_daily_limit b) fzero) 422 "limits must be greater than 0" ;;;
  validate_public_url_segment "karma_identity_id" (ck_identity b) ;;;
  match ck_profile_id b with
  | Some p => py_when (truthy_str (Some p)) (validate_public_url_segment "profile_id" p)
  | None => py_ret tt
  end ;;;
  verify_personal_message recover
    (build_create_key_message (ck_identity b) (ck_wallet b) (ck_permissions b) (ck_single_limit b) (ck_daily_limit b)
       (ck_expire_time b) (ck_agent_name b) (ck_agent_binding b)) (ck_wallet b) (ck_signature b) ;;;
  (if require_saved_automation_policy cfg then
     let! s := py_get in
     match policies (db (escrow s)) !! ck_identity b with
     | None => deny 403 "automation policy not saved: configure fund limits and permissions in Console first"
     | Some p => on_escrow (assert_runtime_key_matches_policy p (ck_permissions b) (ck_single_limit b) (ck_daily_limit b))
     end
   else py_ret tt) ;;;
  ensure_wallet_authorized_for_runtime_key cfg (ck_identity b) (ck_wallet b) ;;;
  create_runtime_key_record cfg key_id secret (ck_wallet b) (ck_identity b) (ck_profile_id b) (ck_permissions b)
    (ck_single_limit b) (ck_daily_limit b) (ck_expire_time b) (ck_agent_name b) (ck_agent_binding b).

Definition runtime_revoke_key (key_id identity wallet sig : string) : MG unit :=
  validate_public_url_segment "key_id" key_id ;;;
  validate_public_url_segment "karma_identity_id" identity ;;;
  verify_personal_message recover (build_revoke_key_message key_id identity wallet) wallet sig ;;;
  let! s := py_get in
  match keys s !! key_id with
  | None => deny 404 "runtime key not found for identity"
  | Some r =>
      demand (str_eqb (rk_identity r) identity) 404 "runtime key not found for identity" ;;;
      demand (str_eqb (py_lower (rk_wallet r)) (norm_wallet wallet)) 403 "wallet does not own this runtime key" ;;;
      revoke_runtime_key key_id
  end.

Definition runtime_list_keys (identity wallet sig client_nonce : string) : MG (list (string * key_row)) :=
  validate_public_url_segment "karma_identity_id" identity ;;;
  validate_public_url_segment "client_nonce" client_nonce ;;;
  verify_personal_message recover (build_list_keys_message identity wallet client_nonce) wallet sig ;;;
  let! s := py_get in
  py_ret (list_runtime_keys_for_identity identity s).

Definition get_runtime_context (token : string) : MG (string * key_row) :=
  demand (negb (str_eqb (py_strip token) "")) 401 "X-Karma-Runtime-Key header is required" ;;;
  load_active_context cfg (py_strip token).

Definition runtime_request_voucher (token client_nonce : string) (q : CreateVoucherRequest) (fault : option string) :
    MG (string * voucher_row) :=
  let! c := get_runtime_context token in
  let '(key_id, r) := c in
  valid_nonce client_nonce ;;;
  assert_permission r "request_voucher" ;;;
  demand (str_eqb (q_buyer q) (rk_identity r)) 403 "voucher buyer_identity_id must match runtime key identity" ;;;
  check_replay_nonce key_id "request-voucher" client_nonce ;;;
  let! s := py_get in
  check_single_and_daily_limits r (q_amount q) (get_daily_used cfg local_date key_id s) ;;;
  let! v := on_escrow (create_voucher (base cfg) sql_sum uid verify_launch verify_buyer
                         (delegate (rk_identity r)) (bound_voucher r q)) in
  record_daily_spend cfg local_date key_id (q_amount q) ;;;
  commit fault ;;;
  py_ret v.

(** [resolve_task_id_for_voucher] *)
Definition resolve_task_id_for_voucher (voucher_id : string) : MG (option string) :=
  let! s := py_get in
  match List.filter (fun x => bool_decide (s_voucher_id (row_other x.2) = Some voucher_id))
          (map_to_list (rows (db (escrow s)))) with
  | [] => py_ret None
  | [(_, row)] => py_ret (Some (row_task_id row))
  | _ => py_raise (Failure "MultipleResultsFound")
  end.
Definition assert_task_automation_ready (readiness : option (Z * string)) : MG unit := on_escrow (gate readiness).

Definition runtime_check_voucher (token voucher_id client_nonce : string) (expected : option float)
    (readiness : option (Z * string)) : MG VoucherVerificationResult :=
  let! c := get_runtime_context token in
  let '(key_id, r) := c in
  valid_nonce client_nonce ;;;
  assert_permission r "verify_voucher" ;;;
  validate_public_url_segment "voucher_id" voucher_id ;;;
  check_replay_nonce key_id "check-voucher" client_nonce ;;;
  let! task := resolve_task_id_for_voucher voucher_id in
  py_when (truthy_str task) (assert_task_automation_ready readiness) ;;;
  on_escrow (verify_voucher (base cfg) (delegate (rk_identity r)) voucher_id (rk_identity r) expected).

(** The signature that replaces the seller's. *)
Definition progress_signature (key_id : string) (p : progress_row) : string :=
  "runtime:" ++ sign_bytes (utf8 (dumps compact_sorted (JObj
    [("runtime_progress_binding", JStr key_id); ("progress_receipt_id", JStr (pr_id p)); ("task_id", JStr (pr_task_id p));
     ("evidence_hash", JStr (pr_evidence_hash p)); ("runtime_log_hash", JStr (pr_runtime_log_hash p))]))).

Definition runtime_update_progress (token : string) (p : progress_row) (readiness : option (Z * string)) : MG progress_row :=
  let! c := get_runtime_context token in
  let '(key_id, r) := c in
  assert_permission r "update_progress" ;;;
  demand (str_eqb (pr_seller p) (rk_identity r)) 403 "seller_identity_id must match runtime key identity" ;;;
  assert_task_automation_ready readiness ;;;
  on_escrow (submit_progress_receipt (base cfg) (delegate (rk_identity r)) (with_signature (progress_signature key_id p) p)).

Definition settlement_path (actor : string) : request := Request (delegate actor) "/runtime/request-settlement".

Definition runtime_request_settlement (token task client_nonce : string) (kind : settlement_kind)
    (readiness : option (Z * string)) : MG settlement :=
  let! c := get_runtime_context token in
  let '(key_id, r) := c in
  valid_nonce client_nonce ;;;
  assert_permission r "request_settlement" ;;;
  validate_public_url_segment "task_id" task ;;;
  check_replay_nonce key_id "request-settlement" client_nonce ;;;
  assert_task_automation_ready readiness ;;;
  let! st := on_escrow (load_settlement task) in
  match st with
  | None => deny 404 "settlement not found"
  | Some st =>
      match kind with
      | SubmitDelivery refusal =>
          demand (str_eqb (rk_identity r) (default "" (worker_agent_id st))) 403 "submit_delivery requires worker identity" ;;;
          on_escrow (submit_settlement (base cfg) sql_sum
            (settlement_path (or_text (default "" (worker_agent_id st)) (rk_identity r))) refusal task)
      | BuyerAcceptance delivery confirmation fault =>
          demand (str_eqb (rk_identity r) (client_agent_id st)) 403 "buyer_accept requires buyer identity" ;;;
          on_escrow (buyer_accept_settlement (base cfg) sql_sum (settlement_path (client_agent_id st)) task None
            delivery confirmation fault)
      | PartialRelease percent fault =>
          demand (str_eqb (rk_identity r) (client_agent_id st)) 403 "partial settlement requires buyer identity" ;;;
          match percent with
          | None => deny 400 "settled_value_percent required for partial"
          | Some x => on_escrow (partial_settlement (base cfg) sql_sum (settlement_path (client_agent_id st)) task x fault)
          end
      end
  end.

(** [record_buyer_trade_launch_daily_spend] on the key that the query returns first:
    any active key of the buyer. *)
Definition record_buyer_trade_launch_daily_spend (identity key_id : string) (amount : float) : MG unit :=
  let! s := py_get in
  match keys s !! key_id with
  | Some r =>
      py_when (str_eqb (rk_identity r) identity && bool_decide (rk_status r = K_ACTIVE) && (clock s <? rk_expire_at r)%Z)
        (record_daily_spend cfg local_date key_id amount)
  | None => py_ret tt
  end.

(** ** Runs *)

Definition done {A} (m : MG A) : MG unit := m ;;; py_ret tt.
Definition handler (op : gateway_op) : MG unit :=
  match op with
  | CreateKey b key_id secret => done (runtime_create_key b key_id secret)
  | RevokeKey key_id identity wallet sig => runtime_revoke_key key_id identity wallet sig
  | RequestVoucher token nonce q fault => done (runtime_request_voucher token nonce q fault)
  | CheckVoucher token id nonce expected readiness => done (runtime_check_voucher token id nonce expected readiness)
  | UpdateProgress token p readiness => done (runtime_update_progress token p readiness)
  | RequestSettlement token task nonce kind readiness => done (runtime_request_settlement token task nonce kind readiness)
  | TradeLaunched identity key_id amount => record_buyer_trade_launch_daily_spend identity key_id amount
  | OtherRequest op => on_escrow (ebody op)
  | Elapse us => py_modify (fun s => set_monotonic (monotonic s + Z.of_N us)%Z s)
  | Restart => py_modify (fun s =>
      Gateway (set_safety initial_safety (escrow s)) (keys s) (daily_spend s) (bound_wallets s) ∅ ∅ (monotonic s))
  end.
Definition gateway_step (op : gateway_op) (s : gateway) : gateway := run_state (session (handler op)) s.
Definition gateway_run (ops : list gateway_op) (s : gateway) : gateway := fold_left (fun s op => gateway_step op s) ops s.
Definition empty_gateway (t : datetime) : gateway := Gateway (empty_world t) ∅ ∅ ∅ ∅ ∅ 0%Z.
End Gateway.

(** ** Rules *)

Section Rules.
Context {A : Type}.
Lemma safe_deny (I : gateway -> Prop) code detail : safe I (deny (A := A) code detail).
Proof. apply safe_raise. Qed.
Lemma keeps_deny (I : gateway -> Prop) code detail : keeps I (deny (A := A) code detail).
Proof. apply keeps_raise. Qed.
Lemma safe_demand (I : gateway -> Prop) b code detail : safe I (demand b code detail).
Proof. apply safe_require. Qed.
Lemma keeps_demand (I : gateway -> Prop) b code detail : keeps I (demand b code detail).
Proof. apply keeps_require. Qed.

(** What does not speak of the escrow stays. *)
Lemma safe_escrow (I : gateway -> Prop) (m : MW A) : (forall w s, I s -> I (set_escrow w s)) -> safe I (on_escrow m).
Proof. intros H s s' a Hs Hr. unfold on_escrow in Hr. destruct (m (escrow s)) as [w r]. injection Hr as <- _. by apply H. Qed.
Lemma keeps_escrow (I : gateway -> Prop) (m : MW A) : (forall w s, I s -> I (set_escrow w s)) -> keeps I (on_escrow m).
Proof. intros H s Hs. unfold run_state, on_escrow. destruct (m (escrow s)) as [w r]. by apply H. Qed.

(** An operation that changes nothing when it returns. *)
Definition pure_op (m : MW A) : Prop := forall w, safe (eq w) m.
Lemma safe_pure (I : gateway -> Prop) (m : MW A) : pure_op m -> safe I (on_escrow m).
Proof.
  intros H s s' a Hs Hr. unfold on_escrow in Hr. destruct (m (escrow s)) as [w r] eqn:E. injection Hr as <- ->.
  rewrite <- (H (escrow s) _ _ _ eq_refl E). by destruct s.
Qed.

Lemma keeps_bind_returned {B} (I : gateway -> Prop) (m : MG A) (k : A -> MG B) :
  keeps I m -> (forall a, (exists s s', m s = (s', Ret a)) -> keeps I (k a)) -> keeps I (py_bind m k).
Proof.
  intros Hm Hk s Hs. unfold run_state, py_bind. specialize (Hm s Hs). unfold run_state in Hm.
  destruct (m s) as [s1 [a|e]] eqn:E; [|done]. apply (Hk a); [by exists s, s1|done].
Qed.

(** The session: tables from a request that returned, variables of the process from
    any. *)
Lemma session_keeps (I J : gateway -> Prop) (m : MG A) :
  safe (fun s => I s /\ J s) m -> keeps J m ->
  (forall s w rep mem mono, I s ->
     I (Gateway (EscrowWorld (db (escrow s)) w (drawn (escrow s))) (keys s) (daily_spend s) (bound_wallets s) rep mem mono)) ->
  (forall s s' w, J s' -> J (Gateway w (keys s) (daily_spend s) (bound_wallets s) (replay s') (daily_memory s') (monotonic s'))) ->
  keeps (fun s => I s /\ J s) (session m).
Proof.
  intros Hs Hk HI HJ s H. unfold run_state, session. specialize (Hk s (proj2 H)). unfold run_state in Hk.
  destruct (m s) as [s' [a|e]] eqn:E; cbn; [exact (Hs s s' a H E)|]. split; [apply HI, H|by apply HJ].
Qed.
End Rules.
#[export] Hint Resolve safe_deny safe_demand : safe.
#[export] Hint Resolve keeps_deny keeps_demand : keeps.
#[export] Hint Extern 3 (safe _ (on_escrow _)) => apply safe_escrow; intros ? ? ?; assumption : safe.
#[export] Hint Extern 3 (keeps _ (on_escrow _)) => apply keeps_escrow; intros ? ? ?; assumption : keeps.

(** Checks that only read the escrow. *)
Section Pure.
Lemma pure_gate refusal : pure_op (gate refusal).
Proof. intros w. unfold gate. stays ltac:(fail). Qed.
Lemma pure_load task : pure_op (load_settlement task).
Proof. intros w. unfold load_settlement. stays ltac:(fail). Qed.
Lemma pure_permissions perms : pure_op (normalize_permissions perms).
Proof. intros w. unfold normalize_permissions, allowed_permissions. stays ltac:(fail). Qed.
Lemma pure_policy p perms x y : pure_op (assert_runtime_key_matches_policy p perms x y).
Proof. intros w. unfold assert_runtime_key_matches_policy, normalize_permissions, allowed_permissions. stays ltac:(fail). Qed.
Lemma pure_verify cfg actor id seller expected : pure_op (verify_voucher cfg actor id seller expected).
Proof. intros w. unfold verify_voucher, get_voucher, require_ledger_identity, require_actor. stays ltac:(fail). Qed.
End Pure.
#[export] Hint Extern 2 (safe _ (on_escrow _)) =>
  apply safe_pure; solve [apply pure_gate|apply pure_load|apply pure_permissions|apply pure_policy|apply pure_verify] : safe.

(** Who speaks is asked without changing anything. *)
Section Asking.
Context (I : gateway -> Prop) (cfg : gateway_settings).
Lemma safe_parse token : safe I (parse_runtime_key_token token).
Proof. unfold parse_runtime_key_token. stays ltac:(fail). Qed.
Lemma keeps_parse token : keeps I (parse_runtime_key_token token).
Proof. unfold parse_runtime_key_token. stays ltac:(fail). Qed.
Lemma safe_context token : safe I (get_runtime_context cfg token).
Proof. unfold get_runtime_context, load_active_context. stays ltac:(apply safe_parse). Qed.
Lemma keeps_context token : keeps I (get_runtime_context cfg token).
Proof. unfold get_runtime_context, load_active_context. stays ltac:(apply keeps_parse). Qed.
Lemma safe_message recover message wallet sig : safe I (verify_personal_message recover message wallet sig).
Proof. unfold verify_personal_message. stays ltac:(fail). Qed.
Lemma keeps_message recover message wallet sig : keeps I (verify_personal_message recover message wallet sig).
Proof. unfold verify_personal_message. stays ltac:(fail). Qed.
End Asking.
#[export] Hint Resolve safe_context safe_message : safe.
#[export] Hint Resolve keeps_context keeps_message : keeps.
#[export] Hint Opaque get_runtime_context verify_personal_message : safe keeps.

Create HintDb gateway_ops.
#[export] Hint Unfold validate_public_url_segment valid_nonce assert_permission check_replay_nonce put_bucket
  check_single_and_daily_limits record_daily_spend commit ensure_profile
  ensure_wallet_authorized_for_runtime_key create_runtime_key_record revoke_runtime_key assert_task_automation_ready
  resolve_task_id_for_voucher done : gateway_ops.
Create HintDb gateway_handlers.
#[export] Hint Unfold runtime_create_key runtime_revoke_key runtime_request_voucher runtime_check_voucher runtime_update_progress
  runtime_request_settlement record_buyer_trade_launch_daily_spend : gateway_handlers.
(** A handler that keeps an invariant in each of its writes. *)
Ltac handled := autounfold with gateway_handlers; autounfold with gateway_ops; stays ltac:(fail).
