(* ===== verification/GatewayRuns.v ===== *)
(** * Runtime gateway: runs

    What holds in every sequence of requests to the gateway, to the rest of the
    escrow's routes, of launches of trades and restarts of the process: the gateway
    does nothing to the escrow but requests the escrow has itself, keys are only
    issued and revoked, an agent acts within its key, and a key spends no more in a
    day than it may. *)

From S2P Require Import Prelude PyBytes PyJson PyJsonCanon PyDatetime PyFloat PyFloatOrder PyRepr PyHoare PySort SettlementEngine PaymentCycle ResponsibilityGraph EscrowDb CapacityLedger Vouchers PaymentCodes ProgressReceipts AutoArbitration SettlementRoutes ArbitrationPool EscrowFlow EscrowRuns RuntimeKeys RuntimeGateway.
#[local] Open Scope string_scope.
#[local] Open Scope py_scope.

(** Along a request of the gateway, up to what [special] treats. *)
Local Ltac along special :=
  repeat first
    [ progress cbv beta
    | special
    | lazymatch goal with
      | |- forall _, _ => intro
      | |- triple _ (py_bind py_get _) _ => apply triple_get
      | |- triple _ (py_bind (demand _ _ _) _) _ => apply triple_require
      | |- triple _ (py_bind (py_require _ _) _) _ => apply triple_require
      | |- triple _ (py_bind (py_ret _) _) _ => apply triple_pass
      | |- triple _ (py_bind (py_bind _ _) _) _ => apply triple_assoc
      | |- triple _ (py_bind (deny _ _) _) _ => apply triple_fail
      | |- triple _ (deny _ _) _ => apply triple_raise
      | |- triple _ (py_raise _) _ => apply triple_raise
      | |- triple _ (match ?x with _ => _ end) _ => destruct x eqn:?
      | |- triple _ (py_ret _) _ => apply triple_ret
      end
    | apply triple_frame; [solve [stays ltac:(fail)]|]
    | lazymatch goal with |- triple _ (py_bind (match ?x with _ => _ end) _) _ => destruct x eqn:? end ].

(** ** What the gateway does to the escrow *)

Section Gateway.
Context (cfg : gateway_settings) (sql_sum : list float -> float) (uid : nat -> string).
Context (verify_launch verify_buyer : CreateVoucherRequest -> option string).
Context (meta : voucher_terms -> string -> list (string * json)).
Context (recover : string -> string -> option string) (local_date : datetime -> string).
Context (minted : string -> string -> bool) (sign_bytes : bytes -> string).
Abbreviation handle := (handler cfg sql_sum uid verify_launch verify_buyer meta recover local_date minted sign_bytes).
Abbreviation step := (gateway_step cfg sql_sum uid verify_launch verify_buyer meta recover local_date minted sign_bytes).
Abbreviation run := (gateway_run cfg sql_sum uid verify_launch verify_buyer meta recover local_date minted sign_bytes).
Abbreviation ebody := (body (base cfg) sql_sum uid verify_launch verify_buyer meta).
Abbreviation estep := (escrow_step (base cfg) sql_sum uid verify_launch verify_buyer meta).

(** The request of the escrow that a request of the gateway stands for. *)
Definition delegates (op : gateway_op) (eop : escrow_op) : Prop :=
  match op, eop with
  | OtherRequest o, _ => eop = o
  | RequestVoucher _ _ q _, CreateVoucher actor q' => actor = delegate cfg minted (q_buyer q) /\ exists p, q' = with_profile p q
  | UpdateProgress _ p _, SubmitProgress actor p' =>
      actor = delegate cfg minted (pr_seller p) /\ exists sig, p' = with_signature sig p
  | RequestSettlement _ task _ (SubmitDelivery r) _, SubmitSettlement _ r' task' => task' = task /\ r' = r
  | RequestSettlement _ task _ (BuyerAcceptance d c f) _, BuyerAccept _ task' scene d' c' f' =>
      task' = task /\ scene = None /\ d' = d /\ c' = c /\ f' = f
  | RequestSettlement _ task _ (PartialRelease (Some x) f) _, PartialSettlement _ task' x' f' =>
      task' = task /\ x' = x /\ f' = f
  | _, _ => False
  end.

Definition at_world (w : world) (s : gateway) : Prop := escrow s = w.
Definition delegated (op : gateway_op) (w : world) (s : gateway) : Prop :=
  (db (escrow s) = db w /\ drawn (escrow s) = drawn w)
  \/ exists eop, delegates op eop /\ ebody eop w = (escrow s, Ret tt).

Lemma unchanged op w s : at_world w s -> delegated op w s.
Proof. unfold at_world. intros <-. by left. Qed.
Lemma delegated_set_spend op w s x : delegated op w s -> delegated op w (set_daily_spend x s).
Proof. done. Qed.

(** The operation of the escrow's route, then what writes other tables. *)
Lemma acts {A} op eop w (m : MW A) :
  delegates op eop -> ebody eop = done_with m -> triple (at_world w) (on_escrow m) (fun _ => delegated op w).
Proof.
  intros Hd He s s' a Hs Hr. unfold at_world in Hs. subst w. unfold on_escrow in Hr. destruct (m (escrow s)) as [w' r] eqn:E. injection Hr as <- ->. cbn.
  right. exists eop. split; [done|]. rewrite He. unfold done_with, py_bind. cbn. by rewrite E.
Qed.
Lemma acts_then {A B} op eop w (m : MW A) (k : A -> MG B) :
  delegates op eop -> ebody eop = done_with m -> (forall a, safe (delegated op w) (k a)) ->
  triple (at_world w) (py_bind (on_escrow m) k) (fun _ => delegated op w).
Proof. intros Hd He Hk. eapply triple_bind; [by eapply acts|]. exact Hk. Qed.

Lemma with_own_profile q : q = with_profile (q_profile_id q) q.
Proof. by destruct q. Qed.
Lemma bound_voucher_profile r q : exists p, bound_voucher r q = with_profile p q.
Proof. unfold bound_voucher. destruct (_ && _); [by eexists|]. eexists. apply with_own_profile. Qed.

(** What changes nothing of the escrow. *)
Lemma elsewhere op w (m : MG unit) : safe (at_world w) m -> triple (at_world w) m (fun _ => delegated op w).
Proof. intros H s s' a Hs Hr. apply unchanged. exact (H s s' a Hs Hr). Qed.

Local Ltac delegates_to :=
  let as_op op := eapply acts_then with (eop := op); [|reflexivity|intros; solve [handled]] in
  lazymatch goal with
  | |- triple _ (py_bind (on_escrow (create_voucher _ _ _ _ _ ?a ?q)) _) _ => as_op (CreateVoucher a q)
  | |- triple _ (py_bind (on_escrow (submit_progress_receipt _ ?a ?p)) _) _ => as_op (SubmitProgress a p)
  | |- triple _ (py_bind (on_escrow (submit_settlement _ _ ?rq ?r ?t)) _) _ => as_op (SubmitSettlement rq r t)
  | |- triple _ (py_bind (on_escrow (buyer_accept_settlement _ _ ?rq ?t ?s ?d ?c ?f)) _) _ =>
      as_op (BuyerAccept rq t s d c f)
  | |- triple _ (py_bind (on_escrow (partial_settlement _ _ ?rq ?t ?x ?f)) _) _ => as_op (PartialSettlement rq t x f)
  end.
Lemma handler_delegates op w : triple (at_world w) (handle op) (fun _ => delegated op w).
Proof.
  destruct op; cbn [handler]; try (apply elsewhere; solve [handled]);
    try (autounfold with gateway_handlers; autounfold with gateway_ops; along ltac:(idtac; delegates_to)).
  1,2: cbn [delegates]; repeat match goal with H : str_eqb _ _ = true |- _ => apply bool_decide_eq_true in H; rewrite H end.
  - split; [done|apply bound_voucher_profile].
  - split; [done|by eexists].
  - done.
  - done.
  - done.
  - intros st st' [] <- Hr. right. exists op. split; [done|]. unfold on_escrow in Hr. destruct (ebody op (escrow st)) as [w' r].
    by injection Hr as <- ->.
  - apply triple_modify_last. intros s <-. by left.
Qed.

Lemma step_delegates op s :
  (db (escrow (step op s)) = db (escrow s) /\ drawn (escrow (step op s)) = drawn (escrow s))
  \/ exists eop, delegates op eop /\ escrow (step op s) = estep eop (escrow s).
Proof.
  unfold gateway_step, run_state, session. destruct (handle op s) as [s' [[]|e]] eqn:E; [|by left].
  destruct (handler_delegates op (escrow s) s s' tt eq_refl E) as [H|(eop & Hd & He)]; [by left|right].
  exists eop. split; [done|]. unfold escrow_step, run_state, get_db. by rewrite He.
Qed.

(** An invariant that every request of the escrow keeps holds behind the gateway. *)
Lemma gateway_keeps (P : escrow_db -> nat -> Prop) :
  (forall eop, safe (fun w => P (db w) (drawn w)) (ebody eop)) ->
  forall ops s, P (db (escrow s)) (drawn (escrow s)) -> P (db (escrow (run ops s))) (drawn (escrow (run ops s))).
Proof.
  intros H ops. induction ops as [|op ops IH]; intros s Hs; [done|]. apply IH.
  destruct (step_delegates op s) as [[-> ->]|(eop & _ & ->)]; [done|]. exact (safe_get_db P (ebody eop) (H eop) _ Hs).
Qed.

(** C30. Whatever an agent sends to the gateway, the tables of the escrow stay as they
    were or change as by the one request of the escrow that it stands for: creating a
    voucher for the identity of its key, submitting a progress receipt of that
    identity, or delivering, accepting or partially settling a task. *)
Theorem gateway_refines_escrow op s :
  (db (escrow (step op s)) = db (escrow s) /\ drawn (escrow (step op s)) = drawn (escrow s))
  \/ exists eop, delegates op eop /\ escrow (step op s) = estep eop (escrow s).
Proof. apply step_delegates. Qed.
(** *** Keys *)

Definition key_ok (r : key_row) : Prop :=
  rk_permissions r <> [] /\ Forall (fun p => p ∈ ALLOWED_PERMISSIONS) (rk_permissions r)
  /\ fgtb (rk_single_limit r) fzero = true /\ fgtb (rk_daily_limit r) fzero = true
  /\ fltb (rk_daily_limit r +. EPSILON) (rk_single_limit r) = false.
(** A row and a later state of it. *)
Definition later_key (r r' : key_row) : Prop :=
  r' = r \/ (rk_status r = K_ACTIVE /\ exists at_, r' = revoked at_ r).
(** The wallet of a request signed its text. *)
Definition signed (message wallet sig : string) : Prop :=
  exists signer, recover message (default (py_strip sig) (after_prefix "0x" (py_strip sig))) = Some signer
    /\ py_lower signer = py_lower (py_strip wallet).
Definition key_message (b : CreateRuntimeKeyBody) : string :=
  build_create_key_message (ck_identity b) (ck_wallet b) (ck_permissions b) (ck_single_limit b) (ck_daily_limit b)
    (ck_expire_time b) (ck_agent_name b) (ck_agent_binding b).
(** The signed request that issued the key, or one since revoked. *)
Definition issued (ops : list gateway_op) (id : string) (r : key_row) : Prop :=
  exists b secret perms at_, CreateKey b id secret ∈ ops /\ signed (key_message b) (ck_wallet b) (ck_signature b) /\ later_key
    (new_key cfg id secret (ck_wallet b) (ck_identity b) (ck_profile_id b) perms (ck_single_limit b) (ck_daily_limit b)
       (ck_expire_time b) (ck_agent_name b) (ck_agent_binding b) at_) r.
Record key_table (ops : list gateway_op) (k0 k : gmap string key_row) : Prop := {
  kt_rows : forall id r, k !! id = Some r -> key_ok r /\ issued ops id r;
  kt_grown : forall id r, k0 !! id = Some r -> exists r', k !! id = Some r' /\ later_key r r'
}.

Lemma later_key_trans r r' r'' : later_key r r' -> later_key r' r'' -> later_key r r''.
Proof.
  intros [->|[Ha [t ->]]]; [done|]. intros [->|[Hb _]]; [right; split; [done|by exists t]|discriminate Hb].
Qed.
Lemma key_table_issue ops k0 k id r : key_table ops k0 k -> k !! id = None -> key_ok r -> issued ops id r ->
  key_table ops k0 (<[id := r]> k).
Proof.
  intros [H1 H2] Hn Hok Hi. split.
  - intros id' r' [[<- <-]|[_ H]]%lookup_insert_Some; [done|by apply H1].
  - intros id' r' H. destruct (H2 id' r' H) as (r1 & Hr1 & Hl). exists r1. rewrite lookup_insert_ne; [done|congruence].
Qed.
Lemma key_table_revoke ops k0 k id r at_ : key_table ops k0 k -> k !! id = Some r -> rk_status r = K_ACTIVE ->
  key_table ops k0 (<[id := revoked at_ r]> k).
Proof.
  intros [H1 H2] Hr Ha. assert (later_key r (revoked at_ r)) as Hl by (right; split; [done|by exists at_]). split.
  - intros id' r' [[<- <-]|[_ H]]%lookup_insert_Some; [|by apply H1]. destruct (H1 id r Hr) as [Hok (b & sec & ps & t & Hin & Hsig & Hb)].
    split; [exact Hok|]. exists b, sec, ps, t. do 2 (split; [done|]). by eapply later_key_trans.
  - intros id' r' H. destruct (H2 id' r' H) as (r1 & Hr1 & Hl1). destruct (decide (id = id')) as [<-|Hne].
    + rewrite lookup_insert_eq. exists (revoked at_ r). split; [done|]. replace r1 with r in Hl1 by congruence.
      by eapply later_key_trans.
    + exists r1. by rewrite lookup_insert_ne.
Qed.

Lemma permissions_rule (P : gateway -> Prop) perms :
  triple P (on_escrow (normalize_permissions perms))
    (fun l s => P s /\ l <> [] /\ Forall (fun p => p ∈ ALLOWED_PERMISSIONS) l).
Proof.
  intros s s' l Hs Hr. split; [exact (safe_pure P _ (pure_permissions perms) s s' l Hs Hr)|].
  unfold on_escrow, normalize_permissions, allowed_permissions, ensure, py_require, py_bind, py_ret, fail, py_raise in Hr.
  destruct (List.find _ _) as [p|] eqn:E; [done|]. pose proof (find_none _ _ E) as Hall.
  destruct (normal_set py_strip perms) as [|x ps]; [done|]. injection Hr as _ <-. split; [done|].
  apply Forall_forall. intros p Hp%list_elem_of_In. specialize (Hall p Hp). apply negb_false_iff in Hall.
  by apply bool_decide_eq_true in Hall.
Qed.

Lemma message_rule {A} (P : gateway -> Prop) message wallet sig (k : unit -> MG A) Q :
  (signed message wallet sig -> triple P (k tt) Q) ->
  triple P (py_bind (verify_personal_message recover message wallet sig) k) Q.
Proof.
  intros H s s' a Hs Hr. unfold verify_personal_message, normalize_sig, demand, py_require, py_get, deny, py_raise, py_ret, py_bind in Hr.
  destruct (_ && _); [|done]. destruct (_ =? _)%nat; cbn in Hr; [|done]. destruct (recover _ _) as [signer|] eqn:E; [|done].
  destruct (str_eqb _ _) eqn:Ee; [|done]. apply bool_decide_eq_true in Ee. apply (H ltac:(by exists signer) s s' a Hs Hr).
Qed.

(** Issuing and revoking a key keep what the new row does not break. *)
Definition issues (b : CreateRuntimeKeyBody) (id secret : string) (perms : list string) (s : gateway) : key_row :=
  new_key cfg id secret (ck_wallet b) (ck_identity b) (ck_profile_id b) perms (ck_single_limit b) (ck_daily_limit b)
    (ck_expire_time b) (ck_agent_name b) (ck_agent_binding b) (clock s).
Lemma wallet_rule (I : gateway -> Prop) identity wallet : (forall x s, I s -> I (set_bound_wallets x s)) ->
  safe I (ensure_wallet_authorized_for_runtime_key cfg identity wallet).
Proof.
  intros Hw. unfold ensure_wallet_authorized_for_runtime_key, ensure_profile.
  stays ltac:(apply safe_modify; intros ? ?; by apply Hw).
Qed.
Lemma issue_rule (I : gateway -> Prop) b id secret : (forall x s, I s -> I (set_bound_wallets x s)) ->
  (forall perms s, I s -> keys s !! id = None -> signed (key_message b) (ck_wallet b) (ck_signature b) ->
     key_ok (issues b id secret perms s) -> I (set_keys (<[id := issues b id secret perms s]> (keys s)) s)) ->
  safe I (runtime_create_key cfg recover b id secret).
Proof.
  intros Hw Hk. unfold safe, runtime_create_key, create_runtime_key_record, validate_public_url_segment.
  along ltac:(first [apply message_rule|apply triple_frame; [solve [apply wallet_rule, Hw]|]
    |eapply triple_bind; [apply permissions_rule|cbv beta; intros perms; apply triple_read; intros s [Hs [Hne Hall]]]]).
  rewrite negb_true_iff, ?orb_false_iff in *. apply andb_true_iff in H as [Hps Hpd].
  apply triple_modify with I; [|by apply triple_ret].
  intros ? <-. apply Hk; [done| |done|done]. by apply bool_decide_eq_false, eq_None_not_Some in H4.
Qed.

Lemma revoke_rule (I : gateway -> Prop) id identity wallet sig :
  (forall s r, I s -> keys s !! id = Some r -> rk_status r = K_ACTIVE ->
     I (set_keys (<[id := revoked (clock s) r]> (keys s)) s)) ->
  safe I (runtime_revoke_key recover id identity wallet sig).
Proof.
  intros H. assert (safe I (revoke_runtime_key id)) as Hr.
  { unfold safe, revoke_runtime_key. apply triple_read. intros s Hs. destruct (keys s !! id) as [r|] eqn:E; [|by apply triple_ret; intros ? <-].
    unfold py_when. destruct (bool_decide _) eqn:Ea; [|by apply triple_ret; intros ? <-]. apply bool_decide_eq_true in Ea.
    apply triple_modify_last. intros ? <-. by apply H. }
  unfold runtime_revoke_key, validate_public_url_segment. stays ltac:(apply Hr).
Qed.

Lemma keys_keep ops k0 op : op ∈ ops -> safe (fun s => key_table ops k0 (keys s)) (handle op).
Proof.
  intros Hin. destruct op; cbn [handler].
  - apply safe_bind; [|intros; apply safe_ret]. apply issue_rule; [done|]. intros perms s Hs Hn Hsig Hok. cbn.
    apply key_table_issue; [done..|]. eexists b, secret, perms, _. do 2 (split; [done|]). by left.
  - apply revoke_rule. intros s r Hs Hr Ha. by apply key_table_revoke.
  - handled.
  - handled.
  - handled.
  - handled.
  - handled.
  - handled.
  - handled.
  - handled.
Qed.

(** A table kept by the requests that return is kept by every request. *)
Lemma step_keeps (I : gateway -> Prop) op :
  safe I (handle op) ->
  (forall s w rep mem mono, I s ->
     I (Gateway (EscrowWorld (db (escrow s)) w (drawn (escrow s))) (keys s) (daily_spend s) (bound_wallets s) rep mem mono)) ->
  forall s, I s -> I (step op s).
Proof.
  intros Hs HI s H. refine (proj1 (session_keeps I (fun _ => True) (handle op) _ _ HI _ s (conj H Logic.I))); [|done|done].
  intros s1 s2 a [H1 _] Hr. split; [exact (Hs s1 s2 a H1 Hr)|done].
Qed.
Lemma key_table_more ops ops' k0 k : (forall op, op ∈ ops -> op ∈ ops') -> key_table ops k0 k -> key_table ops' k0 k.
Proof.
  intros Hsub [H1 H2]. split; [|done]. intros id r Hr. destruct (H1 id r Hr) as [Hok (b & sec & ps & t & Hin & Hl)].
  split; [done|]. exists b, sec, ps, t. split; [by apply Hsub|exact Hl].
Qed.
Lemma keys_run all k0 ops s : (forall op, op ∈ ops -> op ∈ all) -> key_table all k0 (keys s) ->
  key_table all k0 (keys (run ops s)).
Proof.
  revert s. induction ops as [|op ops IH]; intros s Hsub Hs; [done|]. cbn [gateway_run fold_left]. apply IH.
  - intros o Ho. apply Hsub. by right.
  - apply (step_keeps (fun s => key_table all k0 (keys s))); [|by intros *|done]. apply keys_keep, Hsub. by left.
Qed.
Lemma keys_empty t ops : key_table ops ∅ (keys (run ops (empty_gateway t))).
Proof. apply keys_run; [done|]. split; cbn; intros *; by rewrite lookup_empty. Qed.

(** Every runtime key was issued by a request that a wallet signed, holds only known
    permissions, at least one, and positive limits, the daily one not below the single
    one; and whatever follows, a key is never dropped or altered, only revoked, and a
    revoked one stays so. *)
Theorem keys_lifecycle ops ops' t :
  let k := keys (run ops (empty_gateway t)) in
  (forall id r, k !! id = Some r -> key_ok r /\ issued ops id r)
  /\ forall id r, k !! id = Some r ->
       exists r', keys (run (ops ++ ops') (empty_gateway t)) !! id = Some r' /\ later_key r r'.
Proof.
  pose proof (keys_empty t ops) as [H1 _]. split; [exact H1|]. unfold gateway_run. rewrite fold_left_app.
  refine (kt_grown _ _ _ (keys_run (ops ++ ops') _ ops' _ _ _)); [intros op Hop; apply elem_of_app; by right|].
  apply key_table_more with ops; [intros op Hop; apply elem_of_app; by left|].
  split; [exact H1|]. intros id r Hr. exists r. split; [done|by left].
Qed.

(** *** Agents *)

(** The key a token speaks for, and its secret. *)
Record speaks_for (token : string) (s : gateway) (id secret : string) (r : key_row) : Prop := {
  sf_token : run_outcome (parse_runtime_key_token (py_strip token)) s = Ret (id, secret);
  sf_row : keys s !! id = Some r;
  sf_active : rk_status r = K_ACTIVE;
  sf_secret : hash_runtime_secret cfg id secret = rk_secret_hash r;
  sf_time : (clock s <= rk_expire_at r + 30 * US_PER_SECOND)%Z
}.
Definition token_of (op : gateway_op) : option string :=
  match op with
  | RequestVoucher token _ _ _ | CheckVoucher token _ _ _ _ | UpdateProgress token _ _
  | RequestSettlement token _ _ _ _ => Some token
  | _ => None
  end.
(** The part its identity has in the settlement. *)
Definition acts_on (r : key_row) (task : string) (kind : settlement_kind) (s : gateway) : Prop :=
  exists st, get task (rows (db (escrow s))) = Some (Some st)
    /\ match kind with
       | SubmitDelivery _ => rk_identity r = default "" (worker_agent_id st)
       | _ => rk_identity r = client_agent_id st
       end.
Definition within (op : gateway_op) (r : key_row) (s : gateway) : Prop :=
  match op with
  | RequestVoucher _ _ q _ => "request_voucher" ∈ rk_permissions r /\ q_buyer q = rk_identity r
      /\ fgtb (q_amount q) (rk_single_limit r +. EPSILON) = false
  | CheckVoucher _ _ _ _ _ => "verify_voucher" ∈ rk_permissions r
  | UpdateProgress _ p _ => "update_progress" ∈ rk_permissions r /\ pr_seller p = rk_identity r
  | RequestSettlement _ task _ kind _ => "request_settlement" ∈ rk_permissions r /\ acts_on r task kind s
  | _ => True
  end.

Lemma context_rule {A} token (k : string * key_row -> MG A) s Q :
  (forall id secret r, speaks_for token s id secret r -> triple (eq s) (k (id, r)) Q) ->
  triple (eq s) (py_bind (get_runtime_context cfg token) k) Q.
Proof.
  intros Hk. unfold get_runtime_context, load_active_context. apply triple_assoc, triple_require. intros _. apply triple_assoc.
  apply triple_bind with (fun t s' => s = s' /\ run_outcome (parse_runtime_key_token (py_strip token)) s = Ret t).
  { intros s1 s2 t <- Hr. split; [exact (safe_parse (eq s) _ s s2 t eq_refl Hr)|]. unfold run_outcome. by rewrite Hr. }
  intros [id secret]. apply triple_pure. intros Hp. cbv beta iota.
  apply triple_assoc, triple_get. intros ? <-. destruct (keys s !! id) as [r|] eqn:Er; [|apply triple_fail].
  do 3 (apply triple_assoc, triple_require; intros ?). apply triple_pass, (Hk id secret r).
  split; [done|done|exact (proj1 (bool_decide_eq_true _) H)|exact (proj1 (bool_decide_eq_true _) H0)|by apply Z.ltb_ge, negb_true_iff].
Qed.
Lemma load_rule task s : triple (fun s' => escrow s' = escrow s) (on_escrow (load_settlement task))
  (fun st s' => escrow s' = escrow s /\ get task (rows (db (escrow s))) = Some st).
Proof.
  intros s1 s2 st He Hr. unfold on_escrow, load_settlement, py_bind, py_get in Hr. rewrite He in Hr.
  destruct (get task (rows (db (escrow s)))) as [st'|]; [|discriminate Hr]. by injection Hr as <- <-.
Qed.
Lemma triple_const {A} (P : gateway -> Prop) (m : MG A) (R : Prop) : R -> triple P m (fun _ _ => R).
Proof. by intros H s s' a _ _. Qed.

(** What a request that returned established about its token. *)
Lemma agent_checked op token s : token_of op = Some token ->
  triple (eq s) (handle op) (fun _ _ => exists id secret r, speaks_for token s id secret r /\ within op r s).
Proof.
  destruct op; intros [= ->]; cbn [handler]; unfold done, runtime_request_voucher, runtime_check_voucher,
    runtime_update_progress, runtime_request_settlement, assert_permission, valid_nonce.
  all: apply triple_assoc, context_rule; intros id secret r Hr.
  all: apply triple_pre with (fun s' => escrow s' = escrow s); [by intros ? <-|].
  all: autounfold with gateway_ops; along ltac:(eapply triple_bind; [apply load_rule|intros st; apply triple_pure; intros Hst]).
  all: try apply triple_const; exists id, secret, r; split; [exact Hr|]; cbn [within]; unfold acts_on;
    rewrite ?negb_true_iff in *;
    repeat match goal with H : str_eqb _ _ = true |- _ => apply bool_decide_eq_true in H
                      | H : str_mem _ _ = true |- _ => apply bool_decide_eq_true in H end; eauto.
Qed.

Lemma secret_or_collision id x y : hash_runtime_secret cfg id x = hash_runtime_secret cfg id y ->
  x = y \/ hmac_collides (server_material cfg) (utf8 (id ++ ":" ++ x)) (utf8 (id ++ ":" ++ y)).
Proof.
  intros [H|H]%hmac_hex_inj_or_collides; [left|by right]. apply utf8_inj in H. by apply (inj (String.append id)), (inj (String.append ":")) in H.
Qed.
Lemma later_key_same r r' : later_key r r' -> rk_secret_hash r' = rk_secret_hash r /\ rk_identity r' = rk_identity r
  /\ rk_daily_limit r' = rk_daily_limit r.
Proof. by intros [->|[_ [t ->]]]. Qed.

(** C11. A request with a runtime key succeeds only when its token names a key that is
    active and in time, issued before on a request its wallet signed, with that
    key's very secret or an HMAC collision; and only within the key: it holds the
    permission asked for, the identity is the buyer, the seller or the party of the
    settlement concerned, and the amount is within the limit of a single payment. *)
Theorem agents_are_authorised ops op token t : token_of op = Some token ->
  let s := run ops (empty_gateway t) in run_outcome (session (handle op)) s = Ret tt ->
  exists id secret r b secret0, speaks_for token s id secret r /\ within op r s
    /\ CreateKey b id secret0 ∈ ops /\ signed (key_message b) (ck_wallet b) (ck_signature b)
    /\ rk_identity r = py_strip (ck_identity b)
    /\ (secret = secret0
        \/ hmac_collides (server_material cfg) (utf8 (id ++ ":" ++ secret)) (utf8 (id ++ ":" ++ secret0))).
Proof.
  intros Ht s Hr. unfold run_outcome, session in Hr. destruct (handle op s) as [s' [[]|e]] eqn:E; [|done].
  destruct (agent_checked op token s Ht s s' tt eq_refl E) as (id & secret & r & Hs & Hw).
  destruct (kt_rows _ _ _ (keys_empty t ops) id r (sf_row _ _ _ _ _ Hs)) as [_ (b & secret0 & ps & t' & Hin & Hsig & Hl)].
  apply later_key_same in Hl as (Hh & Hi & _). exists id, secret, r, b, secret0. do 4 (split; [done|]). split; [done|].
  apply secret_or_collision. by rewrite (sf_secret _ _ _ _ _ Hs), Hh.
Qed.

(** *** Spending *)

(** What the table says was spent is within the limit of the key. *)
Definition within_limits (k : gmap string key_row) (spend : gmap (string * string) float) : Prop :=
  forall id day x, spend !! (id, day) = Some x ->
    exists r, k !! id = Some r /\ fgtb x (rk_daily_limit r +. EPSILON) = false.
Definition positive (memory : gmap (string * string) float) : Prop :=
  forall k x, memory !! k = Some x -> fgtb x fzero = true.

Lemma limits_grow k spend id r : within_limits k spend -> k !! id = None \/ (exists r0, k !! id = Some r0 /\ later_key r0 r) ->
  within_limits (<[id := r]> k) spend.
Proof.
  intros H Hid id' day x Hx. destruct (H id' day x Hx) as (r' & Hr' & Hf). destruct (decide (id = id')) as [<-|Hne].
  - destruct Hid as [Hid|(r0 & Hid & Hl)]; [congruence|]. exists r. rewrite lookup_insert_eq. split; [done|].
    apply later_key_same in Hl as (_ & _ & ->). by replace r0 with r' by congruence.
  - exists r'. by rewrite lookup_insert_ne.
Qed.
Lemma positive_insert m k x : positive m -> fgtb x fzero = true -> positive (<[k := x]> m).
Proof. intros H Hx k' x' [[_ <-]|[_ Hk]]%lookup_insert_Some; [done|by apply (H k')]. Qed.
Lemma spent_shape m id day : positive m -> spent_in m id day = fzero \/ fgtb (spent_in m id day) fzero = true.
Proof. intros H. unfold spent_in. destruct (m !! (id, day)) eqn:E; [right; by apply (H (id, day))|by left]. Qed.

(** The books of one request, between the check and the record. *)
Definition same_books (s0 s : gateway) : Prop :=
  keys s = keys s0 /\ daily_spend s = daily_spend s0 /\ daily_memory s = daily_memory s0 /\ clock s = clock s0.
Lemma books_escrow {A} s0 (m : MW A) : (forall t, safe (fun w => now w = t) m) -> safe (same_books s0) (on_escrow m).
Proof.
  intros Hm s s' a (H1 & H2 & H3 & H4) Hr. unfold on_escrow in Hr. destruct (m (escrow s)) as [w r] eqn:E. injection Hr as <- ->.
  do 3 (split; [done|]). exact (Hm (clock s0) _ _ _ H4 E).
Qed.
Lemma create_in_time actor q t : safe (fun w => now w = t)
  (create_voucher (base cfg) sql_sum uid verify_launch verify_buyer actor q).
Proof. unfold create_voucher, assert_buyer_commitment_for_voucher, put_voucher, record_voucher_event. stays ltac:(fail). Qed.
Lemma create_positive P actor q : triple P (create_voucher (base cfg) sql_sum uid verify_launch verify_buyer actor q)
  (fun _ _ => fgtb (q_amount q) fzero = true).
Proof.
  apply triple_pre with (fun _ => True); [done|].
  unfold create_voucher, assert_buyer_commitment_for_voucher, put_voucher, record_voucher_event. walk_until ltac:(fail).
  by apply andb_true_iff in H3 as [? _].
Qed.

Definition books (s : gateway) : Prop := within_limits (keys s) (daily_spend s) /\ positive (daily_memory s).
(** What was checked against the limit is what is recorded. *)
Lemma record_rule s id r amount : daily_spend_persist cfg = true -> valid amount = true -> fgtb amount fzero = true ->
  books s -> keys s !! id = Some r ->
  fgtb (get_daily_used cfg local_date id s +. amount) (rk_daily_limit r +. EPSILON) = false ->
  triple (same_books s) (record_daily_spend cfg local_date id amount) (fun _ => books).
Proof.
  intros Hp Hv Ha [Hl Hm] Hk Hf s1 s2 [] (E1 & E2 & E3 & E4) Hr. unfold record_daily_spend, today in *. rewrite Hp in Hr.
  unfold get_daily_used, today in Hf. rewrite Hp in Hf. unfold py_when, py_modify, py_bind in Hr. injection Hr as <-.
  pose proof (not_above_sum _ amount Hv Ha (spent_shape _ id (local_date (clock s)) Hm)) as [Hge Hpos].
  unfold books, clock in *. cbn. rewrite E1, E2, E3, E4. split; [|by apply positive_insert].
  intros id' day x [[[= <- <-] <-]|[_ Hx]]%lookup_insert_Some; [|by apply (Hl id' day)]. exists r. split; [done|].
  destruct (daily_spend s !! _) as [x|]; cbn in Hf; [done|]. by eapply not_above_trans.
Qed.

Lemma voucher_spends token nonce q fault : daily_spend_persist cfg = true -> valid (q_amount q) = true ->
  safe books (runtime_request_voucher cfg sql_sum uid verify_launch verify_buyer local_date minted token nonce q fault).
Proof.
  intros Hp Hv s s' a Hs. revert s' a. enough (triple (eq s) (runtime_request_voucher cfg sql_sum uid verify_launch verify_buyer
    local_date minted token nonce q fault) (fun _ => books)) as H by (intros s' a; by apply H).
  unfold runtime_request_voucher, assert_permission, valid_nonce, check_single_and_daily_limits. apply context_rule.
  intros id secret r Hr. apply triple_pre with (same_books s); [by intros ? <-|]. unfold check_replay_nonce, put_bucket.
  along ltac:(fail).
  assert (get_daily_used cfg local_date id s1 = get_daily_used cfg local_date id s) as Eu.
  { destruct H5 as (_ & E2 & E3 & E4). unfold get_daily_used, today. by rewrite E2, E3, E4. }
  rewrite negb_true_iff, Eu in H8.
  eapply triple_bind with (fun _ s' => same_books s s' /\ fgtb (q_amount q) fzero = true).
  { intros s2 s3 v Hs2 Hv2. split; [exact (books_escrow s _ (create_in_time _ _) s2 s3 v Hs2 Hv2)|].
    unfold on_escrow in Hv2. destruct (create_voucher _ _ _ _ _ _ _ (escrow s2)) as [w' o] eqn:E. injection Hv2 as _ ->.
    destruct (bound_voucher_profile r q) as [p Eq]. rewrite Eq in E. exact (create_positive (fun _ => True) _ _ _ _ _ Logic.I E). }
  intros v. apply triple_pure. intros Ha. apply triple_bind with (fun _ => books); [by eapply record_rule; [..|exact (sf_row _ _ _ _ _ Hr)|]|].
  intros _. unfold commit. along ltac:(fail); assumption.
Qed.

(** Amounts are binary64 numbers; what a launch records is not checked. *)
Definition spends_checked (op : gateway_op) : Prop :=
  match op with
  | RequestVoucher _ _ q _ => valid (q_amount q) = true
  | TradeLaunched _ _ _ => False
  | _ => True
  end.

Lemma bound_amount r q : q_amount (bound_voucher r q) = q_amount q.
Proof. by destruct (bound_voucher_profile r q) as [p ->]. Qed.
Lemma create_then (J : gateway -> Prop) {B} actor q (k : string * voucher_row -> MG B) :
  (forall w s, J s -> J (set_escrow w s)) -> (fgtb (q_amount q) fzero = true -> forall v, keeps J (k v)) ->
  keeps J (py_bind (on_escrow (create_voucher (base cfg) sql_sum uid verify_launch verify_buyer actor q)) k).
Proof.
  intros HJ Hk. apply keeps_bind_returned; [by apply keeps_escrow|]. intros v (s & s' & Hr). apply Hk.
  unfold on_escrow in Hr. destruct (create_voucher _ _ _ _ _ _ _ _) as [w o] eqn:E. injection Hr as _ ->.
  exact (create_positive (fun _ => True) _ _ _ _ _ Logic.I E).
Qed.
Definition positive_memory (s : gateway) : Prop := positive (daily_memory s).
Lemma record_keeps id amount : valid amount = true -> fgtb amount fzero = true ->
  keeps positive_memory (record_daily_spend cfg local_date id amount).
Proof.
  intros Hv Ha. unfold record_daily_spend. apply keeps_bind.
  - apply keeps_modify. intros s Hs. apply positive_insert; [done|]. by apply not_above_sum, spent_shape.
  - intros _. stays ltac:(fail).
Qed.
Lemma memory_keeps op : spends_checked op -> keeps positive_memory (handle op).
Proof.
  intros Hop. destruct op; cbn [handler]; try done; try solve [handled].
  unfold done, runtime_request_voucher, assert_permission, valid_nonce, check_replay_nonce, put_bucket,
    check_single_and_daily_limits, commit.
  stays ltac:(first [apply create_then; [done|rewrite bound_amount; intros Ha v] | apply record_keeps; assumption]).
Qed.
Lemma books_keep op : daily_spend_persist cfg = true -> spends_checked op -> safe books (handle op).
Proof.
  intros Hp Hop. destruct op; cbn [handler]; try done; try solve [handled].
  - apply safe_bind; [|intros; apply safe_ret]. apply issue_rule; [done|]. intros perms s [H1 H2] Hn _ _.
    split; [|done]. apply limits_grow; [done|by left].
  - apply revoke_rule. intros s r [H1 H2] Hr Ha. split; [|done]. apply limits_grow; [done|]. right. exists r. split; [done|].
    right. split; [done|by eexists].
  - apply safe_bind; [by apply voucher_spends|intros; apply safe_ret].
  - apply safe_modify. intros s [H1 _]. split; [done|]. intros k x. cbn. by rewrite lookup_empty.
Qed.
Lemma books_step op s : daily_spend_persist cfg = true -> spends_checked op -> books s -> books (step op s).
Proof.
  intros Hp Hop. refine (session_keeps (fun s => within_limits (keys s) (daily_spend s)) positive_memory (handle op) _ _ _ _ s).
  - exact (books_keep op Hp Hop).
  - by apply memory_keeps.
  - done.
  - done.
Qed.

(** C12. With the daily totals kept in the table, what a runtime key has spent on a day
    never exceeds its daily limit (up to the code's tolerance), whatever requests
    come, through rolled back requests and restarts of the process, as long as the
    spending goes through the gateway. *)
Theorem daily_limit_holds ops t : daily_spend_persist cfg = true -> Forall spends_checked ops ->
  forall id day x, daily_spend (run ops (empty_gateway t)) !! (id, day) = Some x ->
    exists r, keys (run ops (empty_gateway t)) !! id = Some r /\ fgtb x (rk_daily_limit r +. EPSILON) = false.
Proof.
  intros Hp Hops. enough (books (run ops (empty_gateway t))) as [H _] by exact H.
  assert (books (empty_gateway t)) as H0 by (unfold books, within_limits, positive; cbn; split; intros *; by rewrite lookup_empty).
  revert H0. generalize (empty_gateway t). induction Hops as [|op ops Hop Hops IH]; intros s Hs; [done|].
  apply IH. by apply books_step.
Qed.

(** *** Nonces *)

Definition nonce_of (op : gateway_op) : option (string * string * string) :=
  match op with
  | RequestVoucher token nonce _ _ => Some (token, "request-voucher", nonce)
  | CheckVoucher token _ nonce _ _ => Some (token, "check-voucher", nonce)
  | RequestSettlement token _ nonce _ _ => Some (token, "request-settlement", nonce)
  | _ => None
  end.
(** The entry is there, with at most [n] after it. *)
Definition remembered (tag : string) (t0 : Z) (n : nat) (l : list (string * Z)) : Prop :=
  exists l1 l2, l = (l1 ++ (tag, t0) :: l2)%list /\ (length l2 <= n)%nat.
(** What one request makes of a bucket. *)
Definition one_nonce (now : Z) (l l' : list (string * Z)) : Prop :=
  l' = l \/ l' = drop_expired now REPLAY_TTL l
  \/ exists x, let l1 := (drop_expired now REPLAY_TTL l ++ [x])%list in l' = drop (length l1 - REPLAY_MAX) l1.

Lemma drop_expired_suffix now tag t0 l1 l2 : (now - t0 <= REPLAY_TTL)%Z ->
  exists l1', drop_expired now REPLAY_TTL (l1 ++ (tag, t0) :: l2) = (l1' ++ (tag, t0) :: l2)%list.
Proof.
  intros Ht. induction l1 as [|[x t] l1 IH]; cbn.
  - exists []. destruct (Z.ltb_spec REPLAY_TTL (now - t0)); [lia|done].
  - destruct (_ <? _)%Z; [exact IH|]. by exists ((x, t) :: l1).
Qed.
Lemma remembered_next now tag t0 n l l' : remembered tag t0 n l -> (now - t0 <= REPLAY_TTL)%Z -> (S n < REPLAY_MAX)%nat ->
  one_nonce now l l' -> remembered tag t0 (S n) l'.
Proof.
  intros (l1 & l2 & -> & Hn) Ht Hmax H. destruct (drop_expired_suffix now tag t0 l1 l2 Ht) as [l1' E].
  destruct H as [->|[->|[x ->]]].
  - exists l1, l2. split; [done|lia].
  - exists l1', l2. split; [done|lia].
  - cbn zeta. rewrite E, <- app_assoc, <- app_comm_cons. exists (drop (length (l1' ++ (tag, t0) :: (l2 ++ [x])) - REPLAY_MAX) l1'), (l2 ++ [x])%list.
    rewrite !length_app. cbn [length]. rewrite length_app. cbn [length]. split; [|lia]. apply drop_app_le. lia.
Qed.

(** An operation that leads from one property to another, whatever its outcome. *)
Definition leads {A} (P Q : gateway -> Prop) (m : MG A) : Prop := forall s, P s -> Q (run_state m s).
Lemma leads_frame {A B} (P Q : gateway -> Prop) (m : MG A) (k : A -> MG B) :
  (forall s, P s -> Q s) -> keeps P m -> (forall a, leads P Q (k a)) -> leads P Q (py_bind m k).
Proof.
  intros HPQ Hm Hk s Hs. unfold run_state, py_bind. specialize (Hm s Hs). unfold run_state in Hm.
  destruct (m s) as [s' [a|e]]; [exact (Hk a s' Hm)|exact (HPQ s' Hm)].
Qed.
Lemma leads_here {A B} (P Q : gateway -> Prop) (m : MG A) (k : A -> MG B) :
  leads P Q m -> (forall a, keeps Q (k a)) -> leads P Q (py_bind m k).
Proof.
  intros Hm Hk s Hs. unfold run_state, py_bind. specialize (Hm s Hs). unfold run_state in Hm.
  destruct (m s) as [s' [a|e]]; [exact (Hk a s' Hm)|exact Hm].
Qed.

Definition fresh_bucket (id : string) (l : list (string * Z)) (m0 : Z) (s : gateway) : Prop :=
  bucket id s = l /\ monotonic s = m0.
Definition used_bucket (id : string) (l : list (string * Z)) (m0 : Z) (s : gateway) : Prop :=
  one_nonce m0 l (bucket id s) /\ monotonic s = m0.
Lemma fresh_used id l m0 s : fresh_bucket id l m0 s -> used_bucket id l m0 s.
Proof. intros [H1 H2]. split; [left; exact H1|exact H2]. Qed.

Lemma replay_leads id l m0 key_id endpoint nonce :
  leads (fresh_bucket id l m0) (used_bucket id l m0) (check_replay_nonce key_id endpoint nonce).
Proof.
  intros s [Hb Hm]. unfold run_state, check_replay_nonce, put_bucket, demand, py_require, py_modify, py_get, py_ret, py_raise, py_bind.
  destruct (_ && _); cbn; [|by apply fresh_used].
  destruct (negb _); cbn; (split; [|exact Hm]); unfold bucket; cbn; (destruct (decide (key_id = id)) as [->|Hne];
    [rewrite ?lookup_insert_eq; cbn|rewrite !lookup_insert_ne by done; left; exact Hb]); fold (bucket id s); rewrite Hb, Hm.
  - right. right. eexists. cbn zeta. reflexivity.
  - right. by left.
Qed.

Definition restarts (op : gateway_op) : bool := match op with Restart => true | _ => false end.
Definition elapsed (op : gateway_op) : Z := match op with Elapse us => Z.of_N us | _ => 0 end.
Local Ltac leads_on :=
  repeat first
    [ progress intros
    | lazymatch goal with
      | |- leads _ _ (py_bind (check_replay_nonce _ _ _) _) => apply leads_here; [apply replay_leads|intros; handled]
      | |- leads _ _ (match ?x with _ => _ end) => destruct x
      end
    | apply leads_frame; [exact (fresh_used _ _ _)|solve [stays ltac:(fail)]|] ].
Lemma handler_buckets id l m0 op s : restarts op = false -> fresh_bucket id l m0 s ->
  one_nonce m0 l (bucket id (run_state (handle op) s)) /\ monotonic (run_state (handle op) s) = (m0 + elapsed op)%Z.
Proof.
  intros Hre Hs. destruct op; try done; cbn [handler elapsed]; rewrite ?Z.add_0_r;
    lazymatch goal with
    | |- context [py_modify] => destruct Hs as [Hb <-]; split; [left; exact Hb|done]
    | |- context [run_state ?m s] =>
        first [ enough (keeps (fresh_bucket id l m0) m) as H by (exact (fresh_used _ _ _ _ (H s Hs))); solve [handled]
              | enough (leads (fresh_bucket id l m0) (used_bucket id l m0) m) as H by (exact (H s Hs)) ]
    end.
  all: unfold done. all: apply leads_here; [|intros; apply keeps_ret].
  all: unfold runtime_request_voucher, runtime_check_voucher, runtime_request_settlement, assert_permission, valid_nonce,
    validate_public_url_segment; leads_on.
Qed.

(** A nonce that is taken is new and is remembered. *)
Definition new_tag (tag : string) (id : string) (s : gateway) : Prop :=
  tag ∉ map fst (drop_expired (monotonic s) REPLAY_TTL (bucket id s)).
Lemma replay_rule id endpoint nonce s :
  triple (fresh_bucket id (bucket id s) (monotonic s)) (check_replay_nonce id endpoint nonce)
    (fun _ s' => remembered (replay_tag endpoint nonce) (monotonic s) 0 (bucket id s') /\ new_tag (replay_tag endpoint nonce) id s).
Proof.
  intros s1 s2 [] [Hb Hm] Hr. unfold check_replay_nonce, put_bucket, demand, py_require, py_modify, py_get, py_ret, py_raise, py_bind in Hr.
  destruct (_ && _); [|done]. destruct (negb _) eqn:E in Hr; [|done]. injection Hr as <-.
  rewrite Hb, Hm in *. split; [|by apply negb_true_iff, bool_decide_eq_false in E].
  unfold bucket. cbn. rewrite lookup_insert_eq. cbn. fold (bucket id s).
  eexists _, []. split; [|done]. apply drop_app_le. rewrite length_app. cbn [length]. unfold REPLAY_MAX. lia.
Qed.
Lemma nonce_checked op token endpoint nonce s : nonce_of op = Some (token, endpoint, nonce) ->
  triple (eq s) (handle op) (fun _ s' => exists id secret r, speaks_for token s id secret r
    /\ remembered (replay_tag endpoint nonce) (monotonic s) 0 (bucket id s') /\ new_tag (replay_tag endpoint nonce) id s).
Proof.
  intros Hn. destruct op; try done; injection Hn as -> <- ->; cbn [handler].
  all: unfold done, runtime_request_voucher, runtime_check_voucher, runtime_request_settlement, assert_permission, valid_nonce,
    validate_public_url_segment; apply triple_assoc, context_rule; intros id secret r Hr.
  all: apply triple_pre with (fresh_bucket id (bucket id s) (monotonic s)); [by intros ? <-|].
  all: along ltac:(eapply triple_bind; [apply replay_rule|intros []; apply triple_pure; intros Hnew]).
  all: match goal with |- triple ?P ?m _ =>
    refine (triple_post _ _ (fun _ => P) _ (fun _ s' H => ex_intro _ id (ex_intro _ secret (ex_intro _ r (conj Hr (conj H Hnew))))) _);
      change (safe P m) end; solve [handled].
Qed.

Lemma parse_anywhere token s s' : run_outcome (parse_runtime_key_token token) s = run_outcome (parse_runtime_key_token token) s'.
Proof.
  unfold run_outcome, parse_runtime_key_token, deny, demand, py_require, py_ret, py_raise, py_bind.
  destruct (after_prefix _ _) as [rest|]; [|done]. destruct (partition _ _) as [[id secret]|]; [|done].
  destruct (hex_of_length 32 id); [|done]. by destruct (hex_of_length 64 secret).
Qed.

Lemma session_memory {A} (m : MG A) s : replay (run_state (session m) s) = replay (run_state m s)
  /\ monotonic (run_state (session m) s) = monotonic (run_state m s).
Proof. unfold run_state, session. by destruct (m s) as [s' [a|e]]. Qed.
Lemma step_buckets id op s : restarts op = false ->
  one_nonce (monotonic s) (bucket id s) (bucket id (step op s)) /\ monotonic (step op s) = (monotonic s + elapsed op)%Z.
Proof.
  intros Hre. destruct (handler_buckets id (bucket id s) (monotonic s) op s Hre (conj eq_refl eq_refl)) as [H1 H2].
  unfold gateway_step, bucket in *. destruct (session_memory (handle op) s) as [-> ->]. done.
Qed.
Lemma elapsed_nonneg op : (0 <= elapsed op)%Z.
Proof. destruct op; cbn; lia. Qed.
Lemma monotonic_run ops s : Forall (fun op => restarts op = false) ops -> (monotonic s <= monotonic (run ops s))%Z.
Proof.
  intros H. revert s. induction H as [|op ops Hop _ IH]; intros s; [done|]. specialize (IH (step op s)).
  destruct (step_buckets "" op s Hop) as [_ E]. pose proof (elapsed_nonneg op). cbn [gateway_run fold_left] in *. unfold gateway_run in *. lia.
Qed.
Lemma remembered_run id tag t0 ops s n : Forall (fun op => restarts op = false) ops ->
  (monotonic (run ops s) - t0 <= REPLAY_TTL)%Z -> (n + length ops < REPLAY_MAX)%nat -> remembered tag t0 n (bucket id s) ->
  remembered tag t0 (n + length ops) (bucket id (run ops s)).
Proof.
  intros H. revert s n. induction H as [|op ops Hop Hops IH]; intros s n Ht Hn Hr; [by rewrite Nat.add_0_r|].
  cbn [length] in *. rewrite <- plus_n_Sm in *. change (run (op :: ops) s) with (run ops (step op s)) in *.
  destruct (step_buckets id op s Hop) as [Hb Em]. pose proof (elapsed_nonneg op). pose proof (monotonic_run ops (step op s) Hops).
  apply (IH (step op s) (S n)); [done|lia|]. eapply remembered_next; [done| |lia|done]. lia.
Qed.

(** A nonce that a request with a runtime key has used is refused, for the same
    token and endpoint, to every later request for ten minutes of the process's clock,
    unless the process restarts or two thousand requests come in between. *)
Theorem nonce_refused ops op ops' op' t token endpoint nonce :
  let s := run ops (empty_gateway t) in let s' := run ops' (step op s) in
  run_outcome (session (handle op)) s = Ret tt ->
  nonce_of op = Some (token, endpoint, nonce) -> nonce_of op' = Some (token, endpoint, nonce) ->
  Forall (fun op => restarts op = false) ops' -> (length ops' < REPLAY_MAX)%nat ->
  (monotonic s' - monotonic s <= REPLAY_TTL)%Z ->
  is_ret (run_outcome (session (handle op')) s') = false.
Proof.
  intros s s' Hr Hn Hn' Hre Hl Ht. unfold run_outcome, session in *.
  destruct (handle op s) as [s1 [[]|e]] eqn:E; [|done].
  destruct (handle op' s') as [s2 [[]|e]] eqn:E'; [exfalso|done].
  destruct (nonce_checked op _ _ _ s Hn s s1 tt eq_refl E) as (id & secret & r & Hs & Hrem & _).
  destruct (nonce_checked op' _ _ _ s' Hn' s' s2 tt eq_refl E') as (id' & secret' & r' & Hs' & _ & Hnew).
  pose proof (sf_token _ _ _ _ _ Hs) as Hid. rewrite (parse_anywhere _ s s'), (sf_token _ _ _ _ _ Hs') in Hid. injection Hid as -> ->.
  assert (step op s = s1) as E1 by (unfold gateway_step, run_state, session; by rewrite E).
  pose proof (remembered_run id (replay_tag endpoint nonce) (monotonic s) ops' s1 0 Hre) as Hm. subst s'. rewrite E1 in *.
  destruct (Hm Ht Hl Hrem) as (l1 & l2 & El & _). unfold new_tag in Hnew. rewrite El in Hnew.
  destruct (drop_expired_suffix _ (replay_tag endpoint nonce) _ l1 l2 Ht) as [l1' El']. rewrite El' in Hnew.
  apply Hnew, list_elem_of_fmap. exists (replay_tag endpoint nonce, monotonic s). split; [done|]. set_solver.
Qed.
End Gateway.

(** ** An example *)

Definition gateway_example : gateway_settings := GatewaySettings example_settings "key" [] true true false false true true.
Fixpoint repeated (n : nat) (s : string) : string := match n with O => "" | S n => s ++ repeated n s end.
Definition example_wallet : string := "0x" ++ repeated 20 "aB".
Definition example_recover (message sig : string) : option string := Some example_wallet.
Definition example_date (t : datetime) : string := substring 0 10 (isoformat t).
Definition example_key : string := repeated 32 "1".
Definition example_secret : string := repeated 64 "2".
Definition example_token : string := runtime_token example_key example_secret.
Definition example_body (permissions : list string) : CreateRuntimeKeyBody :=
  CreateKeyBody example_wallet "b" ("0x" ++ repeated 65 "00") permissions (float_of_int 20) (float_of_int 50) 1000000000000
    "agent" None None.
Definition example_request (client_nonce nonce : string) : gateway_op :=
  RequestVoucher example_token client_nonce (example_voucher nonce) None.
Definition key_ops : list gateway_op :=
  [OtherRequest (LockUsdc None "b" f100 None); CreateKey (example_body ["request_voucher"]) example_key example_secret].

Abbreviation at_gateway P := (P gateway_example example_sum example_uid (fun _ => None) (fun _ => None) example_meta
  example_recover example_date (fun _ _ => false) (fun _ => "sig")).
Abbreviation gateway_at ops := (at_gateway gateway_run ops (empty_gateway 0)).

Lemma agents_are_authorised_witness : exists id secret r,
  speaks_for gateway_example example_token (gateway_at key_ops) id secret r /\ "request_voucher" ∈ rk_permissions r
  /\ rk_identity r = "b".
Proof.
  assert (run_outcome (session (at_gateway handler (example_request "nonce-01" "n1"))) (gateway_at key_ops) = Ret tt) as Hr
    by (vm_compute; reflexivity).
  destruct (at_gateway agents_are_authorised key_ops (example_request "nonce-01" "n1") example_token 0%Z eq_refl Hr)
    as (id & secret & r & b & secret0 & Hs & Hw & _). exists id, secret, r. exact (conj Hs (conj (proj1 Hw) (eq_sym (proj1 (proj2 Hw))))).
Defined.

Definition spend_ops : list gateway_op := key_ops ++ [example_request "nonce-01" "n1"; example_request "nonce-02" "n2"].
Lemma spend_ops_checked : Forall spends_checked spend_ops.
Proof. repeat (apply List.Forall_cons; [vm_compute; first [exact Logic.I|reflexivity]|]). apply List.Forall_nil. Qed.
Lemma daily_limit_holds_witness : exists x r,
  daily_spend (gateway_at spend_ops) !! (example_key, "1970-01-01") = Some x /\ x = float_of_int 20
  /\ fgtb x (rk_daily_limit r +. EPSILON) = false.
Proof.
  assert (daily_spend (gateway_at spend_ops) !! (example_key, "1970-01-01") = Some (float_of_int 20)) as Hd
    by (vm_compute; reflexivity).
  destruct (at_gateway daily_limit_holds spend_ops 0%Z eq_refl spend_ops_checked example_key "1970-01-01" (float_of_int 20) Hd)
    as (r & _ & Hf). exists (float_of_int 20), r. exact (conj Hd (conj eq_refl Hf)).
Defined.

Lemma nonce_refused_witness :
  is_ret (run_outcome (session (at_gateway handler (example_request "nonce-01" "n2")))
    (at_gateway gateway_run [Elapse 500000000] (at_gateway gateway_step (example_request "nonce-01" "n1") (gateway_at key_ops)))) = false.
Proof.
  assert (run_outcome (session (at_gateway handler (example_request "nonce-01" "n1"))) (gateway_at key_ops) = Ret tt) as Hr
    by (vm_compute; reflexivity).
  assert (monotonic (at_gateway gateway_run [Elapse 500000000]
    (at_gateway gateway_step (example_request "nonce-01" "n1") (gateway_at key_ops))) - monotonic (gateway_at key_ops)
    <= REPLAY_TTL)%Z as Ht by (vm_compute; discriminate).
  assert (length [Elapse 500000000] < REPLAY_MAX)%nat as Hl by (cbn; unfold REPLAY_MAX; lia).
  assert (Forall (fun op => restarts op = false) [Elapse 500000000]) as Hre by repeat constructor.
  exact (at_gateway nonce_refused key_ops (example_request "nonce-01" "n1") [Elapse 500000000] (example_request "nonce-01" "n2") 0%Z
    example_token "request-voucher" "nonce-01" Hr eq_refl eq_refl Hre Hl Ht).
Defined.

(** ** Tokens *)

Lemma lower_hex_char c : hex_char c = true -> lower_ascii c = c.
Proof. by destruct c as [[] [] [] [] [] [] [] []]. Qed.
Lemma lower_hex s : all_hex s = true -> py_lower s = s.
Proof. induction s as [|c s IH]; [done|]. cbn. intros [Hc Hs]%andb_true_iff. by rewrite lower_hex_char, IH. Qed.
Lemma partition_hex s r : all_hex s = true -> partition "_"%char (s ++ String "_" r) = Some (s, r).
Proof.
  induction s as [|c s IH]; [done|]. cbn [all_hex]. intros [Hc Hs]%andb_true_iff. specialize (IH Hs).
  change (partition "_"%char (String c (s ++ String "_" r)) = Some (String c s, r)). cbn [partition].
  destruct (Ascii.eqb_spec c "_"%char) as [->|]; [discriminate Hc|by rewrite IH].
Qed.
Lemma hex_not_space c : hex_char c = true -> Prelude.is_space c = false.
Proof. by destruct c as [[] [] [] [] [] [] [] []]. Qed.
Lemma rstrip_hex s : all_hex s = true -> py_rstrip s = s.
Proof.
  induction s as [|c s IH]; [done|]. cbn [all_hex py_rstrip]. intros [Hc Hs]%andb_true_iff.
  rewrite (IH Hs), (hex_not_space c Hc). by destruct s.
Qed.
Lemma rstrip_app p s : all_hex s = true -> s <> "" -> py_rstrip (p ++ s) = (p ++ s)%string.
Proof.
  intros Hs Hne. induction p as [|c p IH]; [by apply rstrip_hex|].
  change (py_rstrip (String c (p ++ s)) = String c (p ++ s)). cbn [py_rstrip]. rewrite IH. by destruct p, s.
Qed.

(** The token of a key parses back to the key's identifier and secret, 32 and 64
    hexadecimal digits as [token_hex] draws them. *)
Theorem token_roundtrip key_id secret s :
  String.length key_id = 32%nat -> all_hex key_id = true -> String.length secret = 64%nat -> all_hex secret = true ->
  run_outcome (parse_runtime_key_token (runtime_token key_id secret)) s = Ret (key_id, secret).
Proof.
  intros Hk1 Hk2 Hs1 Hs2. assert (py_strip (runtime_token key_id secret) = runtime_token key_id secret) as E.
  { unfold py_strip, runtime_token, PREFIX. change (py_lstrip ?t) with t.
    change ("KRM_RT_" ++ key_id ++ "_" ++ secret) with ("KRM_RT_" ++ (key_id ++ ("_" ++ secret)))%string.
    rewrite <- (str_app_assoc key_id), <- (str_app_assoc "KRM_RT_"). apply rstrip_app; [done|]. by intros ->. }
  assert (after_prefix PREFIX (runtime_token key_id secret) = Some (key_id ++ String "_" secret)%string) as Ea by done.
  unfold parse_runtime_key_token. rewrite E, Ea, (partition_hex _ _ Hk2). unfold hex_of_length.
  by rewrite Hk1, Hs1, !lower_hex, Hk2, Hs2 by done.
Qed.
Lemma token_roundtrip_witness : run_outcome (parse_runtime_key_token example_token) (gateway_at []) = Ret (example_key, example_secret).
Proof.
  exact (token_roundtrip example_key example_secret (gateway_at []) eq_refl eq_refl eq_refl eq_refl).
Defined.

(** ** Where the code does not do what it says *)

(** What a launch records is not compared with the limit of the key. *)
Lemma launch_exceeds_daily_limit :
  daily_spend (gateway_at (key_ops ++ [TradeLaunched "b" example_key (float_of_int 1000)])) !! (example_key, "1970-01-01")
  = Some (float_of_int 1000).
Proof. vm_compute. reflexivity. Qed.

(** A text that ends in a line feed passes for a path segment. *)
Lemma segment_with_line_feed : safe_segment ("task" ++ line_feed) = true.
Proof. reflexivity. Qed.

(** One signed text stands for two requests: a line feed in the name of the agent moves
    the binding. *)
Lemma one_text_two_requests identity wallet perms x y t :
  build_create_key_message identity wallet perms x y t ("a" ++ line_feed ++ "agent_binding:b") None
  = build_create_key_message identity wallet perms x y t "a" (Some ("b" ++ line_feed ++ "agent_binding:")).
Proof.
  unfold build_create_key_message, lines. cbn [join default]. do 2 (rewrite ?str_app_assoc; cbn [String.append]). reflexivity.
Qed.

(** With the routes protected, no caller is made up for the delegated request, so
    that no agent gets a voucher through the gateway. *)
Section Protected.
Context (cfg : gateway_settings) (sql_sum : list float -> float) (uid : nat -> string).
Context (verify_launch verify_buyer : CreateVoucherRequest -> option string).
Context (local_date : datetime -> string) (minted : string -> string -> bool).

Lemma protected_gateway_shut token nonce q fault s :
  ledger_require_party_actor (base cfg) = true -> auth_enforce_protected_routes (base cfg) = true ->
  auth_api_keys cfg = [] -> (forall id secret, minted id secret = false) ->
  is_ret (run_outcome (runtime_request_voucher cfg sql_sum uid verify_launch verify_buyer local_date minted token nonce q fault) s) = false.
Proof.
  intros H1 H2 H3 H4.
  assert (forall actor, delegate cfg minted actor = None) as Hd.
  { intros actor. unfold delegate, validate_api_key. destruct (parse_api_key _) as [[id secret]|]; [|done].
    destruct (agent_id_matches id); [|done]. cbn [negb]. rewrite H3, H4, H2. cbn. by destruct (auth_allow_dev_key_fallback cfg). }
  enough (triple (eq s) (runtime_request_voucher cfg sql_sum uid verify_launch verify_buyer local_date minted token nonce q fault)
    (fun _ _ => False)) as H.
  { unfold run_outcome. destruct (runtime_request_voucher _ _ _ _ _ _ _ _ _ _ _ _) as [s' [c|e]] eqn:E; [|done].
    destruct (H s s' c eq_refl E). }
  assert (forall q, triple (fun _ => True) (create_voucher (base cfg) sql_sum uid verify_launch verify_buyer None q) (fun _ _ => False)) as Hc.
  { intros q'. unfold create_voucher. do 2 (apply triple_frame; [done|intros _]).
    unfold require_ledger_identity, ledger_party_binding_active. rewrite H1, H2. cbn. apply triple_assoc. by intros w w' a _ Hr. }
  unfold runtime_request_voucher. apply triple_pre with (fun _ => True); [done|]. apply triple_frame; [done|]. intros [id r].
  do 4 (apply triple_frame; [done|intros _]). apply triple_get. intros s1 _. apply triple_frame; [done|intros _].
  rewrite Hd. apply triple_bind with (fun _ _ => False); [|by intros c s2 s3 a []].
  intros s2 s3 c _ Hr. unfold on_escrow in Hr. destruct (create_voucher _ _ _ _ _ _ _ _) as [w [c'|e]] eqn:E; [|done].
  exact (Hc _ _ _ _ Logic.I E).
Qed.
End Protected.
