(* ===== verification/Confirmations.v ===== *)
(** * Confirmation sessions

    [services/human_confirmation_policy.py]: which steps of a trade need the yes of an
    owner, and the sessions in which it is asked for, given, used up or lost.  The
    catalogue of scenes is a file of the repository and here a parameter; prompts, notes
    and the context of a session, of which only the amount is read, are left out, as is
    [task_type_to_scene_id].  The sessions live in a dict of the process and in a file.
    A write that fails raises; on a full disk it leaves a file that no longer parses,
    from which a process that starts loads no session. *)

From S2P Require Import Prelude PyBytes PyJson PyDatetime PyFloat PyHoare PyStore.
#[local] Open Scope string_scope.
#[local] Open Scope py_scope.

(** ** Gates *)

Record scene := Scene {
  sc_buyer : list (string * string);
  sc_seller : list (string * string);
  sc_high_risk : bool
}.
Record catalog := Catalog {
  scenes : list (string * scene);
  default_buyer : list (string * string);
  default_seller : list (string * string)
}.

Record gate := Gate { g_mode : string; g_effective : string; needs_owner : bool }.

Inductive confirmation_error : Type := PolicyError (message : string) | OSError.

(** ** Sessions *)

Inductive session_status : Type := PENDING | CONFIRMED | REJECTED | USED | EXPIRED | CANCELLED.
#[export] Instance session_status_eq_dec : EqDecision session_status.
Proof. solve_decision. Defined.
Definition session_status_value (s : session_status) : string :=
  match s with
  | PENDING => "PENDING" | CONFIRMED => "CONFIRMED" | REJECTED => "REJECTED"
  | USED => "USED" | EXPIRED => "EXPIRED" | CANCELLED => "CANCELLED"
  end.

Record ConfirmationSession := Session {
  s_scene : string;
  s_role : string;
  s_step : string;
  s_owner : string;
  s_status : session_status;
  s_created : datetime;
  s_expires : option datetime;
  s_decided : option datetime;
  s_ref : option string;
  s_max_amount : option float;
  s_cancel_reason : option string
}.
Definition with_status (st : session_status) (x : ConfirmationSession) : ConfirmationSession :=
  Session (s_scene x) (s_role x) (s_step x) (s_owner x) st (s_created x) (s_expires x) (s_decided x) (s_ref x)
    (s_max_amount x) (s_cancel_reason x).
(** [decided_at] assigned, or kept when it is set. *)
Definition decided (at_ : datetime) (st : session_status) (x : ConfirmationSession) : ConfirmationSession :=
  Session (s_scene x) (s_role x) (s_step x) (s_owner x) st (s_created x) (s_expires x) (Some at_) (s_ref x)
    (s_max_amount x) (s_cancel_reason x).
Definition closed_at (at_ : datetime) (st : session_status) (x : ConfirmationSession) : ConfirmationSession :=
  decided (default at_ (s_decided x)) st x.
Definition cancelled (reason : string) (at_ : datetime) (x : ConfirmationSession) : ConfirmationSession :=
  let x := closed_at at_ CANCELLED x in
  Session (s_scene x) (s_role x) (s_step x) (s_owner x) (s_status x) (s_created x) (s_expires x) (s_decided x) (s_ref x)
    (s_max_amount x) (Some reason).

Abbreviation dict := (list (string * ConfirmationSession)).
Abbreviation confirmations := (store ConfirmationSession).
Abbreviation MC := (M confirmations confirmation_error).

Definition SESSION_TTL_SECONDS : Z := 30 * 60.
Definition refuse {A} (message : string) : MC A := py_raise (PolicyError message).
Definition check (b : bool) (message : string) : MC unit := py_require b (PolicyError message).

Definition ensure_sessions_loaded : MC unit := ensure_loaded.
Definition persist_sessions : MC unit := persist OSError.
Definition reset_confirmation_sessions : MC unit := clear OSError.
Definition find_session (id : string) : MC ConfirmationSession :=
  lookup_or (PolicyError ("unknown confirmation session: " ++ id)) id.
Definition put_session (id : string) (x : ConfirmationSession) : MC unit := put id x.

Definition past_ttl (at_ : datetime) (x : ConfirmationSession) : bool :=
  mem (s_status x) [PENDING; CONFIRMED]
    && (default (s_created x + SESSION_TTL_SECONDS * US_PER_SECOND) (s_expires x) <? at_)%Z.
Definition expire (at_ : datetime) (x : ConfirmationSession) : ConfirmationSession :=
  if past_ttl at_ x then with_status EXPIRED x else x.
Definition is_expired (x : ConfirmationSession) : bool := bool_decide (s_status x = EXPIRED).
(** [_expire_if_needed_unlocked], with the session as it leaves it. *)
Definition expire_if_needed (id : string) (x : ConfirmationSession) : MC ConfirmationSession :=
  let! s := py_get in
  let x' := expire (now s) x in
  py_when (past_ttl (now s) x) (put_session id x') ;;;
  py_ret x'.

Section Policy.
Context (cat : catalog).
(** [secrets.token_hex(12)] *)
Context (token_hex : nat -> string).

Definition get_scene (scene_id : string) : option scene := assoc scene_id (scenes cat).
Definition is_high_risk_scene (scene_id : string) : bool :=
  match get_scene scene_id with Some sc => sc_high_risk sc | None => false end.
Definition MULTI_STEP_BUYER_SCENES : list string :=
  ["b2b_procurement"; "manufacturing"; "financial_services"; "healthcare_medical"; "software_development";
   "design_creative"; "consulting_advisory"; "real_estate_services"; "hotel_booking"; "flight_booking"].
Definition buyer_fulfill_confirm_steps (scene_id : string) : list string :=
  if str_mem scene_id MULTI_STEP_BUYER_SCENES || is_high_risk_scene scene_id
  then ["select_offer"; "accept_order"] else ["accept_order"].

(** [m.get(k)] where an empty text counts as missing. *)
Definition mode_in (k : string) (m : list (string * string)) : option string :=
  match assoc k m with Some v => if str_eqb v "" then None else Some v | None => None end.
Definition gate_mode (scene_id role step : string) : string :=
  let buyer := str_eqb role "buyer" in
  let defaults := if buyer then default_buyer cat else default_seller cat in
  let own := match get_scene scene_id with Some sc => if buyer then sc_buyer sc else sc_seller sc | None => defaults end in
  match mode_in step own with
  | Some m => m
  | None => default "OWNER_CONFIRM" (mode_in step defaults)
  end.
Definition gate_of (mode : string) (policy_auto_allowed : bool) : gate :=
  if str_eqb mode "AUTO" then Gate mode mode false
  else if str_eqb mode "POLICY_AUTO" && policy_auto_allowed then Gate mode "AUTO" false
  else Gate mode "OWNER_CONFIRM" true.
Definition resolve_gate (scene_id role step : string) (policy_auto_allowed : bool) : MC gate :=
  let role := py_strip (py_lower role) in
  check (str_mem role ["buyer"; "seller"]) "role must be buyer or seller" ;;;
  py_ret (gate_of (gate_mode scene_id role step) policy_auto_allowed).
Definition seller_must_confirm_accept (scene_id : string) : MC bool :=
  let! g := resolve_gate scene_id "seller" "accept_order" false in
  py_ret (str_eqb (g_mode g) "OWNER_CONFIRM").

(** ** Operations *)

Record create_args := CreateArgs {
  ca_scene : string;
  ca_role : string;
  ca_step : string;
  ca_owner : string;
  ca_amount : option float;
  ca_ref : option string;
  ca_policy_auto : bool;
  ca_ttl : option Z
}.
Definition ttl_of (a : create_args) : Z := Z.max 60 (Z.min (default SESSION_TTL_SECONDS (ca_ttl a)) (7 * 24 * 3600)).
Definition new_session (a : create_args) (at_ : datetime) : ConfirmationSession :=
  Session (ca_scene a) (py_lower (ca_role a)) (ca_step a) (ca_owner a) PENDING (drop_microsecond at_)
    (Some (drop_microsecond (at_ + ttl_of a * US_PER_SECOND)%Z)) None (ca_ref a) (ca_amount a) None.
Definition session_id (n : nat) : string := "cfm_" ++ token_hex n.

(** [None] when the step is automatic. *)
Definition create_confirmation_session (a : create_args) : MC (option (string * ConfirmationSession)) :=
  check (bool_decide (is_Some (get_scene (ca_scene a)))) ("unknown confirmation scene_id: " ++ ca_scene a) ;;;
  let! g := resolve_gate (ca_scene a) (ca_role a) (ca_step a) (ca_policy_auto a) in
  if negb (needs_owner g) then py_ret None
  else
    let! s := py_get in
    let id := session_id (drawn s) in
    let x := new_session a (now s) in
    py_modify draw ;;;
    ensure_sessions_loaded ;;;
    put_session id x ;;;
    persist_sessions ;;;
    py_ret (Some (id, x)).

Definition get_confirmation_session (id : string) : MC ConfirmationSession :=
  ensure_sessions_loaded ;;;
  let! x := find_session id in
  let! x := expire_if_needed id x in
  py_when (is_expired x) persist_sessions ;;;
  py_ret x.

(** The loop over the sessions stops when it has [limit] of them, also right after the
    first it looks at. *)
Fixpoint pending_accepts (limit : nat) (out : list string) (todo : dict) : MC (list string) :=
  match todo with
  | [] => py_ret out
  | (id, x) :: r =>
      if negb (str_eqb (s_role x) "seller" && str_eqb (s_step x) "accept_order")
         || negb (mem (s_status x) [PENDING; EXPIRED])
      then pending_accepts limit out r
      else
        let! x := expire_if_needed id x in
        let out := if mem (s_status x) [PENDING; EXPIRED] then (out ++ [id])%list else out in
        if (limit <=? length out)%nat then py_ret out else pending_accepts limit out r
  end.
Definition list_pending_seller_accept_sessions (limit : nat) : MC (list string) :=
  ensure_sessions_loaded ;;;
  let! s := py_get in
  let! out := pending_accepts limit [] (live s) in
  persist_sessions ;;;
  py_ret out.

Definition mark_session_expired_cancelled (id reason : string) : MC ConfirmationSession :=
  ensure_sessions_loaded ;;;
  let! x := find_session id in
  let! x := expire_if_needed id x in
  check (mem (s_status x) [EXPIRED; CANCELLED; PENDING])
    ("session status " ++ session_status_value (s_status x) ++ " cannot mark timeout cancel") ;;;
  let! s := py_get in
  let x := cancelled reason (drop_microsecond (now s)) x in
  put_session id x ;;;
  persist_sessions ;;;
  py_ret x.

Definition decide_confirmation_session (id : string) (confirm : bool) (actor : option string) : MC ConfirmationSession :=
  check (truthy_str actor && negb (str_eqb (py_strip (default "" actor)) ""))
    "actor_agent_id is required to decide a confirmation session" ;;;
  ensure_sessions_loaded ;;;
  let! x := find_session id in
  let! x := expire_if_needed id x in
  (if is_expired x then persist_sessions ;;; refuse "confirmation session EXPIRED" else py_ret tt) ;;;
  check (bool_decide (s_status x = PENDING)) ("session already " ++ session_status_value (s_status x)) ;;;
  check (bool_decide (actor = Some (s_owner x))) "only the owner_agent_id may decide this session" ;;;
  let! s := py_get in
  let x := decided (drop_microsecond (now s)) (if confirm then CONFIRMED else REJECTED) x in
  put_session id x ;;;
  persist_sessions ;;;
  py_ret x.

Record step_args := StepArgs {
  sa_scene : string;
  sa_role : string;
  sa_step : string;
  sa_session : option string;
  sa_policy_auto : bool;
  sa_owner : option string;
  sa_amount : option float;
  sa_consume : bool;
  sa_ref : option string
}.
Inductive allowed : Type := Automatic | OwnerConfirmed (id : string) (x : ConfirmationSession).
Definition AMOUNT_TOLERANCE : float := float_of_ratio 1 1000000.

Definition assert_step_allowed (a : step_args) : MC allowed :=
  ensure_sessions_loaded ;;;
  let! g := resolve_gate (sa_scene a) (sa_role a) (sa_step a) (sa_policy_auto a) in
  if negb (needs_owner g) then py_ret Automatic
  else if negb (truthy_str (sa_session a)) then refuse ("step " ++ sa_step a ++ " requires owner confirmation session")
  else
    let id := default "" (sa_session a) in
    let! x := find_session id in
    let! x := expire_if_needed id x in
    (if is_expired x then persist_sessions ;;; refuse "confirmation session EXPIRED" else py_ret tt) ;;;
    check (bool_decide (s_status x = CONFIRMED)) ("confirmation session status is " ++ session_status_value (s_status x)) ;;;
    check (str_eqb (s_scene x) (sa_scene a) && str_eqb (s_step x) (sa_step a) && str_eqb (s_role x) (py_lower (sa_role a)))
      "confirmation session does not match scene/role/step" ;;;
    check (negb (truthy_str (sa_owner a)) || bool_decide (sa_owner a = Some (s_owner x)))
      "confirmation session owner does not match buyer" ;;;
    check (negb (truthy_str (sa_ref a) && truthy_str (s_ref x)) || bool_decide (s_ref x = sa_ref a))
      "confirmation session interaction_ref mismatch" ;;;
    check (match sa_amount a, s_max_amount x with
           | Some m, Some limit => negb (fgtb m (fadd limit AMOUNT_TOLERANCE))
           | _, _ => true
           end) "amount exceeds confirmed max_amount" ;;;
    let! s := py_get in
    let x := if sa_consume a then closed_at (drop_microsecond (now s)) USED x else x in
    py_when (sa_consume a) (put_session id x ;;; persist_sessions) ;;;
    py_ret (OwnerConfirmed id x).

(** Whether a session covers the step. *)
Definition covers (scene_id role step owner : string) (interaction : option string) (x : ConfirmationSession) : bool :=
  str_eqb (s_scene x) scene_id && str_eqb (s_role x) (py_lower role) && str_eqb (s_step x) step
    && str_eqb (s_owner x) owner && bool_decide (s_status x = USED)
    && negb (truthy_str interaction && truthy_str (s_ref x) && negb (bool_decide (s_ref x = interaction))).
(** The loop over the sessions, expiring those it passes. *)
Fixpoint satisfied_by (f : ConfirmationSession -> bool) (todo : dict) : MC bool :=
  match todo with
  | [] => py_ret false
  | (id, x) :: r =>
      let! x := expire_if_needed id x in
      if negb (is_expired x) && f x then py_ret true else satisfied_by f r
  end.
Definition step_already_satisfied (scene_id role step owner : string) (interaction : option string)
    (policy_auto_allowed : bool) : MC bool :=
  let! g := resolve_gate scene_id role step policy_auto_allowed in
  if negb (needs_owner g) then py_ret true
  else
    ensure_sessions_loaded ;;;
    let! s := py_get in
    satisfied_by (covers scene_id role step owner interaction) (live s).
Fixpoint next_required_confirm_step (scene_id role : string) (steps : list string) (owner : string)
    (interaction : option string) (policy_auto_allowed : bool) : MC (option string) :=
  match steps with
  | [] => py_ret None
  | step :: r =>
      let! ok := step_already_satisfied scene_id role step owner interaction policy_auto_allowed in
      if ok then next_required_confirm_step scene_id role r owner interaction policy_auto_allowed
      else py_ret (Some step)
  end.

(** ** Runs *)

Inductive confirmation_op : Type :=
| CreateSession (a : create_args)
| GetSession (id : string)
| ListPending (limit : nat)
| CancelExpired (id reason : string)
| Decide (id : string) (confirm : bool) (actor : option string)
| AssertStep (a : step_args)
| NextStep (scene_id role : string) (steps : list string) (owner : string) (interaction : option string) (auto : bool)
| Reset
| Restart
| Disk (d : disk_state)
| Pass (us : N).

Definition ignore {A} (m : MC A) : MC unit := m ;;; py_ret tt.
Definition perform (op : confirmation_op) : MC unit :=
  match op with
  | CreateSession a => ignore (create_confirmation_session a)
  | GetSession id => ignore (get_confirmation_session id)
  | ListPending limit => ignore (list_pending_seller_accept_sessions limit)
  | CancelExpired id reason => ignore (mark_session_expired_cancelled id reason)
  | Decide id confirm actor => ignore (decide_confirmation_session id confirm actor)
  | AssertStep a => ignore (assert_step_allowed a)
  | NextStep scene_id role steps owner interaction auto =>
      ignore (next_required_confirm_step scene_id role steps owner interaction auto)
  | Reset => reset_confirmation_sessions
  | Restart => py_modify restart
  | Disk d => py_modify (disk_becomes d)
  | Pass us => py_modify (pass us)
  end.
Definition perform_all (ops : list confirmation_op) (s : confirmations) : confirmations :=
  fold_left (fun s op => run_state (perform op) s) ops s.
Definition no_confirmations (t : datetime) : confirmations := empty_store t.
End Policy.
