(* ===== verification/ConfirmationRuns.v ===== *)
(** * Confirmation sessions: runs

    What holds in every sequence of requests for confirmation, restarts of the process
    and failing disks: a session is made by one request, decided by its owner, used
    once, and a yes that was given and kept in time lets the step pass. *)

From S2P Require Import Prelude PyBytes PyJson PyDatetime PyFloat PyHoare PyStore Confirmations.
#[local] Open Scope string_scope.
#[local] Open Scope py_scope.

(** ** What happens to a session *)

Section Policy.
Context (cat : catalog) (token_hex : nat -> string).
Abbreviation step := (perform cat token_hex).
Abbreviation run := (perform_all cat token_hex).
Abbreviation id_of := (session_id token_hex).

Inductive change (o : confirmation_op) : string -> ConfirmationSession -> ConfirmationSession -> Prop :=
| change_expire k x t : change o k x (expire t x)
| change_decide k x t confirm : o = Decide k confirm (Some (s_owner x)) -> s_status x = PENDING ->
    change o k x (decided t (if confirm then CONFIRMED else REJECTED) x)
| change_use k x t a : o = AssertStep a -> s_status x = CONFIRMED -> change o k x (closed_at t USED x)
| change_cancel k x t reason : o = CancelExpired k reason -> s_status x ∈ [EXPIRED; CANCELLED; PENDING] ->
    change o k x (cancelled reason t x).

Lemma resolve_pure scene_id role st auto s : (resolve_gate cat scene_id role st auto s).1 = s.
Proof. unfold resolve_gate, check, py_require, py_bind. by destruct (str_mem _ _). Qed.


Section Kept.
Context (o : confirmation_op) (P : string -> ConfirmationSession -> Prop) (I : confirmations -> Prop) `{!store_inv P I}.
Hypothesis P_change : forall k x x', P k x -> change o k x x' -> P k x'.
Abbreviation kept := (keeps I).

Lemma kept_expire {A} id x (k : ConfirmationSession -> MC A) : P id x -> (forall y, P id y -> kept (k y)) ->
  kept (py_bind (expire_if_needed id x) k).
Proof.
  intros Hx Hk s Hs. assert (P id (expire (now s) x)) as Hy by (eapply P_change; [exact Hx|apply change_expire]).
  unfold expire_if_needed, run_state, py_when. unfold py_bind at 1 2 3. cbn. destruct (past_ttl (now s) x).
  - apply (Hk _ Hy). exact (kept_put (E := confirmation_error) (P := P) id _ Hy s Hs).
  - by apply (Hk _ Hy).
Qed.
Lemma kept_resolve scene_id role st auto : kept (resolve_gate cat scene_id role st auto).
Proof. apply kept_pure. intros s. apply resolve_pure. Qed.
Lemma kept_ignore {A} (m : MC A) : kept m -> kept (ignore m).
Proof. intros H. apply keeps_bind; [done|]. intros a. apply keeps_ret. Qed.

Local Ltac along :=
  repeat first
    [ progress intros
    | lazymatch goal with
      | |- keeps _ (py_bind (find_session _) _) => by_store kept_lookup
      | |- keeps _ (py_bind (expire_if_needed _ _) _) => apply kept_expire; [done|]
      | |- keeps _ (py_bind (check _ _) _) => apply kept_check
      | |- keeps _ (py_bind py_get _) => apply keeps_read; intros ? ?
      | |- keeps _ (py_bind _ _) => apply keeps_bind
      | |- keeps _ (py_when _ _) => apply keeps_when
      | |- keeps _ ensure_sessions_loaded => by_store kept_load
      | |- keeps _ persist_sessions => by_store kept_persist
      | |- keeps _ (resolve_gate _ _ _ _ _) => apply kept_resolve
      | |- keeps _ (put_session _ _) => by_store kept_put
      | |- keeps _ (check _ _) => apply keeps_require
      | |- keeps _ (refuse _) => apply keeps_raise
      | |- keeps _ (match ?x with _ => _ end) => destruct x eqn:?
      end
    | solve [eauto with keeps] ].
(** A session read from memory satisfies [P] still after what came before. *)
Lemma kept_walk_pending limit out todo : (forall id x, (id, x) ∈ todo -> P id x) -> kept (pending_accepts limit out todo).
Proof.
  revert out. induction todo as [|[id x] todo IH]; intros out H; cbn [pending_accepts]; [apply keeps_ret|].
  assert (P id x) by (apply H; by left). destruct (_ || _); [apply IH; intros; apply H; by right|]. apply kept_expire; [done|].
  intros y _. destruct (_ <=? _)%nat; [apply keeps_ret|]. apply IH. intros; apply H; by right.
Qed.
Lemma kept_walk_satisfied f todo : (forall id x, (id, x) ∈ todo -> P id x) -> kept (satisfied_by f todo).
Proof.
  induction todo as [|[id x] todo IH]; intros H; cbn [satisfied_by]; [apply keeps_ret|].
  apply kept_expire; [apply H; by left|]. intros y _. destruct (_ && _); [apply keeps_ret|]. apply IH. intros; apply H; by right.
Qed.
Lemma kept_satisfied scene_id role st owner ref auto : kept (step_already_satisfied cat scene_id role st owner ref auto).
Proof.
  unfold step_already_satisfied. along. apply kept_walk_satisfied. intros id x Hin. by eapply inv_entry.
Qed.
Lemma kept_next scene_id role steps owner ref auto : kept (next_required_confirm_step cat scene_id role steps owner ref auto).
Proof.
  induction steps as [|st steps IH]; cbn [next_required_confirm_step]; [apply keeps_ret|].
  apply keeps_bind; [apply kept_satisfied|]. by intros [|]; [|apply keeps_ret].
Qed.
(** A new session: the request changes nothing, or draws an identifier and stores it. *)
Lemma create_outcome c s (m := create_confirmation_session cat token_hex c) :
  run_state m s = s
  \/ run_state m s = run_state (ensure_sessions_loaded ;;; put_session (id_of (drawn s)) (new_session c (now s)) ;;;
                                persist_sessions) (draw s).
Proof.
  subst m. unfold run_state, create_confirmation_session, check, py_require. destruct (bool_decide _); [|by left].
  change (py_bind (py_ret tt) ?k s) with (k tt s). cbv beta. rewrite bind_pure by apply resolve_pure.
  destruct (resolve_gate _ _ _ _ _ s).2 as [g|e]; [|by left]. destruct (negb _); [by left|right].
  destruct s as [l [] f [] t i]; reflexivity.
Qed.
Lemma kept_create c s (m := create_confirmation_session cat token_hex c) :
  (drawn (run_state m s) = S (drawn s) -> P (id_of (drawn s)) (new_session c (now s))) ->
  I s -> I (run_state m s).
Proof.
  intros Hnew Hs. destruct (create_outcome c s) as [H|H]; fold m in H; rewrite H in *; [done|].
  assert (keeps (fun x => drawn x = S (drawn s)) (ensure_sessions_loaded ;;; put_session (id_of (drawn s)) (new_session c (now s)) ;;; persist_sessions)) as Hd.
  { apply keeps_bind; [apply keeps_modify; intros x; unfold memory; by destruct (loaded x)|intros _]. apply keeps_bind; [by apply keeps_modify|intros _].
    unfold persist_sessions, persist. keep; by apply keeps_modify. }
  specialize (Hd (draw s) eq_refl).
  assert (kept (ensure_sessions_loaded ;;; put_session (id_of (drawn s)) (new_session c (now s)) ;;; persist_sessions)) as Hk.
  { along. }
  apply Hk. by apply (inv_draw (P := P)).
Qed.

(** A session a change of which the request makes. *)
Lemma changed id x x' : P id x -> change o id x x' -> P id x'.
Proof. apply P_change. Qed.
Lemma kept_list limit : kept (list_pending_seller_accept_sessions limit).
Proof.
  unfold list_pending_seller_accept_sessions. along. apply kept_walk_pending. intros id x Hin. by eapply inv_entry.
Qed.
(** The requests that neither empty the memory nor remove the file. *)
Definition lasting (op : confirmation_op) : Prop := match op with Reset | Restart => False | _ => True end.
Lemma perform_keeps_inv op s : o = op -> lasting op ->
  (forall c, op = CreateSession c -> drawn (run_state (step op) s) = S (drawn s) -> P (id_of (drawn s)) (new_session c (now s))) ->
  I s -> I (run_state (step op) s).
Proof.
  intros Ho Hl Hnew Hs. destruct op; try done; [|clear Hnew; revert s Hs; cbn [perform]..].
  - assert (forall x, run_state (step (CreateSession a)) x = run_state (create_confirmation_session cat token_hex a) x) as He.
    { intros x. cbn [perform]. unfold ignore, run_state, py_bind. by destruct (create_confirmation_session _ _ _ _) as [? []]. }
    rewrite He in *. apply kept_create; [by apply Hnew|done].
  - apply kept_ignore. unfold get_confirmation_session. along.
  - apply kept_ignore, kept_list.
  - apply kept_ignore. unfold mark_session_expired_cancelled. along.
    apply (changed _ y); [done|]. apply (change_cancel _ _ _ _ reason); [done|]. by apply mem_true.
  - apply kept_ignore. unfold decide_confirmation_session. along. apply (changed _ y); [done|].
    repeat match goal with H : bool_decide _ = true |- _ => apply bool_decide_eq_true in H end. subst. by apply change_decide.
  - apply kept_ignore. unfold assert_step_allowed. along.
    destruct (sa_consume a); [|done]. apply (changed _ y); [done|]. apply (change_use _ _ _ _ a); [done|by eapply bool_decide_eq_true].
  - apply kept_ignore, kept_next.
  - by_store kept_disk.
  - by_store kept_pass.
Qed.
End Kept.
Lemma perform_keeps o P n s : (forall k x x', P k x -> change o k x x' -> P k x') ->
  (forall c, o = CreateSession c -> drawn (run_state (step o) s) = S (drawn s) -> P (id_of (drawn s)) (new_session c (now s))) ->
  everywhere P n s -> everywhere P n (run_state (step o) s).
Proof.
  intros Hc Hnew Hs. destruct o; try by apply (perform_keeps_inv _ P _ Hc _ s eq_refl I Hnew).
  - by apply kept_clear.
  - by apply kept_restart.
Qed.

(** ** A step that passes *)

(** What the request says of the session. *)
Definition fits (a : step_args) (x : ConfirmationSession) : Prop :=
  s_scene x = sa_scene a /\ s_step x = sa_step a /\ s_role x = py_lower (sa_role a)
  /\ (forall owner, sa_owner a = Some owner -> owner <> "" -> s_owner x = owner)
  /\ (forall ref ref', sa_ref a = Some ref -> ref <> "" -> s_ref x = Some ref' -> ref' <> "" -> ref' = ref)
  /\ (forall m limit, sa_amount a = Some m -> s_max_amount x = Some limit -> fgtb m (fadd limit AMOUNT_TOLERANCE) = false).

Lemma bind_check {B} c message (k : unit -> MC B) s s' b : py_bind (check c message) k s = (s', Ret b) ->
  c = true /\ k tt s = (s', Ret b).
Proof. destruct c; [done|discriminate]. Qed.
Lemma expire_live id x s s' y : expire_if_needed id x s = (s', Ret y) ->
  (past_ttl (now s) x = false /\ s' = s /\ y = x) \/ s_status y = EXPIRED.
Proof.
  unfold expire_if_needed, expire, py_when, py_bind. cbn. destruct (past_ttl _ _); intros [= <- <-]; [by right|by left].
Qed.
Lemma truthy_str_some (o : option string) v : o = Some v -> v <> "" -> truthy_str o = true.
Proof. intros -> H. cbn. apply negb_true_iff. unfold str_eqb. by apply bool_decide_eq_false. Qed.

Lemma fits_checks a x :
  str_eqb (s_scene x) (sa_scene a) && str_eqb (s_step x) (sa_step a) && str_eqb (s_role x) (py_lower (sa_role a)) = true ->
  negb (truthy_str (sa_owner a)) || bool_decide (sa_owner a = Some (s_owner x)) = true ->
  negb (truthy_str (sa_ref a) && truthy_str (s_ref x)) || bool_decide (s_ref x = sa_ref a) = true ->
  match sa_amount a, s_max_amount x with
  | Some m, Some limit => negb (fgtb m (fadd limit AMOUNT_TOLERANCE))
  | _, _ => true
  end = true -> fits a x.
Proof.
  unfold str_eqb. intros [[H1%bool_decide_eq_true H2%bool_decide_eq_true]%andb_true_iff H3%bool_decide_eq_true]%andb_true_iff Ho Hr Ha.
  split_and!; try done.
  - intros owner E Hn. rewrite (truthy_str_some _ _ E Hn) in Ho. apply bool_decide_eq_true in Ho. congruence.
  - intros ref ref' E Hn E' Hn'. rewrite (truthy_str_some _ _ E Hn), (truthy_str_some _ _ E' Hn') in Hr.
    apply bool_decide_eq_true in Hr. congruence.
  - intros m limit E E'. rewrite E, E' in Ha. by apply negb_true_iff.
Qed.

Lemma truthy_str_inv o : truthy_str o = true -> exists v, o = Some v /\ v <> "".
Proof. destruct o as [v|]; [|done]. cbn. rewrite negb_true_iff. unfold str_eqb. rewrite bool_decide_eq_false. by exists v. Qed.
Lemma checks_fit a x : fits a x ->
  str_eqb (s_scene x) (sa_scene a) && str_eqb (s_step x) (sa_step a) && str_eqb (s_role x) (py_lower (sa_role a)) = true
  /\ negb (truthy_str (sa_owner a)) || bool_decide (sa_owner a = Some (s_owner x)) = true
  /\ negb (truthy_str (sa_ref a) && truthy_str (s_ref x)) || bool_decide (s_ref x = sa_ref a) = true
  /\ match sa_amount a, s_max_amount x with
     | Some m, Some limit => negb (fgtb m (fadd limit AMOUNT_TOLERANCE))
     | _, _ => true
     end = true.
Proof.
  intros (F1 & F2 & F3 & F4 & F5 & F6). unfold str_eqb. rewrite !andb_true_iff, !bool_decide_eq_true. split; [done|]. split_and!.
  - destruct (truthy_str (sa_owner a)) eqn:E; [|done]. apply truthy_str_inv in E as (v & E & Hv). cbn. apply bool_decide_eq_true.
    rewrite E. f_equal. symmetry. by apply F4.
  - destruct (truthy_str (sa_ref a)) eqn:E; [|done]. destruct (truthy_str (s_ref x)) eqn:E'; [|done]. cbn. apply bool_decide_eq_true.
    apply truthy_str_inv in E as (v & E & Hv), E' as (v' & E' & Hv'). rewrite E, E'. f_equal. by apply F5.
  - destruct (sa_amount a) as [m|]; [|done]. destruct (s_max_amount x) as [l|]; [|done]. by rewrite (F6 m l).
Qed.
Lemma assert_confirmed a s s' id x : assert_step_allowed cat a s = (s', Ret (OwnerConfirmed id x)) ->
  exists y, sa_session a = Some id /\ dict_get id (live (memory s)) = Some y /\ s_status y = CONFIRMED /\ past_ttl (now s) y = false
    /\ fits a y
    /\ if sa_consume a then
         let used := dict_set id x (live (memory s)) in
         x = closed_at (drop_microsecond (now s)) USED y /\ s' = set_file (Some used) (set_live used (memory s))
       else x = y /\ s' = memory s.
Proof.
  intros (u & s1 & [= <- <-] & H)%bind_ret. destruct (memory_facts s) as (_ & _ & Ht & _).
  apply bind_ret in H as (g & s2 & Hg & H). pose proof (resolve_pure (sa_scene a) (sa_role a) (sa_step a) (sa_policy_auto a) (memory s)) as Hp.
  rewrite Hg in Hp. cbn [fst] in Hp. subst s2. destruct (negb (needs_owner g)); [done|].
  clear Hg. revert H Ht. generalize (memory s) as w. intros w H Ht.
  destruct (sa_session a) as [id'|] eqn:Es; [|done]. change (default "" (Some id')) with id' in H. destruct (negb _); [done|].
  apply bind_ret in H as (y & s2 & Hf & H). unfold find_session, lookup_or in Hf. change (py_bind py_get ?k ?x) with (k x x) in Hf. cbv beta in Hf.
  destruct (dict_get id' _) as [y'|] eqn:Ey; [|done]. injection Hf as <- <-.
  apply bind_ret in H as (y1 & s3 & He & H). apply bind_ret in H as (u2 & s4 & Hx & H).
  apply expire_live in He as [(Hpast & -> & ->)|He].
  2:{ unfold is_expired in Hx. rewrite bool_decide_true in Hx by done. apply bind_ret in Hx as (? & ? & _ & ?). done. }
  destruct (is_expired y'); [apply bind_ret in Hx as (? & ? & _ & ?); done|]. injection Hx as <- <-.
  repeat (apply bind_check in H as [? H]). apply bind_ret in H as (s5 & s6 & [= <- <-] & H).
  apply bind_ret in H as (u3 & s7 & Hc & H). injection H as -> <- <-. exists y'. rewrite Ht in *.
  split; [done|]. split; [done|]. split; [by eapply bool_decide_eq_true|]. split; [done|]. split; [by apply fits_checks|].
  destruct (sa_consume a); [split; [done|]|by injection Hc as <-].
  unfold put_session, persist_sessions, put, persist, py_bind in Hc. cbn in Hc. destruct (disk w); [|done|done]. by injection Hc as <-.
Qed.
(** ** Where sessions come from *)

Lemma sessions_run_app ops1 ops2 s : run (ops1 ++ ops2) s = run ops2 (run ops1 s).
Proof. apply fold_left_app. Qed.
Lemma run_snoc ops o s : run (ops ++ [o]) s = run_state (step o) (run ops s).
Proof. apply sessions_run_app. Qed.
Definition sound : confirmations -> Prop := everywhere (fun _ _ => True) 0.
Lemma step_sound o s : sound s -> sound (run_state (step o) s) /\ drawn s <= drawn (run_state (step o) s).
Proof.
  intros Hs. assert (everywhere (fun _ _ => True) (drawn s) s) as H by (by destruct Hs; split).
  split; [by apply perform_keeps|]. eapply drawn_so_far, perform_keeps; [..|exact H]; done.
Qed.
Lemma run_sound t ops : sound (run ops (no_confirmations t)).
Proof.
  induction ops as [|o ops IH] using rev_ind; [|rewrite run_snoc; by apply step_sound].
  by split; cbn; try apply NoDup_nil_2.
Qed.
Lemma drawn_snoc t o ops : drawn (run ops (no_confirmations t)) <= drawn (run (ops ++ [o]) (no_confirmations t)).
Proof. rewrite run_snoc. apply step_sound, run_sound. Qed.

(** The fields of a session that no request changes. *)
Definition same_request (x y : ConfirmationSession) : Prop :=
  s_scene y = s_scene x /\ s_role y = s_role x /\ s_step y = s_step x /\ s_owner y = s_owner x /\ s_created y = s_created x
  /\ s_expires y = s_expires x /\ s_ref y = s_ref x /\ s_max_amount y = s_max_amount x.
(** The request that made the session, and the yes of its owner since. *)
Definition asked (t : datetime) (ops : list confirmation_op) (id : string) (x : ConfirmationSession) : Prop :=
  exists ops1 c ops2, ops = (ops1 ++ CreateSession c :: ops2)%list
    /\ let s1 := run ops1 (no_confirmations t) in
       id = id_of (drawn s1) /\ drawn s1 < drawn (run ops (no_confirmations t)) /\ same_request (new_session c (now s1)) x
       /\ (s_status x ∈ [CONFIRMED; USED] -> Decide id true (Some (s_owner x)) ∈ ops2).

Lemma expire_same t x : same_request x (expire t x) /\ (s_status (expire t x) = EXPIRED \/ expire t x = x).
Proof. unfold expire. destruct (past_ttl t x); split; (by left) || (by right) || done. Qed.
Lemma change_same o id x x' : change o id x x' -> same_request x x'.
Proof. intros []; [apply expire_same|done..]. Qed.
Lemma change_yes o id x x' : change o id x x' -> s_status x' ∈ [CONFIRMED; USED] ->
  s_status x ∈ [CONFIRMED; USED] \/ o = Decide id true (Some (s_owner x)).
Proof.
  intros [k y t|k y t [] -> _|k y t a _ Hs|k y t reason _ _] H; cbn in H.
  - destruct (expire_same t y) as [_ [He|He]]; rewrite He in H; [set_solver|by left].
  - by right.
  - set_solver.
  - left. rewrite Hs. set_solver.
  - set_solver.
Qed.
Lemma asked_later t ops o id x : asked t ops id x -> asked t (ops ++ [o]) id x.
Proof.
  intros (ops1 & c & ops2 & -> & Hid & Hd & Hs & Hy). exists ops1, c, (ops2 ++ [o])%list. split; [by rewrite <- app_assoc|].
  split_and!; [done| |done|].
  - eapply Nat.lt_le_trans; [exact Hd|]. apply drawn_snoc.
  - intros H. apply elem_of_app. left. by apply Hy.
Qed.
Lemma asked_change t ops o id x x' : asked t (ops ++ [o]) id x -> change o id x x' -> asked t (ops ++ [o]) id x'.
Proof.
  intros (ops1 & c & ops2 & E & Hid & Hd & Hs & Hy) Hc. exists ops1, c, ops2. split; [done|]. split; [done|]. split; [done|].
  destruct (change_same _ _ _ _ Hc) as (E1 & E2 & E3 & E4 & E5 & E6 & E7 & E8). split.
  - destruct Hs as (F1 & F2 & F3 & F4 & F5 & F6 & F7 & F8). split_and!; congruence.
  - rewrite E4. intros [H| ->]%(change_yes _ _ _ _ Hc); [by apply Hy|].
    destruct ops2 as [|ops2 o' _] using rev_ind; [by apply app_inj_2 in E as [_ E]|].
    rewrite app_comm_cons, app_assoc in E. apply app_inj_2 in E as [_ E]; [|done]. injection E as <-.
    apply elem_of_app. right. by left.
Qed.
Lemma sessions_asked t ops : everywhere (asked t ops) 0 (run ops (no_confirmations t)).
Proof.
  induction ops as [|o ops IH] using rev_ind.
  - split; [by intros id x H%not_elem_of_nil|done|apply NoDup_nil_2|done|cbn; lia].
  - rewrite run_snoc. apply perform_keeps.
    + intros id x x' H Hc. by eapply asked_change.
    + intros c -> Hd. exists ops, c, []. split; [done|]. split; [done|]. rewrite run_snoc, Hd. split; [lia|]. split; [done|].
      cbn. set_solver.
    + destruct IH as [Hl Hf Hk Hk' Hn]. split; [..|done|done|done]; intros; eapply asked_later; eauto.
Qed.

(** A session that is used up stays as it is while the process lives. *)
Definition stored (id : string) (x : ConfirmationSession) (s : confirmations) : Prop :=
  loaded s = true /\ dict_get id (live s) = Some x.
Lemma used_unchanged o id x x' : s_status x = USED -> change o id x x' -> x' = x.
Proof.
  intros Hs H. revert Hs.
  destruct H as [k y t|k y t confirm _ Hp|k y t a _ Hp|k y t reason _ Hp]; intros Hs; [|congruence|congruence|rewrite Hs in Hp; set_solver].
  unfold expire, past_ttl. by rewrite Hs.
Qed.
Lemma used_stored_stays `{!Inj (=) (=) token_hex} t ops id x more : Forall lasting more -> s_status x = USED ->
  stored id x (run ops (no_confirmations t)) -> stored id x (run (ops ++ more) (no_confirmations t)).
Proof.
  intros Hm Hu [Hl Hx]. set (n := drawn (run ops (no_confirmations t))).
  assert (exists m, m < n /\ id = id_of m) as (m & Hmn & Hid).
  { destruct (in_memory _ _ _ (sessions_asked t ops) id x (get_in _ _ _ Hx)) as (ops1 & c & ops2 & _ & E & Hd & _).
    by exists (drawn (run ops1 (no_confirmations t))). }
  assert (forall s, holds id x n s -> forall o, lasting o -> holds id x n (run_state (step o) s)) as Hstep.
  { intros s Hs o Ho. apply (perform_keeps_inv o (fun k y => k = id -> y = x) (holds id x n)); [|done|done| |done].
    - intros k y y' Hy Hc E. specialize (Hy E). subst y. by eapply used_unchanged.
    - intros c _ _ E. exfalso. unfold session_id in *. rewrite Hid in E. injection E as E. apply (inj token_hex) in E.
      destruct Hs as [_ _ _ Hn]. lia. }
  assert (holds id x n (run ops (no_confirmations t))) as H by (split; [done|by destruct (run_sound t ops)|done|done]).
  rewrite sessions_run_app. revert H. generalize (run ops (no_confirmations t)) as s.
  induction Hm as [|o more Ho Hm IH]; intros s Hs; [by destruct Hs|]. cbn. apply IH. by apply Hstep.
Qed.

(** ** A yes that was given and kept *)

(** Time passes and the process restarts. *)
Definition quiet (o : confirmation_op) : Prop := match o with Restart | Pass _ => True | _ => False end.
(** Memory and a working disk hold the session. *)
Definition held (id : string) (x : ConfirmationSession) (s : confirmations) : Prop :=
  disk s = Writable /\ dict_get id (live (memory s)) = Some x /\ exists d, file s = Some d /\ dict_get id d = Some x.

Lemma held_put id x w : disk w = Writable -> loaded w = true -> held id x (set_file (Some (dict_set id x (live w))) (set_live (dict_set id x (live w)) w)).
Proof.
  intros Hd Hl. split; [done|]. split; [|exists (dict_set id x (live w)); split; [done|apply put_get_same]].
  unfold memory, run_state. cbn. rewrite Hl. apply put_get_same.
Qed.
Lemma held_quiet id x q s : Forall quiet q -> held id x s -> held id x (run q s).
Proof.
  intros Hq. revert s. induction Hq as [|o q Ho Hq IH]; intros s H; [done|]. apply IH. destruct H as (Hd & Hm & d & Hf & Hg).
  destruct o; try done; (split; [done|]); (split; [|by exists d]).
  - unfold memory, run_state. cbn. by rewrite Hf.
  - revert Hm. unfold memory, run_state. cbn. by destruct (loaded s).
Qed.
Lemma live_expire id x w : past_ttl (now w) x = false -> expire_if_needed id x w = (w, Ret x).
Proof. intros H. unfold expire_if_needed, expire, py_bind. cbn. by rewrite H. Qed.
Lemma bind_done {A B} (m : MC A) (k : A -> MC B) s s' a : m s = (s', Ret a) -> py_bind m k s = k a s'.
Proof. apply bind_value. Qed.
Lemma bind_true {B} c message (k : unit -> MC B) s : c = true -> py_bind (check c message) k s = k tt s.
Proof. by intros ->. Qed.
Lemma find_held id x w : dict_get id (live w) = Some x -> find_session id w = (w, Ret x).
Proof. apply lookup_held. Qed.
Lemma store_writable {A} id x (m : MC A) w : disk w = Writable ->
  (put_session id x ;;; persist_sessions ;;; m) w = m (set_file (Some (dict_set id x (live w))) (set_live (dict_set id x (live w)) w)).
Proof. apply put_writable. Qed.
Lemma load_memory s : ensure_sessions_loaded s = (memory s, Ret tt).
Proof. done. Qed.

Lemma decide_held id x s (owner := s_owner x) :
  py_strip owner <> "" -> held id x s -> s_status x = PENDING -> past_ttl (now s) x = false ->
  let s' := run_state (decide_confirmation_session id true (Some owner)) s in
  held id (decided (drop_microsecond (now s)) CONFIRMED x) s' /\ now s' = now s.
Proof.
  intros Ho (Hd & Hm & _) Hs Ht. destruct (memory_facts s) as (Hl & Hd' & Hn & _). unfold run_state, decide_confirmation_session.
  rewrite bind_true.
  2:{ cbn. rewrite !andb_true_iff, !negb_true_iff. unfold str_eqb. split; apply bool_decide_eq_false; [|done]. intros ->. by cbn in Ho. }
  rewrite (bind_done _ _ _ _ _ (load_memory s)), (bind_done _ _ _ _ _ (find_held _ _ _ Hm)).
  rewrite (bind_done _ _ _ _ _ (live_expire id x (memory s) ltac:(by rewrite Hn))).
  unfold is_expired. rewrite Hs. rewrite (bind_done _ _ _ _ _ eq_refl), !bind_true by by apply bool_decide_eq_true.
  rewrite (bind_done _ _ _ _ _ eq_refl). rewrite Hn. rewrite store_writable by by rewrite Hd'.
  split; [by apply held_put; [rewrite Hd'|]|exact Hn].
Qed.
Lemma assert_held a id x s : held id x s -> s_status x = CONFIRMED -> past_ttl (now s) x = false -> fits a x ->
  sa_session a = Some id -> id <> "" -> needs_owner (gate_of (gate_mode cat (sa_scene a) (py_strip (py_lower (sa_role a))) (sa_step a)) (sa_policy_auto a)) = true ->
  str_mem (py_strip (py_lower (sa_role a))) ["buyer"; "seller"] = true ->
  exists s' y, assert_step_allowed cat a s = (s', Ret (OwnerConfirmed id y)).
Proof.
  intros (Hd & Hm & _) Hs Ht Hfit Hid Hne Hg Hr. destruct (memory_facts s) as (Hl & Hd' & Hn & _). unfold assert_step_allowed.
  rewrite (bind_done _ _ _ _ _ (load_memory s)). unfold resolve_gate. unfold py_bind at 1. rewrite bind_true by done.
  cbn [py_ret]. rewrite Hg. cbn [negb]. rewrite Hid. replace (truthy_str (Some id)) with true by by symmetry; eapply truthy_str_some.
  cbn [negb]. change (default "" (Some id)) with id.
  rewrite (bind_done _ _ _ _ _ (find_held _ _ _ Hm)).
  rewrite (bind_done _ _ _ _ _ (live_expire id x (memory s) ltac:(by rewrite Hn))).
  unfold is_expired. rewrite Hs. rewrite (bind_done _ _ _ _ _ eq_refl).
  destruct (checks_fit _ _ Hfit) as (C1 & C2 & C3 & C4). rewrite !bind_true by (done || by apply bool_decide_eq_true).
  rewrite (bind_done _ _ _ _ _ eq_refl). destruct (sa_consume a); [|by eexists _, _].
  rewrite <- Hd' in Hd. clear - Hd. generalize dependent (memory s). intros w Hd.
  unfold py_when, put_session, persist_sessions, py_bind. cbn. rewrite Hd. by eexists _, _.
Qed.

(** What was created is held until the owner decides. *)
Lemma create_held c s s1 id x : create_confirmation_session cat token_hex c s = (s1, Ret (Some (id, x))) -> disk s = Writable ->
  x = new_session c (now s) /\ id <> "" /\ held id x s1 /\ now s1 = now s
  /\ needs_owner (gate_of (gate_mode cat (ca_scene c) (py_strip (py_lower (ca_role c))) (ca_step c)) (ca_policy_auto c)) = true
  /\ str_mem (py_strip (py_lower (ca_role c))) ["buyer"; "seller"] = true.
Proof.
  intros H Hd. apply bind_check in H as [_ H]. apply bind_ret in H as (g & s2 & Hg & H).
  unfold resolve_gate in Hg. apply bind_check in Hg as [Hr Hg]. injection Hg as <- <-.
  destruct (needs_owner _) eqn:En in H; [|done]. cbn [negb] in H.
  rewrite (bind_done _ _ _ _ _ eq_refl), (bind_done _ _ _ _ _ eq_refl), (bind_done _ _ _ _ _ (load_memory _)) in H.
  destruct (memory_facts (draw s)) as (Hl & Hd' & Hn & _). rewrite store_writable in H by by rewrite Hd'.
  injection H as <- <- <-. split_and!; try done. by apply held_put; [rewrite Hd'|].
Qed.
Lemma decided_ttl t at_ x : past_ttl t (decided at_ CONFIRMED x) = past_ttl t (with_status PENDING x).
Proof. done. Qed.

(** Sessions under an identifier drawn before stay used up. *)
Definition used_up (id : string) (k : string) (x : ConfirmationSession) : Prop := k = id -> s_status x = USED.
Lemma used_stays id i ops s : Inj (=) (=) token_hex -> id = id_of i -> everywhere (used_up id) (S i) s -> everywhere (used_up id) (S i) (run ops s).
Proof.
  intros Hinj Hid. revert s. induction ops as [|o ops IH]; intros s Hs; [done|]. apply IH, perform_keeps; [| |done].
  - intros k x x' Hx Hc E. specialize (Hx E). clear E. destruct Hc as [k y t|k y t yes _ Hp|k y t a _ Hp|k y t reason _ Hp].
    + unfold expire, past_ttl. by rewrite Hx.
    + congruence.
    + done.
    + rewrite Hx in Hp. set_solver.
  - intros c _ _ E. exfalso. pose proof (drawn_so_far _ _ _ Hs) as Hn. unfold session_id in *. rewrite Hid in E.
    injection E as E. apply (inj token_hex) in E. lia.
Qed.

(** C26. A session is used at most once: when a step has passed with a session that it
    used up, no later step passes with that session, whatever requests come in
    between, however often the process restarts and writes fail. *)
Theorem consumed_once t ops a s' id x ops' b s'' y : Inj (=) (=) token_hex ->
  assert_step_allowed cat a (run ops (no_confirmations t)) = (s', Ret (OwnerConfirmed id x)) -> sa_consume a = true ->
  assert_step_allowed cat b (run ops' s') <> (s'', Ret (OwnerConfirmed id y)).
Proof.
  intros Hinj Ha Hc Hb. set (s := run ops (no_confirmations t)) in *. pose proof (sessions_asked t ops) as Hs. fold s in Hs.
  apply assert_confirmed in Ha as (z & _ & Hz & _ & _ & _ & H). rewrite Hc in H. cbv zeta in H. destruct H as [-> ->].
  destruct (memory_facts s) as (Hl & Hd & Hn & _). apply get_in in Hz.
  destruct (in_memory _ _ _ (memory_kept _ Hs) _ _ Hz) as (ops1 & c & ops2 & _ & Hid & Hdr & _).
  pose proof (memory_kept _ Hs) as [_ _ Hkm _ _].
  match goal with H : assert_step_allowed cat b (run ops' ?w) = _ |- _ => assert (everywhere (used_up id) (S (drawn (run ops1 (no_confirmations t)))) w) as Hu end.
  { assert (forall k x, (k, x) ∈ dict_set id (closed_at (drop_microsecond (now s)) USED z) (live (memory s)) -> used_up id k x) as Hall.
    { intros k x Hx ->. by apply put_once in Hx as ->. }
    split; cbn [set_file set_live live file drawn]; [done| |by apply put_keys| |].
    - intros d k x [= <-]. apply Hall.
    - intros d [= <-]. by apply put_keys.
    - unfold memory, run_state. cbn. by destruct (loaded s). }
  apply (used_stays _ _ ops' _ Hinj Hid) in Hu. apply assert_confirmed in Hb as (z' & _ & Hz' & Hst & _). apply get_in in Hz'.
  by rewrite (in_memory _ _ _ (memory_kept _ Hu) _ _ Hz' eq_refl) in Hst.
Qed.

(** C27. A step that passes on the word of an owner was confirmed: the session was made
    by a request for the same scene, role, step and owner, since then its owner said
    yes, its deadline has not passed, and the amount is at most the confirmed one up
    to the tolerance, whatever requests, restarts and failed writes there were. *)
Theorem allowed_means_confirmed t ops a s' id x (s := run ops (no_confirmations t)) :
  assert_step_allowed cat a s = (s', Ret (OwnerConfirmed id x)) ->
  exists ops1 c ops2, ops = (ops1 ++ CreateSession c :: ops2)%list
    /\ let s1 := run ops1 (no_confirmations t) in
       sa_session a = Some id /\ id = id_of (drawn s1) /\ Decide id true (Some (ca_owner c)) ∈ ops2
       /\ fits a (new_session c (now s1))
       /\ (now s <= drop_microsecond (now s1 + ttl_of c * US_PER_SECOND))%Z.
Proof.
  intros H. apply assert_confirmed in H as (z & Hsid & Hz%get_in & Hst & Hpast & Hfit & _).
  destruct (in_memory _ _ _ (memory_kept _ (sessions_asked t ops)) _ _ Hz) as (ops1 & c & ops2 & E & Hid & _ & Hsame & Hyes).
  destruct Hsame as (F1 & F2 & F3 & F4 & F5 & F6 & F7 & F8). exists ops1, c, ops2. split; [done|]. cbv zeta. split_and!; [done|done| | |].
  - change (ca_owner c) with (s_owner (new_session c (now (run ops1 (no_confirmations t))))). rewrite <- F4. apply Hyes. rewrite Hst. set_solver.
  - unfold fits in *. by rewrite <- F1, <- F2, <- F3, <- F4, <- F7, <- F8.
  - unfold past_ttl in Hpast. rewrite Hst, F6 in Hpast. cbn in Hpast. by apply Z.ltb_ge in Hpast.
Qed.

(** A yes is good for its step: when a session was created, its owner then says yes
    before the deadline and a step that fits the session comes before the deadline
    too, the step passes, however much time goes by in between and however often the
    process restarts, as long as the disk works. *)
Theorem confirmed_step_allowed c s s1 id x q1 q2 a :
  create_confirmation_session cat token_hex c s = (s1, Ret (Some (id, x))) -> disk s = Writable ->
  py_strip (ca_owner c) <> "" -> Forall quiet q1 -> Forall quiet q2 ->
  let s2 := run q1 s1 in
  let s3 := run_state (decide_confirmation_session id true (Some (ca_owner c))) s2 in
  let s4 := run q2 s3 in
  past_ttl (now s2) x = false -> past_ttl (now s4) x = false ->
  sa_session a = Some id -> fits a x -> sa_policy_auto a = ca_policy_auto c ->
  exists s' y, assert_step_allowed cat a s4 = (s', Ret (OwnerConfirmed id y)).
Proof.
  intros Hcr Hd Ho Hq1 Hq2 s2 s3 s4 Ht2 Ht4 Hs Hfit Hauto. destruct (create_held _ _ _ _ _ Hcr Hd) as (Hx & Hne & Hh & _ & Hg & Hr).
  apply (held_quiet _ _ q1) in Hh; [|done]. fold s2 in Hh.
  destruct (decide_held id x s2) as [H3 Hn]; [by rewrite Hx|done|by rewrite Hx|done|]. replace (s_owner x) with (ca_owner c) in H3 by by rewrite Hx.
  apply (held_quiet _ _ q2) in H3; [|done].
  assert (ca_scene c = sa_scene a /\ ca_step c = sa_step a /\ py_lower (ca_role c) = py_lower (sa_role a)) as (E1 & E2 & E3).
  { destruct Hfit as (F1 & F2 & F3 & _). by rewrite Hx in F1, F2, F3. }
  rewrite E1, E2, E3 in Hg. rewrite E3 in Hr.
  eapply (assert_held a id); [exact H3|done| |exact Hfit|done|done|by rewrite Hauto|done].
  rewrite decided_ttl. by rewrite Hx in *.
Qed.
End Policy.

(** ** Witnesses *)

Definition tallies (n : nat) : string := Nat.iter n (String "a"%char) "".
#[local] Instance tallies_inj : Inj (=) (=) tallies.
Proof.
  intros n. induction n as [|n IH]; intros [|m] H; try done. injection H as H. f_equal. by apply IH.
Qed.
Definition lodging : catalog :=
  Catalog [("hotel_booking", Scene [("select_offer", "OWNER_CONFIRM"); ("discover", "AUTO")] [("accept_order", "POLICY_AUTO")] false)]
    [("cancel", "OWNER_CONFIRM")] [].
Definition booking : create_args := CreateArgs "hotel_booking" "Buyer" "select_offer" "agent-a" (Some (float_of_ratio 1 1)) (Some "trip-1") false None.
Definition selecting : step_args :=
  StepArgs "hotel_booking" "buyer" "select_offer" (Some "cfm_") false (Some "agent-a") (Some (float_of_ratio 1 1)) true (Some "trip-1").
Definition trip : list confirmation_op :=
  [CreateSession booking; Pass 60000000; Restart; Decide "cfm_" true (Some "agent-a"); Disk ReadOnly; Pass 1000000; GetSession "cfm_"; Disk Writable].
Definition after_trip : confirmations := perform_all lodging tallies trip (no_confirmations 0).

Lemma trip_passes : exists s' x, assert_step_allowed lodging selecting after_trip = (s', Ret (OwnerConfirmed "cfm_" x)).
Proof. eexists _, _. vm_compute. reflexivity. Qed.

Lemma consumed_once_witness : exists s' x,
  assert_step_allowed lodging selecting after_trip = (s', Ret (OwnerConfirmed "cfm_" x))
  /\ forall s'' y, assert_step_allowed lodging selecting (perform_all lodging tallies [Restart; CreateSession booking] s') <> (s'', Ret (OwnerConfirmed "cfm_" y)).
Proof.
  destruct trip_passes as (s' & x & H). exists s', x. split; [exact H|]. intros s'' y.
  exact (consumed_once lodging tallies 0 trip selecting s' "cfm_" x _ selecting s'' y tallies_inj H eq_refl).
Defined.

Lemma allowed_means_confirmed_witness : exists s' x,
  assert_step_allowed lodging selecting after_trip = (s', Ret (OwnerConfirmed "cfm_" x))
  /\ exists ops1 c ops2, trip = (ops1 ++ CreateSession c :: ops2)%list /\ Decide "cfm_" true (Some (ca_owner c)) ∈ ops2.
Proof.
  destruct trip_passes as (s' & x & H). exists s', x. split; [exact H|].
  destruct (allowed_means_confirmed lodging tallies 0 trip selecting s' "cfm_" x H) as (ops1 & c & ops2 & E & _ & _ & Hd & _).
  exists ops1, c, ops2. by split.
Defined.

Definition booked : confirmations := run_state (create_confirmation_session lodging tallies booking) (no_confirmations 0).
Lemma confirmed_step_allowed_witness : exists s' y,
  assert_step_allowed lodging selecting
    (perform_all lodging tallies [Restart]
       (run_state (decide_confirmation_session "cfm_" true (Some "agent-a")) (perform_all lodging tallies [Pass 60000000] booked)))
  = (s', Ret (OwnerConfirmed "cfm_" y)).
Proof.
  refine (confirmed_step_allowed lodging tallies booking (no_confirmations 0) booked "cfm_" (new_session booking 0)
            [Pass 60000000] [Restart] selecting _ _ _ _ _ _ _ _ _ _).
  - vm_compute. reflexivity.
  - reflexivity.
  - by vm_compute.
  - by repeat constructor.
  - by repeat constructor.
  - vm_compute. reflexivity.
  - vm_compute. reflexivity.
  - reflexivity.
  - split_and!; try reflexivity; cbn [selecting booking new_session sa_owner sa_ref sa_amount s_owner s_ref s_max_amount ca_owner ca_ref ca_amount].
    + by intros owner [= <-].
    + by intros ref ref' [= <-] _ [= <-].
    + intros m limit [= <-] [= <-]. vm_compute. reflexivity.
  - reflexivity.
Defined.

(** ** Where code and words part *)

(** Code: the sweep's cancellation, meant for sessions past their deadline, cancels one
    that has just been made. *)
Lemma pending_cancelled_early :
  exists s' x, mark_session_expired_cancelled "cfm_" "seller_accept_timeout" booked = (s', Ret x) /\ s_status x = CANCELLED
    /\ past_ttl (now booked) (new_session booking 0) = false.
Proof. eexists _, _. vm_compute. repeat split. Qed.

(** Code: a yes given without an interaction counts as given for every other one. *)
Definition untied : create_args := CreateArgs "hotel_booking" "buyer" "select_offer" "agent-a" (Some (float_of_ratio 1 1)) None false None.
Definition untied_used : confirmations :=
  perform_all lodging tallies
    [CreateSession untied; Decide "cfm_" true (Some "agent-a");
     AssertStep (StepArgs "hotel_booking" "buyer" "select_offer" (Some "cfm_") false (Some "agent-a") (Some (float_of_ratio 1 1)) true (Some "trip-1"))]
    (no_confirmations 0).
Lemma yes_counts_elsewhere :
  (step_already_satisfied lodging "hotel_booking" "buyer" "select_offer" "agent-a" (Some "trip-2") false untied_used).2 = Ret true.
Proof. vm_compute. reflexivity. Qed.
