(* ===== verification/AcceptFulfillment.v ===== *)
(** * The ledger of sellers' acceptances

    [services/accept_fulfillment.py]: how long a seller has to accept an order, the
    ledger of accepted, rejected and missed orders, the tier and the bond a seller's
    record leads to, the liability armed by an acceptance, and the sweep that turns an
    expired confirmation session into a timeout.  The catalogue is a file of the
    repository and here a parameter, whose missing keys are [None] and which holds no
    [null]; titles and notes are left out.  The ledger lives in the process and in a
    file, on the disk and by the clock of the confirmation sessions. *)

From Stdlib Require Import SpecFloat.
From S2P Require Import Prelude PyJson PyDatetime PyFloat PyHoare PySort PyStore Confirmations.
#[local] Open Scope string_scope.
#[local] Open Scope py_scope.

(** ** The catalogue *)

Record threshold := Threshold {
  t_count : option Z;
  t_tier : option string;
  t_bond : option float;
  t_force : bool;
  t_ttl_scale : option float;
  t_demote : bool
}.
Record breach_terms := BreachTerms {
  b_armed : option bool;
  b_bond_bps : option Z;
  b_comp_bps : option Z;
  b_cure : option Z
}.
Record accept_policy := AcceptPolicy {
  p_ttl : option Z;
  p_on_timeout : option string;
  p_delta_timeout : option float;
  p_delta_reject : option float;
  p_max_hit : option float;
  p_thresholds : list threshold;
  p_force : option bool;
  p_high_risk : option bool;
  p_breach : breach_terms
}.
Record accept_catalog := AcceptCatalog {
  global_defaults : accept_policy;
  accept_scenes : list (string * accept_policy)
}.
Definition no_terms : breach_terms := BreachTerms None None None None.
Definition no_policy : accept_policy := AcceptPolicy None None None None None [] None None no_terms.

(** [{**base, **over}] at one key. *)
Definition over {A} (o base : option A) : option A := match o with Some _ => o | None => base end.
(** [x or d]. *)
Definition or_float (x : option float) (d : float) : float :=
  match x with Some v => if ftruthy v then v else d | None => d end.
Definition or_int (x : option Z) (d : Z) : Z :=
  match x with Some v => if (v =? 0)%Z then d else v | None => d end.
Definition or_str (x : option string) (d : string) : string := if truthy_str x then default "" x else d.
Definition flag (x : option bool) : bool := default false x.
Definition half (n : Z) : float := float_of_ratio n 2.

(** [int(x)] and [round(x)] of a float, none for infinities and not-a-number. *)
Definition int_of_float (x : float) : option Z :=
  match x with
  | S754_zero _ => Some 0%Z
  | S754_finite s m e =>
      let n := (Zpos m * 2 ^ Z.max 0 e / 2 ^ Z.max 0 (- e))%Z in Some (if s then (- n)%Z else n)
  | _ => None
  end.
Definition round_float (x : float) : option Z :=
  match x with
  | S754_zero _ => Some 0%Z
  | S754_finite s m e =>
      Some (round_half_even ((if s then -1 else 1) * Zpos m * 2 ^ Z.max 0 e) (Z.to_pos (2 ^ Z.max 0 (- e))))%Z
  | _ => None
  end.
(** [max(a, b)] and [min(a, b)]: the first unless the second is beyond it. *)
Definition py_maxf (a b : float) : float := if fgtb b a then b else a.
Definition py_minf (a b : float) : float := if fltb b a then b else a.

(** ** The ledger *)

Inductive non_confirm_reason : Type := Timeout | Reject.
#[export] Instance non_confirm_reason_eq_dec : EqDecision non_confirm_reason.
Proof. solve_decision. Defined.
(** The outcome of an event with its reason. *)
Inductive accept_outcome : Type := NonConfirm (reason : non_confirm_reason) | Accepted.
#[export] Instance accept_outcome_eq_dec : EqDecision accept_outcome.
Proof. solve_decision. Defined.

Record scene_count := SceneCount { sc_non_confirm : Z; sc_timeout : Z; sc_reject : Z }.
Record seller_entry := SellerEntry {
  non_confirm_count : Z;
  timeout_count : Z;
  reject_count : Z;
  confirm_count : Z;
  reputation_delta_total : float;
  last_event_at : option datetime;
  by_scene : list (string * scene_count)
}.
Definition fresh_entry : seller_entry := SellerEntry 0 0 0 0 fzero None [].

Record accept_event := AcceptEvent {
  e_id : string;
  e_outcome : accept_outcome;
  e_seller : string;
  e_scene : string;
  e_ref : option string;
  e_session : option string;
  e_amount : option float;
  e_delta : option float;
  e_created : datetime;
  e_count_after : option Z
}.
Record ledger := Ledger { sellers : list (string * seller_entry); events : list accept_event }.
Definition empty_ledger : ledger := Ledger [] [].

(** [book_file] is [None] when the file is missing or does not parse. *)
Record accept_world := AcceptWorld {
  book : ledger;
  book_loaded : bool;
  book_file : option ledger;
  sessions : confirmations
}.
Definition set_book (b : ledger) (w : accept_world) : accept_world := AcceptWorld b (book_loaded w) (book_file w) (sessions w).
Definition set_book_file (f : option ledger) (w : accept_world) : accept_world :=
  AcceptWorld (book w) (book_loaded w) f (sessions w).
Definition set_sessions (c : confirmations) (w : accept_world) : accept_world :=
  AcceptWorld (book w) (book_loaded w) (book_file w) c.

Inductive accept_error : Type :=
| AcceptFulfillmentError (message : string)
| SessionRefused (message : string)
| DiskError
| CannotConvert.
Abbreviation MA := (M accept_world accept_error).

Definition utcnow : MA datetime := let! w := py_get in py_ret (drop_microsecond (now (sessions w))).

Definition book_memory (w : accept_world) : accept_world :=
  if book_loaded w then w
  else AcceptWorld (match book_file w with Some l => l | None => book w end) true (book_file w) (sessions w).
Definition ensure_book_loaded : MA unit := py_modify book_memory.
Definition persist_book : MA unit :=
  let! w := py_get in
  match disk (sessions w) with
  | Writable => py_modify (set_book_file (Some (book w)))
  | ReadOnly => py_raise DiskError
  | Full => py_modify (set_book_file None) ;;; py_raise DiskError
  end.
Definition reset_accept_ledger : MA unit :=
  py_modify (fun w => AcceptWorld empty_ledger true (book_file w) (sessions w)) ;;;
  let! w := py_get in
  match disk (sessions w), book_file w with
  | ReadOnly, Some _ => py_raise DiskError
  | _, _ => py_modify (set_book_file None)
  end.

Section Accepting.
Context (cat : accept_catalog).

(** ** Policies of scenes *)

Definition scene_policy (scene_id : string) : accept_policy :=
  let d := global_defaults cat in
  let s := default no_policy (assoc scene_id (accept_scenes cat)) in
  AcceptPolicy (over (p_ttl s) (p_ttl d)) (over (p_on_timeout s) (p_on_timeout d))
    (over (p_delta_timeout s) (p_delta_timeout d)) (over (p_delta_reject s) (p_delta_reject d))
    (over (p_max_hit s) (p_max_hit d))
    (match p_thresholds s with [] => p_thresholds d | l => l end)
    (over (p_force s) (p_force d)) (over (p_high_risk s) (p_high_risk d))
    (BreachTerms (over (b_armed (p_breach s)) (b_armed (p_breach d)))
       (over (b_bond_bps (p_breach s)) (b_bond_bps (p_breach d)))
       (over (b_comp_bps (p_breach s)) (b_comp_bps (p_breach d)))
       (over (b_cure (p_breach s)) (b_cure (p_breach d)))).
Definition on_timeout (scene_id : string) : string := or_str (p_on_timeout (scene_policy scene_id)) "cancel_intent".

Record active_tier := ActiveTier {
  a_tier : string;
  a_bond : float;
  a_force : bool;
  a_ttl_scale : float;
  a_demote : bool;
  a_count : Z
}.
Definition count_of (t : threshold) : Z := or_int (t_count t) 0.
Definition tier_at (force : bool) (t : threshold) : active_tier :=
  ActiveTier (or_str (t_tier t) "elevated") (or_float (t_bond t) (half 2)) (t_force t || force)
    (or_float (t_ttl_scale t) (half 2)) (t_demote t) (count_of t).
Definition threshold_for_count (count : Z) (scene_id : string) : active_tier :=
  let pol := scene_policy scene_id in
  let force := flag (p_force pol) in
  let step a t := if (count_of t <=? count)%Z then tier_at force t else a in
  let a := fold_left step (sort_by (asc_by count_of) (p_thresholds pol))
             (ActiveTier "normal" (half 2) force (half 2) false 0) in
  if flag (p_high_risk pol) || force
  then ActiveTier (a_tier a) (a_bond a) true (a_ttl_scale a) (a_demote a) (a_count a) else a.

(** ** The record of a seller *)

Definition entry_of (seller : string) (b : ledger) : seller_entry := default fresh_entry (dict_get seller (sellers b)).
(** An entry that is missing is made, in memory only. *)
Definition seller_entry_of (seller_id : string) : MA seller_entry :=
  ensure_book_loaded ;;;
  let sid := py_strip seller_id in
  py_require (negb (str_eqb sid "")) (AcceptFulfillmentError "seller_id required") ;;;
  let! w := py_get in
  match dict_get sid (sellers (book w)) with
  | Some e => py_ret e
  | None => py_modify (set_book (Ledger (dict_set sid fresh_entry (sellers (book w))) (events (book w)))) ;;; py_ret fresh_entry
  end.

Record risk_profile := RiskProfile {
  r_seller : string;
  r_scene : string;
  r_entry : seller_entry;
  r_tier : active_tier;
  r_rank : Z
}.
Definition tier_rank (tier : string) : Z :=
  if str_eqb tier "normal" then 3 else if str_eqb tier "elevated" then 2
  else if str_eqb tier "strict" then 1 else if str_eqb tier "restricted" then 0 else 3.
Definition seller_risk_profile (seller_id scene_id : string) : MA risk_profile :=
  let! e := seller_entry_of seller_id in
  let t := threshold_for_count (non_confirm_count e) scene_id in
  py_ret (RiskProfile seller_id scene_id e t (tier_rank (a_tier t))).
Definition seller_requires_forced_confirm (seller_id scene_id : string) : MA bool :=
  let! p := seller_risk_profile seller_id scene_id in py_ret (a_force (r_tier p)).
Definition scene_accept_ttl_seconds (scene_id : string) (seller_id : option string) : MA Z :=
  let ttl := or_int (p_ttl (scene_policy scene_id)) 1800 in
  if truthy_str seller_id then
    let! p := seller_risk_profile (default "" seller_id) scene_id in
    match int_of_float (fmul (float_of_int ttl) (a_ttl_scale (r_tier p))) with
    | Some n => py_ret (Z.max 60 n)
    | None => py_raise CannotConvert
    end
  else py_ret ttl.
(** Identifier, time to accept, what a timeout leads to, risk. *)
Definition list_accept_scenes : MA (list (string * Z * option string * bool)) :=
  py_ret (map (fun '(sid, body) =>
    (sid, or_int (p_ttl (scene_policy sid)) 1800, p_on_timeout (scene_policy sid), flag (p_high_risk body)))
    (accept_scenes cat)).
(** What discovery sorts by: count, tier, its rank, bond, whether to demote. *)
Definition accept_enrichment_for_discovery (seller_id scene_id : string) : MA (Z * string * Z * float * bool) :=
  let! p := seller_risk_profile seller_id scene_id in
  let t := r_tier p in
  py_ret (non_confirm_count (r_entry p), a_tier t, r_rank p, a_bond t, a_demote t).

(** ** Recording *)

Definition reputation_delta (reason : non_confirm_reason) (scene_id : string) : float :=
  let pol := scene_policy scene_id in
  let max_hit := or_float (p_max_hit pol) (half 10) in
  let delta := match reason with
               | Timeout => or_float (p_delta_timeout pol) (half (-4))
               | Reject => or_float (p_delta_reject pol) (half (-6))
               end in
  py_maxf (SFopp max_hit) (py_minf fzero delta).

Definition bump (reason : non_confirm_reason) (c : scene_count) : scene_count :=
  SceneCount (sc_non_confirm c + 1) (sc_timeout c + (if decide (reason = Timeout) then 1 else 0))
    (sc_reject c + (if decide (reason = Reject) then 1 else 0)).
Definition missed (reason : non_confirm_reason) (scene_id : string) (delta : float) (at_ : datetime) (e : seller_entry) : seller_entry :=
  SellerEntry (non_confirm_count e + 1) (timeout_count e + (if decide (reason = Timeout) then 1 else 0))
    (reject_count e + (if decide (reason = Reject) then 1 else 0)) (confirm_count e)
    (fadd (reputation_delta_total e) delta) (Some at_)
    (dict_set scene_id (bump reason (default (SceneCount 0 0 0) (dict_get scene_id (by_scene e)))) (by_scene e)).
Definition accepted (at_ : datetime) (e : seller_entry) : seller_entry :=
  SellerEntry (non_confirm_count e) (timeout_count e) (reject_count e) (confirm_count e + 1)
    (reputation_delta_total e) (Some at_) (by_scene e).

Definition EVENTS_MAX : Z := 5000.
Definition EVENTS_KEPT : Z := 4000.
(** [f"sae_{n:06d}"] *)
Definition event_id (evs : list accept_event) : string :=
  let n := (Z.of_nat (length evs) + 1)%Z in
  "sae_" ++ (if (n <? 1000000)%Z then pad 6 n else py_str_int n).
Definition trim (evs : list accept_event) : list accept_event :=
  if (EVENTS_MAX <? Z.of_nat (length evs))%Z then py_from (- EVENTS_KEPT) evs else evs.
(** The event already there for the session. *)
Definition earlier (session_id : option string) (o : accept_outcome) (evs : list accept_event) : option accept_event :=
  if truthy_str session_id
  then List.find (fun ev => bool_decide (e_session ev = session_id) && bool_decide (e_outcome ev = o)) evs else None.

Record record_args := RecordArgs {
  ra_seller : string;
  ra_scene : string;
  ra_ref : option string;
  ra_session : option string;
  ra_amount : option float
}.
Record recorded := Recorded {
  rd_idempotent : bool;
  rd_event : accept_event;
  rd_profile : risk_profile;
  rd_delta : float
}.
Definition non_confirm_of (reason : non_confirm_reason) (a : record_args) (at_ : datetime) (b : ledger) : seller_entry * accept_event :=
  let delta := reputation_delta reason (ra_scene a) in
  let e := missed reason (ra_scene a) delta at_ (entry_of (ra_seller a) b) in
  (e, AcceptEvent (event_id (events b)) (NonConfirm reason) (ra_seller a) (ra_scene a) (ra_ref a) (ra_session a) (ra_amount a)
        (Some delta) at_ (Some (non_confirm_count e))).
Definition record_non_confirm (reason : non_confirm_reason) (a : record_args) : MA recorded :=
  let delta := reputation_delta reason (ra_scene a) in
  ensure_book_loaded ;;;
  let! w := py_get in
  let! at_ := utcnow in
  let b := book w in
  match earlier (ra_session a) (NonConfirm reason) (events b) with
  | Some ev =>
      let! p := seller_risk_profile (ra_seller a) (ra_scene a) in
      py_ret (Recorded true ev p (or_float (e_delta ev) delta))
  | None =>
      let '(e, ev) := non_confirm_of reason a at_ b in
      py_modify (set_book (Ledger (dict_set (ra_seller a) e (sellers b)) (trim (events b ++ [ev])%list))) ;;;
      persist_book ;;;
      let! p := seller_risk_profile (ra_seller a) (ra_scene a) in
      py_ret (Recorded false ev p delta)
  end.
Definition reason_of (reason : string) : option non_confirm_reason :=
  if str_eqb reason "timeout" then Some Timeout else if str_eqb reason "reject" then Some Reject else None.
Definition record_seller_non_confirm (reason : string) (a : record_args) : MA recorded :=
  match reason_of reason with
  | Some r => record_non_confirm r a
  | None => py_raise (AcceptFulfillmentError "reason must be timeout|reject")
  end.

(** ** Liability *)

Record liability := Liability {
  l_armed : bool;
  l_seller : string;
  l_scene : string;
  l_ref : option string;
  l_session : option string;
  l_amount : float;
  l_tier : string;
  l_bond_multiplier : float;
  l_base_bps : Z;
  l_bond_bps : Z;
  l_bond_amount : float;
  l_comp_bps : Z;
  l_comp_amount : float;
  l_cure : Z;
  l_armed_at : datetime
}.
Definition share_of (amt : float) (bps : Z) : float :=
  py_round 6 (fdiv (fmul amt (float_of_int bps)) (float_of_int 10000)).
Definition scaled_bps (bps : Z) (mult : float) : option Z := round_float (fmul (float_of_int bps) mult).
Definition arm_post_confirm_liability (seller_id scene_id : string) (amount : float) (ref session_id : option string) : MA liability :=
  let terms := p_breach (scene_policy scene_id) in
  let! p := seller_risk_profile seller_id scene_id in
  let mult := a_bond (r_tier p) in
  let base_bps := or_int (b_bond_bps terms) 500 in
  match scaled_bps base_bps mult, scaled_bps (or_int (b_comp_bps terms) 1000) mult with
  | Some bond_bps, Some comp_bps =>
      let amt := py_maxf fzero (or_float (Some amount) fzero) in
      let! at_ := utcnow in
      py_ret (Liability (default true (b_armed terms)) seller_id scene_id ref session_id amt (a_tier (r_tier p)) mult
        base_bps bond_bps (share_of amt bond_bps) comp_bps (share_of amt comp_bps) (or_int (b_cure terms) 0) at_)
  | _, _ => py_raise CannotConvert
  end.
(** With the severity, cut to [0..1], and the compensation due. *)
Definition compute_breach_compensation (seller_id scene_id : string) (amount fraction : float) : MA (liability * float * float) :=
  let! l := arm_post_confirm_liability seller_id scene_id amount None None in
  let frac := py_maxf fzero (py_minf (half 2) fraction) in
  py_ret (l, frac, py_round 6 (fmul (l_comp_amount l) frac)).

Record accepted_order := AcceptedOrder {
  ao_idempotent : bool;
  ao_event : accept_event;
  ao_profile : risk_profile;
  ao_liability : liability
}.
Definition record_seller_confirm (a : record_args) : MA accepted_order :=
  ensure_book_loaded ;;;
  let! w := py_get in
  let! at_ := utcnow in
  let b := book w in
  let prior := earlier (ra_session a) Accepted (events b) in
  let ev := AcceptEvent (event_id (events b)) Accepted (ra_seller a) (ra_scene a) (ra_ref a) (ra_session a) (ra_amount a)
              None at_ None in
  py_when (bool_decide (prior = None))
    (py_modify (set_book (Ledger (dict_set (ra_seller a) (accepted at_ (entry_of (ra_seller a) b)) (sellers b)) (events b ++ [ev])%list)) ;;;
     persist_book) ;;;
  let! l := arm_post_confirm_liability (ra_seller a) (ra_scene a) (or_float (ra_amount a) fzero) (ra_ref a) (ra_session a) in
  let! p := seller_risk_profile (ra_seller a) (ra_scene a) in
  py_ret (AcceptedOrder (bool_decide (prior <> None)) (default ev prior) p l).

(** ** Expired sessions *)

(** An operation on the confirmation sessions. *)
Definition in_sessions {A} (m : MC A) : MA A := fun w =>
  match m (sessions w) with
  | (c, Ret a) => (set_sessions c w, Ret a)
  | (c, Raise (PolicyError msg)) => (set_sessions c w, Raise (SessionRefused msg))
  | (c, Raise OSError) => (set_sessions c w, Raise DiskError)
  end.
(** [try: ... except ConfirmationPolicyError as e]: the value, or the message of [e]. *)
Definition caught {A} (m : MA A) : MA (A + string) := fun w =>
  match m w with
  | (w', Ret a) => (w', Ret (inl a))
  | (w', Raise (SessionRefused msg)) => (w', Ret (inr msg))
  | (w', Raise e) => (w', Raise e)
  end.
Definition try_session (id : string) : MA (option ConfirmationSession) :=
  let! r := caught (in_sessions (get_confirmation_session id)) in
  py_ret (match r with inl x => Some x | inr _ => None end).

Record timeout_report := TimeoutReport {
  tr_session : option string;
  tr_seller : string;
  tr_scene : string;
  tr_ref : option string;
  tr_on_timeout : option string;
  tr_recorded : option recorded;
  tr_prior : option accept_event;
  tr_cancel : option ConfirmationSession;
  tr_profile : risk_profile;
  tr_idempotent : bool
}.
Definition TIMEOUT_REASON : string := "seller_accept_timeout".
Definition scene_or_default (s : string) : string := if str_eqb s "" then "api_tool_call" else s.
Definition is_seller_accept (x : ConfirmationSession) : bool := str_eqb (s_role x) "seller" && str_eqb (s_step x) "accept_order".
Definition timeout_args (id : string) (x : ConfirmationSession) : record_args :=
  RecordArgs (s_owner x) (scene_or_default (s_scene x)) (s_ref x) (Some id) (s_max_amount x).
Definition process_expired_seller_session (id : string) (apply_cancel : bool) : MA (option timeout_report) :=
  let! found := try_session id in
  match found with
  | None => py_ret None
  | Some x =>
      let a := timeout_args id x in
      if negb (is_seller_accept x) then py_ret None
      else if bool_decide (s_status x = CANCELLED) && bool_decide (s_cancel_reason x = Some TIMEOUT_REASON) then
        let! r := record_non_confirm Timeout a in
        py_ret (Some (TimeoutReport (Some id) (s_owner x) (s_scene x) (s_ref x) (Some (on_timeout (ra_scene a))) (Some r) None (Some x)
          (rd_profile r) true))
      else if negb (is_expired x) then py_ret None
      else
        let! r := record_non_confirm Timeout a in
        let! y := (if apply_cancel
                   then let! y := in_sessions (mark_session_expired_cancelled id TIMEOUT_REASON) in py_ret (Some y)
                   else py_ret None) in
        py_ret (Some (TimeoutReport (Some id) (s_owner x) (ra_scene a) (s_ref x) (Some (on_timeout (ra_scene a))) (Some r) None y
          (rd_profile r) false))
  end.

Fixpoint sweep (ids : list string) : MA (list timeout_report) :=
  match ids with
  | [] => py_ret []
  | id :: r =>
      if str_eqb id "" then sweep r
      else
        let! found := try_session id in
        let! out := (if match found with Some x => is_expired x | None => false end
                     then process_expired_seller_session id true else py_ret None) in
        let! rest := sweep r in
        py_ret (match out with Some o => o :: rest | None => rest end)
  end.
Definition expire_pending_seller_accepts (limit : nat) : MA (list timeout_report) :=
  let! ids := in_sessions (list_pending_seller_accept_sessions limit) in
  sweep ids.

(** The sessions listed are read again from memory, where the listing left them. *)
Fixpoint first_expired (seller_id : string) (ref : option string) (ids : list string) : MA (option timeout_report) :=
  match ids with
  | [] => py_ret None
  | id :: r =>
      let! w := py_get in
      match dict_get id (live (sessions w)) with
      | None => first_expired seller_id ref r
      | Some x =>
          if negb (str_eqb (s_owner x) seller_id) || negb (bool_decide (s_ref x = ref)) || str_eqb id ""
          then first_expired seller_id ref r
          else
            let! found := try_session id in
            if match found with Some x => is_expired x | None => false end
            then process_expired_seller_session id true else first_expired seller_id ref r
      end
  end.
Definition timed_out (seller_id : string) (ref : option string) (ev : accept_event) : bool :=
  str_eqb (e_seller ev) seller_id && bool_decide (e_ref ev = ref) && bool_decide (e_outcome ev = NonConfirm Timeout).
Definition check_interaction_seller_timeout (seller_id scene_id : string) (ref session_id : option string) : MA (option timeout_report) :=
  let! out := (if truthy_str session_id then process_expired_seller_session (default "" session_id) true else py_ret None) in
  match out with
  | Some o => py_ret (Some o)
  | None =>
      if negb (truthy_str ref) then py_ret None
      else
        ensure_book_loaded ;;;
        let! w := py_get in
        match List.find (timed_out seller_id ref) (rev (events (book w))) with
        | Some ev =>
            let! p := seller_risk_profile seller_id scene_id in
            py_ret (Some (TimeoutReport None seller_id scene_id ref None None (Some ev) None p false))
        | None =>
            let! ids := in_sessions (list_pending_seller_accept_sessions 200) in
            first_expired seller_id ref ids
        end
  end.

(** ** Runs *)

Context (conf_cat : catalog) (token_hex : nat -> string).

Inductive accept_op : Type :=
| SessionOp (o : confirmation_op)
| RecordNonConfirm (reason : string) (a : record_args)
| RecordConfirm (a : record_args)
| ArmLiability (seller_id scene_id : string) (amount : float) (ref session_id : option string)
| QuoteBreach (seller_id scene_id : string) (amount fraction : float)
| RiskProfileOf (seller_id scene_id : string)
| AcceptTtl (scene_id : string) (seller_id : option string)
| ProcessExpired (id : string) (apply_cancel : bool)
| ExpirePending (limit : nat)
| CheckInteraction (seller_id scene_id : string) (ref session_id : option string)
| ResetLedger.

(** A process that starts has read neither file. *)
Definition book_restart (w : accept_world) : accept_world := AcceptWorld empty_ledger false (book_file w) (sessions w).
Definition quiet {A} (m : MA A) : MA unit := m ;;; py_ret tt.
Definition accept_perform (o : accept_op) : MA unit :=
  match o with
  | SessionOp Restart => in_sessions (perform conf_cat token_hex Restart) ;;; py_modify book_restart
  | SessionOp o => in_sessions (perform conf_cat token_hex o)
  | RecordNonConfirm reason a => quiet (record_seller_non_confirm reason a)
  | RecordConfirm a => quiet (record_seller_confirm a)
  | ArmLiability seller_id scene_id amount ref session_id => quiet (arm_post_confirm_liability seller_id scene_id amount ref session_id)
  | QuoteBreach seller_id scene_id amount fraction => quiet (compute_breach_compensation seller_id scene_id amount fraction)
  | RiskProfileOf seller_id scene_id => quiet (seller_risk_profile seller_id scene_id)
  | AcceptTtl scene_id seller_id => quiet (scene_accept_ttl_seconds scene_id seller_id)
  | ProcessExpired id apply_cancel => quiet (process_expired_seller_session id apply_cancel)
  | ExpirePending limit => quiet (expire_pending_seller_accepts limit)
  | CheckInteraction seller_id scene_id ref session_id => quiet (check_interaction_seller_timeout seller_id scene_id ref session_id)
  | ResetLedger => reset_accept_ledger
  end.
Definition accept_run (ops : list accept_op) (w : accept_world) : accept_world :=
  fold_left (fun w o => run_state (accept_perform o) w) ops w.
Definition no_acceptances (t : datetime) : accept_world := AcceptWorld empty_ledger false None (no_confirmations t).
End Accepting.
