(* ===== verification/AcceptRuns.v ===== *)
(** * The ledger of acceptances: runs

    In every sequence of requests, restarts and failing disks the counters of the ledger
    are the replay of a log whose end is the list of events kept, one event per session
    and outcome; tiers follow the counts; the sweep cancels and reports the sessions it
    is there for and leaves the others alone. *)

From Stdlib Require Import SpecFloat Sorted.
From S2P Require Import Prelude PyJson PyDatetime PyFloat PyHoare PySort PyStore Confirmations ConfirmationRuns AcceptFulfillment.
#[local] Open Scope string_scope.
#[local] Open Scope py_scope.

(** ** Replaying a log *)

Definition apply_event (seller : string) (e : seller_entry) (ev : accept_event) : seller_entry :=
  if str_eqb (e_seller ev) seller
  then match e_outcome ev with
       | NonConfirm reason => missed reason (e_scene ev) (default fzero (e_delta ev)) (e_created ev) e
       | Accepted => accepted (e_created ev) e
       end
  else e.
Definition replay (seller : string) (log : list accept_event) : seller_entry := fold_left (apply_event seller) log fresh_entry.

(** One event per session and outcome. *)
Definition one_each (evs : list accept_event) : Prop :=
  forall i j ev ev', evs !! i = Some ev -> evs !! j = Some ev' -> truthy_str (e_session ev) = true ->
    e_session ev = e_session ev' -> e_outcome ev = e_outcome ev' -> i = j.
(** The counters are the replay of a log, of which the last events, or all, are kept. *)
Definition replays (b : ledger) : Prop :=
  one_each (events b)
  /\ exists old, (forall seller, entry_of seller b = replay seller (old ++ events b)) /\ (old = [] \/ 4000 <= length (events b)).
Record book_sound (w : accept_world) : Prop := BookSound {
  sound_book : replays (book w);
  sound_file : forall b, book_file w = Some b -> replays b
}.

Lemma replay_snoc seller log ev : replay seller (log ++ [ev]) = apply_event seller (replay seller log) ev.
Proof. apply fold_left_app. Qed.
Lemma entry_set k e b j evs : entry_of j (Ledger (dict_set k e (sellers b)) evs) = if bool_decide (j = k) then e else entry_of j b.
Proof. unfold entry_of. cbn. rewrite put_get. by case_bool_decide. Qed.
Lemma trim_cases evs : exists old, evs = (old ++ trim evs)%list /\ (old = [] \/ 4000 <= length (trim evs)).
Proof.
  unfold trim. destruct (EVENTS_MAX <? Z.of_nat (length evs))%Z eqn:H; [|exists []; split; [done|by left]].
  unfold py_from. exists (take (py_index (- EVENTS_KEPT) evs) evs). split; [symmetry; apply take_drop|right].
  rewrite length_drop. unfold py_index, EVENTS_KEPT, EVENTS_MAX in *. rewrite (proj2 (Z.ltb_lt _ _)) by done. lia.
Qed.
Lemma one_each_suffix old evs : one_each (old ++ evs) -> one_each evs.
Proof.
  intros H i j ev ev' Hi Hj Ht Hs Ho. assert (length old + i = length old + j)%nat; [|lia].
  eapply (H _ _ ev ev'); [| |done..]; rewrite lookup_app_r by lia; by rewrite Nat.add_comm, Nat.add_sub.
Qed.
Lemma earlier_none session o evs ev : earlier session o evs = None -> ev ∈ evs -> truthy_str session = true ->
  e_session ev = session -> e_outcome ev <> o.
Proof.
  unfold earlier. intros H Hin Ht He Ho. rewrite Ht in H. apply list_elem_of_In in Hin. pose proof (find_none _ _ H ev Hin) as Hn.
  cbn in Hn. by rewrite !bool_decide_true in Hn.
Qed.
Lemma one_each_snoc evs ev : earlier (e_session ev) (e_outcome ev) evs = None -> one_each evs -> one_each (evs ++ [ev]).
Proof.
  intros Hn H i j x y Hi Hj Ht Hs Ho. apply lookup_snoc_Some in Hi, Hj.
  destruct Hi as [[Hi Hx]|[-> <-]], Hj as [[Hj Hy]|[-> <-]]; [by eapply H| | |done]; exfalso.
  - eapply earlier_none; [exact Hn|by eapply list_elem_of_lookup_2|congruence|done|done].
  - eapply earlier_none; [exact Hn|by eapply list_elem_of_lookup_2|congruence|done|done].
Qed.
(** Appending an event whose entry is its effect, with the oldest events dropped. *)
Lemma replays_append b k ev e evs : replays b ->
  evs = (events b ++ [ev])%list \/ evs = trim (events b ++ [ev])%list ->
  k = e_seller ev -> earlier (e_session ev) (e_outcome ev) (events b) = None -> e = apply_event k (entry_of k b) ev ->
  replays (Ledger (dict_set k e (sellers b)) evs).
Proof.
  intros [H1 (old & Hr & Hold)] Hevs -> Hn ->.
  assert (exists cut, (events b ++ [ev])%list = (cut ++ evs)%list /\ (cut = [] \/ 4000 <= length evs)) as (cut & Hcut & Hlen).
  { destruct Hevs as [-> | ->]; [exists []; split; [done|by left]|apply trim_cases]. }
  split; cbn [events].
  - apply (one_each_suffix cut). rewrite <- Hcut. by apply one_each_snoc.
  - exists (old ++ cut)%list. rewrite <- app_assoc, <- Hcut, app_assoc. split.
    + intros seller. rewrite entry_set, replay_snoc, <- Hr. case_bool_decide as E; [by subst|]. unfold apply_event, str_eqb.
      by rewrite bool_decide_false by congruence.
    + destruct Hlen as [-> |Hlen]; [|by right]. rewrite app_nil_r. destruct Hold as [-> |Hold]; [by left|right].
      rewrite <- (app_nil_l evs), <- Hcut, length_app. cbn. lia.
Qed.
Lemma replays_empty : replays empty_ledger.
Proof. split; [by intros [] j ev ev' Hi|exists []; split; [done|by left]]. Qed.

(** ** Requests keep the ledger a replay *)

Lemma keeps_pure {S E A} (I : S -> Prop) (m : M S E A) : (forall s, (m s).1 = s) -> keeps I m.
Proof. intros H s Hs. unfold run_state. by rewrite H. Qed.

Section Kept.
Abbreviation kept := (keeps (E := accept_error) book_sound).

Lemma book_memory_sound w : book_sound w -> book_sound (book_memory w).
Proof. intros [H1 H2]. unfold book_memory. destruct (book_loaded w); [done|]. split; [|done]. cbn. destruct (book_file w); auto. Qed.
Lemma kept_book_load : kept ensure_book_loaded.
Proof. apply keeps_modify, book_memory_sound. Qed.
Lemma kept_book_persist : kept persist_book.
Proof.
  intros w [H1 H2]. unfold run_state, persist_book, py_bind. cbn. destruct (disk (sessions w)); cbn; split; try done. by intros b [= <-].
Qed.
Lemma kept_utcnow : kept utcnow.
Proof. by intros w. Qed.
Lemma kept_sessions {A} (m : MC A) : kept (in_sessions m).
Proof. intros w [H1 H2]. unfold run_state, in_sessions. destruct (m (sessions w)) as [c [a|[]]]; by split. Qed.
Lemma kept_caught {A} (m : MA A) : kept m -> kept (caught m).
Proof. intros Hm w Hw. specialize (Hm w Hw). unfold run_state, caught in *. by destruct (m w) as [w' [x|[]]]. Qed.
Lemma kept_trying id : kept (try_session id).
Proof. unfold try_session. apply keeps_bind; [apply kept_caught, kept_sessions|intros r; apply keeps_ret]. Qed.
Lemma fresh_replays sid b : dict_get sid (sellers b) = None -> replays b -> replays (Ledger (dict_set sid fresh_entry (sellers b)) (events b)).
Proof.
  intros Hn [H1 (old & Hr & Ho)]. split; [done|]. exists old. split; [|done]. intros seller. rewrite entry_set, <- Hr.
  case_bool_decide as E; [|done]. subst. unfold entry_of. by rewrite Hn.
Qed.
Lemma kept_set_book b : replays b -> kept (py_modify (set_book b)).
Proof. intros Hb. apply keeps_modify. by intros w [H1 H2]. Qed.
Hint Resolve kept_book_load kept_book_persist kept_utcnow kept_sessions kept_trying kept_set_book fresh_replays sound_book : keeps.

Lemma kept_entry seller : kept (seller_entry_of seller).
Proof. unfold seller_entry_of. keep_reads. Qed.
Hint Resolve kept_entry : keeps.

Section Catalogue.
Context (cat : accept_catalog).

Lemma kept_profile seller scene_id : kept (seller_risk_profile cat seller scene_id).
Proof. unfold seller_risk_profile. keep_reads. Qed.
Hint Resolve kept_profile : keeps.
Lemma kept_non_confirm reason a : kept (record_non_confirm cat reason a).
Proof.
  unfold record_non_confirm, non_confirm_of. keep_reads. apply kept_set_book.
  eapply replays_append; [by apply sound_book|by right|done..|]. unfold apply_event, str_eqb. cbn. by rewrite bool_decide_true.
Qed.
Lemma kept_arm seller scene_id amount ref session : kept (arm_post_confirm_liability cat seller scene_id amount ref session).
Proof. unfold arm_post_confirm_liability. keep_reads. Qed.
Hint Resolve kept_non_confirm kept_arm : keeps.
Lemma kept_acceptance a : kept (record_seller_confirm cat a).
Proof.
  unfold record_seller_confirm. apply keeps_bind; [apply kept_book_load|intros []]. apply keeps_read. intros w Hw.
  apply keeps_bind; [apply kept_utcnow|intros at_]. cbv zeta. destruct (earlier _ _ _) eqn:He; [cbn; keep_reads|].
  apply keeps_bind; [|keep_reads]. apply keeps_when, keeps_bind; [|keep_reads]. apply kept_set_book.
  eapply replays_append; [by apply sound_book|by left|done..|]. unfold apply_event, str_eqb. cbn. by rewrite bool_decide_true.
Qed.
Lemma kept_process id cancel : kept (process_expired_seller_session cat id cancel).
Proof. unfold process_expired_seller_session. keep_reads. Qed.
Hint Resolve kept_acceptance kept_process : keeps.
Lemma kept_sweeping ids : kept (sweep cat ids).
Proof. induction ids as [|id ids IH]; cbn [sweep]; keep_reads. Qed.
Lemma kept_first seller ref ids : kept (first_expired cat seller ref ids).
Proof. induction ids as [|id ids IH]; cbn [first_expired]; keep_reads. Qed.
Hint Resolve kept_sweeping kept_first : keeps.
Lemma kept_reset : kept reset_accept_ledger.
Proof.
  unfold reset_accept_ledger. apply keeps_bind; [apply keeps_modify; intros w [_ H]; split; [apply replays_empty|done]|intros []].
  keep_reads; apply keeps_modify; intros w' [H' _]; by split.
Qed.
Lemma kept_accept_step conf_cat token_hex o : kept (accept_perform cat conf_cat token_hex o).
Proof.
  destruct o as [o| | | | | | | | | |]; cbn [accept_perform]; try destruct o;
    unfold quiet, record_seller_non_confirm, compute_breach_compensation, scene_accept_ttl_seconds, expire_pending_seller_accepts, check_interaction_seller_timeout;
    try apply kept_reset; keep_reads.
  apply keeps_modify. intros w [_ H]. split; [apply replays_empty|done].
Qed.
End Catalogue.
End Kept.

(** ** What a replay counts *)

Definition count (f : accept_event -> bool) (log : list accept_event) : Z := Z.of_nat (length (List.filter f log)).
Definition of_seller (seller : string) (o : accept_outcome) (ev : accept_event) : bool :=
  str_eqb (e_seller ev) seller && bool_decide (e_outcome ev = o).
Definition in_scene (scene_id : string) (f : accept_event -> bool) (ev : accept_event) : bool := f ev && str_eqb (e_scene ev) scene_id.
Definition misses_of (seller : string) (ev : accept_event) : bool :=
  of_seller seller (NonConfirm Timeout) ev || of_seller seller (NonConfirm Reject) ev.
(** The entry of a seller says of the log how often, what it cost and when last. *)
Record counts_log (seller : string) (log : list accept_event) (e : seller_entry) : Prop := Tallies {
  tally_missed : non_confirm_count e = count (misses_of seller) log;
  tally_timeouts : timeout_count e = count (of_seller seller (NonConfirm Timeout)) log;
  tally_rejects : reject_count e = count (of_seller seller (NonConfirm Reject)) log;
  tally_accepts : confirm_count e = count (of_seller seller Accepted) log;
  tally_cost : reputation_delta_total e
    = fold_left fadd (map (fun ev => default fzero (e_delta ev)) (List.filter (misses_of seller) log)) fzero;
  tally_last : last_event_at e = last (map e_created (List.filter (fun ev => str_eqb (e_seller ev) seller) log));
  tally_scenes : forall scene_id, default (SceneCount 0 0 0) (dict_get scene_id (by_scene e))
    = SceneCount (count (in_scene scene_id (misses_of seller)) log)
        (count (in_scene scene_id (of_seller seller (NonConfirm Timeout))) log)
        (count (in_scene scene_id (of_seller seller (NonConfirm Reject))) log)
}.
Lemma filter_snoc {A} (f : A -> bool) l x : List.filter f (l ++ [x]) = (List.filter f l ++ if f x then [x] else [])%list.
Proof. rewrite List.filter_app. cbn. by destruct (f x). Qed.
Lemma count_snoc f log ev : count f (log ++ [ev]) = (count f log + if f ev then 1 else 0)%Z.
Proof. unfold count. rewrite filter_snoc, length_app. destruct (f ev); cbn; lia. Qed.
Lemma bump_scene scene_id s reason scs c : default (SceneCount 0 0 0) (dict_get scene_id scs) = c ->
  default (SceneCount 0 0 0) (dict_get scene_id (dict_set s (bump reason (default (SceneCount 0 0 0) (dict_get s scs))) scs))
  = if str_eqb s scene_id then bump reason c else c.
Proof. intros <-. rewrite put_get. unfold str_eqb. repeat case_bool_decide; by subst. Qed.
Lemma counts_log_snoc seller log e ev : counts_log seller log e -> counts_log seller (log ++ [ev]) (apply_event seller e ev).
Proof.
  intros [T1 T2 T3 T4 T5 T6 T7]. unfold apply_event, misses_of, of_seller in *.
  split; [..|intros sc]; rewrite ?count_snoc, ?filter_snoc, ?map_app, ?fold_left_app; unfold in_scene, misses_of, of_seller;
    destruct (str_eqb (e_seller ev) seller); cbn; rewrite ?app_nil_r, ?Z.add_0_r; try done.
  1-6: destruct (e_outcome ev) as [[]|]; cbn; rewrite ?last_snoc, ?app_nil_r, ?Z.add_0_r; try done; try (by f_equal);
    (repeat case_bool_decide; try done; cbn; by f_equal).
  destruct (e_outcome ev) as [reason|]; [|cbn; rewrite ?Z.add_0_r; apply T7].
  cbn [missed by_scene]. rewrite (bump_scene sc _ _ _ _ (T7 sc)). unfold in_scene, bump. cbn [sc_non_confirm sc_timeout sc_reject].
  destruct reason, (str_eqb (e_scene ev) sc); repeat case_bool_decide; try done; cbn; by rewrite ?Z.add_0_r.
Qed.
Lemma replay_counts seller log : counts_log seller log (replay seller log).
Proof.
  induction log as [|ev log IH] using rev_ind; [by split|]. rewrite replay_snoc. by apply counts_log_snoc.
Qed.

(** ** The ledger in every run *)

Section Catalogues.
Context (cat : accept_catalog) (conf_cat : catalog) (token_hex : nat -> string).
Abbreviation run := (accept_run cat conf_cat token_hex).

Lemma run_sound_book t ops : book_sound (run ops (no_acceptances t)).
Proof.
  induction ops as [|o ops IH] using rev_ind; [split; [apply replays_empty|done]|]. unfold accept_run. rewrite fold_left_app.
  by apply kept_accept_step.
Qed.

(** C25. In every sequence of requests, restarts and failing disks, the ledger in memory
    and the one in the file each belong to a log of misses and acceptances, of which
    they keep the end: all of it, or at least 4000 events.  The counters of every
    seller, per scene too, the reputation lost and the time of the last event are what
    the log says, and a session is counted at most once for each outcome among the
    events kept. *)
Theorem ledger_tallies t ops b (w := run ops (no_acceptances t)) : b = book w \/ book_file w = Some b ->
  (exists old, let log := (old ++ events b)%list in
     (old = [] \/ 4000 <= length (events b)) /\ forall seller, counts_log seller log (entry_of seller b))
  /\ forall i j ev ev' id, events b !! i = Some ev -> events b !! j = Some ev' -> id <> "" ->
       e_session ev = Some id -> e_session ev' = Some id -> e_outcome ev = e_outcome ev' -> i = j.
Proof.
  intros Hb. assert (replays b) as [H1 (old & Hr & Ho)].
  { destruct (run_sound_book t ops) as [S1 S2]. destruct Hb as [->|Hb]; [done|by apply S2]. }
  split.
  - exists old. split; [done|]. intros seller. rewrite Hr. apply replay_counts.
  - intros i j ev ev' id Hi Hj Hid Hs Hs' Hout. apply (H1 i j ev ev'); [done..| |congruence|done]. by rewrite (truthy_str_some _ id).
Qed.
End Catalogues.

(** ** Tiers *)

Section Tiers.
Context (n : Z) (force : bool).
Definition reached (t : threshold) : bool := (count_of t <=? n)%Z.
Definition take_tier (a : active_tier) (t : threshold) : active_tier := if reached t then tier_at force t else a.

Lemma last_reached ts a : StronglySorted (fun x y => asc_by count_of x y = true) ts ->
  (fold_left take_tier ts a = a /\ Forall (fun t => reached t = false) ts)
  \/ exists t, t ∈ ts /\ reached t = true /\ fold_left take_tier ts a = tier_at force t
       /\ forall u, u ∈ ts -> reached u = true -> (count_of u <= count_of t)%Z.
Proof.
  revert a. induction ts as [|t ts IH]; intros a Hs; [by left|]. apply StronglySorted_inv in Hs as [Hs Ht].
  cbn. destruct (IH (take_tier a t) Hs) as [[He Hf]|(u & Hu & Hr & He & Hm)].
  - rewrite He. unfold take_tier. destruct (reached t) eqn:E; [right|left; by split; [|constructor]].
    exists t. split; [by left|]. split; [done|]. split; [done|]. intros u [->|Hu]%elem_of_cons Hr; [done|].
    rewrite Forall_forall in Hf. by rewrite Hf in Hr.
  - right. exists u. split; [by right|]. split; [done|]. split; [done|]. intros v [->|Hv]%elem_of_cons Hr'; [|by apply Hm].
    rewrite Forall_forall in Ht. apply Z.leb_le. by apply Ht.
Qed.
End Tiers.

Section Catalogue.
Context (cat : accept_catalog).

(** C40. The tier of a seller is that of the highest threshold of the scene which the
    count of misses has reached, or the normal one while it has reached none; scenes of
    high risk and those that say so always need the owner. *)
Theorem tier_follows_count n scene_id (a := threshold_for_count cat n scene_id) (pol := scene_policy cat scene_id) :
  (forall t, t ∈ p_thresholds pol -> (n < count_of t)%Z) /\ a_tier a = "normal" /\ a_bond a = half 2 /\ a_count a = 0%Z
     /\ a_force a = flag (p_high_risk pol) || flag (p_force pol)
  \/ exists t, t ∈ p_thresholds pol /\ (count_of t <= n)%Z
        /\ (forall u, u ∈ p_thresholds pol -> (count_of u <= n)%Z -> (count_of u <= count_of t)%Z)
        /\ a_tier a = or_str (t_tier t) "elevated" /\ a_bond a = or_float (t_bond t) (half 2) /\ a_count a = count_of t
        /\ a_force a = t_force t || flag (p_high_risk pol) || flag (p_force pol).
Proof.
  subst a. unfold threshold_for_count. fold pol. set (force := flag (p_force pol)).
  change (fun a t => if (count_of t <=? n)%Z then tier_at force t else a) with (take_tier n force).
  set (a0 := ActiveTier "normal" _ _ _ _ _).
  pose proof (sort_by_sorted (asc_by count_of) (asc_total _) (asc_trans _) (p_thresholds pol)) as Hs.
  assert (forall t, t ∈ sort_by (asc_by count_of) (p_thresholds pol) <-> t ∈ p_thresholds pol) as Hin by (intros t; apply elem_of_sort_by).
  destruct (last_reached n force _ a0 Hs) as [[-> Hf]|(t & Ht & Hr & -> & Hm)]; [left|right].
  - split; [|subst a0; by destruct (flag (p_high_risk pol)), force]. rewrite Forall_forall in Hf. intros t Ht%Hin%Hf.
    by apply Z.leb_gt.
  - exists t. rewrite <- Hin. split; [done|]. split; [by apply Z.leb_le|].
    split; [intros u Hu%Hin Hle; apply Hm; [done|by apply Z.leb_le]|].
    unfold tier_at. by destruct (flag (p_high_risk pol)), force, (t_force t).
Qed.

(** ** The sweep *)

(** An order that waits for its seller, and one whose time is over at [t]. *)
Definition open_accept (x : ConfirmationSession) : bool := is_seller_accept x && mem (s_status x) [PENDING; EXPIRED].
Definition overdue (t : datetime) (x : ConfirmationSession) : bool := open_accept x && is_expired (expire t x).
Definition aged (t : datetime) (x : ConfirmationSession) : ConfirmationSession := if open_accept x then expire t x else x.

(** A process that has read its sessions, at [t], with a working disk. *)
Record ready (t : datetime) (w : confirmations) : Prop := Ready {
  ready_loaded : loaded w = true;
  ready_disk : disk w = Writable;
  ready_now : now w = t
}.
Lemma ready_memory w t : ready t w -> memory w = w.
Proof. intros [H _ _]. unfold memory. by rewrite H. Qed.
Lemma ready_live t w d f : ready t w -> ready t (set_file f (set_live d w)).
Proof. by intros []. Qed.

Lemma expire_spec id x t w : ready t w -> dict_get id (live w) = Some x ->
  exists w', expire_if_needed id x w = (w', Ret (expire t x)) /\ ready t w'
    /\ forall j, dict_get j (live w') = if bool_decide (j = id) then Some (expire t x) else dict_get j (live w).
Proof.
  intros [Hl Hd <-] Hx. unfold expire_if_needed, py_when, py_bind. cbn. destruct (past_ttl (now w) x) eqn:Hp.
  - eexists. split; [done|]. split; [by split|]. intros j. cbn. by rewrite put_get.
  - exists w. split; [done|]. split; [done|]. intros j. unfold expire. rewrite Hp. by case_bool_decide; subst.
Qed.
Lemma aged_idle t x : open_accept x = false -> aged t x = x.
Proof. unfold aged. by intros ->. Qed.

(** The listing ages the open acceptances and names them all when the limit allows. *)
Lemma pending_spec t todo : forall limit out w, ready t w -> NoDup (map fst todo) ->
  (forall id x, (id, x) ∈ todo -> dict_get id (live w) = Some x) -> length out + length todo <= limit ->
  exists w', pending_accepts limit out todo w = (w', Ret (out ++ map fst (List.filter (fun p => open_accept p.2) todo))%list)
    /\ ready t w' /\ forall j, dict_get j (live w') = if mem j (map fst todo) then aged t <$> dict_get j (live w) else dict_get j (live w).
Proof.
  induction todo as [|[id x] todo IH]; intros limit out w Hw Hk Hin Hlen.
  { exists w. cbn. rewrite app_nil_r. by split_and!. }
  cbn [map fst] in Hk. apply NoDup_cons in Hk as [Hid Hk]. cbn [length] in Hlen.
  assert (dict_get id (live w) = Some x) as Hx by (apply Hin; by left).
  assert (forall w1, ready t w1 -> (forall j, dict_get j (live w1) = if bool_decide (j = id) then Some (aged t x) else dict_get j (live w)) ->
    forall out', length out' + length todo <= limit ->
    exists w', pending_accepts limit out' todo w1 = (w', Ret (out' ++ map fst (List.filter (fun p => open_accept p.2) todo))%list) /\ ready t w'
      /\ forall j, dict_get j (live w') = if mem j (id :: map fst todo) then aged t <$> dict_get j (live w) else dict_get j (live w)) as Hrest.
  { intros w1 H1 Hd out' Hlen'. destruct (IH limit out' w1) as (w' & E & Hw' & Hd'); [done..| |done|].
    - intros j y Hj. rewrite Hd. rewrite bool_decide_false; [apply Hin; by right|]. intros ->. apply Hid, list_elem_of_fmap. by exists (id, y).
    - exists w'. split; [done|]. split; [done|]. intros j. rewrite Hd', Hd. unfold mem. case_bool_decide as Hj.
      + rewrite bool_decide_false by (by intros ->). by rewrite bool_decide_true by by right.
      + case_bool_decide as Hji; [subst; rewrite bool_decide_true by (by left); by rewrite Hx|].
        rewrite bool_decide_false; [done|]. by intros [?|?]%elem_of_cons. }
  cbn [pending_accepts map fst List.filter snd].
  replace (_ || _) with (negb (open_accept x)) by apply negb_andb. destruct (open_accept x) eqn:Ho; cbn [negb].
  - destruct (expire_spec id x t w Hw Hx) as (w1 & E1 & H1 & Hd1). rewrite (bind_value _ _ _ _ _ E1).
    assert (mem (s_status (expire t x)) [PENDING; EXPIRED] = true) as ->.
    { apply andb_prop in Ho as [_ Ho]. unfold expire. by destruct (past_ttl t x). }
    assert (expire t x = aged t x) as Ea by (unfold aged; by rewrite Ho). rewrite Ea in Hd1.
    destruct (limit <=? length (out ++ [id]))%nat eqn:Hl; rewrite length_app in Hl; cbn in Hl.
    + destruct todo; [|apply Nat.leb_le in Hl; cbn in Hlen; lia]. destruct (Hrest w1 H1 Hd1 (out ++ [id])%list) as (w' & E & Hw' & Hd').
      { rewrite length_app. cbn in *. lia. }
      cbn in E. injection E as -> E. exists w'. cbn. by rewrite E.
    + destruct (Hrest w1 H1 Hd1 (out ++ [id])%list) as (w' & E & Hw' & Hd'); [rewrite length_app; cbn; lia|].
      exists w'. rewrite E, <- app_assoc. done.
  - apply Hrest; [done| |lia]. intros j. case_bool_decide; [|done]. subst. by rewrite aged_idle.
Qed.
Lemma listing_spec t limit c : disk c = Writable -> now c = t -> NoDup (map fst (live (memory c))) -> length (live (memory c)) <= limit ->
  exists c', list_pending_seller_accept_sessions limit c = (c', Ret (map fst (List.filter (fun p => open_accept p.2) (live (memory c)))))
    /\ ready t c' /\ forall j, dict_get j (live c') = aged t <$> dict_get j (live (memory c)).
Proof.
  intros Hd Ht Hk Hl. destruct (memory_facts c) as (F1 & F2 & F3 & _). assert (ready t (memory c)) as Hr by (split; congruence).
  destruct (pending_spec t (live (memory c)) limit [] (memory c)) as (w & E & Hw & Hdw); [done|done| |done|].
  { intros id x. by apply in_get. }
  exists (set_file (Some (live w)) w). split; [|split; [by destruct Hw|]].
  - unfold list_pending_seller_accept_sessions, ensure_sessions_loaded, ensure_loaded.
    rewrite (bind_value (py_modify memory) _ c (memory c) tt eq_refl), (bind_value py_get _ _ _ _ eq_refl), (bind_value _ _ _ _ _ E).
    unfold persist_sessions, persist, py_bind. cbn. by rewrite (ready_disk _ _ Hw).
  - intros j. cbn. rewrite Hdw. unfold mem. case_bool_decide as Hj; [done|].
    destruct (dict_get j (live (memory c))) as [x|] eqn:E'; [|done]. destruct Hj. apply list_elem_of_fmap. exists (j, x).
    split; [done|by apply get_in].
Qed.

Definition closed_by_timeout (t : datetime) (x : ConfirmationSession) : ConfirmationSession :=
  if is_expired x then cancelled TIMEOUT_REASON (drop_microsecond t) x else x.
(** The report names the session, its seller and an event of its timeout, one of [log]. *)
Definition reports (log : list accept_event) (id : string) (x : ConfirmationSession) (rep : timeout_report) : Prop :=
  tr_session rep = Some id /\ tr_seller rep = s_owner x
  /\ exists r, tr_recorded rep = Some r /\ rd_event r ∈ log /\ e_session (rd_event r) = Some id /\ e_outcome (rd_event r) = NonConfirm Timeout.
Lemma reports_more log log' id x rep : log ⊆ log' -> reports log id x rep -> reports log' id x rep.
Proof. intros H (H1 & H2 & r & H3 & H4 & H5). split; [done|]. split; [done|]. exists r. split; [done|]. split; [by apply H|done]. Qed.

(** ** The events of the ledger *)

Definition on_book (w : accept_world) : list accept_event := events (book (book_memory w)).
(** A ledger holds a log, or its end of 4000 events or more when it was cut. *)
Definition holds_log (evs log : list accept_event) : Prop := exists cut, log = (cut ++ evs)%list /\ (cut = [] \/ 4000 <= length evs).
(** The ledger after [new] events, and on file unless there are none. *)
Record gains (w : accept_world) (new : list accept_event) (w' : accept_world) : Prop := Gains {
  gains_events : holds_log (on_book w') (on_book w ++ new);
  gains_file : new <> [] -> exists b, book_file w' = Some b /\ events b = on_book w';
  gains_none : new = [] -> on_book w' = on_book w /\ book_file w' = book_file w
}.
Lemma gains_nothing w w' : on_book w' = on_book w -> book_file w' = book_file w -> gains w [] w'.
Proof. intros Hk Hf. split; [exists []; rewrite app_nil_r; split; [done|by left]|done|done]. Qed.
Lemma gains_trans w w1 w2 new new' : gains w new w1 -> gains w1 new' w2 -> gains w (new ++ new') w2.
Proof.
  intros [(cut & E & Hc) Hf Hn] [(cut' & E' & Hc') Hf' Hn']. split.
  - exists (cut ++ cut')%list. rewrite app_assoc, E, <- !app_assoc, E'. split; [done|]. destruct Hc' as [-> |]; [|by right].
    destruct Hc as [-> |Hl]; [by left|right]. cbn in E'. rewrite <- E', length_app. lia.
  - destruct new' as [|ev new']; [|by intros; apply Hf']. rewrite app_nil_r. intros H. destruct (Hn' eq_refl) as [-> ->]. by apply Hf.
  - intros [-> ->]%app_nil. destruct (Hn eq_refl) as [<- <-]. by apply Hn'.
Qed.
Lemma on_book_sessions c w : on_book (set_sessions c w) = on_book w.
Proof. unfold on_book, book_memory. cbn. by destruct (book_loaded w). Qed.
Lemma on_book_memory w : on_book (book_memory w) = on_book w /\ book_file (book_memory w) = book_file w.
Proof. unfold on_book, book_memory. by destruct (book_loaded w) eqn:E; cbn; rewrite ?E. Qed.

Lemma get_ready t id x c : ready t c -> dict_get id (live c) = Some x -> past_ttl t x = false ->
  exists c', get_confirmation_session id c = (c', Ret x) /\ ready t c' /\ live c' = live c.
Proof.
  intros Hr Hx Hp. pose proof (ready_memory _ _ Hr) as Hm. destruct Hr as [Hl Hd <-].
  unfold get_confirmation_session, ensure_sessions_loaded, ensure_loaded, find_session.
  rewrite (bind_value (py_modify memory) _ c c tt) by (by unfold py_modify; rewrite Hm).
  rewrite (bind_value _ _ _ _ _ (lookup_held _ _ _ _ Hx)), (bind_value _ _ _ _ _ (live_expire id x c Hp)).
  unfold py_when. destruct (is_expired x); [|by exists c].
  exists (set_file (Some (live c)) c). unfold persist_sessions, persist, py_bind. cbn. by rewrite Hd.
Qed.
Lemma try_ready t id x w : ready t (sessions w) -> dict_get id (live (sessions w)) = Some x -> past_ttl t x = false ->
  exists c, try_session id w = (set_sessions c w, Ret (Some x)) /\ ready t c /\ live c = live (sessions w).
Proof.
  intros Hr Hx Hp. destruct (get_ready t id x _ Hr Hx Hp) as (c & E & Hc & Hl). exists c. unfold try_session, caught, in_sessions, py_bind. by rewrite E.
Qed.
Lemma mark_ready t id x reason c : ready t c -> dict_get id (live c) = Some x -> s_status x = EXPIRED ->
  exists c', mark_session_expired_cancelled id reason c = (c', Ret (cancelled reason (drop_microsecond t) x)) /\ ready t c'
    /\ live c' = dict_set id (cancelled reason (drop_microsecond t) x) (live c).
Proof.
  intros Hr Hx Hs. pose proof (ready_memory _ _ Hr) as Hm. destruct Hr as [Hl Hd <-].
  unfold mark_session_expired_cancelled, ensure_sessions_loaded, ensure_loaded, find_session.
  rewrite (bind_value (py_modify memory) _ c c tt) by (by unfold py_modify; rewrite Hm).
  rewrite (bind_value _ _ _ _ _ (lookup_held _ _ _ _ Hx)). rewrite (bind_value _ _ _ _ _ (live_expire id x c ltac:(unfold past_ttl; by rewrite Hs))).
  rewrite bind_true by (by rewrite Hs). rewrite (bind_value py_get _ c c c eq_refl). eexists. split; [|split].
  - unfold put_session, persist_sessions. by rewrite put_writable.
  - by split.
  - done.
Qed.
Lemma entry_ready seller w : py_strip seller <> "" ->
  exists w' e, seller_entry_of seller w = (w', Ret e) /\ sessions w' = sessions w /\ on_book w' = on_book w /\ book_file w' = book_file w.
Proof.
  intros H. unfold seller_entry_of, ensure_book_loaded. rewrite (bind_value (py_modify book_memory) _ w _ tt eq_refl).
  unfold str_eqb. rewrite bool_decide_false by done. cbn [negb]. rewrite (bind_value (py_require true _) _ _ _ tt eq_refl).
  rewrite (bind_value py_get _ _ _ _ eq_refl). assert (sessions (book_memory w) = sessions w) by (unfold book_memory; by destruct (book_loaded w)).
  destruct (on_book_memory w) as [Hk Hf]. destruct (dict_get _ _) as [e|]; [by exists (book_memory w), e|].
  eexists _, _. split; [done|]. split; [done|]. split; [|done]. unfold on_book, book_memory. by destruct (book_loaded w) eqn:E; cbn; rewrite ?E.
Qed.
Lemma profile_ready seller scene_id w : py_strip seller <> "" ->
  exists w' p, seller_risk_profile cat seller scene_id w = (w', Ret p) /\ sessions w' = sessions w /\ on_book w' = on_book w /\ book_file w' = book_file w.
Proof.
  intros H. destruct (entry_ready seller w H) as (w' & e & E & Hs). unfold seller_risk_profile. rewrite (bind_value _ _ _ _ _ E).
  by eexists w', _.
Qed.
Lemma record_ready reason a w : disk (sessions w) = Writable -> py_strip (ra_seller a) <> "" -> truthy_str (ra_session a) = true ->
  exists w' r new, record_non_confirm cat reason a w = (w', Ret r) /\ sessions w' = sessions w
    /\ (rd_event r ∈ (on_book w ++ new)%list /\ e_session (rd_event r) = ra_session a /\ e_outcome (rd_event r) = NonConfirm reason)
    /\ gains w new w' /\ Forall (fun ev => ev = rd_event r /\ e_seller ev = ra_seller a) new.
Proof.
  intros Hd Hs Ht. unfold record_non_confirm, ensure_book_loaded. rewrite (bind_value (py_modify book_memory) _ w _ tt eq_refl).
  rewrite (bind_value py_get _ _ _ _ eq_refl). rewrite (bind_value utcnow _ _ _ _ eq_refl).
  assert (sessions (book_memory w) = sessions w) as Hm by (unfold book_memory; by destruct (book_loaded w)).
  destruct (earlier _ _ _) as [ev|] eqn:He.
  - destruct (profile_ready (ra_seller a) (ra_scene a) (book_memory w) Hs) as (w' & p & E & Hw & Hk & Hf). rewrite (bind_value _ _ _ _ _ E).
    destruct (on_book_memory w) as [Hk' Hf'].
    eexists w', _, []. split; [done|]. split; [congruence|]. unfold earlier in He. rewrite Ht in He. apply find_some in He as [Hin He].
    apply andb_prop in He as [H1%bool_decide_eq_true H2%bool_decide_eq_true]. rewrite app_nil_r. split; [|split; [apply gains_nothing; congruence|constructor]].
    split; [by apply list_elem_of_In|done].
  - cbn [non_confirm_of]. unfold non_confirm_of. rewrite (bind_value (py_modify _) _ _ _ tt eq_refl). set (w1 := set_book _ _).
    assert (persist_book w1 = (set_book_file (Some (book w1)) w1, Ret tt)) as Hp.
    { unfold persist_book, py_bind. cbn. by rewrite Hm, Hd. }
    rewrite (bind_value _ _ _ _ _ Hp).
    destruct (profile_ready (ra_seller a) (ra_scene a) (set_book_file (Some (book w1)) w1) Hs) as (w' & p & E & Hw & Hk & Hf).
    rewrite (bind_value _ _ _ _ _ E). eexists w', _, [_]. split; [done|]. split; [by rewrite Hw|]. cbn [rd_event].
    split; [split; [apply elem_of_app; right; by left|done]|]. split; [|by repeat constructor].
    assert (on_book (set_book_file (Some (book w1)) w1) = events (book w1)) as Hk1.
    { assert (book_loaded (book_memory w) = true) as Hlm by (unfold book_memory; by destruct (book_loaded w) eqn:El; rewrite ?El).
      unfold on_book, w1. unfold book_memory at 1. cbn. by rewrite Hlm. }
    split; [|intros _; exists (book w1); by rewrite Hf, Hk, Hk1|done]. rewrite Hk, Hk1. apply trim_cases.
Qed.
Lemma in_sessions_value {A} (m : MC A) w c a : m (sessions w) = (c, Ret a) -> in_sessions m w = (set_sessions c w, Ret a).
Proof. unfold in_sessions. by intros ->. Qed.
(** An event of the timeout of a session. *)
Definition missed_by (id : string) (x : ConfirmationSession) (ev : accept_event) : Prop :=
  e_session ev = Some id /\ e_outcome ev = NonConfirm Timeout /\ e_seller ev = s_owner x.
Lemma process_ready t id x w : ready t (sessions w) -> dict_get id (live (sessions w)) = Some x -> is_seller_accept x = true ->
  s_status x = EXPIRED -> py_strip (s_owner x) <> "" -> id <> "" ->
  exists w' rep new, process_expired_seller_session cat id true w = (w', Ret (Some rep)) /\ reports (on_book w ++ new) id x rep /\ ready t (sessions w')
    /\ live (sessions w') = dict_set id (closed_by_timeout t x) (live (sessions w))
    /\ gains w new w' /\ Forall (missed_by id x) new.
Proof.
  intros Hr Hx Ha Hs Ho Hid. assert (past_ttl t x = false) as Hp by (unfold past_ttl; by rewrite Hs).
  destruct (try_ready t id x w Hr Hx Hp) as (c & E & Hc & Hl). unfold process_expired_seller_session.
  rewrite (bind_value _ _ _ _ _ E), Ha. unfold is_expired. rewrite Hs, (bool_decide_false (EXPIRED = CANCELLED)), (bool_decide_true (EXPIRED = EXPIRED)) by done.
  cbn [andb negb].
  destruct (record_ready Timeout (timeout_args id x) (set_sessions c w)) as (w1 & r & new & E1 & Hs1 & (Hin & He1 & Ho1) & Hg & Hnew);
    [by apply Hc|done|by rewrite (truthy_str_some _ id)|].
  rewrite (bind_value _ _ _ _ _ E1). cbn [sessions set_sessions] in Hs1.
  destruct (mark_ready t id x TIMEOUT_REASON (sessions w1)) as (c2 & E2 & Hc2 & Hl2); [by rewrite Hs1|by rewrite Hs1, Hl|done|].
  unfold py_bind at 1 2. rewrite (in_sessions_value _ _ _ _ E2). rewrite on_book_sessions in Hin.
  eexists _, _, new. split; [done|]. split; [|split; [done|split; [|split]]].
  - split; [done|]. split; [done|]. by exists r.
  - cbn. rewrite Hl2, Hs1, Hl. unfold closed_by_timeout, is_expired. by rewrite Hs.
  - destruct Hg as [G1 G2 G3]. split; by rewrite ?on_book_sessions in *.
  - eapply Forall_impl; [exact Hnew|]. by intros ev [-> Hsel].
Qed.

(** What the listing leaves of a session the sweep may close. *)
Record sweepable (t : datetime) (id : string) (x : ConfirmationSession) : Prop := Sweepable {
  swept_accept : is_seller_accept x = true;
  swept_settled : past_ttl t x = false;
  swept_named : is_expired x = true -> id <> "" /\ py_strip (s_owner x) <> ""
}.
(** One session of the sweep. *)
Lemma sweep_head t id ids x w : ready t (sessions w) -> dict_get id (live (sessions w)) = Some x -> sweepable t id x ->
  exists w1 out new, sweep cat (id :: ids) w = py_bind (sweep cat ids) (fun rest => py_ret (match out with Some o => o :: rest | None => rest end)) w1
    /\ ready t (sessions w1)
    /\ (forall j, dict_get j (live (sessions w1)) = if bool_decide (j = id) then Some (closed_by_timeout t x) else dict_get j (live (sessions w)))
    /\ gains w new w1
    /\ if is_expired x then Forall (missed_by id x) new /\ exists rep, out = Some rep /\ reports (on_book w ++ new) id x rep else out = None /\ new = [].
Proof.
  intros Hr Hx [Ha Hp Hn]. cbn [sweep].
  assert (forall d, d = live (sessions w) -> is_expired x = false ->
    forall j, dict_get j d = if bool_decide (j = id) then Some (closed_by_timeout t x) else dict_get j (live (sessions w))) as Hsame.
  { intros d -> He j. unfold closed_by_timeout. rewrite He. by case_bool_decide; subst. }
  unfold str_eqb. case_bool_decide as Hid.
  { exists w, None, []. destruct (is_expired x) eqn:He; [by destruct (Hn eq_refl)|]. split; [|split; [done|split; [by apply Hsame|by split; [apply gains_nothing|]]]].
    unfold py_bind. by destruct (sweep cat ids w) as [w' [o|e]]. }
  destruct (try_ready t id x w Hr Hx Hp) as (c & E & Hc & Hl). rewrite (bind_value _ _ _ _ _ E). destruct (is_expired x) eqn:He.
  - destruct (Hn eq_refl) as [_ Ho]. apply bool_decide_eq_true in He as Hs.
    destruct (process_ready t id x (set_sessions c w)) as (w1 & rep & new & E1 & Hrep & Hw1 & Hl1 & Hg & Hnew); [done|by cbn; rewrite Hl|done..|].
    rewrite (bind_value _ _ _ _ _ E1). rewrite on_book_sessions in Hrep. exists w1, (Some rep), new. split; [done|]. split; [done|]. split; [|split].
    + intros j. rewrite Hl1, put_get. cbn. by rewrite Hl.
    + destruct Hg as [G1 G2 G3]. split; by rewrite ?on_book_sessions in *.
    + split; [done|]. by exists rep.
  - rewrite (bind_value (py_ret None) _ _ _ None eq_refl). exists (set_sessions c w), None, []. split; [done|]. split; [done|].
    split; [by apply Hsame|]. split; [apply gains_nothing; [apply on_book_sessions|done]|done].
Qed.
Lemma sweep_ready t ids : forall w, ready t (sessions w) -> NoDup ids ->
  (forall id, id ∈ ids -> exists x, dict_get id (live (sessions w)) = Some x /\ sweepable t id x) ->
  exists w' out new, sweep cat ids w = (w', Ret out) /\ ready t (sessions w')
    /\ (forall j, dict_get j (live (sessions w')) =
         if mem j ids then closed_by_timeout t <$> dict_get j (live (sessions w)) else dict_get j (live (sessions w)))
    /\ (forall id x, id ∈ ids -> dict_get id (live (sessions w)) = Some x -> is_expired x = true -> exists rep, rep ∈ out /\ reports (on_book w ++ new) id x rep)
    /\ (forall rep, rep ∈ out -> exists id x, id ∈ ids /\ dict_get id (live (sessions w)) = Some x /\ is_expired x = true /\ reports (on_book w ++ new) id x rep)
    /\ gains w new w'
    /\ forall ev, ev ∈ new -> exists id x, id ∈ ids /\ dict_get id (live (sessions w)) = Some x /\ is_expired x = true /\ missed_by id x ev.
Proof.
  induction ids as [|id ids IH]; intros w Hr Hk Hin.
  { exists w, [], []. split_and!; [done|done|done|by intros id x H%not_elem_of_nil|by intros rep H%not_elem_of_nil|by apply gains_nothing|].
    by intros ev H%not_elem_of_nil. }
  apply NoDup_cons in Hk as [Hid Hk]. destruct (Hin id ltac:(by left)) as (x & Hx & Hsw).
  destruct (sweep_head t id ids x w Hr Hx Hsw) as (w1 & o & new1 & E & Hr1 & Hd1 & Hg1 & Ho).
  assert (forall j, j ∈ ids -> dict_get j (live (sessions w1)) = dict_get j (live (sessions w))) as Hd1'.
  { intros j Hj. rewrite Hd1. rewrite bool_decide_false; [done|]. by intros ->. }
  destruct (IH w1 Hr1 Hk) as (w' & out & new & E' & Hr' & Hd' & Hall & Honly & Hg & Hnew).
  { intros j Hj. rewrite Hd1' by done. apply Hin. by right. }
  assert ((on_book w ++ new1 ⊆ on_book w ++ new1 ++ new)%list) as Hfirst by (intros ev; rewrite !elem_of_app; tauto).
  assert ((on_book w1 ++ new ⊆ on_book w ++ new1 ++ new)%list) as Hlater.
  { destruct (gains_events _ _ _ Hg1) as (cut & Ec & _). intros ev. rewrite (app_assoc (on_book w)), Ec, !elem_of_app. tauto. }
  exists w', (match o with Some o => o :: out | None => out end), (new1 ++ new)%list. rewrite E. unfold py_bind. rewrite E'. split; [done|]. split; [done|].
  split; [|split; [|split; [|split]]].
  - intros j. rewrite Hd', Hd1. unfold mem. case_bool_decide as Hj.
    + rewrite bool_decide_false by (by intros ->). by rewrite bool_decide_true by by right.
    + case_bool_decide as Hji; [subst; rewrite bool_decide_true by (by left); by rewrite Hx|].
      rewrite bool_decide_false; [done|]. by intros [?|?]%elem_of_cons.
  - intros j y [->|Hj]%elem_of_cons Hy He.
    + replace y with x in * by congruence. rewrite He in Ho. destruct Ho as (_ & rep & -> & Hrep). exists rep. split; [by left|exact (reports_more _ _ _ _ _ Hfirst Hrep)].
    + destruct (Hall j y Hj) as (rep & Hin' & Hrep); [by rewrite Hd1'|done|]. exists rep. split; [|exact (reports_more _ _ _ _ _ Hlater Hrep)]. destruct o; [by right|done].
  - intros rep Hrep. assert ((o = Some rep) \/ rep ∈ out) as [->|H] by (destruct o; [apply elem_of_cons in Hrep as [->|?]; auto|auto]).
    + destruct (is_expired x) eqn:He; [|by destruct Ho]. destruct Ho as (_ & rep' & [= ->] & Hr2). exists id, x. split; [by left|].
      split; [done|]. split; [done|exact (reports_more _ _ _ _ _ Hfirst Hr2)].
    + destruct (Honly rep H) as (j & y & Hj & Hy & He & Hr2). exists j, y. split; [by right|]. rewrite Hd1' in Hy by done.
      split; [done|]. split; [done|exact (reports_more _ _ _ _ _ Hlater Hr2)].
  - by eapply gains_trans.
  - intros ev [Hev|Hev]%elem_of_app.
    + destruct (is_expired x) eqn:He; [|destruct Ho as [_ ->]; by apply not_elem_of_nil in Hev]. destruct Ho as [Ho _].
      exists id, x. split; [by left|]. split; [done|]. split; [done|]. by eapply Forall_forall in Ho.
    + destruct (Hnew ev Hev) as (j & y & Hj & Hy & He). exists j, y. split; [by right|]. by rewrite Hd1' in Hy.
Qed.

Lemma expire_expired t x : is_expired (expire t x) = true -> expire t x = with_status EXPIRED x.
Proof.
  unfold expire. destruct (past_ttl t x); [done|]. intros H%bool_decide_eq_true. destruct x; cbn in *. by subst.
Qed.
Lemma expire_open t x : is_expired (expire t x) = false -> expire t x = x.
Proof. unfold expire. by destruct (past_ttl t x). Qed.
Lemma aged_sweepable t id x : open_accept x = true -> (overdue t x = true -> id <> "" /\ py_strip (s_owner x) <> "") ->
  sweepable t id (aged t x).
Proof.
  intros Ho Hn. unfold aged. rewrite Ho. destruct (expire_same t x) as [(_ & E2 & E3 & E4 & _) He]. split.
  - unfold is_seller_accept. rewrite E2, E3. by apply andb_prop in Ho as [? _].
  - destruct (is_expired (expire t x)) eqn:Hx; [by rewrite expire_expired|]. rewrite (expire_open t x Hx). unfold expire in Hx.
    by destruct (past_ttl t x).
  - intros Hx. rewrite E4. apply Hn. unfold overdue. by rewrite Ho.
Qed.
Lemma listed (d : dict) id x : NoDup (map fst d) -> dict_get id d = Some x ->
  mem id (map fst (List.filter (fun p => open_accept p.2) d)) = open_accept x.
Proof.
  intros Hk Hx. unfold mem. destruct (open_accept x) eqn:Ho.
  - apply bool_decide_true, list_elem_of_fmap. exists (id, x). split; [done|]. apply list_elem_of_In, filter_In. split; [|done].
    by apply dict_get_In.
  - apply bool_decide_false. intros ([j y] & -> & [Hin Hy]%list_elem_of_In%filter_In)%list_elem_of_fmap. cbn in *.
    apply list_elem_of_In, in_get in Hin; [|done]. congruence.
Qed.

Lemma aged_owner t x : s_owner (aged t x) = s_owner x.
Proof. unfold aged. destruct (open_accept x); [|done]. by destruct (expire_same t x) as [(_ & _ & _ & -> & _) _]. Qed.
Lemma aged_reports log t id x rep : reports log id (aged t x) rep -> reports log id x rep.
Proof. unfold reports. by rewrite aged_owner. Qed.
Lemma aged_overdue t x : open_accept x = true -> is_expired (aged t x) = overdue t x.
Proof. intros Ho. unfold aged, overdue. by rewrite Ho. Qed.
(** What the sweep finds expired was overdue. *)
Lemma swept_open t (c : confirmations) id y : NoDup (map fst (live c)) -> id ∈ map fst (List.filter (fun p => open_accept p.2) (live c)) ->
  aged t <$> dict_get id (live c) = Some y -> is_expired y = true -> exists x, dict_get id (live c) = Some x /\ y = aged t x /\ overdue t x = true.
Proof.
  intros Hk Hid Hy He. destruct (dict_get id (live c)) as [x|] eqn:Hx; [|done]. injection Hy as <-. exists x. split; [done|]. split; [done|].
  assert (open_accept x = true) as Ho by (rewrite <- (listed (live c) id x) by done; by apply mem_true).
  by rewrite <- aged_overdue.
Qed.

(** C39. A sweep that may look at every session, on a working disk, cancels exactly the
    acceptances whose time is over, each for the timeout and with a report that names
    its session, its seller and an event of its timeout.  The events are those the ledger
    had and new ones, each of a session that was overdue and its seller; the ledger then
    holds them all, or the last 4000 or more when it was cut, in memory and, when there
    are new ones, on file.  Every other session stays as it is. *)
Theorem sweep_cancels_overdue limit w (c := memory (sessions w)) (t := now (sessions w)) :
  disk (sessions w) = Writable -> NoDup (map fst (live c)) -> length (live c) <= limit ->
  (forall id x, dict_get id (live c) = Some x -> overdue t x = true -> id <> "" /\ py_strip (s_owner x) <> "") ->
  exists w' out new, expire_pending_seller_accepts cat limit w = (w', Ret out)
    /\ (forall id x, dict_get id (live c) = Some x ->
         if overdue t x
         then dict_get id (live (sessions w')) = Some (cancelled TIMEOUT_REASON (drop_microsecond t) (with_status EXPIRED x))
              /\ exists rep, rep ∈ out /\ reports (on_book w ++ new) id x rep
         else dict_get id (live (sessions w')) = Some x)
    /\ (forall rep, rep ∈ out -> exists id x, dict_get id (live c) = Some x /\ overdue t x = true /\ reports (on_book w ++ new) id x rep)
    /\ (forall ev, ev ∈ new -> exists id x, dict_get id (live c) = Some x /\ overdue t x = true /\ missed_by id x ev)
    /\ holds_log (on_book w') (on_book w ++ new)
    /\ (new <> [] -> exists b, book_file w' = Some b /\ events b = on_book w').
Proof.
  intros Hd Hk Hlen Hnames. destruct (listing_spec t limit (sessions w)) as (c' & E & Hr & Hl); [done..|]. fold c in E, Hl.
  unfold expire_pending_seller_accepts. rewrite (bind_value _ _ _ _ _ (in_sessions_value _ _ _ _ E)).
  destruct (sweep_ready t (map fst (List.filter (fun p => open_accept p.2) (live c))) (set_sessions c' w))
    as (w' & out & new & E' & _ & Hd' & Hall & Honly & Hg & Hnew); [done|by apply (NoDup_map_filter fst (fun p => open_accept p.2))| |].
  { intros id ([j x] & -> & [Hin Ho]%list_elem_of_In%filter_In)%list_elem_of_fmap. apply list_elem_of_In, in_get in Hin; [|done].
    exists (aged t x). cbn. rewrite Hl, Hin. split; [done|]. apply aged_sweepable; [done|]. by apply Hnames. }
  rewrite on_book_sessions in Hall, Honly. destruct Hg as [Hlog Hfile _]. rewrite on_book_sessions in Hlog.
  cbn [sessions set_sessions] in *.
  exists w', out, new. split; [done|]. split; [|split; [|split; [|done]]].
  - intros id x Hx. rewrite Hd', (listed (live c) id x) by done. rewrite !Hl, Hx. destruct (open_accept x) eqn:Ho; cbn.
    2:{ unfold overdue. rewrite Ho. cbn. by rewrite aged_idle. }
    unfold closed_by_timeout. rewrite aged_overdue by done. destruct (overdue t x) eqn:Hov.
    + split; [unfold aged; rewrite Ho, (expire_expired t x); [done|by apply andb_prop in Hov as [_ ?]]|].
      destruct (Hall id (aged t x)) as (rep & Hin & Hr'); [|by rewrite Hl, Hx|by rewrite aged_overdue|exists rep; split; [done|by apply aged_reports in Hr']].
      apply mem_true. by rewrite (listed (live c) id x).
    + unfold aged. rewrite Ho. f_equal. apply expire_open. unfold overdue in Hov. by rewrite Ho in Hov.
  - intros rep Hin. destruct (Honly rep Hin) as (id & y & Hid & Hy & He & Hr'). rewrite Hl in Hy.
    destruct (swept_open t c id y Hk Hid Hy He) as (x & Hx & -> & Hov). exists id, x. split; [done|]. split; [done|by apply aged_reports in Hr'].
  - intros ev Hin. destruct (Hnew ev Hin) as (id & y & Hid & Hy & He & Hm). rewrite Hl in Hy.
    destruct (swept_open t c id y Hk Hid Hy He) as (x & Hx & -> & Hov). exists id, x. split; [done|]. split; [done|].
    unfold missed_by in *. by rewrite aged_owner in Hm.
Qed.
End Catalogue.

(** ** A catalogue and a kitchen *)

Definition kitchen_terms : breach_terms := BreachTerms (Some true) (Some 500%Z) (Some 1000%Z) (Some 0%Z).
Definition standard : accept_catalog := AcceptCatalog
  (AcceptPolicy (Some 1800%Z) (Some "cancel_intent") (Some (half (-4))) (Some (half (-6))) (Some (half 10))
     [Threshold (Some 3%Z) (Some "elevated") (Some (half 3)) true (Some (float_of_ratio 3 4)) false;
      Threshold (Some 7%Z) (Some "strict") (Some (half 5)) true (Some (half 1)) false;
      Threshold (Some 15%Z) (Some "restricted") (Some (half 8)) true (Some (float_of_ratio 7 20)) true]
     None None kitchen_terms)
  [("food_delivery", AcceptPolicy (Some 300%Z) (Some "cancel_and_rediscover") (Some (half (-4))) (Some (half (-4))) None [] None None
      (BreachTerms None (Some 300%Z) (Some 800%Z) (Some 600%Z)))].
Definition meals : catalog :=
  Catalog [("food_delivery", Scene [] [("accept_order", "OWNER_CONFIRM")] false)] [] [].
Definition meal (owner : string) : create_args :=
  CreateArgs "food_delivery" "seller" "accept_order" owner (Some (half 40)) (Some "meal-1") false (Some 300%Z).
Abbreviation serve := (accept_run standard meals ConfirmationRuns.tallies).
Definition evening : list accept_op :=
  [SessionOp (CreateSession (meal "kitchen")); SessionOp (Pass 200000000); SessionOp (CreateSession (meal "bar"));
   SessionOp (Pass 200000000)].
Definition after_evening : accept_world := serve evening (no_acceptances 0).

Lemma ledger_tallies_witness :
  let w := serve (evening ++ [ExpirePending 9; SessionOp Restart; CheckInteraction "kitchen" "food_delivery" (Some "meal-1") None])
             (no_acceptances 0) in
  non_confirm_count (entry_of "kitchen" (book w)) = 1%Z
  /\ exists old, forall seller, counts_log seller (old ++ events (book w)) (entry_of seller (book w)).
Proof.
  split; [vm_compute; reflexivity|].
  destruct (ledger_tallies standard meals ConfirmationRuns.tallies 0
              (evening ++ [ExpirePending 9; SessionOp Restart; CheckInteraction "kitchen" "food_delivery" (Some "meal-1") None]) _ (or_introl eq_refl))
    as [(old & _ & H) _].
  by exists old.
Defined.

Definition named (id : string) (x : ConfirmationSession) : bool := negb (str_eqb id "") && negb (str_eqb (py_strip (s_owner x)) "").
Lemma evening_named : forallb (fun p => named p.1 p.2) (live (memory (sessions after_evening))) = true.
Proof. vm_compute. reflexivity. Qed.
Lemma sweep_cancels_overdue_witness : exists w' out,
  expire_pending_seller_accepts standard 9 after_evening = (w', Ret out) /\ length out = 1
  /\ (s_status <$> dict_get "cfm_" (live (sessions w'))) = Some CANCELLED
  /\ (s_status <$> dict_get "cfm_a" (live (sessions w'))) = Some PENDING.
Proof.
  destruct (sweep_cancels_overdue standard 9 after_evening) as (w' & out & new & E & _ & _ & _ & (cut & Elog & Hcut) & _).
  - reflexivity.
  - apply (bool_decide_unpack _). vm_compute. reflexivity.
  - apply Nat.leb_le. vm_compute. reflexivity.
  - intros id x H%dict_get_In _. pose proof (proj1 (forallb_forall (fun p => named p.1 p.2) _) evening_named _ H) as Hn.
    apply andb_prop in Hn as [H1%negb_true_iff%bool_decide_eq_false H2%negb_true_iff%bool_decide_eq_false]. by split.
  - exists w', out. split; [exact E|]. revert E. vm_compute. intros [= <- <-]. repeat split.
Defined.

(** ** Where code and words part *)

(** Code: misses are recorded under the name as it was sent, and the profile reads them
    under the name without the blanks around it. *)
Lemma padded_name_escapes :
  let w := serve (repeat (RecordNonConfirm "timeout" (RecordArgs "kitchen " "food_delivery" None None None)) 15) (no_acceptances 0) in
  non_confirm_count (entry_of "kitchen " (book w)) = 15%Z
  /\ exists w' p, seller_risk_profile standard "kitchen " "food_delivery" w = (w', Ret p) /\ a_tier (r_tier p) = "normal".
Proof. split; [vm_compute; reflexivity|]. eexists _, _. vm_compute. split; reflexivity. Qed.

(** Code: a request that is refused for want of a seller has written its event. *)
Lemma refused_yet_recorded : exists w,
  record_seller_non_confirm standard "reject" (RecordArgs "" "food_delivery" None None None) (no_acceptances 0)
    = (w, Raise (AcceptFulfillmentError "seller_id required"))
  /\ length (events (book w)) = 1 /\ option_map (fun b => length (events b)) (book_file w) = Some 1.
Proof. eexists. vm_compute. repeat split. Qed.

(** Code: once the oldest events are cut off, a timeout that was counted counts again, and
    the next event takes an identifier that is taken. *)
Definition crowd (n : nat) : accept_event :=
  AcceptEvent (event_id (repeat (AcceptEvent "" Accepted "" "" None None None None 0 None) n)) (NonConfirm Timeout) "kitchen" "food_delivery"
    None (Some (if (n =? 0)%nat then "cfm_" else "")) None (Some (half (-4))) 0 None.
Definition crowded : accept_world :=
  let evs := map crowd (seq 0 5000) in
  AcceptWorld (Ledger [("kitchen", replay "kitchen" evs)] evs) true None (no_confirmations 0).
Definition late (session : string) : record_args := RecordArgs "kitchen" "food_delivery" None (Some session) None.
Lemma counted_again :
  let next o w := run_state (accept_perform standard meals ConfirmationRuns.tallies o) w in
  let w := next (RecordNonConfirm "timeout" (late "cfm_a")) crowded in
  non_confirm_count (entry_of "kitchen" (book (next (RecordNonConfirm "timeout" (late "cfm_")) crowded))) = 5000%Z
  /\ non_confirm_count (entry_of "kitchen" (book (next (RecordNonConfirm "timeout" (late "cfm_")) w))) = 5002%Z
  /\ length (List.filter (fun ev => str_eqb (e_id ev) "sae_004001") (events (book (next (RecordConfirm (late "cfm_b")) w)))) = 2.
Proof. vm_compute. repeat split. Qed.

(** Code: acceptances that still have time fill the limit, and those behind them whose
    time is over are not cancelled. *)
Lemma limit_hides_overdue :
  let w := serve [SessionOp (CreateSession (CreateArgs "food_delivery" "seller" "accept_order" "inn" None None false (Some 9000%Z)));
                  SessionOp (CreateSession (meal "kitchen")); SessionOp (Pass 400000000); ExpirePending 1; ExpirePending 1] (no_acceptances 0) in
  map (fun p => (s_status p.2, overdue (now (sessions w)) p.2)) (live (sessions w)) = [(PENDING, false); (PENDING, true)].
Proof. vm_compute. reflexivity. Qed.
