(* ===== verification/Reputation.v ===== *)
(** * Reputation

    [services/wash_trade.py], [agent_trust.py], [identity_reputation.py],
    [reputation_pack.py] and [miniapp_trust/reputation.py]: the reputation of agents, the
    tests that keep a trade made up from earning any, and who may carry a reputation to
    the chain.  Agents, settlements and reputations are tables, of a settlement the
    columns that are read; a request that fails leaves them as they were.  The mini-app
    keeps a history of its own in the process. *)

From S2P Require Import Prelude PyBytes PyDatetime PyFloat PyHoare SettlementEngine.
#[local] Open Scope string_scope.
#[local] Open Scope py_scope.

(** [max(a, b)] and [min(a, b)]: the first unless the second is beyond it, so that a
    second argument that is no number is passed over. *)
Definition py_max (a b : float) : float := if fgtb b a then b else a.
Definition py_min (a b : float) : float := if fltb b a then b else a.

Record reputation_settings := ReputationSettings {
  reputation_pack_min_score : float;
  reputation_pack_min_successes : Z;
  reputation_rehab_days : Z;
  reputation_dividend_min_score : float;
  reputation_wash_min_amount : float;
  reputation_wash_pair_window_hours : Z;
  reputation_wash_pair_max : Z;
  reputation_wash_burst_window_minutes : Z;
  reputation_wash_burst_max : Z;
  reputation_wash_flag_pack_block : Z
}.
Definition default_settings : reputation_settings :=
  ReputationSettings (float_of_int 200) 5 90 (float_of_int 300) (float_of_int 1) 24 4 60 8 3.
Definition US_PER_MINUTE : Z := 60 * US_PER_SECOND.
Definition US_PER_HOUR : Z := 60 * US_PER_MINUTE.

(** ** Wash trades *)

Record TradeEdge := Edge {
  e_buyer : string;
  e_seller : string;
  e_amount : float;
  e_at : option datetime
}.
Record WashVerdict := Verdict { credit : bool; flags_delta : Z; signals : list string }.

Definition norm (value : option string) : string := py_lower (py_strip (default "" value)).
Definition in_window (edge : TradeEdge) (now : datetime) (window : Z) : bool :=
  match e_at edge with None => true | Some t => (now - t <=? window)%Z end.
Definition is_pair (buyer seller : string) (edge : TradeEdge) : bool :=
  str_eqb (norm (Some (e_buyer edge))) buyer && str_eqb (norm (Some (e_seller edge))) seller.
Definition count (p : TradeEdge -> bool) (rows : list TradeEdge) : Z := Z.of_nat (List.length (List.filter p rows)).
Definition nonempty (s : string) : bool := negb (str_eqb s "").
Definition when_ (b : bool) (signal : string) : list string := if b then [signal] else [].

Section Wash.
Context (cfg : reputation_settings).

Definition pair_window : Z := (reputation_wash_pair_window_hours cfg * US_PER_HOUR)%Z.
Definition burst_window : Z := (reputation_wash_burst_window_minutes cfg * US_PER_MINUTE)%Z.
(** The counts of the loop over the history, and the trade itself. *)
Definition burst_n (seller : string) (now : datetime) (rows : list TradeEdge) : Z :=
  if nonempty seller then 1 + count (fun e => in_window e now burst_window && str_eqb (norm (Some (e_seller e))) seller) rows else 1.
Definition pair_n (buyer seller : string) (now : datetime) (rows : list TradeEdge) : Z :=
  if nonempty seller then 1 + count (fun e => in_window e now pair_window && (nonempty buyer && is_pair buyer seller e)) rows else 1.
Definition reverse_n (buyer seller : string) (now : datetime) (rows : list TradeEdge) : Z :=
  if nonempty seller then count (fun e => in_window e now pair_window && (nonempty buyer && is_pair seller buyer e)) rows else 0.

Definition evaluate_wash_signals (buyer_id seller_id : option string) (amount : float) (rows : list TradeEdge)
    (buyer_wallet seller_wallet : option string) (now : datetime) : WashVerdict :=
  let buyer := norm buyer_id in
  let seller := norm seller_id in
  let bw := norm buyer_wallet in
  let sw := norm seller_wallet in
  let self_deal := nonempty buyer && nonempty seller && str_eqb buyer seller in
  let same_wallet := nonempty bw && nonempty sw && str_eqb bw sw in
  let dust := fltb amount (reputation_wash_min_amount cfg) in
  let circular := (1 <=? reverse_n buyer seller now rows)%Z in
  let pair_velocity := (reputation_wash_pair_max cfg <=? pair_n buyer seller now rows)%Z in
  let burst := (reputation_wash_burst_max cfg <=? burst_n seller now rows)%Z in
  let flags := Z.max 0 (if self_deal then 2 else 0) in
  let flags := Z.max flags (if same_wallet then 2 else 0) in
  let flags := Z.max flags (if circular then 1 else 0) in
  let flags := Z.max flags (if pair_velocity then 1 else 0) in
  let flags := Z.max flags (if burst then 1 else 0) in
  let flags := Z.max flags (if dust && (2 <=? pair_n buyer seller now rows)%Z then 1 else 0) in
  Verdict (negb (self_deal || same_wallet || dust || circular || pair_velocity || burst)) flags
    (when_ self_deal "self_deal" ++ when_ same_wallet "same_wallet" ++ when_ dust "dust" ++ when_ circular "circular"
       ++ when_ pair_velocity "pair_velocity" ++ when_ burst "burst")%list.

(** A row of [settlements]. *)
Record trade := Trade {
  t_task : string;
  t_client : string;
  t_worker : option string;
  t_status : TaskStatus;
  t_escrow : float;
  t_released : option float;
  t_created : datetime
}.
Definition succeeded (t : trade) : bool := mem (t_status t) [TS_SETTLED; TS_PARTIALLY_SETTLED].
Definition edge_of (t : trade) : TradeEdge :=
  Edge (t_client t) (default "" (t_worker t)) (default (t_escrow t) (t_released t)) (Some (t_created t)).
Definition since (now : datetime) : datetime :=
  let burst_h := Z.max 1 (reputation_wash_burst_window_minutes cfg / 60 + 1) in
  (now - Z.max (reputation_wash_pair_window_hours cfg) burst_h * US_PER_HOUR)%Z.
Definition is_party (buyer_id seller_id : option string) (t : trade) : bool :=
  truthy_str seller_id && bool_decide (t_worker t = seller_id)
  || truthy_str buyer_id && truthy_str seller_id && bool_decide (t_worker t = buyer_id) && bool_decide (Some (t_client t) = seller_id).
Definition load_recent_edges (rows : list trade) (buyer_id seller_id exclude_task_id : option string) (now : datetime) : list TradeEdge :=
  map edge_of
    (List.filter (fun t =>
       succeeded t && (since now <=? t_created t)%Z && is_party buyer_id seller_id t
         && negb (truthy_str exclude_task_id && bool_decide (exclude_task_id = Some (t_task t)))) rows).
Definition inspect_settlement_wash (rows : list trade) (buyer_id seller_id : option string) (amount : float)
    (exclude_task_id buyer_wallet seller_wallet : option string) (now now' : datetime) : WashVerdict :=
  evaluate_wash_signals buyer_id seller_id amount (load_recent_edges rows buyer_id seller_id exclude_task_id now)
    buyer_wallet seller_wallet now'.
End Wash.

(** ** Tables *)

Inductive incident : Type := KIND_DISPUTE | KIND_DEFAULT | KIND_WASH.
#[export] Instance incident_eq_dec : EqDecision incident.
Proof. solve_decision. Defined.
Definition incident_value (k : incident) : string :=
  match k with KIND_DISPUTE => "dispute" | KIND_DEFAULT => "default" | KIND_WASH => "wash" end.

Record reputation_row := Reputation {
  rp_profile : option string;
  rp_role : string;
  score : float;
  total_tasks : Z;
  successful_tasks : Z;
  disputed_tasks : Z;
  consecutive_successes : Z;
  wash_trade_flags : Z;
  last_updated : datetime;
  last_incident : option (datetime * incident)
}.
Record agent_row := Agent { ag_role : string; ag_class : option string; ag_owner : option string }.
Record reputation_db := ReputationDb {
  trades : list trade;
  agents : gmap string agent_row;
  reputations : gmap string reputation_row
}.
Record reputation_world := ReputationWorld { rep : reputation_db; clock : datetime }.
Inductive reputation_error : Type := ValueError (message : string) | IntegrityError.
Abbreviation MR := (M reputation_world reputation_error).

Definition set_agents (x : gmap string agent_row) (w : reputation_world) : reputation_world :=
  ReputationWorld (ReputationDb (trades (rep w)) x (reputations (rep w))) (clock w).
Definition set_reputations (x : gmap string reputation_row) (w : reputation_world) : reputation_world :=
  ReputationWorld (ReputationDb (trades (rep w)) (agents (rep w)) x) (clock w).
Definition put_agent (id : string) (a : agent_row) : MR unit := py_modify (fun w => set_agents (<[id := a]> (agents (rep w))) w).
Definition put_row (id : string) (r : reputation_row) : MR unit :=
  py_modify (fun w => set_reputations (<[id := r]> (reputations (rep w))) w).

(** ** Opening a ledger *)

Definition new_reputation (role : string) (at_ : datetime) : reputation_row :=
  Reputation None role (float_of_int 100) 0 0 0 0 0 at_ None.
(** [ensure_reputation_row]: the row refers to an agent. *)
Definition ensure_reputation_row (agent_id role : string) : MR reputation_row :=
  let! w := py_get in
  match reputations (rep w) !! agent_id with
  | Some r => py_ret r
  | None =>
      let r := new_reputation role (clock w) in
      py_require (bool_decide (is_Some (agents (rep w) !! agent_id))) IntegrityError ;;;
      put_row agent_id r ;;;
      py_ret r
  end.
Definition class_of (identity_class : option string) : string := default "user" identity_class.
(** [identity_class or d] *)
Definition class_or_user (identity_class : option string) : string :=
  if truthy_str identity_class then class_of identity_class else "user".
Definition role_for_identity_class (identity_class : option string) : string :=
  if str_mem (py_lower (py_strip (class_or_user identity_class))) ["user"; "client"; "buyer"] then "client" else "worker".
Definition open_identity_ledger (identity_id : string) (identity_class : option string) : MR reputation_row :=
  let iid := py_strip identity_id in
  py_require (nonempty iid) (ValueError "identity_id required") ;;;
  let role := role_for_identity_class identity_class in
  let! w := py_get in
  match agents (rep w) !! iid with
  | None => put_agent iid (Agent role (Some (class_or_user identity_class)) (Some iid))
  | Some a =>
      put_agent iid
        (Agent (ag_role a) (if truthy_str identity_class && negb (truthy_str (ag_class a)) then identity_class else ag_class a)
           (if truthy_str (ag_owner a) then ag_owner a else Some iid))
  end ;;;
  ensure_reputation_row iid role.
Definition with_profile_id (p : string) (r : reputation_row) : reputation_row :=
  Reputation (Some p) (rp_role r) (score r) (total_tasks r) (successful_tasks r) (disputed_tasks r) (consecutive_successes r)
    (wash_trade_flags r) (last_updated r) (last_incident r).
Definition ensure_profile_reputation (profile_id owner : string) (identity_class : option string) : MR reputation_row :=
  let pid := py_strip profile_id in
  py_require (nonempty pid) (ValueError "profile_id required") ;;;
  let role := role_for_identity_class identity_class in
  let! w := py_get in
  py_when (negb (bool_decide (is_Some (agents (rep w) !! pid))))
    (put_agent pid (Agent role (Some (class_or_user identity_class)) (Some owner))) ;;;
  let! r := ensure_reputation_row pid role in
  if bool_decide (rp_profile r = Some pid) then py_ret r
  else put_row pid (with_profile_id pid r) ;;; py_ret (with_profile_id pid r).

(** ** What a settlement does to a reputation *)

Definition clamp_volume (volume : float) : float := py_min (py_max volume fzero) (float_of_int 100).
Definition MAX_SCORE : float := float_of_int 1000.
(** [min(1000.0, score + base + volume * factor)] *)
Definition raised (base factor volume : float) (s : float) : float :=
  py_min MAX_SCORE (fadd s (fadd base (fmul (clamp_volume volume) factor))).
(** [max(0.0, score - by)] *)
Definition lowered (by_ : float) (s : float) : float := py_max fzero (fsub s by_).

Definition touch (at_ : datetime) (r : reputation_row) : reputation_row :=
  Reputation (rp_profile r) (rp_role r) (score r) (total_tasks r) (successful_tasks r) (disputed_tasks r) (consecutive_successes r)
    (wash_trade_flags r) at_ (last_incident r).
Definition succeed (s : float) (at_ : datetime) (r : reputation_row) : reputation_row :=
  Reputation (rp_profile r) (rp_role r) s (total_tasks r + 1) (successful_tasks r + 1) (disputed_tasks r)
    (consecutive_successes r + 1) (wash_trade_flags r) at_ (last_incident r).
Definition lose (s : float) (tasks disputes flags : Z) (kind : incident) (at_ : datetime) (r : reputation_row) : reputation_row :=
  Reputation (rp_profile r) (rp_role r) s (total_tasks r + tasks) (successful_tasks r) (disputed_tasks r + disputes) 0
    (wash_trade_flags r + flags) at_ (Some (at_, kind)).

Section Outcomes.
Context (cfg : reputation_settings).

Definition worker_wash (v : WashVerdict) (at_ : datetime) (r : reputation_row) : reputation_row :=
  if (flags_delta v =? 0)%Z then touch at_ r
  else lose (lowered (fmul (float_of_int 5) (float_of_int (flags_delta v))) (score r)) 0 0 (flags_delta v) KIND_WASH at_ r.
Definition worker_outcome (success disputed : bool) (volume : float) (at_ : datetime) (r : reputation_row) : reputation_row :=
  if disputed then lose (lowered (float_of_int 15) (score r)) 1 1 0 KIND_DISPUTE at_ r
  else if success then succeed (raised (float_of_int 5) (float_of_ratio 5 100) volume (score r)) at_ r
  else lose (lowered (float_of_int 8) (score r)) 1 0 0 KIND_DEFAULT at_ r.
Definition update_row (id : string) (f : datetime -> reputation_row -> reputation_row) (r : reputation_row) : MR reputation_row :=
  let! w := py_get in
  put_row id (f (clock w) r) ;;;
  py_ret (f (clock w) r).
Definition inspect (buyer seller : option string) (amount : float) (exclude buyer_wallet seller_wallet : option string) : MR WashVerdict :=
  let! w := py_get in
  py_ret (inspect_settlement_wash cfg (trades (rep w)) buyer seller amount exclude buyer_wallet seller_wallet (clock w) (clock w)).

Record outcome_args := OutcomeArgs {
  oa_success : bool;
  oa_disputed : bool;
  oa_volume : float;
  oa_exclude : option string
}.
Definition genuine (a : outcome_args) : bool := oa_success a && negb (oa_disputed a).
Definition record_worker_settlement_outcome (worker : string) (buyer : option string) (a : outcome_args)
    (buyer_wallet seller_wallet : option string) : MR reputation_row :=
  let! _ := open_identity_ledger worker (Some "business") in
  let! r := ensure_reputation_row worker "worker" in
  let! v := if genuine a then inspect buyer (Some worker) (oa_volume a) (oa_exclude a) buyer_wallet seller_wallet
            else py_ret (Verdict true 0 []) in
  if negb (credit v) then update_row worker (worker_wash v) r
  else update_row worker (worker_outcome (oa_success a) (oa_disputed a) (oa_volume a)) r.

Definition buyer_wash (v : WashVerdict) (at_ : datetime) (r : reputation_row) : reputation_row :=
  if (flags_delta v =? 0)%Z then touch at_ r
  else lose (lowered (float_of_int 3) (score r)) 0 0 (Z.max 1 (flags_delta v / 2)) KIND_WASH at_ r.
Definition buyer_outcome (success disputed : bool) (volume : float) (at_ : datetime) (r : reputation_row) : reputation_row :=
  if disputed then lose (lowered (float_of_int 5) (score r)) 1 1 0 KIND_DISPUTE at_ r
  else if success then succeed (raised (float_of_int 2) (float_of_ratio 2 100) volume (score r)) at_ r
  else touch at_ r.
Definition record_buyer_settlement_outcome (buyer : string) (seller : option string) (a : outcome_args) : MR (option reputation_row) :=
  if negb (nonempty buyer) || truthy_str seller && bool_decide (Some buyer = seller) then py_ret None
  else
    let! r := open_identity_ledger buyer (Some "user") in
    let! v := if genuine a then inspect (Some buyer) seller (oa_volume a) (oa_exclude a) None None
              else py_ret (Verdict true 0 []) in
    let! r := update_row (py_strip buyer)
                (if negb (credit v) then buyer_wash v else buyer_outcome (oa_success a) (oa_disputed a) (oa_volume a)) r in
    py_ret (Some r).

Definition non_confirm (delta : float) (at_ : datetime) (r : reputation_row) : reputation_row :=
  let d := py_max (float_of_int (-5)) (py_min fzero delta) in
  lose (py_max fzero (fadd (score r) d)) 0 0 0 KIND_DEFAULT at_ r.
Definition record_seller_non_confirm_reputation (seller : string) (delta : float) : MR reputation_row :=
  let! r := ensure_reputation_row seller "worker" in
  update_row seller (non_confirm delta) r.
Definition record_profile_settlement_outcome (profile_id owner : string) (identity_class : option string)
    (success disputed : bool) (volume : float) : MR (option reputation_row) :=
  let pid := py_strip profile_id in
  if negb (nonempty pid) then py_ret None
  else
    let! r := ensure_profile_reputation pid owner identity_class in
    let! r := update_row (py_strip pid) (worker_outcome success disputed volume) r in
    py_ret (Some r).
(** The reputations of both parties of a settlement. *)
Definition apply_settle_reputation (seller : string) (buyer : option string) (a : outcome_args) : MR reputation_row :=
  let a' := OutcomeArgs (genuine a) (oa_disputed a) (oa_volume a) (oa_exclude a) in
  let! r := record_worker_settlement_outcome seller buyer a' None None in
  py_when (truthy_str buyer) (record_buyer_settlement_outcome (default "" buyer) (Some seller) a' ;;; py_ret tt) ;;;
  py_ret r.

(** ** Carrying a reputation to the chain *)

Inductive pack_reason : Type := ScoreBelow | SuccessesBelow | IncidentWithin (kind : incident) | WashFlags (n : Z).
Record PackEligibility := Eligibility {
  eligible : bool;
  pack_path : option string;
  reasons : list pack_reason;
  dividend_eligible_offchain : bool
}.
Definition rehabilitated (now : datetime) (i : option (datetime * incident)) : bool :=
  match i with None => true | Some (t, _) => (reputation_rehab_days cfg * US_PER_DAY <=? now - t)%Z end.
Definition evaluate_pack_eligibility (s : float) (successes disputes : Z) (i : option (datetime * incident)) (flags : Z)
    (now : datetime) : PackEligibility :=
  let min_score := reputation_pack_min_score cfg in
  let clean_rehab := rehabilitated now i in
  let wash_ok := negb (reputation_wash_flag_pack_block cfg <=? flags)%Z || clean_rehab && bool_decide (is_Some i) in
  let why :=
    ((if fltb s min_score then [ScoreBelow] else [])
     ++ (if (successes <? reputation_pack_min_successes cfg)%Z then [SuccessesBelow] else [])
     ++ (if clean_rehab then [] else match i with Some (_, k) => [IncidentWithin k] | None => [] end)
     ++ (if wash_ok then [] else [WashFlags flags]))%list in
  let ok := fgeb s min_score && (reputation_pack_min_successes cfg <=? successes)%Z && clean_rehab && wash_ok in
  let path :=
    if ok then
      match i with
      | None => if (disputes =? 0)%Z then Some "undisputed" else Some "clean_history"
      | Some _ => Some "rehab_90d"
      end
    else None in
  Eligibility ok path why (ok && fgeb s (reputation_dividend_min_score cfg)).
Definition pack_of (r : reputation_row) (now : datetime) : PackEligibility :=
  evaluate_pack_eligibility (score r) (successful_tasks r) (disputed_tasks r) (last_incident r) (wash_trade_flags r) now.
Definition dividend_points_for_pack (s : float) : float :=
  if fltb s (reputation_dividend_min_score cfg) then fzero else py_round 4 s.
End Outcomes.

(** ** Runs *)

Section Runs.
Context (cfg : reputation_settings).

Inductive reputation_op : Type :=
| OpenLedger (id : string) (identity_class : option string)
| WorkerOutcome (worker : string) (buyer : option string) (a : outcome_args) (buyer_wallet seller_wallet : option string)
| BuyerOutcome (buyer : string) (seller : option string) (a : outcome_args)
| SettleOutcome (seller : string) (buyer : option string) (a : outcome_args)
| NonConfirm (seller : string) (delta : float)
| ProfileOutcome (profile_id owner : string) (identity_class : option string) (success disputed : bool) (volume : float)
| Settlements (rows : list trade)
| Wait (us : N).
Definition done_ {A} (m : MR A) : MR unit := m ;;; py_ret tt.
Definition handle (op : reputation_op) : MR unit :=
  match op with
  | OpenLedger id c => done_ (open_identity_ledger id c)
  | WorkerOutcome w b a bw sw => done_ (record_worker_settlement_outcome cfg w b a bw sw)
  | BuyerOutcome b s a => done_ (record_buyer_settlement_outcome cfg b s a)
  | SettleOutcome s b a => done_ (apply_settle_reputation cfg s b a)
  | NonConfirm s d => done_ (record_seller_non_confirm_reputation s d)
  | ProfileOutcome p o c s d v => done_ (record_profile_settlement_outcome p o c s d v)
  | Settlements rows => py_modify (fun w => ReputationWorld (ReputationDb rows (agents (rep w)) (reputations (rep w))) (clock w))
  | Wait us => py_modify (fun w => ReputationWorld (rep w) (clock w + Z.of_N us)%Z)
  end.
(** A request that fails is rolled back. *)
Definition rep_step (op : reputation_op) (w : reputation_world) : reputation_world :=
  match handle op w with (w', Ret _) => w' | (_, Raise _) => w end.
Definition rep_run (ops : list reputation_op) (w : reputation_world) : reputation_world := fold_left (fun w op => rep_step op w) ops w.
Definition no_reputations (t : datetime) : reputation_world := ReputationWorld (ReputationDb [] ∅ ∅) t.
End Runs.

(** ** The mini-app ([miniapp_trust/reputation.py]) *)

Record ExecutionRecord := Execution {
  x_order : string;
  x_buyer : string;
  x_seller : option string;
  x_amount : string;
  x_created : Z;
  x_wash : WashVerdict
}.
Record execution_history := History { executions : list ExecutionRecord; scores : gmap string float }.
Definition amount_of (raw : string) : float := default fzero (float_of_str raw).
Definition execution_edge (h : ExecutionRecord) : TradeEdge :=
  Edge (x_buyer h) (default "" (x_seller h)) (amount_of (x_amount h)) (Some (x_created h * US_PER_SECOND)%Z).
Definition bump (id : option string) (delta : float) (m : gmap string float) : gmap string float :=
  if truthy_str id then <[default "" id := fadd (default (float_of_int 50) (m !! default "" id)) delta]> m else m.
Record settlement_args := SettlementArgs {
  g_order : string;
  g_buyer : string;
  g_seller : option string;
  g_amount : string;
  g_buyer_wallet : option string;
  g_seller_wallet : option string
}.
Definition record_settlement (cfg : reputation_settings) (g : settlement_args) (now : datetime) (h : execution_history) :
    execution_history * ExecutionRecord :=
  let v := evaluate_wash_signals cfg (Some (g_buyer g)) (g_seller g) (amount_of (g_amount g)) (map execution_edge (executions h))
             (g_buyer_wallet g) (g_seller_wallet g) now in
  let x := Execution (g_order g) (g_buyer g) (g_seller g) (g_amount g) (now / US_PER_SECOND) v in
  (History (executions h ++ [x])
     (if credit v then bump (g_seller g) (float_of_int 2) (bump (Some (g_buyer g)) (float_of_int 1) (scores h)) else scores h), x).
Definition reputation_of (id : string) (h : execution_history) : float * nat :=
  (default (float_of_int 50) (scores h !! id),
   List.length (List.filter (fun x => str_eqb (x_buyer x) id || bool_decide (x_seller x = Some id)) (executions h))).
