(* ===== verification/ReputationRuns.v ===== *)
(** * Reputation: runs

    What holds of reputations in every sequence of settlements and other requests:
    scores and counts keep their ranges, an incident keeps a reputation from the chain
    for its time, the history read to judge a trade is all that matters for it, and a
    pair of parties earns only so much in a day. *)

From Stdlib Require Import SpecFloat.
From S2P Require Import Prelude PyBytes PyDatetime PyFloat PyFloatOrder PyFloatRange PyHoare SettlementEngine Reputation.
#[local] Open Scope string_scope.
#[local] Open Scope py_scope.

(** ** How a row changes *)

(** The score after a setback. *)
Inductive setback (s : float) : float -> Prop :=
| setback_fixed c : fgtb c fzero = true -> setback s (lowered c s)
| setback_delta d : setback s (py_max fzero (fadd s (py_max (float_of_int (-5)) (py_min fzero d)))).
(** One change of a row at a time. *)
Inductive row_step (t : datetime) (r : reputation_row) : reputation_row -> Prop :=
| rs_profile p : row_step t r (with_profile_id p r)
| rs_touch : row_step t r (touch t r)
| rs_succeed base factor volume : (base, factor) ∈ [(float_of_int 5, float_of_ratio 5 100); (float_of_int 2, float_of_ratio 2 100)] ->
    row_step t r (succeed (raised base factor volume (score r)) t r)
| rs_lose s tasks disputes flags kind : setback (score r) s -> (0 <= disputes <= tasks)%Z -> (0 <= flags)%Z ->
    row_step t r (lose s tasks disputes flags kind t r).
Abbreviation later t := (rtc (row_step t)).

Record row_ok (now : datetime) (r : reputation_row) : Prop := {
  ok_score : in_range MAX_SCORE (score r);
  ok_tasks : (0 <= successful_tasks r /\ 0 <= disputed_tasks r /\ successful_tasks r + disputed_tasks r <= total_tasks r)%Z;
  ok_streak : (0 <= consecutive_successes r <= successful_tasks r)%Z;
  ok_flags : (0 <= wash_trade_flags r)%Z;
  ok_incident : forall t k, last_incident r = Some (t, k) -> (t <= now)%Z;
  ok_marks : last_incident r = None -> disputed_tasks r = 0%Z /\ wash_trade_flags r = 0%Z
}.

Lemma max_score_range : in_range MAX_SCORE MAX_SCORE.
Proof. by vm_compute. Qed.
Lemma lowered_range c s : in_range MAX_SCORE s -> fgtb c fzero = true -> in_range MAX_SCORE (lowered c s).
Proof.
  intros Hs Hp. unfold lowered, py_max. destruct (fgtb (fsub s c) fzero) eqn:E; [by apply range_sub|]. by apply range_zero.
Qed.
Lemma setback_range s s' : in_range MAX_SCORE s -> setback s s' -> in_range MAX_SCORE s'.
Proof.
  intros Hs [c Hp|d]; [by apply lowered_range|].
  assert (exists c, fadd s (py_max (float_of_int (-5)) (py_min fzero d)) = fsub s c /\ (c = SFopp fzero \/ fgtb c fzero = true)) as (c & -> & Hc).
  { exists (SFopp (py_max (float_of_int (-5)) (py_min fzero d))). rewrite fsub_add.
    assert (forall x, SFopp (SFopp x) = x) as -> by (by intros [[]|[]| |[] ? ?]). split; [done|].
    unfold py_min. destruct (fltb d fzero) eqn:Ed; [right|by left]. unfold py_max. destruct (fgtb d _); [|done].
    by destruct d as [[]|[]| |[] m e]. }
  unfold py_max. destruct (fgtb (fsub s c) fzero) eqn:E; [|by apply range_zero]. destruct Hc as [->|Hc]; [|by apply range_sub].
  by destruct s as [[]|[]| |[] m e].
Qed.
Lemma raised_range base factor volume s : (base, factor) ∈ [(float_of_int 5, float_of_ratio 5 100); (float_of_int 2, float_of_ratio 2 100)] ->
  in_range MAX_SCORE s -> in_range MAX_SCORE (raised base factor volume s).
Proof.
  intros Hb Hs. unfold raised, py_min. destruct (fltb _ MAX_SCORE) eqn:E; [|exact max_score_range].
  assert (nonneg base /\ nonneg factor /\ valid base = true /\ exists m e, base = S754_finite false m e) as (Hb1 & Hf & Hvb & m & e & Eb).
  { clear - Hb. apply list_elem_of_In in Hb. destruct Hb as [[= <- <-]|[[= <- <-]|[]]]; vm_compute; eauto 10. }
  assert (nonneg (clamp_volume volume)) as Hv.
  { unfold clamp_volume, py_min, py_max. destruct (fltb (float_of_int 100) _); [by vm_compute|]. clear. by destruct volume as [[]|[]| |[] ? ?]. }
  pose proof (nonneg_fmul _ _ Hv Hf) as Hm.
  apply range_add; [done| |by apply nonneg_fadd|done]. rewrite Eb in *. by destruct (fmul _ _) as [[]|[]| |[] m' e'] eqn:Ef; try apply valid_normalize.
Qed.

Lemma row_step_ok t now r r' : (t <= now)%Z -> row_step t r r' -> row_ok now r -> row_ok now r'.
Proof.
  intros Ht Hr [Hs Hc Hk Hf Hi Hm]. destruct Hr as [p| |base factor volume Hb|s tasks disputes flags kind Hsb Hd Hfl]; split; cbn; try done; try lia.
  - by apply raised_range.
  - by eapply setback_range.
  - intros t' k [= <- <-]. lia.
Qed.
Lemma later_ok t now r r' : (t <= now)%Z -> later t r r' -> row_ok now r -> row_ok now r'.
Proof. intros Ht H. induction H as [|r r1 r2 H1 _ IH]; [done|]. intros Hr. apply IH. by eapply row_step_ok. Qed.
Lemma new_ok role t now : row_ok now (new_reputation role t).
Proof. split; cbn; try done; lia. Qed.
Lemma ok_later t now r : (t <= now)%Z -> row_ok t r -> row_ok now r.
Proof. intros Ht [Hs Hc Hk Hf Hi Hm]. split; try done. intros t' k E. specialize (Hi t' k E). lia. Qed.

(** An incident stays, or a later one takes its place. *)
Lemma later_incident t r r' t1 k1 : (t1 <= t)%Z -> later t r r' -> last_incident r = Some (t1, k1) ->
  exists t2 k2, last_incident r' = Some (t2, k2) /\ (t1 <= t2 <= t)%Z.
Proof.
  intros Ht H. revert t1 k1 Ht. induction H as [|r r1 r2 H1 _ IH]; intros t1 k1 Ht E; [by exists t1, k1|].
  assert (exists t2 k2, last_incident r1 = Some (t2, k2) /\ (t1 <= t2 <= t)%Z) as (t2 & k2 & E2 & H2).
  { destruct H1; cbn; eauto with lia. }
  destruct (IH t2 k2 ltac:(lia) E2) as (t3 & k3 & E3 & H3). exists t3, k3. split; [done|lia].
Qed.

(** ** How the table changes *)

(** The rows of [w0] are there, changed at its time; every other row is new. *)
Record evolves (w0 w : reputation_world) : Prop := {
  ev_clock : clock w = clock w0;
  ev_kept : forall id r, reputations (rep w0) !! id = Some r ->
    exists r', reputations (rep w) !! id = Some r' /\ later (clock w0) r r';
  ev_from : forall id r', reputations (rep w) !! id = Some r' ->
    exists r, (reputations (rep w0) !! id = Some r \/ exists role, r = new_reputation role (clock w0)) /\ later (clock w0) r r'
}.
Definition row_of (id : string) (r : reputation_row) (w : reputation_world) : Prop := reputations (rep w) !! id = Some r.
Definition opened (w0 : reputation_world) (id : string) (r : reputation_row) (w : reputation_world) : Prop :=
  evolves w0 w /\ row_of id r w.

Lemma rows_evolve_refl w : evolves w w.
Proof. split; [done| |]; intros id r H; exists r; (split; [by auto|done]). Qed.
Lemma evolves_agents w0 w a : evolves w0 w -> evolves w0 (set_agents a w).
Proof. by intros []. Qed.
Lemma evolves_new w0 w id role : evolves w0 w -> reputations (rep w) !! id = None ->
  opened w0 id (new_reputation role (clock w)) (set_reputations (<[id := new_reputation role (clock w)]> (reputations (rep w))) w).
Proof.
  intros [Hc Hk Hf] Hn. split; [|apply lookup_insert_eq]. split; [done| |]; cbn.
  - intros id' r (r' & H & Hl)%Hk. exists r'. rewrite lookup_insert_ne; [done|congruence].
  - intros id' r' [[<- <-]|[_ H]]%lookup_insert_Some; [|by apply Hf]. exists (new_reputation role (clock w)). rewrite Hc. split; [|done]. right. by exists role.
Qed.
Lemma evolves_put w0 w id r r' : opened w0 id r w -> row_step (clock w0) r r' ->
  opened w0 id r' (set_reputations (<[id := r']> (reputations (rep w))) w).
Proof.
  intros [[Hc Hk Hf] Hr] Hs. split; [|apply lookup_insert_eq]. split; [done| |]; cbn.
  - intros id' r0 (r1 & H & Hl)%Hk. destruct (decide (id = id')) as [<-|Hne]; [|exists r1; by rewrite lookup_insert_ne].
    exists r'. rewrite lookup_insert_eq. split; [done|]. unfold row_of in Hr. simplify_eq. by eapply rtc_r.
  - intros id' r1 [[<- <-]|[_ H]]%lookup_insert_Some; [|by apply Hf]. destruct (Hf _ _ Hr) as (r0 & H0 & Hl). exists r0.
    split; [done|]. by eapply rtc_r.
Qed.

Section Evolve.
Context (cfg : reputation_settings) (w0 : reputation_world).

Lemma triple_ensure id role : triple (evolves w0) (ensure_reputation_row id role) (opened w0 id).
Proof.
  unfold ensure_reputation_row. apply triple_read. intros w Hw. destruct (reputations (rep w) !! id) as [r|] eqn:E.
  - by intros s s' a <- [= <- <-].
  - apply triple_require. intros _ s s' a <- [= <- <-]. by apply evolves_new.
Qed.
Lemma safe_put_agent id a : safe (evolves w0) (put_agent id a).
Proof. apply safe_modify. intros s. apply evolves_agents. Qed.
Lemma triple_open id c : triple (evolves w0) (open_identity_ledger id c) (opened w0 (py_strip id)).
Proof.
  unfold open_identity_ledger. apply triple_require. intros _. apply triple_get. intros w _.
  apply triple_frame; [destruct (agents (rep w) !! _); apply safe_put_agent|]. intros _. apply triple_ensure.
Qed.
Lemma triple_update id r f : row_step (clock w0) r (f (clock w0) r) -> triple (opened w0 id r) (update_row id f r) (opened w0 id).
Proof.
  intros Hs. unfold update_row. apply triple_read. intros w Hw s s' a <- [= <- <-]. pose proof (ev_clock _ _ (proj1 Hw)) as Hc.
  rewrite Hc. by apply (evolves_put _ _ _ r).
Qed.
Lemma triple_profile pid owner c : triple (evolves w0) (ensure_profile_reputation pid owner c) (opened w0 (py_strip pid)).
Proof.
  unfold ensure_profile_reputation. apply triple_require. intros _. apply triple_get. intros w _.
  apply triple_frame; [apply safe_when, safe_put_agent|]. intros _. eapply triple_bind; [apply triple_ensure|]. intros r. cbv beta.
  destruct (bool_decide _); [by apply triple_ret|]. apply triple_modify with (P' := opened w0 (py_strip pid) (with_profile_id (py_strip pid) r)).
  - intros s Hs. eapply evolves_put; [exact Hs|constructor].
  - by apply triple_ret.
Qed.

(** ** What the requests do to a row *)

Lemma flags_bounds buyer seller amount rows bw sw now v : v = evaluate_wash_signals cfg buyer seller amount rows bw sw now ->
  (0 <= flags_delta v <= 2)%Z.
Proof. intros ->. unfold evaluate_wash_signals. cbn. repeat case_match; lia. Qed.
Lemma row_lose t r c tasks disputes flags kind : fgtb c fzero = true -> (0 <= disputes <= tasks)%Z -> (0 <= flags)%Z ->
  row_step t r (lose (lowered c (score r)) tasks disputes flags kind t r).
Proof. intros Hc Hd Hf. apply rs_lose; [|done|done]. by apply setback_fixed. Qed.
Lemma worker_wash_step v t r : (0 <= flags_delta v <= 2)%Z -> row_step t r (worker_wash v t r).
Proof.
  intros Hv. unfold worker_wash. destruct (Z.eqb_spec (flags_delta v) 0); [constructor|]. apply row_lose; [|lia..].
  assert (flags_delta v = 1 \/ flags_delta v = 2)%Z as [->| ->] by lia; by vm_compute.
Qed.
Lemma worker_outcome_step success disputed volume t r : row_step t r (worker_outcome success disputed volume t r).
Proof.
  unfold worker_outcome. destruct disputed, success; try (apply row_lose; [by vm_compute|lia..]).
  apply rs_succeed. by left.
Qed.
Lemma buyer_wash_step v t r : (0 <= flags_delta v <= 2)%Z -> row_step t r (buyer_wash v t r).
Proof.
  intros Hv. unfold buyer_wash. destruct (flags_delta v =? 0)%Z; [constructor|]. apply row_lose; [by vm_compute|lia|]. lia.
Qed.
Lemma buyer_outcome_step success disputed volume t r : row_step t r (buyer_outcome success disputed volume t r).
Proof.
  unfold buyer_outcome. destruct disputed, success; try (apply row_lose; [by vm_compute|lia..]); try constructor.
  right. by left.
Qed.
Lemma non_confirm_step delta t r : row_step t r (non_confirm delta t r).
Proof. apply rs_lose; [constructor|lia..]. Qed.

Lemma triple_verdict (P : reputation_world -> Prop) (g : bool) buyer seller amount exclude bw sw :
  triple P (if g then inspect cfg buyer seller amount exclude bw sw else py_ret (Verdict true 0 []))
    (fun v w => P w /\ (0 <= flags_delta v <= 2)%Z).
Proof.
  destruct g; [|by apply triple_ret]. apply triple_get. intros w _. apply triple_ret. intros s Hs. split; [done|]. by eapply flags_bounds.
Qed.
Definition grown (w : reputation_world) : Prop := evolves w0 w.
Lemma opened_grown id r w : opened w0 id r w -> grown w.
Proof. by intros []. Qed.
Lemma triple_worker worker buyer a bw sw : triple grown (record_worker_settlement_outcome cfg worker buyer a bw sw) (opened w0 worker).
Proof.
  unfold record_worker_settlement_outcome. eapply triple_bind; [apply triple_open|]. intros r0. cbv beta.
  eapply triple_bind; [eapply triple_pre; [|apply triple_ensure]; by intros s []|]. intros r. cbv beta.
  eapply triple_bind; [apply triple_verdict|]. intros v. cbv beta. apply triple_pure. intros Hv.
  destruct (negb (credit v)); apply triple_update; [by apply worker_wash_step|apply worker_outcome_step].
Qed.
Lemma triple_buyer buyer seller a : safe grown (record_buyer_settlement_outcome cfg buyer seller a).
Proof.
  unfold record_buyer_settlement_outcome, safe. destruct (_ || _); [by apply triple_ret|]. eapply triple_bind; [apply triple_open|]. intros r. cbv beta.
  eapply triple_bind; [apply triple_verdict|]. intros v. cbv beta. apply triple_pure. intros Hv.
  eapply triple_bind; [apply triple_update; destruct (negb (credit v)); [by apply buyer_wash_step|apply buyer_outcome_step]|].
  intros r'. apply triple_ret. intros s. apply opened_grown.
Qed.
(** What is not a request. *)
Definition outside (op : reputation_op) : bool := match op with Settlements _ | Wait _ => true | _ => false end.
Lemma triple_handle op : outside op = false -> safe grown (handle cfg op).
Proof.
  assert (forall A (m : MR A) Q, triple grown m Q -> (forall a w, Q a w -> grown w) -> safe grown (done_ m)) as Hdone.
  { intros A m Q Hm HQ. eapply triple_bind; [exact Hm|]. intros a. apply triple_ret. by apply HQ. }
  intros Hop. destruct op; cbn [handle]; try discriminate Hop.
  - eapply Hdone; [apply triple_open|]. intros a w0'. apply opened_grown.
  - eapply Hdone; [apply triple_worker|]. intros a' w0'. apply opened_grown.
  - by eapply Hdone; [apply triple_buyer|].
  - unfold apply_settle_reputation. eapply Hdone; [|by intros a' w0' H; exact H]. eapply triple_bind; [apply triple_worker|]. intros r.
    eapply triple_pre; [apply opened_grown|]. apply safe_bind; [|intros; apply safe_ret]. apply safe_when, safe_bind; [apply triple_buyer|].
    intros; apply safe_ret.
  - unfold record_seller_non_confirm_reputation. eapply Hdone; [eapply triple_bind; [apply triple_ensure|]|].
    + intros r. apply triple_update, non_confirm_step.
    + intros a' w0'. apply opened_grown.
  - unfold record_profile_settlement_outcome. eapply Hdone; [|by intros a' w0' H; exact H]. destruct (negb _); [by apply triple_ret|].
    eapply triple_bind; [apply triple_profile|]. intros r. cbv beta.
    eapply triple_bind; [apply triple_update, worker_outcome_step|]. intros r'. apply triple_ret. intros s. apply opened_grown.
Qed.
End Evolve.

(** ** Runs *)

Section Runs.
Context (cfg : reputation_settings).
Abbreviation step := (rep_step cfg).
Abbreviation run := (rep_run cfg).

Lemma step_evolves op w : outside op = false -> evolves w (step op w).
Proof.
  intros Hop. unfold rep_step. destruct (handle cfg op w) as [w' [[]|e]] eqn:E.
  - exact (triple_handle cfg w op Hop w w' tt (rows_evolve_refl w) E).
  - apply rows_evolve_refl.
Qed.
(** Time goes on, and rows are changed at times it passes. *)
Record leads (w w' : reputation_world) : Prop := {
  ld_clock : (clock w <= clock w')%Z;
  ld_ok : (forall id r, row_of id r w -> row_ok (clock w) r) -> forall id r, row_of id r w' -> row_ok (clock w') r;
  ld_incident : forall id r t k, row_of id r w -> last_incident r = Some (t, k) -> (t <= clock w)%Z ->
    exists r' t' k', row_of id r' w' /\ last_incident r' = Some (t', k') /\ (t <= t' <= clock w')%Z
}.
Lemma step_leads op w : leads w (step op w).
Proof.
  destruct (outside op) eqn:Eo.
  - destruct op; try discriminate Eo; (split; [cbn; lia|cbn; intros H id r Hr; eapply ok_later; [|exact (H id r Hr)]; cbn; lia|]); cbn;
      intros id r t k Hr Hi Ht; exists r, t, k; (split; [exact Hr|split; [exact Hi|lia]]).
  - destruct (step_evolves op w Eo) as [Hc Hk Hf]. split; [lia| |].
    + intros H id r' Hr'. destruct (Hf _ _ Hr') as (r & [Hr|[role ->]] & Hl); rewrite Hc; (eapply later_ok; [reflexivity|exact Hl|]); [by apply (H id)|apply new_ok].
    + intros id r t k Hr Hi Ht. destruct (Hk _ _ Hr) as (r' & Hr' & Hl). destruct (later_incident _ _ _ _ _ Ht Hl Hi) as (t' & k' & Hi' & Ht').
      exists r', t', k'. split; [done|]. split; [done|]. lia.
Qed.
Lemma leads_refl w : leads w w.
Proof. split; [done|by intros H|]. intros id r t k Hr Hi Ht. exists r, t, k. split; [done|]. split; [done|lia]. Qed.
Lemma leads_trans w w1 w2 : leads w w1 -> leads w1 w2 -> leads w w2.
Proof.
  intros [C1 O1 I1] [C2 O2 I2]. split; [lia|intros H; by apply O2, O1|]. intros id r t k Hr Hi Ht. destruct (I1 id r t k Hr Hi Ht) as (r1 & t1 & k1 & Hr1 & Hi1 & H1).
  destruct (I2 id r1 t1 k1 Hr1 Hi1 ltac:(lia)) as (r2 & t2 & k2 & Hr2 & Hi2 & H2). exists r2, t2, k2. split; [done|]. split; [done|lia].
Qed.
Lemma run_leads ops w : leads w (run ops w).
Proof.
  revert w. induction ops as [|op ops IH]; intros w; [apply leads_refl|]. eapply leads_trans; [apply step_leads|]. apply IH.
Qed.
Lemma run_rows t ops id r : row_of id r (run ops (no_reputations t)) -> row_ok (clock (run ops (no_reputations t))) r.
Proof. apply (ld_ok _ _ (run_leads ops (no_reputations t))). by intros id' r' H. Qed.

(** In every run of settlements, disputes, refusals and other requests each
    reputation has a score from 0 to 1000, successes and disputes that are together at
    most the tasks, a streak of at most the successes, and no incident in the future,
    whatever amounts, numbers that are none included, the requests bring. *)
Theorem reputations_in_range t ops id r (w := run ops (no_reputations t)) : reputations (rep w) !! id = Some r ->
  (fleb fzero (score r) = true /\ fleb (score r) MAX_SCORE = true)
  /\ (0 <= successful_tasks r /\ 0 <= disputed_tasks r /\ successful_tasks r + disputed_tasks r <= total_tasks r)%Z
  /\ (0 <= consecutive_successes r <= successful_tasks r)%Z /\ (0 <= wash_trade_flags r)%Z
  /\ (forall t' k, last_incident r = Some (t', k) -> (t' <= clock w)%Z).
Proof. intros H. by destruct (run_rows t ops id r H) as [(_ & Hs) Hc Hk Hf Hi _]. Qed.


(** Code: the limit on flags for wash trading keeps nobody from the chain. A flag comes
    with an incident, and once that is forgiven the flags are forgiven with it. *)
Theorem flag_limit_inert t ops id r now (w := run ops (no_reputations t)) :
  reputations (rep w) !! id = Some r -> (0 < reputation_wash_flag_pack_block cfg)%Z ->
  eligible (pack_of cfg r now)
  = eligible (evaluate_pack_eligibility cfg (score r) (successful_tasks r) (disputed_tasks r) (last_incident r) 0 now).
Proof.
  intros Hr Hb. pose proof (ok_marks _ _ (run_rows t ops id r Hr)) as Hm. unfold pack_of, evaluate_pack_eligibility. cbn [eligible].
  destruct (last_incident r) as [[t1 k]|]; [|by destruct (Hm eq_refl) as [_ ->]].
  destruct (rehabilitated cfg now _); [|by rewrite !andb_false_r]. by rewrite !orb_true_r.
Qed.
End Runs.

(** ** Witnesses *)

Definition sold (volume : float) : reputation_op :=
  WorkerOutcome "seller" (Some "buyer") (OutcomeArgs true false volume None) None None.
Definition quarrel : list reputation_op :=
  [sold (float_of_int 40); WorkerOutcome "seller" (Some "buyer") (OutcomeArgs false true (float_of_int 40) None) None None; Wait 5].
Definition after_quarrel : reputation_row :=
  Reputation None "worker" (float_of_int 92) 2 1 1 0 0 0 (Some (0%Z, KIND_DISPUTE)).

Lemma reputations_in_range_witness :
  let w := rep_run default_settings quarrel (no_reputations 0) in
  reputations (rep w) !! "seller" = Some after_quarrel
  /\ (fleb fzero (score after_quarrel) = true /\ fleb (score after_quarrel) MAX_SCORE = true).
Proof.
  assert (reputations (rep (rep_run default_settings quarrel (no_reputations 0))) !! "seller" = Some after_quarrel) as H by (vm_compute; reflexivity).
  split; [exact H|]. exact (proj1 (reputations_in_range default_settings 0 quarrel "seller" after_quarrel H)).
Defined.


(** ** Where code and words part *)

(** Code: a volume that is no number makes a score of 1000 of any. *)
Lemma no_number_tops_score :
  fmap score (reputations (rep (rep_run default_settings [sold fnan] (no_reputations 0))) !! "seller") = Some MAX_SCORE.
Proof. vm_compute. reflexivity. Qed.
(** Code: a refusal that costs no points still keeps a reputation from the chain. *)
Lemma refusal_blocks_pack :
  let veteran := Reputation None "worker" (float_of_int 500) 9 9 0 9 0 0 None in
  eligible (pack_of default_settings veteran 0) = true /\ score (non_confirm fzero 0 veteran) = score veteran
  /\ eligible (pack_of default_settings (non_confirm fzero 0 veteran) 0) = false.
Proof. vm_compute. done. Qed.
