(* ===== verification/WashTrades.v ===== *)
(** * Wash trades

    What the tests against made-up trades promise: the settlements that the query reads
    are all that matter, a trade that shows a sign earns nothing, and in the mini-app a
    pair of parties is credited only so often in a window and never in both
    directions. *)

From S2P Require Import Prelude PyBytes PyDatetime PyFloat PyHoare SettlementEngine Reputation.
#[local] Open Scope string_scope.
#[local] Open Scope Z_scope.

(** ** Counting *)

Lemma count_nonneg p l : 0 <= count p l.
Proof. unfold count. lia. Qed.
Lemma count_cons p e l : count p (e :: l) = (if p e then 1 else 0) + count p l.
Proof. unfold count. cbn. destruct (p e); cbn; lia. Qed.
Lemma count_app p l l' : count p (l ++ l') = count p l + count p l'.
Proof. unfold count. rewrite List.filter_app, length_app. lia. Qed.
Lemma count_ext p q l : (forall e, e ∈ l -> p e = q e) -> count p l = count q l.
Proof.
  induction l as [|e l IH]; intros H; [done|]. rewrite !count_cons, (H e), IH; [done| |by left]. intros e' He'. apply H. by right.
Qed.
Lemma count_mono p q l : (forall e, p e = true -> q e = true) -> count p l <= count q l.
Proof.
  intros H. induction l as [|e l IH]; [done|]. rewrite !count_cons. specialize (H e). destruct (p e); [rewrite H by done; lia|]. destruct (q e); lia.
Qed.
Lemma count_in p e l : e ∈ l -> p e = true -> 1 <= count p l.
Proof.
  intros He Hp. induction He as [e l|e e' l _ IH]; rewrite count_cons; [rewrite Hp|]; pose proof (count_nonneg p l); [lia|].
  specialize (IH Hp). destruct (p e'); lia.
Qed.
(** What the filter drops is not counted anyway. *)
Lemma count_filtered {A} (f : A -> TradeEdge) p (q : A -> bool) l : (forall x, x ∈ l -> p (f x) = true -> q x = true) ->
  count p (map f (List.filter q l)) = count p (map f l).
Proof.
  induction l as [|x l IH]; intros H; [done|]. cbn [List.filter map]. rewrite count_cons.
  assert (count p (map f (List.filter q l)) = count p (map f l)) as E by (apply IH; intros y Hy; apply H; by right).
  destruct (q x) eqn:Eq; cbn [map]; rewrite ?count_cons, E; [done|]. destruct (p (f x)) eqn:Ep; [|lia].
  by rewrite (H x) in Eq by (done || by left).
Qed.

Section Wash.
Context (cfg : reputation_settings).

(** ** The verdict *)

(** Two histories in which each test counts the same give the same verdict. *)
Lemma verdict_counts buyer seller amount l l' bw sw now :
  let b := norm buyer in let s := norm seller in
  burst_n cfg s now l = burst_n cfg s now l' -> pair_n cfg b s now l = pair_n cfg b s now l' ->
  reverse_n cfg b s now l = reverse_n cfg b s now l' ->
  evaluate_wash_signals cfg buyer seller amount l bw sw now = evaluate_wash_signals cfg buyer seller amount l' bw sw now.
Proof. cbv zeta. intros H1 H2 H3. unfold evaluate_wash_signals. by rewrite H1, H2, H3. Qed.

(** A text as [_norm] leaves it. *)
Definition normal (o : option string) : Prop := norm o = default "" o.

Lemma within_since t now now' window : now <= now' -> in_window (edge_of t) now' window = true ->
  window <= Z.max (reputation_wash_pair_window_hours cfg) (Z.max 1 (reputation_wash_burst_window_minutes cfg / 60 + 1)) * US_PER_HOUR ->
  (since cfg now <=? t_created t) = true.
Proof. unfold in_window, since. cbn. intros Hn Hw%Z.leb_le Hb. apply Z.leb_le. lia. Qed.
Lemma burst_in_since : burst_window cfg <= Z.max (reputation_wash_pair_window_hours cfg) (Z.max 1 (reputation_wash_burst_window_minutes cfg / 60 + 1)) * US_PER_HOUR.
Proof.
  unfold burst_window, US_PER_HOUR, US_PER_MINUTE, US_PER_SECOND. pose proof (Z.mod_pos_bound (reputation_wash_burst_window_minutes cfg) 60 ltac:(lia)).
  pose proof (Z.div_mod (reputation_wash_burst_window_minutes cfg) 60 ltac:(lia)). lia.
Qed.
Lemma pair_in_since : pair_window cfg <= Z.max (reputation_wash_pair_window_hours cfg) (Z.max 1 (reputation_wash_burst_window_minutes cfg / 60 + 1)) * US_PER_HOUR.
Proof. unfold pair_window, US_PER_HOUR, US_PER_MINUTE, US_PER_SECOND. lia. Qed.

Lemma filter_and {A} (p q : A -> bool) l : List.filter (fun x => p x && q x) l = List.filter p (List.filter q l).
Proof. induction l as [|x l IH]; [done|]. cbn. destruct (p x) eqn:Ep, (q x) eqn:Eq; cbn; rewrite ?Ep, ?IH; done. Qed.
Lemma normal_default o : normal o -> norm (Some (default "" o)) = default "" o.
Proof. by destruct o. Qed.
(** A text that is there and as [_norm] leaves it is the one it is compared with. *)
Lemma normal_same o o' : normal o -> normal o' -> norm (Some (default "" o)) = norm o' -> nonempty (norm o') = true ->
  truthy_str o' = true /\ o = o'.
Proof.
  unfold normal. intros Ho Ho' E Hn. rewrite normal_default, Ho' in E by done. rewrite Ho' in Hn.
  destruct o as [s|], o' as [s'|]; cbn in *; try done; subst; [done|]. by cbn in Hn.
Qed.

Section Read.
Context (rows : list trade) (buyer seller : option string) (now now' : datetime).
Hypothesis Hnow : now <= now'.
Hypothesis Hbuyer : normal buyer.
Hypothesis Hseller : normal seller.
Hypothesis Hrows : forall t, t ∈ rows -> normal (t_worker t) /\ normal (Some (t_client t)).
Definition relevant (t : trade) : bool := (since cfg now <=? t_created t) && is_party buyer seller t.

Lemma seller_relevant t window : t ∈ rows -> nonempty (norm seller) = true -> in_window (edge_of t) now' window = true ->
  window <= Z.max (reputation_wash_pair_window_hours cfg) (Z.max 1 (reputation_wash_burst_window_minutes cfg / 60 + 1)) * US_PER_HOUR ->
  norm (Some (e_seller (edge_of t))) = norm seller -> relevant t = true.
Proof.
  intros Hin Hn Hw Hle E. destruct (Hrows t Hin) as [Hwk _]. destruct (normal_same _ _ Hwk Hseller E Hn) as [Hs Ht].
  unfold relevant, is_party. rewrite (within_since t now now' window), Hs by done. cbn. apply orb_true_iff. left. by apply bool_decide_eq_true.
Qed.
Lemma reverse_relevant t window : t ∈ rows -> nonempty (norm seller) = true -> nonempty (norm buyer) = true ->
  in_window (edge_of t) now' window = true ->
  window <= Z.max (reputation_wash_pair_window_hours cfg) (Z.max 1 (reputation_wash_burst_window_minutes cfg / 60 + 1)) * US_PER_HOUR ->
  is_pair (norm seller) (norm buyer) (edge_of t) = true -> relevant t = true.
Proof.
  intros Hin Hn Hb Hw Hle [E1%bool_decide_eq_true E2%bool_decide_eq_true]%andb_true_iff. destruct (Hrows t Hin) as [Hwk Hcl].
  destruct (normal_same _ _ Hwk Hbuyer E2 Hb) as [Hs Ht]. destruct (normal_same _ _ Hcl Hseller E1 Hn) as [Hs' Ht'].
  unfold relevant, is_party. rewrite (within_since t now now' window), Hs, Hs' by done. cbn. apply orb_true_iff. right.
  rewrite <- Ht, <- Ht'. by rewrite !bool_decide_true.
Qed.
Lemma relevant_counts :
  let l := map edge_of (List.filter relevant rows) in
  let l' := map edge_of rows in
  burst_n cfg (norm seller) now' l = burst_n cfg (norm seller) now' l'
  /\ pair_n cfg (norm buyer) (norm seller) now' l = pair_n cfg (norm buyer) (norm seller) now' l'
  /\ reverse_n cfg (norm buyer) (norm seller) now' l = reverse_n cfg (norm buyer) (norm seller) now' l'.
Proof.
  cbv zeta. unfold burst_n, pair_n, reverse_n. destruct (nonempty (norm seller)) eqn:Hn; [|done]. rewrite !count_filtered; [done|..].
  - intros t Hin [Hw [Hb Hp]%andb_true_iff]%andb_true_iff. eapply reverse_relevant; eauto using pair_in_since.
  - intros t Hin [Hw [Hb [_ Hp]%andb_true_iff]%andb_true_iff]%andb_true_iff. eapply seller_relevant; eauto using pair_in_since.
    by eapply bool_decide_eq_true.
  - intros t Hin [Hw Hp]%andb_true_iff. eapply seller_relevant; eauto using burst_in_since. by eapply bool_decide_eq_true.
Qed.
End Read.

(** The query that judges a trade may leave out what it leaves out: the verdict from
    the rows it reads is the verdict from all successful settlements of the table but
    the one excluded, as long as identifiers are stored trimmed and in lower case. *)
Theorem history_read_suffices rows buyer seller amount exclude bw sw now now' :
  now <= now' -> normal buyer -> normal seller -> (forall t, t ∈ rows -> normal (t_worker t) /\ normal (Some (t_client t))) ->
  inspect_settlement_wash cfg rows buyer seller amount exclude bw sw now now'
  = evaluate_wash_signals cfg buyer seller amount
      (map edge_of (List.filter (fun t => succeeded t && negb (truthy_str exclude && bool_decide (exclude = Some (t_task t)))) rows)) bw sw now'.
Proof.
  intros Hnow Hb Hs Hrows. unfold inspect_settlement_wash, load_recent_edges.
  set (q := fun t => succeeded t && negb (truthy_str exclude && bool_decide (exclude = Some (t_task t)))).
  rewrite (filter_ext _ (fun t => relevant buyer seller now t && q t)).
  2:{ intros t. unfold relevant, q. by destruct (succeeded t), (_ <=? _), (is_party _ _ t). }
  rewrite filter_and. destruct (relevant_counts (List.filter q rows) buyer seller now now') as (H1 & H2 & H3); [done..| |by apply verdict_counts].
  intros t Ht. apply Hrows. by apply list_elem_of_In, filter_In, proj1, list_elem_of_In in Ht.
Qed.

Lemma count_filter {A} (f : A -> TradeEdge) (p : A -> bool) (q : TradeEdge -> bool) l : (forall x, p x = true -> q (f x) = true) ->
  Z.of_nat (List.length (List.filter p l)) <= count q (map f l).
Proof.
  intros H. induction l as [|x l IH]; [done|]. cbn [List.filter map]. rewrite count_cons. specialize (H x). destruct (p x); cbn [List.length].
  - rewrite H by done. lia.
  - destruct (q (f x)); lia.
Qed.

(** ** The mini-app *)

Definition settle_all (l : list (settlement_args * datetime)) (h : execution_history) : execution_history :=
  fold_left (fun h gt => (record_settlement cfg gt.1 gt.2 h).1) l h.
Definition no_executions : execution_history := History [] ∅.
(** Recorded from a moment on, and in the window that it opens. *)
Definition during (from : datetime) (x : ExecutionRecord) : bool :=
  (from <=? x_created x * US_PER_SECOND) && (x_created x * US_PER_SECOND + US_PER_SECOND <=? from + pair_window cfg).
Definition credited (b s : string) (from : datetime) (x : ExecutionRecord) : bool :=
  credit (x_wash x) && is_pair b s (execution_edge x) && during from x.

(** The verdict on a trade that is credited. *)
Lemma credit_counts buyer seller amount l bw sw now :
  credit (evaluate_wash_signals cfg buyer seller amount l bw sw now) = true ->
  nonempty (norm buyer) && nonempty (norm seller) && str_eqb (norm buyer) (norm seller) = false
  /\ pair_n cfg (norm buyer) (norm seller) now l < reputation_wash_pair_max cfg
  /\ reverse_n cfg (norm buyer) (norm seller) now l = 0.
Proof.
  unfold evaluate_wash_signals. cbn [credit]. rewrite negb_true_iff, !orb_false_iff. intros (((((H1 & _) & _) & H2) & H3) & _).
  apply Z.leb_gt in H2, H3. split; [done|]. split; [done|]. assert (0 <= reverse_n cfg (norm buyer) (norm seller) now l); [|lia].
  unfold reverse_n. destruct (nonempty (norm seller)); [apply count_nonneg|lia].
Qed.
(** A trade recorded before in the window is in the window of the new one. *)
Lemma during_in_window from x y now : during from x = true -> during from y = true -> x_created y = now / US_PER_SECOND ->
  in_window (execution_edge x) now (pair_window cfg) = true.
Proof.
  unfold during, in_window. cbn. intros [H1%Z.leb_le H2%Z.leb_le]%andb_true_iff [H3%Z.leb_le H4%Z.leb_le]%andb_true_iff Hy.
  apply Z.leb_le. unfold US_PER_SECOND in *. pose proof (Z.div_mod now 1000000 ltac:(lia)). pose proof (Z.mod_pos_bound now 1000000 ltac:(lia)). lia.
Qed.
Section Credit.
Context (b s : string) (from : datetime).
Hypothesis Hb : nonempty b = true.
Hypothesis Hs : nonempty s = true.

Lemma credited_new g now h (x := (record_settlement cfg g now h).2) : credited b s from x = true ->
  Z.of_nat (List.length (List.filter (credited b s from) (executions h))) + 1 < reputation_wash_pair_max cfg
  /\ (forall y, y ∈ executions h -> credited s b from y = false) /\ credited s b from x = false.
Proof.
  intros [[Hc [Eb%bool_decide_eq_true Es%bool_decide_eq_true]%andb_true_iff]%andb_true_iff Hd]%andb_true_iff.
  destruct (credit_counts _ _ _ _ _ _ _ Hc) as (Hself & Hpair & Hrev). 
  change (norm (Some (g_buyer g)) = b) in Eb. change (norm (g_seller g) = s) in Es. rewrite Eb, Es in *. split; [|split].
  - unfold pair_n in Hpair. rewrite Hs in Hpair. eapply Z.le_lt_trans; [|exact Hpair].
    rewrite Z.add_comm. apply Z.add_le_mono_l, count_filter. intros y [[_ Hy]%andb_true_iff Hdy]%andb_true_iff. cbv beta. rewrite Hb, Hy.
    by rewrite (during_in_window from y x now Hdy Hd eq_refl).
  - intros y Hy. destruct (credited s b from y) eqn:Ey; [|done]. apply andb_true_iff in Ey as [[_ Ey]%andb_true_iff Hdy].
    unfold reverse_n in Hrev. rewrite Hs in Hrev. 
    assert (1 <= count (fun e => in_window e now (pair_window cfg) && (nonempty b && is_pair s b e)) (map execution_edge (executions h))); [|lia].
    apply (count_in _ (execution_edge y)); [by apply list_elem_of_fmap_2|]. cbv beta. rewrite Hb, Ey.
    by rewrite (during_in_window from y x now Hdy Hd eq_refl).
  - destruct (credited s b from x) eqn:Ey; [|done]. apply andb_true_iff in Ey as [[_ Ey]%andb_true_iff _].
    apply andb_true_iff in Ey as [Ey%bool_decide_eq_true _]. change (norm (Some (g_buyer g)) = s) in Ey. rewrite Eb in Ey. subst s.
    unfold str_eqb in Hself. by rewrite Hb, Hs, bool_decide_true in Hself.
Qed.
Lemma settle_snoc l gt h : settle_all (l ++ [gt]) h = (record_settlement cfg gt.1 gt.2 (settle_all l h)).1.
Proof. unfold settle_all. by rewrite fold_left_app. Qed.
Lemma executions_snoc g now h : executions (record_settlement cfg g now h).1 = (executions h ++ [(record_settlement cfg g now h).2])%list.
Proof. done. Qed.
End Credit.

(** C29. In the mini-app a pair of parties earns little by trading with itself: in every
    window as long as that of the test the settlements from a buyer to a seller that were
    credited are fewer than the limit, and when one of them was credited, none from the
    seller to the buyer was. *)
Theorem pair_credit_bounded l b s from (h := settle_all l no_executions) : nonempty b = true -> nonempty s = true ->
  Z.of_nat (List.length (List.filter (credited b s from) (executions h))) <= Z.max 0 (reputation_wash_pair_max cfg - 1)
  /\ (forall x y, x ∈ executions h -> y ∈ executions h -> credited b s from x = true -> credited s b from y = false).
Proof.
  intros Hb Hs. subst h. induction l as [|[g now] l IH] using rev_ind; [split; [cbn; lia|by intros x y H%not_elem_of_nil]|].
  rewrite settle_snoc, executions_snoc. cbn [fst snd]. set (h := settle_all l no_executions) in *. set (x := (record_settlement cfg g now h).2).
  destruct IH as [IHc IHo]. split.
  - rewrite List.filter_app, length_app. cbn [List.filter]. destruct (credited b s from x) eqn:E; cbn [List.length]; [|lia].
    destruct (credited_new b s from Hb Hs g now h E) as [H _]. lia.
  - intros y z [Hy|Hy%list_elem_of_singleton]%elem_of_app [Hz|Hz%list_elem_of_singleton]%elem_of_app Hc; [by apply (IHo y)| | |].
    + subst z. destruct (credited s b from x) eqn:E; [|done]. destruct (credited_new s b from Hs Hb g now h E) as (_ & H & _). by rewrite (H y Hy) in Hc.
    + subst y. by apply (credited_new b s from Hb Hs g now h Hc).
    + subst y z. by apply (credited_new b s from Hb Hs g now h Hc).
Qed.
End Wash.

(** ** Witnesses *)

Definition sales : list trade :=
  [Trade "t1" "ann" (Some "bob") TS_SETTLED (float_of_int 5) None 0; Trade "t2" "bob" (Some "ann") TS_SETTLED (float_of_int 5) None 7;
   Trade "t3" "ann" (Some "bob") TS_DISPUTED (float_of_int 5) None 8; Trade "t4" "cat" (Some "dan") TS_SETTLED (float_of_int 5) None 9].
Lemma history_read_suffices_witness :
  inspect_settlement_wash default_settings sales (Some "ann") (Some "bob") (float_of_int 5) (Some "t9") None None 10 11
  = evaluate_wash_signals default_settings (Some "ann") (Some "bob") (float_of_int 5)
      (map edge_of (List.filter (fun t => succeeded t && negb (truthy_str (Some "t9") && bool_decide (Some "t9" = Some (t_task t)))) sales)) None None 11.
Proof.
  refine (history_read_suffices default_settings sales (Some "ann") (Some "bob") (float_of_int 5) (Some "t9") None None 10 11 _ _ _ _);
    [lia|reflexivity|reflexivity|].
  intros t Ht. apply list_elem_of_In in Ht. cbn in Ht. by repeat destruct Ht as [<-|Ht].
Defined.

Definition rounds : list (settlement_args * datetime) :=
  map (fun t => (SettlementArgs "o" "Ann" (Some "bob") "5" None None, t * US_PER_HOUR)) [0; 2; 4; 6; 8].
Lemma pair_credit_bounded_witness :
  Z.of_nat (List.length (List.filter (credited default_settings "ann" "bob" 0) (executions (settle_all default_settings rounds no_executions)))) <= 3.
Proof. exact (proj1 (pair_credit_bounded default_settings rounds "ann" "bob" 0 eq_refl eq_refl)). Defined.
Lemma pair_credit_reached :
  List.length (List.filter (credited default_settings "ann" "bob" 0) (executions (settle_all default_settings rounds no_executions))) = 3%nat.
Proof. vm_compute. reflexivity. Qed.
