(* ===== verification/DeliveryVerification.v ===== *)
(** * Delivery verification

    [services/delivery_verification.py]: the sessions in which a delivery is proved
    before a settlement may go through, by seller, carrier and buyer, by a ticket's
    papers or by the receipt of a digital service.  The catalogue of scenes, the fields
    of the important-fields standard, the captures of those fields and the key of the
    photo tags are parameters.  Notes, media addresses and the quotes of compensation
    put into [liability] are left out; texts outside the character set are cut from
    messages.  Sessions live in a dict and a file, as in [PyStore]. *)

From S2P Require Import Prelude PyBytes PyDatetime PyFloat PyHoare PyStore.
#[local] Open Scope string_scope.
#[local] Open Scope py_scope.

(** ** Policies *)

(** The fields of a scene, or of the defaults, that are read. *)
Record scene_fields := SceneFields {
  f_mode : option string;
  f_silent : option (option Z);
  f_required : option (list string);
  f_require_matched : option bool;
  f_high_risk : option bool;
  f_logistics_bps : option Z;
  f_seller_bps : option Z
}.
Record delivery_catalog := DeliveryCatalog { global_defaults : scene_fields; delivery_scenes : list (string * scene_fields) }.
Record scene_policy_ := ScenePolicy {
  pol_mode : string;
  pol_silent : option Z;
  pol_required : list string;
  pol_require_matched : bool;
  pol_high_risk : bool;
  pol_logistics_bps : Z;
  pol_seller_bps : Z
}.
Definition unknown_scene : scene_fields :=
  SceneFields (Some "digital_light") (Some (Some 0%Z)) (Some ["execution_receipt_success"; "proof_fields_covered"]) None None None None.
(** [{**defaults, **scene}] *)
Definition merged {A} (f : scene_fields -> option A) (defaults scene : scene_fields) : option A :=
  match f scene with Some a => Some a | None => f defaults end.
(** [int(x or 5000)] *)
Definition bps (x : option Z) : Z := match x with Some z => if (z =? 0)%Z then 5000 else z | None => 5000 end.
Definition text_or (d : string) (x : option string) : string := if truthy_str x then default d x else d.

Definition is_physical (mode : string) : bool := str_eqb mode "physical_triple".
Definition is_ticket (mode : string) : bool := str_eqb mode "ticket_stub".
Definition is_digital (mode : string) : bool := str_mem mode ["digital_light"; "ride_track"].

(** ** Sessions *)

Inductive dv_status : Type :=
| CREATED | AWAITING_SELLER_SHIP | AWAITING_LOGISTICS_INTAKE | IN_TRANSIT | AWAITING_LOGISTICS_DELIVER | AWAITING_BUYER_RECEIPT
| WRONG_ITEM | BUYER_CONFIRMED | BUYER_SILENT_DEFAULT | REJECTED | VERIFIED | FAILED | DISPUTED.
#[export] Instance dv_status_eq_dec : EqDecision dv_status.
Proof. solve_decision. Defined.
Definition dv_status_value (s : dv_status) : string :=
  match s with
  | CREATED => "CREATED" | AWAITING_SELLER_SHIP => "AWAITING_SELLER_SHIP" | AWAITING_LOGISTICS_INTAKE => "AWAITING_LOGISTICS_INTAKE"
  | IN_TRANSIT => "IN_TRANSIT" | AWAITING_LOGISTICS_DELIVER => "AWAITING_LOGISTICS_DELIVER"
  | AWAITING_BUYER_RECEIPT => "AWAITING_BUYER_RECEIPT" | WRONG_ITEM => "WRONG_ITEM" | BUYER_CONFIRMED => "BUYER_CONFIRMED"
  | BUYER_SILENT_DEFAULT => "BUYER_SILENT_DEFAULT" | REJECTED => "REJECTED" | VERIFIED => "VERIFIED" | FAILED => "FAILED"
  | DISPUTED => "DISPUTED"
  end.

Record event := Event { ev_kind : string; ev_at : datetime; ev_actor : option string }.
Record proof := Proof_ {
  pr_hash : string;
  pr_role : option string;
  pr_actor : option string;
  pr_nonce : option string;
  pr_tag : option string;
  pr_at : datetime
}.
Record challenge := Challenge {
  ch_role : string;
  ch_nonce : string;
  ch_captured_at : string;
  ch_geo : string;
  ch_tag : string;
  ch_expires : datetime
}.
Record loss_share := LossShare { ls_logistics_bps : Z; ls_seller_bps : Z; ls_logistics : float; ls_seller : float }.

(** What is fixed when a session is opened. *)
Record dv_terms := Terms {
  dv_task : string;
  dv_scene : string;
  dv_mode : string;
  dv_seller : string;
  dv_buyer : string;
  dv_logistics : option string;
  dv_amount : option float;
  dv_required : list string;
  dv_silent : option Z;
  dv_high_risk : bool
}.
Record dv_session := DvSession {
  terms : dv_terms;
  status : dv_status;
  events : list event;
  proofs : list (string * proof);
  challenges : list (string * challenge);
  silent_deadline : option datetime;
  verified_at : option datetime;
  loss_result : option loss_share;
  receipt_ok : bool;
  fields_ok : bool
}.
Definition set_status (st : dv_status) (x : dv_session) : dv_session :=
  DvSession (terms x) st (events x) (proofs x) (challenges x) (silent_deadline x) (verified_at x) (loss_result x) (receipt_ok x) (fields_ok x).
Definition set_proof (ptype : string) (p : proof) (x : dv_session) : dv_session :=
  DvSession (terms x) (status x) (events x) (dict_set ptype p (proofs x)) (challenges x) (silent_deadline x) (verified_at x)
    (loss_result x) (receipt_ok x) (fields_ok x).
Definition set_challenge (id : string) (c : challenge) (x : dv_session) : dv_session :=
  DvSession (terms x) (status x) (events x) (proofs x) (dict_set id c (challenges x)) (silent_deadline x) (verified_at x)
    (loss_result x) (receipt_ok x) (fields_ok x).
Definition set_deadline (d : datetime) (x : dv_session) : dv_session :=
  DvSession (terms x) (status x) (events x) (proofs x) (challenges x) (Some d) (verified_at x) (loss_result x) (receipt_ok x) (fields_ok x).
Definition set_verified (at_ : datetime) (x : dv_session) : dv_session :=
  DvSession (terms x) VERIFIED (events x) (proofs x) (challenges x) (silent_deadline x) (Some at_) (loss_result x) (receipt_ok x) (fields_ok x).
Definition set_loss (l : loss_share) (x : dv_session) : dv_session :=
  DvSession (terms x) (status x) (events x) (proofs x) (challenges x) (silent_deadline x) (verified_at x) (Some l) (receipt_ok x) (fields_ok x).
Definition set_receipt (ok : bool) (x : dv_session) : dv_session :=
  DvSession (terms x) (status x) (events x) (proofs x) (challenges x) (silent_deadline x) (verified_at x) (loss_result x) ok (fields_ok x).
Definition set_fields (ok : bool) (x : dv_session) : dv_session :=
  DvSession (terms x) (status x) (events x) (proofs x) (challenges x) (silent_deadline x) (verified_at x) (loss_result x) (receipt_ok x) ok.
(** [_append_event], at a time cut to seconds. *)
Definition append_event (kind : string) (actor : option string) (now : datetime) (x : dv_session) : dv_session :=
  DvSession (terms x) (status x) (events x ++ [Event kind (drop_microsecond now) actor]) (proofs x) (challenges x) (silent_deadline x)
    (verified_at x) (loss_result x) (receipt_ok x) (fields_ok x).
Definition has_event (kind : string) (x : dv_session) : bool := str_mem kind (map ev_kind (events x)).
Definition has_proof (kinds : list string) (x : dv_session) : bool := existsb (fun k => str_mem k (map fst (proofs x))) kinds.

(** ** The store *)

Abbreviation deliveries := (store dv_session).
Inductive dv_error : Type := DeliveryVerificationError (message : string) | OSError | TypeError.
Abbreviation MD := (M deliveries dv_error).
Definition reject {A} (message : string) : MD A := py_raise (DeliveryVerificationError message).
Definition need (b : bool) (message : string) : MD unit := py_require b (DeliveryVerificationError message).
(** The session as changed, written to the file. *)
Definition save (id : string) (x : dv_session) : MD dv_session := put id x ;;; persist OSError ;;; py_ret x.
Definition reset_delivery_sessions : MD unit := clear OSError.
Definition get_session (id : string) : MD dv_session :=
  ensure_loaded ;;; lookup_or (DeliveryVerificationError ("unknown verification_id: " ++ id)) id.
Definition session_of_task (task : string) (d : list (string * dv_session)) : option (string * dv_session) :=
  List.find (fun kx => str_eqb (dv_task (terms kx.2)) task) d.
Definition get_verification_for_task (task : string) : MD (option (string * dv_session)) :=
  ensure_loaded ;;;
  let! s := py_get in
  py_ret (session_of_task task (live s)).

Definition join_bar (l : list string) : string := String.concat "|" l.
Definition CHALLENGE_SECONDS : Z := 15 * 60.
(** [_iso] of so many seconds from [at_], as text keeps it. *)
Definition after_seconds (seconds : Z) (at_ : datetime) : datetime := drop_microsecond (at_ + seconds * US_PER_SECOND)%Z.
(** [_iso()] *)
Definition iso_z (at_ : datetime) : string := substring 0 19 (isoformat (drop_microsecond at_)) ++ "Z".

(** ** What the required events ask for *)

(** The aliases of a proof; a proof without aliases stands for itself. *)
Definition PROOF_ALIASES : list (string * list string) :=
  [("delivery_photo_tagged", ["delivery_photo_tagged"; "delivery_photo_or_code"]);
   ("email_receipt_or_confirmation_code", ["email_receipt"; "confirmation_code"; "booking_ref"; "email_receipt_or_confirmation_code"]);
   ("ticket_number_or_pnr", ["ticket_number_hash"; "pnr"; "ticket_number_or_pnr"]);
   ("email_receipt_ref", ["email_receipt"; "email_receipt_ref"]);
   ("route_or_odometer", ["route_or_odometer"; "route_track_hash"]);
   ("fare_final", ["fare_final"]);
   ("goods_receipt", ["goods_receipt"]);
   ("qa_or_quantity", ["qa_report_hash"; "quantity_accepted"; "qa_or_quantity"]);
   ("qa_report_hash", ["qa_report_hash"]);
   ("deliverable_hash", ["deliverable_hash"]);
   ("campaign_report_hash", ["campaign_report_hash"]);
   ("service_completion_ref", ["service_completion_ref"; "completion_code"; "appointment_ack"]);
   ("attendance_or_completion_ref", ["attendance_or_completion_ref"; "attendance_code"; "certificate_ref"])].
Definition allowed_proofs (key : string) : list string := default [key] (dict_get key PROOF_ALIASES).
Definition satisfied (x : dv_session) (r : string) : bool :=
  if str_eqb r "proof:recipient_ack_or_silent"
  then has_event "buyer_confirmed" x || has_event "buyer_silent_default" x || has_proof ["recipient_ack"] x
  else if str_eqb r "proof_fields_covered" then true
  else if str_eqb r "execution_receipt_success" then has_event "execution_receipt_success" x || receipt_ok x
  else if str_eqb r "buyer_explicit_accept" then has_event "buyer_confirmed" x
  else match after_prefix "proof:" r with
       | Some key =>
           has_proof (allowed_proofs key) x || existsb (fun a => has_event ("proof:" ++ a) x) (allowed_proofs key)
       | None => has_event r x
       end.
(** What is still missing. *)
Definition required_missing (x : dv_session) : list string := List.filter (fun r => negb (satisfied x r)) (dv_required (terms x)).

Definition POD_PHOTOS : list string := ["delivery_photo_tagged"; "delivery_photo_or_code"].
(** [None] when the way from the seller to the buyer is documented, or the reason why not. *)
Definition chain_gap (x : dv_session) : option string :=
  let mode := dv_mode (terms x) in
  if is_physical mode then
    if negb (has_event "seller_shipped" x) then Some "missing seller_shipped"
    else if negb (has_event "logistics_intake_ok" x) then Some "missing logistics_intake_ok"
    else if negb (has_event "logistics_delivered" x) then Some "missing logistics_delivered"
    else if bool_decide (status x = WRONG_ITEM) then Some "wrong_item"
    else if negb (has_proof POD_PHOTOS x) then Some "missing tagged delivery photo"
    else None
  else if str_eqb mode "ride_track" then
    if has_event "seller_trip_completed" x then None else Some "missing trip completed"
  else if is_ticket mode then
    if has_event "seller_issued_confirmation" x then None else Some "missing seller confirmation"
  else None.

(** ** Operations *)

Section Operations.
Context (cat : delivery_catalog).
(** [secrets.token_hex(bytes)], the n-th time *)
Context (token_hex : nat -> nat -> string).
(** [_tag_master_key], which fails in production when none is configured *)
Context (tag_key : option bytes).
(** [get_capture_public]: the status and scene of a capture, or why it fails *)
Context (get_capture_public : string -> (string * option string) + string).
(** The proof fields of a scene of the important-fields standard; [None] when it raises *)
Context (get_if_scene : string -> option (list string)).

Definition scene_policy (scene_id : string) : scene_policy_ :=
  let defaults := global_defaults cat in
  let scene := default unknown_scene (dict_get scene_id (delivery_scenes cat)) in
  ScenePolicy (text_or "digital_light" (f_mode scene))
    (default None (merged f_silent defaults scene))
    (default [] (merged f_required defaults scene))
    (default false (merged f_require_matched defaults scene))
    (default false (merged f_high_risk defaults scene))
    (bps (merged f_logistics_bps defaults scene))
    (bps (merged f_seller_bps defaults scene)).

Record dv_create := DvCreate {
  dc_task : string;
  dc_scene : string;
  dc_seller : string;
  dc_buyer : string;
  dc_logistics : option string;
  dc_capture : option string;
  dc_amount : option float
}.
Definition dv_terms_of (a : dv_create) (pol : scene_policy_) : dv_terms :=
  Terms (dc_task a) (dc_scene a) (pol_mode pol) (dc_seller a) (dc_buyer a) (dc_logistics a) (dc_amount a)
    (pol_required pol) (pol_silent pol) (pol_high_risk pol).
Definition first_status (mode : string) : dv_status :=
  if is_physical mode || is_ticket mode || str_eqb mode "ride_track" then AWAITING_SELLER_SHIP else CREATED.
Definition new_dv_session (t : dv_terms) : dv_session :=
  DvSession t (first_status (dv_mode t)) [] [] [] None None None false false.
Definition verification_id (n : nat) : string := "dv_" ++ token_hex 12 n.
Definition check_capture (scene_id : string) (capture : option string) : MD unit :=
  match get_capture_public (default "" capture) with
  | inr why => reject why
  | inl (st, sc) =>
      need (str_eqb st "MATCHED") ("important fields capture must be MATCHED, got " ++ st) ;;;
      need (negb (truthy_str sc) || bool_decide (sc = Some scene_id)) "capture scene_id mismatch"
  end.
Definition open_session (a : dv_create) (pol : scene_policy_) : MD (string * dv_session) :=
  let! s := py_get in
  let id := verification_id (drawn s) in
  let x := new_dv_session (dv_terms_of a pol) in
  py_modify draw ;;;
  ensure_loaded ;;;
  save id x ;;;
  py_ret (id, x).
Definition create_verification_session (a : dv_create) : MD (string * dv_session) :=
  let pol := scene_policy (dc_scene a) in
  need (negb (is_physical (pol_mode pol)) || truthy_str (dc_logistics a)) "physical_triple mode requires logistics_agent_id" ;;;
  need (negb (truthy_str (dc_logistics a) && str_mem (default "" (dc_logistics a)) [dc_seller a; dc_buyer a]))
    "logistics_agent_id must be distinct from buyer/seller (anti-collusion)" ;;;
  py_when (pol_require_matched pol && truthy_str (dc_capture a)) (check_capture (dc_scene a) (dc_capture a)) ;;;
  let! existing := get_verification_for_task (dc_task a) in
  match existing with
  | Some (id, x) =>
      if negb (mem (status x) [VERIFIED; FAILED; REJECTED]) then py_ret (id, x) else open_session a pol
  | None => open_session a pol
  end.

Definition tag_material (id : string) (x : dv_session) (role nonce captured_at geo : string) : bytes :=
  utf8 (join_bar [id; dv_task (terms x); role; nonce; captured_at; geo]).
Definition master_key : MD bytes :=
  match tag_key with Some k => py_ret k | None => reject "KARMA_DELIVERY_TAG_KEY required in production/staging" end.
Definition geo_text (geo : option string) : string := py_strip (if truthy_str geo then default "" geo else "").
Definition issue_capture_challenge (id party_role : string) (geo : option string) : MD (string * challenge) :=
  let role := py_strip (py_lower party_role) in
  need (str_mem role ["seller"; "logistics"; "buyer"]) "party_role must be seller|logistics|buyer" ;;;
  let! x := get_session id in
  let! s := py_get in
  let nonce := token_hex 16 (drawn s) in
  py_modify draw ;;;
  let captured_at := iso_z (now s) in
  let geo := geo_text geo in
  let! key := master_key in
  let tag := hmac_hex key (tag_material id x role nonce captured_at geo) in
  let ch_id := "ch_" ++ token_hex 8 (S (drawn s)) in
  py_modify draw ;;;
  let c := Challenge role nonce captured_at geo tag (after_seconds CHALLENGE_SECONDS (now s)) in
  save id (set_challenge ch_id c x) ;;;
  py_ret (ch_id, c).

(** The first challenge with the nonce and role. *)
Definition challenge_for (role nonce : string) (x : dv_session) : option challenge :=
  snd <$> List.find (fun c => str_eqb (ch_nonce c.2) nonce && str_eqb (ch_role c.2) role) (challenges x).
Record photo_tag := PhotoTag {
  pt_nonce : option string;
  pt_captured_at : option string;
  pt_geo : option string;
  pt_hmac : option string
}.
Definition verify_tag (id : string) (x : dv_session) (role nonce captured_at : string) (geo : option string) (tag : string) : MD unit :=
  let! key := master_key in
  py_require (py_isascii tag) TypeError ;;;
  need (str_eqb (hmac_hex key (tag_material id x role nonce captured_at (geo_text geo))) tag) "anti-forge photo tag HMAC mismatch" ;;;
  match challenge_for role nonce x with
  | None => reject "unknown capture challenge nonce"
  | Some c =>
      let! s := py_get in
      need (now s <=? ch_expires c)%Z "capture challenge expired - re-issue challenge"
  end.

Record proof_args := ProofArgs {
  pa_type : string;
  pa_hash : string;
  pa_actor : string;
  pa_role : string;
  pa_tag : photo_tag
}.
Definition is_tagged (ptype : string) : bool := ends_with "_tagged" ptype || str_mem ptype ["ship_photo_tagged"; "delivery_photo_tagged"].
Definition submit_proof (id : string) (a : proof_args) : MD dv_session :=
  let! x := get_session id in
  let role := py_strip (py_lower (pa_role a)) in
  let ptype := py_strip (pa_type a) in
  let tag := pa_tag a in
  need (negb (str_eqb ptype "") && negb (str_eqb (pa_hash a) "")) "proof_type and content_hash required" ;;;
  need (16 <=? String.length (pa_hash a))%nat "content_hash too short" ;;;
  py_when (is_tagged ptype)
    (need (truthy_str (pt_nonce tag) && truthy_str (pt_captured_at tag) && truthy_str (pt_hmac tag))
       "tagged photo requires nonce, captured_at, tag_hmac from capture-challenge" ;;;
     verify_tag id x role (default "" (pt_nonce tag)) (default "" (pt_captured_at tag)) (pt_geo tag) (default "" (pt_hmac tag))) ;;;
  let! s := py_get in
  let p := Proof_ (pa_hash a) (Some role) (Some (pa_actor a)) (pt_nonce tag) (pt_hmac tag) (drop_microsecond (now s)) in
  save id (append_event ("proof:" ++ ptype) (Some (pa_actor a)) (now s) (set_proof ptype p x)).

Definition seller_ship (id actor : string) (ship_proof_hash : option string) : MD dv_session :=
  let! x := get_session id in
  let mode := dv_mode (terms x) in
  need (str_eqb actor (dv_seller (terms x))) "only seller_agent_id may confirm ship/issue" ;;;
  need (negb (is_physical mode) || mem (status x) [AWAITING_SELLER_SHIP; CREATED])
    ("cannot ship from status " ++ dv_status_value (status x)) ;;;
  let! s := py_get in
  let did kind := append_event kind (Some actor) (now s) x in
  let ship_ref := Proof_ (default "" ship_proof_hash) None None None None (drop_microsecond (now s)) in
  save id
    (if is_physical mode then
       let x := did "seller_shipped" in
       let x := if truthy_str ship_proof_hash then set_proof "ship_ref" ship_ref x else x in
       set_status AWAITING_LOGISTICS_INTAKE x
     else if is_ticket mode then set_status AWAITING_BUYER_RECEIPT (did "seller_issued_confirmation")
     else if str_eqb mode "ride_track" then
       let x := set_status AWAITING_BUYER_RECEIPT (did "seller_trip_completed") in
       match dv_silent (terms x) with
       | Some silent => if (0 <? silent)%Z then set_deadline (after_seconds silent (now s)) x else x
       | None => x
       end
     else set_status AWAITING_BUYER_RECEIPT (did "seller_delivered_digital")).

Definition is_carrier (actor : string) (x : dv_session) : bool := bool_decide (dv_logistics (terms x) = Some actor).
(** [round(amount * bps / 10000, 6)] *)
Definition share_of (amount : float) (part : Z) : float :=
  py_round 6 (fdiv (fmul amount (float_of_int part)) (float_of_int 10000)).
Definition wrong_item_share (pol : scene_policy_) (amount : option float) : loss_share :=
  let a := match amount with Some f => if ftruthy f then f else fzero | None => fzero end in
  LossShare (pol_logistics_bps pol) (pol_seller_bps pol) (share_of a (pol_logistics_bps pol)) (share_of a (pol_seller_bps pol)).
Definition logistics_intake (id actor : string) (item_matches : bool) : MD dv_session :=
  let! x := get_session id in
  need (is_physical (dv_mode (terms x))) "logistics_intake only for physical_triple" ;;;
  need (is_carrier actor x) "only logistics_agent_id may confirm intake" ;;;
  need (bool_decide (status x = AWAITING_LOGISTICS_INTAKE)) ("cannot intake from status " ++ dv_status_value (status x)) ;;;
  let! s := py_get in
  let did kind := append_event kind (Some actor) (now s) x in
  save id
    (if item_matches then set_status IN_TRANSIT (did "logistics_intake_ok")
     else set_loss (wrong_item_share (scene_policy (dv_scene (terms x))) (dv_amount (terms x)))
            (set_status WRONG_ITEM (did "logistics_wrong_item"))).

Definition DEFAULT_SILENCE : Z := 1800.
Definition logistics_deliver (id actor proof_type content_hash : string) (tag : photo_tag) : MD dv_session :=
  let! x := get_session id in
  need (is_physical (dv_mode (terms x))) "logistics_deliver only for physical_triple" ;;;
  need (is_carrier actor x) "only logistics_agent_id may confirm deliver" ;;;
  need (mem (status x) [IN_TRANSIT; AWAITING_LOGISTICS_DELIVER]) ("cannot deliver from status " ++ dv_status_value (status x)) ;;;
  need (has_event "logistics_intake_ok" x) "logistics intake_ok required before deliver" ;;;
  submit_proof id (ProofArgs proof_type content_hash actor "logistics" tag) ;;;
  let! x := get_session id in
  let! s := py_get in
  let x := set_status AWAITING_BUYER_RECEIPT (append_event "logistics_delivered" (Some actor) (now s) x) in
  let silent := default DEFAULT_SILENCE (dv_silent (terms x)) in
  save id (if (0 <? silent)%Z then set_deadline (after_seconds silent (now s)) x else x).

Definition mark_execution_receipt (id : string) (ok : bool) : MD dv_session :=
  let! x := get_session id in
  let! s := py_get in
  let x := set_receipt ok x in
  save id (if ok then append_event "execution_receipt_success" None (now s) x else x).

(** The keys of a tagged proof stand for the untagged ones too. *)
Definition untagged (k : string) : list string :=
  if ends_with "_tagged" k
  then remove_all "_tagged" 0 k ::
       (if str_in "delivery_photo" k then ["delivery_photo_or_code"; "delivery_proof"; "delivered_at"; "recipient_ack"] else [])
  else [].
Definition fields_missing (required submitted : list string) : list string :=
  let submitted := (submitted ++ flat_map untagged submitted)%list in
  List.filter (fun r => negb (existsb (fun s => str_in r s || str_in s r) submitted)) required.
Definition cover_proof_fields_from_if (id : string) (submitted : list string) : MD dv_session :=
  let! x := get_session id in
  let required := default [] (get_if_scene (dv_scene (terms x))) in
  let! s := py_get in
  save id
    (if bool_decide (fields_missing required (submitted ++ map fst (proofs x))%list = [])
     then set_fields true (if has_event "proof_fields_covered" x then x else append_event "proof_fields_covered" None (now s) x)
     else set_fields false x).

(** How a session goes on that lacks nothing it requires. *)
Definition advanced (now_ : datetime) (x : dv_session) : dv_session :=
  let verified := set_verified (drop_microsecond now_) in
  let mode := dv_mode (terms x) in
  if has_event "buyer_confirmed" x || has_event "buyer_silent_default" x then verified x
  else if is_digital mode && negb (dv_high_risk (terms x)) then
    if receipt_ok x && (fields_ok x || bool_decide (dv_silent (terms x) = Some 0%Z)) then
      verified (if has_event "auto_verified_digital" x then x else append_event "auto_verified_digital" None now_ x)
    else x
  else if is_ticket mode && has_event "seller_issued_confirmation" x then
    if bool_decide (status x = BUYER_CONFIRMED) then verified x else x
  else x.
(** The session, and what is missing. *)
Definition judge (id : string) (x : dv_session) : MD (dv_session * list string) :=
  let missing := required_missing x in
  let missing := if fields_ok x then List.filter (fun m => negb (str_eqb m "proof_fields_covered")) missing else missing in
  if dv_high_risk (terms x) && negb (has_event "buyer_confirmed" x) then py_ret (x, ["buyer_explicit_accept"])
  else if negb (bool_decide (missing = [])) then
    let! x := save id x in
    py_ret (x, missing)
  else
    let! s := py_get in
    let! x := save id (advanced (now s) x) in
    py_ret (x, []).
Definition try_verify (id : string) : MD (dv_session * list string) :=
  let! x := get_session id in
  if mem (status x) [VERIFIED; WRONG_ITEM; FAILED; DISPUTED] then py_ret (x, [])
  else
    let! x := (if is_digital (dv_mode (terms x)) && receipt_ok x
               then cover_proof_fields_from_if id [] ;;; get_session id
               else py_ret x) in
    judge id x.

Definition buyer_confirm (id actor : string) (confirm : bool) : MD dv_session :=
  let! x := get_session id in
  need (str_eqb actor (dv_buyer (terms x))) "only buyer_agent_id may confirm receipt" ;;;
  if mem (status x) [VERIFIED; WRONG_ITEM; FAILED] then py_ret x
  else
    match chain_gap x with
    | Some reason => need (negb (is_physical (dv_mode (terms x)))) ("cannot buyer-confirm: " ++ reason)
    | None => py_ret tt
    end ;;;
    let! s := py_get in
    if confirm then
      save id (set_status BUYER_CONFIRMED (append_event "buyer_confirmed" None (now s) x)) ;;;
      let! r := try_verify id in
      py_ret r.1
    else save id (set_status REJECTED (append_event "buyer_rejected" None (now s) x)).

(** [None] when silence means nothing yet. *)
Definition apply_silent_buyer_default (id : string) : MD (option dv_session) :=
  let! x := get_session id in
  let! s := py_get in
  if mem (status x) [VERIFIED; BUYER_CONFIRMED; BUYER_SILENT_DEFAULT; WRONG_ITEM; FAILED; REJECTED]
     || dv_high_risk (terms x)
     || negb (match dv_silent (terms x) with Some silent => 0 <? silent | None => false end)%Z
     || match silent_deadline x with Some d => now s <=? d | None => true end%Z
  then py_ret None
  else
    match chain_gap x with
    | Some _ =>
        let! x := save id x in
        py_ret (Some x)
    | None =>
        save id (set_status BUYER_SILENT_DEFAULT (append_event "buyer_silent_default" None (now s) x)) ;;;
        let! r := try_verify id in
        py_ret (Some r.1)
    end.
(** The loop over the identifiers: the domain's own error is passed over, others are not. *)
Fixpoint expire_each (limit : nat) (applied : list string) (todo : list string) : MD (list string) :=
  match todo with
  | [] => py_ret applied
  | id :: r =>
      if (limit <=? length applied)%nat then py_ret applied
      else fun s =>
        match apply_silent_buyer_default id s with
        | (s', Ret out) =>
            let done_ := match out with Some x => mem (status x) [VERIFIED; BUYER_SILENT_DEFAULT] | None => false end in
            expire_each limit (if done_ then applied ++ [id] else applied)%list r s'
        | (s', Raise (DeliveryVerificationError _)) => expire_each limit applied r s'
        | (s', Raise e) => (s', Raise e)
        end
  end.
Definition expire_silent_buyers (limit : nat) : MD (list string) :=
  ensure_loaded ;;;
  let! s := py_get in
  expire_each limit [] (take (limit * 2) (map fst (live s))).

Definition SETTLE_SWEEP : nat := 50.
(** The session that lets the settlement pass; [None] for a digital scene without one. *)
Definition require_verified_for_settle (task : string) (scene_id : option string) (allow_missing : bool) : MD (option (string * dv_session)) :=
  expire_silent_buyers SETTLE_SWEEP ;;;
  let! found := get_verification_for_task task in
  match found with
  | None =>
      let mode := pol_mode (scene_policy (text_or "api_tool_call" scene_id)) in
      need (allow_missing && is_digital mode) "delivery verification session required" ;;;
      py_ret None
  | Some (id, x) =>
      if bool_decide (status x = VERIFIED) then py_ret (Some (id, x))
      else
        let! r := try_verify id in
        need (bool_decide (status r.1 = VERIFIED)) ("delivery not VERIFIED (status=" ++ dv_status_value (status r.1) ++ ")") ;;;
        py_ret (Some (id, r.1))
  end.

(** ** Runs *)

Inductive delivery_op : Type :=
| CreateDelivery (a : dv_create)
| GetDelivery (id : string)
| GetForTask (task : string)
| IssueChallenge (id party_role : string) (geo : option string)
| SubmitProof (id : string) (a : proof_args)
| SellerShip (id actor : string) (ship_proof_hash : option string)
| Intake (id actor : string) (item_matches : bool)
| Deliver (id actor proof_type content_hash : string) (tag : photo_tag)
| MarkReceipt (id : string) (ok : bool)
| CoverFields (id : string) (submitted : list string)
| TryVerify (id : string)
| BuyerConfirm (id actor : string) (confirm : bool)
| ApplySilence (id : string)
| ExpireSilent (limit : nat)
| RequireVerified (task : string) (scene_id : option string) (allow_missing : bool)
| ResetDeliveries
| Restarted
| DiskBecomes (d : disk_state)
| Passes (us : N).

Definition quietly {A} (m : MD A) : MD unit := m ;;; py_ret tt.
Definition deliver_op (op : delivery_op) : MD unit :=
  match op with
  | CreateDelivery a => quietly (create_verification_session a)
  | GetDelivery id => quietly (get_session id)
  | GetForTask task => quietly (get_verification_for_task task)
  | IssueChallenge id role geo => quietly (issue_capture_challenge id role geo)
  | SubmitProof id a => quietly (submit_proof id a)
  | SellerShip id actor h => quietly (seller_ship id actor h)
  | Intake id actor ok => quietly (logistics_intake id actor ok)
  | Deliver id actor ptype h tag => quietly (logistics_deliver id actor ptype h tag)
  | MarkReceipt id ok => quietly (mark_execution_receipt id ok)
  | CoverFields id keys => quietly (cover_proof_fields_from_if id keys)
  | TryVerify id => quietly (try_verify id)
  | BuyerConfirm id actor ok => quietly (buyer_confirm id actor ok)
  | ApplySilence id => quietly (apply_silent_buyer_default id)
  | ExpireSilent limit => quietly (expire_silent_buyers limit)
  | RequireVerified task scene_id allow => quietly (require_verified_for_settle task scene_id allow)
  | ResetDeliveries => reset_delivery_sessions
  | Restarted => py_modify restart
  | DiskBecomes d => py_modify (disk_becomes d)
  | Passes us => py_modify (pass us)
  end.
Definition deliver_all (ops : list delivery_op) (s : deliveries) : deliveries :=
  fold_left (fun s op => run_state (deliver_op op) s) ops s.
End Operations.
