(* ===== verification/DeliveryRuns.v ===== *)
(** * Delivery verification: runs

    What holds in every sequence of requests about deliveries, restarts of the process
    and failing disks: the log of a parcel is a history of an abstract machine, a
    settlement passes only where the parcel was handed over and accepted, tagged photos
    answer a challenge that was issued, and a refused request changes nothing. *)

From S2P Require Import Prelude PyBytes PyDatetime PyFloat PyHoare PyStore DeliveryVerification.
#[local] Open Scope string_scope.
#[local] Open Scope py_scope.

(** ** The way of a parcel

    Where a parcel is, told by its log: who may hand it on, and what the yes of the
    buyer or the buyer's silence means. *)

Inductive stage : Type := AtSeller | Offered | Carried | WrongParcel | Handed (at_ : datetime) (accepted : bool).
Definition by_carrier (t : dv_terms) (e : event) : Prop := ev_actor e = dv_logistics t.
(** Silence counts from the hand-over, where the scene lets it count. *)
Definition silent_long_enough (t : dv_terms) (handed : datetime) (e : event) : Prop :=
  dv_high_risk t = false /\ exists silent, dv_silent t = Some silent /\ (0 < silent)%Z /\ (handed + silent * US_PER_SECOND <= ev_at e)%Z.
Inductive parcel_step (t : dv_terms) (e : event) : stage -> stage -> Prop :=
| step_ship : ev_kind e = "seller_shipped" -> ev_actor e = Some (dv_seller t) -> parcel_step t e AtSeller Offered
| step_intake : ev_kind e = "logistics_intake_ok" -> by_carrier t e -> parcel_step t e Offered Carried
| step_wrong : ev_kind e = "logistics_wrong_item" -> by_carrier t e -> parcel_step t e Offered WrongParcel
| step_deliver : ev_kind e = "logistics_delivered" -> by_carrier t e -> parcel_step t e Carried (Handed (ev_at e) false)
| step_confirm a b : ev_kind e = "buyer_confirmed" -> parcel_step t e (Handed a b) (Handed a true)
| step_reject a b : ev_kind e = "buyer_rejected" -> parcel_step t e (Handed a b) (Handed a b)
| step_silence a b : ev_kind e = "buyer_silent_default" -> silent_long_enough t a e -> parcel_step t e (Handed a b) (Handed a true)
| step_other p : ev_kind e ∉ ["seller_shipped"; "logistics_intake_ok"; "logistics_wrong_item"; "logistics_delivered";
                              "buyer_confirmed"; "buyer_rejected"; "buyer_silent_default"] -> parcel_step t e p p.
Inductive parcel_log (t : dv_terms) : list event -> stage -> Prop :=
| log_start : parcel_log t [] AtSeller
| log_next l e p q : parcel_log t l p -> parcel_step t e p q -> parcel_log t (l ++ [e]) q.

(** The statuses a session may have at a stage. *)
Definition stands (p : stage) : list dv_status :=
  match p with
  | AtSeller => [AWAITING_SELLER_SHIP]
  | Offered => [AWAITING_LOGISTICS_INTAKE]
  | Carried => [IN_TRANSIT]
  | WrongParcel => [WRONG_ITEM]
  | Handed _ false => [AWAITING_BUYER_RECEIPT; REJECTED]
  | Handed _ true => [BUYER_CONFIRMED; BUYER_SILENT_DEFAULT; REJECTED; VERIFIED]
  end.

(** What a log holds and where it leads. *)
Definition logged (kind : string) (l : list event) : Prop := exists e, e ∈ l /\ ev_kind e = kind.
Lemma has_event_logged kind x : has_event kind x = true <-> logged kind (events x).
Proof.
  unfold has_event, str_mem, logged. rewrite bool_decide_eq_true, list_elem_of_fmap. naive_solver.
Qed.
Lemma logged_snoc kind l e : logged kind (l ++ [e]) <-> logged kind l \/ ev_kind e = kind.
Proof.
  unfold logged. split.
  - intros (e' & [H|H%list_elem_of_singleton]%elem_of_app & Hk); [left; by exists e'|right; by subst].
  - intros [(e' & H & Hk)|H]; [exists e'|exists e]; rewrite elem_of_app, list_elem_of_singleton; auto.
Qed.
Lemma logged_nil kind : ~ logged kind [].
Proof. by intros (e & H%not_elem_of_nil & _). Qed.

Lemma delivered_handed t l p : parcel_log t l p -> logged "logistics_delivered" l -> exists a b, p = Handed a b.
Proof.
  induction 1 as [|l e p q H IH Hs]; [by intros ?%logged_nil|]. rewrite logged_snoc. intros [Hl|Hk].
  - destruct (IH Hl) as (a & b & ->). inversion Hs; eauto.
  - inversion Hs; try congruence; eauto. set_solver.
Qed.
Lemma yes_accepted t l p : parcel_log t l p -> logged "buyer_confirmed" l \/ logged "buyer_silent_default" l -> exists a, p = Handed a true.
Proof.
  induction 1 as [|l e p q H IH Hs]; [by intros [?%logged_nil|?%logged_nil]|]. rewrite !logged_snoc. intros Hl.
  assert ((logged "buyer_confirmed" l \/ logged "buyer_silent_default" l) \/ (ev_kind e = "buyer_confirmed" \/ ev_kind e = "buyer_silent_default")) as [Hy|Hk] by tauto.
  - destruct (IH Hy) as (a & ->). inversion Hs; eauto.
  - inversion Hs; destruct Hk; try congruence; eauto; set_solver.
Qed.

(** The log of an accepted parcel, spelled out. *)
Definition yes_event (t : dv_terms) (handed : datetime) (e : event) : Prop :=
  ev_kind e = "buyer_confirmed" \/ ev_kind e = "buyer_silent_default" /\ silent_long_enough t handed e.
Definition at_offer (t : dv_terms) (l : list event) : Prop :=
  exists e l1 l2, l = (l1 ++ e :: l2)%list /\ ev_kind e = "seller_shipped" /\ ev_actor e = Some (dv_seller t).
Definition at_carrier (t : dv_terms) (l : list event) : Prop :=
  exists e l1 l2, l = (l1 ++ e :: l2)%list /\ ev_kind e = "logistics_intake_ok" /\ by_carrier t e /\ at_offer t l1.
Definition at_buyer (t : dv_terms) (handed : datetime) (l : list event) : Prop :=
  exists e l1 l2, l = (l1 ++ e :: l2)%list /\ ev_kind e = "logistics_delivered" /\ by_carrier t e /\ ev_at e = handed /\ at_carrier t l1.
Definition accepted_log (t : dv_terms) (handed : datetime) (l : list event) : Prop :=
  exists e l1 l2, l = (l1 ++ e :: l2)%list /\ yes_event t handed e /\ at_buyer t handed l1.
Definition log_says (t : dv_terms) (p : stage) (l : list event) : Prop :=
  match p with
  | AtSeller => True
  | Offered | WrongParcel => at_offer t l
  | Carried => at_carrier t l
  | Handed a b => at_buyer t a l /\ (b = true -> accepted_log t a l)
  end.
Lemma grow {P : event -> list event -> Prop} l e :
  (exists x l1 l2, l = (l1 ++ x :: l2)%list /\ P x l1) -> exists x l1 l2, (l ++ [e] = l1 ++ x :: l2)%list /\ P x l1.
Proof. intros (x & l1 & l2 & -> & H). exists x, l1, (l2 ++ [e])%list. split; [by rewrite <- app_assoc|done]. Qed.
Lemma log_says_grow t p l e : log_says t p l -> log_says t p (l ++ [e]).
Proof. destruct p; cbn; try done; try apply grow. intros [H1 H2]. split; [by apply grow|]. intros Hb. by apply grow, H2. Qed.
Lemma parcel_told t l p : parcel_log t l p -> log_says t p l.
Proof.
  induction 1 as [|l e p q H IH Hs]; [done|]. destruct Hs; cbn in *.
  - by exists e, l, [].
  - by exists e, l, [].
  - by apply grow.
  - split; [by exists e, l, []|done].
  - destruct IH as [IH _]. split; [by apply grow|]. intros _. exists e, l, []. split; [done|]. split; [by left|done].
  - by apply (log_says_grow t (Handed a b)).
  - destruct IH as [IH _]. split; [by apply grow|]. intros _. exists e, l, []. split; [done|]. split; [by right|done].
  - by apply log_says_grow.
Qed.

(** ** Sound sessions *)

Definition PARCEL_KINDS : list string :=
  ["seller_shipped"; "logistics_intake_ok"; "logistics_wrong_item"; "logistics_delivered"; "buyer_confirmed"; "buyer_rejected";
   "buyer_silent_default"].
Definition physical (x : dv_session) : Prop := is_physical (dv_mode (terms x)) = true.
Definition deadline_set (x : dv_session) (p : stage) : Prop :=
  forall d, silent_deadline x = Some d ->
  exists a b, p = Handed a b /\ d = (a + default DEFAULT_SILENCE (dv_silent (terms x)) * US_PER_SECOND)%Z /\ drop_microsecond d = d.
Definition said_yes (x : dv_session) : Prop := logged "buyer_confirmed" (events x) \/ logged "buyer_silent_default" (events x).
Definition more_proofs (x y : dv_session) : Prop := forall kinds, has_proof kinds x = true -> has_proof kinds y = true.

(** An event of another kind than those listed. *)
Ltac no_kind H := exfalso; cbn in H; repeat (apply elem_of_cons in H as [H|H]; [discriminate|]); by apply not_elem_of_nil in H.

Section Sound.
(** The buyer of a session said yes; a challenge was issued. *)
Context (yes : string -> string -> Prop) (issued : string -> challenge -> Prop).

Record sound (id : string) (x : dv_session) : Prop := Sound {
  on_its_way : physical x -> exists p, parcel_log (terms x) (events x) p /\ status x ∈ stands p /\ deadline_set x p;
  photographed : physical x -> said_yes x -> has_proof POD_PHOTOS x = true;
  yes_by_buyer : logged "buyer_confirmed" (events x) -> yes id (dv_buyer (terms x));
  all_issued : forall c, c ∈ map snd (challenges x) -> issued id c
}.

Lemma sound_frame id x y : terms y = terms x -> events y = events x -> status y = status x -> silent_deadline y = silent_deadline x ->
  challenges y = challenges x -> more_proofs x y -> sound id x -> sound id y.
Proof.
  intros Et Ee Es Ed Ec Hp [H1 H2 H3 H4]. unfold physical, said_yes, deadline_set in *. split.
  - unfold physical, deadline_set. by rewrite Et, Ee, Es, Ed.
  - unfold physical, said_yes. rewrite Et, Ee. intros Hph Hy. by apply Hp, H2.
  - by rewrite Et, Ee.
  - by rewrite Ec.
Qed.
Lemma sound_event id x y e : terms y = terms x -> events y = (events x ++ [e])%list -> challenges y = challenges x -> more_proofs x y ->
  (physical x -> forall p, parcel_log (terms x) (events x) p -> status x ∈ stands p -> deadline_set x p ->
     exists q, parcel_step (terms x) e p q /\ status y ∈ stands q /\ deadline_set y q) ->
  (physical x -> ev_kind e ∈ ["buyer_confirmed"; "buyer_silent_default"] -> has_proof POD_PHOTOS x = true) ->
  (ev_kind e = "buyer_confirmed" -> yes id (dv_buyer (terms x))) ->
  sound id x -> sound id y.
Proof.
  intros Et Ee Ec Hp Hstep Hphoto Hyes [H1 H2 H3 H4]. split; unfold physical, said_yes in *; rewrite ?Et, ?Ee, ?Ec, ?logged_snoc.
  - intros Hph. destruct (H1 Hph) as (p & Hl & Hs & Hd). destruct (Hstep Hph p Hl Hs Hd) as (q & Hq & Hs' & Hd').
    exists q. split; [|done]. by eapply log_next.
  - intros Hph Hy. apply Hp. destruct Hy as [[Hy|Hy]|[Hy|Hy]]; [apply H2; auto|apply Hphoto; set_solver|apply H2; auto|apply Hphoto; set_solver].
  - by intros [Hy|Hy]; auto.
  - done.
Qed.
(** An event that is none of the parcel's. *)
Lemma sound_neutral id x e y : terms y = terms x -> events y = (events x ++ [e])%list -> challenges y = challenges x -> more_proofs x y ->
  (physical x -> status y = status x /\ silent_deadline y = silent_deadline x) -> ev_kind e ∉ PARCEL_KINDS -> sound id x -> sound id y.
Proof.
  intros Et Ee Ec Hp Hs He. apply (sound_event _ _ _ e); try done.
  - intros Hph p Hl Hst Hd. destruct (Hs Hph) as [-> E]. exists p. split; [by apply step_other|]. split; [done|].
    unfold deadline_set in *. by rewrite Et, E.
  - intros _ H. exfalso. set_solver.
  - intros H. exfalso. set_solver.
Qed.
Lemma more_same x y : proofs y = proofs x -> more_proofs x y.
Proof. intros E kinds. unfold has_proof. by rewrite E. Qed.
Lemma dict_set_keys {V} k (v : V) d j : j ∈ map fst d -> j ∈ map fst (dict_set k v d).
Proof.
  induction d as [|[k' v'] d IH]; cbn; [by intros ?%not_elem_of_nil|]. unfold str_eqb. case_bool_decide; cbn; rewrite !elem_of_cons; subst; tauto.
Qed.
Lemma more_set_proof ptype p x : more_proofs x (set_proof ptype p x).
Proof.
  intros kinds. unfold has_proof. rewrite !existsb_exists. intros (k & Hk & Hin). exists k. split; [done|].
  unfold str_mem in *. apply bool_decide_eq_true in Hin. apply bool_decide_eq_true. by apply dict_set_keys.
Qed.
Lemma proof_kind ptype : "proof:" ++ ptype ∉ PARCEL_KINDS.
Proof. intros H. repeat (apply elem_of_cons in H as [H|H]; [discriminate|]). by apply not_elem_of_nil in H. Qed.

(** ** Requests keep sessions sound *)

Section Kept.
Context (cat : delivery_catalog) (token_hex : nat -> nat -> string) (tag_key : option bytes)
  (get_capture_public : string -> (string * option string) + string) (get_if_scene : string -> option (list string)) (n : nat).
Abbreviation kept := (keeps (E := dv_error) (everywhere sound n)).

Lemma kept_found {A} id (k : dv_session -> MD A) : (forall x, sound id x -> kept (k x)) -> kept (py_bind (get_session id) k).
Proof. intros Hk s Hs. exact (kept_lookup (P := sound) _ id k Hk (memory s) (memory_kept _ Hs)). Qed.
Lemma kept_save id x : sound id x -> kept (save id x).
Proof. intros H. unfold save. apply keeps_bind; [by by_store kept_put|intros _]. apply keeps_bind; auto with keeps. Qed.
Lemma kept_need {A} b message (k : unit -> MD A) : (b = true -> kept (k tt)) -> kept (py_bind (need b message) k).
Proof. apply kept_check. Qed.
Lemma kept_quietly {A} (m : MD A) : kept m -> kept (quietly m).
Proof. intros H. apply keeps_bind; [done|]. intros a. apply keeps_ret. Qed.
Lemma kept_get_session id : kept (get_session id).
Proof. intros s Hs. by apply (kept_found id py_ret) in Hs; [unfold run_state, py_bind in *; destruct (get_session id s) as [? []]|intros x _; apply keeps_ret]. Qed.
Lemma kept_for_task task : kept (get_verification_for_task task).
Proof. apply keeps_bind; [by_store kept_load|intros _]. by apply keeps_bind; [apply keeps_get|intros s; apply keeps_ret]. Qed.

Local Ltac along :=
  repeat first
    [ progress intros
    | lazymatch goal with
      | |- keeps _ (py_bind (get_session _) _) => apply kept_found
      | |- keeps _ (py_bind (need _ _) _) => apply kept_need
      | |- keeps _ (py_bind _ _) => apply keeps_bind
      | |- keeps _ (py_when _ _) => apply keeps_when
      | |- keeps _ (need _ _) => apply keeps_require
      | |- keeps _ (reject _) => apply keeps_raise
      | |- keeps _ (get_session _) => apply kept_get_session
      | |- keeps _ (get_verification_for_task _) => apply kept_for_task
      | |- keeps _ (save _ _) => apply kept_save
      | |- keeps _ (match ?x with _ => _ end) => destruct x eqn:?
      end
    | solve [eauto with keeps] ].

Lemma kept_verify_tag id x role nonce captured_at geo tag : kept (verify_tag tag_key id x role nonce captured_at geo tag).
Proof. unfold verify_tag, master_key. along. Qed.
Lemma sound_proof id x ptype p a t : sound id x -> sound id (append_event ("proof:" ++ ptype) a t (set_proof ptype p x)).
Proof. intros H. eapply (sound_neutral id x); try done; [apply more_set_proof|apply proof_kind]. Qed.
Lemma kept_submit id a : kept (submit_proof tag_key id a).
Proof.
  unfold submit_proof. along; [apply kept_verify_tag|]. by apply sound_proof.
Qed.

(** Facts of the guards. *)
Lemma physical_kinds x : physical x -> is_ticket (dv_mode (terms x)) = false /\ is_digital (dv_mode (terms x)) = false.
Proof. unfold physical, is_physical, is_ticket, is_digital, str_eqb. by intros ->%bool_decide_eq_true. Qed.
Lemma not_physical {P : Prop} x : is_physical (dv_mode (terms x)) = false -> physical x -> P.
Proof. unfold physical. congruence. Qed.
Lemma no_deadline x p : deadline_set x p -> (forall a b, p <> Handed a b) -> silent_deadline x = None.
Proof. intros H Hp. destruct (silent_deadline x) as [d|] eqn:E; [|done]. destruct (H d E) as (a & b & -> & _). by destruct (Hp a b). Qed.
Lemma at_stage st p : st ∈ stands p ->
  (st = AWAITING_SELLER_SHIP -> p = AtSeller) /\ (st = AWAITING_LOGISTICS_INTAKE -> p = Offered) /\ (st = IN_TRANSIT -> p = Carried)
  /\ st <> CREATED /\ st <> AWAITING_LOGISTICS_DELIVER.
Proof.
  intros H. destruct p as [| | | |a []]; cbn in H; repeat (apply elem_of_cons in H as [->|H]; [by split_and!|]); by apply not_elem_of_nil in H.
Qed.
Lemma sound_ship id x t a : sound id x -> physical x -> status x ∈ [AWAITING_SELLER_SHIP; CREATED] -> a = dv_seller (terms x) ->
  sound id (set_status AWAITING_LOGISTICS_INTAKE (append_event "seller_shipped" (Some a) t x)).
Proof.
  intros H Hph Hs ->. eapply (sound_event id x); try done; [by apply more_same| |intros _ Hk; by no_kind Hk].
  intros _ p _ Hst Hd. destruct (at_stage _ _ Hst) as (H1 & _ & _ & H2 & _).
  assert (p = AtSeller) as -> by (apply H1; set_solver). eexists. split; [by apply step_ship|]. split; [by left|].
  intros d E. cbn in E. by rewrite (no_deadline _ _ Hd) in E.
Qed.
Lemma sound_intake id x t a : sound id x -> physical x -> status x = AWAITING_LOGISTICS_INTAKE -> dv_logistics (terms x) = Some a ->
  sound id (set_status IN_TRANSIT (append_event "logistics_intake_ok" (Some a) t x)).
Proof.
  intros H Hph Hs Ha. eapply (sound_event id x); try done; [by apply more_same| |intros _ Hk; by no_kind Hk].
  intros _ p _ Hst Hd. destruct (at_stage _ _ Hst) as (_ & H1 & _). rewrite (H1 Hs) in *.
  eexists. split; [apply step_intake; [done|by symmetry]|]. split; [by left|]. intros d E. cbn in E. by rewrite (no_deadline _ _ Hd) in E.
Qed.
Lemma sound_wrong id x t a l : sound id x -> physical x -> status x = AWAITING_LOGISTICS_INTAKE -> dv_logistics (terms x) = Some a ->
  sound id (set_loss l (set_status WRONG_ITEM (append_event "logistics_wrong_item" (Some a) t x))).
Proof.
  intros H Hph Hs Ha. eapply (sound_event id x); try done; [by apply more_same| |intros _ Hk; by no_kind Hk].
  intros _ p _ Hst Hd. destruct (at_stage _ _ Hst) as (_ & H1 & _). rewrite (H1 Hs) in *.
  eexists. split; [apply step_wrong; [done|by symmetry]|]. split; [by left|]. intros d E. cbn in E. by rewrite (no_deadline _ _ Hd) in E.
Qed.
Lemma after_whole_seconds k t : after_seconds k t = (drop_microsecond t + k * US_PER_SECOND)%Z.
Proof. unfold after_seconds, drop_microsecond. rewrite Z.mod_add by done. lia. Qed.
Lemma drop_twice t : drop_microsecond (drop_microsecond t) = drop_microsecond t.
Proof.
  unfold drop_microsecond. replace ((t - t mod US_PER_SECOND) mod US_PER_SECOND)%Z with 0%Z; [lia|].
  by rewrite Zminus_mod_idemp_r, Z.sub_diag.
Qed.
Lemma sound_deliver id x t a silent : sound id x -> physical x -> status x ∈ [IN_TRANSIT; AWAITING_LOGISTICS_DELIVER] ->
  dv_logistics (terms x) = Some a -> silent = default DEFAULT_SILENCE (dv_silent (terms x)) ->
  let y := set_status AWAITING_BUYER_RECEIPT (append_event "logistics_delivered" (Some a) t x) in
  sound id (if (0 <? silent)%Z then set_deadline (after_seconds silent t) y else y).
Proof.
  intros H Hph Hs Ha -> y. eapply (sound_event id x); [by case_match..| | | | |exact H].
  - by case_match; apply more_same.
  - intros _ p _ Hst Hd. destruct (at_stage _ _ Hst) as (_ & _ & H1 & _ & H2). assert (p = Carried) as -> by (apply H1; set_solver).
    eexists. split; [apply step_deliver; [done|by symmetry]|]. split; [by case_match; left|].
    destruct (0 <? _)%Z.
    + intros d [= <-]. eexists _, _. split; [done|]. split; [apply after_whole_seconds|apply drop_twice].
    + intros d E. cbn in E. by rewrite (no_deadline _ _ Hd) in E.
  - intros _ Hk. by no_kind Hk.
  - done.
Qed.
Lemma chain_facts x : chain_gap x = None -> physical x -> logged "logistics_delivered" (events x) /\ has_proof POD_PHOTOS x = true.
Proof.
  unfold chain_gap, physical. intros H E. rewrite E in H. rewrite <- has_event_logged.
  destruct (has_event "seller_shipped" x); [|done]. destruct (has_event "logistics_intake_ok" x); [|done].
  destruct (has_event "logistics_delivered" x); [|done]. cbn [negb] in H. destruct (bool_decide _); [done|]. by destruct (has_proof _ x).
Qed.
(** What the buyer says, or the buyer's silence. *)
Lemma sound_answer id x y t kind st b : sound id x -> (physical x -> chain_gap x = None) ->
  y = set_status st (append_event kind None t x) ->
  (kind = "buyer_confirmed" -> yes id (dv_buyer (terms x))) ->
  (forall a c, (forall d, silent_deadline x = Some d -> d = a + default DEFAULT_SILENCE (dv_silent (terms x)) * US_PER_SECOND /\ drop_microsecond d = d)%Z ->
     parcel_step (terms x) (Event kind (drop_microsecond t) None) (Handed a c) (Handed a (b || c))) ->
  (forall a c, c = b || c -> st ∈ stands (Handed a c)) -> sound id y.
Proof.
  intros H Hgap -> Hyes Hstep Hst. eapply (sound_event id x); try done; [by apply more_same| |].
  - intros Hph p Hl _ Hd. destruct (chain_facts x (Hgap Hph) Hph) as [Hdel _]. destruct (delivered_handed _ _ _ Hl Hdel) as (a & c & ->).
    exists (Handed a (b || c)). split; [|split; [apply Hst; by destruct b, c|]].
    + apply Hstep. intros d E. by destruct (Hd d E) as (a' & c' & [= <- <-] & Hd').
    + intros d E. destruct (Hd d E) as (a' & c' & [= <- <-] & Hd'). by exists a, (b || c).
  - intros Hph _. by apply chain_facts; [apply Hgap|].
Qed.
Lemma sound_confirm id x t : sound id x -> (physical x -> chain_gap x = None) -> yes id (dv_buyer (terms x)) ->
  sound id (set_status BUYER_CONFIRMED (append_event "buyer_confirmed" None t x)).
Proof.
  intros H Hg Hy. eapply (sound_answer id x _ t _ _ true); try done.
  - intros a c _. by apply step_confirm.
  - intros a c ->. cbn. set_solver.
Qed.
Lemma sound_reject id x t : sound id x -> (physical x -> chain_gap x = None) ->
  sound id (set_status REJECTED (append_event "buyer_rejected" None t x)).
Proof.
  intros H Hg. eapply (sound_answer id x _ t _ _ false); try done.
  - intros a c _. by apply step_reject.
  - intros a [] _; cbn; set_solver.
Qed.
Lemma whole_second_passed d t : drop_microsecond d = d -> (t <=? d)%Z = false -> (d <= drop_microsecond t)%Z.
Proof.
  rewrite Z.leb_gt. intros <-. unfold drop_microsecond. intros H. pose proof (Z.div_mod d US_PER_SECOND ltac:(done)). pose proof (Z.div_mod t US_PER_SECOND ltac:(done)).
  pose proof (Z.mod_pos_bound t US_PER_SECOND ltac:(done)). assert (d / US_PER_SECOND <= t / US_PER_SECOND)%Z; nia.
Qed.
Lemma sound_silence id x t d silent : sound id x -> (physical x -> chain_gap x = None) -> dv_high_risk (terms x) = false ->
  dv_silent (terms x) = Some silent -> (0 < silent)%Z -> silent_deadline x = Some d -> (t <=? d)%Z = false ->
  sound id (set_status BUYER_SILENT_DEFAULT (append_event "buyer_silent_default" None t x)).
Proof.
  intros H Hg Hr Hs Hp Hd Ht. eapply (sound_answer id x _ t _ _ true); try done.
  - intros a c Hdl. destruct (Hdl d Hd) as [Ed Ew]. apply step_silence; [done|]. split; [done|]. exists silent. split_and!; try done.
    cbn. pose proof (whole_second_passed d t Ew Ht) as Hw. rewrite Ed, Hs in Hw. exact Hw.
  - intros a c ->. cbn. set_solver.
Qed.
Lemma sound_verified id x t : sound id x -> has_event "buyer_confirmed" x || has_event "buyer_silent_default" x = true \/ ~ physical x ->
  sound id (set_verified t x).
Proof.
  intros [H1 H2 H3 H4] Hv. split; [|done..]. intros Hph. destruct Hv as [Hv|Hv]; [|done].
  destruct (H1 Hph) as (p & Hl & _ & Hd). exists p. split; [done|]. split; [|done].
  apply orb_true_iff in Hv. rewrite !has_event_logged in Hv. destruct (yes_accepted _ _ _ Hl Hv) as (a & ->). cbn. set_solver.
Qed.
Lemma sound_auto id x t : sound id x -> sound id (append_event "auto_verified_digital" None t x).
Proof. intros H. eapply (sound_neutral id x); try done; [by apply more_same|]. intros Hk. by no_kind Hk. Qed.
Lemma sound_advanced id x t : sound id x -> sound id (advanced t x).
Proof.
  intros H. unfold advanced. destruct (_ || _) eqn:Hy; [apply sound_verified; auto|].
  assert (is_digital (dv_mode (terms x)) = true \/ is_ticket (dv_mode (terms x)) = true -> ~ physical x) as Hn.
  { intros Hm Hp%physical_kinds. destruct Hp, Hm; congruence. }
  destruct (is_digital _ && _) eqn:Ed; [destruct (receipt_ok x && _)|destruct (is_ticket _ && _) eqn:Et; [destruct (bool_decide _)|]]; try done.
  - apply andb_true_iff in Ed as [Ed _]. destruct (has_event "auto_verified_digital" x).
    + apply sound_verified; [done|right; auto].
    + apply sound_verified; [by apply sound_auto|right]. by apply Hn; left.
  - apply andb_true_iff in Et as [Et _]. apply sound_verified; auto.
Qed.
(** A session that is not a parcel's may be set to any status. *)
Lemma sound_digital id x y e : ~ physical x -> terms y = terms x -> events y = (events x ++ [e])%list -> challenges y = challenges x ->
  more_proofs x y -> ev_kind e <> "buyer_confirmed" -> sound id x -> sound id y.
Proof. intros Hn Et Ee Ec Hp Hk. by apply (sound_event _ _ _ e). Qed.

Lemma sound_ref id st k p y : sound id (set_status st y) -> sound id (set_status st (set_proof k p y)).
Proof. intros H. eapply sound_frame; [..|exact H]; try done. apply (more_set_proof k p y). Qed.
Lemma kept_ship id actor h : kept (seller_ship id actor h).
Proof.
  unfold seller_ship. along. apply bool_decide_eq_true in H0 as ->.
  destruct (is_physical (dv_mode (terms x))) eqn:Ep; cbn [negb orb] in *.
  - assert (forall t, sound id (set_status AWAITING_LOGISTICS_INTAKE (append_event "seller_shipped" (Some (dv_seller (terms x))) t x))) as Hs.
    { intros t. apply sound_ship; try done. by apply mem_true. }
    destruct (truthy_str h); [|apply Hs]. apply sound_ref, Hs.
  - assert (~ physical x) by (unfold physical; congruence). repeat case_match; by eapply (sound_digital id x); [..|apply more_same| |].
Qed.
Lemma kept_intake id actor ok : kept (logistics_intake cat id actor ok).
Proof.
  unfold logistics_intake, is_carrier. along. repeat match goal with H : bool_decide _ = true |- _ => apply bool_decide_eq_true in H end.
  destruct ok; [by apply sound_intake|by apply sound_wrong].
Qed.
Lemma kept_receipt id ok : kept (mark_execution_receipt id ok).
Proof.
  unfold mark_execution_receipt. along. destruct ok.
  - eapply (sound_neutral id x); try done; [by apply more_same|]. intros Hk. by no_kind Hk.
  - by apply (sound_frame id x); [..|apply more_same|].
Qed.
Lemma kept_cover id keys : kept (cover_proof_fields_from_if get_if_scene id keys).
Proof.
  unfold cover_proof_fields_from_if. along. destruct (bool_decide _); [destruct (has_event _ _)|].
  - by apply (sound_frame id x); [..|apply more_same|].
  - eapply (sound_neutral id x); try done; [by apply more_same|]. intros Hk. by no_kind Hk.
  - by apply (sound_frame id x); [..|apply more_same|].
Qed.
Lemma kept_judge id x : sound id x -> kept (judge id x).
Proof.
  intros H. unfold judge. destruct (_ && _); [apply keeps_ret|]. destruct (negb _); [along|]. apply keeps_bind; [apply keeps_get|intros s].
  along. by apply sound_advanced.
Qed.
Lemma kept_try id : kept (try_verify get_if_scene id).
Proof.
  unfold try_verify. apply kept_found. intros x Hx. destruct (mem _ _); [apply keeps_ret|].
  destruct (is_digital _ && _).
  - apply keeps_assoc, keeps_bind; [apply kept_cover|intros _]. apply kept_found, kept_judge.
  - by apply kept_judge.
Qed.
Lemma kept_confirm id actor ok : (ok = true -> yes id actor) -> kept (buyer_confirm get_if_scene id actor ok).
Proof.
  intros Hyes. unfold buyer_confirm. apply kept_found. intros x Hx. apply kept_need. intros Ha%bool_decide_eq_true. subst actor.
  destruct (mem _ _); [apply keeps_ret|].
  assert (forall k : MD dv_session, ((physical x -> chain_gap x = None) -> kept k) -> kept
    (match chain_gap x with Some reason => need (negb (is_physical (dv_mode (terms x)))) ("cannot buyer-confirm: " ++ reason) | None => py_ret tt end ;;; k)) as Hgap.
  { intros k Hk. destruct (chain_gap x) as [reason|] eqn:E; [|by apply Hk]. apply kept_need. intros Hn%negb_true_iff. apply Hk. by apply not_physical. }
  apply Hgap. intros Hg. apply keeps_bind; [apply keeps_get|intros s]. destruct ok.
  - apply keeps_bind; [apply kept_save, sound_confirm; auto|intros _]. apply keeps_bind; [apply kept_try|intros r]. apply keeps_ret.
  - apply kept_save, sound_reject; auto.
Qed.
Lemma kept_silence id : kept (apply_silent_buyer_default get_if_scene id).
Proof.
  unfold apply_silent_buyer_default. apply kept_found. intros x Hx. apply keeps_bind; [apply keeps_get|intros s].
  destruct (_ || _) eqn:Hc; [apply keeps_ret|]. apply orb_false_iff in Hc as [[[_ Hr]%orb_false_iff Hs]%orb_false_iff Hd].
  destruct (dv_silent (terms x)) as [silent|] eqn:Es; [|done]. apply negb_false_iff, Z.ltb_lt in Hs.
  destruct (silent_deadline x) as [d|] eqn:Ed; [|done].
  destruct (chain_gap x) as [reason|] eqn:Eg; [along|]. apply keeps_bind; [|intros _; along; apply kept_try].
  apply kept_save. by apply (sound_silence id x (now s) d silent).
Qed.
Lemma kept_expire_each limit applied todo : kept (expire_each get_if_scene limit applied todo).
Proof.
  revert applied. induction todo as [|id todo IH]; intros applied; cbn [expire_each]; [apply keeps_ret|].
  destruct (_ <=? _)%nat; [apply keeps_ret|]. intros s Hs. pose proof (kept_silence id s Hs) as H. unfold run_state in *.
  destruct (apply_silent_buyer_default _ id s) as [s' [out|[message| |]]]; [by apply IH|by apply IH|done|done].
Qed.
Lemma kept_sweep limit : kept (expire_silent_buyers get_if_scene limit).
Proof. unfold expire_silent_buyers. along. apply kept_expire_each. Qed.
Lemma kept_require task sc allow : kept (require_verified_for_settle cat get_if_scene task sc allow).
Proof. unfold require_verified_for_settle. along; [apply kept_sweep|apply kept_try]. Qed.

(** ** Outcomes *)

(** The store after a session is written. *)
Definition written (id : string) (x : dv_session) (s : deliveries) : deliveries :=
  set_file (Some (dict_set id x (live s))) (set_live (dict_set id x (live s)) s).
Lemma save_ret id x s s' y : save id x s = (s', Ret y) -> y = x /\ s' = written id x s.
Proof. unfold save, put, persist, py_bind. cbn. destruct (disk s); cbn; [|done..]. by intros [= <- <-]. Qed.
Lemma found_ret id s s' x : get_session id s = (s', Ret x) -> s' = memory s /\ dict_get id (live (memory s)) = Some x.
Proof. unfold get_session, lookup_or, ensure_loaded, py_bind. cbn. destruct (dict_get id _) as [y|]; [|done]. by intros [= <- <-]. Qed.
Lemma found_present id s x : dict_get id (live (memory s)) = Some x -> get_session id s = (memory s, Ret x).
Proof. intros H. unfold get_session, lookup_or, ensure_loaded, py_bind. cbn. by rewrite H. Qed.
Lemma memory_loaded (s : deliveries) : loaded s = true -> memory s = s.
Proof. unfold memory. by intros ->. Qed.
Lemma written_present id x s : loaded s = true -> get_session id (written id x s) = (written id x s, Ret x).
Proof. intros H. rewrite (found_present _ _ x); [by rewrite memory_loaded|]. rewrite memory_loaded by done. apply put_get_same. Qed.
Lemma need_ret {B} b e (k : unit -> MD B) s s' r : py_bind (py_require b e) k s = (s', Ret r) -> b = true /\ k tt s = (s', Ret r).
Proof. by destruct b. Qed.

(** What a tagged photo was checked against. *)
Definition tag_checked (id : string) (x : dv_session) (role : string) (tag : photo_tag) (at_ : datetime) : Prop :=
  exists key nonce captured_at c, tag_key = Some key /\ pt_nonce tag = Some nonce /\ pt_captured_at tag = Some captured_at
    /\ pt_hmac tag = Some (hmac_hex key (tag_material id x role nonce captured_at (geo_text (pt_geo tag))))
    /\ c ∈ map snd (challenges x) /\ ch_nonce c = nonce /\ ch_role c = role /\ (at_ <= ch_expires c)%Z.
Lemma verify_tag_ret id x role nonce captured_at geo tag s s' : verify_tag tag_key id x role nonce captured_at geo tag s = (s', Ret tt) ->
  s' = s /\ tag_checked id x role (PhotoTag (Some nonce) (Some captured_at) geo (Some tag)) (now s).
Proof.
  unfold verify_tag, master_key. destruct tag_key as [key|] eqn:Ek; [|done]. intros H. unfold py_bind at 1 in H. cbn [py_ret] in H.
  apply need_ret in H as [_ H]. apply need_ret in H as [Hm H]. apply bool_decide_eq_true in Hm.
  destruct (challenge_for role nonce x) as [c|] eqn:Ec; [|done]. unfold py_bind in H. cbn in H.
  destruct (now s <=? ch_expires c)%Z eqn:Et; [|done]. injection H as <-. split; [done|].
  unfold challenge_for in Ec. destruct (List.find _ _) as [[cid c']|] eqn:Ef in Ec; [|done]. injection Ec as <-.
  apply find_some in Ef as [Hin Hc]. apply andb_true_iff in Hc as [Hn%bool_decide_eq_true Hr%bool_decide_eq_true].
  exists key, nonce, captured_at, c'. subst tag. split_and!; try done; [|by apply Z.leb_le].
  apply list_elem_of_fmap. exists (cid, c'). split; [done|by apply list_elem_of_In].
Qed.
Lemma truthy_some o : truthy_str o = true -> o = Some (default "" o).
Proof. by destruct o. Qed.
Lemma submit_ret id a s s' y : submit_proof tag_key id a s = (s', Ret y) ->
  exists x p, dict_get id (live (memory s)) = Some x
    /\ y = append_event ("proof:" ++ py_strip (pa_type a)) (Some (pa_actor a)) (now s) (set_proof (py_strip (pa_type a)) p x)
    /\ s' = written id y (memory s)
    /\ (is_tagged (py_strip (pa_type a)) = true -> tag_checked id x (py_strip (py_lower (pa_role a))) (pa_tag a) (now s)).
Proof.
  intros (x & s1 & [-> Hx]%found_ret & H)%bind_ret. destruct (memory_facts s) as (_ & _ & Hn & _).
  apply need_ret in H as [_ H]. apply need_ret in H as [_ H]. apply bind_ret in H as ([] & s2 & Ht & H).
  apply bind_ret in H as (s3 & s4 & [= <- <-] & H).
  assert (s2 = memory s /\ (is_tagged (py_strip (pa_type a)) = true -> tag_checked id x (py_strip (py_lower (pa_role a))) (pa_tag a) (now s))) as [-> Hc].
  { destruct (is_tagged _); [|by injection Ht as <-]. apply need_ret in Ht as [Hp Ht].
    apply andb_true_iff in Hp as [[H1%truthy_some H2%truthy_some]%andb_true_iff H3%truthy_some].
    apply verify_tag_ret in Ht as [-> Hc]. rewrite Hn, <- H1, <- H2, <- H3 in Hc. split; [done|]. intros _. by destruct (pa_tag a). }
  apply save_ret in H as [-> ->]. rewrite Hn. eexists x, _. by split_and!.
Qed.

Lemma kept_deliver id actor ptype h tag : kept (logistics_deliver tag_key id actor ptype h tag).
Proof.
  intros s0 Hs0. pose proof (memory_kept _ Hs0) as Hs. unfold logistics_deliver, run_state.
  destruct (dict_get id (live (memory s0))) as [x|] eqn:Hx.
  2:{ unfold get_session, lookup_or, ensure_loaded, py_bind. cbn. by rewrite Hx. }
  rewrite (bind_value _ _ _ _ _ (found_present _ _ _ Hx)). destruct (memory_facts s0) as (Hl & _). revert Hs Hx Hl. generalize (memory s0) as s. clear Hs0 s0.
  intros s Hs Hx Hl. assert (sound id x) as Sx by (by apply Hs; apply get_in).
  destruct (is_physical _) eqn:Hp; [|done]. destruct (is_carrier actor x) eqn:Ha; [|done]. apply bool_decide_eq_true in Ha.
  destruct (mem _ _) eqn:Hst; [|done]. destruct (has_event "logistics_intake_ok" x); [|done]. apply mem_true in Hst.
  change (everywhere sound n (run_state (submit_proof tag_key id (ProofArgs ptype h actor "logistics" tag) ;;;
    let! x := get_session id in
    let! s := py_get in
    let x := set_status AWAITING_BUYER_RECEIPT (append_event "logistics_delivered" (Some actor) (now s) x) in
    let silent := default DEFAULT_SILENCE (dv_silent (terms x)) in
    save id (if (0 <? silent)%Z then set_deadline (after_seconds silent (now s)) x else x)) s)).
  pose proof (kept_submit id (ProofArgs ptype h actor "logistics" tag) s Hs) as Hk. unfold run_state in *.
  destruct (submit_proof _ _ _ s) as [s1 [y|e]] eqn:E; [|unfold py_bind; by rewrite E].
  rewrite (bind_value _ _ _ _ _ E). cbn [fst] in Hk. apply submit_ret in E as (x' & p & Hx' & Hy & Hs1 & _). rewrite memory_loaded in * by done.
  assert (x' = x) as -> by congruence. subst s1. rewrite (bind_value _ _ _ _ _ (written_present id y s Hl)).
  unfold py_bind at 1. cbn [py_get]. apply kept_save; [|done]. rewrite Hy. apply sound_deliver; try done. by apply sound_proof.
Qed.
Lemma sound_new id t : sound id (new_dv_session t).
Proof.
  split; try done.
  - intros Hp. exists AtSeller. split; [apply log_start|]. split; [|done]. unfold physical in Hp. cbn in *. unfold first_status. rewrite Hp. by left.
  - by intros _ [?%logged_nil|?%logged_nil].
  - by intros ?%logged_nil.
  - by intros c ?%not_elem_of_nil.
Qed.
Lemma kept_open a : kept (create_verification_session cat token_hex get_capture_public a).
Proof.
  assert (forall pol, kept (open_session token_hex a pol)) as Ho by (intros pol; unfold open_session; along; apply sound_new).
  unfold create_verification_session, check_capture. along; apply Ho.
Qed.

(** The challenge a request issues. *)
Definition challenge_of (role geo : string) (s : deliveries) (c : challenge) : Prop :=
  ch_role c = role /\ ch_nonce c = token_hex 16 (drawn s) /\ ch_geo c = geo /\ ch_captured_at c = iso_z (now s)
  /\ ch_expires c = after_seconds CHALLENGE_SECONDS (now s).
Lemma sound_challenge id x cid c : sound id x -> issued id c -> sound id (set_challenge cid c x).
Proof.
  intros [H1 H2 H3 H4] Hc. split; try done. cbn. intros c' (p & -> & [->|Hp]%put_in)%list_elem_of_fmap; [done|].
  apply H4, list_elem_of_fmap. by exists p.
Qed.
Lemma kept_issue id role geo s : everywhere sound n s ->
  (forall c, challenge_of (py_strip (py_lower role)) (geo_text geo) s c -> issued id c) ->
  everywhere sound n (run_state (issue_capture_challenge token_hex tag_key id role geo) s).
Proof.
  intros Hs Hnew. pose proof (memory_kept _ Hs) as Hm. destruct (memory_facts s) as (_ & _ & Hn & Hd & _).
  unfold issue_capture_challenge, run_state. destruct (str_mem _ _); [|done]. unfold py_bind at 1. cbn [need py_require py_ret].
  destruct (dict_get id (live (memory s))) as [x|] eqn:Hx.
  2:{ unfold get_session, lookup_or, ensure_loaded, py_bind. cbn. by rewrite Hx. }
  rewrite (bind_value _ _ _ _ _ (found_present _ _ _ Hx)). unfold py_bind at 1. cbn [py_get].
  match goal with |- everywhere _ _ (fst (?m ?w)) => enough (kept m) as Hk by exact (Hk w Hm) end. rewrite Hn, Hd.
  unfold master_key. along. apply sound_challenge; [apply Hm; by apply get_in|]. by apply Hnew.
Qed.
End Kept.
End Sound.

(** ** Runs *)

Lemma sound_mono (yes yes' : string -> string -> Prop) (issued issued' : string -> challenge -> Prop) id x :
  (forall b, yes id b -> yes' id b) -> (forall c, issued id c -> issued' id c) -> sound yes issued id x -> sound yes' issued' id x.
Proof. intros Hy Hi [H1 H2 H3 H4]. split; auto. Qed.

Section Runs.
Context (cat : delivery_catalog) (token_hex : nat -> nat -> string) (tag_key : option bytes)
  (get_capture_public : string -> (string * option string) + string) (get_if_scene : string -> option (list string)).
Abbreviation step := (deliver_op cat token_hex tag_key get_capture_public get_if_scene).
Abbreviation run := (deliver_all cat token_hex tag_key get_capture_public get_if_scene).
Abbreviation start := (empty_store (V := dv_session)).

Lemma request_sound yes issued n o s : everywhere (sound yes issued) n s ->
  (forall id actor, o = BuyerConfirm id actor true -> yes id actor) ->
  (forall id role geo c, o = IssueChallenge id role geo -> challenge_of token_hex (py_strip (py_lower role)) (geo_text geo) s c -> issued id c) ->
  everywhere (sound yes issued) n (run_state (step o) s).
Proof.
  intros Hs Hyes Hnew. assert (forall (A : Type) (m : MD A), keeps (everywhere (sound yes issued) n) m ->
    everywhere (sound yes issued) n (run_state (quietly m) s)) as Hq by (intros A m Hm; by apply kept_quietly).
  destruct o; cbn [deliver_op]; [apply Hq|apply Hq|apply Hq| |apply Hq..| | | |].
  4:{ assert (forall m : MD (string * challenge), run_state (quietly m) s = run_state m s) as ->
        by (intros m; unfold run_state, quietly, py_bind; by destruct (m s) as [? []]).
      apply kept_issue; [done|]. intros c. by apply Hnew. }
  - by apply kept_open.
  - by apply kept_get_session.
  - by apply kept_for_task.
  - by apply kept_submit.
  - by apply kept_ship.
  - by apply kept_intake.
  - by apply kept_deliver.
  - by apply kept_receipt.
  - by apply kept_cover.
  - by apply kept_try.
  - apply kept_confirm; [done..|]. intros ->. by apply Hyes.
  - by apply kept_silence.
  - by apply kept_sweep.
  - by apply kept_require.
  - by apply kept_clear.
  - by apply kept_restart.
  - by by_store kept_disk.
  - by by_store kept_pass.
Qed.

Definition yes_in (ops : list delivery_op) (id buyer : string) : Prop := BuyerConfirm id buyer true ∈ ops.
Definition issued_in (t : datetime) (ops : list delivery_op) (id : string) (c : challenge) : Prop :=
  exists ops1 role geo ops2, ops = (ops1 ++ IssueChallenge id role geo :: ops2)%list
    /\ challenge_of token_hex (py_strip (py_lower role)) (geo_text geo) (run ops1 (start t)) c.
Lemma deliver_snoc ops o s : run (ops ++ [o]) s = run_state (step o) (run ops s).
Proof. apply fold_left_app. Qed.
Lemma run_sessions_sound t ops : everywhere (sound (yes_in ops) (issued_in t ops)) 0 (run ops (start t)).
Proof.
  induction ops as [|o ops IH] using rev_ind; [apply empty_everywhere|]. rewrite deliver_snoc. apply request_sound.
  - eapply everywhere_mono; [|exact IH]. intros id x. apply sound_mono.
    + intros b H. apply elem_of_app. by left.
    + intros c (ops1 & role & geo & ops2 & -> & H). exists ops1, role, geo, (ops2 ++ [o])%list. split; [by rewrite <- app_assoc|done].
  - intros id actor ->. apply elem_of_app. right. by left.
  - intros id role geo c -> H. by exists ops, role, geo, [].
Qed.

(** ** What a settlement and a tagged photo rest on *)

Lemma advanced_terms t x : terms (advanced t x) = terms x.
Proof. unfold advanced. by repeat case_match. Qed.
Lemma judge_ret id x s s' r : dict_get id (live s) = Some x -> judge id x s = (s', Ret r) ->
  dict_get id (live s') = Some r.1 /\ terms r.1 = terms x.
Proof.
  intros Hx. unfold judge. destruct (_ && _); [by intros [= <- <-]|]. destruct (negb _).
  - intros (y & s1 & [-> ->]%save_ret & [= <- <-])%bind_ret. split; [apply put_get_same|done].
  - intros (w & s1 & [= <- <-] & (y & s2 & [-> ->]%save_ret & [= <- <-])%bind_ret)%bind_ret.
    split; [apply put_get_same|apply advanced_terms].
Qed.
Lemma cover_ret id keys s s' y : cover_proof_fields_from_if get_if_scene id keys s = (s', Ret y) ->
  exists x, dict_get id (live (memory s)) = Some x /\ s' = written id y (memory s) /\ terms y = terms x.
Proof.
  intros (x & s1 & [-> Hx]%found_ret & (w & s2 & [= <- <-] & [-> ->]%save_ret)%bind_ret)%bind_ret. exists x. split; [done|]. split; [done|].
  by repeat case_match.
Qed.
Lemma try_ret id s s' r : try_verify get_if_scene id s = (s', Ret r) ->
  exists x, dict_get id (live (memory s)) = Some x /\ dict_get id (live s') = Some r.1 /\ terms r.1 = terms x.
Proof.
  intros (x & s1 & [-> Hx]%found_ret & H)%bind_ret. exists x. split; [done|]. destruct (mem _ _); [by injection H as <- <-|].
  apply bind_ret in H as (y & s2 & Hy & H). destruct (_ && _).
  - apply bind_ret in Hy as (u & s3 & (x' & Hx' & -> & Ht)%cover_ret & [-> Hg]%found_ret).
    destruct (memory_facts s) as (Hl & _). rewrite (memory_loaded (memory s) Hl) in *. rewrite (memory_loaded (written id u (memory s))) in Hg, H by done.
    rewrite Hx in Hx'. injection Hx' as <-. pose proof Hg as Hu. unfold written in Hu. cbn [set_file set_live live] in Hu.
    rewrite put_get_same in Hu. injection Hu as <-. destruct (judge_ret _ _ _ _ _ Hg H) as [? ->]. done.
  - injection Hy as <- <-. by apply (judge_ret id x (memory s)).
Qed.
Lemma task_found task d id x : session_of_task task d = Some (id, x) -> (id, x) ∈ d /\ dv_task (terms x) = task.
Proof. intros [Hin Ht]%find_some. split; [by apply list_elem_of_In|by apply bool_decide_eq_true in Ht]. Qed.

(** C13. The log of a parcel is a history of the abstract machine, and its status is one
    that the machine allows where it stands: in memory and in the file, after any
    requests by anybody, restarts and failed writes.  The seller hands it to the carrier,
    the carrier checks it and hands it over, the buyer answers or is silent for as long
    as the scene says. *)
Theorem parcel_follows_log t ops id x (s := run ops (start t)) :
  (id, x) ∈ live s \/ (exists d, file s = Some d /\ (id, x) ∈ d) -> physical x ->
  exists p, parcel_log (terms x) (events x) p /\ status x ∈ stands p.
Proof.
  intros Hin Hp. pose proof (run_sessions_sound t ops) as Hs. fold s in Hs.
  assert (sound (yes_in ops) (issued_in t ops) id x) as Hx by (destruct Hin as [H|(d & Hf & H)]; [by apply Hs|by eapply in_file]).
  destruct (on_its_way _ _ _ _ Hx Hp) as (p & Hl & Hst & _). by exists p.
Qed.

(** C14. A settlement passes only for a session of its task that is verified, or for a
    digital scene of which there is no session and for which none is asked.  A parcel
    that is verified was handed on by its seller, then taken and delivered by its
    carrier, with a photo of the delivery, and then accepted by its buyer, whose request
    it was, or by a silence as long as the scene asks for, which never counts for scenes
    of high risk. *)
Theorem settled_parcel_accepted t ops task scene_id allow s' r :
  require_verified_for_settle cat get_if_scene task scene_id allow (run ops (start t)) = (s', Ret r) ->
  match r with
  | None => allow = true /\ is_digital (pol_mode (scene_policy cat (text_or "api_tool_call" scene_id))) = true
            /\ session_of_task task (live s') = None
  | Some (id, x) =>
      (id, x) ∈ live s' /\ status x = VERIFIED /\ dv_task (terms x) = task
      /\ (physical x -> has_proof POD_PHOTOS x = true /\ exists handed, accepted_log (terms x) handed (events x))
      /\ (logged "buyer_confirmed" (events x) -> BuyerConfirm id (dv_buyer (terms x)) true ∈ ops)
  end.
Proof.
  intros H. pose proof (run_sessions_sound t ops) as Hs.
  assert (everywhere (sound (yes_in ops) (issued_in t ops)) 0 s') as Hs'.
  { assert (keeps (E := dv_error) (everywhere (sound (yes_in ops) (issued_in t ops)) 0)
      (require_verified_for_settle cat get_if_scene task scene_id allow)) as Hk by by apply kept_require.
    specialize (Hk _ Hs). unfold run_state in Hk. by rewrite H in Hk. }
  assert (forall id x, (id, x) ∈ live s' -> status x = VERIFIED -> (physical x -> has_proof POD_PHOTOS x = true /\ exists handed, accepted_log (terms x) handed (events x))
      /\ (logged "buyer_confirmed" (events x) -> BuyerConfirm id (dv_buyer (terms x)) true ∈ ops)) as Hgo.
  { intros id x Hin Hv. pose proof (in_memory _ _ _ Hs' _ _ Hin) as [H1 H2 H3 _]. split; [|exact H3]. intros Hp.
    destruct (H1 Hp) as (p & Hl & Hst & _). rewrite Hv in Hst. pose proof (parcel_told _ _ _ Hl) as Ht.
    destruct p as [| | | |a []]; try by no_kind Hst. cbn in Ht. destruct Ht as [_ Ha]. specialize (Ha eq_refl).
    split; [|by exists a]. apply H2; [done|]. destruct Ha as (e & l1 & l2 & El & [Hk|[Hk _]] & _); [left|right]; exists e; split; try done;
      rewrite El; apply elem_of_app; right; by left. }
  apply bind_ret in H as (swept & s1 & Hsw & H). apply bind_ret in H as (found & s2 & Hf & H).
  unfold get_verification_for_task, ensure_loaded, py_bind in Hf. cbn in Hf. injection Hf as <- <-.
  destruct (session_of_task task (live (memory s1))) as [[id x]|] eqn:Et.
  - apply task_found in Et as [Hin Ht]. case_bool_decide as Hv.
    + injection H as <- <-. split; [done|]. split; [done|]. split; [done|]. by apply Hgo.
    + apply bind_ret in H as (r' & s3 & (y & Hy & Hr & Htm)%try_ret & H). apply need_ret in H as [Hv' H]. injection H as <- <-.
      apply bool_decide_eq_true in Hv'. pose proof (get_in _ _ _ Hr) as Hin'. split; [done|]. split; [done|].
      destruct (memory_facts s1) as (Hl & _). rewrite memory_loaded in Hy by done.
      assert (y = x) as ->.
      { assert (keeps (E := dv_error) (everywhere (sound (yes_in ops) (issued_in t ops)) 0) (expire_silent_buyers get_if_scene SETTLE_SWEEP)) as Hk
          by by apply kept_sweep.
        specialize (Hk _ Hs). unfold run_state in Hk. rewrite Hsw in Hk. cbn [fst] in Hk.
        apply memory_kept in Hk. pose proof (in_get _ _ _ (live_once _ _ _ Hk) Hin). congruence. }
      split; [by rewrite Htm|]. by apply Hgo.
  - apply need_ret in H as [Ha H]. injection H as <- <-. by apply andb_true_iff in Ha as [-> ->].
Qed.

(** C15. A tagged photo is taken only as the answer to a challenge that was asked for on
    the same session and for the same role, whose nonce it names, not more than a quarter
    of an hour before, and with the tag that the key of the service gives for it. *)
Theorem tagged_photo_challenged t ops id a s' y (s := run ops (start t)) :
  submit_proof tag_key id a s = (s', Ret y) -> is_tagged (py_strip (pa_type a)) = true ->
  exists ops1 role geo ops2, ops = (ops1 ++ IssueChallenge id role geo :: ops2)%list
    /\ let s1 := run ops1 (start t) in
       py_strip (py_lower role) = py_strip (py_lower (pa_role a))
       /\ pt_nonce (pa_tag a) = Some (token_hex 16 (drawn s1))
       /\ (now s <= after_seconds CHALLENGE_SECONDS (now s1))%Z
       /\ exists x key captured_at, dict_get id (live (memory s)) = Some x /\ tag_key = Some key
          /\ pt_hmac (pa_tag a) = Some (hmac_hex key (tag_material id x (py_strip (py_lower (pa_role a)))
               (token_hex 16 (drawn s1)) captured_at (geo_text (pt_geo (pa_tag a))))).
Proof.
  intros H Ht. apply submit_ret in H as (x & p & Hx & _ & _ & Hc). destruct (Hc Ht) as (key & nonce & cap & c & Hk & Hn & Hca & Hm & Hin & Ec & Er & Hex).
  pose proof (memory_kept _ (run_sessions_sound t ops)) as Hs.
  destruct (all_issued _ _ _ _ (in_memory _ _ _ Hs _ _ (get_in _ _ _ Hx)) c Hin) as (ops1 & role & geo & ops2 & E & F1 & F2 & F3 & F4 & F5).
  exists ops1, role, geo, ops2. split; [done|]. cbv zeta. rewrite <- F2, <- F5, <- F1, Ec. split_and!; try done. by exists x, key, cap.
Qed.

(** ** Requests that are refused *)

(** What memory holds once it is loaded, the file, the disk and the clock. *)
Definition same_store (s s' : deliveries) : Prop :=
  live (memory s') = live (memory s) /\ file s' = file s /\ disk s' = disk s /\ now s' = now s.
Definition touches_nothing {A} (m : MD A) : Prop := forall s, same_store s (run_state m s).
Definition refuses {A} (m : MD A) : Prop := forall s s' message, m s = (s', Raise (DeliveryVerificationError message)) -> same_store s s'.
Definition never_refuses {A} (m : MD A) : Prop := forall s message, run_outcome m s <> Raise (DeliveryVerificationError message).

Lemma same_refl s : same_store s s.
Proof. done. Qed.
Lemma same_trans s s1 s2 : same_store s s1 -> same_store s1 s2 -> same_store s s2.
Proof. intros (A1 & A2 & A3 & A4) (B1 & B2 & B3 & B4). split_and!; congruence. Qed.
Lemma same_memory s : same_store s (memory s).
Proof. destruct (memory_facts s) as (Hl & Hd & Hn & _ & Hf). split; [by rewrite (memory_loaded _ Hl)|done]. Qed.
Lemma refuses_bind {A B} (m : MD A) (k : A -> MD B) : touches_nothing m -> (forall a, refuses (k a)) -> refuses (py_bind m k).
Proof.
  intros Hm Hk s s' message. unfold py_bind. specialize (Hm s). unfold run_state in Hm. destruct (m s) as [s1 [a|e]]; cbn in Hm.
  - intros H. eapply same_trans; [exact Hm|by eapply Hk].
  - by intros [= <- ->].
Qed.
Lemma refuses_quietly {A} (m : MD A) : refuses m -> refuses (quietly m).
Proof. intros H s s' message. unfold quietly, py_bind. destruct (m s) as [s1 [a|e]] eqn:E; [done|]. intros [= <- ->]. by eapply H. Qed.
Lemma refuses_pure {A} (m : MD A) : touches_nothing m -> refuses m.
Proof. intros H s s' message E. specialize (H s). unfold run_state in H. by rewrite E in H. Qed.
Lemma refuses_never {A} (m : MD A) : never_refuses m -> refuses m.
Proof. intros H s s' message E. destruct (H s message). unfold run_outcome. by rewrite E. Qed.
Lemma nothing_bind {A B} (m : MD A) (k : A -> MD B) : touches_nothing m -> (forall a, touches_nothing (k a)) -> touches_nothing (py_bind m k).
Proof.
  intros Hm Hk s. unfold run_state, py_bind. specialize (Hm s). unfold run_state in Hm. destruct (m s) as [s1 [a|e]]; [|done].
  eapply same_trans; [exact Hm|apply Hk].
Qed.
Lemma nothing_ret {A} (a : A) : touches_nothing (py_ret a).
Proof. by intros s. Qed.
Lemma nothing_raise {A} e : touches_nothing (A := A) (py_raise e).
Proof. by intros s. Qed.
Lemma nothing_get : touches_nothing py_get.
Proof. by intros s. Qed.
Lemma nothing_require b e : touches_nothing (py_require b e).
Proof. by destruct b. Qed.
Lemma nothing_draw : touches_nothing (py_modify draw).
Proof. intros s. unfold run_state, same_store, memory. cbn. by destruct (loaded s). Qed.
Lemma nothing_found id : touches_nothing (get_session id).
Proof.
  intros s. unfold run_state, get_session, lookup_or, ensure_loaded, py_bind. cbn.
  destruct (dict_get id _); apply same_memory.
Qed.
Lemma nothing_for_task task : touches_nothing (get_verification_for_task task).
Proof. intros s. apply same_memory. Qed.
Lemma never_save id x : never_refuses (save id x).
Proof. intros s message. unfold run_outcome, save, put, persist, py_bind. cbn. by destruct (disk s). Qed.
Create HintDb refuse.
#[local] Hint Resolve nothing_ret nothing_raise nothing_get nothing_require nothing_draw nothing_found nothing_for_task : refuse.
#[local] Hint Resolve refuses_pure refuses_never never_save : refuse.
Lemma refuses_then {A B} (m : MD A) (k : A -> MD B) : refuses m -> (forall a, never_refuses (k a)) -> refuses (py_bind m k).
Proof.
  intros Hm Hk s s' message. unfold py_bind. destruct (m s) as [s1 [a|e]] eqn:E; [|intros [= <- ->]; by eapply Hm].
  intros H. destruct (Hk a s1 message). unfold run_outcome. by rewrite H.
Qed.
Lemma never_ret {A} (a : A) : never_refuses (py_ret a).
Proof. by intros s message. Qed.
Lemma never_bind {A B} (m : MD A) (k : A -> MD B) : never_refuses m -> (forall a, never_refuses (k a)) -> never_refuses (py_bind m k).
Proof.
  intros Hm Hk s message. unfold run_outcome, py_bind. specialize (Hm s message). unfold run_outcome in Hm.
  destruct (m s) as [s1 [a|e]]; [apply Hk|]. cbn in *. congruence.
Qed.
#[local] Hint Resolve never_ret : refuse.

(** An operation at one state, where the session is found. *)
Definition never_at {A} (s : deliveries) (m : MD A) : Prop := forall message, run_outcome m s <> Raise (DeliveryVerificationError message).
Definition refuses_at {A} (s : deliveries) (m : MD A) : Prop :=
  forall s' message, m s = (s', Raise (DeliveryVerificationError message)) -> same_store s s'.
Lemma never_refuses_at {A} s (m : MD A) : never_at s m -> refuses_at s m.
Proof. intros H s' message E. destruct (H message). unfold run_outcome. by rewrite E. Qed.
Lemma refuses_found {A} id (k : dv_session -> MD A) :
  (forall s x, loaded s = true -> dict_get id (live s) = Some x -> refuses_at s (k x)) -> refuses (py_bind (get_session id) k).
Proof.
  intros Hk s s' message H. destruct (memory_facts s) as (Hl & _). eapply same_trans; [apply same_memory|].
  destruct (dict_get id (live (memory s))) as [x|] eqn:Hx.
  - rewrite (bind_value _ _ _ _ _ (found_present _ _ _ Hx)) in H. by eapply Hk.
  - unfold get_session, lookup_or, ensure_loaded, py_bind in H. cbn in H. rewrite Hx in H. by injection H as <- _.
Qed.
Lemma never_found {A} id x s (k : dv_session -> MD A) : dict_get id (live s) = Some x -> loaded s = true -> never_at s (k x) ->
  never_at s (py_bind (get_session id) k).
Proof.
  intros Hx Hl H message. unfold run_outcome. rewrite <- (memory_loaded s Hl) in Hx. rewrite (bind_value _ _ _ _ _ (found_present _ _ _ Hx)).
  rewrite (memory_loaded s Hl). apply H.
Qed.
Lemma never_saved {A} id x s (k : dv_session -> MD A) : never_at (written id x s) (k x) -> never_at s (py_bind (save id x) k).
Proof.
  intros H message. unfold run_outcome. unfold py_bind at 1. destruct (save id x s) as [s1 [y|e]] eqn:E.
  - apply save_ret in E as [-> ->]. apply H.
  - pose proof (never_save id x s message) as Hn. unfold run_outcome in Hn. rewrite E in Hn. cbn in *. congruence.
Qed.
Lemma need_at {A} s b message (k : unit -> MD A) : (b = true -> refuses_at s (k tt)) -> refuses_at s (py_bind (need b message) k).
Proof. intros H. destruct b; [by apply H|]. by intros s' m [= <- _]. Qed.

Lemma never_judge id x : never_refuses (judge id x).
Proof.
  unfold judge. destruct (_ && _); [auto with refuse|]. destruct (negb _).
  - apply never_bind; auto with refuse.
  - intros s. apply (never_bind (save id (advanced (now s) x))); auto with refuse.
Qed.
Lemma never_try id x s : dict_get id (live s) = Some x -> loaded s = true -> never_at s (try_verify get_if_scene id).
Proof.
  intros Hx Hl. apply (never_found id x); [done..|]. destruct (mem _ _); [done|]. destruct (_ && _); [|exact (never_judge id x s)].
  intros message. unfold run_outcome. rewrite <- (memory_loaded s Hl) in Hx. unfold py_bind at 1 2.
  destruct (cover_proof_fields_from_if get_if_scene id [] s) as [s1 [y|e]] eqn:E.
  - apply cover_ret in E as (x' & _ & -> & _). rewrite (memory_loaded s Hl), (written_present id y s Hl). exact (never_judge id y _ message).
  - intros [= ->]. unfold cover_proof_fields_from_if in E. rewrite (bind_value _ _ _ _ _ (found_present _ _ _ Hx)) in E.
    rewrite (memory_loaded s Hl) in E. unfold py_bind at 1 in E. cbn [py_get] in E.
    match type of E with save id ?z s = _ => pose proof (never_save id z s message) as Hn; unfold run_outcome in Hn; by rewrite E in Hn end.
Qed.
Lemma try_saved {A} id x s (k : dv_session * list string -> MD A) : loaded s = true -> (forall r, never_refuses (k r)) ->
  never_at s (save id x ;;; let! r := try_verify get_if_scene id in k r).
Proof.
  intros Hl Hk. apply never_saved. intros message. unfold run_outcome, py_bind.
  pose proof (never_try id x (written id x s) (put_get_same _ _ _) Hl message) as Hn. unfold run_outcome in Hn.
  destruct (try_verify _ id _) as [s1 [r|e]]; [apply Hk|]. cbn in *. congruence.
Qed.
Lemma never_save_at id x s : never_at s (save id x).
Proof. exact (never_save id x s). Qed.
Lemma refuses_get {A} s (k : deliveries -> MD A) : refuses_at s (k s) -> refuses_at s (py_bind py_get k).
Proof. done. Qed.

Lemma refuses_ship id actor h : refuses (seller_ship id actor h).
Proof. apply refuses_found. intros s x _ _. do 2 (apply need_at; intros _). apply refuses_get, never_refuses_at, never_save_at. Qed.
Lemma refuses_intake id actor ok : refuses (logistics_intake cat id actor ok).
Proof. apply refuses_found. intros s x _ _. do 3 (apply need_at; intros _). apply refuses_get, never_refuses_at, never_save_at. Qed.
Lemma refuses_receipt id ok : refuses (mark_execution_receipt id ok).
Proof. apply refuses_found. intros s x _ _. apply refuses_get, never_refuses_at, never_save_at. Qed.
Lemma refuses_cover id keys : refuses (cover_proof_fields_from_if get_if_scene id keys).
Proof. apply refuses_found. intros s x _ _. apply refuses_get, never_refuses_at, never_save_at. Qed.
Lemma refuses_try id : refuses (try_verify get_if_scene id).
Proof.
  apply refuses_found. intros s x Hl Hx. apply never_refuses_at. intros message. pose proof (never_try id x s Hx Hl message) as Hn.
  unfold run_outcome, try_verify in Hn. rewrite <- (memory_loaded s Hl) in Hx.
  rewrite (bind_value _ _ _ _ _ (found_present _ _ _ Hx)), (memory_loaded s Hl) in Hn. exact Hn.
Qed.
Lemma nothing_verify_tag id x role nonce captured_at geo tag : touches_nothing (verify_tag tag_key id x role nonce captured_at geo tag).
Proof.
  unfold verify_tag, master_key, need, reject. apply nothing_bind; [destruct tag_key; auto with refuse|intros key].
  do 2 (apply nothing_bind; [auto with refuse|intros _]). destruct (challenge_for _ _ _); [|auto with refuse].
  apply nothing_bind; auto with refuse.
Qed.
Lemma refuses_submit id a : refuses (submit_proof tag_key id a).
Proof.
  unfold submit_proof, need. apply refuses_bind; [auto with refuse|intros x]. do 2 (apply refuses_bind; [auto with refuse|intros _]).
  apply refuses_bind; [|intros _; apply refuses_bind; auto with refuse].
  destruct (is_tagged _); [|apply nothing_ret]. apply nothing_bind; [auto with refuse|intros _]. apply nothing_verify_tag.
Qed.
Lemma refuses_deliver id actor ptype h tag : refuses (logistics_deliver tag_key id actor ptype h tag).
Proof.
  apply refuses_found. intros s x Hl Hx. do 4 (apply need_at; intros _). intros s' message. unfold py_bind at 1.
  destruct (submit_proof _ _ _ s) as [s1 [y|e]] eqn:E; [|intros [= <- ->]; by eapply refuses_submit].
  apply submit_ret in E as (x' & p & _ & _ & -> & _). rewrite (memory_loaded s Hl), (bind_value _ _ _ _ _ (written_present id y s Hl)).
  intros H. exfalso. revert H. unfold py_bind at 1. cbn [py_get]. intros H.
  match type of H with save id ?z ?w = _ => apply (never_save_at id z w message); unfold run_outcome; by rewrite H end.
Qed.
Lemma refuses_confirm id actor ok : refuses (buyer_confirm get_if_scene id actor ok).
Proof.
  apply refuses_found. intros s x Hl _. apply need_at. intros _. destruct (mem _ _); [by intros ? ?|].
  assert (forall k : MD dv_session, refuses_at s k -> refuses_at s
    (match chain_gap x with Some reason => need (negb (is_physical (dv_mode (terms x)))) ("cannot buyer-confirm: " ++ reason) | None => py_ret tt end ;;; k)) as Hg.
  { intros k Hk. destruct (chain_gap x); [|done]. by apply need_at. }
  apply Hg, refuses_get, never_refuses_at. destruct ok; [|apply never_save_at]. apply try_saved; auto with refuse.
Qed.
Lemma refuses_silence id : refuses (apply_silent_buyer_default get_if_scene id).
Proof.
  apply refuses_found. intros s x Hl _. apply refuses_get. destruct (_ || _); [by intros ? ?|]. apply never_refuses_at. destruct (chain_gap x).
  - apply never_saved. by intros ?.
  - apply try_saved; auto with refuse.
Qed.
Lemma never_expire limit : never_refuses (expire_silent_buyers get_if_scene limit).
Proof.
  assert (forall todo applied, never_refuses (expire_each get_if_scene limit applied todo)) as He.
  { induction todo as [|id todo IH]; intros applied; cbn [expire_each]; [apply never_ret|]. destruct (_ <=? _)%nat; [apply never_ret|].
    intros s message. unfold run_outcome. destruct (apply_silent_buyer_default _ id s) as [s1 [out|[m| |]]]; try done; apply IH. }
  intros s. apply He.
Qed.
Lemma refuses_issue id role geo : refuses (issue_capture_challenge token_hex tag_key id role geo).
Proof.
  unfold issue_capture_challenge, need, master_key, reject. apply refuses_bind; [auto with refuse|intros _]. apply refuses_bind; [auto with refuse|intros x].
  apply refuses_bind; [auto with refuse|intros s]. apply refuses_bind; [auto with refuse|intros _].
  apply refuses_bind; [destruct tag_key; auto with refuse|intros key]. apply refuses_bind; [auto with refuse|intros _].
  apply refuses_then; auto with refuse.
Qed.
Lemma refuses_create a : refuses (create_verification_session cat token_hex get_capture_public a).
Proof.
  assert (forall pol, refuses (open_session token_hex a pol)) as Ho.
  { intros pol. unfold open_session. apply refuses_bind; [auto with refuse|intros s]. apply refuses_bind; [auto with refuse|intros _].
    apply refuses_bind; [intros s'; apply same_memory|intros _]. apply refuses_then; auto with refuse. }
  unfold create_verification_session, need, check_capture, reject. do 2 (apply refuses_bind; [auto with refuse|intros _]).
  apply refuses_bind; [|intros _; apply refuses_bind; [auto with refuse|]].
  - destruct (_ && _); [|apply nothing_ret]. cbn [py_when]. destruct (get_capture_public _) as [[st sc]|why]; [|auto with refuse].
    unfold need. apply nothing_bind; auto with refuse.
  - intros [[id x]|]; [|apply Ho]. destruct (negb _); [auto with refuse|apply Ho].
Qed.

(** The settlement gate refuses after a sweep of the silent buyers and, when the task has a
    session, an attempt to verify it; what these do alone is all it leaves. *)
Definition gate_looks (task : string) (s : deliveries) : list delivery_op :=
  ExpireSilent SETTLE_SWEEP ::
    match run_outcome (get_verification_for_task task) (run_state (step (ExpireSilent SETTLE_SWEEP)) s) with
    | Ret (Some (id, _)) => [TryVerify id]
    | _ => []
    end.
Lemma quietly_state {A} (m : MD A) s : run_state (quietly m) s = run_state m s.
Proof. unfold run_state, quietly, py_bind. by destruct (m s) as [? []]. Qed.
Lemma same_sym s s' : same_store s s' -> same_store s' s.
Proof. by intros (H1 & H2 & H3 & H4). Qed.
Lemma try_memory id s : try_verify get_if_scene id (memory s) = try_verify get_if_scene id s.
Proof.
  unfold try_verify, get_session, ensure_loaded, py_bind, py_modify. destruct (memory_facts s) as (Hl & _). by rewrite (memory_loaded _ Hl).
Qed.
Lemma gate_leaves task scene_id allow s s' message :
  require_verified_for_settle cat get_if_scene task scene_id allow s = (s', Raise (DeliveryVerificationError message)) ->
  same_store s' (run (gate_looks task s) s).
Proof.
  intros H. unfold run, gate_looks. cbn [fold_left]. unfold deliver_all. cbn [fold_left]. cbn [deliver_op]. rewrite quietly_state.
  unfold require_verified_for_settle, py_bind at 1 in H.
  pose proof (never_expire SETTLE_SWEEP s message) as Hn. unfold run_outcome in Hn. unfold run_state.
  destruct (expire_silent_buyers get_if_scene SETTLE_SWEEP s) as [s1 [ids|e]] eqn:E1; [|cbn in Hn; by injection H as _ ->].
  cbn [fst]. unfold py_bind at 1 in H. pose proof (nothing_for_task task s1) as Ht. unfold run_state in Ht. unfold run_outcome.
  assert (get_verification_for_task task s1 = (memory s1, Ret (session_of_task task (live (memory s1))))) as E2 by done.
  rewrite E2 in *. cbn [fst snd] in *. destruct (session_of_task task _) as [[id x]|]; cbn [fold_left].
  - destruct (bool_decide _); [done|]. change (same_store s' (run_state (quietly (try_verify get_if_scene id)) s1)). rewrite quietly_state.
    unfold run_state. unfold py_bind in H. rewrite try_memory in H. destruct (try_verify get_if_scene id s1) as [s3 [r|e]]; [|by injection H as <- _].
    unfold need, py_require in H. destruct (bool_decide _); [done|]. by injection H as <- _.
  - unfold need, py_require in H. destruct (_ && _); [done|]. injection H as <- _. apply same_sym, same_memory.
Qed.

(** C16. A request that the module refuses changes nothing: not the sessions, in memory or
    in the file, whoever asks, for whatever reason, and in whatever state of the disk.
    The settlement gate, which acts before it judges, leaves when it refuses just what
    the requests behind its looks leave when they are sent themselves: a sweep of the
    silent buyers and, when the task then has a session, an attempt to verify it. *)
Theorem refusal_changes_nothing o s s' message : step o s = (s', Raise (DeliveryVerificationError message)) ->
  match o with
  | RequireVerified task _ _ => same_store s' (run (gate_looks task s) s)
  | _ => same_store s s'
  end.
Proof.
  destruct o; cbn [deliver_op]; try (refine (refuses_quietly _ _ s s' message)).
  - apply refuses_create.
  - auto with refuse.
  - auto with refuse.
  - apply refuses_issue.
  - apply refuses_submit.
  - apply refuses_ship.
  - apply refuses_intake.
  - apply refuses_deliver.
  - apply refuses_receipt.
  - apply refuses_cover.
  - apply refuses_try.
  - apply refuses_confirm.
  - apply refuses_silence.
  - apply refuses_never, never_expire.
  - intros H. refine (gate_leaves task scene_id allow_missing s s' message _). unfold quietly, py_bind in H.
    destruct (require_verified_for_settle _ _ _ _ _ s) as [s1 [a|e]]; [done|]. by injection H as -> ->.
  - unfold reset_delivery_sessions, clear, py_bind. cbn. by destruct (disk s), (file s).
  - done.
  - done.
  - done.
Qed.
End Runs.

(** ** Witnesses *)

Definition no_fields : scene_fields := SceneFields None None None None None None None.
Definition standard : scene_fields := SceneFields None (Some (Some 1800%Z)) None (Some true) None (Some 5000%Z) (Some 5000%Z).
Definition scenes_known : delivery_catalog :=
  DeliveryCatalog standard
    [("food_delivery", SceneFields (Some "physical_triple") None
        (Some ["seller_shipped"; "logistics_intake_ok"; "logistics_delivered"; "proof:delivery_photo_tagged"]) None None None None);
     ("b2b_procurement", SceneFields (Some "physical_triple") (Some (Some 7200%Z))
        (Some ["seller_shipped"; "logistics_intake_ok"; "logistics_delivered"; "proof:goods_receipt"; "proof:qa_or_quantity"]) None None (Some 4000%Z) (Some 6000%Z));
     ("ride_hailing", SceneFields (Some "ride_track") (Some (Some 900%Z))
        (Some ["seller_trip_completed"; "proof:route_or_odometer"; "proof:fare_final"]) None None None None);
     ("financial_services", SceneFields (Some "digital_light") (Some None)
        (Some ["execution_receipt_success"; "proof_fields_covered"; "buyer_explicit_accept"]) None (Some true) None None)].
Definition marks (bytes n : nat) : string := Nat.iter (S n) (String "a"%char) "".
Definition the_key : option bytes := Some (utf8 "karma").
Definition no_capture (id : string) : (string * option string) + string := inr "unknown capture".
Definition fields_of (scene_id : string) : option (list string) :=
  if str_eqb scene_id "financial_services" then Some ["statement_hash"; "advisor_licence"] else None.
Abbreviation on_ops := (deliver_all scenes_known marks the_key no_capture fields_of).
Abbreviation fresh := (empty_store (V := dv_session) 0%Z).

Definition untagged_ : photo_tag := PhotoTag None None None None.
Definition order (scene_id : string) : delivery_op :=
  CreateDelivery (DvCreate "task-1" scene_id "shop" "ann" (Some "van") None (Some (float_of_ratio 10 1))).
Definition on_the_way (scene_id : string) : list delivery_op :=
  [order scene_id; SellerShip "dv_a" "shop" None; Intake "dv_a" "van" true].
Definition asked_photo : list delivery_op := (on_the_way "food_delivery" ++ [IssueChallenge "dv_a" "Logistics" None; Passes 60000000])%list.
Definition photo_tag_of (nonce : string) : photo_tag :=
  PhotoTag (Some nonce) (Some "1970-01-01T00:00:00Z") None
    (Some (hmac_hex (utf8 "karma") (utf8 (join_bar ["dv_a"; "task-1"; "logistics"; nonce; "1970-01-01T00:00:00Z"; ""])))).
Definition pod : photo_tag := Eval vm_compute in photo_tag_of "aa".
Definition handed_over : list delivery_op :=
  (asked_photo ++ [Deliver "dv_a" "van" "delivery_photo_tagged" "0123456789abcdef" pod; DiskBecomes ReadOnly; Restarted; DiskBecomes Writable])%list.
Definition after_silence : list delivery_op := (handed_over ++ [Passes 1801000000])%list.

Lemma parcel_follows_log_witness : exists x, dict_get "dv_a" (default [] (file (on_ops handed_over fresh))) = Some x
  /\ status x = AWAITING_BUYER_RECEIPT /\ exists p, parcel_log (terms x) (events x) p /\ status x ∈ stands p.
Proof.
  destruct (dict_get "dv_a" (default [] (file (on_ops handed_over fresh)))) as [x|] eqn:E; [|vm_compute in E; discriminate].
  exists x. split; [done|].
  assert (status x = AWAITING_BUYER_RECEIPT /\ is_physical (dv_mode (terms x)) = true) as [Hs Hp].
  { vm_compute in E. injection E as <-. split; reflexivity. }
  split; [done|]. apply (parcel_follows_log scenes_known marks the_key no_capture fields_of 0 handed_over "dv_a" x); [|exact Hp].
  right. destruct (file (on_ops handed_over fresh)) as [d|]; [|done]. exists d. split; [done|]. by apply get_in.
Defined.

Lemma settled_parcel_accepted_witness : exists s' x,
  require_verified_for_settle scenes_known fields_of "task-1" (Some "food_delivery") true (on_ops after_silence fresh) = (s', Ret (Some ("dv_a", x)))
  /\ exists handed, accepted_log (terms x) handed (events x).
Proof.
  destruct (require_verified_for_settle scenes_known fields_of "task-1" (Some "food_delivery") true (on_ops after_silence fresh)) as [s' [[[id x]|]|e]] eqn:E;
    [|vm_compute in E; discriminate..].
  pose proof (settled_parcel_accepted scenes_known marks the_key no_capture fields_of 0 after_silence "task-1" (Some "food_delivery") true s' _ E) as H.
  exists s', x. cbn beta iota in H. destruct H as (_ & _ & _ & H & _).
  assert (id = "dv_a" /\ is_physical (dv_mode (terms x)) = true) as [-> Hp] by (vm_compute in E; injection E as <- <- <-; split; reflexivity).
  split; [done|]. by apply H.
Defined.

Definition photo_args : proof_args := ProofArgs "delivery_photo_tagged" "0123456789abcdef" "van" " LOGISTICS" pod.
Lemma tagged_photo_challenged_witness : exists s' y,
  submit_proof the_key "dv_a" photo_args (on_ops asked_photo fresh) = (s', Ret y)
  /\ exists ops1 role geo ops2, asked_photo = (ops1 ++ IssueChallenge "dv_a" role geo :: ops2)%list.
Proof.
  destruct (submit_proof the_key "dv_a" photo_args (on_ops asked_photo fresh)) as [s' [y|e]] eqn:E; [|vm_compute in E; discriminate].
  exists s', y. split; [done|].
  destruct (tagged_photo_challenged scenes_known marks the_key no_capture fields_of 0 asked_photo "dv_a" photo_args s' y E ltac:(by vm_compute))
    as (ops1 & role & geo & ops2 & H & _). by exists ops1, role, geo, ops2.
Defined.

(** The carrier's delivery is refused: the tag does not fit. *)
Definition wrong_tag : delivery_op := Deliver "dv_a" "van" "delivery_photo_tagged" "0123456789abcdef" (PhotoTag (Some "aa") (Some "1970-01-01T00:00:01Z") None (pt_hmac pod)).
Definition advice_due : list delivery_op :=
  [order "financial_services"; SubmitProof "dv_a" (ProofArgs "statement_hash" "0123456789abcdef" "anybody" "buyer" untagged_);
   SubmitProof "dv_a" (ProofArgs "advisor_licence" "0123456789abcdef" "anybody" "buyer" untagged_); MarkReceipt "dv_a" true].
Lemma refusal_changes_nothing_witness :
  (exists s', deliver_op scenes_known marks the_key no_capture fields_of wrong_tag (on_ops asked_photo fresh)
     = (s', Raise (DeliveryVerificationError "anti-forge photo tag HMAC mismatch"))
   /\ same_store (on_ops asked_photo fresh) s')
  /\ exists s' message, deliver_op scenes_known marks the_key no_capture fields_of (RequireVerified "task-1" None false) (on_ops advice_due fresh)
     = (s', Raise (DeliveryVerificationError message))
   /\ same_store s' (on_ops [ExpireSilent SETTLE_SWEEP; TryVerify "dv_a"] (on_ops advice_due fresh))
   /\ map (fun p => fields_ok p.2) (live s') <> map (fun p => fields_ok p.2) (live (on_ops advice_due fresh)).
Proof.
  split.
  - destruct (deliver_op scenes_known marks the_key no_capture fields_of wrong_tag (on_ops asked_photo fresh)) as [s' o] eqn:E.
    assert (o = Raise (DeliveryVerificationError "anti-forge photo tag HMAC mismatch")) as -> by (vm_compute in E; by injection E as _ <-).
    exists s'. split; [done|]. exact (refusal_changes_nothing scenes_known marks the_key no_capture fields_of wrong_tag _ s' _ E).
  - destruct (deliver_op scenes_known marks the_key no_capture fields_of (RequireVerified "task-1" None false) (on_ops advice_due fresh))
      as [s' [u|[message| |]]] eqn:E; [vm_compute in E; discriminate| |vm_compute in E; discriminate..].
    exists s', message. split; [done|]. split.
    + exact (refusal_changes_nothing scenes_known marks the_key no_capture fields_of (RequireVerified "task-1" None false) _ s' message E).
    + vm_compute in E. injection E as <- _. vm_compute. discriminate.
Defined.

(** ** Where code and words part *)

Definition status_after (ops : list delivery_op) : option dv_status := status <$> dict_get "dv_a" (live (on_ops ops fresh)).
Definition proof_of (ptype : string) : delivery_op := SubmitProof "dv_a" (ProofArgs ptype "0123456789abcdef" "anybody" "buyer" untagged_).

(** Code: the carrier may deliver with a proof type of its choice, and the untagged
    [delivery_photo_or_code] counts as the tagged photo. *)
Lemma untagged_photo_counts :
  status_after (on_the_way "food_delivery" ++ [Deliver "dv_a" "van" "delivery_photo_or_code" "0123456789abcdef" untagged_; BuyerConfirm "dv_a" "ann" true])
    = Some VERIFIED.
Proof. vm_compute. reflexivity. Qed.

(** Code: a buyer who confirmed while proofs were missing and then rejects is overruled
    by whoever brings the proofs. *)
Definition b2b_confirmed : list delivery_op :=
  (on_the_way "b2b_procurement" ++ [Deliver "dv_a" "van" "delivery_photo_or_code" "0123456789abcdef" untagged_; BuyerConfirm "dv_a" "ann" true])%list.
Lemma rejection_overruled :
  status_after (b2b_confirmed ++ [BuyerConfirm "dv_a" "ann" false]) = Some REJECTED
  /\ status_after (b2b_confirmed ++ [BuyerConfirm "dv_a" "ann" false; proof_of "goods_receipt"; proof_of "qa_report_hash"; TryVerify "dv_a"])
     = Some VERIFIED.
Proof. vm_compute. by split. Qed.

(** Code: a driver whose ride was rejected reports it again, and silence confirms it. *)
Definition ride : list delivery_op :=
  [order "ride_hailing"; SellerShip "dv_a" "shop" None; proof_of "route_track_hash"; proof_of "fare_final"; BuyerConfirm "dv_a" "ann" false].
Lemma rejected_ride_confirmed :
  status_after ride = Some REJECTED
  /\ status_after (ride ++ [SellerShip "dv_a" "shop" None; Passes 901000000; ExpireSilent 100]) = Some VERIFIED.
Proof. vm_compute. by split. Qed.

(** Code: [proof_fields_covered] is required by the scene and never found missing. *)
Definition advice : list delivery_op := [order "financial_services"; MarkReceipt "dv_a" true; BuyerConfirm "dv_a" "ann" true].
Lemma fields_never_missing :
  status_after advice = Some VERIFIED /\ (fields_ok <$> dict_get "dv_a" (live (on_ops advice fresh))) = Some false.
Proof. vm_compute. by split. Qed.
(** Code: a submitted key that is part of a required one covers it; the empty one covers
    them all. *)
Lemma empty_key_covers :
  (fields_ok <$> dict_get "dv_a" (live (on_ops [order "financial_services"; CoverFields "dv_a" [""]] fresh))) = Some true.
Proof. vm_compute. reflexivity. Qed.

(** Code: a session opened after the first of its task was rejected is not the one that a
    settlement looks at. *)
Definition second_try : list delivery_op :=
  [order "ride_hailing"; BuyerConfirm "dv_a" "ann" false;
   CreateDelivery (DvCreate "task-1" "data_api_billing" "shop" "ann" None None None); MarkReceipt "dv_aa" true; TryVerify "dv_aa"].
Lemma second_session_ignored :
  (status <$> dict_get "dv_aa" (live (on_ops second_try fresh))) = Some VERIFIED
  /\ run_outcome (require_verified_for_settle scenes_known fields_of "task-1" None true) (on_ops second_try fresh)
     = Raise (DeliveryVerificationError "delivery not VERIFIED (status=REJECTED)").
Proof. vm_compute. by split. Qed.
