(* ===== verification/ImportantFields.v ===== *)
(** * Important fields

    [services/important_fields_standard.py]: the fields of a deal that both sides must
    agree on, how they are checked against the catalogue of scenes, put into a canonical
    form and hashed.  The catalogue is a parameter; texts of messages are left out, an
    error names what is wrong and where.  [datetime.fromisoformat] with the conversion to
    UTC is a parameter too; the characters of a text being below 256, NFC leaves it as it
    is. *)

From S2P Require Import Prelude PyBytes PyJson PyJsonCanon PyDatetime PyFloat.
#[local] Open Scope string_scope.

(** ** The catalogue *)

Inductive required_of : Type := Unsaid | NotRequired | RequiredKeys (keys : list string).
Inductive field_spec : Type :=
  FieldSpec (type format : option string) (min_length max_length : option Z) (enum : option (list string)) (const : option json)
    (properties : option (list (string * field_spec))) (required : required_of).
Record if_scene := IfScene { scene_fields : list (string * field_spec); proof_fields : list string }.
Record if_catalog := IfCatalog {
  common_fields : list (string * field_spec);
  if_scenes : list (string * if_scene);
  if_extensions : list (string * if_scene)
}.

Definition HASH_EXCLUDE : list string := ["party_role"; "submitter_agent_id"; "submitted_at"; "signature"; "fields_hash"].

(** ** Texts *)

(** [s.split(".")] *)
Fixpoint split_dot (acc s : string) : list string :=
  match s with
  | EmptyString => [acc]
  | String c r => if Ascii.eqb c "." then acc :: split_dot "" r else split_dot (acc ++ String c "") r
  end.
Definition leaf_of (path : string) : string := List.last (split_dot "" path) "".
Fixpoint replace_char (c : ascii) (by_ s : string) : string :=
  match s with
  | EmptyString => ""
  | String d r => (if Ascii.eqb c d then by_ else String d "") ++ replace_char c by_ r
  end.

(** The value of the digits, and how many there are. *)
Fixpoint read_digits (acc : Z) (n : nat) (s : string) : option (Z * nat) :=
  match s with
  | EmptyString => Some (acc, n)
  | String c r => match undigit c with Some d => read_digits (acc * 10 + d)%Z (S n) r | None => None end
  end.
(** [_AMOUNT_RE]: the digits as a number, and how many come after the point. *)
Definition amount_parts (s : string) : option (Z * nat) :=
  match split_dot "" s with
  | [whole] => match read_digits 0 0 whole with Some (v, S _) => Some (v, 0) | _ => None end
  | [whole; frac] =>
      match read_digits 0 0 whole, read_digits 0 0 frac with
      | Some (v, S _), Some (w, S n) => if (S n <=? 6)%nat then Some (v * 10 ^ Z.of_nat (S n) + w, S n)%Z else None
      | _, _ => None
      end
  | _ => None
  end.
(** [Decimal.normalize] keeps 28 digits. *)
Definition DECIMAL_DIGITS : Z := 28.
Definition keep_digits (c : Z) : Z :=
  let extra := (Z.of_nat (String.length (py_str_int c)) - DECIMAL_DIGITS)%Z in
  if (extra <=? 0)%Z then c
  else (round_half_even c (Z.to_pos (10 ^ extra)) * 10 ^ extra)%Z.
Fixpoint rstrip_zeros (s : string) : string :=
  match s with
  | EmptyString => ""
  | String c r => match rstrip_zeros r with
                  | EmptyString => if Ascii.eqb c "0" then "" else String c ""
                  | r' => String c r'
                  end
  end.
Definition decimal_text (c : Z) (k : nat) : string :=
  let unit_ := (10 ^ Z.of_nat k)%Z in
  let frac := rstrip_zeros (pad k (c mod unit_)) in
  py_str_int (c / unit_) ++ (if str_eqb frac "" then "" else "." ++ frac).
Definition normalize_amount_string (v : json) : option string :=
  match v with
  | JStr s => match amount_parts (py_strip s) with Some (c, k) => Some (decimal_text (keep_digits c) k) | None => None end
  | _ => None
  end.
Definition normalize_text (s : string) : string := py_strip s.
Definition is_date (s : string) : bool :=
  match s with
  | String a (String b (String c (String d (String h (String e (String f (String i (String g (String j EmptyString))))))))) =>
      forallb (fun x => bool_decide (is_Some (undigit x))) [a; b; c; d; e; f; g; j] && Ascii.eqb h "-" && Ascii.eqb i "-"
  | _ => false
  end.
(** [strftime("%Y-%m-%dT%H:%M:%SZ")]: the year is not padded. *)
Definition strftime_z (t : datetime) : string :=
  let c := civil_from_days (t / US_PER_DAY) in
  let s := (t mod US_PER_DAY / US_PER_SECOND)%Z in
  py_str_int (year c) ++ "-" ++ pad 2 (month c) ++ "-" ++ pad 2 (day c) ++ "T" ++
  pad 2 (s / 3600)%Z ++ ":" ++ pad 2 (s / 60 mod 60)%Z ++ ":" ++ pad 2 (s mod 60)%Z ++ "Z".

(** [None], a blank text, and an empty list or dict. *)
Definition is_empty (v : json) : bool :=
  match v with
  | JNull => true
  | JStr s => str_eqb (py_strip s) ""
  | JList l => match l with [] => true | _ => false end
  | JObj fs => match fs with [] => true | _ => false end
  | _ => false
  end.
Fixpoint dig (v : json) (path : list string) : json :=
  match path with
  | [] => v
  | part :: r => match v with JObj fs => match assoc part fs with Some w => dig w r | None => JNull end | _ => JNull end
  end.
(** [==] of Python: [True] and [1] are equal, and so are dicts with the same items. *)
Fixpoint py_number (v : json) : json :=
  match v with
  | JBool b => JInt (if b then 1 else 0)
  | JList l => JList (map py_number l)
  | JObj fs => JObj (map (fun kv => (kv.1, py_number kv.2)) fs)
  | _ => v
  end.
Definition py_equal (v w : json) : bool := str_eqb (dumps compact_sorted (py_number v)) (dumps compact_sorted (py_number w)).

Inductive field_error : Type :=
| NotDecimal (path : string) | NotDateTime (path : string) | NotDate (path : string) | TooShort (path : string) | TooLong (path : string)
| NotInEnum (path : string) | NotConst (path : string) | MissingCommon (path : string) | BadCriteria | BadCurrency
| MissingScene (path : string) | MissingNested (path key : string) | BadProofFields.

Section Standard.
Context (cat : if_catalog).
(** [datetime.fromisoformat] with the time in UTC; [None] when it raises *)
Context (read_iso : string -> option datetime).

Definition get_scene (scene_id : string) : option if_scene :=
  match assoc scene_id (if_scenes cat) with Some s => Some s | None => assoc scene_id (if_extensions cat) end.

Definition normalize_datetime_utc (v : json) : option string :=
  match v with
  | JStr s =>
      let s := py_strip s in
      if str_eqb s "" then None
      else
        let s := replace_char " " "T" s in
        strftime_z <$> read_iso (if ends_with "Z" s then replace_char "Z" "+00:00" s else s)
  | _ => None
  end.

(** ** Canonical form and hash *)

Definition TIME_LEAVES : list string := ["deadline_at"; "check_in"; "check_out"; "depart_at"].
(** Amounts and times by the last part of their path; a date is only stripped, as any text. *)
Definition canonical_text (path s : string) : string :=
  let leaf := if str_eqb path "" then "" else leaf_of path in
  if str_eqb leaf "amount" then default (normalize_text s) (normalize_amount_string (JStr s))
  else if ends_with "_at" leaf || str_mem leaf TIME_LEAVES then default (normalize_text s) (normalize_datetime_utc (JStr s))
  else normalize_text s.
Definition child_path (path key : string) : string := if str_eqb path "" then key else path ++ "." ++ key.
Fixpoint canonicalize (path : string) (v : json) : json :=
  match v with
  | JStr s => JStr (canonical_text path s)
  | JList l => JList (map (canonicalize path) l)
  | JObj fs =>
      JObj (sort_items (flat_map (fun kv =>
        if str_mem kv.1 HASH_EXCLUDE then []
        else match canonicalize (child_path path kv.1) kv.2 with JNull => [] | w => [(kv.1, w)] end) fs))
  | _ => v
  end.
Definition strip_for_hash (fs : list (string * json)) : list (string * json) :=
  List.filter (fun kv => negb (str_mem kv.1 HASH_EXCLUDE)) fs.
Definition canonical_json (fs : list (string * json)) : string := dumps compact_sorted_utf8 (canonicalize "" (JObj (strip_for_hash fs))).
Definition fields_hash (fs : list (string * json)) : string := sha256_hex (utf8 (canonical_json fs)).
(** The canonical form of a dict, which is a dict. *)
Definition canonical_fields (fs : list (string * json)) : list (string * json) :=
  match canonicalize "" (JObj fs) with JObj fs' => fs' | _ => [] end.

(** ** Checks *)

Definition text_length (v : json) : option Z := match v with JStr s => Some (Z.of_nat (String.length (normalize_text s))) | _ => None end.
Definition when_ {A} (b : bool) (x : A) : list A := if b then [x] else [].
Definition is_amount_path (path : string) (ty : option string) : bool :=
  str_eqb path "amount" || bool_decide (ty = Some "string") && ends_with "amount" path.
(** The first check that fails in the format ends the checks of the leaf. *)
Fixpoint validate_leaf (path : string) (v : json) (spec : field_spec) : list field_error :=
  let '(FieldSpec ty fmt min_length max_length enum const properties _) := spec in
  if is_amount_path path ty && negb (bool_decide (is_Some (normalize_amount_string v))) then [NotDecimal path]
  else if bool_decide (fmt = Some "date-time") && negb (bool_decide (is_Some (normalize_datetime_utc v))) then [NotDateTime path]
  else if bool_decide (fmt = Some "date") && negb (match v with JStr s => is_date (py_strip s) | _ => false end) then [NotDate path]
  else
    (match ty, text_length v with
     | Some t, Some n =>
         if str_eqb t "string" then
           when_ (match min_length with Some m => n <? m | None => false end)%Z (TooShort path)
             ++ when_ (match max_length with Some m => m <? n | None => false end)%Z (TooLong path)
         else []
     | _, _ => []
     end
     ++ match enum, v with Some l, JStr s => when_ (negb (str_mem s l)) (NotInEnum path) | _, _ => [] end
     ++ match const with Some c => when_ (negb (py_equal v c)) (NotConst path) | None => [] end
     ++ match properties, v with
        | Some props, JObj fs =>
            flat_map (fun kp : string * field_spec =>
              let '(FieldSpec _ _ _ _ _ _ _ req) := kp.2 in
              let child := jget kp.1 fs in
              match req with
              | NotRequired => []
              | _ => if is_empty child then [] else validate_leaf (path ++ "." ++ kp.1) child kp.2
              end) props
        | _, _ => []
        end)%list.
Definition criteria_ok (v : json) : bool :=
  match v with
  | JList l => forallb (fun x => match x with JStr s => negb (str_eqb (normalize_text s) "") | _ => false end) l
  | _ => false
  end.
Definition check_common (fields : json) (req : string * field_spec) : list field_error :=
  let '(path, spec) := req in
  let '(FieldSpec _ _ _ _ enum _ _ _) := spec in
  let v := dig fields (split_dot "" path) in
  if is_empty v then [MissingCommon path]
  else if str_eqb path "acceptance_criteria" then when_ (negb (criteria_ok v)) BadCriteria
  else
    (validate_leaf path v spec
     ++ match v with
        | JStr s => when_ (str_eqb path "currency" && negb (bool_decide (default [] enum = [])) && negb (str_mem s (default [] enum))) BadCurrency
        | _ => []
        end)%list.
Definition check_scene (fields : json) (req : string * field_spec) : list field_error :=
  let '(path, spec) := req in
  let '(FieldSpec _ _ _ _ _ _ properties required) := spec in
  let v := dig fields (split_dot "" path) in
  if is_empty v then [MissingScene path]
  else
    (validate_leaf path v spec
     ++ match v, required with
        | JObj fs, RequiredKeys keys =>
            flat_map (fun k => when_ (bool_decide (is_Some (assoc k (default [] properties))) && is_empty (jget k fs)) (MissingNested path k)) keys
        | _, _ => []
        end)%list.
(** [None] when the scene is unknown. *)
Definition validate_fields (scene_id : string) (fs : list (string * json)) : option (list field_error) :=
  match get_scene scene_id with
  | None => None
  | Some scene =>
      Some (flat_map (check_common (JObj fs)) (common_fields cat)
            ++ flat_map (check_scene (JObj fs)) (scene_fields scene)
            ++ match assoc "required_proof_fields" fs with
               | None | Some JNull => []
               | Some (JList (_ :: _)) => []
               | Some _ => [BadProofFields]
               end)%list
  end.
Definition fields_valid (scene_id : string) (fs : list (string * json)) : bool :=
  match validate_fields scene_id fs with Some [] => true | _ => false end.

(** [match_submissions]: whether two submissions in the clear match, and their hashes. *)
Definition match_submissions (scene_id : string) (buyer seller : list (string * json)) : option (bool * option string * option string) :=
  match validate_fields scene_id buyer, validate_fields scene_id seller with
  | Some be, Some se =>
      let bh := match be with [] => Some (fields_hash buyer) | _ => None end in
      let sh := match se with [] => Some (fields_hash seller) | _ => None end in
      Some (bool_decide (is_Some bh) && bool_decide (bh = sh), bh, sh)
  | _, _ => None
  end.
End Standard.
