(* ===== verification/FieldsCapture.v ===== *)
(** * Captures of important fields

    [services/important_fields_crypto.py] and [services/important_fields_capture.py]: the
    fields of a deal are locked by the protocol, sealed copies come from buyer and
    seller, and the deal matches when all three say the same.  AES-GCM and HKDF come
    from a library and are parameters, as are random bytes, the master key and
    [json.loads] of decoded bytes.  The last error of a capture and the differences
    shown to the parties are left out; captures live in a dict and a file, as in
    [PyStore]. *)

From S2P Require Import Prelude PyBytes PyBase64 PyJson PyJsonCanon PyDatetime PyFloat PyRepr PyHoare PyStore ImportantFields.
#[local] Open Scope string_scope.
#[local] Open Scope py_scope.

(** ** Captures *)

Inductive capture_status : Type := CAPTURED | PARTIAL | MATCHED | COUNTERED | FAILED | EXPIRED.
#[export] Instance capture_status_eq_dec : EqDecision capture_status.
Proof. solve_decision. Defined.
Definition capture_status_value (s : capture_status) : string :=
  match s with
  | CAPTURED => "CAPTURED" | PARTIAL => "PARTIAL" | MATCHED => "MATCHED" | COUNTERED => "COUNTERED" | FAILED => "FAILED" | EXPIRED => "EXPIRED"
  end.
Record PartySubmit := Submitted {
  sub_ciphertext : string;
  sub_nonce : string;
  sub_hash : string;
  sub_at : datetime;
  sub_agent : option string
}.
Record ProtocolCapture := Capture {
  cap_scene : string;
  cap_ref : string;
  cap_hash : string;
  cap_ciphertext : string;
  cap_mac : string;
  cap_created : datetime;
  cap_expires : datetime;
  cap_status : capture_status;
  attempt_count : nat;
  used_nonces : list string;
  cap_buyer : option PartySubmit;
  cap_seller : option PartySubmit;
  cap_buyer_agent : option string;
  cap_seller_agent : option string;
  sealed_at : option datetime
}.
Definition set_cap_status (st : capture_status) (x : ProtocolCapture) : ProtocolCapture :=
  Capture (cap_scene x) (cap_ref x) (cap_hash x) (cap_ciphertext x) (cap_mac x) (cap_created x) (cap_expires x) st (attempt_count x)
    (used_nonces x) (cap_buyer x) (cap_seller x) (cap_buyer_agent x) (cap_seller_agent x) (sealed_at x).
Definition set_sealed (at_ : datetime) (x : ProtocolCapture) : ProtocolCapture :=
  Capture (cap_scene x) (cap_ref x) (cap_hash x) (cap_ciphertext x) (cap_mac x) (cap_created x) (cap_expires x) MATCHED (attempt_count x)
    (used_nonces x) (cap_buyer x) (cap_seller x) (cap_buyer_agent x) (cap_seller_agent x) (Some at_).
(** [attempt_count += 1], with the nonce used up or not. *)
Definition set_attempts (used : list string) (x : ProtocolCapture) : ProtocolCapture :=
  Capture (cap_scene x) (cap_ref x) (cap_hash x) (cap_ciphertext x) (cap_mac x) (cap_created x) (cap_expires x) (cap_status x)
    (S (attempt_count x)) used (cap_buyer x) (cap_seller x) (cap_buyer_agent x) (cap_seller_agent x) (sealed_at x).
Definition set_party (buyer : bool) (p : PartySubmit) (x : ProtocolCapture) : ProtocolCapture :=
  Capture (cap_scene x) (cap_ref x) (cap_hash x) (cap_ciphertext x) (cap_mac x) (cap_created x) (cap_expires x) PARTIAL (attempt_count x)
    (used_nonces x) (if buyer then Some p else cap_buyer x) (if buyer then cap_seller x else Some p) (cap_buyer_agent x)
    (cap_seller_agent x) (sealed_at x).

Abbreviation captures := (store ProtocolCapture).
Inductive capture_error : Type := CaptureError (message : string) | FieldsCryptoError | OSError | TypeError.
Abbreviation MF := (M captures capture_error).
Definition refuse_capture {A} (message : string) : MF A := py_raise (CaptureError message).
Definition must (b : bool) (message : string) : MF unit := py_require b (CaptureError message).
Definition persist_captures : MF unit := persist OSError.
Definition reset_capture_store : MF unit := clear OSError.

Definition MAX_ATTEMPTS_PER_CAPTURE : nat := 8.
Definition PREFIX_V1 : string := "karma1.".
Definition PREFIX_V2 : string := "karma2.".
Definition fields_dict : Type := list (string * json).

(** [Decimal] of the [repr] of a float: digits, and how many come after the point; [None]
    for what is negative or not finite. *)
Fixpoint split_e (acc s : string) : string * string :=
  match s with
  | EmptyString => (acc, "")
  | String c r => if Ascii.eqb c "e" then (acc, r) else split_e (acc ++ String c "") r
  end.
Definition read_exponent_part (s : string) : option Z :=
  match s with
  | EmptyString => Some 0%Z
  | String c r =>
      match read_digits 0 0 r with
      | Some (v, S _) => if Ascii.eqb c "-" then Some (- v)%Z else if Ascii.eqb c "+" then Some v else None
      | _ => None
      end
  end.
Definition decimal_of_repr (s : string) : option (Z * nat) :=
  let '(mantissa, e) := split_e "" s in
  let '(whole, frac) := match split_dot "" mantissa with [w] => (w, "") | [w; f] => (w, f) | _ => ("", "") end in
  match read_digits 0 0 (whole ++ frac), read_exponent_part e with
  | Some (v, S _), Some e =>
      let u := (e - Z.of_nat (String.length frac))%Z in
      Some (v * 10 ^ Z.max 0 u, Z.to_nat (- u))%Z
  | _, _ => None
  end.

Section Crypto.
(** [secrets.token_hex(16)] and [os.urandom(12)], the n-th time *)
Context (token_hex : nat -> string) (urandom : nat -> bytes).
(** [master_key_bytes]; [None] when production has no key *)
Context (master_key : option bytes).
(** [HKDF(...).derive] with the salt of the module: the key and the info *)
Context (hkdf : bytes -> bytes -> bytes).
(** [AESGCM(key).encrypt(nonce, text, aad)] and [decrypt] *)
Context (aes_encrypt : bytes -> bytes -> bytes -> bytes -> bytes) (aes_decrypt : bytes -> bytes -> bytes -> bytes -> option bytes).
(** [json.loads] of UTF-8 *)
Context (json_loads : bytes -> option json).

Definition capture_session_key (id role : string) : option bytes :=
  let r := py_strip (py_lower (if str_eqb role "" then "protocol" else role)) in
  (fun k => hkdf k (utf8 ("aes|v2|" ++ id ++ "|" ++ r))) <$> master_key.
Definition protocol_mac (message : string) : option string :=
  (fun k => hmac_hex (hkdf k (utf8 "mac|v2|protocol")) (utf8 message)) <$> master_key.
Definition build_aad (id scene role hash : string) : bytes :=
  utf8 (String.concat "|" [id; scene; py_strip (py_lower role); hash]).
(** [None] without a master key. *)
Definition encrypt_canonical_fields (read_iso : string -> option datetime) (n : nat) (fs : fields_dict) (id scene role hash : string) : option string :=
  (fun key =>
     let nonce := urandom n in
     let text := utf8 (canonical_json read_iso fs) in
     PREFIX_V2 ++ b64_encode (nonce ++ aes_encrypt key nonce text (build_aad id scene role hash))) <$> capture_session_key id role.
Definition parse_fields_json (b : bytes) : option fields_dict :=
  match json_loads b with Some (JObj fs) => Some fs | _ => None end.
Definition open_envelope (body : string) (key : option bytes) (aad : bytes) : option fields_dict :=
  match urlsafe_b64decode_padded body with
  | None => None
  | Some data =>
      if (length data <? 12 + 16)%nat then None
      else
        match key with
        | None => None
        | Some k => match aes_decrypt k (take 12 data) (drop 12 data) aad with Some b => parse_fields_json b | None => None end
        end
  end.
(** [None] is [FieldsCryptoError]. *)
Definition decrypt_canonical_fields (ciphertext id scene role hash : string) : option fields_dict :=
  match after_prefix PREFIX_V2 ciphertext with
  | Some body => open_envelope body (capture_session_key id role) (build_aad id scene role hash)
  | None =>
      match after_prefix PREFIX_V1 ciphertext with
      | Some body => open_envelope body ((fun k => hmac_sha256 k (utf8 id)) <$> master_key) (utf8 id)
      | None => None
      end
  end.

Section Captures.
Context (cat : if_catalog) (read_iso : string -> option datetime).
Abbreviation hash_of := (fields_hash read_iso).
Abbreviation canonical := (canonical_fields read_iso).
Abbreviation valid := (fields_valid cat read_iso).
Abbreviation decrypt := decrypt_canonical_fields.

(** [_get] *)
Definition get_capture (id : string) : MF ProtocolCapture :=
  ensure_loaded ;;;
  let! x := lookup_or (CaptureError ("unknown capture_id: " ++ id)) id in
  let! s := py_get in
  if (cap_expires x <? drop_microsecond (now s))%Z && negb (bool_decide (cap_status x = MATCHED)) then
    put id (set_cap_status EXPIRED x) ;;;
    refuse_capture "capture expired"
  else py_ret x.

Record capture_args := CaptureArgs {
  ca_scene : string;
  ca_fields : fields_dict;
  ca_ref : string;
  ca_ttl : Z;
  ca_buyer : option string;
  ca_seller : option string
}.
Definition nonempty (o : option string) : option string := if truthy_str o then o else None.
Definition mac_message (id scene hash ref : string) : string := id ++ "|" ++ scene ++ "|" ++ hash ++ "|" ++ ref.
Definition crypto {A} (o : option A) : MF A := match o with Some a => py_ret a | None => py_raise FieldsCryptoError end.
Definition capture_id_of (n : nat) : string := "cap_" ++ token_hex n.
Definition create_protocol_capture (a : capture_args) : MF (string * ProtocolCapture) :=
  ensure_loaded ;;;
  must (bool_decide (is_Some (get_scene cat (ca_scene a)))) ("unknown scene_id: " ++ ca_scene a) ;;;
  let fields := canonical (ca_fields a) in
  must (valid (ca_scene a) fields) "protocol capture fields invalid" ;;;
  must (negb (truthy_str (ca_buyer a) && bool_decide (ca_buyer a = ca_seller a))) "buyer_agent_id and seller_agent_id must be distinct (anti-collusion)" ;;;
  let! s := py_get in
  let id := capture_id_of (drawn s) in
  py_modify draw ;;;
  let hash := hash_of fields in
  let! ciphertext := crypto (encrypt_canonical_fields read_iso (S (drawn s)) fields id (ca_scene a) "protocol" hash) in
  py_modify draw ;;;
  let! mac := crypto (protocol_mac (mac_message id (ca_scene a) hash (ca_ref a))) in
  let x := Capture (ca_scene a) (ca_ref a) hash ciphertext mac (drop_microsecond (now s))
             (drop_microsecond (now s + Z.max 60 (ca_ttl a) * US_PER_SECOND))%Z CAPTURED 0 [] None None
             (nonempty (ca_buyer a)) (nonempty (ca_seller a)) None in
  put id x ;;;
  persist_captures ;;;
  py_ret (id, x).
Definition get_capture_public (id : string) : MF ProtocolCapture := get_capture id.

Definition role_of (role : string) : string := py_strip (py_lower role).
Definition issue_session_key (id role : string) : MF string :=
  let role := role_of role in
  must (str_mem role ["buyer"; "seller"; "protocol"]) "role must be buyer|seller|protocol" ;;;
  let! x := get_capture id in
  let! key := crypto (capture_session_key id role) in
  py_ret (hex key).
Definition encrypt_for_capture (id : string) (fs : fields_dict) (role : string) : MF string :=
  let role := role_of role in
  must (str_mem role ["buyer"; "seller"; "protocol"]) "role must be buyer|seller|protocol" ;;;
  let! x := get_capture id in
  let fields := canonical fs in
  must (valid (cap_scene x) fields) "fields invalid" ;;;
  let! s := py_get in
  let! c := crypto (encrypt_canonical_fields read_iso (drawn s) fields id (cap_scene x) role (cap_hash x)) in
  py_modify draw ;;;
  py_ret c.

Record submit_args := SubmitArgs {
  su_id : string;
  su_role : string;
  su_ciphertext : string;
  su_nonce : string;
  su_agent : option string
}.
(** The agent a role is bound to, and what the other party submitted. *)
Definition bound_agent (buyer : bool) (x : ProtocolCapture) : option string := if buyer then cap_buyer_agent x else cap_seller_agent x.
Definition other_submit (buyer : bool) (x : ProtocolCapture) : option PartySubmit := if buyer then cap_seller x else cap_buyer x.
Definition check_parties (buyer : bool) (agent : option string) (x : ProtocolCapture) : MF unit :=
  must (negb (truthy_str (bound_agent buyer x)) || truthy_str agent && bool_decide (agent = bound_agent buyer x))
    "submitter_agent_id must match the bound agent (anti-collusion)" ;;;
  must (negb (truthy_str agent && match other_submit buyer x with Some o => bool_decide (sub_agent o = agent) | None => false end))
    "same submitter_agent_id cannot fill both buyer and seller (anti-collusion)".
Definition submit_encrypted (a : submit_args) : MF ProtocolCapture :=
  let role := role_of (su_role a) in
  let id := su_id a in
  let nonce := su_nonce a in
  must (str_mem role ["buyer"; "seller"]) "role must be buyer or seller" ;;;
  must ((8 <=? String.length nonce)%nat && (String.length nonce <=? 128)%nat) "nonce must be 8..128 chars" ;;;
  must (starts_with PREFIX_V2 (su_ciphertext a) || starts_with PREFIX_V1 (su_ciphertext a)) "secure path accepts only karma2./karma1. ciphertext (no plaintext)" ;;;
  let! x := get_capture id in
  must (negb (bool_decide (cap_status x = MATCHED))) "capture is sealed MATCHED - reopen interaction for changes" ;;;
  must (negb (mem (cap_status x) [FAILED; EXPIRED])) ("capture status " ++ capture_status_value (cap_status x) ++ " cannot accept submits") ;;;
  let! mac := crypto (protocol_mac (mac_message id (cap_scene x) (cap_hash x) (cap_ref x))) in
  py_require (py_isascii (cap_mac x)) TypeError ;;;
  must (str_eqb mac (cap_mac x)) "protocol capture integrity check failed" ;;;
  let buyer := str_eqb role "buyer" in
  check_parties buyer (su_agent a) x ;;;
  if str_mem nonce (used_nonces x) then
    put id (set_attempts (used_nonces x) x) ;;; persist_captures ;;; refuse_capture "nonce already used (replay rejected)"
  else if (MAX_ATTEMPTS_PER_CAPTURE <=? attempt_count x)%nat then
    put id (set_cap_status FAILED x) ;;; persist_captures ;;; refuse_capture "capture attempt limit exceeded - reopen interaction"
  else
    let x := set_attempts (nonce :: used_nonces x) x in
    put id x ;;;
    match decrypt (su_ciphertext a) id (cap_scene x) role (cap_hash x) with
    | None => persist_captures ;;; refuse_capture "decryption failed"
    | Some plaintext =>
        let plaintext := canonical plaintext in
        if negb (valid (cap_scene x) plaintext) then persist_captures ;;; refuse_capture "validation"
        else
          let! s := py_get in
          let x := set_party buyer (Submitted (su_ciphertext a) nonce (hash_of plaintext) (drop_microsecond (now s)) (su_agent a)) x in
          put id x ;;;
          persist_captures ;;;
          py_ret x
    end.

Definition fail_capture {A} (id : string) (x : ProtocolCapture) (message : string) : MF A :=
  put id (set_cap_status FAILED x) ;;; persist_captures ;;; refuse_capture message.
(** Whether the three agree; the capture as it is left. *)
Definition finalize_triple_match (id : string) : MF (bool * ProtocolCapture) :=
  let! x := get_capture id in
  if bool_decide (cap_status x = MATCHED) then py_ret (true, x)
  else
    match cap_buyer x, cap_seller x with
    | Some b, Some sl =>
        match decrypt (sub_ciphertext b) id (cap_scene x) "buyer" (cap_hash x), decrypt (sub_ciphertext sl) id (cap_scene x) "seller" (cap_hash x),
              decrypt (cap_ciphertext x) id (cap_scene x) "protocol" (cap_hash x) with
        | Some fb, Some fs, Some fp =>
            let bh := hash_of (canonical fb) in
            let sh := hash_of (canonical fs) in
            let ph := hash_of (canonical fp) in
            if negb (str_eqb ph (cap_hash x)) then fail_capture id x "protocol capture hash drift"
            else if truthy_str (sub_agent b) && bool_decide (sub_agent b = sub_agent sl) then
              fail_capture id x "buyer and seller submitter_agent_id must differ (anti-collusion)"
            else if str_eqb bh sh && str_eqb sh ph then
              let! s := py_get in
              let x := set_sealed (drop_microsecond (now s)) x in
              put id x ;;; persist_captures ;;; py_ret (true, x)
            else
              let x := set_attempts (used_nonces x) (set_cap_status COUNTERED x) in
              let x := if (MAX_ATTEMPTS_PER_CAPTURE <=? attempt_count x)%nat then set_cap_status FAILED x else x in
              put id x ;;; persist_captures ;;; py_ret (false, x)
        | _, _, _ => fail_capture id x "decryption failed"
        end
    | _, _ => refuse_capture "both buyer and seller encrypted submits required"
    end.

Definition FULFILL_IF_REQUIRED_SCENES : list string :=
  ["ride_hailing"; "food_delivery"; "hotel_booking"; "flight_booking"; "b2b_procurement"; "data_api_billing"; "api_tool_call";
   "logistics_delivery"; "software_development"; "design_creative"; "consulting_advisory"; "content_creation"; "manufacturing";
   "real_estate_services"; "financial_services"; "marketing_advertising"; "education_training"; "healthcare_medical"].
Definition scene_requires_important_fields (scene_id : string) : bool := str_mem scene_id FULFILL_IF_REQUIRED_SCENES.

Definition expected_text (x : float) : option string :=
  match decimal_of_repr (repr_float x) with Some (c, k) => normalize_amount_string (JStr (decimal_text c k)) | None => None end.
Definition require_matched_capture (id scene_id : string) (ref : option string) (amount : option float) : MF ProtocolCapture :=
  let! x := get_capture_public id in
  must (str_eqb (cap_scene x) scene_id) "capture scene does not match required scene" ;;;
  must (bool_decide (cap_status x = MATCHED)) ("important fields capture status is " ++ capture_status_value (cap_status x) ++ ", need MATCHED") ;;;
  must (negb (truthy_str ref) || bool_decide (ref = Some (cap_ref x))) "capture interaction_ref does not match fulfill interaction (anti-splice)" ;;;
  match amount with
  | None => py_ret x
  | Some m =>
      let! x := get_capture id in
      match decrypt (cap_ciphertext x) id (cap_scene x) "protocol" (cap_hash x) with
      | None => refuse_capture "decryption failed"
      | Some fs =>
          let locked := normalize_amount_string (jget "amount" fs) in
          must (bool_decide (is_Some locked) && bool_decide (locked = expected_text m)) "locked amount does not match deal amount" ;;;
          py_ret x
      end
  end.

(** ** Runs *)

Inductive capture_op : Type :=
| CreateCapture (a : capture_args)
| GetCapture (id : string)
| SessionKey (id role : string)
| EncryptFor (id : string) (fs : fields_dict) (role : string)
| SubmitSealed (a : submit_args)
| Finalize (id : string)
| RequireMatched (id scene_id : string) (ref : option string) (amount : option float)
| ResetCaptures
| RestartCaptures
| CaptureDisk (d : disk_state)
| CapturePass (us : N).
Definition silently {A} (m : MF A) : MF unit := m ;;; py_ret tt.
Definition capture_step (op : capture_op) : MF unit :=
  match op with
  | CreateCapture a => silently (create_protocol_capture a)
  | GetCapture id => silently (get_capture_public id)
  | SessionKey id role => silently (issue_session_key id role)
  | EncryptFor id fs role => silently (encrypt_for_capture id fs role)
  | SubmitSealed a => silently (submit_encrypted a)
  | Finalize id => silently (finalize_triple_match id)
  | RequireMatched id scene_id ref amount => silently (require_matched_capture id scene_id ref amount)
  | ResetCaptures => reset_capture_store
  | RestartCaptures => py_modify restart
  | CaptureDisk d => py_modify (disk_becomes d)
  | CapturePass us => py_modify (pass us)
  end.
Definition capture_run (ops : list capture_op) (s : captures) : captures := fold_left (fun s op => run_state (capture_step op) s) ops s.
End Captures.
End Crypto.
