(* ===== verification/FieldsRuns.v ===== *)
(** * Captures of important fields: runs

    What holds in every sequence of captures, sealed submissions and matches, restarts
    of the process and failing disks: a match means that both parties sealed the fields
    that were locked, it is never undone, and nonces and attempts are limited. *)

From S2P Require Import Prelude PyBytes PyBase64 PyJson PyJsonCanon PyDatetime PyFloat PyHoare PyStore ImportantFields FieldsCapture.
#[local] Open Scope string_scope.
#[local] Open Scope py_scope.

(** ** What a hash of fields says *)

Section Hashes.
Context (read_iso : string -> option datetime).
(** What two dicts of fields agree on: their values in canonical form. *)
Definition same_fields (fs gs : fields_dict) : Prop :=
  canon (canonicalize read_iso "" (JObj (strip_for_hash fs))) = canon (canonicalize read_iso "" (JObj (strip_for_hash gs))).
Definition hashed_text (fs : fields_dict) : bytes := utf8 (canonical_json read_iso fs).

Lemma fields_hash_binds fs gs : fields_hash read_iso fs = fields_hash read_iso gs ->
  same_fields fs gs \/ sha256_collides (hashed_text fs) (hashed_text gs).
Proof.
  unfold fields_hash. intros [H|H]%hex_digest_binds; [left|by right]. apply utf8_inj in H.
  by apply (dumps_inj compact_sorted_utf8 eq_refl); [exists ""|].
Qed.
End Hashes.

Section Captures.
Context (token_hex : nat -> string) (urandom : nat -> bytes) (master_key : option bytes) (hkdf : bytes -> bytes -> bytes)
  (aes_encrypt : bytes -> bytes -> bytes -> bytes -> bytes) (aes_decrypt : bytes -> bytes -> bytes -> bytes -> option bytes)
  (json_loads : bytes -> option json) (cat : if_catalog) (read_iso : string -> option datetime).
Abbreviation decrypt := (decrypt_canonical_fields master_key hkdf aes_decrypt json_loads).
Abbreviation hash_of := (fields_hash read_iso).
Abbreviation canonical := (canonical_fields read_iso).
Abbreviation step := (capture_step token_hex urandom master_key hkdf aes_encrypt aes_decrypt json_loads cat read_iso).
Abbreviation run := (capture_run token_hex urandom master_key hkdf aes_encrypt aes_decrypt json_loads cat read_iso).
Abbreviation id_of := (capture_id_of token_hex).

(** ** What happens to a capture *)

(** The fields that were sealed for a role hash to what was locked. *)
Definition sealed_for (id : string) (x : ProtocolCapture) (role ciphertext : string) : Prop :=
  exists fs, decrypt ciphertext id (cap_scene x) role (cap_hash x) = Some fs /\ hash_of (canonical fs) = cap_hash x.
Definition all_agree (id : string) (x : ProtocolCapture) : Prop :=
  exists b s, cap_buyer x = Some b /\ cap_seller x = Some s
    /\ sealed_for id x "buyer" (sub_ciphertext b) /\ sealed_for id x "seller" (sub_ciphertext s) /\ sealed_for id x "protocol" (cap_ciphertext x).
Definition party_fits (buyer : bool) (p : PartySubmit) (x : ProtocolCapture) : Prop :=
  (truthy_str (bound_agent buyer x) = true -> sub_agent p = bound_agent buyer x)
  /\ (truthy_str (sub_agent p) = true -> forall o, other_submit buyer x = Some o -> sub_agent o <> sub_agent p).
Definition open_ (x : ProtocolCapture) : Prop := cap_status x <> MATCHED.
Inductive change (id : string) (x : ProtocolCapture) : ProtocolCapture -> Prop :=
| change_status st : open_ x -> st <> MATCHED -> change id x (set_cap_status st x)
| change_attempt : open_ x -> change id x (set_attempts (used_nonces x) x)
| change_nonce nonce : open_ x -> nonce ∉ used_nonces x -> attempt_count x < MAX_ATTEMPTS_PER_CAPTURE ->
    change id x (set_attempts (nonce :: used_nonces x) x)
| change_party buyer p : open_ x -> party_fits buyer p x -> change id x (set_party buyer p x)
| change_seal t : open_ x -> all_agree id x -> change id x (set_sealed t x).

Section Kept.
Context (P : string -> ProtocolCapture -> Prop) (I : captures -> Prop) `{!store_inv P I}.
Hypothesis P_change : forall id x y, P id x -> change id x y -> P id y.
Abbreviation kept := (keeps (E := capture_error) I).

Lemma kept_put_capture id x : P id x -> kept (put id x).
Proof. intros H. by by_store kept_put. Qed.
Lemma kept_capture {A} id (k : ProtocolCapture -> MF A) : (forall x, P id x -> kept (k x)) -> kept (py_bind (get_capture id) k).
Proof.
  intros Hk. unfold get_capture. apply keeps_assoc, keeps_bind; [auto with keeps|intros _]. apply keeps_assoc.
  by_store kept_lookup. intros x Hx. apply keeps_assoc, keeps_bind; [apply keeps_get|intros s].
  destruct (_ && _) eqn:E; [|by apply Hk]. apply andb_true_iff in E as [_ E%negb_true_iff%bool_decide_eq_false].
  apply keeps_assoc, keeps_bind; [apply kept_put_capture; eapply P_change; [done|by apply change_status]|intros _]. apply keeps_raise.
Qed.
Lemma kept_must {A} b message (k : unit -> MF A) : (b = true -> kept (k tt)) -> kept (py_bind (must b message) k).
Proof. apply kept_check. Qed.
Lemma kept_crypto {A} (o : option A) : kept (crypto o).
Proof. destruct o; [apply keeps_ret|apply keeps_raise]. Qed.
Lemma kept_silently {A} (m : MF A) : kept m -> kept (silently m).
Proof. intros H. apply keeps_bind; [done|]. intros a. apply keeps_ret. Qed.

Local Ltac along :=
  repeat first
    [ progress intros
    | lazymatch goal with
      | |- keeps _ (py_bind (get_capture _) _) => apply kept_capture
      | |- keeps _ (py_bind (get_capture_public _) _) => apply kept_capture
      | |- keeps _ (py_bind (must _ _) _) => apply kept_must
      | |- keeps _ (py_bind _ _) => apply keeps_bind
      | |- keeps _ (py_when _ _) => apply keeps_when
      | |- keeps _ (must _ _) => apply keeps_require
      | |- keeps _ (refuse_capture _) => apply keeps_raise
      | |- keeps _ (crypto _) => apply kept_crypto
      | |- keeps _ persist_captures => by_store kept_persist
      | |- keeps _ (put _ _) => apply kept_put_capture
      | |- keeps _ (match ?x with _ => _ end) => destruct x eqn:?
      end
    | solve [eauto with keeps] ].
Lemma kept_get id : kept (get_capture_public id).
Proof.
  intros s Hs. pose proof (kept_capture id py_ret (fun x _ => keeps_ret _ x) s Hs) as H.
  unfold run_state, py_bind, get_capture_public in *. by destruct (get_capture id s) as [? []].
Qed.
Lemma kept_key id role : kept (issue_session_key master_key hkdf id role).
Proof. unfold issue_session_key. along. Qed.
Lemma kept_encrypt id fs role : kept (encrypt_for_capture urandom master_key hkdf aes_encrypt cat read_iso id fs role).
Proof. unfold encrypt_for_capture. along. Qed.
Lemma kept_matched id scene_id ref amount : kept (require_matched_capture master_key hkdf aes_decrypt json_loads id scene_id ref amount).
Proof. unfold require_matched_capture. along. Qed.

(** The checks on the parties are what [change_party] asks for. *)
Lemma parties_checked {A} buyer agent x (k : MF A) :
  ((forall p, sub_agent p = agent -> party_fits buyer p x) -> kept k) -> kept (check_parties buyer agent x ;;; k).
Proof.
  intros Hk. unfold check_parties. apply keeps_assoc, kept_must. intros H1. apply kept_must. intros H2. apply Hk.
  intros p <-. split.
  - intros Ht. rewrite Ht in H1. cbn in H1. apply andb_true_iff in H1 as [_ H1]. by apply bool_decide_eq_true in H1.
  - intros Ht o Ho. rewrite Ht, Ho in H2. cbn in H2. by apply negb_true_iff, bool_decide_eq_false in H2.
Qed.
Lemma kept_submit_sealed a : kept (submit_encrypted master_key hkdf aes_decrypt json_loads cat read_iso a).
Proof.
  unfold submit_encrypted. do 3 (apply kept_must; intros _). apply kept_capture. intros x Hx.
  apply kept_must. intros Ho%negb_true_iff%bool_decide_eq_false. apply kept_must. intros _.
  apply keeps_bind; [apply kept_crypto|intros mac]. apply kept_check. intros _. apply kept_must. intros _.
  apply parties_checked. intros Hp. destruct (str_mem _ _) eqn:Hn.
  { along. eapply P_change; [done|by apply change_attempt]. }
  destruct (_ <=? _)%nat eqn:Hc; [along; eapply P_change; [done|by apply change_status]|].
  apply bool_decide_eq_false in Hn. apply Nat.leb_gt in Hc.
  assert (P (su_id a) (set_attempts (su_nonce a :: used_nonces x) x)) as Hx1 by (eapply P_change; [done|by apply change_nonce]).
  apply keeps_bind; [by apply kept_put_capture|intros _]. along. eapply P_change; [exact Hx1|]. apply change_party; [done|]. by apply Hp.
Qed.
Lemma kept_finalize id : kept (finalize_triple_match master_key hkdf aes_decrypt json_loads read_iso id).
Proof.
  unfold finalize_triple_match. apply kept_capture. intros x Hx. case_bool_decide as Ho; [apply keeps_ret|].
  assert (forall A message, kept (fail_capture (A := A) id x message)) as Hfail.
  { intros A message. unfold fail_capture. along. eapply P_change; [done|by apply change_status]. }
  destruct (cap_buyer x) as [b|] eqn:Eb; [|apply keeps_raise]. destruct (cap_seller x) as [sl|] eqn:Es; [|apply keeps_raise].
  destruct (decrypt (sub_ciphertext b) _ _ _ _) as [fb|] eqn:Db; [|apply Hfail].
  destruct (decrypt (sub_ciphertext sl) _ _ _ _) as [fs|] eqn:Ds; [|apply Hfail].
  destruct (decrypt (cap_ciphertext x) _ _ _ _) as [fp|] eqn:Dp; [|apply Hfail].
  destruct (negb _) eqn:Hd; [apply Hfail|]. apply negb_false_iff, bool_decide_eq_true in Hd.
  destruct (_ && _); [apply Hfail|]. destruct (_ && _) eqn:Hm.
  - apply andb_true_iff in Hm as [H1%bool_decide_eq_true H2%bool_decide_eq_true]. apply keeps_bind; [apply keeps_get|intros s]. along.
    eapply P_change; [done|]. apply change_seal; [done|]. exists b, sl. split_and!; try done; [exists fb|exists fs|exists fp]; split; congruence.
  - assert (P id (set_cap_status COUNTERED x)) as H1 by (eapply P_change; [done|by apply change_status]).
    assert (P id (set_attempts (used_nonces x) (set_cap_status COUNTERED x))) as H2 by (eapply P_change; [exact H1|by apply (change_attempt id (set_cap_status COUNTERED x))]).
    along. destruct (_ <=? _)%nat; [|done]. eapply P_change; [exact H2|by apply change_status].
Qed.

(** A new capture: nothing changes, or it is stored under the identifier that is drawn. *)
Definition captured (a : capture_args) (s : captures) (id : string) (x : ProtocolCapture) : Prop :=
  id = id_of (drawn s) /\ cap_status x = CAPTURED /\ cap_hash x = hash_of (canonical (ca_fields a)) /\ cap_scene x = ca_scene a
  /\ cap_ref x = ca_ref a /\ cap_buyer_agent x = nonempty (ca_buyer a) /\ cap_seller_agent x = nonempty (ca_seller a)
  /\ cap_buyer x = None /\ cap_seller x = None /\ attempt_count x = 0 /\ used_nonces x = [].
Lemma kept_create_capture a s : I s -> (forall id x, captured a s id x -> P id x) ->
  I (run_state (create_protocol_capture token_hex urandom master_key hkdf aes_encrypt cat read_iso a) s).
Proof.
  intros Hs Hnew. pose proof (memory_kept _ Hs) as Hm. destruct (memory_facts s) as (_ & _ & _ & Hd & _).
  unfold create_protocol_capture. match goal with |- I (run_state (py_bind ensure_loaded ?k) s) => change (I (run_state (k tt) (memory s))) end.
  cbv beta. revert Hm. generalize (memory s) as w, Hd. clear Hs. intros w Hw Hs.
  unfold must. destruct (bool_decide _); [|done]. destruct (fields_valid _ _ _ _); [|done]. destruct (negb _); [|done].
  unfold py_require. unfold run_state. unfold py_bind at 1 2 3 4. cbn [py_ret py_get].
  match goal with |- I (fst (?m ?w)) => enough (kept m) as Hk by exact (Hk w Hs) end.
  along. apply Hnew. rewrite Hw. by split_and!.
Qed.
End Kept.

(** ** Invariants of a capture *)

Record sound_capture (id : string) (x : ProtocolCapture) : Prop := SoundCapture {
  matched_agree : cap_status x = MATCHED -> all_agree id x;
  buyer_bound : forall b, cap_buyer x = Some b -> truthy_str (cap_buyer_agent x) = true -> sub_agent b = cap_buyer_agent x;
  seller_bound : forall s, cap_seller x = Some s -> truthy_str (cap_seller_agent x) = true -> sub_agent s = cap_seller_agent x;
  distinct_parties : forall b s, cap_buyer x = Some b -> cap_seller x = Some s -> truthy_str (sub_agent b) = true -> sub_agent b <> sub_agent s;
  nonces_once : NoDup (used_nonces x);
  nonces_counted : length (used_nonces x) <= attempt_count x /\ length (used_nonces x) <= MAX_ATTEMPTS_PER_CAPTURE
}.
Lemma sound_change id x y : sound_capture id x -> change id x y -> sound_capture id y.
Proof.
  intros [H1 H2 H3 H4 H5 [H6 H7]] [st Ho Hst|Ho|nonce Ho Hn Hc|buyer p Ho [Hb Hd]|t Ho Ha].
  - by split.
  - split; try done. cbn. split; [lia|done].
  - split; try done; cbn; [by apply NoDup_cons|lia].
  - split; cbn; try done.
    + destruct buyer; intros b Hp Ht; [injection Hp as <-; by apply Hb|by apply H2].
    + destruct buyer; intros s Hp Ht; [by apply H3|injection Hp as <-; by apply Hb].
    + destruct buyer; intros b s.
      * intros [= <-] Hs Ht E. by apply (Hd Ht s Hs).
      * intros Hb' [= <-] Ht E. cbn in Hd. rewrite <- E in Hd. by apply (Hd Ht b Hb').
  - split; try done.
Qed.
Lemma captured_sound a s id x : captured a s id x -> sound_capture id x.
Proof.
  intros (_ & Hst & _ & _ & _ & _ & _ & Hb & Hs & Ha & Hn). split; rewrite ?Hst, ?Hb, ?Hs, ?Ha, ?Hn; try done; [apply NoDup_nil_2|]. cbn. lia.
Qed.
(** What no request changes. *)
Definition same_capture (x y : ProtocolCapture) : Prop :=
  cap_scene y = cap_scene x /\ cap_ref y = cap_ref x /\ cap_hash y = cap_hash x /\ cap_buyer_agent y = cap_buyer_agent x
  /\ cap_seller_agent y = cap_seller_agent x.
Lemma change_same_capture id x y : change id x y -> same_capture x y.
Proof. by intros []. Qed.

(** ** Runs *)

Lemma capture_step_keeps P I `{!store_inv P I} o s : (forall id x y, P id x -> change id x y -> P id y) -> I s ->
  (forall a id x, o = CreateCapture a -> captured a s id x -> P id x) ->
  (o ∈ [ResetCaptures; RestartCaptures] -> keeps (E := capture_error) I (step o)) -> I (run_state (step o) s).
Proof.
  intros Hc Hs Hnew Hout.
  assert (forall (A : Type) (m : MF A), keeps I m -> I (run_state (silently m) s)) as Hq by (intros A m Hm; by apply (kept_silently I)).
  destruct o; cbn [capture_step].
  - assert (forall (A : Type) (m : MF A), run_state (silently m) s = run_state m s) as ->
      by (intros A m; unfold run_state, silently, py_bind; by destruct (m s) as [? []]).
    apply (kept_create_capture P I); [done|]. intros id x. by apply Hnew.
  - by apply Hq, (kept_get P I).
  - by apply Hq, (kept_key P I).
  - by apply Hq, (kept_encrypt P I).
  - by apply Hq, (kept_submit_sealed P I).
  - by apply Hq, (kept_finalize P I).
  - by apply Hq, (kept_matched P I).
  - apply Hout; [set_solver|done].
  - apply Hout; [set_solver|done].
  - by apply (inv_disk (P := P)).
  - by apply (inv_pass (P := P)).
Qed.
Abbreviation start := (empty_store (V := ProtocolCapture)).
Lemma captures_snoc ops o s : run (ops ++ [o]) s = run_state (step o) (run ops s).
Proof. apply fold_left_app. Qed.
Lemma step_everywhere P n o s : (forall id x y, P id x -> change id x y -> P id y) -> everywhere P n s ->
  (forall a id x, o = CreateCapture a -> captured a s id x -> P id x) -> everywhere P n (run_state (step o) s).
Proof.
  intros Hc Hs Hnew. apply (capture_step_keeps P (everywhere P n)); try done. intros Ho.
  repeat (apply elem_of_cons in Ho as [->|Ho]); [apply kept_clear|apply kept_restart|by apply not_elem_of_nil in Ho].
Qed.
(** The request a capture was made by. *)
Definition made_by (t : datetime) (ops : list capture_op) (id : string) (x : ProtocolCapture) : Prop :=
  exists ops1 a ops2, ops = (ops1 ++ CreateCapture a :: ops2)%list
    /\ id = id_of (drawn (run ops1 (start t))) /\ cap_scene x = ca_scene a /\ cap_ref x = ca_ref a
    /\ cap_hash x = hash_of (canonical (ca_fields a)) /\ cap_buyer_agent x = nonempty (ca_buyer a) /\ cap_seller_agent x = nonempty (ca_seller a).
Definition good (t : datetime) (ops : list capture_op) (id : string) (x : ProtocolCapture) : Prop := sound_capture id x /\ made_by t ops id x.
Lemma captures_good t ops : everywhere (good t ops) 0 (run ops (start t)).
Proof.
  induction ops as [|o ops IH] using rev_ind; [apply empty_everywhere|]. rewrite captures_snoc. apply step_everywhere.
  - intros id x y [Hs (ops1 & a & ops2 & E & Hid & H1 & H2 & H3 & H4 & H5)] Hc. split; [by eapply sound_change|].
    destruct (change_same_capture _ _ _ Hc) as (E1 & E2 & E3 & E4 & E5). exists ops1, a, ops2. split_and!; try done; congruence.
  - eapply everywhere_mono; [|exact IH]. intros id x [Hs (ops1 & a & ops2 & -> & H)]. split; [done|]. exists ops1, a, (ops2 ++ [o])%list.
    split; [by rewrite <- app_assoc|done].
  - intros a id x -> Hc. split; [by eapply captured_sound|]. exists ops, a, [].
    destruct Hc as (H1 & _ & H2 & H3 & H4 & H5 & H6 & _). split_and!; try done.
Qed.
Lemma truthy_nonempty o : truthy_str o = true -> nonempty o = o.
Proof. unfold nonempty. by intros ->. Qed.

(** C17. A match means agreement.  Whatever requests, restarts and failed writes there
    were, for a capture that is matched, in memory or in the file, the sealed copies of
    buyer and seller open to fields that are, in canonical form, those that the request
    for the capture locked, unless the very texts hashed collide under SHA-256; and where
    agents are named they are those the capture was bound to, and not one for both
    ([one_for_both] is a capture that names nobody). *)
Theorem matched_means_agreed t ops id x (s := run ops (start t)) :
  (id, x) ∈ live s \/ (exists d, file s = Some d /\ (id, x) ∈ d) -> cap_status x = MATCHED ->
  exists ops1 a ops2, ops = (ops1 ++ CreateCapture a :: ops2)%list
    /\ id = id_of (drawn (run ops1 (start t))) /\ cap_scene x = ca_scene a /\ cap_ref x = ca_ref a
    /\ exists b sl fb fs, cap_buyer x = Some b /\ cap_seller x = Some sl
       /\ decrypt (sub_ciphertext b) id (cap_scene x) "buyer" (cap_hash x) = Some fb
       /\ decrypt (sub_ciphertext sl) id (cap_scene x) "seller" (cap_hash x) = Some fs
       /\ (truthy_str (ca_buyer a) = true -> sub_agent b = ca_buyer a)
       /\ (truthy_str (ca_seller a) = true -> sub_agent sl = ca_seller a)
       /\ (truthy_str (sub_agent b) = true -> sub_agent b <> sub_agent sl)
       /\ let locked := canonical (ca_fields a) in
          (same_fields read_iso (canonical fb) locked \/ sha256_collides (hashed_text read_iso (canonical fb)) (hashed_text read_iso locked))
          /\ (same_fields read_iso (canonical fs) locked \/ sha256_collides (hashed_text read_iso (canonical fs)) (hashed_text read_iso locked)).
Proof.
  intros Hin Hm. pose proof (captures_good t ops) as Hg. fold s in Hg.
  assert (good t ops id x) as [Hs (ops1 & a & ops2 & E & Hid & H1 & H2 & H3 & H4 & H5)]
    by (destruct Hin as [H|(d & Hf & H)]; [by apply Hg|by eapply in_file]).
  destruct (matched_agree _ _ Hs Hm) as (b & sl & Hb & Hsl & (fb & Db & Eb) & (fs & Ds & Es) & _).
  exists ops1, a, ops2. split; [done|]. split; [done|]. split; [done|]. split; [done|]. exists b, sl, fb, fs. cbv zeta. split_and!; try done.
  - intros Ht. rewrite <- (truthy_nonempty _ Ht), <- H4. eapply buyer_bound; [done..|]. by rewrite H4, truthy_nonempty.
  - intros Ht. rewrite <- (truthy_nonempty _ Ht), <- H5. eapply seller_bound; [done..|]. by rewrite H5, truthy_nonempty.
  - by eapply distinct_parties.
  - apply fields_hash_binds. congruence.
  - apply fields_hash_binds. congruence.
Qed.

(** ** Identifiers are drawn once *)

Lemma create_draws a s (m := create_protocol_capture token_hex urandom master_key hkdf aes_encrypt cat read_iso a) :
  run_state m s = memory s \/ S (drawn s) <= drawn (run_state m s).
Proof.
  subst m. destruct (memory_facts s) as (_ & _ & _ & Hd & _). unfold create_protocol_capture, run_state.
  match goal with |- fst (py_bind ensure_loaded ?k s) = _ \/ _ => change (py_bind ensure_loaded k s) with (k tt (memory s)) end. cbv beta.
  rewrite <- Hd. generalize (memory s) as w. intros w.
  unfold must. destruct (bool_decide _); [|by left]. destruct (fields_valid _ _ _ _); [|by left]. destruct (negb _); [|by left]. right.
  unfold py_require. unfold py_bind at 1 2 3 4 5. cbn [py_ret py_get py_modify].
  match goal with |- _ <= drawn (fst (?m ?w')) => enough (keeps (E := capture_error) (fun s => S (drawn w) <= drawn s) m) as Hk by (apply (Hk w'); cbn; lia) end.
  assert (forall A (o : option A), keeps (E := capture_error) (fun s => S (drawn w) <= drawn s) (crypto o)) as Hc
    by (intros A o; destruct o; [apply keeps_ret|apply keeps_raise]).
  apply keeps_bind; [apply Hc|intros c]. apply keeps_bind; [apply keeps_modify; cbn; lia|intros _]. apply keeps_bind; [apply Hc|intros mac].
  apply keeps_bind; [by apply keeps_modify|intros _]. apply keeps_bind; [|intros _; apply keeps_ret].
  intros x Hx. unfold run_state, persist_captures, persist, py_bind. cbn. by destruct (disk x).
Qed.
Definition drawn_before (n : nat) (id : string) (x : ProtocolCapture) : Prop := exists m, id = id_of m /\ m < n.
Lemma ids_drawn t ops : everywhere (drawn_before (drawn (run ops (start t)))) (drawn (run ops (start t))) (run ops (start t)).
Proof.
  induction ops as [|o ops IH] using rev_ind; [apply empty_everywhere|]. rewrite captures_snoc. set (s := run ops (start t)) in *.
  assert (forall N, drawn s <= N -> (forall a, o = CreateCapture a -> drawn s < N) -> everywhere (drawn_before N) (drawn s) (run_state (step o) s)) as Hgo.
  { intros N HN Hnew. apply step_everywhere; [done| |].
    - eapply everywhere_mono; [|exact IH]. intros id x (m & -> & Hm). exists m. split; [done|lia].
    - intros a id x Ho (Hid & _). exists (drawn s). split; [done|by eapply Hnew]. }
  assert (forall N, everywhere (drawn_before N) (drawn s) (run_state (step o) s) -> N <= drawn (run_state (step o) s) ->
    everywhere (drawn_before (drawn (run_state (step o) s))) (drawn (run_state (step o) s)) (run_state (step o) s)) as Hup.
  { intros N [Hl Hf Hk Hk' Hn] HN. assert (forall id x, drawn_before N id x -> drawn_before (drawn (run_state (step o) s)) id x) as Hm
      by (intros id x (m & -> & Hm); exists m; split; [done|lia]). split; try done; eauto. }
  destruct o as [a|id|id role|id fs role|a|id|id sc ref m| | |d|us]; try (apply (Hup (drawn s)); [by apply Hgo|eapply drawn_so_far, Hgo; [done|discriminate]]).
  assert (run_state (step (CreateCapture a)) s = run_state (create_protocol_capture token_hex urandom master_key hkdf aes_encrypt cat read_iso a) s) as E
    by (cbn [capture_step]; unfold silently, run_state, py_bind; by destruct (create_protocol_capture _ _ _ _ _ _ _ _ s) as [? []]).
  destruct (create_draws a s) as [H|H].
  - rewrite E, H. destruct (memory_facts s) as (_ & _ & _ & Hd & _). rewrite Hd. by apply memory_kept.
  - apply (Hup (S (drawn s))); [apply Hgo; [lia|intros; lia]|by rewrite E].
Qed.

Lemma fresh_id id n x y a s : Inj (=) (=) token_hex -> drawn_before n id y -> n <= drawn s -> captured a s id x -> False.
Proof.
  intros Hinj (m & -> & Hm) Hn (Hid & _). unfold capture_id_of in Hid. injection Hid as Hid. apply (inj token_hex) in Hid. lia.
Qed.

(** C18. A match is sealed: no request of anybody, passing time or failing disk changes
    any part of a matched capture while the process lives and is not told to forget. *)
Theorem match_sealed t ops id x ops' : Inj (=) (=) token_hex ->
  loaded (run ops (start t)) = true -> dict_get id (live (run ops (start t))) = Some x -> cap_status x = MATCHED ->
  Forall (fun o => o ∉ [ResetCaptures; RestartCaptures]) ops' ->
  dict_get id (live (run ops' (run ops (start t)))) = Some x.
Proof.
  intros Hinj Hl Hx Hm Hops. pose proof (ids_drawn t ops) as Hd. set (s := run ops (start t)) in *.
  assert (drawn_before (drawn s) id x) as Hid by (apply Hd; by apply get_in).
  assert (holds id x (drawn s) s) as Hs by (split; [done|apply Hd|done|done]). clearbody s. clear Hd Hl Hx.
  apply (held_entry id x (drawn s)). revert Hs. generalize (drawn s) as n, Hid. clear Hid. intros n Hid. revert s.
  induction Hops as [|o ops' Ho Hops IH]; intros w Hw; [done|]. apply IH.
  apply (capture_step_keeps (fun k y => k = id -> y = x) (holds id x n)); try done.
  - intros k y z Hy Hc ->. rewrite Hy in Hc by done. destruct Hc; done.
  - intros a k y _ Hc ->. exfalso. eapply fresh_id; [done|exact Hid|apply Hw|exact Hc].
Qed.

(** ** Submissions that are accepted *)

Lemma bind_must {B} b message (k : unit -> MF B) s s' r : py_bind (must b message) k s = (s', Ret r) -> b = true /\ k tt s = (s', Ret r).
Proof. by destruct b. Qed.
Lemma get_ret id s s' x : get_capture id s = (s', Ret x) -> s' = memory s /\ dict_get id (live (memory s)) = Some x.
Proof.
  unfold get_capture. intros (u & s1 & [= <- <-] & H)%bind_ret. apply bind_ret in H as (y & s2 & Hl & H).
  unfold lookup_or, py_bind in Hl. cbn in Hl. destruct (dict_get id _) as [y'|]; [|done]. injection Hl as <- <-.
  apply bind_ret in H as (w & s3 & [= <- <-] & H). destruct (_ && _); [done|]. by injection H as <- <-.
Qed.
Lemma store_ret {A} id (x : ProtocolCapture) (m : MF A) s s' r : (put id x ;;; persist_captures ;;; m) s = (s', Ret r) ->
  let d := dict_set id x (live s) in m (set_file (Some d) (set_live d s)) = (s', Ret r).
Proof. unfold put, persist_captures, persist, py_bind. cbn. by destruct (disk s). Qed.
Lemma no_capture {A B} (m : MF B) message s s' r : (m ;;; refuse_capture (A := A) message) s <> (s', Ret r).
Proof. unfold py_bind. by destruct (m s) as [? []]. Qed.
Lemma sealed_submit_ret a s s' y : submit_encrypted master_key hkdf aes_decrypt json_loads cat read_iso a s = (s', Ret y) ->
  exists x, dict_get (su_id a) (live (memory s)) = Some x /\ su_nonce a ∉ used_nonces x /\ su_nonce a ∈ used_nonces y
    /\ (exists z, live s' = dict_set (su_id a) y (dict_set (su_id a) z (live (memory s)))) /\ file s' = Some (live s') /\ drawn s' = drawn s.
Proof.
  unfold submit_encrypted. do 3 (intros [_ H]%bind_must; revert H). intros (x & s1 & [-> Hx]%get_ret & H)%bind_ret.
  destruct (memory_facts s) as (_ & _ & _ & Hd & _). exists x. split; [done|]. rewrite <- Hd. clear Hd Hx. revert H. generalize (memory s) as w. intros w.
  intros [_ H]%bind_must. apply bind_must in H as [_ H]. apply bind_ret in H as (mac & s2 & Hc & H).
  assert (s2 = w) as -> by (unfold crypto in Hc; destruct (protocol_mac _ _ _) in Hc; [by injection Hc|done]). clear Hc.
  unfold py_require in H. destruct (py_isascii _); [|done]. change (py_bind (py_ret tt) ?k w) with (k tt w) in H. cbv beta in H.
  apply bind_must in H as [_ H]. apply bind_ret in H as (u & s2 & Hp & H).
  assert (s2 = w) as -> by (unfold check_parties in Hp; apply bind_must in Hp as [_ Hp]; unfold must, py_require in Hp; by destruct (negb _); injection Hp).
  clear Hp. destruct (str_mem _ _) eqn:Hn.
  { by apply store_ret in H. }
  destruct (_ <=? _)%nat; [by apply store_ret in H|]. apply bool_decide_eq_false in Hn. split; [done|].
  change (py_bind (put ?i ?x) ?k w) with (k tt (set_live (dict_set i x (live w)) w)) in H. cbv beta in H.
  destruct (decrypt_canonical_fields _ _ _ _ _ _ _ _ _) as [fs|]; [|by apply no_capture in H].
  destruct (negb _); [by apply no_capture in H|]. apply bind_ret in H as (s3 & s4 & [= <- <-] & H).
  apply store_ret in H. injection H as <- <-. cbn. split; [by left|]. split; [by eexists|done].
Qed.

(** A submission is accepted once: a later one for the same capture with the same
    nonce is refused, whatever comes in between, restarts and failing disks included. *)
Theorem nonce_used_once t ops a s' y ops' b s'' z : Inj (=) (=) token_hex ->
  submit_encrypted master_key hkdf aes_decrypt json_loads cat read_iso a (run ops (start t)) = (s', Ret y) ->
  su_id b = su_id a -> su_nonce b = su_nonce a ->
  submit_encrypted master_key hkdf aes_decrypt json_loads cat read_iso b (run ops' s') <> (s'', Ret z).
Proof.
  intros Hinj Ha Hid Hn Hb. pose proof (ids_drawn t ops) as Hd. set (s := run ops (start t)) in *.
  apply sealed_submit_ret in Ha as (x & Hx & _ & Hy & (w & Hlive) & Hfile & Hdr). set (P := fun k c => k = su_id a -> su_nonce a ∈ used_nonces c).
  assert (drawn_before (drawn s) (su_id a) x) as Hold.
  { pose proof (memory_kept _ Hd) as Hm. by apply (in_memory _ _ _ Hm), get_in. }
  assert (forall k c, (k, c) ∈ live s' -> P k c) as Hall.
  { rewrite Hlive. intros k c Hc ->. apply put_once in Hc as ->; [done|]. apply put_keys, (live_once _ _ _ (memory_kept _ Hd)). }
  assert (NoDup (map fst (live s'))) as Hk by (rewrite Hlive; apply put_keys, put_keys, (live_once _ _ _ (memory_kept _ Hd))).
  assert (everywhere P (drawn s) s') as Hs.
  { split; [done| |done| |lia]; rewrite Hfile; [intros d k c [= <-]; apply Hall|by intros d [= <-]]. }
  assert (everywhere P (drawn s) (run ops' s')) as Hs'.
  { clear - Hs Hold Hinj. revert s' Hs. induction ops' as [|o ops' IH]; intros s' Hs; [done|]. apply IH, step_everywhere; [|done|].
    - intros k c c' Hc Hch ->. specialize (Hc eq_refl). destruct Hch; try done. cbn. by right.
    - intros e k c _ Hcap ->. exfalso. eapply fresh_id; [done|exact Hold|apply Hs|exact Hcap]. }
  apply sealed_submit_ret in Hb as (x' & Hx' & Hnew & _). rewrite Hid, Hn in *. apply Hnew.
  apply (in_memory _ _ _ (memory_kept _ Hs') (su_id a)); [by apply get_in|done].
Qed.

(** C19. What is sealed for a capture, scene, role and hash opens for them, to the
    canonical form of the fields. *)
Theorem seal_opens fs n id scene role hash c : (forall k nonce text aad, aes_decrypt k nonce (aes_encrypt k nonce text aad) aad = Some text) ->
  (forall k nonce text aad, Forall byte_ok text -> Forall byte_ok (aes_encrypt k nonce text aad) /\ length (aes_encrypt k nonce text aad) = length text + 16) ->
  Forall byte_ok (urandom n) -> length (urandom n) = 12 ->
  let sealed := canon (canonicalize read_iso "" (JObj (strip_for_hash fs))) in
  json_loads (hashed_text read_iso fs) = Some sealed ->
  encrypt_canonical_fields urandom master_key hkdf aes_encrypt read_iso n fs id scene role hash = Some c ->
  exists gs, decrypt c id scene role hash = Some gs /\ sealed = JObj gs.
Proof.
  intros Haes Hlen Hr Hrl sealed Hj Hc. unfold encrypt_canonical_fields in Hc.
  destruct (capture_session_key master_key hkdf id role) as [key|] eqn:Hk; [|done].
  apply (inj Some) in Hc as <-.
  unfold decrypt_canonical_fields. change (after_prefix PREFIX_V2 (PREFIX_V2 ++ ?b)) with (Some b).
  unfold open_envelope. rewrite Hk. destruct (Hlen key (urandom n) (utf8 (canonical_json read_iso fs)) (build_aad id scene role hash)) as [Hok Hl]; [apply utf8_ok|].
  rewrite urlsafe_roundtrip by (by apply Forall_app). rewrite length_app, Hrl, Hl.
  replace (12 + (length (utf8 (canonical_json read_iso fs)) + 16) <? 12 + 16)%nat with false by (symmetry; apply Nat.ltb_ge; lia).
  rewrite take_app_length' by done. rewrite drop_app_length' by done. rewrite Haes.
  unfold parse_fields_json. fold (hashed_text read_iso fs). rewrite Hj. unfold sealed. cbn. by eexists.
Qed.
End Captures.

(** ** Witnesses *)

Definition counted (n : nat) : string := Nat.iter n (String "a"%char) "".
#[local] Instance counted_inj : Inj (=) (=) counted.
Proof. intros n. induction n as [|n IH]; intros [|m] H; try done. injection H as H. f_equal. by apply IH. Qed.
Definition random_bytes (n : nat) : bytes := repeat (Z.of_nat n mod 256)%Z 12.
Definition a_key : option bytes := Some (utf8 "master").
Definition derive (k info : bytes) : bytes := (k ++ info)%list.
Definition seal_with (k nonce text aad : bytes) : bytes := (text ++ repeat 0%Z 16)%list.
Definition open_with (k nonce ct aad : bytes) : option bytes := Some (take (length ct - 16) ct).
Definition never_iso (s : string) : option datetime := None.
Definition api_scenes : if_catalog :=
  IfCatalog [("amount", FieldSpec (Some "string") None None None None None None Unsaid)] [("api_tool_call", IfScene [] [])] [].
Definition deal : fields_dict := [("amount", JStr "12.50"); ("note", JStr " ten calls ")].
Definition deal_sealed : fields_dict := [("amount", JStr "12.5"); ("note", JStr "ten calls")].
Definition loads (b : bytes) : option json :=
  if bool_decide (b = hashed_text never_iso deal) then Some (JObj deal_sealed) else None.
Abbreviation on_requests := (capture_run counted random_bytes a_key derive seal_with open_with loads api_scenes never_iso).
Abbreviation submits := (submit_encrypted a_key derive open_with loads api_scenes never_iso).
Abbreviation no_captures := (empty_store (V := ProtocolCapture) 0%Z).

Definition capture_it (buyer seller : option string) : capture_op :=
  CreateCapture (CaptureArgs "api_tool_call" deal "deal-1" 3600 buyer seller).
Definition envelope : string := Eval vm_compute in
  PREFIX_V2 ++ b64_encode (random_bytes 1 ++ seal_with [] [] (hashed_text never_iso deal) []).
Definition sends (role nonce : string) (agent : option string) : submit_args := SubmitArgs "cap_" role envelope nonce agent.
Definition agreed : list capture_op :=
  [capture_it (Some "ann") (Some "shop"); SubmitSealed (sends "Buyer" "nonce-of-ann" (Some "ann")); CapturePass 1000000;
   SubmitSealed (sends "seller" "nonce-of-shop" (Some "shop")); Finalize "cap_"].
Definition matched_capture : option ProtocolCapture := dict_get "cap_" (live (on_requests agreed no_captures)).

Lemma matched_means_agreed_witness : exists x, dict_get "cap_" (default [] (file (on_requests agreed no_captures))) = Some x
  /\ cap_status x = MATCHED /\ exists ops1 a ops2, agreed = (ops1 ++ CreateCapture a :: ops2)%list /\ cap_ref x = ca_ref a.
Proof.
  destruct (dict_get "cap_" (default [] (file (on_requests agreed no_captures)))) as [x|] eqn:E; [|vm_compute in E; discriminate].
  exists x. split; [reflexivity|]. assert (cap_status x = MATCHED) as Hm by (vm_compute in E; injection E as <-; reflexivity). split; [done|].
  destruct (matched_means_agreed counted random_bytes a_key derive seal_with open_with loads api_scenes never_iso 0 agreed "cap_" x) as (ops1 & a & ops2 & H & _ & _ & Hr & _).
  - right. destruct (file (on_requests agreed no_captures)) as [d|]; [|done]. exists d. split; [done|]. by apply get_in.
  - exact Hm.
  - exists ops1, a, ops2. split; [exact H|exact Hr].
Defined.

Definition later : list capture_op :=
  [SubmitSealed (sends "buyer" "another-nonce" (Some "ann")); CaptureDisk Full; CapturePass 7200000000; Finalize "cap_"; GetCapture "cap_"].
Lemma match_sealed_witness : exists x, dict_get "cap_" (live (on_requests agreed no_captures)) = Some x
  /\ dict_get "cap_" (live (on_requests later (on_requests agreed no_captures))) = Some x.
Proof.
  destruct (dict_get "cap_" (live (on_requests agreed no_captures))) as [x|] eqn:E; [|vm_compute in E; discriminate].
  exists x. split; [reflexivity|].
  apply (match_sealed counted random_bytes a_key derive seal_with open_with loads api_scenes never_iso 0 agreed "cap_" x later counted_inj).
  - by vm_compute.
  - exact E.
  - vm_compute in E. injection E as <-. reflexivity.
  - repeat constructor; by intros H; repeat (apply elem_of_cons in H as [H|H]; [discriminate|]); apply not_elem_of_nil in H.
Defined.

Lemma nonce_used_once_witness : exists s' y,
  submits (sends "buyer" "nonce-of-ann" (Some "ann")) (on_requests [capture_it None None] no_captures) = (s', Ret y)
  /\ forall s'' z, submits (sends "seller" "nonce-of-ann" (Some "shop")) (on_requests [RestartCaptures] s') <> (s'', Ret z).
Proof.
  destruct (submits (sends "buyer" "nonce-of-ann" (Some "ann")) (on_requests [capture_it None None] no_captures)) as [s' [y|e]] eqn:E;
    [|vm_compute in E; discriminate].
  exists s', y. split; [reflexivity|]. intros s'' z.
  apply (nonce_used_once counted random_bytes a_key derive seal_with open_with loads api_scenes never_iso 0 [capture_it None None] (sends "buyer" "nonce-of-ann" (Some "ann")) s' y
    [RestartCaptures] (sends "seller" "nonce-of-ann" (Some "shop")) s'' z counted_inj E); reflexivity.
Defined.

Lemma seal_opens_witness : exists c gs,
  encrypt_canonical_fields random_bytes a_key derive seal_with never_iso 1 deal "cap_" "api_tool_call" "buyer" "hash" = Some c
  /\ decrypt_canonical_fields a_key derive open_with loads c "cap_" "api_tool_call" "buyer" "hash" = Some gs.
Proof.
  destruct (encrypt_canonical_fields random_bytes a_key derive seal_with never_iso 1 deal "cap_" "api_tool_call" "buyer" "hash") as [c|] eqn:E;
    [|vm_compute in E; discriminate].
  destruct (seal_opens random_bytes a_key derive seal_with open_with loads never_iso deal 1 "cap_" "api_tool_call" "buyer" "hash" c) as (gs & Hg & _).
  - intros k nonce text aad. unfold open_with, seal_with. rewrite length_app, repeat_length, Nat.add_sub. by rewrite take_app_length.
  - intros k nonce text aad H. unfold seal_with. rewrite length_app, repeat_length. split; [|done]. apply Forall_app. split; [done|].
    apply Forall_forall. intros z Hz%list_elem_of_In%repeat_spec. by subst.
  - apply Forall_forall. intros z Hz%list_elem_of_In%repeat_spec. by subst.
  - done.
  - unfold loads. rewrite bool_decide_true by done. by vm_compute.
  - exact E.
  - exists c, gs. split; [reflexivity|exact Hg].
Defined.

(** ** Where code and words part *)

Definition status_of (ops : list capture_op) : option capture_status := cap_status <$> dict_get "cap_" (live (on_requests ops no_captures)).
(** Code: a capture that failed because its attempts ran out is matched all the same. *)
Definition noise (nonce : string) : capture_op := SubmitSealed (SubmitArgs "cap_" "buyer" "karma2.AAAA" nonce (Some "ann")).
Definition worn_out : list capture_op :=
  (take 4 agreed ++ map noise ["nonce--1"; "nonce--2"; "nonce--3"; "nonce--4"; "nonce--5"; "nonce--6"; "nonce--7"])%list.
Lemma failed_then_matched : status_of worn_out = Some FAILED /\ status_of (worn_out ++ [Finalize "cap_"]) = Some MATCHED.
Proof. vm_compute. by split. Qed.

(** Code: without agents' names one party may speak for both. *)
Lemma one_for_both :
  status_of [capture_it None None; SubmitSealed (sends "buyer" "nonce--1" None); SubmitSealed (sends "seller" "nonce--2" None); Finalize "cap_"] = Some MATCHED.
Proof. vm_compute. reflexivity. Qed.

(** Code: amounts of more than 28 digits are rounded before they are hashed, so that two
    different amounts match. *)
Lemma long_amounts_match :
  fields_hash never_iso [("amount", JStr "10000000000000000000000000000.1")] = fields_hash never_iso [("amount", JStr "10000000000000000000000000000.4")].
Proof. vm_compute. reflexivity. Qed.

(** Code: the legacy envelope, which submissions may use too, is bound to no role. *)
Lemma legacy_not_role_bound key kdf dec load body id scene hash :
  decrypt_canonical_fields key kdf dec load (PREFIX_V1 ++ body) id scene "buyer" hash
  = decrypt_canonical_fields key kdf dec load (PREFIX_V1 ++ body) id scene "seller" hash.
Proof. reflexivity. Qed.
