(* ===== verification/AgentBoundary.v ===== *)
(** * The boundary of an agent

    [services/agent_boundary.py] and [services/agent_boundary_verify.py]: the card in
    which an agent says what it does, what it answers for and what it asks its owner
    about, how the card is built and stored, and how it is checked before an order, with
    [boundary_content_hash] of [services/agent_p1_readiness.py] and, from
    [services/human_confirmation_policy.py], [plan_confirmations] and the scene of a
    task.  The catalogue of confirmations and the industries of the onboarding catalogue
    are parameters, as are the texts whose characters are outside the set of the model:
    the default note, the wide semicolon and the Chinese markers of a refusal.  Titles,
    efficiency notes, links and the details of a verification are left out.  A card has all
    its parts, as those that [materialize_agent_boundary] builds, the only ones the routes
    store; an empty [confirmation_boundary] is not modelled.  Cards live in a dict and a
    file, as in [PyStore]. *)

From S2P Require Import Prelude PyBytes PyJson PyDatetime PyRepr PyHoare PyStore Confirmations.
#[local] Open Scope string_scope.
#[local] Open Scope py_scope.

(** The gaps of a [BoundaryVerifyError]; of an [AgentBoundaryError] the steps at issue. *)
Inductive boundary_error : Type :=
| AgentBoundaryError (issues : list string)
| BoundaryVerifyError (gaps : list string)
| ConfirmationPolicyError
| OSError.

(** ** Cards *)

Record capability_boundary := Capability {
  cb_capabilities : list string;
  cb_summary : json;
  cb_specs : list (string * json);
  cb_do_not : string;
  cb_area : json;
  cb_hours : json;
  cb_targets : json;
  cb_currency : json
}.
Record responsibility_boundary := Responsibility {
  rb_owner : string;
  rb_acknowledged : bool;
  rb_id : string;
  rb_delegation : bool;
  rb_compliance : list (string * json);
  rb_side : json;
  rb_notes : string
}.
Record confirmation_boundary := Confirmation {
  cf_role : string;
  cf_primary : string;
  cf_scenes : list string;
  cf_must : list string;
  cf_auto : list string;
  cf_policy_auto : list string
}.
Record agent_boundary := Boundary {
  b_schema : string;
  b_agent : string;
  b_name : option string;
  b_profile : option string;
  b_role : string;
  b_scenes : list string;
  b_complete : bool;
  b_gaps : list string;
  b_capability : capability_boundary;
  b_responsibility : responsibility_boundary;
  b_confirmation : confirmation_boundary
}.
Definition with_confirmation (c : confirmation_boundary) (b : agent_boundary) : agent_boundary :=
  Boundary (b_schema b) (b_agent b) (b_name b) (b_profile b) (b_role b) (b_scenes b) (b_complete b) (b_gaps b) (b_capability b)
    (b_responsibility b) c.
Definition assessed_as (agent : string) (r : bool * list string) (b : agent_boundary) : agent_boundary :=
  Boundary (b_schema b) agent (b_name b) (b_profile b) (b_role b) (b_scenes b) r.1 r.2 (b_capability b)
    (b_responsibility b) (b_confirmation b).

(** What of a profile card goes into a boundary; a missing entry is [JNull] or empty. *)
Record profile_card := ProfileCard {
  pc_industries : list string;
  pc_interest : list string;
  pc_summary : json;
  pc_specs : list (string * json);
  pc_boundaries : json;
  pc_area : json;
  pc_hours : json;
  pc_targets : json;
  pc_currency : json;
  pc_compliance : list (string * json);
  pc_side : json;
  pc_profile : option string
}.
Definition no_card : profile_card := ProfileCard [] [] JNull [] JNull JNull JNull JNull JNull [] JNull None.

Abbreviation boundaries := (store agent_boundary).
Abbreviation MB := (M boundaries boundary_error).
Definition SCHEMA : string := "karma-agent-boundary-v1".

(** ** Python on the values of a card *)

Definition jor (x d : json) : json := if jtruthy x then x else d.
Definition jtext (o : option string) : json := match o with Some s => JStr s | None => JNull end.
(** [repr] and [str] of a JSON value. *)
Fixpoint json_repr (j : json) : string :=
  match j with
  | JNull => "None"
  | JBool b => if b then "True" else "False"
  | JInt z => py_str_int z
  | JStr s => repr_str s
  | JList l => "[" ++ join ", " (map json_repr l) ++ "]"
  | JObj fs => "{" ++ join ", " (map (fun kv => repr_str kv.1 ++ ": " ++ json_repr kv.2) fs) ++ "}"
  end.
Definition json_text (j : json) : string := match j with JStr s => s | _ => json_repr j end.
Definition or_text (o : option string) (d : string) : string := if truthy_str o then default "" o else d.
Definition lowered (o : option string) : string := py_lower (or_text o "").
Definition or_list {A} (l d : list A) : list A := match l with [] => d | _ => l end.
Definition not_in (l l' : list string) : list string := List.filter (fun x => negb (str_mem x l')) l.
Definition both_in (l l' : list string) : list string := List.filter (fun x => str_mem x l') l.

(** ** The scene of a task *)

Definition TASK_TYPE_TO_SCENE : list (string * string) :=
  [("commerce.food", "food_delivery"); ("commerce.ride", "ride_hailing"); ("commerce.hotel", "hotel_booking");
   ("commerce.flight", "flight_booking"); ("commerce.procurement", "b2b_procurement"); ("b2b.procurement", "b2b_procurement");
   ("api.translate", "api_tool_call"); ("api.caption", "api_tool_call"); ("api.labeling", "api_tool_call");
   ("api.generic", "api_tool_call"); ("api.data", "data_api_billing"); ("data.api", "data_api_billing");
   ("logistics", "logistics_delivery"); ("software", "software_development"); ("design", "design_creative");
   ("consulting", "consulting_advisory"); ("content", "content_creation"); ("manufacturing", "manufacturing");
   ("real_estate", "real_estate_services"); ("finance", "financial_services"); ("financial", "financial_services");
   ("marketing", "marketing_advertising"); ("education", "education_training"); ("healthcare", "healthcare_medical");
   ("medical", "healthcare_medical")].
(** The tests in their order: prefixes, then words in the text.  The Chinese words among
    them do not occur in texts of the model. *)
Definition TASK_WORDS : list (list string * list string * string) :=
  [(["commerce.food"], ["food"], "food_delivery"); (["commerce.ride"], ["ride"], "ride_hailing");
   (["commerce.hotel"], ["hotel"], "hotel_booking"); (["commerce.flight"], ["flight"], "flight_booking");
   ([], ["procure"; "b2b"], "b2b_procurement"); ([], ["financ"], "financial_services");
   ([], ["health"; "medical"], "healthcare_medical"); ([], ["manufactur"], "manufacturing");
   ([], ["real_estate"], "real_estate_services"); ([], ["consult"], "consulting_advisory"); ([], ["design"], "design_creative");
   ([], ["market"], "marketing_advertising"); ([], ["educat"], "education_training"); ([], ["content"], "content_creation");
   (["api."], ["mcp"; "tool"], "api_tool_call"); ([], ["data"], "data_api_billing");
   ([], ["logistic"; "delivery"], "logistics_delivery"); ([], ["software"; "dev"], "software_development")].
Definition CAP_TO_SCENE : list (string * string) :=
  [("order_food", "food_delivery"); ("food_delivery", "food_delivery"); ("book_ride", "ride_hailing");
   ("ride_hailing", "ride_hailing"); ("book_hotel", "hotel_booking"); ("hotel_booking", "hotel_booking");
   ("book_flight", "flight_booking"); ("flight_booking", "flight_booking"); ("b2b_procurement", "b2b_procurement");
   ("data_api_billing", "data_api_billing"); ("api_tool_call", "api_tool_call"); ("api.translate", "api_tool_call");
   ("api.caption", "api_tool_call"); ("api.labeling", "api_tool_call"); ("logistics_delivery", "logistics_delivery");
   ("software_development", "software_development"); ("design_creative", "design_creative");
   ("consulting_advisory", "consulting_advisory"); ("content_creation", "content_creation"); ("manufacturing", "manufacturing");
   ("real_estate_services", "real_estate_services"); ("financial_services", "financial_services");
   ("marketing_advertising", "marketing_advertising"); ("education_training", "education_training");
   ("healthcare_medical", "healthcare_medical")].

(** What the code reads from its catalogues and texts: the steps of a trade, the texts
    outside the character set (the default note, the wide semicolon, the markers of a
    refusal) and whether the onboarding catalogue has an industry. *)
Record boundary_catalog := BoundaryCatalog {
  lifecycle_steps : list string;
  default_notes : string;
  wide_semicolon : string;
  chinese_markers : list string;
  industry_known : string -> bool
}.

Section Boundaries.
Context (cat : catalog) (standard : boundary_catalog).

Definition task_type_to_scene_id (task_type : option string) : string :=
  let tt := py_lower (py_strip (or_text task_type "")) in
  if str_eqb tt "" then "api_tool_call"
  else match assoc tt TASK_TYPE_TO_SCENE with
  | Some s => s
  | None =>
      match List.find (fun r => existsb (fun p => starts_with p tt) r.1.1 || existsb (fun w => str_in w tt) r.1.2) TASK_WORDS with
      | Some r => r.2
      | None => if bool_decide (is_Some (get_scene cat tt)) then tt else "api_tool_call"
      end
  end.

(** A capability names a scene after [industry:], by the table, or as a kind of trade. *)
Definition scene_of_capability (c : string) : string :=
  let raw := py_strip c in
  match after_prefix "industry:" raw with
  | Some s => s
  | None =>
      match mode_in raw CAP_TO_SCENE with
      | Some s => s
      | None =>
          match mode_in (py_lower raw) CAP_TO_SCENE with
          | Some s => s
          | None => if starts_with "commerce." raw then task_type_to_scene_id (Some raw) else ""
          end
      end
  end.
Definition scenes_from_capabilities (capabilities : list string) : list string :=
  fold_left (fun scenes c =>
    let sid := scene_of_capability c in
    if negb (str_eqb sid "") && negb (str_mem sid scenes) then (scenes ++ [sid])%list else scenes) capabilities [].

(** ** What the owner is asked about *)

(** The gates of the steps, those that need the owner and those that do not; a role that
    is neither buyer nor seller is refused at the first step. *)
Definition gates_of (scene_id role : string) (steps : list string) : list (string * gate) :=
  map (fun step => (step, gate_of (gate_mode cat scene_id (py_strip (py_lower role)) step) false)) steps.
Definition plan_confirmations (scene_id role : string) : outcome boundary_error (list (string * gate) * list (string * gate)) :=
  if bool_decide (lifecycle_steps standard = []) || str_mem (py_strip (py_lower role)) ["buyer"; "seller"] then
    let gs := gates_of scene_id role (lifecycle_steps standard) in
    Ret (List.filter (fun g => needs_owner g.2) gs, List.filter (fun g => negb (needs_owner g.2)) gs)
  else Raise ConfirmationPolicyError.
Definition confirmation_block (scene_ids : list string) (conf_role : string) : outcome boundary_error confirmation_boundary :=
  let primary := default "api_tool_call" (head scene_ids) in
  match plan_confirmations primary conf_role with
  | Ret (must, auto) =>
      Ret (Confirmation conf_role primary (or_list scene_ids [primary]) (map fst must) (map fst auto)
             (map fst (List.filter (fun g => str_eqb (g_mode g.2) "POLICY_AUTO") (must ++ auto)%list)))
  | Raise e => Raise e
  end.
(** The issues of [published]: steps left out, and steps made automatic. *)
Definition confirmation_is_looser_than_catalog (published : confirmation_boundary) (scene_ids : list string) (conf_role : string) :
    outcome boundary_error (list string * list string) :=
  match confirmation_block scene_ids conf_role with
  | Ret c => Ret (not_in (cf_must c) (cf_must published), both_in (not_in (cf_auto published) (cf_auto c)) (cf_must c))
  | Raise e => Raise e
  end.
Definition is_looser (issues : list string * list string) : bool := negb (bool_decide (issues = ([], []))).

Definition karma_role_to_confirmation_role (role : string) : string :=
  if str_mem (py_strip (py_lower role)) ["client"; "buyer"; "user"] then "buyer" else "seller".
Definition is_user (profile : option string) : bool := str_eqb (lowered profile) "user".
Definition confirmation_role (b : agent_boundary) : string :=
  if is_user (b_profile b) then "buyer"
  else or_text (Some (cf_role (b_confirmation b))) (karma_role_to_confirmation_role (or_text (Some (b_role b)) "worker")).
Definition canonicalize_confirmation_boundary (reject_looser : bool) (b : agent_boundary) : outcome boundary_error agent_boundary :=
  let role := confirmation_role b in
  match confirmation_is_looser_than_catalog (b_confirmation b) (b_scenes b) role with
  | Raise e => Raise e
  | Ret issues =>
      if reject_looser && is_looser issues then Raise (AgentBoundaryError (issues.1 ++ issues.2)%list)
      else match confirmation_block (b_scenes b) role with
           | Ret c => Ret (with_confirmation c b)
           | Raise e => Raise e
           end
  end.

(** ** Building a card *)

Definition assess_complete (profile : option string) (conf_role : string) (scene_ids : list string) (specs : list (string * json))
    (do_not : string) (capabilities : list string) : bool * list string :=
  let no_capabilities := match capabilities with [] => ["capabilities"] | _ => [] end in
  let gaps :=
    if str_eqb conf_role "buyer" || is_user profile then no_capabilities
    else (no_capabilities ++ match scene_ids with [] => ["scene_ids"] | _ => [] end
          ++ match specs with
             | [] => ["service_specs"]
             | _ => map (append "service_specs.") (not_in scene_ids (map fst specs))
             end
          ++ if str_eqb (py_strip do_not) "" then ["boundaries/do_not"] else [])%list in
  (bool_decide (gaps = []), gaps).
Definition assess (b : agent_boundary) (conf_role : string) : bool * list string :=
  let cap := b_capability b in
  assess_complete (b_profile b) conf_role (b_scenes b) (cb_specs cap) (cb_do_not cap) (cb_capabilities cap).

Record materialize_args := Materialize {
  ma_agent : string;
  ma_name : option string;
  ma_role : string;
  ma_profile : option string;
  ma_capabilities : list string;
  ma_scenes : list string;
  ma_card : profile_card;
  ma_owner : option string;
  ma_notes : option string;
  ma_delegation : bool;
  ma_acknowledged : bool
}.
(** What a seller says it does not do, from the card or from each of its specs. *)
Definition do_not_of (card : profile_card) : string :=
  let text := py_strip (json_text (jor (pc_boundaries card) (JStr ""))) in
  if negb (str_eqb text "") then text
  else join (wide_semicolon standard)
    (concat (map (fun kv => match kv.2 with
                            | JObj fs => if jtruthy (jget "boundaries" fs) then [json_text (jget "boundaries" fs)] else []
                            | _ => []
                            end) (pc_specs card))).
Definition materialize_agent_boundary (a : materialize_args) : outcome boundary_error agent_boundary :=
  let card := ma_card a in
  let scenes := or_list (ma_scenes a) (or_list (or_list (pc_industries card) (pc_interest card))
                  (scenes_from_capabilities (ma_capabilities a))) in
  let user := bool_decide (ma_profile a = Some "user") in
  let role := if user then "buyer" else karma_role_to_confirmation_role (ma_role a) in
  let do_not := do_not_of card in
  let compliance := if str_mem "no_fund_custody" (map fst (pc_compliance card)) then pc_compliance card
                    else dict_set "no_fund_custody" (JBool true) (pc_compliance card) in
  match confirmation_block scenes role with
  | Raise e => Raise e
  | Ret c =>
      let r := assess_complete (ma_profile a) role scenes (pc_specs card) do_not (ma_capabilities a) in
      Ret (Boundary SCHEMA (ma_agent a) (ma_name a) (ma_profile a) (ma_role a) scenes r.1 r.2
             (Capability (ma_capabilities a) (jor (pc_summary card) (JStr (or_text (ma_name a) (ma_agent a)))) (pc_specs card) do_not
                (jor (pc_area card) (JObj [])) (jor (pc_hours card) (JObj [])) (jor (pc_targets card) (JList []))
                (jor (pc_currency card) (JStr "USDC")))
             (Responsibility (or_text (ma_owner a) (ma_agent a)) (ma_acknowledged a) ("rb_" ++ ma_agent a) (ma_delegation a) compliance
                (pc_side card) (or_text (ma_notes a) (default_notes standard)))
             c)
  end.

(** ** The store *)

(** A pure part of an operation on the store. *)
Definition lift {A} (o : outcome boundary_error A) : MB A := match o with Ret x => py_ret x | Raise e => py_raise e end.
(** The card as it is stored: what it asks the owner and its completeness computed anew. *)
Definition published (agent : string) (reject_looser : bool) (b : agent_boundary) : outcome boundary_error agent_boundary :=
  match canonicalize_confirmation_boundary reject_looser b with
  | Raise e => Raise e
  | Ret row => Ret (assessed_as agent (assess row (or_text (Some (cf_role (b_confirmation row))) "seller")) row)
  end.
Definition save_agent_boundary (agent : string) (b : agent_boundary) (reject_looser : bool) : MB agent_boundary :=
  ensure_loaded ;;;
  let! row := lift (published agent reject_looser b) in
  put agent row ;;;
  persist OSError ;;;
  py_ret row.
Definition get_agent_boundary (agent : string) : MB (option agent_boundary) :=
  ensure_loaded ;;;
  let! s := py_get in
  py_ret (dict_get agent (live s)).
Definition clear_agent_boundaries : MB unit := clear OSError.

(** ** The hash of a card *)

Definition strings (l : list string) : json := JList (map JStr l).
Definition hash_payload (b : agent_boundary) : json :=
  let cap := b_capability b in
  let resp := b_responsibility b in
  let conf := b_confirmation b in
  JObj [("schema_version", JStr (b_schema b)); ("agent_id", JStr (b_agent b)); ("profile_id", jtext (b_profile b));
        ("scene_ids", strings (b_scenes b));
        ("capability_boundary",
          JObj [("capabilities", strings (cb_capabilities cap)); ("capability_summary", cb_summary cap); ("service_specs", JObj (cb_specs cap));
                ("do_not", JStr (cb_do_not cap)); ("service_area", cb_area cap); ("business_hours", cb_hours cap);
                ("service_targets", cb_targets cap); ("preferred_currency", cb_currency cap)]);
        ("responsibility_boundary",
          JObj [("owner_identity_id", JStr (rb_owner resp)); ("boundary_id", JStr (rb_id resp)); ("allows_delegation", JBool (rb_delegation resp));
                ("compliance_flags", JObj (rb_compliance resp)); ("notes_zh", JStr (rb_notes resp))]);
        ("confirmation_boundary",
          JObj [("role", JStr (cf_role conf)); ("primary_scene_id", JStr (cf_primary conf)); ("must_confirm_steps", strings (cf_must conf));
                ("auto_ok_steps", strings (cf_auto conf))])].
Definition boundary_content_hash (b : agent_boundary) : string := "sha256:" ++ sha256_hex (utf8 (dumps compact_sorted (hash_payload b))).

(** ** Verification *)

Definition seller_covers_scene (b : agent_boundary) (scene_id : string) : bool :=
  negb (str_eqb scene_id "")
    && (str_mem (py_strip scene_id) (b_scenes b) || str_mem (py_strip scene_id) (map fst (cb_specs (b_capability b)))).
Definition scene_in_do_not (b : agent_boundary) (scene_id : string) : bool :=
  let do_not := py_lower (cb_do_not (b_capability b)) in
  let token := py_lower (py_strip scene_id) in
  negb (str_eqb do_not "") && negb (str_eqb token "") && str_in token do_not
    && existsb (fun m => str_in m do_not) (chinese_markers standard ++ ["not "; "no "])%list.

(** [allow_demo_confirmation_bypass()], the negation of [is_prod_like_env()]. *)
Context (demo : bool).
Record verified := Verified { v_ok : bool; v_passed : list string; v_gaps : list string }.
Record verify_args := VerifyArgs {
  va_class : option string;
  va_hash : option string;
  va_complete : bool;
  va_scene : option string;
  va_role : option string
}.
(** A check passes under its name, or is a gap. *)
Definition checked (name : string) (ok : bool) : list string * list string := if ok then ([name], []) else ([], [name]).
Definition all_checks (l : list (list string * list string)) : list string * list string := (concat (map fst l), concat (map snd l)).
Definition uniq (l : list string) : list string :=
  fold_left (fun u g => if str_mem g u then u else (u ++ [g])%list) l [].
Definition class_of (a : verify_args) (b : agent_boundary) : string := py_lower (or_text (va_class a) (or_text (b_profile b) "")).
Definition role_of (a : verify_args) (b : agent_boundary) : string :=
  if str_eqb (class_of a b) "user" then "buyer"
  else py_lower (or_text (va_role a) (or_text (Some (cf_role (b_confirmation b))) "seller")).
Definition subset_of (l l' : list string) : bool := forallb (fun x => str_mem x l') l.
Definition as_buyer (a : verify_args) (b : agent_boundary) : bool := str_eqb (class_of a b) "user" || str_eqb (role_of a b) "buyer".
(** Sellers, and merchants and enterprises in any role. *)
Definition must_specify (a : verify_args) (b : agent_boundary) : bool :=
  str_mem (class_of a b) ["merchant"; "enterprise"] || str_eqb (role_of a b) "seller".
(** Only an industry nobody knows raises; what else is wrong with the specs is returned to
    a caller that does not look. *)
Definition specs_raise (b : agent_boundary) : bool :=
  negb (bool_decide (b_scenes b = [])) && negb (bool_decide (cb_specs (b_capability b) = []))
    && existsb (fun s => negb (industry_known standard s)) (b_scenes b).
Definition capability_checks (a : verify_args) (b : agent_boundary) : list (list string * list string) :=
  let specs := map fst (cb_specs (b_capability b)) in
  if must_specify a b then
    [checked "service_specs_present_for_scenes"
       (negb (bool_decide (b_scenes b = [])) && subset_of (b_scenes b) specs || as_buyer a b);
     checked "do_not_present" (negb (str_eqb (py_strip (cb_do_not (b_capability b))) "") || as_buyer a b);
     ([], if specs_raise b && negb demo then ["service_specs_valid"] else [])]
  else [checked "service_specs_present_for_scenes" true; checked "do_not_present" true].
Definition scene_checks (a : verify_args) (b : agent_boundary) : list (list string * list string) :=
  if truthy_str (va_scene a) then
    let s := default "" (va_scene a) in
    [checked "scene_policy_defined" (bool_decide (is_Some (get_scene cat s)));
     checked "scene_covered" (as_buyer a b || seller_covers_scene b s);
     checked "scene_not_refused" (as_buyer a b || negb (scene_in_do_not b s))]
  else
    [checked "scene_policy_defined" (forallb (fun x => bool_decide (is_Some (get_scene cat x))) (b_scenes b));
     checked "scene_covered" true; checked "scene_not_refused" true].
Definition checks_of (a : verify_args) (b : agent_boundary) (looser aligned : bool) : list (list string * list string) :=
  ([checked "boundary_present" true;
    checked "schema_ok" (str_eqb (b_schema b) SCHEMA);
    checked "confirmation_not_looser" (negb looser);
    checked "confirmation_catalog_aligned" aligned;
    checked "capability_scenes_consistent" (bool_decide (b_scenes b = []) || subset_of (cf_scenes (b_confirmation b)) (b_scenes b))]
   ++ capability_checks a b
   ++ [if va_complete a then checked "boundary_complete" (b_complete b) else (if b_complete b then ["boundary_complete"] else [], []);
       checked "boundary_hash_matches_live" (negb (truthy_str (va_hash a)) || bool_decide (va_hash a = Some (boundary_content_hash b)))]
   ++ scene_checks a b)%list.
(** Whether the catalogue's version of the card can be had. *)
Definition aligned (b : agent_boundary) : outcome boundary_error bool :=
  match canonicalize_confirmation_boundary false b with
  | Ret _ => Ret true
  | Raise (AgentBoundaryError _) => Ret false
  | Raise e => Raise e
  end.
Definition verify_boundary_card (card : option agent_boundary) (a : verify_args) : outcome boundary_error verified :=
  match card with
  | None => Ret (Verified false [] ["boundary_present"])
  | Some b =>
      match confirmation_is_looser_than_catalog (b_confirmation b) (b_scenes b) (role_of a b) with
      | Raise e => Raise e
      | Ret issues =>
          match aligned b with
          | Raise e => Raise e
          | Ret ok =>
              let r := all_checks (checks_of a b (is_looser issues) ok) in
              let gaps := uniq r.2 in
              Ret (Verified (bool_decide (gaps = []) && negb (is_looser issues)) r.1 gaps)
          end
      end
  end.

(** The gaps that stop an order. *)
Definition hard_gaps : list string :=
  (["boundary_present"; "confirmation_not_looser"; "scene_covered"; "scene_not_refused"; "scene_policy_defined"]
   ++ if demo then [] else ["confirmation_catalog_aligned"; "service_specs_present_for_scenes"; "do_not_present"; "boundary_complete"])%list.
Definition assert_seller_boundary_for_fulfill (card : option agent_boundary) (scene_id : string) (identity_class stored_hash : option string)
    (p1_ready : bool) : outcome boundary_error verified :=
  if negb p1_ready && negb demo then Raise (BoundaryVerifyError ["p1_ready"])
  else
    match verify_boundary_card card (VerifyArgs identity_class stored_hash (negb demo) (Some scene_id) (Some "seller")) with
    | Raise e => Raise e
    | Ret r =>
        let failed := both_in (v_gaps r) hard_gaps in
        if negb (bool_decide (failed = [])) || bool_decide (card = None)
        then Raise (BoundaryVerifyError (or_list failed (v_gaps r)))
        else Ret r
    end.

(** What the gate reads of the seller's row in the directory. *)
Record agent_row := AgentRow {
  ar_name : option string;
  ar_role : string;
  ar_class : option string;
  ar_capabilities : list string;
  ar_owner : option string;
  ar_hash : option string;
  ar_p1_ready : bool;
  ar_active : bool
}.
Record agent_verified := AgentVerified { av_ok : bool; av_gaps : list string; av_card : option verified }.
(** A card that is not stored is built from the row and the profile card, not kept. *)
Definition boundary_or_built (agent : string) (row : agent_row) (card : option profile_card) : MB agent_boundary :=
  let! stored := get_agent_boundary agent in
  match stored with
  | Some b => py_ret b
  | None =>
      lift (materialize_agent_boundary
        (Materialize agent (ar_name row) (ar_role row)
           (if truthy_str (ar_class row) then ar_class row else card ≫= pc_profile)
           (ar_capabilities row) [] (default no_card card) (Some (or_text (ar_owner row) agent)) None false false))
  end.
Definition verify_agent_boundary (agent : string) (row : option agent_row) (card : option profile_card) (scene_id : option string)
    (require_complete : option bool) : MB agent_verified :=
  match row with
  | None => py_ret (AgentVerified false ["directory_active"] None)
  | Some row =>
      let! b := boundary_or_built agent row card in
      let cls := if truthy_str (ar_class row) then ar_class row else b_profile b in
      let complete := default (str_mem (lowered cls) ["merchant"; "enterprise"]) require_complete in
      let! r := lift (verify_boundary_card (Some b) (VerifyArgs cls (ar_hash row) complete scene_id None)) in
      py_ret (if ar_active row then AgentVerified (v_ok r) (v_gaps r) (Some r)
              else AgentVerified false ("directory_active" :: v_gaps r) (Some r))
  end.

(** ** Runs *)

Inductive boundary_op : Type :=
| PublishBoundary (a : materialize_args)
| SaveBoundary (agent : string) (b : agent_boundary) (reject_looser : bool)
| GetBoundary (agent : string)
| VerifyBoundary (agent : string) (row : option agent_row) (card : option profile_card) (scene_id : option string) (complete : option bool)
| ClearBoundaries
| RestartBoundaries
| DiskOf (d : disk_state)
| PassTime (us : N).
Definition boundary_step (o : boundary_op) : MB unit :=
  match o with
  | PublishBoundary a =>
      let! b := lift (materialize_agent_boundary a) in
      save_agent_boundary (ma_agent a) b true ;;; py_ret tt
  | SaveBoundary agent b reject_looser => save_agent_boundary agent b reject_looser ;;; py_ret tt
  | GetBoundary agent => get_agent_boundary agent ;;; py_ret tt
  | VerifyBoundary agent row card scene_id complete => verify_agent_boundary agent row card scene_id complete ;;; py_ret tt
  | ClearBoundaries => clear_agent_boundaries
  | RestartBoundaries => py_modify restart
  | DiskOf d => py_modify (disk_becomes d)
  | PassTime us => py_modify (pass us)
  end.
Definition boundary_run (ops : list boundary_op) (s : boundaries) : boundaries := fold_left (fun s o => run_state (boundary_step o) s) ops s.
End Boundaries.
