(* ===== verification/BoundaryRuns.v ===== *)
(** * The boundary of an agent: runs

    Whatever is saved, by whom and in whatever state of the disk: the cards in memory and
    in the file ask the owner just what the catalogue asks in their first scene, and say
    that they are complete when they are.  A verification passes exactly the cards that
    the specification [Verified_card] describes, and a hash commits to what it covers. *)

From S2P Require Import Prelude PyBytes PyJson PyJsonCanon PyDatetime PyHoare PyStore Confirmations AgentBoundary.
#[local] Open Scope string_scope.
#[local] Open Scope py_scope.

(** ** Lists of texts *)

Lemma filter_elem {A} (p : A -> bool) l x : x ∈ List.filter p l <-> x ∈ l /\ p x = true.
Proof. by rewrite !list_elem_of_In, filter_In. Qed.
Lemma filter_nil {A} (p : A -> bool) l : List.filter p l = [] <-> forall x, x ∈ l -> p x = false.
Proof.
  induction l as [|y l IH]; cbn; [split; [by intros _ x ?%not_elem_of_nil|done]|]. destruct (p y) eqn:E; split; try done.
  - intros H. specialize (H y ltac:(by left)). congruence.
  - intros H x [->|Hx]%elem_of_cons; [done|by apply IH].
  - intros H. apply IH. intros x Hx. apply H. by right.
Qed.
Lemma str_mem_iff x l : str_mem x l = true <-> x ∈ l.
Proof. apply bool_decide_eq_true. Qed.
Lemma not_in_nil l l' : not_in l l' = [] <-> l ⊆ l'.
Proof.
  unfold not_in. rewrite filter_nil. unfold subseteq, list_subseteq. split; intros H x Hx.
  - specialize (H x Hx). by apply negb_false_iff, str_mem_iff in H.
  - apply negb_false_iff, str_mem_iff, H, Hx.
Qed.
Lemma not_in_elem x l l' : x ∈ not_in l l' <-> x ∈ l /\ x ∉ l'.
Proof. unfold not_in, str_mem. by rewrite filter_elem, negb_true_iff, bool_decide_eq_false. Qed.
Lemma both_in_nil l l' : both_in l l' = [] <-> forall x, x ∈ l -> x ∉ l'.
Proof. unfold both_in, str_mem. rewrite filter_nil. split; intros H x Hx; specialize (H x Hx); by eapply bool_decide_eq_false. Qed.
Lemma subset_of_iff l l' : subset_of l l' = true <-> l ⊆ l'.
Proof.
  unfold subset_of, subseteq, list_subseteq. rewrite forallb_forall. split; intros H x Hx.
  - by apply str_mem_iff, H, list_elem_of_In.
  - apply str_mem_iff, H. by apply list_elem_of_In.
Qed.
Lemma blank_iff s : str_eqb (py_strip s) "" = false <-> py_strip s <> "".
Proof. apply bool_decide_eq_false. Qed.

Section Boundaries.
Context (cat : catalog) (standard : boundary_catalog).
Abbreviation block := (confirmation_block cat standard).
Abbreviation known s := (is_Some (get_scene cat s)).

(** ** What the catalogue asks *)

(** The owner is asked at [step] in [scene_id], by the word of the catalogue. *)
Definition asked_in (scene_id role step : string) : Prop :=
  step ∈ lifecycle_steps standard /\ needs_owner (gate_of (gate_mode cat scene_id (py_strip (py_lower role)) step) false) = true.
Definition first_scene (scenes : list string) : string := default "api_tool_call" (head scenes).
(** The gates are those of the confirmation sessions. *)
Lemma gates_resolve scene_id role step s : py_strip (py_lower role) = "buyer" \/ py_strip (py_lower role) = "seller" ->
  resolve_gate cat scene_id role step false s = (s, Ret (gate_of (gate_mode cat scene_id (py_strip (py_lower role)) step) false)).
Proof. unfold resolve_gate. by intros [-> | ->]. Qed.

Lemma block_asks scenes role c : block scenes role = Ret c ->
  cf_role c = role /\ cf_primary c = first_scene scenes /\ cf_scenes c = or_list scenes [first_scene scenes]
  /\ (forall step, step ∈ cf_must c <-> asked_in (first_scene scenes) role step)
  /\ (forall step, step ∈ cf_auto c <-> step ∈ lifecycle_steps standard /\ ~ asked_in (first_scene scenes) role step).
Proof.
  unfold confirmation_block, plan_confirmations, first_scene. destruct (_ || _); [|done]. intros [= <-]. cbn. split_and!; [done..| |].
  - intros step. rewrite list_elem_of_fmap. unfold asked_in, gates_of. split.
    + intros ([st g] & -> & [Hin Hg]%filter_elem). apply list_elem_of_fmap in Hin as (st' & [= -> ->] & Hin). done.
    + intros [Hin Hg]. eexists (step, _). split; [done|]. apply filter_elem. split; [apply list_elem_of_fmap; by exists step|done].
  - intros step. rewrite list_elem_of_fmap. unfold asked_in, gates_of. split.
    + intros ([st g] & -> & [Hin Hg]%filter_elem). apply list_elem_of_fmap in Hin as (st' & [= -> ->] & Hin). apply negb_true_iff in Hg.
      split; [done|]. intros [_ Ha]. cbn in Ha, Hg. by rewrite Ha in Hg.
    + intros [Hin Hg]. eexists (step, _). split; [done|]. apply filter_elem. split; [apply list_elem_of_fmap; by exists step|].
      apply negb_true_iff, not_true_iff_false. intros Ha. by apply Hg.
Qed.
Lemma block_idem scenes role c : block scenes role = Ret c -> block scenes (cf_role c) = Ret c.
Proof. intros H. by destruct (block_asks _ _ _ H) as (-> & _). Qed.

(** Nothing asked by the catalogue is left out or made automatic. *)
Definition keeps_asking (published : confirmation_boundary) (scenes : list string) (role : string) : Prop :=
  forall step, asked_in (first_scene scenes) role step -> step ∈ cf_must published /\ step ∉ cf_auto published.
Lemma looser_iff published scenes role issues : confirmation_is_looser_than_catalog cat standard published scenes role = Ret issues ->
  is_looser issues = false <-> keeps_asking published scenes role.
Proof.
  unfold confirmation_is_looser_than_catalog. destruct (block scenes role) as [c|] eqn:Hc; [|done]. intros [= <-].
  destruct (block_asks _ _ _ Hc) as (_ & _ & _ & Hmust & Hauto). unfold is_looser. rewrite negb_false_iff, bool_decide_eq_true. split.
  - intros [= H1 H2]. rewrite not_in_nil in H1. rewrite both_in_nil in H2. intros step Hs. split; [by apply H1, Hmust|].
    intros Ha. destruct (H2 step); [|by apply Hmust]. apply not_in_elem. split; [done|]. intros [_ Hn]%Hauto. done.
  - intros H. f_equal; [apply not_in_nil|apply both_in_nil].
    + intros step Hs. by apply H, Hmust.
    + intros step [Ha _]%not_in_elem Hs. by apply (H step); [apply Hmust|].
Qed.

(** ** Saved cards *)

(** A card is complete when it names what the agent can do and, for a seller, what it
    offers in each scene and what it does not. *)
Definition complete_card (b : agent_boundary) : Prop :=
  cb_capabilities (b_capability b) <> []
  /\ (cf_role (b_confirmation b) = "buyer" \/ is_user (b_profile b) = true
      \/ b_scenes b <> [] /\ b_scenes b ⊆ map fst (cb_specs (b_capability b)) /\ py_strip (cb_do_not (b_capability b)) <> "").
Lemma assess_iff b : (assess b (cf_role (b_confirmation b))).1 = true <-> complete_card b.
Proof.
  unfold assess, assess_complete, complete_card. cbn. rewrite bool_decide_eq_true. unfold str_eqb at 1.
  destruct (bool_decide (cf_role _ = "buyer")) eqn:Hr; cbn [orb].
  { apply bool_decide_eq_true in Hr. destruct (cb_capabilities _); split; naive_solver. }
  apply bool_decide_eq_false in Hr. destruct (is_user (b_profile b)); [destruct (cb_capabilities _); naive_solver|].
  assert (forall l : list (string * json), b_scenes b ⊆ map fst l -> b_scenes b <> [] -> l <> []) as Hne.
  { intros [|] H Hs; [|done]. destruct (b_scenes b) as [|x]; [done|]. specialize (H x ltac:(by left)). by apply not_elem_of_nil in H. }
  split.
  - intros H. apply app_nil in H as [Hc [Hs [Hp Hd]%app_nil]%app_nil]. split; [by destruct (cb_capabilities _)|]. right. right.
    split; [by destruct (b_scenes b)|]. split.
    + destruct (cb_specs _) as [|kv specs] eqn:E; [done|]. rewrite <- E in *. apply map_eq_nil in Hp. by apply not_in_nil.
    + unfold str_eqb in Hd. case_bool_decide; [done|done].
  - intros [Hc [H|[H|(Hs & Hp & Hd)]]]; [done..|]. specialize (Hne _ Hp Hs). unfold str_eqb. rewrite bool_decide_false by done.
    destruct (cb_capabilities _), (b_scenes b) as [|x xs] eqn:E, (cb_specs _) as [|kv specs] eqn:Es; try done. cbn [app].
    apply not_in_nil in Hp. by rewrite Hp.
Qed.
(** The card of an agent: its own, asking what the catalogue asks, complete if it says so. *)
Record sound_card (agent : string) (b : agent_boundary) : Prop := SoundCard {
  sc_agent : b_agent b = agent;
  sc_user : is_user (b_profile b) = true -> cf_role (b_confirmation b) = "buyer";
  sc_scene : cf_primary (b_confirmation b) = first_scene (b_scenes b);
  sc_asks : forall step, step ∈ cf_must (b_confirmation b) <-> asked_in (first_scene (b_scenes b)) (cf_role (b_confirmation b)) step;
  sc_automatic : forall step, step ∈ cf_auto (b_confirmation b) -> ~ asked_in (first_scene (b_scenes b)) (cf_role (b_confirmation b)) step;
  sc_complete : b_complete b = true <-> complete_card b
}.
Lemma published_sound agent reject_looser b row : published cat standard agent reject_looser b = Ret row -> sound_card agent row.
Proof.
  unfold published. destruct (canonicalize_confirmation_boundary _ _ _ _) as [r|] eqn:Hc; [|done]. intros [= <-].
  unfold canonicalize_confirmation_boundary in Hc. destruct (confirmation_is_looser_than_catalog _ _ _ _ _) as [issues|]; [|done].
  destruct (_ && _); [done|]. destruct (block _ _) as [c|] eqn:Hb; [|done]. injection Hc as <-.
  destruct (block_asks _ _ _ Hb) as (Hrole & Hp & _ & Hmust & Hauto).
  assert (cf_role c <> "") as Hne.
  { rewrite Hrole. unfold confirmation_role, or_text, truthy_str, karma_role_to_confirmation_role, str_eqb. destruct (is_user _); [done|].
    case_bool_decide as E; cbn; [|done]. by destruct (str_mem _ _). }
  assert (or_text (Some (cf_role c)) "seller" = cf_role c) as Hor by (unfold or_text, truthy_str; by rewrite str_eqb_ne).
  split; cbn.
  - done.
  - intros Hu. rewrite Hrole. unfold confirmation_role. by rewrite Hu.
  - done.
  - intros step. by rewrite Hrole.
  - intros step [_ H]%Hauto. by rewrite Hrole.
  - set (row := assessed_as _ _ _). rewrite Hor. exact (assess_iff row).
Qed.

Section Kept.
Context (I : boundaries -> Prop) `{!store_inv sound_card I}.
Lemma kept_lift {A} (o : outcome boundary_error A) : keeps I (lift o).
Proof. destruct o; [apply keeps_ret|apply keeps_raise]. Qed.
Lemma kept_saved_card agent b reject_looser : keeps I (save_agent_boundary cat standard agent b reject_looser).
Proof.
  unfold save_agent_boundary. apply keeps_bind; [auto with keeps|intros _].
  destruct (published cat standard agent reject_looser b) as [row|] eqn:Hp; [|by intros s].
  change (keeps I (put agent row ;;; persist OSError ;;; py_ret row)). apply keeps_bind; [|intros _; keep].
  eapply kept_put. by eapply published_sound.
Qed.
End Kept.

Context (demo : bool).
Abbreviation step := (boundary_step cat standard demo).
Abbreviation run := (boundary_run cat standard demo).
Lemma boundary_step_keeps n o : keeps (everywhere sound_card n) (step o).
Proof.
  destruct o as [a|agent b reject_looser|agent|agent row card scene_id complete| | |d|us]; cbn [boundary_step].
  - apply keeps_bind; [apply kept_lift|intros b]. apply keeps_bind; [apply kept_saved_card; typeclasses eauto|intros; apply keeps_ret].
  - apply keeps_bind; [apply kept_saved_card; typeclasses eauto|intros; apply keeps_ret].
  - unfold get_agent_boundary. keep.
  - apply keeps_bind; [|intros; apply keeps_ret]. unfold verify_agent_boundary. destruct row as [row|]; [|apply keeps_ret].
    apply keeps_bind; [unfold boundary_or_built, get_agent_boundary; keep; apply kept_lift|intros b].
    apply keeps_bind; [apply kept_lift|intros r]. destruct (ar_active row); apply keeps_ret.
  - apply kept_clear.
  - apply kept_restart.
  - by_store kept_disk.
  - by_store kept_pass.
Qed.
Lemma run_cards_sound t ops : everywhere sound_card 0 (run ops (empty_store t)).
Proof.
  assert (forall s, everywhere sound_card 0 s -> everywhere sound_card 0 (run ops s)) as H; [|apply H, empty_everywhere].
  induction ops as [|o ops IH]; intros s Hs; [done|]. apply IH. by apply boundary_step_keeps.
Qed.

(** C23. Whatever cards are published or saved, with whatever steps they claim to do without
    their owner, through restarts and failing disks: each card in memory and in the file
    is its agent's own; it is a buyer's if it is a user's; the steps it asks its owner
    about are just those the catalogue asks in its first scene, none of which it lists as
    automatic; and it says that it is complete just when it names what the agent can do
    and, for a seller, what it offers in each of its scenes and what it does not do. *)
Theorem stored_cards_ask t ops agent b (s := run ops (empty_store t)) :
  (agent, b) ∈ live s \/ (exists d, file s = Some d /\ (agent, b) ∈ d) ->
  let conf := b_confirmation b in
  b_agent b = agent
  /\ (is_user (b_profile b) = true -> cf_role conf = "buyer")
  /\ (forall st, st ∈ cf_must conf <-> asked_in (first_scene (b_scenes b)) (cf_role conf) st)
  /\ (forall st, st ∈ cf_auto conf -> st ∉ cf_must conf)
  /\ (b_complete b = true <-> complete_card b).
Proof.
  intros H. assert (sound_card agent b) as [H1 H2 H3 H4 H5 H6].
  { destruct H as [H|(d & Hd & H)]; [by eapply in_memory; [apply run_cards_sound|]|by eapply in_file; [apply run_cards_sound|..]]. }
  split_and!; [done..| |done]. intros st Ha Hm. by apply (H5 st Ha), H4.
Qed.

(** ** Verification *)

Section Verified.
Context (b : agent_boundary) (a : verify_args).
Abbreviation specs := (map fst (cb_specs (b_capability b))).
End Verified.

(** Code: the check that the catalogue's version can be had never fails: when it cannot,
    the error is not one that is caught. *)
Lemma aligned_never_false b : aligned cat standard b <> Ret false.
Proof.
  unfold aligned, canonicalize_confirmation_boundary, confirmation_is_looser_than_catalog, confirmation_block, plan_confirmations.
  by destruct (_ || _).
Qed.

Lemma nonempty_iff {A} (l : list A) `{!Decision (l = [])} : negb (bool_decide (l = [])) = true <-> l <> [].
Proof. by rewrite negb_true_iff, bool_decide_eq_false. Qed.
Lemma filled_iff s : negb (str_eqb s "") = true <-> s <> "".
Proof. unfold str_eqb. by rewrite negb_true_iff, bool_decide_eq_false. Qed.
Lemma verify_says b a r : verify_boundary_card cat standard demo (Some b) a = Ret r -> exists looser,
  (looser = false <-> keeps_asking (b_confirmation b) (b_scenes b) (role_of a b))
  /\ v_ok r = bool_decide (v_gaps r = []) && negb looser
  /\ v_gaps r = uniq (all_checks (checks_of cat standard demo a b looser true)).2.
Proof.
  unfold verify_boundary_card. destruct (confirmation_is_looser_than_catalog _ _ _ _ _) as [issues|] eqn:Hl; [|done].
  destruct (aligned cat standard b) as [ok|] eqn:Ha; [|done]. intros H. destruct ok; [|by apply aligned_never_false in Ha].
  exists (is_looser issues). split; [by eapply looser_iff|]. split; by injection H as <-.
Qed.

(** ** The gate of an order *)

Lemma uniq_from x l : forall u, x ∈ u \/ x ∈ l -> x ∈ fold_left (fun u g => if str_mem g u then u else (u ++ [g])%list) l u.
Proof.
  induction l as [|g l IH]; intros u H; cbn; [by destruct H as [|H%not_elem_of_nil]|]. apply IH.
  destruct (str_mem g u) eqn:E; destruct H as [H|[->|H]%elem_of_cons]; rewrite ?elem_of_app, ?list_elem_of_singleton; auto.
  left. by apply str_mem_iff.
Qed.
Lemma uniq_elem x l : x ∈ l -> x ∈ uniq l.
Proof. intros Hx. apply uniq_from. by right. Qed.
Lemma gap_found name l : checked name false ∈ l -> name ∈ uniq (all_checks l).2.
Proof.
  intros H. apply uniq_elem, list_elem_of_In, in_concat. exists [name]. split; [|by left].
  change [name] with (checked name false).2. by apply in_map, list_elem_of_In.
Qed.
Section Gate.
Context (card : option agent_boundary) (scene_id : string) (cls hash : option string) (p1_ready : bool).
Abbreviation gate_args := (VerifyArgs cls hash (negb demo) (Some scene_id) (Some "seller")).
(** The card of a seller who may take an order in a scene.  One in the class of users
    counts as a buyer, of whom neither the scene nor what it offers is asked. *)
Record Sellable (b : agent_boundary) : Prop := SellableCard {
  sl_asks : keeps_asking (b_confirmation b) (b_scenes b) (role_of gate_args b);
  sl_scene : known scene_id;
  sl_covers : class_of gate_args b <> "user" -> seller_covers_scene b scene_id = true /\ scene_in_do_not standard b scene_id = false;
  sl_ready : demo = false -> p1_ready = true /\ b_complete b = true;
  sl_offers : demo = false -> class_of gate_args b <> "user" ->
    b_scenes b <> [] /\ b_scenes b ⊆ map fst (cb_specs (b_capability b)) /\ py_strip (cb_do_not (b_capability b)) <> ""
}.
Lemma hard_basic x : x ∈ ["boundary_present"; "confirmation_not_looser"; "scene_covered"; "scene_not_refused"; "scene_policy_defined"] ->
  x ∈ hard_gaps demo.
Proof. intros H. apply elem_of_app. by left. Qed.
Lemma hard_outside x : demo = false ->
  x ∈ ["confirmation_catalog_aligned"; "service_specs_present_for_scenes"; "do_not_present"; "boundary_complete"] -> x ∈ hard_gaps demo.
Proof. intros Hd H. apply elem_of_app. right. by rewrite Hd. Qed.
Lemma gate_checks_hard b r looser name ok : v_gaps r = uniq (all_checks (checks_of cat standard demo gate_args b looser true)).2 ->
  both_in (v_gaps r) (hard_gaps demo) = [] -> checked name ok ∈ checks_of cat standard demo gate_args b looser true -> name ∈ hard_gaps demo -> ok = true.
Proof.
  rewrite both_in_nil. intros Hg Hn Hin Hh. destruct ok; [done|]. exfalso. apply (Hn name); [|done]. rewrite Hg. by apply gap_found.
Qed.
Lemma gate_sellable r : scene_id <> "" ->
  assert_seller_boundary_for_fulfill cat standard demo card scene_id cls hash p1_ready = Ret r -> exists b, card = Some b /\ Sellable b.
Proof.
  unfold assert_seller_boundary_for_fulfill. intros Hs H. destruct (negb p1_ready && negb demo) eqn:Hp; [done|].
  destruct (verify_boundary_card _ _ _ _ _) as [r'|] eqn:Hv; [|done]. destruct (_ || _) eqn:Hf; [done|]. injection H as <-.
  apply orb_false_iff in Hf as [Hf Hc]. apply negb_false_iff, bool_decide_eq_true in Hf. destruct card as [b|]; [|done]. exists b. split; [done|].
  destruct (verify_says b gate_args r' Hv) as (looser & Hl & _ & Hg).
  assert (forall name ok, name ∈ hard_gaps demo -> checked name ok ∈ checks_of cat standard demo gate_args b looser true -> ok = true) as Hhard.
  { intros name ok Hn Hin. by eapply gate_checks_hard. }
  assert (truthy_str (Some scene_id) = true) as Ht by (cbn; by rewrite str_eqb_ne).
  assert (forall c, c ∈ scene_checks cat standard gate_args b -> c ∈ checks_of cat standard demo gate_args b looser true) as Hsc.
  { intros c Hin. unfold checks_of. rewrite !elem_of_app. auto. }
  assert (class_of gate_args b <> "user" -> as_buyer gate_args b = false /\ must_specify gate_args b = true) as Hu.
  { intros Hu. unfold as_buyer, must_specify, role_of. rewrite (str_eqb_ne _ _ Hu). split; [done|]. by rewrite orb_true_r. }
  unfold scene_checks in Hsc. cbn [va_scene] in Hsc. rewrite Ht in Hsc. cbn [default] in Hsc. split.
  - apply Hl. apply negb_true_iff. apply (Hhard "confirmation_not_looser"); [by apply hard_basic; right; left|].
    unfold checks_of. apply elem_of_app. left. by right; right; left.
  - eapply bool_decide_eq_true, (Hhard "scene_policy_defined"); [by apply hard_basic; do 4 right; left|]. apply Hsc. by left.
  - intros [Hb _]%Hu. rewrite Hb in Hsc. split.
    + apply (Hhard "scene_covered"); [by apply hard_basic; do 2 right; left|]. apply Hsc. by right; left.
    + apply negb_true_iff, (Hhard "scene_not_refused"); [by apply hard_basic; do 3 right; left|]. apply Hsc. by right; right; left.
  - intros Hd. rewrite Hd, andb_true_r in Hp. split; [by apply negb_false_iff|].
    apply (Hhard "boundary_complete"); [by apply hard_outside; [done|do 3 right; left]|].
    unfold checks_of. cbn [va_complete]. rewrite Hd, !elem_of_app. right. right. left. by left.
  - intros Hd [Hb Hm]%Hu.
    assert (forall c, c ∈ capability_checks standard demo gate_args b -> c ∈ checks_of cat standard demo gate_args b looser true) as Hcc.
    { intros c Hin. unfold checks_of. rewrite !elem_of_app. auto. }
    unfold capability_checks in Hcc. rewrite Hm, Hb, !orb_false_r in Hcc.
    assert (negb (bool_decide (b_scenes b = [])) && subset_of (b_scenes b) (map fst (cb_specs (b_capability b))) = true)
      as [H1%nonempty_iff H2%subset_of_iff]%andb_prop.
    { apply (Hhard "service_specs_present_for_scenes"); [by apply hard_outside; [done|right; left]|]. apply Hcc. by left. }
    split_and!; [done..|]. apply filled_iff, (Hhard "do_not_present"); [by apply hard_outside; [done|do 2 right; left]|]. apply Hcc. by right; left.
Qed.
End Gate.
End Boundaries.

(** ** The hash *)

Definition hashed_bytes (b : agent_boundary) : bytes := utf8 (dumps compact_sorted (hash_payload b)).
Lemma canon_strings_inj l l' : canon (strings l) = canon (strings l') -> l = l'.
Proof.
  unfold strings. cbn. intros H. injection H as H. revert l' H. induction l as [|x l IH]; intros [|y l'] H; try done. cbn in H.
  injection H as -> H. f_equal. by apply IH.
Qed.
Lemma canon_text_inj o o' : canon (jtext o) = canon (jtext o') -> o = o'.
Proof. destruct o, o'; cbn; congruence. Qed.
Lemma assoc_perm {A} k (l l' : list (string * A)) : NoDup (map fst l) -> l ≡ₚ l' -> assoc k l = assoc k l'.
Proof.
  intros Hk H. revert Hk. induction H as [|[k1 v1] l l' H IH|[k1 v1] [k2 v2] l|l l' l'' H1 IH1 H2 IH2]; intros Hk; cbn in *.
  - done.
  - apply NoDup_cons in Hk as [_ Hk]. by rewrite (IH Hk).
  - unfold str_eqb. repeat case_bool_decide; try done. subst. apply NoDup_cons in Hk as [Hk _]. destruct Hk. by left.
  - rewrite (IH1 Hk). apply IH2. by rewrite <- H1.
Qed.
Lemma assoc_map {A B} (f : A -> B) k (l : list (string * A)) : assoc k (map (fun kv => (kv.1, f kv.2)) l) = f <$> assoc k l.
Proof. induction l as [|[k' v] l IH]; [done|]. cbn. by destruct (str_eqb k k'). Qed.
Lemma canon_entry k fs fs' : NoDup (map fst fs) -> NoDup (map fst fs') -> canon (JObj fs) = canon (JObj fs') -> canon (jget k fs) = canon (jget k fs').
Proof.
  intros Hk Hk' H. cbn [canon] in H. injection H as H. assert (forall fs, NoDup (map fst fs) -> canon (jget k fs) = default JNull (assoc k (sort_items (map (fun kv => (kv.1, canon kv.2)) fs)))) as E.
  { intros l Hl. rewrite (assoc_perm k _ (map (fun kv => (kv.1, canon kv.2)) l)).
    - rewrite assoc_map. unfold jget. by destruct (assoc k l).
    - rewrite sort_items_perm, List.map_map. exact Hl.
    - apply sort_items_perm. }
  by rewrite (E _ Hk), (E _ Hk'), H.
Qed.
(** The entry of both sides under a key. *)
Ltac entry E k H :=
  pose proof E as H; apply (canon_entry k) in H; [|by apply (bool_decide_unpack _)..];
  unfold jget in H; cbn [assoc] in H;
  repeat match type of H with
         | context [str_eqb ?x ?y] => let v := eval vm_compute in (str_eqb x y) in change (str_eqb x y) with v in H
         end;
  cbn [default id] in H.
(** The hash of a card commits to the agent, its class, owner and scenes, to what it
    can do, offers and does not do, to the rules it says it complies with, and to the
    steps it asks about and does alone: two cards with the same hash agree in all of them,
    up to the order of keys, or their dumped payloads are a collision of SHA-256. *)
Theorem card_hash_binds b b' : boundary_content_hash b = boundary_content_hash b' ->
  let cap := b_capability b in let cap' := b_capability b' in
  let resp := b_responsibility b in let resp' := b_responsibility b' in
  let conf := b_confirmation b in let conf' := b_confirmation b' in
  (b_agent b = b_agent b' /\ b_profile b = b_profile b' /\ b_scenes b = b_scenes b'
   /\ cb_capabilities cap = cb_capabilities cap' /\ canon (JObj (cb_specs cap)) = canon (JObj (cb_specs cap')) /\ cb_do_not cap = cb_do_not cap'
   /\ rb_owner resp = rb_owner resp' /\ rb_delegation resp = rb_delegation resp'
   /\ canon (JObj (rb_compliance resp)) = canon (JObj (rb_compliance resp'))
   /\ cf_role conf = cf_role conf' /\ cf_must conf = cf_must conf' /\ cf_auto conf = cf_auto conf')
  \/ sha256_collides (hashed_bytes b) (hashed_bytes b').
Proof.
  intros H. cbv zeta. unfold boundary_content_hash in H. apply sapp_inv_head in H.
  destruct (hex_digest_binds _ _ H) as [E|E]; [left|by right]. apply utf8_inj, (dumps_inj compact_sorted eq_refl) in E; [|by exists ""].
  unfold hash_payload in E. entry E "agent_id" Ha. entry E "profile_id" Hp. entry E "scene_ids" Hs.
  entry E "capability_boundary" Ec. entry E "responsibility_boundary" Er. entry E "confirmation_boundary" Ef. clear E H.
  entry Ec "capabilities" Hc. entry Ec "service_specs" Hsp. entry Ec "do_not" Hd.
  entry Er "owner_identity_id" Ho. entry Er "allows_delegation" Hg. entry Er "compliance_flags" Hf.
  entry Ef "role" Hr. entry Ef "must_confirm_steps" Hm. entry Ef "auto_ok_steps" Hau. clear Ec Er Ef.
  apply canon_text_inj in Hp. apply canon_strings_inj in Hs, Hc, Hm, Hau. cbn [canon] in Ha, Hd, Ho, Hg, Hr.
  split_and!; congruence.
Qed.

(** ** A kitchen *)

Definition two_scenes : catalog :=
  Catalog [("food_delivery", Scene [] [("discover", "AUTO"); ("accept_order", "AUTO")] false);
           ("healthcare_medical", Scene [] [("discover", "AUTO"); ("accept_order", "OWNER_CONFIRM")] true)] [] [].
Definition steps_of_trade : boundary_catalog := BoundaryCatalog ["discover"; "accept_order"; "cancel"] "notes" ";" [] (fun _ => true).
Definition card_for (scenes : list string) (specs : list (string * json)) (refuses : string) : profile_card :=
  ProfileCard scenes [] JNull specs (JStr refuses) JNull JNull JNull JNull [] JNull None.
Definition kitchen_of (card : profile_card) (class : string) : materialize_args :=
  Materialize "kitchen" (Some "Kitchen") "worker" (Some class) ["order_food"] [] card None None false true.
Definition food : profile_card := card_for ["food_delivery"] [("food_delivery", JObj [("price", JStr "9.90")])] "we serve no alcohol".
Definition opening : list boundary_op := [PublishBoundary (kitchen_of food "merchant"); DiskOf Full; PublishBoundary (kitchen_of food "enterprise"); RestartBoundaries;
  DiskOf Writable; PublishBoundary (kitchen_of food "merchant")].
Definition kitchen : option agent_boundary := dict_get "kitchen" (live (boundary_run two_scenes steps_of_trade false opening (empty_store 0))).
Definition kitchen_card : agent_boundary :=
  match kitchen with Some b => b | None => Boundary "" "" None None "" [] false [] (Capability [] JNull [] "" JNull JNull JNull JNull)
                                             (Responsibility "" false "" false [] JNull "") (Confirmation "" "" [] [] [] []) end.
Lemma kitchen_stored : ("kitchen", kitchen_card) ∈ live (boundary_run two_scenes steps_of_trade false opening (empty_store 0)).
Proof. apply get_in. vm_compute. reflexivity. Qed.
Lemma stored_cards_ask_witness : cf_must (b_confirmation kitchen_card) = ["cancel"] /\ complete_card kitchen_card.
Proof.
  pose proof (stored_cards_ask two_scenes steps_of_trade false 0 opening "kitchen" kitchen_card (or_introl kitchen_stored)) as H. cbv zeta in H.
  destruct H as (_ & _ & _ & _ & Hc). split; [vm_compute; reflexivity|]. apply Hc. vm_compute. reflexivity.
Defined.
Definition order_of (scene_id : string) : verify_args := VerifyArgs None None true (Some scene_id) (Some "seller").
(** The card again with its specs in another order of keys. *)
Definition reordered (specs : list (string * json)) : agent_boundary :=
  let b := kitchen_card in let cap := b_capability b in
  Boundary (b_schema b) (b_agent b) (b_name b) (b_profile b) (b_role b) (b_scenes b) (b_complete b) (b_gaps b)
    (Capability (cb_capabilities cap) (cb_summary cap) specs (cb_do_not cap) (cb_area cap) (cb_hours cap) (cb_targets cap) (cb_currency cap))
    (b_responsibility b) (b_confirmation b).
Lemma card_hash_binds_witness : boundary_content_hash (reordered [("b", JNull); ("a", JInt 1)]) = boundary_content_hash (reordered [("a", JInt 1); ("b", JNull)])
  /\ b_scenes (reordered [("b", JNull); ("a", JInt 1)]) = b_scenes (reordered [("a", JInt 1); ("b", JNull)]).
Proof.
  assert (boundary_content_hash (reordered [("b", JNull); ("a", JInt 1)]) = boundary_content_hash (reordered [("a", JInt 1); ("b", JNull)])) as E
    by (vm_compute; reflexivity).
  split; [exact E|]. destruct (card_hash_binds _ _ E) as [(_ & _ & H & _)|[Hn _]]; [exact H|]. destruct Hn. vm_compute. reflexivity.
Defined.

(** ** Where code and words part *)

Definition built (card : profile_card) (class : string) : option agent_boundary :=
  match materialize_agent_boundary two_scenes steps_of_trade (kitchen_of card class) with Ret b => Some b | Raise _ => None end.
Definition may_sell (b : option agent_boundary) (scene_id : string) (hash : option string) : bool :=
  match assert_seller_boundary_for_fulfill two_scenes steps_of_trade false b scene_id None hash true with Ret _ => true | Raise _ => false end.
(** Code: the list of errors in the specs is dropped; only an unknown industry counts. *)
Lemma broken_specs_pass : forall b, built (card_for ["food_delivery"] [("food_delivery", JNull)] "none") "merchant" = Some b ->
  exists r, verify_boundary_card two_scenes steps_of_trade false (Some b) (order_of "food_delivery") = Ret r /\ v_ok r = true.
Proof. intros b H. vm_compute in H. injection H as <-. eexists. split; vm_compute; reflexivity. Qed.
(** Code: a seller in the class of users may sell in any scene it never declared. *)
Lemma users_sell_anything : may_sell (built no_card "user") "healthcare_medical" None = true.
Proof. vm_compute. reflexivity. Qed.
(** Code: the hash that the owner answered for may be that of another card. *)
Lemma drifted_card_sells : may_sell (built food "merchant") "food_delivery" (Some "sha256:00") = true.
Proof. vm_compute. reflexivity. Qed.
(** Code: only the first scene of a card is looked up; in the second the owner is not asked
    though the catalogue asks. *)
Definition both_scenes : profile_card :=
  card_for ["food_delivery"; "healthcare_medical"] [("food_delivery", JObj []); ("healthcare_medical", JObj [])] "none".
Lemma second_scene_unasked : may_sell (built both_scenes "merchant") "healthcare_medical" None = true
  /\ (cf_auto ∘ b_confirmation <$> built both_scenes "merchant") = Some ["discover"; "accept_order"]
  /\ asked_in two_scenes steps_of_trade "healthcare_medical" "seller" "accept_order".
Proof. split; [|split]; [vm_compute; reflexivity..|]. split; [by right; left|vm_compute; reflexivity]. Qed.
(** Code: a scene is refused by any no in a text that names it. *)
Lemma far_no_refuses :
  may_sell (built (card_for ["food_delivery"] [("food_delivery", JObj [])] "food_delivery in town, no alcohol") "merchant") "food_delivery" None = false.
Proof. vm_compute. reflexivity. Qed.
