(* ===== verification/IntentFulfillment.v ===== *)
(** * The gates of a fulfilment

    [services/intent_fulfillment.py]: what must hold before an intent becomes a voucher
    and a locked settlement, from the seller's scene to the armed liability: the boundary
    the seller published, the steps the buyer confirms, the important fields both sides
    sealed, the seller's acceptance and its timeouts.  Discovery before the gates and the
    rows written after them are not modelled.  Arguments stand for what comes from
    elsewhere: the scene inferred from the text, the seller's row in the directory and the
    saved automation policies. *)

From Stdlib Require Import SpecFloat.
From S2P Require Import Prelude PyBytes PyJson PyDatetime PyFloat PyHoare EscrowDb PyStore ImportantFields FieldsCapture.
From S2P Require Import Confirmations AcceptFulfillment AgentBoundary.
#[local] Open Scope string_scope.
#[local] Open Scope py_scope.

(** The ledger of acceptances with the confirmation sessions, the captures, and the cards
    of the agents. *)
Record fulfil_world := FulfilWorld { accepts : accept_world; caps : captures; cards : boundaries }.
Definition set_accepts (a : accept_world) (w : fulfil_world) : fulfil_world := FulfilWorld a (caps w) (cards w).
Definition set_caps (c : captures) (w : fulfil_world) : fulfil_world := FulfilWorld (accepts w) c (cards w).
Definition set_cards (b : boundaries) (w : fulfil_world) : fulfil_world := FulfilWorld (accepts w) (caps w) b.

Inductive fulfil_error : Type :=
| RefusedHTTP (status : Z) (detail : string)
| FromAccepts (e : accept_error)
| FromCaptures (e : capture_error)
| FromBoundaries (e : boundary_error).
Abbreviation MFu := (M fulfil_world fulfil_error).

Definition in_accepts {A} (m : MA A) : MFu A := fun w =>
  match m (accepts w) with
  | (a, Ret x) => (set_accepts a w, Ret x)
  | (a, Raise e) => (set_accepts a w, Raise (FromAccepts e))
  end.
Definition in_confirmations {A} (m : MC A) : MFu A := in_accepts (in_sessions m).
Definition in_caps {A} (m : MF A) : MFu A := fun w =>
  match m (caps w) with
  | (c, Ret x) => (set_caps c w, Ret x)
  | (c, Raise e) => (set_caps c w, Raise (FromCaptures e))
  end.
Definition in_cards {A} (m : MB A) : MFu A := fun w =>
  match m (cards w) with
  | (b, Ret x) => (set_cards b w, Ret x)
  | (b, Raise e) => (set_cards b w, Raise (FromBoundaries e))
  end.
(** [try: ... except Exception] around captures. *)
Definition tried {A} (m : MF A) : MFu (option A) := fun w =>
  match m (caps w) with
  | (c, Ret x) => (set_caps c w, Ret (Some x))
  | (c, Raise _) => (set_caps c w, Ret None)
  end.

(** [f"{x:.2f}"] *)
Definition fixed2 (x : float) : string :=
  match x with
  | S754_zero s => (if s then "-" else "") ++ "0.00"
  | S754_infinity s => (if s then "-" else "") ++ "inf"
  | S754_nan => "nan"
  | S754_finite s m e =>
      let n := round_half_even (Zpos m * 100 * 2 ^ Z.max 0 e) (Z.to_pos (2 ^ Z.max 0 (- e))) in
      (if s then "-" else "") ++ py_str_int (n / 100) ++ "." ++ pad 2 (n mod 100)
  end%Z.
Definition contains (sub s : string) : bool := bool_decide (is_Some (String.index 0 sub s)).

Record fulfil_args := FulfilArgs {
  fa_buyer : string;
  fa_seller : string;
  fa_amount : float;
  fa_scene : string;
  fa_requested : option string;
  fa_seller_row : option agent_row;
  fa_require_owner : bool;
  fa_session : option string;
  fa_seller_session : option string;
  fa_buyer_policy : option automation_policy;
  fa_seller_policy : option automation_policy;
  fa_require_fields : option bool;
  fa_capture : option string;
  fa_fields : option fields_dict;
  fa_auto_lock : bool
}.
Definition interaction_ref (a : fulfil_args) : string := "fulfill:" ++ fa_buyer a ++ ":" ++ fa_seller a.

(** [1e-9] *)
Definition LIMIT_TOLERANCE : float := float_of_ratio 1 1000000000.
(** A saved policy acts for its owner up to its limit. *)
Definition policy_covers (p : option automation_policy) (amount : float) : bool :=
  match p with
  | None => false
  | Some p =>
      ap_responsibility_acknowledged p && (ap_auto_enabled p || ap_preauth_enabled p)
        && fleb amount (fadd (if ftruthy (ap_single_limit p) then ap_single_limit p else fzero) LIMIT_TOLERANCE)
  end.

Record clearance := Clearance {
  cl_fields : option ProtocolCapture;
  cl_risk : risk_profile;
  cl_liability : liability
}.
Inductive halt : Type :=
| AwaitingOwner (step session next_step : string)
| AwaitingFields
| CancelledTimeout (report : timeout_report) (delta : float)
| AwaitingSeller (session : string) (ttl : Z).
Inductive verdict : Type := Halted (h : halt) | Cleared (c : clearance).
(** What a part of the gates says: where it stops, or how to go on. *)
Abbreviation go_on A := (halt + A)%type.

(** [recorded["reputation_delta"] or event["reputation_delta"] or -2.0] *)
Definition timeout_delta (r : timeout_report) : float :=
  or_float (rd_delta <$> tr_recorded r) (or_float (tr_prior r ≫= e_delta) (half (-4))).

Section Fulfilling.
Context (conf_cat : catalog) (conf_token : nat -> string) (accept_cat : accept_catalog) (standard : boundary_catalog).
(** [allow_demo_confirmation_bypass()] *)
Context (demo : bool).
Context (cap_token : nat -> string) (urandom : nat -> bytes) (master_key : option bytes) (hkdf : bytes -> bytes -> bytes)
  (aes_encrypt : bytes -> bytes -> bytes -> bytes -> bytes) (aes_decrypt : bytes -> bytes -> bytes -> bytes -> option bytes)
  (json_loads : bytes -> option json) (if_cat : if_catalog) (read_iso : string -> option datetime).
(** The example fields of a scene in the catalogue, and [secrets.token_hex(4)]. *)
Context (example : string -> option fields_dict) (short_token : nat -> string).
Abbreviation create_capture := (create_protocol_capture cap_token urandom master_key hkdf aes_encrypt if_cat read_iso).
Abbreviation encrypt_for := (encrypt_for_capture urandom master_key hkdf aes_encrypt if_cat read_iso).
Abbreviation submit := (submit_encrypted master_key hkdf aes_decrypt json_loads if_cat read_iso).
Abbreviation finalize := (finalize_triple_match master_key hkdf aes_decrypt json_loads read_iso).
Abbreviation require_matched := (require_matched_capture master_key hkdf aes_decrypt json_loads).

(** ** The buyer's steps *)

Definition step_args_of (a : fulfil_args) (role step owner : string) (session : option string) (auto consume : bool) : step_args :=
  StepArgs (fa_scene a) role step session auto (Some owner) (Some (fa_amount a)) consume (Some (interaction_ref a)).
Definition create_args_of (a : fulfil_args) (role step owner : string) (auto : bool) (ttl : option Z) : create_args :=
  CreateArgs (fa_scene a) role step owner (Some (fa_amount a)) (Some (interaction_ref a)) auto ttl.

(** The session the request names, when it is a yes to this step; the money step is used
    up later. *)
Definition apply_session (a : fulfil_args) (auto : bool) (step : string) : MA bool :=
  if negb (truthy_str (fa_session a)) then py_ret false
  else
    let! r := caught (
      let! x := in_sessions (get_confirmation_session (default "" (fa_session a))) in
      if str_eqb (s_step x) step && bool_decide (s_status x = CONFIRMED) then
        in_sessions (assert_step_allowed conf_cat
          (step_args_of a "buyer" step (fa_buyer a) (fa_session a) auto (negb (str_eqb step "accept_order")))) ;;;
        py_ret true
      else py_ret false) in
    py_ret (match r with inl b => b | inr _ => false end).

(** [all_steps] is the list [steps] is the rest of; the answer says whether the session of
    the request is kept for the money step. *)
Fixpoint buyer_gate (a : fulfil_args) (auto : bool) (all_steps steps : list string) (deferred : bool) : MA (go_on bool) :=
  match steps with
  | [] => py_ret (inr deferred)
  | step :: r =>
      let! ok := in_sessions (step_already_satisfied conf_cat (fa_scene a) "buyer" step (fa_buyer a) (Some (interaction_ref a)) auto) in
      if ok then buyer_gate a auto all_steps r deferred
      else
        let! applied := apply_session a auto step in
        if applied then buyer_gate a auto all_steps r (deferred || str_eqb step "accept_order")
        else
          let! made := in_sessions (create_confirmation_session conf_cat conf_token (create_args_of a "buyer" step (fa_buyer a) auto None)) in
          match made with
          | None => buyer_gate a auto all_steps r deferred
          | Some (id, _) =>
              let! next := in_sessions (next_required_confirm_step conf_cat (fa_scene a) "buyer" all_steps (fa_buyer a)
                                          (Some (interaction_ref a)) auto) in
              py_ret (inl (AwaitingOwner step id (or_str next step)))
          end
  end.

(** ** Important fields *)

Definition CAPTURE_TTL_SECONDS : Z := 3600.
Definition short_nonce (prefix : string) : MF string :=
  let! s := py_get in
  py_modify draw ;;;
  py_ret (prefix ++ short_token (drawn s)).
Definition seal_for (id role agent nonce : string) (fields : fields_dict) : MF unit :=
  let! ciphertext := encrypt_for id fields role in
  let! x := submit (SubmitArgs id role ciphertext nonce (Some agent)) in
  py_ret tt.
(** The demo: captured and sealed for both sides in one go. *)
Definition auto_triple_lock_fields (scene_id : string) (fields : fields_dict) (ref buyer seller : string) : MF ProtocolCapture :=
  let! made := create_capture (CaptureArgs scene_id fields ref CAPTURE_TTL_SECONDS (Some buyer) (Some seller)) in
  let id := made.1 in
  let! buyer_nonce := short_nonce "auto-buyer-" in
  let! seller_nonce := short_nonce "auto-seller-" in
  seal_for id "buyer" buyer buyer_nonce fields ;;;
  seal_for id "seller" seller seller_nonce fields ;;;
  let! matched := finalize id in
  must matched.1 "auto_triple_lock_fields failed to MATCH" ;;;
  py_ret matched.2.

Definition must_match_fields (a : fulfil_args) : bool :=
  default (scene_requires_important_fields (fa_scene a)) (fa_require_fields a) || is_high_risk_scene conf_cat (fa_scene a).
Definition priced (amount : float) (fields : fields_dict) : fields_dict :=
  if str_mem "amount" (map fst fields) then dict_set "amount" (JStr (fixed2 amount)) fields else fields.
Definition lock_fields (a : fulfil_args) : MF ProtocolCapture :=
  if truthy_str (fa_capture a) then
    require_matched (default "" (fa_capture a)) (fa_scene a) (Some (interaction_ref a)) (Some (fa_amount a))
  else if fa_auto_lock a && demo && negb (is_high_risk_scene conf_cat (fa_scene a)) then
    match match fa_fields a with Some ((_ :: _) as fs) => Some fs | _ => example (fa_scene a) end with
    | None => refuse_capture "no example_fields"
    | Some fs =>
        auto_triple_lock_fields (fa_scene a) (priced (fa_amount a) fs) (interaction_ref a)
          (if str_eqb (fa_buyer a) "" then "demo-buyer" else fa_buyer a) (if str_eqb (fa_seller a) "" then "demo-seller" else fa_seller a)
    end
  else refuse_capture "MATCHED important_fields_capture_id required".

(** ** The seller *)

Inductive seller_answer : Type := SellerTimedOut (r : timeout_report) | SellerAccepted (l : liability) | SellerSilent.
Definition apply_seller_session (a : fulfil_args) (auto : bool) : MA seller_answer :=
  if negb (truthy_str (fa_seller_session a)) then py_ret SellerSilent
  else
    let! r := caught (
      let! live_one := caught (
        let! x := in_sessions (get_confirmation_session (default "" (fa_seller_session a))) in
        py_require (negb (mem (s_status x) [Confirmations.EXPIRED; CANCELLED])) (SessionRefused "confirmation session EXPIRED")) in
      match live_one with
      | inr msg =>
          let! again := (if contains "EXPIRED" msg
                         then check_interaction_seller_timeout accept_cat (fa_seller a) (fa_scene a) (Some (interaction_ref a)) (fa_seller_session a)
                         else py_ret None) in
          match again with
          | Some r => py_ret (SellerTimedOut r)
          | None => py_raise (SessionRefused msg)
          end
      | inl _ =>
          in_sessions (assert_step_allowed conf_cat
            (step_args_of a "seller" "accept_order" (fa_seller a) (fa_seller_session a) auto true)) ;;;
          let! done := record_seller_confirm accept_cat
                         (RecordArgs (fa_seller a) (fa_scene a) (Some (interaction_ref a)) (fa_seller_session a) (Some (fa_amount a))) in
          py_ret (SellerAccepted (ao_liability done))
      end) in
    py_ret (match r with inl x => x | inr _ => SellerSilent end).
Definition arm (a : fulfil_args) : MA liability :=
  arm_post_confirm_liability accept_cat (fa_seller a) (fa_scene a) (fa_amount a) (Some (interaction_ref a)) None.
(** The acceptance the scene or the seller's record calls for. *)
Definition seller_accepts (a : fulfil_args) (forced : bool) : MA (go_on liability) :=
  let auto := negb (is_high_risk_scene conf_cat (fa_scene a)) && negb forced && policy_covers (fa_seller_policy a) (fa_amount a) in
  let! ok := in_sessions (step_already_satisfied conf_cat (fa_scene a) "seller" "accept_order" (fa_seller a) (Some (interaction_ref a)) auto) in
  if ok then let! l := arm a in py_ret (inr l)
  else
    let! answer := apply_seller_session a auto in
    match answer with
    | SellerTimedOut r => py_ret (inl (CancelledTimeout r (or_float (rd_delta <$> tr_recorded r) (half (-4)))))
    | SellerAccepted l => py_ret (inr l)
    | SellerSilent =>
        let! ttl := scene_accept_ttl_seconds accept_cat (fa_scene a) (Some (fa_seller a)) in
        let! made := in_sessions (create_confirmation_session conf_cat conf_token
                                    (create_args_of a "seller" "accept_order" (fa_seller a) auto (Some ttl))) in
        match made with
        | Some (id, _) => py_ret (inl (AwaitingSeller id ttl))
        | None => let! l := arm a in py_ret (inr l)
        end
    end.
(** From the seller's risk to the armed liability. *)
Definition seller_gate (a : fulfil_args) : MA (go_on (risk_profile * liability)) :=
  let! risk := seller_risk_profile accept_cat (fa_seller a) (fa_scene a) in
  let! forced := seller_requires_forced_confirm accept_cat (fa_seller a) (fa_scene a) in
  let! owner := (if fa_require_owner a then in_sessions (seller_must_confirm_accept conf_cat (fa_scene a)) else py_ret false) in
  let! hit := check_interaction_seller_timeout accept_cat (fa_seller a) (fa_scene a) (Some (interaction_ref a)) (fa_seller_session a) in
  match hit with
  | Some r => py_ret (inl (CancelledTimeout r (timeout_delta r)))
  | None =>
      if fa_require_owner a && (owner || forced) then
        let! r := seller_accepts a forced in
        py_ret (match r with inl v => inl v | inr l => inr (risk, l) end)
      else
        let! l := arm a in
        py_ret (inr (risk, l))
  end.

(** ** The gates *)

(** The card of the seller, verified for the scene. *)
Definition seller_boundary_gate (a : fulfil_args) : MFu unit :=
  let! card := in_cards (get_agent_boundary (fa_seller a)) in
  let row := fa_seller_row a in
  match assert_seller_boundary_for_fulfill conf_cat standard demo card (fa_scene a) (row ≫= ar_class) (row ≫= ar_hash)
          (bool_decide (ar_p1_ready <$> row = Some true)) with
  | Ret _ => py_ret tt
  | Raise (BoundaryVerifyError gaps) => py_raise (RefusedHTTP 403 ("seller boundary failed P2 verify: " ++ join ", " gaps))
  | Raise e => py_raise (FromBoundaries e)
  end.
Definition requested_scene (a : fulfil_args) : string := py_strip (default "" (fa_requested a)).
Definition fulfil_gates (a : fulfil_args) : MFu verdict :=
  let high_risk := is_high_risk_scene conf_cat (fa_scene a) in
  py_require (negb (fleb (fa_amount a) fzero)) (RefusedHTTP 400 "amount must be > 0") ;;;
  py_require (negb (str_eqb (fa_seller a) "")) (RefusedHTTP 404 "no matching agent/merchant found for this intent") ;;;
  py_require (str_eqb (requested_scene a) "" || str_eqb (requested_scene a) (fa_scene a)) (RefusedHTTP 400 "scene_id does not match") ;;;
  py_require (bool_decide (is_Some (get_scene conf_cat (fa_scene a)))) (RefusedHTTP 400 "unknown confirmation scene_id") ;;;
  seller_boundary_gate a ;;;
  py_require (fa_require_owner a || negb (high_risk || negb demo)) (RefusedHTTP 403 "require_owner_confirmation=false is forbidden") ;;;
  let auto := fa_require_owner a && negb high_risk && policy_covers (fa_buyer_policy a) (fa_amount a) in
  let steps := buyer_fulfill_confirm_steps conf_cat (fa_scene a) in
  let! buyer := in_accepts (if fa_require_owner a then buyer_gate a auto steps steps false else py_ret (inr false)) in
  match buyer with
  | inl h => py_ret (Halted h)
  | inr deferred =>
      let! fields := (if must_match_fields a then tried (lock_fields a) else py_ret None) in
      if must_match_fields a && bool_decide (fields = None) then py_ret (Halted AwaitingFields)
      else
        (if fa_require_owner a && deferred then
           in_confirmations (assert_step_allowed conf_cat
             (step_args_of a "buyer" "accept_order" (fa_buyer a) (fa_session a) auto true)) ;;;
           py_ret tt
         else py_ret tt) ;;;
        let! seller := in_accepts (seller_gate a) in
        match seller with
        | inl h => py_ret (Halted h)
        | inr (risk, l) => py_ret (Cleared (Clearance fields risk l))
        end
  end.

(** ** Runs *)

Inductive fulfil_op : Type :=
| OnAccepts (o : accept_op)
| OnCaptures (o : capture_op)
| OnCards (o : boundary_op)
| Fulfil (a : fulfil_args).
(** The process, the disk and the clock are those of all stores. *)
Definition from_outside {V} (o : accept_op) (s : store V) : store V :=
  match o with
  | SessionOp Restart => restart s
  | SessionOp (Disk d) => disk_becomes d s
  | SessionOp (Pass us) => pass us s
  | _ => s
  end.
Definition fulfil_perform (o : fulfil_op) : MFu unit :=
  match o with
  | OnAccepts o =>
      py_modify (fun w => set_cards (from_outside o (cards w)) (set_caps (from_outside o (caps w)) w)) ;;;
      in_accepts (accept_perform accept_cat conf_cat conf_token o)
  | OnCaptures o =>
      in_caps (capture_step cap_token urandom master_key hkdf aes_encrypt aes_decrypt json_loads if_cat read_iso o)
  | OnCards o => in_cards (boundary_step conf_cat standard demo o)
  | Fulfil a => let! v := fulfil_gates a in py_ret tt
  end.
Definition fulfil_run (ops : list fulfil_op) (w : fulfil_world) : fulfil_world :=
  fold_left (fun w o => run_state (fulfil_perform o) w) ops w.
Definition no_fulfilments (t : datetime) : fulfil_world := FulfilWorld (no_acceptances t) (empty_store t) (empty_store t).
End Fulfilling.
