(* ===== verification/IntentRuns.v ===== *)
(** * The gates of a fulfilment: runs

    What the gates do to the confirmation sessions is a sequence of requests of the
    sessions themselves, none of them a decision; so a fulfilment that is cleared has
    every yes it needs from the owners, and a card of its seller.  Where code and words
    part: a seller who missed an order of a buyer is not cleared for that buyer again. *)

From S2P Require Import Prelude PyBytes PyJson PyDatetime PyFloat PyHoare EscrowDb PyStore ImportantFields FieldsCapture FieldsRuns.
From S2P Require Import Confirmations ConfirmationRuns AcceptFulfillment AcceptRuns AgentBoundary BoundaryRuns IntentFulfillment.
#[local] Open Scope string_scope.
#[local] Open Scope py_scope.

(** ** Requests an operation makes of the sessions *)

Definition asks (o : confirmation_op) : Prop :=
  match o with
  | CreateSession _ | GetSession _ | ListPending _ | CancelExpired _ _ | AssertStep _ | NextStep _ _ _ _ _ _ => True
  | _ => False
  end.
Lemma asks_lasting o : asks o -> lasting o.
Proof. by destruct o. Qed.

Section Fulfilling.
Context (conf_cat : catalog) (conf_token : nat -> string) (accept_cat : accept_catalog) (standard : boundary_catalog).
Abbreviation requests := (perform_all conf_cat conf_token).

Section Moves.
Context {S E : Type} (sessions_of : S -> confirmations).
Definition moves {A} (m : M S E A) : Prop :=
  forall s, exists ops, Forall asks ops /\ sessions_of (run_state m s) = requests ops (sessions_of s).

Lemma moves_still {A} (m : M S E A) : (forall s, sessions_of (run_state m s) = sessions_of s) -> moves m.
Proof. intros H s. exists []. by split; [constructor|]. Qed.
Lemma moves_ret {A} (a : A) : moves (py_ret a).
Proof. by apply moves_still. Qed.
Lemma moves_raise {A} e : moves (A := A) (py_raise e).
Proof. by apply moves_still. Qed.
Lemma moves_get : moves py_get.
Proof. by apply moves_still. Qed.
Lemma moves_require b e : moves (py_require b e).
Proof. apply moves_still. by destruct b. Qed.
Lemma moves_bind {A B} (m : M S E A) (k : A -> M S E B) : moves m -> (forall a, moves (k a)) -> moves (py_bind m k).
Proof.
  intros Hm Hk s. destruct (Hm s) as (ops & Ho & E1). unfold run_state, py_bind in *. destruct (m s) as [s1 [a|e]]; cbn in *.
  - destruct (Hk a s1) as (ops' & Ho' & E2). exists (ops ++ ops')%list. split; [by apply Forall_app|]. unfold run_state in E2.
    by rewrite E2, E1, sessions_run_app.
  - by exists ops.
Qed.
Lemma moves_when b m : moves m -> moves (py_when b m).
Proof. intros Hm. destruct b; [done|apply moves_ret]. Qed.
End Moves.
Create HintDb moves.
Hint Resolve moves_ret moves_raise moves_get moves_require moves_when : moves.
Ltac follow :=
  repeat first
    [ progress intros
    | lazymatch goal with
      | |- moves _ (py_bind _ _) => apply moves_bind
      | |- moves _ (py_when _ _) => apply moves_when
      | |- moves _ (match ?x with _ => _ end) => destruct x
      end
    | solve [eauto with moves] ].

(** ** What the ledger and the gates ask *)

Abbreviation asking := (moves (E := accept_error) sessions).

Lemma asking_sessions {A} (m : MC A) : (forall s, exists ops, Forall asks ops /\ run_state m s = requests ops s) -> asking (in_sessions m).
Proof.
  intros H w. destruct (H (sessions w)) as (ops & Ho & E). exists ops. split; [done|]. revert E. unfold run_state, in_sessions.
  by destruct (m (sessions w)) as [c [a|[]]].
Qed.
Lemma asking_op {A} (m : MC A) o : asks o -> (forall s, run_state (perform conf_cat conf_token o) s = run_state m s) -> asking (in_sessions m).
Proof. intros Ho H. apply asking_sessions. intros s. exists [o]. split; [by repeat constructor|]. by rewrite <- H. Qed.
Lemma run_ignore {A} (m : MC A) s : run_state (ignore m) s = run_state m s.
Proof. unfold ignore, run_state, py_bind. by destruct (m s) as [? []]. Qed.
Lemma asking_create c : asking (in_sessions (create_confirmation_session conf_cat conf_token c)).
Proof. apply (asking_op _ (CreateSession c)); [done|]. intros s. apply run_ignore. Qed.
Lemma asking_get id : asking (in_sessions (get_confirmation_session id)).
Proof. apply (asking_op _ (GetSession id)); [done|]. intros s. apply run_ignore. Qed.
Lemma asking_list limit : asking (in_sessions (list_pending_seller_accept_sessions limit)).
Proof. apply (asking_op _ (ListPending limit)); [done|]. intros s. apply run_ignore. Qed.
Lemma asking_mark id reason : asking (in_sessions (mark_session_expired_cancelled id reason)).
Proof. apply (asking_op _ (CancelExpired id reason)); [done|]. intros s. apply run_ignore. Qed.
Lemma asking_assert a : asking (in_sessions (assert_step_allowed conf_cat a)).
Proof. apply (asking_op _ (AssertStep a)); [done|]. intros s. apply run_ignore. Qed.
Lemma asking_next scene_id role steps owner ref auto :
  asking (in_sessions (next_required_confirm_step conf_cat scene_id role steps owner ref auto)).
Proof. apply (asking_op _ (NextStep scene_id role steps owner ref auto)); [done|]. intros s. apply run_ignore. Qed.
Lemma asking_satisfied scene_id role step owner ref auto :
  asking (in_sessions (step_already_satisfied conf_cat scene_id role step owner ref auto)).
Proof.
  apply (asking_op _ (NextStep scene_id role [step] owner ref auto)); [done|]. intros s. cbn [perform]. rewrite run_ignore.
  cbn [next_required_confirm_step]. unfold run_state, py_bind. by destruct (step_already_satisfied _ _ _ _ _ _ _ s) as [? [[]|]].
Qed.
Lemma asking_must scene_id : asking (in_sessions (seller_must_confirm_accept conf_cat scene_id)).
Proof.
  apply asking_sessions. intros s. exists []. split; [constructor|]. unfold seller_must_confirm_accept, run_state, py_bind.
  pose proof (resolve_pure conf_cat scene_id "seller" "accept_order" false s) as H. by destruct (resolve_gate _ _ _ _ _ s) as [? []].
Qed.
Lemma asking_caught {A} (m : MA A) : asking m -> asking (caught m).
Proof. intros Hm w. destruct (Hm w) as (ops & Ho & E). exists ops. split; [done|]. revert E. unfold run_state, caught. by destruct (m w) as [? [|[]]]. Qed.
Hint Resolve asking_create asking_get asking_list asking_mark asking_assert asking_next asking_satisfied asking_must asking_caught : moves.

Lemma asking_memory : asking ensure_book_loaded.
Proof. apply moves_still. intros w. unfold run_state, ensure_book_loaded. cbn. unfold book_memory. by destruct (book_loaded w). Qed.
Lemma asking_book b : asking (py_modify (set_book b)).
Proof. by apply moves_still. Qed.
Lemma asking_persist : asking persist_book.
Proof. apply moves_still. intros w. unfold run_state, persist_book, py_bind. cbn. by destruct (disk (sessions w)). Qed.
Lemma asking_utcnow : asking utcnow.
Proof. by apply moves_still. Qed.
Hint Resolve asking_memory asking_book asking_persist asking_utcnow : moves.
Lemma asking_entry seller : asking (seller_entry_of seller).
Proof. unfold seller_entry_of. follow. Qed.
Hint Resolve asking_entry : moves.
Lemma asking_profile seller scene_id : asking (seller_risk_profile accept_cat seller scene_id).
Proof. unfold seller_risk_profile. follow. Qed.
Hint Resolve asking_profile : moves.
Lemma asking_record reason a : asking (record_non_confirm accept_cat reason a).
Proof. unfold record_non_confirm, non_confirm_of. follow. Qed.
Lemma asking_arm seller scene_id amount ref session : asking (arm_post_confirm_liability accept_cat seller scene_id amount ref session).
Proof. unfold arm_post_confirm_liability. follow. Qed.
Hint Resolve asking_record asking_arm : moves.
Lemma asking_confirm a : asking (record_seller_confirm accept_cat a).
Proof. unfold record_seller_confirm. follow. Qed.
Lemma asking_try id : asking (try_session id).
Proof. unfold try_session. follow. Qed.
Hint Resolve asking_confirm asking_try : moves.
Lemma asking_process id cancel : asking (process_expired_seller_session accept_cat id cancel).
Proof. unfold process_expired_seller_session. follow. Qed.
Hint Resolve asking_process : moves.
Lemma asking_sweep ids : asking (sweep accept_cat ids).
Proof. induction ids as [|id ids IH]; cbn [sweep]; follow. Qed.
Lemma asking_first seller ref ids : asking (first_expired accept_cat seller ref ids).
Proof. induction ids as [|id ids IH]; cbn [first_expired]; follow. Qed.
Hint Resolve asking_sweep asking_first : moves.
Lemma asking_check seller scene_id ref session : asking (check_interaction_seller_timeout accept_cat seller scene_id ref session).
Proof. unfold check_interaction_seller_timeout. follow. Qed.
Lemma asking_ttl scene_id seller : asking (scene_accept_ttl_seconds accept_cat scene_id seller).
Proof. unfold scene_accept_ttl_seconds. follow. Qed.
Lemma asking_forced seller scene_id : asking (seller_requires_forced_confirm accept_cat seller scene_id).
Proof. unfold seller_requires_forced_confirm. follow. Qed.
Hint Resolve asking_check asking_ttl asking_forced : moves.

Lemma asking_apply a auto step : asking (apply_session conf_cat a auto step).
Proof. unfold apply_session. follow. apply asking_caught. follow. Qed.
Hint Resolve asking_apply : moves.
Lemma asking_buyer a auto all_steps steps deferred : asking (buyer_gate conf_cat conf_token a auto all_steps steps deferred).
Proof. revert deferred. induction steps as [|step steps IH]; intros deferred; cbn [buyer_gate]; follow. Qed.
Lemma asking_apply_seller a auto : asking (apply_seller_session conf_cat accept_cat a auto).
Proof. unfold apply_seller_session. follow. apply asking_caught. follow. apply asking_caught. follow. Qed.
Hint Resolve asking_buyer asking_apply_seller : moves.
Lemma asking_accepts a forced : asking (seller_accepts conf_cat conf_token accept_cat a forced).
Proof. unfold seller_accepts, arm. follow. Qed.
Hint Resolve asking_accepts : moves.
Lemma asking_seller a : asking (seller_gate conf_cat conf_token accept_cat a).
Proof. unfold seller_gate, arm. follow. Qed.
Hint Resolve asking_seller : moves.

Context (demo : bool).
Context (cap_token : nat -> string) (urandom : nat -> bytes) (master_key : option bytes) (hkdf : bytes -> bytes -> bytes)
  (aes_encrypt : bytes -> bytes -> bytes -> bytes -> bytes) (aes_decrypt : bytes -> bytes -> bytes -> bytes -> option bytes)
  (json_loads : bytes -> option json) (if_cat : if_catalog) (read_iso : string -> option datetime)
  (example : string -> option fields_dict) (short_token : nat -> string).
Abbreviation gates := (fulfil_gates conf_cat conf_token accept_cat standard demo cap_token urandom master_key hkdf aes_encrypt aes_decrypt json_loads
  if_cat read_iso example short_token).
Abbreviation lock := (lock_fields conf_cat demo cap_token urandom master_key hkdf aes_encrypt aes_decrypt json_loads
  if_cat read_iso example short_token).
Abbreviation step := (fulfil_perform conf_cat conf_token accept_cat standard demo cap_token urandom master_key hkdf aes_encrypt aes_decrypt json_loads
  if_cat read_iso example short_token).
Abbreviation run := (fulfil_run conf_cat conf_token accept_cat standard demo cap_token urandom master_key hkdf aes_encrypt aes_decrypt json_loads
  if_cat read_iso example short_token).

(** ** The sessions of a run *)

Definition confs (w : fulfil_world) : confirmations := sessions (accepts w).
Lemma moves_accepts {A} (m : MA A) : asking m -> moves confs (in_accepts m).
Proof.
  intros Hm w. destruct (Hm (accepts w)) as (ops & Ho & E). exists ops. split; [done|]. revert E. unfold run_state, in_accepts, confs.
  by destruct (m (accepts w)) as [? []].
Qed.
Lemma moves_tried {A} (m : MF A) : moves confs (tried m).
Proof. apply moves_still. intros w. unfold run_state, tried. by destruct (m (caps w)) as [? []]. Qed.
Lemma moves_cards {A} (m : MB A) : moves confs (in_cards m).
Proof. apply moves_still. intros w. unfold run_state, in_cards. by destruct (m (cards w)) as [? []]. Qed.
Lemma moves_caps {A} (m : MF A) : moves confs (in_caps m).
Proof. apply moves_still. intros w. unfold run_state, in_caps. by destruct (m (caps w)) as [? []]. Qed.
Lemma moves_confirmations {A} (m : MC A) : asking (in_sessions m) -> moves confs (in_confirmations m).
Proof. apply moves_accepts. Qed.
Hint Resolve moves_accepts moves_tried moves_cards moves_caps moves_confirmations : moves.
Lemma moves_boundary a : moves confs (seller_boundary_gate conf_cat standard demo a).
Proof. unfold seller_boundary_gate. follow. Qed.
Hint Resolve moves_boundary : moves.
Lemma moves_gates a : moves confs (gates a).
Proof. unfold fulfil_gates. follow; apply moves_accepts; follow. Qed.

(** The requests of a step, with just the decisions that were sent. *)
Definition made_of (L : list confirmation_op) (decided : string -> bool -> option string -> Prop) (s s' : confirmations) : Prop :=
  s' = requests L s /\ forall id yes who, Decide id yes who ∈ L <-> decided id yes who.
Lemma made_of_asks s s' decided : (exists L, Forall asks L /\ s' = requests L s) -> (forall id yes who, ~ decided id yes who) ->
  exists L, made_of L decided s s'.
Proof.
  intros (L & HL & ->) Hno. exists L. split; [done|]. intros id yes who. split; [|by intros ?%Hno].
  intros H. rewrite Forall_forall in HL. by apply HL in H.
Qed.
Lemma sessions_perform {A} (m : MC A) w : sessions (run_state (in_sessions m) w) = run_state m (sessions w).
Proof. unfold run_state, in_sessions. by destruct (m (sessions w)) as [c [|[]]]. Qed.
Lemma accept_step_requests o w : exists L,
  made_of L (fun id yes who => o = SessionOp (Decide id yes who)) (sessions w) (sessions (run_state (accept_perform accept_cat conf_cat conf_token o) w)).
Proof.
  destruct o as [o| | | | | | | | | |].
  { exists [o]. split; [|intros id yes who; rewrite list_elem_of_singleton; naive_solver].
    destruct o; cbn [accept_perform]; try apply sessions_perform. reflexivity. }
  all: apply made_of_asks; [|done].
  all: match goal with |- exists L, _ /\ sessions (run_state ?m _) = _ => enough (asking m) as Hm by exact (Hm w) end.
  all: cbn [accept_perform]; unfold quiet, record_seller_non_confirm, compute_breach_compensation, expire_pending_seller_accepts, reset_accept_ledger;
    follow; by apply moves_still.
Qed.
Lemma in_accepts_perform {A} (m : MA A) w : accepts (run_state (in_accepts m) w) = run_state m (accepts w).
Proof. unfold run_state, in_accepts. by destruct (m (accepts w)) as [a []]. Qed.
Lemma step_requests o w : exists L,
  made_of L (fun id yes who => o = OnAccepts (SessionOp (Decide id yes who))) (confs w) (confs (run_state (step o) w)).
Proof.
  destruct o as [o|o|o|a].
  - destruct (accept_step_requests o (accepts w)) as (L & E & HL). exists L. split; [|intros id yes who; rewrite HL; naive_solver].
    unfold confs. rewrite <- E. cbn [fulfil_perform].
    set (w1 := set_cards (from_outside o (cards w)) (set_caps (from_outside o (caps w)) w)). change (accepts w) with (accepts w1). rewrite <- in_accepts_perform. reflexivity.
  - apply made_of_asks; [|done]. apply (moves_caps _ w).
  - apply made_of_asks; [|done]. apply (moves_cards _ w).
  - apply made_of_asks; [|done]. enough (moves confs (step (Fulfil a))) as Hm by exact (Hm w).
    cbn [fulfil_perform]. apply moves_bind; [apply moves_gates|intros v; apply moves_ret].
Qed.

Lemma run_requests t ops : exists L,
  confs (run ops (no_fulfilments t)) = requests L (no_confirmations t)
  /\ forall id yes who, Decide id yes who ∈ L <-> OnAccepts (SessionOp (Decide id yes who)) ∈ ops.
Proof.
  induction ops as [|o ops (L & E & HL)] using rev_ind; [by exists []; split; [|intros; rewrite !elem_of_nil]|].
  unfold fulfil_run. rewrite fold_left_app. cbn [fold_left]. destruct (step_requests o (run ops (no_fulfilments t))) as (L' & E' & HL').
  exists (L ++ L')%list. split; [rewrite sessions_run_app, <- E; exact E'|]. intros id yes who. rewrite !elem_of_app, HL, HL', list_elem_of_singleton.
  naive_solver.
Qed.
(** C22. Whatever fulfilments do to the confirmation sessions is a sequence of requests
    that the sessions themselves take, and the decisions in it are just those that were
    sent as decisions: no gate decides for an owner. *)
Theorem fulfilments_refine_confirmations t ops : exists L,
  confs (run ops (no_fulfilments t)) = requests L (no_confirmations t)
  /\ forall id yes who, Decide id yes who ∈ L <-> OnAccepts (SessionOp (Decide id yes who)) ∈ ops.
Proof. apply run_requests. Qed.

(** ** Steps that were agreed to *)

Context `{!Inj (=) (=) conf_token}.
Section Agreed.
(** The decisions there were. *)
Context (D : string -> option string -> Prop).
Definition history (c : confirmations) : Prop :=
  exists t L, c = requests L (no_confirmations t) /\ forall id who, Decide id true who ∈ L -> D id who.
Lemma history_asks c L : Forall asks L -> history c -> history (requests L c).
Proof.
  intros HL (t & L0 & -> & H). exists t, (L0 ++ L)%list. split; [by rewrite sessions_run_app|].
  intros id who [Hin|Hin]%elem_of_app; [by apply H|]. rewrite Forall_forall in HL. by apply HL in Hin.
Qed.

(** A step of a role and an owner, and whether a policy may act for the owner. *)
Record due := Due { due_role : string; due_step : string; due_owner : string; due_auto : bool }.
Context (a : fulfil_args).
Definition automatic (d : due) : Prop := needs_owner (gate_of (gate_mode conf_cat (fa_scene a) (due_role d) (due_step d)) (due_auto d)) = false.
Definition yes_used (d : due) (c : confirmations) : Prop := exists id x, stored id x c
  /\ covers (fa_scene a) (due_role d) (due_step d) (due_owner d) (Some (interaction_ref a)) x = true.
Definition settled (ds : list due) (c : confirmations) : Prop := history c /\ forall d, d ∈ ds -> automatic d \/ yes_used d c.

Lemma covers_used scene_id role st owner ref x : covers scene_id role st owner ref x = true -> s_status x = USED.
Proof. unfold covers. intros H. repeat apply andb_prop in H as [H ?]. by eapply bool_decide_eq_true. Qed.
Lemma settled_asks ds c L : Forall asks L -> settled ds c -> settled ds (requests L c).
Proof.
  intros HL [Hh Hs]. split; [by apply history_asks|]. intros d Hd. destruct (Hs d Hd) as [Ha|(id & x & Hx & Hc)]; [by left|right].
  exists id, x. split; [|done]. destruct Hh as (t & L0 & -> & _). rewrite <- sessions_run_app.
  apply used_stored_stays; [done| |by eapply covers_used|done]. eapply Forall_impl; [exact HL|apply asks_lasting].
Qed.
Lemma settled_moves {S E A} (proj : S -> confirmations) (m : M S E A) ds : moves proj m -> safe (fun s => settled ds (proj s)) m.
Proof.
  intros Hm s s' r Hs Hr. destruct (Hm s) as (L & HL & E'). unfold run_state in E'. rewrite Hr in E'. cbn in E'. rewrite E'. by apply settled_asks.
Qed.
Lemma settled_more d ds c : settled ds c -> automatic d \/ yes_used d c -> settled (d :: ds) c.
Proof. intros [Hh Hs] Hd. split; [done|]. intros d' [->|Hd']%elem_of_cons; [done|by apply Hs]. Qed.
Lemma settled_less ds ds' c : ds' ⊆ ds -> settled ds c -> settled ds' c.
Proof. intros H [Hh Hs]. split; [done|]. intros d Hd. by apply Hs, H. Qed.

(** What the walk over the sessions finds is there. *)
Lemma satisfied_found t f todo : forall c c', satisfied_by f todo c = (c', Ret true) -> now c = t ->
  (forall x, f x = true -> s_status x = USED) -> exists id x, (id, x) ∈ todo /\ f x = true.
Proof.
  induction todo as [|[id x] todo IH]; intros c c' H Ht Hf; [done|]. cbn in H. apply bind_ret in H as (y & c1 & E & H).
  assert (now c1 = t /\ y = expire t x) as [Ht1 Hy].
  { unfold expire_if_needed, py_when, py_bind in E. cbn in E. destruct (past_ttl _ x); injection E as <- <-; by subst t. }
  destruct (negb (is_expired y) && f y) eqn:Hy'; [|destruct (IH c1 c' H Ht1 Hf) as (j & z & Hin & Hz); exists j, z; split; [by right|done]].
  apply andb_prop in Hy' as [_ Hy']. exists id, x. split; [by left|]. apply Hf in Hy' as Hu. subst y. unfold expire in *.
  by destruct (past_ttl t x).
Qed.

Definition party (d : due) : Prop := due_role d = "buyer" \/ due_role d = "seller".
Lemma resolve_party d s : party d -> resolve_gate conf_cat (fa_scene a) (due_role d) (due_step d) (due_auto d) s
  = (s, Ret (gate_of (gate_mode conf_cat (fa_scene a) (due_role d) (due_step d)) (due_auto d))).
Proof. by intros [-> | ->]. Qed.
Lemma history_once c : history c -> NoDup (map fst (live (memory c))).
Proof.
  intros (t & L & -> & _). eapply live_once. apply (inv_memory (P := fun _ _ => True) (I := sound)). apply run_sound.
Qed.
Lemma satisfied_yes d c c' : party d -> history c ->
  step_already_satisfied conf_cat (fa_scene a) (due_role d) (due_step d) (due_owner d) (Some (interaction_ref a)) (due_auto d) c = (c', Ret true) ->
  automatic d \/ yes_used d c'.
Proof.
  intros Hd Hh H. unfold step_already_satisfied in H. rewrite (bind_value _ _ _ _ _ (resolve_party d c Hd)) in H.
  destruct (needs_owner _) eqn:Hg; [|by left]. right. cbn [negb] in H.
  unfold ensure_sessions_loaded, ensure_loaded in H. rewrite (bind_value (py_modify memory) _ c (memory c) tt eq_refl) in H.
  rewrite (bind_value py_get _ _ _ _ eq_refl) in H. set (f := covers _ _ _ _ _) in H.
  destruct (satisfied_found _ f _ _ _ H eq_refl) as (id & x & Hin & Hx); [by intros y Hy; eapply covers_used|].
  assert (s_status x = USED) as Hu by by eapply covers_used.
  pose proof (history_once c Hh) as Hk.
  assert (holds id x 0 (memory c)) as Hs by (split; [apply memory_facts|done|by apply in_get|lia]).
  pose proof (kept_walk_satisfied (Disk Writable) (fun k y => k = id -> y = x) (holds id x 0)) as Hkept.
  assert (holds id x 0 (run_state (satisfied_by f (live (memory c))) (memory c))) as [Hl _ He _].
  { apply Hkept; [| |done].
    - intros k y y' Hy Hc E. specialize (Hy E). subst y. by eapply used_unchanged.
    - intros k y Hky ->. pose proof (in_get _ _ _ Hk Hky) as E. rewrite (held_entry _ _ _ _ Hs) in E. congruence. }
  unfold run_state in Hl, He. rewrite H in Hl, He. by exists id, x.
Qed.
Lemma assert_yes d session c c' r : party d -> due_owner d <> "" ->
  assert_step_allowed conf_cat (step_args_of a (due_role d) (due_step d) (due_owner d) session (due_auto d) true) c = (c', Ret r) ->
  automatic d \/ yes_used d c'.
Proof.
  intros Hd Ho H. destruct r as [|id x].
  - left. unfold assert_step_allowed in H. apply bind_ret in H as (u & c1 & _ & H).
    cbn [sa_scene sa_role sa_step sa_policy_auto step_args_of] in H.
    rewrite (bind_value _ _ _ _ _ (resolve_party d c1 Hd)) in H. unfold automatic. destruct (needs_owner _); [|done]. exfalso. cbn [negb] in H.
    destruct (negb _); [done|]. repeat (apply bind_ret in H as (? & ? & _ & H)). done.
  - right. apply assert_confirmed in H as (y & _ & Hy & _ & _ & Hf & -> & ->). exists id. eexists. split.
    + split; [apply memory_facts|]. cbn. apply put_get_same.
    + destruct Hf as (F1 & F2 & F3 & F4 & F5 & _). cbn in F1, F2, F3, F4, F5. unfold covers, str_eqb. cbn.
      rewrite F1, F2, F3, (F4 _ eq_refl Ho), !bool_decide_true by done. cbn [andb].
      destruct (truthy_str (s_ref y)) eqn:Ht; [|by rewrite andb_false_r]. apply truthy_str_inv in Ht as (ref & Hr & Hne).
      rewrite (F5 _ _ eq_refl ltac:(done) Hr Hne) in Hr. rewrite Hr, bool_decide_true by done. by rewrite andb_false_r.
Qed.
Lemma create_automatic d ttl c c' : party d ->
  create_confirmation_session conf_cat conf_token (create_args_of a (due_role d) (due_step d) (due_owner d) (due_auto d) ttl) c = (c', Ret None) ->
  automatic d.
Proof.
  intros Hd H. unfold create_confirmation_session in H. apply bind_ret in H as (u & c1 & _ & H).
  cbn [ca_scene ca_role ca_step ca_policy_auto create_args_of] in H. rewrite (bind_value _ _ _ _ _ (resolve_party d c1 Hd)) in H.
  unfold automatic. destruct (needs_owner _); [|done]. exfalso. cbn [negb] in H. repeat (apply bind_ret in H as (? & ? & _ & H)). done.
Qed.

(** ** The gates, one by one *)

Abbreviation good ds := (fun w => settled ds (sessions w)).

Lemma in_sessions_ret {A} (m : MC A) w w' r : in_sessions m w = (w', Ret r) -> m (sessions w) = (sessions w', Ret r).
Proof. unfold in_sessions. destruct (m (sessions w)) as [c [x|[]]]; by intros [= <- <-]. Qed.
Lemma caught_settles {A} (m : MA A) ds (Q : A -> accept_world -> Prop) : asking m -> triple (good ds) m Q ->
  triple (good ds) (caught m) (fun r w => match r with inl x => Q x w | inr _ => good ds w end).
Proof.
  intros Hm Ht w w' r Hw Hr. unfold caught in Hr. destruct (Hm w) as (L & HL & E). unfold run_state in E.
  destruct (m w) as [w1 [x|[]]] eqn:Em; try done; injection Hr as <- <-; [by apply (Ht w w1 x)|]. cbn in E. rewrite E. by apply settled_asks.
Qed.
Lemma satisfied_settles d ds : party d -> triple (good ds)
  (in_sessions (step_already_satisfied conf_cat (fa_scene a) (due_role d) (due_step d) (due_owner d) (Some (interaction_ref a)) (due_auto d)))
  (fun ok w => good (if ok then d :: ds else ds) w).
Proof.
  intros Hd w w' ok Hw Hr. pose proof (settled_moves sessions _ ds (asking_satisfied _ _ _ _ _ _) w w' ok Hw Hr) as Hs.
  destruct ok; [|done]. apply settled_more; [done|]. apply (satisfied_yes d (sessions w)); [done|apply Hw|]. by apply in_sessions_ret.
Qed.
Lemma assert_settles d session ds : party d -> due_owner d <> "" -> triple (good ds)
  (in_sessions (assert_step_allowed conf_cat (step_args_of a (due_role d) (due_step d) (due_owner d) session (due_auto d) true)))
  (fun _ w => good (d :: ds) w).
Proof.
  intros Hd Ho w w' r Hw Hr. apply settled_more; [exact (settled_moves sessions _ ds (asking_assert _) w w' r Hw Hr)|].
  apply in_sessions_ret in Hr. by eapply assert_yes.
Qed.
Lemma create_settles d ttl ds : party d -> triple (good ds)
  (in_sessions (create_confirmation_session conf_cat conf_token (create_args_of a (due_role d) (due_step d) (due_owner d) (due_auto d) ttl)))
  (fun made w => good (match made with None => d :: ds | Some _ => ds end) w).
Proof.
  intros Hd w w' r Hw Hr. pose proof (settled_moves sessions _ ds (asking_create _) w w' r Hw Hr) as Hs.
  destruct r; [done|]. apply settled_more; [done|left]. apply in_sessions_ret in Hr. by eapply create_automatic.
Qed.

Definition buyer_due (auto : bool) (step : string) : due := Due "buyer" step (fa_buyer a) auto.
Lemma buyer_party auto step : party (buyer_due auto step).
Proof. by left. Qed.
Lemma apply_settles auto step ds : fa_buyer a <> "" -> triple (good ds) (apply_session conf_cat a auto step)
  (fun b w => good (if b && negb (str_eqb step "accept_order") then buyer_due auto step :: ds else ds) w).
Proof.
  intros Hb. unfold apply_session. destruct (negb (truthy_str _)); [by apply triple_ret|].
  eapply triple_bind; [apply (caught_settles _ ds (fun b w => good (if b && negb (str_eqb step "accept_order") then buyer_due auto step :: ds else ds) w))|].
  - follow.
  - eapply triple_frame; [apply settled_moves, asking_get|intros x]. destruct (_ && _); [|by apply triple_ret].
    destruct (str_eqb step "accept_order").
    + eapply triple_frame; [apply settled_moves, asking_assert|intros _]. by apply triple_ret.
    + eapply triple_bind; [apply (assert_settles (buyer_due auto step)); [apply buyer_party|done]|intros ?]. by apply triple_ret.
  - intros [b|m]; by apply triple_ret.
Qed.
(** The steps that are settled when the money step is kept back. *)
Definition before_money (deferred : bool) (steps : list string) : list string :=
  List.filter (fun st => negb (deferred && str_eqb st "accept_order")) steps.
Lemma buyer_settles auto all_steps steps : fa_buyer a <> "" -> forall ds deferred, triple (good ds)
  (buyer_gate conf_cat conf_token a auto all_steps steps deferred)
  (fun r w => match r with
              | inl _ => True
              | inr d => (deferred = true -> d = true) /\ good (map (buyer_due auto) (before_money d steps) ++ ds)%list w
              end).
Proof.
  intros Hb. induction steps as [|st steps IH]; intros ds deferred; cbn [buyer_gate]; [by apply triple_ret|].
  assert (forall df : bool, (deferred = true -> df = true) -> triple (good (buyer_due auto st :: ds)) (buyer_gate conf_cat conf_token a auto all_steps steps df)
    (fun r w => match r with
                | inl _ => True
                | inr d => (deferred = true -> d = true) /\ good (map (buyer_due auto) (before_money d (st :: steps)) ++ ds)%list w
                end)) as Hnext.
  { intros df Hdf. eapply triple_post; [|apply IH]. intros [v|d] w; [done|]. intros [H1 H2]. split; [auto|]. eapply settled_less; [|exact H2].
    cbn. destruct (negb _); cbn; set_solver. }
  eapply triple_bind; [apply (satisfied_settles (buyer_due auto st)), buyer_party|]. intros [|]; [by apply Hnext|].
  eapply triple_bind; [by apply apply_settles|]. intros [|].
  - destruct (str_eqb st "accept_order") eqn:Hst; cbn [andb negb].
    + eapply triple_post; [|apply IH]. intros [v|d] w; [done|]. rewrite orb_true_r. intros [H1 H2]. split; [auto|]. cbn. rewrite (H1 eq_refl), Hst.
      cbn. by rewrite (H1 eq_refl) in H2.
    + apply Hnext. by rewrite orb_false_r.
  - cbn [andb]. eapply triple_bind; [apply (create_settles (buyer_due auto st)), buyer_party|]. intros [[id x]|]; [|by apply Hnext].
    eapply triple_frame; [apply settled_moves, asking_next|intros n]. by apply triple_ret.
Qed.

Definition seller_auto (forced : bool) : bool :=
  negb (is_high_risk_scene conf_cat (fa_scene a)) && negb forced && policy_covers (fa_seller_policy a) (fa_amount a).
Definition seller_due (forced : bool) : due := Due "seller" "accept_order" (fa_seller a) (seller_auto forced).
Lemma seller_party forced : party (seller_due forced).
Proof. by right. Qed.
Lemma still_good {B} ds (m : MA B) : asking m -> triple (good ds) m (fun _ => good ds).
Proof. apply settled_moves. Qed.
Lemma answer_settles forced ds : fa_seller a <> "" -> triple (good ds) (apply_seller_session conf_cat accept_cat a (seller_auto forced))
  (fun r w => good (match r with SellerAccepted _ => seller_due forced :: ds | _ => ds end) w).
Proof.
  intros Hs. unfold apply_seller_session. destruct (negb (truthy_str _)); [by apply triple_ret|].
  eapply triple_bind; [apply (caught_settles _ ds (fun r w => good (match r with SellerAccepted _ => seller_due forced :: ds | _ => ds end) w))|].
  - follow. apply asking_caught. follow.
  - eapply triple_frame; [apply still_good, asking_caught; follow|]. intros [u|m].
    + eapply triple_bind; [apply (assert_settles (seller_due forced)); [apply seller_party|done]|intros ?].
      eapply triple_frame; [apply still_good, asking_confirm|intros done]. by apply triple_ret.
    + eapply triple_frame; [apply still_good; follow|]. intros [r|]; [by apply triple_ret|apply triple_raise].
  - intros [r|m]; by apply triple_ret.
Qed.
Lemma accepts_settle forced ds : fa_seller a <> "" -> triple (good ds) (seller_accepts conf_cat conf_token accept_cat a forced)
  (fun r w => match r with inl _ => True | inr _ => good (seller_due forced :: ds) w end).
Proof.
  intros Hs. unfold seller_accepts. fold (seller_auto forced).
  assert (triple (good (seller_due forced :: ds)) (let! l := arm accept_cat a in py_ret (inr l : go_on liability))
    (fun r w => match r with inl _ => True | inr _ => good (seller_due forced :: ds) w end)) as Harm.
  { eapply triple_frame; [apply still_good, asking_arm|intros l]. by apply triple_ret. }
  eapply triple_bind; [apply (satisfied_settles (seller_due forced)), seller_party|]. intros [|]; [done|].
  eapply triple_bind; [by apply answer_settles|]. intros [r|l|]; [by apply triple_ret|by apply triple_ret|].
  eapply triple_frame; [apply still_good, asking_ttl|intros ttl].
  eapply triple_bind; [apply (create_settles (seller_due forced)), seller_party|]. intros [[id x]|]; [by apply triple_ret|done].
Qed.

(** The profile read twice is the same. *)
Lemma entry_again seller w w1 w2 e e' : seller_entry_of seller w = (w1, Ret e) -> seller_entry_of seller w1 = (w2, Ret e') -> e' = e.
Proof.
  unfold seller_entry_of, ensure_book_loaded, py_bind. cbn. destruct (negb _); [|done].
  assert (book_loaded (book_memory w) = true) as Hl by (unfold book_memory; by destruct (book_loaded w) eqn:?). revert Hl.
  generalize (book_memory w) as v. intros v Hl. cbn. destruct (dict_get _ _) as [x|] eqn:Hx; intros [= <- <-]; cbn.
  - unfold book_memory. rewrite Hl, Hx. by intros [= _ <-].
  - unfold book_memory. cbn. rewrite Hl. cbn. rewrite put_get_same. by intros [= _ <-].
Qed.
Lemma profile_again seller scene_id w w1 w2 p p' : seller_risk_profile accept_cat seller scene_id w = (w1, Ret p) ->
  seller_risk_profile accept_cat seller scene_id w1 = (w2, Ret p') -> p' = p.
Proof.
  unfold seller_risk_profile. intros (e & v & He & [= <- <-])%bind_ret (e' & v' & He' & [= <- <-])%bind_ret.
  by rewrite (entry_again _ _ _ _ _ _ He He').
Qed.
(** Whether the seller must answer. *)
Definition seller_must (risk : risk_profile) : Prop :=
  g_mode (gate_of (gate_mode conf_cat (fa_scene a) "seller" "accept_order") false) = "OWNER_CONFIRM" \/ a_force (r_tier risk) = true.
Lemma seller_settles ds : fa_seller a <> "" -> triple (good ds) (seller_gate conf_cat conf_token accept_cat a)
  (fun r w => match r with
              | inl _ => True
              | inr (risk, _) => good ds w /\ (fa_require_owner a = true -> seller_must risk -> good (seller_due (a_force (r_tier risk)) :: ds) w)
              end).
Proof.
  intros Hs w w' r Hw Hr. unfold seller_gate in Hr.
  apply bind_ret in Hr as (risk & w1 & H1 & Hr). apply bind_ret in Hr as (forced & w2 & H2 & Hr).
  assert (forced = a_force (r_tier risk)) as ->.
  { unfold seller_requires_forced_confirm in H2. apply bind_ret in H2 as (p & w3 & H2 & [= <- <-]). by rewrite (profile_again _ _ _ _ _ _ _ H1 H2). }
  apply (still_good ds _ (asking_profile _ _) w) in H1; [|done]. apply (still_good ds _ (asking_forced _ _) w1) in H2; [|done].
  apply bind_ret in Hr as (owner & w3 & H3 & Hr).
  assert (good ds w3 /\ (fa_require_owner a = true -> seller_must risk -> owner || a_force (r_tier risk) = true)) as [Hw3 Hmust].
  { destruct (fa_require_owner a); [|by injection H3 as <- <-]. split; [by apply (still_good ds _ (asking_must _) w2) in H3|]. intros _ Hm.
    apply in_sessions_ret in H3. unfold seller_must_confirm_accept in H3.
    rewrite (bind_value _ _ _ _ _ (resolve_party (Due "seller" "accept_order" "" false) _ (or_intror eq_refl))) in H3. injection H3 as _ <-.
    destruct Hm as [Hm|Hm]; [|by rewrite Hm, orb_true_r]. cbn in Hm. apply orb_true_iff. left. by apply bool_decide_eq_true. }
  apply bind_ret in Hr as (hit & w4 & H4 & Hr). apply (still_good ds _ (asking_check _ _ _ _) w3) in H4; [|done].
  destruct hit as [rep|]; [by injection Hr as <- <-|]. destruct (fa_require_owner a && _) eqn:Hreq.
  - apply bind_ret in Hr as (q & w5 & H5 & Hr). apply (accepts_settle _ ds Hs w4) in H5; [|done].
    destruct q as [v|l]; injection Hr as <- <-; [done|]. split; [|done]. eapply settled_less; [|exact H5]. set_solver.
  - apply bind_ret in Hr as (l & w5 & H5 & Hr). apply (still_good ds _ (asking_arm _ _ _ _ _) w4) in H5; [|done].
    injection Hr as <- <-. split; [done|]. intros Hro Hm. by rewrite Hro, (Hmust Hro Hm) in Hreq.
Qed.
End Agreed.

(** ** A fulfilment that is cleared *)

Lemma in_accepts_ret {A} (m : MA A) w w' r : in_accepts m w = (w', Ret r) -> m (accepts w) = (accepts w', Ret r).
Proof. unfold in_accepts. by destruct (m (accepts w)) as [c [x|e]]; intros [= <- <-]. Qed.
Lemma require_ret {S E} b (e : E) (s s' : S) u : py_require b e s = (s', Ret u) -> b = true /\ s' = s.
Proof. by destruct b; intros [= <-]. Qed.
Lemma get_again id c c1 c2 x y : get_capture id c = (c1, Ret x) -> get_capture id c1 = (c2, Ret y) -> y = x.
Proof.
  intros [-> Hx]%get_ret [_ Hy]%get_ret. assert (memory (memory c) = memory c) as E.
  { unfold memory at 1. by destruct (memory_facts c) as [-> _]. }
  rewrite E in Hy. congruence.
Qed.
Lemma finalize_matched id c c' r : finalize_triple_match master_key hkdf aes_decrypt json_loads read_iso id c = (c', Ret r) ->
  r.1 = true -> cap_status r.2 = MATCHED.
Proof.
  unfold finalize_triple_match. intros (x & c1 & _ & H)%bind_ret Hr. destruct (bool_decide _) eqn:E.
  { injection H as <- <-. by eapply bool_decide_eq_true. }
  repeat match type of H with
  | (match ?b with _ => _ end) _ = _ => destruct b; try done
  | (if ?b then _ else _) _ = _ => destruct b
  end; repeat apply bind_ret in H as (? & ? & _ & H); try done; try by injection H as <- <-.
Qed.
Lemma lock_matched a c c' x : lock a c = (c', Ret x) -> cap_status x = MATCHED
  /\ (demo = false -> cap_scene x = fa_scene a /\ cap_ref x = interaction_ref a).
Proof.
  unfold lock_fields. destruct (truthy_str (fa_capture a)).
  - unfold require_matched_capture. intros (y & c1 & Hg & H)%bind_ret. repeat (apply bind_must in H as [? H]).
    apply bind_ret in H as (z & c2 & Hg' & H). destruct (decrypt_canonical_fields _ _ _ _ _ _ _ _ _) as [fs|]; [|done].
    apply bind_must in H as [? H]. injection H as <- <-. rewrite (get_again _ _ _ _ _ _ Hg Hg').
    repeat match goal with H : bool_decide _ = true |- _ => apply bool_decide_eq_true in H | H : str_eqb _ _ = true |- _ => apply bool_decide_eq_true in H end.
    split; [done|]. intros _. split; [done|]. match goal with H : negb _ || _ = true |- _ => cbn in H; apply bool_decide_eq_true in H; congruence end.
  - destruct (_ && _) eqn:Hd; [|done]. apply andb_prop in Hd as [[_ Hd]%andb_prop _]. intros H. split; [|congruence]. revert H.
    destruct (match fa_fields a with Some _ => _ | None => _ end) as [fs|]; [|done].
    unfold auto_triple_lock_fields. intros H. do 5 (apply bind_ret in H as (? & ? & _ & H)). apply bind_ret in H as (r & c1 & Hf & H).
    apply bind_must in H as [Hr H]. injection H as _ <-. by apply (finalize_matched _ _ _ _ Hf).
Qed.

Definition buyer_auto (a : fulfil_args) : bool :=
  fa_require_owner a && negb (is_high_risk_scene conf_cat (fa_scene a)) && policy_covers (fa_buyer_policy a) (fa_amount a).
(** What a clearance has passed, over the sessions the gates leave. *)
Record passed (D : string -> option string -> Prop) (a : fulfil_args) (c : clearance) (w' : fulfil_world) : Prop := Passed {
  passed_bypass : fa_require_owner a = false -> demo = true /\ is_high_risk_scene conf_cat (fa_scene a) = false;
  passed_buyer : fa_require_owner a = true ->
    settled D a (map (buyer_due a (buyer_auto a)) (buyer_fulfill_confirm_steps conf_cat (fa_scene a))) (confs w');
  passed_seller : fa_require_owner a = true -> seller_must a (cl_risk c) -> settled D a [seller_due a (a_force (r_tier (cl_risk c)))] (confs w');
  passed_fields : must_match_fields conf_cat a = true -> exists x, cl_fields c = Some x /\ cap_status x = MATCHED
    /\ (demo = false -> cap_scene x = fa_scene a /\ cap_ref x = interaction_ref a)
}.
(** The steps, once the one kept back is among the settled. *)
Lemma all_steps_settled D a auto deferred steps ds c :
  settled D a (map (buyer_due a auto) (before_money deferred steps) ++ ds) c ->
  (deferred = true -> buyer_due a auto "accept_order" ∈ ds) -> settled D a (map (buyer_due a auto) steps) c.
Proof.
  intros H Hd. eapply settled_less; [|exact H]. intros d Hin. apply elem_of_app.
  apply list_elem_of_fmap in Hin as (st & -> & Hst). destruct (deferred && str_eqb st "accept_order") eqn:E.
  - apply andb_prop in E as [E Est%bool_decide_eq_true]. subst st. right. by apply Hd.
  - left. apply list_elem_of_fmap. exists st. split; [done|]. unfold before_money.
    apply list_elem_of_In, filter_In. rewrite E. split; [by apply list_elem_of_In|done].
Qed.
Abbreviation kept_back a deferred steps := (map (buyer_due a (buyer_auto a)) (before_money deferred steps)).
Lemma buyer_passed D a steps w w' deferred : fa_buyer a <> "" -> settled D a [] (confs w) ->
  in_accepts (if fa_require_owner a then buyer_gate conf_cat conf_token a (buyer_auto a) steps steps false else py_ret (inr false)) w
    = (w', Ret (inr deferred)) ->
  settled D a (if fa_require_owner a then kept_back a deferred steps else []) (confs w').
Proof.
  intros Hb H0 Hbuy%in_accepts_ret. destruct (fa_require_owner a); [|injection Hbuy as E _; unfold confs; by rewrite <- E].
  apply (buyer_settles D a (buyer_auto a) steps steps Hb [] false) in Hbuy as [_ Hbuy]; [by rewrite app_nil_r in Hbuy|done].
Qed.
(** The money step, used up after the fields were matched. *)
Lemma money_passed D a steps w w' deferred u : fa_buyer a <> "" ->
  settled D a (if fa_require_owner a then kept_back a deferred steps else []) (confs w) ->
  (if fa_require_owner a && deferred
   then in_confirmations (assert_step_allowed conf_cat (step_args_of a "buyer" "accept_order" (fa_buyer a) (fa_session a) (buyer_auto a) true)) ;;;
        py_ret tt
   else py_ret tt) w = (w', Ret u) ->
  settled D a (if fa_require_owner a then map (buyer_due a (buyer_auto a)) steps else []) (confs w').
Proof.
  intros Hb Hw H. destruct (fa_require_owner a); [|by injection H as <- _]. destruct deferred; cbn [andb] in H.
  - apply bind_ret in H as (y & w1 & Hm & [= <- _]). apply in_accepts_ret in Hm.
    pose proof (assert_settles D a (buyer_due a (buyer_auto a) "accept_order") (fa_session a) _ (buyer_party a _ _) Hb _ _ _ Hw Hm) as Hd.
    apply (all_steps_settled D a (buyer_auto a) true steps [buyer_due a (buyer_auto a) "accept_order"]); [|by left].
    eapply settled_less; [|exact Hd]. intros d [Hin|Hin]%elem_of_app; [by right|]. apply list_elem_of_singleton in Hin as ->. by left.
  - injection H as <- _. apply (all_steps_settled D a (buyer_auto a) false steps []); [by rewrite app_nil_r|done].
Qed.
Lemma fields_passed a w w' fields : (if must_match_fields conf_cat a then tried (lock a) else py_ret None) w = (w', Ret fields) ->
  must_match_fields conf_cat a && bool_decide (fields = None) = false -> must_match_fields conf_cat a = true ->
  exists x, fields = Some x /\ cap_status x = MATCHED /\ (demo = false -> cap_scene x = fa_scene a /\ cap_ref x = interaction_ref a).
Proof.
  intros Hf Hnone Hm. rewrite Hm in *. cbn in Hnone. destruct fields as [x|]; [|by rewrite bool_decide_true in Hnone].
  exists x. split; [done|]. unfold tried in Hf. destruct (lock a (caps w)) as [c' [y|e]] eqn:El; [|done]. injection Hf as _ E. subst y.
  by eapply lock_matched.
Qed.
Abbreviation verdict_on card a := (assert_seller_boundary_for_fulfill conf_cat standard demo card (fa_scene a)
  (fa_seller_row a ≫= ar_class) (fa_seller_row a ≫= ar_hash) (bool_decide (ar_p1_ready <$> fa_seller_row a = Some true))).
Lemma boundary_gate_ret a w w' u : seller_boundary_gate conf_cat standard demo a w = (w', Ret u) ->
  w' = set_cards (memory (cards w)) w /\ exists r, verdict_on (dict_get (fa_seller a) (live (memory (cards w)))) a = Ret r.
Proof.
  unfold seller_boundary_gate, py_bind, in_cards, get_agent_boundary, ensure_loaded. cbn. intros H.
  destruct (assert_seller_boundary_for_fulfill _ _ _ _ _ _ _ _) as [r|[]] eqn:E; [|done..]. injection H as <-. by split; [|exists r].
Qed.
Lemma gates_passed D a w w' c : fa_buyer a <> "" -> history D (confs w) -> gates a w = (w', Ret (Cleared c)) -> passed D a c w'.
Proof.
  intros Hb Hh H. unfold fulfil_gates in H.
  apply bind_ret in H as (u1 & w1 & [_ ->]%require_ret & H). apply bind_ret in H as (u2 & w2 & [Hs ->]%require_ret & H).
  apply bind_ret in H as (u3 & w3 & [_ ->]%require_ret & H). apply bind_ret in H as (u4 & w4 & [_ ->]%require_ret & H).
  apply bind_ret in H as (u5 & w5 & [-> _]%boundary_gate_ret & H). apply bind_ret in H as (u6 & w6 & [Hr ->]%require_ret & H).
  apply negb_true_iff, bool_decide_eq_false in Hs. fold (buyer_auto a) in H. cbv zeta in H. fold (buyer_auto a) in H.
  apply bind_ret in H as (r & w7 & Hbuy & H). destruct r as [v|deferred]; [done|].
  apply (buyer_passed D) in Hbuy; [|done|by split; [|intros d Hd%not_elem_of_nil]].
  apply bind_ret in H as (fields & w8 & Hf & H).
  assert (safe (fun w => settled D a (if fa_require_owner a then kept_back a deferred (buyer_fulfill_confirm_steps conf_cat (fa_scene a)) else []) (confs w))
    (if must_match_fields conf_cat a then tried (lock a) else py_ret None)) as Hsafe by (apply settled_moves; follow).
  specialize (Hsafe _ _ _ Hbuy Hf). cbn beta in Hsafe.
  destruct (must_match_fields conf_cat a && bool_decide (fields = None)) eqn:Hnone; [done|].
  apply bind_ret in H as (u9 & w9 & Hmoney & H). apply (money_passed D a (buyer_fulfill_confirm_steps conf_cat (fa_scene a))) in Hmoney; [|done..].
  apply bind_ret in H as (r & w10 & Hsel & H). apply in_accepts_ret in Hsel. destruct r as [v|[risk l]]; [done|].
  injection H as <- <-. pose proof (seller_settles D a _ Hs (accepts w9) _ _ Hmoney Hsel) as [Hall Hseller]. split; cbn [cl_risk cl_fields].
  - intros Hreq. rewrite Hreq in Hr. cbn in Hr. apply negb_true_iff, orb_false_iff in Hr as [Hr1 Hr2]. split; [by apply negb_false_iff|done].
  - intros Hreq. by rewrite Hreq in Hall.
  - intros Hreq Hm. eapply settled_less; [|by apply Hseller]. by intros d ->%list_elem_of_singleton; left.
  - by eapply fields_passed.
Qed.

(** C20. In every run of fulfilments, requests for confirmation, records of sellers and
    captures, restarts and failing disks: a fulfilment that is cleared has, for every
    step its scene asks of the buyer, a session of that buyer, scene, step and pair of
    parties that is used up and to which the owner sent a yes, unless the step needs no
    owner or a saved policy covers the amount; the same for the seller where scene or
    record call for it; and a matched capture where fields must be locked.  Only a
    demonstration outside high risk goes without. *)
Theorem cleared_by_owners t ops a w' c : gates a (run ops (no_fulfilments t)) = (w', Ret (Cleared c)) -> fa_buyer a <> "" ->
  let agreed role step owner auto :=
    needs_owner (gate_of (gate_mode conf_cat (fa_scene a) role step) auto) = false
    \/ exists id x, dict_get id (live (confs w')) = Some x
         /\ covers (fa_scene a) role step owner (Some (interaction_ref a)) x = true
         /\ OnAccepts (SessionOp (Decide id true (Some owner))) ∈ ops in
  (fa_require_owner a = false -> demo = true /\ is_high_risk_scene conf_cat (fa_scene a) = false)
  /\ (fa_require_owner a = true ->
       (forall step, step ∈ buyer_fulfill_confirm_steps conf_cat (fa_scene a) -> agreed "buyer" step (fa_buyer a) (buyer_auto a))
       /\ (seller_must a (cl_risk c) -> agreed "seller" "accept_order" (fa_seller a) (seller_auto a (a_force (r_tier (cl_risk c))))))
  /\ (must_match_fields conf_cat a = true -> exists x, cl_fields c = Some x /\ cap_status x = MATCHED
       /\ (demo = false -> cap_scene x = fa_scene a /\ cap_ref x = interaction_ref a)).
Proof.
  intros H Hb agreed. destruct (run_requests t ops) as (L & E & HL).
  set (D := fun id who => OnAccepts (SessionOp (Decide id true who)) ∈ ops).
  assert (history D (confs (run ops (no_fulfilments t)))) as Hh by (exists t, L; split; [done|]; intros id who Hin; by apply HL).
  assert (forall d ds, settled D a ds (confs w') -> d ∈ ds -> agreed (due_role d) (due_step d) (due_owner d) (due_auto d)) as Hagreed.
  { intros d ds [(t' & L' & E' & HD) Hs] Hd. destruct (Hs d Hd) as [Ha|(id & x & [_ Hx] & Hc)]; [by left|right]. exists id, x.
    split; [done|]. split; [done|]. apply HD. rewrite E' in Hx.
    destruct (in_memory _ _ _ (sessions_asked conf_cat conf_token t' L') id x (get_in _ _ _ Hx)) as (L1 & q & L2 & -> & _ & _ & _ & Hyes).
    apply elem_of_app. right. right. pose proof (covers_used _ _ _ _ _ _ Hc) as Hu.
    assert (s_owner x = due_owner d) as <-; [|apply Hyes; rewrite Hu; set_solver].
    unfold covers in Hc. apply andb_prop in Hc as [[[_ Ho]%andb_prop _]%andb_prop _]. exact (proj1 (bool_decide_eq_true _) Ho). }
  destruct (gates_passed D a _ _ _ Hb Hh H) as [P1 P2 P3 P4]. split; [done|]. split; [|done]. intros Hreq. split.
  - intros st Hst. apply (Hagreed (buyer_due a (buyer_auto a) st) _ (P2 Hreq)). apply list_elem_of_fmap. by exists st.
  - intros Hm. apply (Hagreed (seller_due a _) _ (P3 Hreq Hm)). by left.
Qed.

(** ** A seller who missed an order *)

Section Missed.
Context (ev : accept_event).
Definition on_record (w : accept_world) : Prop := ev ∈ events (book (book_memory w)).
Abbreviation recorded_still := (keeps (E := accept_error) on_record).

Lemma memory_again w : book_memory (book_memory w) = book_memory w.
Proof. unfold book_memory. by destruct (book_loaded w) eqn:E; rewrite ?E. Qed.
Lemma record_sessions {A} (m : MC A) : recorded_still (in_sessions m).
Proof.
  intros w. unfold on_record, run_state, in_sessions, book_memory. by destruct (m (sessions w)) as [c [x|[]]]; cbn; destruct (book_loaded w).
Qed.
Lemma record_caught {A} (m : MA A) : recorded_still m -> recorded_still (caught m).
Proof. intros Hm w Hw. specialize (Hm w Hw). unfold run_state, caught in *. by destruct (m w) as [? [|[]]]. Qed.
Lemma record_load : recorded_still ensure_book_loaded.
Proof. apply keeps_modify. intros w. unfold on_record. by rewrite memory_again. Qed.
Hint Resolve record_sessions record_caught record_load : keeps.
Lemma record_apply a auto st : recorded_still (apply_session conf_cat a auto st).
Proof. unfold apply_session. keep. apply record_caught. keep. Qed.
Hint Resolve record_apply : keeps.
Lemma record_buyer a auto all_steps steps deferred : recorded_still (buyer_gate conf_cat conf_token a auto all_steps steps deferred).
Proof. revert deferred. induction steps as [|st steps IH]; intros deferred; cbn [buyer_gate]; keep. Qed.
Lemma record_entry seller : recorded_still (seller_entry_of seller).
Proof.
  intros w Hw. unfold run_state, seller_entry_of, ensure_book_loaded, py_bind. cbn. destruct (negb _); cbn.
  - destruct (dict_get _ _); cbn; unfold on_record in *; [by rewrite memory_again|].
    assert (book_loaded (book_memory w) = true) as Hl by (unfold book_memory; by destruct (book_loaded w) eqn:?).
    unfold book_memory at 1. cbn. by rewrite Hl.
  - unfold on_record in *. by rewrite memory_again.
Qed.
Hint Resolve record_buyer record_entry : keeps.
Lemma record_profile seller scene_id : recorded_still (seller_risk_profile accept_cat seller scene_id).
Proof. unfold seller_risk_profile. keep. Qed.
Hint Resolve record_profile : keeps.
Lemma record_process id : triple on_record (process_expired_seller_session accept_cat id true) (fun r w => r = None -> on_record w).
Proof.
  intros w w' r Hw H. unfold process_expired_seller_session in H. apply bind_ret in H as (x & w1 & Ht & H).
  assert (on_record w1) as H1.
  { eapply keeps_at; [|exact Hw|exact Ht]. unfold try_session. keep. }
  destruct x as [x|]; [|by injection H as <- <-]. destruct (negb _); [by injection H as <- <-|]. cbn zeta in H.
  destruct (_ && _); [apply bind_ret in H as (? & ? & _ & H); by injection H as _ <-|]. destruct (negb _); [by injection H as <- <-|].
  apply bind_ret in H as (? & ? & _ & H). apply bind_ret in H as (? & ? & _ & H). by injection H as _ <-.
Qed.
Lemma record_hits seller scene_id ref session w w' : timed_out seller ref ev = true -> truthy_str ref = true -> on_record w ->
  check_interaction_seller_timeout accept_cat seller scene_id ref session w <> (w', Ret None).
Proof.
  intros Hev Href Hw H. unfold check_interaction_seller_timeout in H. apply bind_ret in H as (out & w1 & Ho & H).
  destruct out as [o|]; [done|]. assert (on_record w1) as H1.
  { destruct (truthy_str session); [by apply (record_process _ _ _ _ Hw Ho)|by injection Ho as <-]. }
  rewrite Href in H. cbn [negb] in H. apply bind_ret in H as (u & w2 & [= <- _] & H). apply bind_ret in H as (v & w3 & [= <- <-] & H).
  destruct (List.find _ _) as [e|] eqn:Hf.
  - apply bind_ret in H as (? & ? & _ & H). done.
  - pose proof (find_none _ _ Hf ev) as Hn. rewrite Hev in Hn. apply Bool.diff_true_false, Hn. rewrite <- in_rev. by apply list_elem_of_In.
Qed.
End Missed.

(** Code: while a timeout of a seller in dealings with a buyer is on record, no fulfilment
    between the two is cleared.  An order is named by its parties, so that the timeout of
    one order cancels every later one; the ledger means a timeout to be no ban. *)
Theorem missed_pair_never_clears a w ev : ev ∈ events (book (book_memory (accepts w))) ->
  timed_out (fa_seller a) (Some (interaction_ref a)) ev = true ->
  forall w' c, gates a w <> (w', Ret (Cleared c)).
Proof.
  intros Hev Ht w' c H. unfold fulfil_gates in H. do 4 (apply bind_ret in H as (? & ? & [_ ->]%require_ret & H)).
  apply bind_ret in H as (? & ? & [-> _]%boundary_gate_ret & H). apply bind_ret in H as (? & ? & [_ ->]%require_ret & H).
  apply bind_ret in H as (r & w7 & Hb & H). apply in_accepts_ret in Hb.
  assert (on_record ev (accepts w7)) as H7.
  { eapply keeps_at; [|exact Hev|exact Hb]. destruct (fa_require_owner a); [apply record_buyer|apply keeps_ret]. }
  destruct r as [h|deferred]; [done|]. apply bind_ret in H as (f & w8 & Hf & H).
  assert (accepts w8 = accepts w7) as E8.
  { destruct (must_match_fields conf_cat a); [|by injection Hf as <-]. unfold tried in Hf. by destruct (lock a (caps w7)) as [? []]; injection Hf as <- _. }
  rewrite <- E8 in H7. destruct (_ && bool_decide (f = None)); [done|]. apply bind_ret in H as (u & w9 & Hm & H).
  assert (on_record ev (accepts w9)) as H9.
  { destruct (_ && deferred); [|by injection Hm as <- _]. apply bind_ret in Hm as (y & w10 & Hm & [= <- _]). apply in_accepts_ret in Hm.
    eapply keeps_at; [|exact H7|exact Hm]. apply record_sessions. }
  apply bind_ret in H as (s & w10 & Hs & H). apply in_accepts_ret in Hs. destruct s as [h|p]; [done|]. clear H.
  unfold seller_gate in Hs. apply bind_ret in Hs as (risk & v1 & E1 & Hs). apply bind_ret in Hs as (forced & v2 & E2 & Hs).
  apply bind_ret in Hs as (owner & v3 & E3 & Hs). apply bind_ret in Hs as (hit & v4 & E4 & Hs). destruct hit as [rep|]; [done|].
  refine (record_hits ev _ _ _ _ v3 v4 Ht eq_refl _ E4).
  eapply keeps_at; [| |exact E3]; [destruct (fa_require_owner a); [apply record_sessions|apply keeps_ret]|].
  eapply keeps_at; [| |exact E2]; [unfold seller_requires_forced_confirm; apply keeps_bind; [apply record_profile|intros; apply keeps_ret]|].
  eapply keeps_at; [| |exact E1]; [apply record_profile|done].
Qed.

(** ** The card of the seller *)

Abbreviation cards_sound w := (everywhere (sound_card conf_cat standard) 0 (cards w)).
Lemma keeps_cards {A} (m : MFu A) : (forall w, cards (run_state m w) = cards w) -> keeps (fun w => cards_sound w) m.
Proof. intros H w. by rewrite H. Qed.
Lemma cards_accepts {A} (m : MA A) : keeps (fun w => cards_sound w) (in_accepts m).
Proof. apply keeps_cards. intros w. unfold run_state, in_accepts. by destruct (m (accepts w)) as [? []]. Qed.
Lemma cards_caps {A} (m : MF A) : keeps (fun w => cards_sound w) (in_caps m).
Proof. apply keeps_cards. intros w. unfold run_state, in_caps. by destruct (m (caps w)) as [? []]. Qed.
Lemma cards_tried {A} (m : MF A) : keeps (fun w => cards_sound w) (tried m).
Proof. apply keeps_cards. intros w. unfold run_state, tried. by destruct (m (caps w)) as [? []]. Qed.
Lemma cards_cards {A} (m : MB A) : keeps (everywhere (sound_card conf_cat standard) 0) m -> keeps (fun w => cards_sound w) (in_cards m).
Proof. intros Hm w Hw. specialize (Hm _ Hw). revert Hm. unfold run_state, in_cards. by destruct (m (cards w)) as [? []]. Qed.
Hint Resolve cards_accepts cards_caps cards_tried : keeps.
Lemma cards_boundary a : keeps (fun w => cards_sound w) (seller_boundary_gate conf_cat standard demo a).
Proof.
  unfold seller_boundary_gate. apply keeps_bind; [apply cards_cards; unfold get_agent_boundary; keep|intros card; keep].
Qed.
Hint Resolve cards_boundary : keeps.

End Fulfilling.

(** ** Ann and a shop *)

#[local] Instance tokens_inj : Inj (=) (=) ConfirmationRuns.tallies.
Proof. intros n. induction n as [|n IH]; intros [|m] H; try done. injection H as H. f_equal. by apply IH. Qed.
Definition tools_catalog : catalog :=
  Catalog [("api_tool_call", Scene [("accept_order", "OWNER_CONFIRM")] [("accept_order", "OWNER_CONFIRM")] false)] [] [].
Definition agents_standard : boundary_catalog := BoundaryCatalog ["discover"; "accept_order"] "notes" ";" [] (fun _ => true).
Definition shop_card : profile_card :=
  ProfileCard ["api_tool_call"] [] JNull [("api_tool_call", JObj [("price", JStr "12.50")])] (JStr "nothing else") JNull JNull JNull JNull [] JNull None.
Definition shop_row : agent_row := AgentRow (Some "Shop") "worker" (Some "merchant") ["api.translate"] None None true true.
Definition publishes : fulfil_op :=
  OnCards (PublishBoundary (Materialize "shop" (Some "Shop") "worker" (Some "merchant") ["api.translate"] [] shop_card None None false true)).
Abbreviation deal_gates := (fulfil_gates tools_catalog ConfirmationRuns.tallies standard agents_standard false FieldsRuns.counted FieldsRuns.random_bytes FieldsRuns.a_key
  FieldsRuns.derive FieldsRuns.seal_with FieldsRuns.open_with FieldsRuns.loads FieldsRuns.api_scenes FieldsRuns.never_iso (fun _ => None) FieldsRuns.counted).
Abbreviation deal_run := (fulfil_run tools_catalog ConfirmationRuns.tallies standard agents_standard false FieldsRuns.counted FieldsRuns.random_bytes FieldsRuns.a_key
  FieldsRuns.derive FieldsRuns.seal_with FieldsRuns.open_with FieldsRuns.loads FieldsRuns.api_scenes FieldsRuns.never_iso (fun _ => None) FieldsRuns.counted).
Definition order (amount : float) (session seller_session : option string) (fields : option bool) (capture : option string) : fulfil_args :=
  FulfilArgs "ann" "shop" amount "api_tool_call" None (Some shop_row) true session seller_session None None fields capture None false.
Definition price : float := float_of_ratio 25 2.
Definition lock_deal : list fulfil_op :=
  publishes :: map OnCaptures
    [CreateCapture (CaptureArgs "api_tool_call" FieldsRuns.deal "fulfill:ann:shop" 3600 (Some "ann") (Some "shop"));
     SubmitSealed (FieldsRuns.sends "buyer" "nonce-of-ann" (Some "ann")); SubmitSealed (FieldsRuns.sends "seller" "nonce-of-shop" (Some "shop"));
     Finalize "cap_"].
Definition says_yes (id who : string) : fulfil_op := OnAccepts (SessionOp (Decide id true (Some who))).
Definition haggling : list fulfil_op :=
  (lock_deal ++
   [Fulfil (order price None None None None); says_yes "cfm_" "ann"; Fulfil (order price (Some "cfm_") None None (Some "cap_"));
    OnAccepts (SessionOp (Pass 60000000)); says_yes "cfm_a" "shop"])%list.
Definition closing : fulfil_args := order price (Some "cfm_") (Some "cfm_a") None (Some "cap_").
Definition cleared (v : outcome fulfil_error verdict) : bool := match v with Ret (Cleared _) => true | _ => false end.
Lemma closing_clears : cleared (deal_gates closing (deal_run haggling (no_fulfilments 0))).2 = true.
Proof. vm_compute. reflexivity. Qed.
Lemma cleared_out (r : fulfil_world * outcome fulfil_error verdict) : cleared r.2 = true -> exists w c, r = (w, Ret (Cleared c)).
Proof. destruct r as [w [[|c]|]]; [done| |done]. by exists w, c. Qed.

Lemma cleared_by_owners_witness : exists w' c, deal_gates closing (deal_run haggling (no_fulfilments 0)) = (w', Ret (Cleared c))
  /\ (exists id x, dict_get id (live (confs w')) = Some x /\ s_status x = USED /\ says_yes id "ann" ∈ haggling)
  /\ exists x, cl_fields c = Some x /\ cap_status x = MATCHED.
Proof.
  destruct (cleared_out _ closing_clears) as (w' & c & H). exists w', c. split; [exact H|].
  destruct (cleared_by_owners _ _ _ _ _ _ _ _ _ _ _ _ _ _ _ _ 0 haggling closing w' c H ltac:(discriminate)) as (_ & Hbuyer & Hfields). split.
  - destruct (proj1 (Hbuyer eq_refl) "accept_order" ltac:(by left)) as [Ha|(id & x & Hx & Hc & Hd)]; [vm_compute in Ha; discriminate|].
    exists id, x. split; [exact Hx|]. split; [by eapply covers_used|exact Hd].
  - destruct (Hfields eq_refl) as (x & Hx & Hm & _). exists x. exact (conj Hx Hm).
Defined.


Definition missed_deal : list fulfil_op :=
  [OnAccepts (RecordNonConfirm "timeout" (RecordArgs "shop" "api_tool_call" (Some "fulfill:ann:shop") (Some "cfm_9") None))].
Lemma missed_pair_never_clears_witness : exists ev, ev ∈ events (book (book_memory (accepts (deal_run missed_deal (no_fulfilments 0)))))
  /\ forall w' c, deal_gates closing (deal_run missed_deal (no_fulfilments 0)) <> (w', Ret (Cleared c)).
Proof.
  destruct (events (book (book_memory (accepts (deal_run missed_deal (no_fulfilments 0)))))) as [|ev evs] eqn:E; [vm_compute in E; discriminate|].
  exists ev. split; [by left|]. intros w' c. apply (missed_pair_never_clears _ _ _ _ _ _ _ _ _ _ _ _ _ _ _ _ closing _ ev).
  - rewrite E. by left.
  - vm_compute in E. injection E as <- _. vm_compute. reflexivity.
Defined.

(** ** Where code and words part *)

(** Code: the yes that one order used up passes every later order of the pair in the
    scene, whatever it costs, and without a session of either side. *)
Lemma one_yes_pays_again :
  let w := run_state (deal_gates closing) (deal_run haggling (no_fulfilments 0)) in
  cleared (deal_gates (order (float_of_ratio 1000000 1) None None (Some false) None) w).2 = true.
Proof. vm_compute. reflexivity. Qed.
(** Code: what was locked is asked of common scenes too, unless the request says that it
    is not: then nothing is. *)
Lemma request_drops_fields :
  must_match_fields tools_catalog (order price None None None None) = true
  /\ must_match_fields tools_catalog (order price None None (Some false) None) = false.
Proof. by vm_compute. Qed.
