(* ===== verification/CommerceOrders.v ===== *)
(** * MiniApp commerce orders ([services/miniapp_commerce/orders.py], [timeout_sweep.py], the bills of [pipeline.py])

    The order state machine with its parallel fulfilment state, the payment policy
    over binary64 amounts, persistence, and the sweep that refunds stalled orders.
    [_ORDERS] is an insertion-ordered dict of mutable objects: an operation changes
    the object in place, which is replacing the value under its key.  The state
    also holds the clock, the random tokens drawn and the contents of the orders
    file. *)

From S2P Require Import Prelude PyBytes PyJson PyFloat.
#[local] Open Scope string_scope.

Inductive OrderStatus : Type :=
| DRAFT | QUOTED | SIGNED | POLICY_CHECKED | LOCKED | EXECUTED | EVIDENCE_SUBMITTED
| VERIFIED | SETTLED | REFUNDED | REJECTED.

#[export] Instance OrderStatus_eq_dec : EqDecision OrderStatus.
Proof. solve_decision. Defined.

Definition OrderStatus_value (s : OrderStatus) : string :=
  match s with
  | DRAFT => "DRAFT" | QUOTED => "QUOTED" | SIGNED => "SIGNED"
  | POLICY_CHECKED => "POLICY_CHECKED" | LOCKED => "LOCKED" | EXECUTED => "EXECUTED"
  | EVIDENCE_SUBMITTED => "EVIDENCE_SUBMITTED" | VERIFIED => "VERIFIED" | SETTLED => "SETTLED"
  | REFUNDED => "REFUNDED" | REJECTED => "REJECTED"
  end.

Inductive FulfillmentStatus : Type :=
| F_PENDING_ACCEPT | F_ACCEPTED | F_PROCESSING | F_DELIVERED | F_VERIFIED | F_SETTLED
| F_DISPUTED | F_REFUNDED.

#[export] Instance FulfillmentStatus_eq_dec : EqDecision FulfillmentStatus.
Proof. solve_decision. Defined.

Definition FulfillmentStatus_value (s : FulfillmentStatus) : string :=
  match s with
  | F_PENDING_ACCEPT => "PENDING_ACCEPT" | F_ACCEPTED => "ACCEPTED"
  | F_PROCESSING => "PROCESSING" | F_DELIVERED => "DELIVERED" | F_VERIFIED => "VERIFIED"
  | F_SETTLED => "SETTLED" | F_DISPUTED => "DISPUTED" | F_REFUNDED => "REFUNDED"
  end.

(** An amount or limit as a JSON document gives it. *)
Inductive py_num : Type := NInt (n : Z) | NFloat (x : float) | NStr (s : string).

Definition num_truthy (v : py_num) : bool :=
  match v with
  | NInt n => negb (n =? 0)%Z
  | NFloat x => ftruthy x
  | NStr s => negb (str_eqb s "")
  end.
(** [float(v)]; [None] is the [ValueError] of a string that is no number.  Integers are
    those a float can hold, the others raise in Python. *)
Definition num_float (v : py_num) : option float :=
  match v with
  | NInt n => Some (float_of_int n)
  | NFloat x => Some x
  | NStr s => float_of_str s
  end.

Record PaymentPolicy := Policy {
  single_limit_usdc : option py_num;
  daily_limit_usdc : option py_num;
  spent_today_usdc : option py_num;
  infinite_approve : bool;
  allowed_agents : list string
}.

(** What [policy_result] holds; the code stores the limits as text. *)
Inductive policy_result_t : Type :=
| PolicyRejected (reason : string)
| PolicyOk (self_deal : bool) (single daily spent_today : float).

Record history_item := History { h_at : Z; h_status : OrderStatus; h_note : string }.

Record MiniAppOrder := Order {
  order_id : string;
  buyer_identity_id : string;
  seller_identity_id : option string;
  builder_address : option string;
  intent : list (string * json);
  offer : option (list (string * json));
  status : OrderStatus;
  fulfillment_status : FulfillmentStatus;
  amount_usdc : string;
  buyer_wallet : option string;
  seller_wallet : option string;
  binding_id : option Z;
  evidence : option (list (string * json));
  verification_run_id : option string;
  created_at : Z;
  updated_at : Z;
  signatures : gmap string string;
  policy_result : option policy_result_t;
  history : list history_item
}.

(** Field assignments. *)
Definition set_status (s : OrderStatus) (f : FulfillmentStatus) (o : MiniAppOrder) : MiniAppOrder :=
  Order (order_id o) (buyer_identity_id o) (seller_identity_id o) (builder_address o) (intent o)
    (offer o) s f (amount_usdc o) (buyer_wallet o) (seller_wallet o) (binding_id o) (evidence o)
    (verification_run_id o) (created_at o) (updated_at o) (signatures o) (policy_result o) (history o).
Definition set_offer (of_ : list (string * json)) (seller : string) (wallet builder : option string)
    (amount : string) (o : MiniAppOrder) : MiniAppOrder :=
  Order (order_id o) (buyer_identity_id o) (Some seller) builder (intent o) (Some of_) QUOTED
    F_PENDING_ACCEPT amount (buyer_wallet o) wallet (binding_id o) (evidence o)
    (verification_run_id o) (created_at o) (updated_at o) (signatures o) (policy_result o) (history o).
Definition set_evidence (e : list (string * json)) (o : MiniAppOrder) : MiniAppOrder :=
  Order (order_id o) (buyer_identity_id o) (seller_identity_id o) (builder_address o) (intent o)
    (offer o) (status o) (fulfillment_status o) (amount_usdc o) (buyer_wallet o) (seller_wallet o)
    (binding_id o) (Some e) (verification_run_id o) (created_at o) (updated_at o) (signatures o)
    (policy_result o) (history o).
Definition set_signature (role signature : string) (o : MiniAppOrder) : MiniAppOrder :=
  Order (order_id o) (buyer_identity_id o) (seller_identity_id o) (builder_address o) (intent o)
    (offer o) (status o) (fulfillment_status o) (amount_usdc o) (buyer_wallet o) (seller_wallet o)
    (binding_id o) (evidence o) (verification_run_id o) (created_at o) (updated_at o)
    (<[role := signature]> (signatures o)) (policy_result o) (history o).
Definition set_policy (r : policy_result_t) (o : MiniAppOrder) : MiniAppOrder :=
  Order (order_id o) (buyer_identity_id o) (seller_identity_id o) (builder_address o) (intent o)
    (offer o) (status o) (fulfillment_status o) (amount_usdc o) (buyer_wallet o) (seller_wallet o)
    (binding_id o) (evidence o) (verification_run_id o) (created_at o) (updated_at o) (signatures o)
    (Some r) (history o).
Definition set_refs (binding : option Z) (run : option string) (o : MiniAppOrder) : MiniAppOrder :=
  Order (order_id o) (buyer_identity_id o) (seller_identity_id o) (builder_address o) (intent o)
    (offer o) (status o) (fulfillment_status o) (amount_usdc o) (buyer_wallet o) (seller_wallet o)
    binding (evidence o) run (created_at o) (updated_at o) (signatures o) (policy_result o) (history o).
Definition stamp (at_ : Z) (note : string) (o : MiniAppOrder) : MiniAppOrder :=
  Order (order_id o) (buyer_identity_id o) (seller_identity_id o) (builder_address o) (intent o)
    (offer o) (status o) (fulfillment_status o) (amount_usdc o) (buyer_wallet o) (seller_wallet o)
    (binding_id o) (evidence o) (verification_run_id o) (created_at o) at_ (signatures o)
    (policy_result o) (history o ++ [History at_ (status o) note])%list.

(** A bill of [pipeline.py]. *)
Record Bill := MkBill {
  bill_id : string;
  bill_order_id : string;
  bill_buyer_wallet : option string;
  bill_seller_wallet : option string;
  bill_amount_usdc : string;
  bill_status : string;
  bill_binding_id : option Z;
  bill_created_at : Z
}.

Record commerce := Commerce {
  orders : list (string * MiniAppOrder);
  bills : list Bill;
  disk : option (list MiniAppOrder);
  disk_ok : bool;
  now : Z;
  drawn : nat
}.

(** Assigning under an existing key keeps its place. *)
Fixpoint replace (k : string) (v : MiniAppOrder) (d : list (string * MiniAppOrder)) :
    list (string * MiniAppOrder) :=
  match d with
  | [] => []
  | (k', v') :: r => if bool_decide (k = k') then (k, v) :: r else (k', v') :: replace k v r
  end.

(** [d[k] = v] *)
Definition dict_set (k : string) (v : MiniAppOrder) (d : list (string * MiniAppOrder)) :
    list (string * MiniAppOrder) :=
  match dict_get k d with Some _ => replace k v d | None => d ++ [(k, v)] end.

Definition set_orders (d : list (string * MiniAppOrder)) (c : commerce) : commerce :=
  Commerce d (bills c) (disk c) (disk_ok c) (now c) (drawn c).
Definition set_bills (b : list Bill) (c : commerce) : commerce :=
  Commerce (orders c) b (disk c) (disk_ok c) (now c) (drawn c).

Section Commerce.
Context (token_hex : nat -> string).
Abbreviation MC := (M commerce py_exn).
#[local] Open Scope py_scope.

(** [_persist]: every order of the dict; a failed write is swallowed. *)
Definition persist (c : commerce) : commerce :=
  Commerce (orders c) (bills c) (if disk_ok c then Some (map snd (orders c)) else disk c) (disk_ok c)
    (now c) (drawn c).

(** [_touch], with the assignments that precede it. *)
Definition touch (o : MiniAppOrder) (note : string) : MC MiniAppOrder :=
  let! c := py_get in
  let o' := stamp (now c) note o in
  py_modify (fun c => persist (set_orders (replace (order_id o) o' (orders c)) c)) ;;;
  py_ret o'.

Definition get_order (id : string) : MC MiniAppOrder :=
  let! c := py_get in
  match dict_get id (orders c) with
  | None => py_raise (KeyError "order not found")
  | Some o => py_ret o
  end.

(** [x.lower() if x else None] *)
Definition lower_wallet (w : option string) : option string :=
  if truthy_str w then py_lower <$> w else None.

(** [str(v)] of an amount given as text or as an integer. *)
Definition amount_text (v : Z + string) : string :=
  match v with inl n => py_str_int n | inr s => s end.
(** [str(v or "0")] *)
Definition amount_or_zero (v : option (Z + string)) : string :=
  match v with
  | None => "0"
  | Some (inl n) => if (n =? 0)%Z then "0" else py_str_int n
  | Some (inr s) => if str_eqb s "" then "0" else s
  end.

(** [create_order]: the new order is stamped and persisted before it enters the
    dict. *)
Definition create_order (buyer : string) (int : list (string * json)) (amount : option (Z + string))
    (wallet builder : option string) : MC MiniAppOrder :=
  let! c := py_get in
  let id := ("ord_" ++ token_hex (drawn c))%string in
  let o := Order id buyer None (lower_wallet builder) int None DRAFT F_PENDING_ACCEPT
             (amount_or_zero amount) (lower_wallet wallet) None None None None (now c) (now c) ∅ None [] in
  let o := stamp (now c) "created" o in
  py_modify persist ;;;
  py_modify (fun c => Commerce (dict_set id o (orders c)) (bills c) (disk c) (disk_ok c) (now c)
                        (S (drawn c))) ;;;
  py_ret o.

Definition attach_offer (id : string) (of_ : list (string * json)) (amount : option (Z + string))
    (builder : option string) (seller : string) (wallet : option string) : MC MiniAppOrder :=
  let! o := get_order id in
  touch (set_offer of_ seller (lower_wallet wallet)
           (if truthy_str builder then py_lower <$> builder else builder_address o)
           (match amount with Some a => amount_text a | None => amount_usdc o end) o)
    "offer_attached".

Definition accept_order (id : string) : MC MiniAppOrder :=
  let! o := get_order id in
  py_require (mem (fulfillment_status o) [F_PENDING_ACCEPT])
    (ValueError ("cannot accept from fulfillment: " ++ FulfillmentStatus_value (fulfillment_status o))) ;;;
  py_require (mem (status o) [QUOTED; SIGNED; POLICY_CHECKED; LOCKED])
    (ValueError ("cannot accept from status: " ++ OrderStatus_value (status o))) ;;;
  touch (set_status (status o) F_ACCEPTED o) "fulfillment_accepted".

Definition start_processing (id : string) : MC MiniAppOrder :=
  let! o := get_order id in
  py_require (mem (status o) [LOCKED]) (ValueError "funds must be locked before processing") ;;;
  py_require (mem (fulfillment_status o) [F_ACCEPTED])
    (ValueError ("cannot start processing from fulfillment: "
                   ++ FulfillmentStatus_value (fulfillment_status o))) ;;;
  touch (set_status (status o) F_PROCESSING o) "fulfillment_processing".

Definition deliver_order (id : string) (ev : list (string * json)) : MC MiniAppOrder :=
  let! o := get_order id in
  py_require (mem (status o) [LOCKED]) (ValueError "funds must be locked before delivery") ;;;
  py_require (mem (fulfillment_status o) [F_ACCEPTED; F_PROCESSING])
    (ValueError ("cannot deliver from fulfillment: " ++ FulfillmentStatus_value (fulfillment_status o))) ;;;
  let! o := touch (set_status EVIDENCE_SUBMITTED F_DELIVERED (set_evidence ev o)) "evidence_submitted" in
  touch o "fulfillment_delivered".

Definition sign_order (id role signature : string) : MC MiniAppOrder :=
  let! o := get_order id in
  let o := set_signature role signature o in
  if bool_decide (is_Some (signatures o !! "buyer")) && bool_decide (is_Some (signatures o !! "seller"))
  then touch (set_status SIGNED (fulfillment_status o) o) "both_signed"
  else touch o ("signed:" ++ role).

(** [float(policy.get(k) or d)] *)
Definition limit_or (v : option py_num) (d : float) : MC float :=
  match v with
  | Some n => if num_truthy n
              then match num_float n with
                   | Some x => py_ret x
                   | None => py_raise (ValueError "could not convert string to float")
                   end
              else py_ret d
  | None => py_ret d
  end.

(** The literal [1e18]. *)
Definition NO_LIMIT : float := float_of_int 1000000000000000000.

Definition reject (o : MiniAppOrder) (reason : string) : MC MiniAppOrder :=
  touch (set_policy (PolicyRejected reason) (set_status REJECTED (fulfillment_status o) o))
    "policy_rejected" ;;;
  py_raise (PermissionError reason).

Definition apply_policy (id : string) (p : PaymentPolicy) : MC MiniAppOrder :=
  let! o := get_order id in
  py_require (mem (status o) [SIGNED; QUOTED; POLICY_CHECKED])
    (ValueError ("invalid status for policy: " ++ OrderStatus_value (status o))) ;;;
  let! amount := limit_or (Some (NStr (amount_usdc o))) fzero in
  let! single := limit_or (single_limit_usdc p) NO_LIMIT in
  let! daily := limit_or (daily_limit_usdc p) NO_LIMIT in
  let! spent_today := limit_or (spent_today_usdc p) fzero in
  if infinite_approve p then py_raise (PermissionError "infinite USDC approve forbidden")
  else if fgtb amount single then reject o "single_limit_exceeded"
  else if fgtb (fadd spent_today amount) daily then reject o "daily_limit_exceeded"
  else if negb (bool_decide (allowed_agents p = [])) && truthy_str (seller_identity_id o)
          && negb (str_mem (default "" (seller_identity_id o)) (allowed_agents p))
  then reject o "agent_not_allowlisted"
  else
    let self_deal := truthy_str (buyer_wallet o) && truthy_str (seller_wallet o)
                     && bool_decide (buyer_wallet o = seller_wallet o) in
    touch (set_status POLICY_CHECKED (fulfillment_status o)
             (set_policy (PolicyOk self_deal single daily spent_today) o)) "policy_ok".

Definition mark_locked (id : string) (binding : option Z) : MC MiniAppOrder :=
  let! o := get_order id in
  py_require (mem (status o) [POLICY_CHECKED]) (ValueError "policy check required before lock") ;;;
  touch (set_status LOCKED (fulfillment_status o) (set_refs binding (verification_run_id o) o)) "locked".

Definition submit_evidence (id : string) (ev : list (string * json)) : MC MiniAppOrder :=
  let! o := get_order id in
  py_require (mem (status o) [LOCKED; EXECUTED; EVIDENCE_SUBMITTED])
    (ValueError "order must be locked before evidence") ;;;
  let f := if mem (fulfillment_status o) [F_PENDING_ACCEPT; F_ACCEPTED; F_PROCESSING]
           then F_DELIVERED else fulfillment_status o in
  touch (set_status EVIDENCE_SUBMITTED f (set_evidence ev o)) "evidence_submitted".

Definition mark_verified (id run_id : string) : MC MiniAppOrder :=
  let! o := get_order id in
  touch (set_status VERIFIED F_VERIFIED (set_refs (binding_id o) (Some run_id) o)) "verified".

Definition mark_settled (id : string) : MC MiniAppOrder :=
  let! o := get_order id in
  py_require (mem (status o) [VERIFIED]) (ValueError "verification PASS required before settle") ;;;
  touch (set_status SETTLED F_SETTLED o) "settled".

(** The dash of the message is written as a comma. *)
Definition mark_refunded (id : string) : MC MiniAppOrder :=
  let! o := get_order id in
  py_require (negb (mem (status o) [SETTLED])) (ValueError "already settled, cannot refund") ;;;
  touch (set_status REFUNDED F_REFUNDED o) "refunded".

Definition mark_disputed (id : string) : MC MiniAppOrder :=
  let! o := get_order id in
  if mem (fulfillment_status o) [F_SETTLED; F_REFUNDED] then py_ret o
  else touch (set_status (status o) F_DISPUTED o) "fulfillment_disputed".

Definition restore_fulfillment (id : string) : MC MiniAppOrder :=
  let! o := get_order id in
  if negb (mem (fulfillment_status o) [F_DISPUTED]) then py_ret o
  else
    let f := match status o with
             | EVIDENCE_SUBMITTED => F_DELIVERED
             | VERIFIED => F_VERIFIED
             | SETTLED => F_SETTLED
             | _ => F_ACCEPTED
             end in
    touch (set_status (status o) f o) "fulfillment_restored".

(** ** Queries *)

Definition is_party (id : string) (o : MiniAppOrder) : bool :=
  str_eqb (buyer_identity_id o) id || bool_decide (seller_identity_id o = Some id).
Definition select_orders (f : MiniAppOrder -> bool) (c : commerce) : list MiniAppOrder :=
  List.filter f (map snd (orders c)).
Definition list_orders_for_identity (id : string) := select_orders (is_party id).
Definition orders_as_buyer (id : string) := select_orders (fun o => str_eqb (buyer_identity_id o) id).
Definition orders_as_seller (id : string) :=
  select_orders (fun o => bool_decide (seller_identity_id o = Some id)).
Definition orders_in_progress (id : string) :=
  select_orders (fun o => is_party id o && mem (status o) [LOCKED; EXECUTED; EVIDENCE_SUBMITTED; VERIFIED]).
Definition orders_in_dispute (id : string) :=
  select_orders (fun o => is_party id o
                          && (mem (status o) [REJECTED] || mem (fulfillment_status o) [F_DISPUTED])).

(** [_load], at start: the readable orders of the file. *)
Definition load (c : commerce) : commerce :=
  Commerce (map (fun o => (order_id o, o)) (default [] (disk c))) [] (disk c) (disk_ok c) (now c) (drawn c).

(** ** Bills ([pipeline.py]) *)

Definition create_bill (oid : string) (buyer seller : option string) (amount : string) : MC Bill :=
  let! c := py_get in
  let b := MkBill ("bill_" ++ token_hex (drawn c)) oid (lower_wallet buyer) (lower_wallet seller) amount
             "created" None (now c) in
  py_modify (fun c => Commerce (orders c) (bills c ++ [b])%list (disk c) (disk_ok c) (now c)
                        (S (drawn c))) ;;;
  py_ret b.

Definition get_bill_by_order (oid : string) (c : commerce) : option Bill :=
  List.find (fun b => str_eqb (bill_order_id b) oid) (bills c).

Definition set_bill_status (s : string) (b : Bill) : Bill :=
  MkBill (bill_id b) (bill_order_id b) (bill_buyer_wallet b) (bill_seller_wallet b)
    (bill_amount_usdc b) s (bill_binding_id b) (bill_created_at b).

(** [update_bill(order_id, status=s)]: the first bill of the order. *)
Fixpoint update_first (oid s : string) (l : list Bill) : list Bill :=
  match l with
  | [] => []
  | b :: r => if str_eqb (bill_order_id b) oid then set_bill_status s b :: r
              else b :: update_first oid s r
  end.
Definition update_bill_status (oid s : string) : MC unit :=
  let! c := py_get in
  match get_bill_by_order oid c with
  | None => py_raise (KeyError "bill not found")
  | Some _ => py_modify (fun c => set_bills (update_first oid s (bills c)) c)
  end.

(** ** [timeout_sweep.py] *)

Record sweep_report := Report {
  refunded : list string;
  skipped_disputed : Z;
  scanned : Z;
  disabled : bool
}.

(** One iteration of the loop over the snapshot of the orders; the order is the
    object in the dict. *)
Definition sweepable (o : MiniAppOrder) : bool := mem (status o) [LOCKED; EXECUTED; EVIDENCE_SUBMITTED].
Definition is_disputed (o : MiniAppOrder) : bool := mem (fulfillment_status o) [F_DISPUTED].
Definition stale (cutoff : float) (o : MiniAppOrder) : bool :=
  negb (fgtb (float_of_int (updated_at o)) cutoff).

Fixpoint sweep_loop (cutoff : float) (l : list (string * MiniAppOrder)) (r : sweep_report)
    (c : commerce) : commerce * sweep_report :=
  match l with
  | [] => (c, r)
  | (id, o) :: rest =>
      if negb (sweepable o) then sweep_loop cutoff rest r c
      else
        let r := Report (refunded r) (skipped_disputed r) (scanned r + 1) false in
        if is_disputed o
        then sweep_loop cutoff rest (Report (refunded r) (skipped_disputed r + 1) (scanned r) false) c
        else if negb (stale cutoff o) then sweep_loop cutoff rest r c
        else
          match mark_refunded (order_id o) c with
          | (c', Raise _) => sweep_loop cutoff rest r c'
          | (c', Ret _) =>
              let c'' := run_state (update_bill_status (order_id o) "refunded") c' in
              sweep_loop cutoff rest
                (Report (refunded r ++ [order_id o])%list (skipped_disputed r) (scanned r) false) c''
          end
  end.

Definition sweep_timed_out_escrows (hours : Z) (at_ : float) (c : commerce) : commerce * sweep_report :=
  if (hours <=? 0)%Z then (c, Report [] 0 0 true)
  else sweep_loop (fsub at_ (float_of_int (hours * 3600))) (orders c) (Report [] 0 0 false) c.
End Commerce.

(** ** Operations and runs *)

Inductive commerce_op : Type :=
| CreateOrder (buyer : string) (int : list (string * json)) (amount : option (Z + string))
    (wallet builder : option string)
| AttachOffer (id : string) (of_ : list (string * json)) (amount : option (Z + string))
    (builder : option string) (seller : string) (wallet : option string)
| AcceptOrder (id : string)
| StartProcessing (id : string)
| DeliverOrder (id : string) (ev : list (string * json))
| SignOrder (id role signature : string)
| ApplyPolicy (id : string) (p : PaymentPolicy)
| MarkLocked (id : string) (binding : option Z)
| SubmitEvidence (id : string) (ev : list (string * json))
| MarkVerified (id run_id : string)
| MarkSettled (id : string)
| MarkRefunded (id : string)
| MarkDisputed (id : string)
| RestoreFulfillment (id : string)
| CreateBill (oid : string) (buyer seller : option string) (amount : string)
| UpdateBill (oid s : string)
| Sweep (hours : Z) (at_ : float)
| Restart
| SetClock (t : Z)
| SetDisk (ok : bool).

Section Runs.
Context (token_hex : nat -> string).

Definition commerce_step (op : commerce_op) (c : commerce) : commerce :=
  match op with
  | CreateOrder b i a w bd => run_state (create_order token_hex b i a w bd) c
  | AttachOffer id o a bd s w => run_state (attach_offer id o a bd s w) c
  | AcceptOrder id => run_state (accept_order id) c
  | StartProcessing id => run_state (start_processing id) c
  | DeliverOrder id ev => run_state (deliver_order id ev) c
  | SignOrder id r s => run_state (sign_order id r s) c
  | ApplyPolicy id p => run_state (apply_policy id p) c
  | MarkLocked id b => run_state (mark_locked id b) c
  | SubmitEvidence id ev => run_state (submit_evidence id ev) c
  | MarkVerified id r => run_state (mark_verified id r) c
  | MarkSettled id => run_state (mark_settled id) c
  | MarkRefunded id => run_state (mark_refunded id) c
  | MarkDisputed id => run_state (mark_disputed id) c
  | RestoreFulfillment id => run_state (restore_fulfillment id) c
  | CreateBill o b s a => run_state (create_bill token_hex o b s a) c
  | UpdateBill o s => run_state (update_bill_status o s) c
  | Sweep h t => (sweep_timed_out_escrows h t c).1
  | Restart => load c
  | SetClock t => Commerce (orders c) (bills c) (disk c) (disk_ok c) t (drawn c)
  | SetDisk ok => Commerce (orders c) (bills c) (disk c) ok (now c) (drawn c)
  end.
Definition commerce_run (ops : list commerce_op) (c : commerce) : commerce :=
  fold_left (fun c op => commerce_step op c) ops c.
End Runs.

Definition empty_commerce (t : Z) : commerce := Commerce [] [] None true t 0.

(** ** Orders as an abstract machine *)

(** Where each status can be entered from. *)
Definition order_edge (a b : OrderStatus) : bool :=
  match b with
  | QUOTED | SIGNED | VERIFIED => true
  | POLICY_CHECKED | REJECTED => mem a [SIGNED; QUOTED; POLICY_CHECKED]
  | LOCKED => mem a [POLICY_CHECKED]
  | EVIDENCE_SUBMITTED => mem a [LOCKED; EXECUTED; EVIDENCE_SUBMITTED]
  | SETTLED => mem a [VERIFIED]
  | REFUNDED => negb (mem a [SETTLED])
  | DRAFT | EXECUTED => false
  end.
Definition order_step (a b : OrderStatus) : bool := bool_decide (a = b) || order_edge a b.

(** The amount the policy check reads. *)
Definition order_amount (o : MiniAppOrder) : option float :=
  if str_eqb (amount_usdc o) "" then Some fzero else float_of_str (amount_usdc o).

(** The recorded policy result accepts the order's amount. *)
Definition within_limits (o : MiniAppOrder) : Prop :=
  exists self_deal single daily spent amount,
    policy_result o = Some (PolicyOk self_deal single daily spent)
    /\ order_amount o = Some amount
    /\ fgtb amount single = false /\ fgtb (fadd spent amount) daily = false.
Definition gated (s : OrderStatus) : bool := mem s [POLICY_CHECKED; LOCKED; EXECUTED; EVIDENCE_SUBMITTED].

Record evolves (o o' : MiniAppOrder) : Prop := {
  ev_id : order_id o' = order_id o;
  ev_history : exists note, history o' = (history o ++ [History (updated_at o') (status o') note])%list;
  ev_step : order_step (status o) (status o') = true;
  ev_gate : gated (status o') = true ->
            within_limits o' \/ (gated (status o) = true /\ amount_usdc o' = amount_usdc o
                                 /\ policy_result o' = policy_result o)
}.

Definition fresh_order (id : string) (o : MiniAppOrder) : Prop :=
  order_id o = id /\ status o = DRAFT
  /\ exists note, history o = [History (updated_at o) DRAFT note].

(** What one update of the store can do to the orders and their file. *)
Inductive commerce_rel (c c' : commerce) : Prop :=
| rel_write :
    orders c' = orders c -> (disk c' = disk c \/ disk c' = Some (map snd (orders c))) ->
    commerce_rel c c'
| rel_update id o o' :
    dict_get id (orders c) = Some o -> evolves o o' -> orders c' = replace id o' (orders c) ->
    (disk c' = disk c \/ disk c' = Some (map snd (orders c'))) -> commerce_rel c c'
| rel_new id o :
    fresh_order id o -> orders c' = dict_set id o (orders c) -> disk c' = disk c ->
    commerce_rel c c'
| rel_load :
    orders c' = map (fun o => (order_id o, o)) (default [] (disk c)) -> disk c' = disk c ->
    commerce_rel c c'.

Section Refinement.
Implicit Types (c : commerce) (o x : MiniAppOrder).

(** Every order is filed under its own id. *)
Definition keyed c : Prop := forall k o, dict_get k (orders c) = Some o -> order_id o = k.

Lemma replace_get k o d j :
  dict_get j (replace k o d)
  = if bool_decide (j = k) then (match dict_get k d with Some _ => Some o | None => None end)
    else dict_get j d.
Proof.
  induction d as [|[k' v] d IH]; cbn; [by destruct (bool_decide (j = k))|].
  destruct (decide (k = k')) as [<-|Hk].
  - rewrite (bool_decide_true (k = k)) by done. cbn.
    destruct (decide (j = k)) as [->|Hj]; [by rewrite !bool_decide_true by done|].
    by rewrite !bool_decide_false by done.
  - rewrite (bool_decide_false (k = k')) by done. cbn. rewrite IH.
    destruct (decide (j = k')) as [->|Hj].
    + rewrite (bool_decide_true (k' = k')), (bool_decide_false (k' = k)) by done. done.
    + by rewrite (bool_decide_false (j = k')) by done.
Qed.

Lemma dict_set_get k o d j :
  dict_get j (dict_set k o d) = if bool_decide (j = k) then Some o else dict_get j d.
Proof.
  unfold dict_set. destruct (dict_get k d) eqn:E.
  - rewrite replace_get, E. done.
  - rewrite dict_get_app. cbn. destruct (decide (j = k)) as [->|Hj].
    + by rewrite E, !bool_decide_true by done.
    + rewrite !bool_decide_false by done. by destruct (dict_get j d).
Qed.

Lemma load_get l k o : dict_get k (map (fun o => (order_id o, o)) l) = Some o -> order_id o = k /\ o ∈ l.
Proof.
  intros H%dict_get_In%in_map_iff. destruct H as (x & [= <- <-] & Hx). split; [done|].
  by apply list_elem_of_In.
Qed.

Lemma keyed_step c c' : keyed c -> commerce_rel c c' -> keyed c'.
Proof.
  intros Hk [H1 _|id o o' Hg He H1 _|id o Hf H1 _|H1 _] k x; rewrite H1.
  - apply Hk.
  - rewrite replace_get, Hg. destruct (decide (k = id)) as [->|Hne].
    + rewrite bool_decide_true by done. intros [= <-]. rewrite (ev_id _ _ He). by apply Hk.
    + rewrite bool_decide_false by done. apply Hk.
  - rewrite dict_set_get. destruct (decide (k = id)) as [->|Hne].
    + rewrite bool_decide_true by done. intros [= <-]. apply Hf.
    + rewrite bool_decide_false by done. apply Hk.
  - apply load_get.
Qed.

Lemma keyed_steps c c' : keyed c -> rtc commerce_rel c c' -> keyed c'.
Proof. intros Hk H. induction H; eauto using keyed_step. Qed.

Lemma evolves_stamp o x t note :
  order_id x = order_id o -> history x = history o -> order_step (status o) (status x) = true ->
  (gated (status x) = true ->
   within_limits x \/ (gated (status o) = true /\ amount_usdc x = amount_usdc o
                       /\ policy_result x = policy_result o)) ->
  evolves o (stamp t note x).
Proof. intros H1 H2 H3 H4. split; [done| |done|done]. exists note. cbn. by rewrite H2. Qed.

Lemma touch_eq x note c :
  touch x note c
  = (persist (set_orders (replace (order_id x) (stamp (now c) note x) (orders c)) c),
     Ret (stamp (now c) note x)).
Proof. reflexivity. Qed.

Lemma touch_rel c id o x note :
  keyed c -> dict_get id (orders c) = Some o ->
  order_id x = order_id o -> history x = history o -> order_step (status o) (status x) = true ->
  (gated (status x) = true ->
   within_limits x \/ (gated (status o) = true /\ amount_usdc x = amount_usdc o
                       /\ policy_result x = policy_result o)) ->
  commerce_rel c (run_state (touch x note) c).
Proof.
  intros Hk Hg H1 H2 H3 H4. unfold run_state. rewrite touch_eq. cbn [fst].
  pose proof (Hk _ _ Hg) as Hid. eapply (rel_update _ _ id o (stamp (now c) note x)).
  - done.
  - by apply evolves_stamp.
  - cbn. by rewrite H1, Hid.
  - cbn. destruct (disk_ok c); auto.
Qed.

(** The same when the status, the amount and the policy result stay. *)
Lemma touch_same c id o x note :
  keyed c -> dict_get id (orders c) = Some o ->
  order_id x = order_id o -> history x = history o -> status x = status o ->
  amount_usdc x = amount_usdc o -> policy_result x = policy_result o ->
  commerce_rel c (run_state (touch x note) c).
Proof.
  intros Hk Hg H1 H2 H3 H4 H5. eapply touch_rel; [done..| |].
  - unfold order_step. by rewrite H3, bool_decide_true.
  - rewrite H3. by right.
Qed.

(** An operation that starts by looking its order up. *)
Lemma get_order_bind {B} c id (k : MiniAppOrder -> M commerce py_exn B) :
  py_bind (get_order id) k c
  = match dict_get id (orders c) with
    | None => (c, Raise (KeyError "order not found"))
    | Some o => k o c
    end.
Proof. unfold py_bind, get_order, py_bind, py_get. by destruct (dict_get id (orders c)). Qed.

Lemma require_bind {S E B} (b : bool) (e : E) (k : unit -> M S E B) s :
  py_bind (py_require b e) k s = if b then k tt s else (s, Raise e).
Proof. by destruct b. Qed.

Lemma rel_refl c : commerce_rel c c.
Proof. apply rel_write; auto. Qed.

Lemma limit_bind {B} v d (k : float -> M commerce py_exn B) c :
  (exists e, py_bind (limit_or v d) k c = (c, Raise e))
  \/ (exists y, py_bind (limit_or v d) k c = k y c /\ limit_or v d c = (c, Ret y)).
Proof.
  unfold limit_or, py_bind. destruct v as [n|]; [|right; by eexists].
  destruct (num_truthy n); [|right; by eexists].
  destruct (num_float n) eqn:E; [right; by eexists|left; by eexists].
Qed.

Lemma amount_limit o c y :
  limit_or (Some (NStr (amount_usdc o))) fzero c = (c, Ret y) -> order_amount o = Some y.
Proof.
  unfold limit_or, order_amount, num_truthy, num_float.
  destruct (str_eqb (amount_usdc o) ""); cbn; [by intros [= ->]|].
  destruct (float_of_str (amount_usdc o)); by intros [= ->].
Qed.

Lemma reject_rel c id o reason :
  keyed c -> dict_get id (orders c) = Some o -> mem (status o) [SIGNED; QUOTED; POLICY_CHECKED] = true ->
  commerce_rel c (run_state (reject o reason) c).
Proof.
  intros Hk Hg Hm. unfold reject, run_state, py_bind. rewrite touch_eq. cbn [fst].
  apply (touch_rel c id o (set_policy (PolicyRejected reason)
           (set_status REJECTED (fulfillment_status o) o)) "policy_rejected"); try done.
  unfold order_step. cbn [order_edge status set_policy set_status]. rewrite Hm. apply orb_true_r.
Qed.

Lemma apply_policy_rel c id p : keyed c -> commerce_rel c (run_state (apply_policy id p) c).
Proof.
  intros Hk. unfold run_state, apply_policy. rewrite get_order_bind.
  destruct (dict_get id (orders c)) as [o|] eqn:Hg; [|apply rel_refl].
  rewrite require_bind. destruct (mem (status o) _) eqn:Hm; [|apply rel_refl].
  match goal with |- context [py_bind (limit_or ?v ?d) ?k c] =>
    destruct (limit_bind v d k c) as [[e ->]|(amount & -> & Ha)] end; [apply rel_refl|].
  apply amount_limit in Ha.
  match goal with |- context [py_bind (limit_or ?v ?d) ?k c] =>
    destruct (limit_bind v d k c) as [[e ->]|(single & -> & _)] end; [apply rel_refl|].
  match goal with |- context [py_bind (limit_or ?v ?d) ?k c] =>
    destruct (limit_bind v d k c) as [[e ->]|(daily & -> & _)] end; [apply rel_refl|].
  match goal with |- context [py_bind (limit_or ?v ?d) ?k c] =>
    destruct (limit_bind v d k c) as [[e ->]|(spent & -> & _)] end; [apply rel_refl|].
  destruct (infinite_approve p); [apply rel_refl|].
  destruct (fgtb amount single) eqn:Hs; [by eapply reject_rel|].
  destruct (fgtb (fadd spent amount) daily) eqn:Hd; [by eapply reject_rel|].
  destruct (negb _ && truthy_str _ && negb _); [by eapply reject_rel|].
  eapply touch_rel; [done..| |].
  - unfold order_step. cbn [order_edge status set_policy set_status]. rewrite Hm. apply orb_true_r.
  - intros _. left. by exists (truthy_str (buyer_wallet o) && truthy_str (seller_wallet o)
      && bool_decide (buyer_wallet o = seller_wallet o)), single, daily, spent, amount.
Qed.

(** Look the order up, pass the guards, touch. *)
Ltac guarded_op :=
  unfold run_state; rewrite get_order_bind;
  match goal with |- context [dict_get ?id (orders ?c)] =>
    destruct (dict_get id (orders c)) as [o|] eqn:Hg; [|apply rel_refl] end;
  repeat (rewrite require_bind;
          match goal with |- context [if ?b then _ else _] =>
            let Hm := fresh "Hm" in destruct b eqn:Hm; [|apply rel_refl] end).
Ltac move_status :=
  eapply touch_rel; [eassumption|eassumption|reflexivity|reflexivity| |];
  [unfold order_step; cbn [order_edge status set_status set_evidence set_refs set_offer];
   repeat match goal with H : mem _ _ = true |- _ => rewrite H end;
   rewrite ?orb_true_r; reflexivity|try (intros Hgate; discriminate Hgate)].

Lemma attach_offer_rel c id f a bd s w :
  keyed c -> commerce_rel c (run_state (attach_offer id f a bd s w) c).
Proof. intros Hk. unfold attach_offer. guarded_op. move_status. Qed.

Lemma accept_order_rel c id : keyed c -> commerce_rel c (run_state (accept_order id) c).
Proof. intros Hk. unfold accept_order. guarded_op. by eapply touch_same. Qed.

Lemma start_processing_rel c id : keyed c -> commerce_rel c (run_state (start_processing id) c).
Proof. intros Hk. unfold start_processing. guarded_op. by eapply touch_same. Qed.

Lemma gated_mem s l : mem s l = true -> forallb gated l = true -> gated s = true.
Proof.
  intros Hm Hl. rewrite forallb_forall in Hl. by apply Hl, list_elem_of_In, mem_true.
Qed.

Lemma submit_evidence_rel c id ev : keyed c -> commerce_rel c (run_state (submit_evidence id ev) c).
Proof.
  intros Hk. unfold submit_evidence. guarded_op. move_status.
  intros _. right. split; [|done]. by eapply gated_mem.
Qed.

Lemma sign_order_rel c id r s : keyed c -> commerce_rel c (run_state (sign_order id r s) c).
Proof.
  intros Hk. unfold sign_order. guarded_op. destruct (_ && _); [move_status|by eapply touch_same].
Qed.

Lemma mark_locked_rel c id b : keyed c -> commerce_rel c (run_state (mark_locked id b) c).
Proof.
  intros Hk. unfold mark_locked. guarded_op. move_status.
  intros _. right. split; [|done]. by eapply gated_mem.
Qed.

Lemma mark_verified_rel c id r : keyed c -> commerce_rel c (run_state (mark_verified id r) c).
Proof. intros Hk. unfold mark_verified. guarded_op. move_status. Qed.

Lemma mark_settled_rel c id : keyed c -> commerce_rel c (run_state (mark_settled id) c).
Proof. intros Hk. unfold mark_settled. guarded_op. move_status. Qed.

Lemma mark_refunded_rel c id : keyed c -> commerce_rel c (run_state (mark_refunded id) c).
Proof.
  intros Hk. unfold mark_refunded. guarded_op.
  eapply touch_rel; [done..| |done]. unfold order_step. cbn [order_edge status set_status].
  rewrite Hm. apply orb_true_r.
Qed.

Lemma mark_disputed_rel c id : keyed c -> commerce_rel c (run_state (mark_disputed id) c).
Proof.
  intros Hk. unfold mark_disputed. guarded_op.
  destruct (mem _ _); [apply rel_refl|]. by eapply touch_same.
Qed.

Lemma restore_fulfillment_rel c id : keyed c -> commerce_rel c (run_state (restore_fulfillment id) c).
Proof.
  intros Hk. unfold restore_fulfillment. guarded_op.
  destruct (negb _); [apply rel_refl|]. by eapply touch_same.
Qed.

Lemma update_bill_rel c oid s : commerce_rel c (run_state (update_bill_status oid s) c).
Proof.
  unfold run_state, update_bill_status, py_bind, py_get.
  destruct (get_bill_by_order oid c); apply rel_write; auto.
Qed.

Lemma deliver_order_rel c id ev : keyed c -> rtc commerce_rel c (run_state (deliver_order id ev) c).
Proof.
  intros Hk. unfold run_state, deliver_order. rewrite get_order_bind.
  destruct (dict_get id (orders c)) as [o|] eqn:Hg; [|apply rtc_refl].
  rewrite require_bind. destruct (mem (status o) _) eqn:Hm; [|apply rtc_refl].
  rewrite require_bind. destruct (mem (fulfillment_status o) _) eqn:Hm'; [|apply rtc_refl].
  set (x := set_status EVIDENCE_SUBMITTED F_DELIVERED (set_evidence ev o)).
  assert (H1 : commerce_rel c (run_state (touch x "evidence_submitted") c)).
  { eapply touch_rel; [done..| |].
    - unfold order_step, x. cbn [order_edge status set_status].
      apply mem_true, list_elem_of_singleton in Hm as ->. done.
    - intros _. right. split; [by eapply gated_mem|done]. }
  unfold py_bind. rewrite touch_eq. unfold run_state in H1. rewrite touch_eq in H1. cbn [fst] in H1.
  eapply rtc_l; [exact H1|]. apply rtc_once.
  pose proof (Hk _ _ Hg) as Hid.
  eapply touch_same with (id := id) (o := stamp (now c) "evidence_submitted" x);
    [by eapply keyed_step| |done..].
  cbn [orders persist set_orders]. rewrite replace_get.
  change (order_id x) with (order_id o). rewrite Hid, Hg. by rewrite bool_decide_true.
Qed.

Lemma create_order_rel tok c b i a w bd :
  rtc commerce_rel c (run_state (create_order tok b i a w bd) c).
Proof.
  unfold run_state, create_order, py_bind, py_get, py_modify, py_ret. cbn [fst].
  eapply rtc_l; [apply (rel_write _ (persist c)); cbn; [done|destruct (disk_ok c); auto]|].
  apply rtc_once. eapply rel_new; [| |done]; [|reflexivity].
  split; [done|]. split; [done|]. by exists "created".
Qed.

(** The sweep is a sequence of refunds. *)
Lemma sweep_loop_rel cutoff l r c :
  keyed c -> rtc commerce_rel c (sweep_loop cutoff l r c).1.
Proof.
  revert r c. induction l as [|[id o] l IH]; intros r c Hk; cbn [sweep_loop]; [apply rtc_refl|].
  destruct (negb (sweepable o)); [by apply IH|].
  destruct (is_disputed o); [by apply IH|].
  destruct (negb (stale cutoff o)); [by apply IH|].
  pose proof (mark_refunded_rel c (order_id o) Hk) as H1. unfold run_state in H1.
  destruct (mark_refunded (order_id o) c) as [c1 [x|e]]; cbn [fst] in H1.
  - pose proof (update_bill_rel c1 (order_id o) "refunded") as H2.
    eapply rtc_l; [exact H1|]. eapply rtc_l; [exact H2|].
    apply IH. eapply keyed_step; [|exact H2]. by eapply keyed_step.
  - eapply rtc_l; [exact H1|]. apply IH. by eapply keyed_step.
Qed.

Lemma commerce_step_rel tok op c : keyed c -> rtc commerce_rel c (commerce_step tok op c).
Proof.
  intros Hk. destruct op; cbn [commerce_step].
  - apply create_order_rel.
  - by apply rtc_once, attach_offer_rel.
  - by apply rtc_once, accept_order_rel.
  - by apply rtc_once, start_processing_rel.
  - by apply deliver_order_rel.
  - by apply rtc_once, sign_order_rel.
  - by apply rtc_once, apply_policy_rel.
  - by apply rtc_once, mark_locked_rel.
  - by apply rtc_once, submit_evidence_rel.
  - by apply rtc_once, mark_verified_rel.
  - by apply rtc_once, mark_settled_rel.
  - by apply rtc_once, mark_refunded_rel.
  - by apply rtc_once, mark_disputed_rel.
  - by apply rtc_once, restore_fulfillment_rel.
  - apply rtc_once, rel_write; auto.
  - apply rtc_once, update_bill_rel.
  - unfold sweep_timed_out_escrows. destruct (hours <=? 0)%Z; [apply rtc_refl|by apply sweep_loop_rel].
  - by apply rtc_once, rel_load.
  - apply rtc_once, rel_write; auto.
  - apply rtc_once, rel_write; auto.
Qed.

Lemma commerce_run_rel tok ops c : keyed c -> rtc commerce_rel c (commerce_run tok ops c).
Proof.
  revert c. induction ops as [|op ops IH]; intros c Hk; [apply rtc_refl|].
  pose proof (commerce_step_rel tok op c Hk) as H1.
  change (commerce_run tok (op :: ops) c) with (commerce_run tok ops (commerce_step tok op c)).
  etrans; [exact H1|]. apply IH. by eapply keyed_steps.
Qed.

(** Something true of new orders and kept by [evolves] is true of every order, in
    the dict and in the file. *)
Definition all_orders (P : MiniAppOrder -> Prop) c : Prop :=
  Forall (fun p => P p.2) (orders c) /\ Forall P (default [] (disk c)).

Lemma Forall_replace (P : MiniAppOrder -> Prop) k o d :
  Forall (fun p => P p.2) d -> P o -> Forall (fun p => P p.2) (replace k o d).
Proof.
  intros Hd Ho. induction Hd as [|[k' v] d Hv Hd IH]; cbn; [constructor|].
  destruct (bool_decide (k = k')); by constructor.
Qed.

Lemma all_orders_step P c c' :
  (forall id o, fresh_order id o -> P o) -> (forall o o', P o -> evolves o o' -> P o') ->
  all_orders P c -> commerce_rel c c' -> all_orders P c'.
Proof.
  intros Hnew Hev [Ho Hd] [H1 H2|id o o' Hg He H1 H2|id o Hf H1 H2|H1 H2].
  - split; [by rewrite H1|]. destruct H2 as [->| ->]; [done|]. by apply Forall_map.
  - assert (HP : Forall (fun p => P p.2) (replace id o' (orders c))).
    { apply Forall_replace; [done|]. apply (Hev o); [|done].
      apply dict_get_In, list_elem_of_In in Hg. rewrite Forall_forall in Ho. by apply (Ho (id, o)). }
    split; [by rewrite H1|]. destruct H2 as [->| ->]; [done|]. rewrite H1. by apply Forall_map.
  - split; [|by rewrite H2]. rewrite H1. pose proof (Hnew _ _ Hf). unfold dict_set.
    destruct (dict_get id (orders c)); [by apply Forall_replace|].
    apply Forall_app. split; [done|]. by apply Forall_singleton.
  - split; [|by rewrite H2]. rewrite H1. by apply Forall_map.
Qed.

Lemma all_orders_run P tok ops t :
  (forall id o, fresh_order id o -> P o) -> (forall o o', P o -> evolves o o' -> P o') ->
  all_orders P (commerce_run tok ops (empty_commerce t)).
Proof.
  intros Hnew Hev. assert (Hk : keyed (empty_commerce t)) by done.
  assert (H0 : all_orders P (empty_commerce t)) by (split; constructor).
  pose proof (commerce_run_rel tok ops _ Hk) as H. revert H0.
  induction H as [|c1 c2 c3 H12 _ IH]; [done|]. intros H0.
  apply IH; [by eapply keyed_step|]. by eapply all_orders_step.
Qed.

Lemma run_get (P : MiniAppOrder -> Prop) tok ops t id o :
  (forall id o, fresh_order id o -> P o) -> (forall o o', P o -> evolves o o' -> P o') ->
  dict_get id (orders (commerce_run tok ops (empty_commerce t))) = Some o -> P o.
Proof.
  intros Hnew Hev Hg. destruct (all_orders_run P tok ops t Hnew Hev) as [Ho _].
  apply dict_get_In, list_elem_of_In in Hg. rewrite Forall_forall in Ho. by apply (Ho (id, o)).
Qed.

(** C3. The payment gate.  In every reachable state an order that has passed the
    policy check and not yet been verified ([POLICY_CHECKED], [LOCKED],
    [EVIDENCE_SUBMITTED]) carries a policy result that accepts its current amount:
    the amount does not exceed the single limit, nor, with the day's spending, the
    daily limit.  In particular no offer changes the amount of a locked order
    behind the policy's back. *)
Theorem locked_within_limits tok ops t id o :
  dict_get id (orders (commerce_run tok ops (empty_commerce t))) = Some o ->
  gated (status o) = true -> within_limits o.
Proof.
  apply (run_get (fun o => gated (status o) = true -> within_limits o)); clear id o.
  - intros id o (_ & Hs & _) Hg. by rewrite Hs in Hg.
  - intros o o' HP He Hg. destruct (ev_gate _ _ He Hg) as [|(Hg' & Ha & Hr)]; [done|].
    destruct (HP Hg') as (sd & s & d & sp & am & H1 & H2 & H3 & H4).
    exists sd, s, d, sp, am. unfold order_amount in *. by rewrite Ha, Hr.
Qed.

(** The statuses of a history, oldest first. *)
Fixpoint lawful (a : OrderStatus) (l : list OrderStatus) : bool :=
  match l with
  | [] => true
  | b :: r => order_step a b && lawful b r
  end.

Lemma lawful_snoc a l b :
  lawful a (l ++ [b])%list = lawful a l && order_step (default a (last l)) b.
Proof.
  revert a. induction l as [|x l IH]; intros a; cbn [lawful app]; [by rewrite andb_true_r|].
  rewrite IH, last_cons, andb_assoc. by destruct (last l).
Qed.

(** C38. Histories tell the truth.  The history of every order of a reachable state
    starts with [DRAFT], moves only along [order_edge] (so a lock follows a policy
    check, a settlement a verification, and a refund never directly a
    settlement), and ends with the order's current status and update time. *)
Theorem history_lawful tok ops t id o :
  dict_get id (orders (commerce_run tok ops (empty_commerce t))) = Some o ->
  match map h_status (history o) with
  | [] => False
  | s :: rest => s = DRAFT /\ lawful DRAFT rest = true /\ default DRAFT (last rest) = status o
  end
  /\ (h_at <$> last (history o)) = Some (updated_at o).
Proof.
  apply (run_get (fun o => match map h_status (history o) with
    | [] => False
    | s :: rest => s = DRAFT /\ lawful DRAFT rest = true /\ default DRAFT (last rest) = status o
    end /\ (h_at <$> last (history o)) = Some (updated_at o))); clear id o.
  - intros id o (_ & Hs & note & Hh). rewrite Hh, Hs. done.
  - intros o o' [HP _] He. destruct (ev_history _ _ He) as [note Hh]. rewrite Hh, last_snoc, map_app.
    split; [|done]. destruct (map h_status (history o)) as [|s rest]; [done|].
    destruct HP as (-> & Hl & Hlast). cbn [map app]. split; [done|]. split; [|by rewrite last_snoc].
    rewrite lawful_snoc, Hl, Hlast. apply (ev_step _ _ He).
Qed.

(** ** The sweep *)

(** Keys are distinct, orders are under their ids, in the dict and in the file. *)
Record filed c : Prop := {
  fl_keys : NoDup (map fst (orders c));
  fl_ids : map order_id (map snd (orders c)) = map fst (orders c);
  fl_disk : NoDup (map order_id (default [] (disk c)))
}.

Lemma replace_keys k o d : map fst (replace k o d) = map fst d.
Proof.
  induction d as [|[k' v] d IH]; [done|]. cbn. destruct (bool_decide (k = k')) eqn:E; cbn.
  - by apply bool_decide_eq_true in E as ->.
  - by rewrite IH.
Qed.

Lemma replace_ids k o d :
  order_id o = k -> map order_id (map snd d) = map fst d ->
  map order_id (map snd (replace k o d)) = map fst (replace k o d).
Proof.
  intros Hk. induction d as [|[k' v] d IH]; [done|]. cbn. intros [= H1 H2].
  destruct (bool_decide (k = k')); cbn; [by rewrite Hk, H2|by rewrite H1, IH].
Qed.

Lemma dict_get_None k (d : list (string * MiniAppOrder)) : dict_get k d = None -> k ∉ map fst d.
Proof.
  induction d as [|[k' v] d IH]; cbn; [intros _ H; by apply elem_of_nil in H|].
  destruct (bool_decide (k = k')) eqn:E; [done|]. apply bool_decide_eq_false in E.
  intros H [->|Hin]%elem_of_cons; [done|]. by apply IH.
Qed.

Lemma filed_step c c' : filed c -> commerce_rel c c' -> filed c'.
Proof.
  intros [Hk Hi Hd] [H1 H2|id o o' Hg He H1 H2|id o Hf H1 H2|H1 H2].
  - split; rewrite ?H1; [done|done|]. destruct H2 as [->| ->]; [done|]. cbn. by rewrite Hi.
  - assert (Hid : order_id o' = id).
    { rewrite (ev_id _ _ He). apply dict_get_In, list_elem_of_In in Hg.
      clear -Hg Hi. induction (orders c) as [|[k v] d IH]; [by apply elem_of_nil in Hg|].
      cbn in Hi. injection Hi as Hv Hi. apply elem_of_cons in Hg as [[= <- <-]|Hg]; auto. }
    assert (Hi' : map order_id (map snd (orders c')) = map fst (orders c')).
    { rewrite H1. by apply replace_ids. }
    assert (Hk' : NoDup (map fst (orders c'))) by by rewrite H1, replace_keys.
    split; [done|done|]. destruct H2 as [->| ->]; [done|]. cbn. by rewrite Hi'.
  - destruct Hf as (Hid & _).
    split; rewrite ?H2; try done; rewrite H1; unfold dict_set; destruct (dict_get id (orders c)) eqn:E.
    + by rewrite replace_keys.
    + rewrite map_app. apply NoDup_app. split; [done|]. split; [|apply NoDup_singleton].
      intros x Hx ->%list_elem_of_singleton. by apply dict_get_None in E.
    + by apply replace_ids.
    + rewrite !map_app, Hi. cbn. by rewrite Hid.
  - split; rewrite ?H2; [|rewrite H1|done].
    + rewrite H1, map_map. done.
    + rewrite !map_map. done.
Qed.

Lemma filed_keyed c : filed c -> keyed c.
Proof.
  intros [_ Hi _] k o Hg%dict_get_In%list_elem_of_In. revert Hi.
  induction (orders c) as [|[k' v] d IH]; [by apply elem_of_nil in Hg|]. cbn.
  intros [= Hv Hi]. apply elem_of_cons in Hg as [[= -> ->]|Hg]; auto.
Qed.

Lemma filed_run tok ops t : filed (commerce_run tok ops (empty_commerce t)).
Proof.
  assert (H0 : filed (empty_commerce t)) by (split; [constructor|done|constructor]).
  pose proof (commerce_run_rel tok ops _ (filed_keyed _ H0)) as H. revert H0.
  induction H as [|c1 c2 c3 H12 _ IH]; [done|]. intros H0. by apply IH, (filed_step c1).
Qed.

(** The orders a sweep refunds, and what becomes of them. *)
Definition due (cutoff : float) o : bool := sweepable o && negb (is_disputed o) && stale cutoff o.
Definition refunded_order (t : Z) o : MiniAppOrder :=
  stamp t "refunded" (set_status REFUNDED F_REFUNDED o).

Lemma mark_refunded_ok c o :
  dict_get (order_id o) (orders c) = Some o -> status o <> SETTLED ->
  mark_refunded (order_id o) c
  = (persist (set_orders (replace (order_id o) (refunded_order (now c) o) (orders c)) c),
     Ret (refunded_order (now c) o)).
Proof.
  intros Hg Hs. unfold mark_refunded. rewrite get_order_bind, Hg, require_bind.
  assert (Hm : mem (status o) [SETTLED] = false).
  { apply not_true_iff_false. rewrite mem_true. by intros ?%list_elem_of_singleton. }
  rewrite Hm. cbn [negb]. apply touch_eq.
Qed.

Lemma update_bill_frame c oid s :
  orders (run_state (update_bill_status oid s) c) = orders c
  /\ now (run_state (update_bill_status oid s) c) = now c.
Proof.
  unfold run_state, update_bill_status, py_bind, py_get.
  by destruct (get_bill_by_order oid c).
Qed.

Lemma due_split cutoff o :
  due cutoff o = if negb (sweepable o) then false else if is_disputed o then false
                 else if negb (stale cutoff o) then false else true.
Proof.
  unfold due. destruct (sweepable o), (is_disputed o); cbn; try done. by destruct (stale cutoff o).
Qed.

Lemma sweep_loop_exact cutoff l r c :
  NoDup (map fst l) -> (forall k o, (k, o) ∈ l -> dict_get k (orders c) = Some o /\ order_id o = k) ->
  let (c', r') := sweep_loop cutoff l r c in
  now c' = now c
  /\ refunded r' = (refunded r ++ map fst (List.filter (fun p => due cutoff p.2) l))%list
  /\ forall j, dict_get j (orders c')
               = match dict_get j (List.filter (fun p => due cutoff p.2) l) with
                 | Some o => Some (refunded_order (now c) o)
                 | None => dict_get j (orders c)
                 end.
Proof.
  revert r c. induction l as [|[k o] l IH]; intros r c Hnd Hl; cbn [sweep_loop].
  - split; [done|]. split; [by rewrite app_nil_r|done].
  - cbn in Hnd. apply NoDup_cons in Hnd as [Hkl Hnd].
    destruct (Hl k o) as [Hg Hid]; [by left|].
    assert (Hrest : forall k' o', (k', o') ∈ l -> dict_get k' (orders c) = Some o' /\ order_id o' = k')
      by (intros k' o' Hin; apply Hl; by right).
    cbn [List.filter snd]. rewrite due_split.
    destruct (negb (sweepable o)) eqn:Hsw; [by apply IH|].
    destruct (is_disputed o); [by apply (IH (Report _ _ _ _))|].
    destruct (negb (stale cutoff o)); [by apply (IH (Report _ _ _ _))|].
    assert (Hs : status o <> SETTLED).
    { intros E. unfold sweepable in Hsw. by rewrite E in Hsw. }
    rewrite mark_refunded_ok; [|by rewrite Hid|done]. cbv beta iota zeta.
    set (c1 := persist _).
    destruct (update_bill_frame c1 (order_id o) "refunded") as [Ho Hn].
    match goal with |- let (c', r') := sweep_loop cutoff l ?r1 ?c2 in _ => specialize (IH r1 c2 Hnd) end.
    rewrite Ho, Hn in IH. subst c1. cbn [orders now persist set_orders] in IH.
    match type of IH with ?A -> _ => assert (Hpre : A) end.
    { intros k' o' Hin. rewrite replace_get. destruct (Hrest k' o' Hin) as [Hg' Hid'].
      rewrite bool_decide_false; [done|]. intros E. apply Hkl.
      apply list_elem_of_In, in_map_iff. exists (k', o'). split; [cbn; congruence|by apply list_elem_of_In]. }
    specialize (IH Hpre). clear Hpre.
    destruct (sweep_loop cutoff l _ _) as [c' r']. destruct IH as (IH1 & IH2 & IH3).
    split; [done|]. split; [rewrite IH2; cbn; by rewrite <- app_assoc, Hid|].
    intros j. rewrite IH3. cbn [dict_get]. rewrite replace_get, Hid, Hg.
    destruct (decide (j = k)) as [->|Hj].
    + rewrite !bool_decide_true by done.
      destruct (dict_get k (List.filter _ l)) as [x|] eqn:E; [|done]. exfalso. apply Hkl.
      apply dict_get_In, filter_In in E as [E _].
      apply list_elem_of_In, in_map_iff. by exists (k, x).
    + by rewrite !bool_decide_false by done.
Qed.

Lemma dict_get_filter (f : MiniAppOrder -> bool) k (d : list (string * MiniAppOrder)) :
  NoDup (map fst d) ->
  dict_get k (List.filter (fun p => f p.2) d)
  = match dict_get k d with Some o => if f o then Some o else None | None => None end.
Proof.
  induction d as [|[k' v] d IH]; [done|]. cbn [map fst]. intros [Hk Hnd]%NoDup_cons.
  cbn [List.filter snd dict_get]. destruct (decide (k = k')) as [->|Hne].
  - rewrite bool_decide_true by done. destruct (f v) eqn:E; cbn [dict_get].
    + by rewrite bool_decide_true.
    + rewrite IH by done. destruct (dict_get k' d) eqn:G; [|done]. exfalso. apply Hk.
      apply dict_get_In in G. apply list_elem_of_In, in_map_iff. by exists (k', m).
  - rewrite bool_decide_false by done. rewrite <- IH by done. destruct (f v); cbn [dict_get]; [|done].
    by rewrite bool_decide_false.
Qed.

Lemma sweep_none cutoff l r c :
  (forall k o, (k, o) ∈ l -> due cutoff o = false) ->
  (sweep_loop cutoff l r c).1 = c /\ refunded (sweep_loop cutoff l r c).2 = refunded r.
Proof.
  revert r. induction l as [|[k o] l IH]; intros r Hl; cbn [sweep_loop]; [done|].
  assert (Hrest : forall k' o', (k', o') ∈ l -> due cutoff o' = false) by (intros k' o' Hin; apply (Hl k'); by right).
  assert (Hd : due cutoff o = false) by (apply (Hl k); by left).
  rewrite due_split in Hd. destruct (negb (sweepable o)); [by apply IH|].
  destruct (is_disputed o); [by apply (IH (Report _ _ _ _))|].
  destruct (negb (stale cutoff o)); [by apply (IH (Report _ _ _ _))|done].
Qed.

Lemma filed_lookup c k o : filed c -> (k, o) ∈ orders c -> dict_get k (orders c) = Some o.
Proof.
  intros [Hk _ _] Hin. induction (orders c) as [|[k' v] d IH]; [by apply elem_of_nil in Hin|].
  cbn in Hk. apply NoDup_cons in Hk as [Hk' Hk]. cbn. apply elem_of_cons in Hin as [[= -> ->]|Hin].
  - by rewrite bool_decide_true.
  - rewrite bool_decide_false; [by apply IH|]. intros E. apply Hk', list_elem_of_In, in_map_iff.
    exists (k, o). split; [by cbn|by apply list_elem_of_In].
Qed.

(** The sweep refunds exactly the orders it should.  From any reachable state,
    an order ends refunded if it is locked, executed or awaiting verification, is
    not disputed and has not moved since the cutoff; every other order is untouched
    (a verified or settled one in particular).  The report lists the refunded
    orders, and a second sweep at the same time refunds nothing and changes
    nothing. *)
Theorem sweep_exact tok ops t hours at_ :
  (0 < hours)%Z ->
  let c := commerce_run tok ops (empty_commerce t) in
  let cutoff := fsub at_ (float_of_int (hours * 3600)) in
  let (c', r) := sweep_timed_out_escrows hours at_ c in
  (forall id, dict_get id (orders c')
     = match dict_get id (orders c) with
       | Some o => Some (if due cutoff o then refunded_order (now c) o else o)
       | None => None
       end)
  /\ refunded r = map fst (List.filter (fun p => due cutoff p.2) (orders c))
  /\ (sweep_timed_out_escrows hours at_ c').1 = c'
  /\ refunded (sweep_timed_out_escrows hours at_ c').2 = [].
Proof.
  intros Hh c cutoff. pose proof (filed_run tok ops t) as Hf. fold c in Hf.
  pose proof (sweep_loop_rel cutoff (orders c) (Report [] 0 0 false) c (filed_keyed _ Hf)) as Hrel.
  pose proof (sweep_loop_exact cutoff (orders c) (Report [] 0 0 false) c (fl_keys _ Hf)) as H.
  unfold sweep_timed_out_escrows. rewrite (proj2 (Z.leb_gt _ _) Hh). fold cutoff.
  destruct (sweep_loop cutoff (orders c) (Report [] 0 0 false) c) as [c' r]. cbn [fst] in Hrel.
  assert (Hf' : filed c').
  { clear -Hf Hrel. induction Hrel as [|c1 c2 c3 H12 _ IH]; [done|]. by apply IH, (filed_step c1). }
  destruct H as (_ & Hr & Hget).
  { intros k o Hin. pose proof (filed_lookup _ _ _ Hf Hin) as Hg. split; [done|].
    by apply (filed_keyed _ Hf). }
  assert (Hall : forall id, dict_get id (orders c')
     = match dict_get id (orders c) with
       | Some o => Some (if due cutoff o then refunded_order (now c) o else o)
       | None => None
       end).
  { intros id. rewrite Hget, dict_get_filter by apply Hf.
    destruct (dict_get id (orders c)) as [o|]; [|done]. by destruct (due cutoff o). }
  split; [done|]. split; [done|].
  apply sweep_none. intros k o Hin. pose proof (filed_lookup _ _ _ Hf' Hin) as Hg.
  rewrite Hall in Hg. destruct (dict_get k (orders c)) as [o0|]; [|done].
  destruct (due cutoff o0) eqn:Hd; injection Hg as <-; [|done].
  rewrite due_split. done.
Qed.

(** ** Gaps in the guards *)

(** [mark_verified] has no guard: from any status, [REFUNDED] and [SETTLED]
    included, it makes the order verified, after which it can be settled and can
    be refunded.  So an order can be paid out after its refund, and refunded after
    its settlement. *)
Theorem verification_reopens c id o run :
  keyed c -> dict_get id (orders c) = Some o ->
  let c1 := run_state (mark_verified id run) c in
  (exists x, run_outcome (mark_settled id) c1 = Ret x /\ status x = SETTLED)
  /\ (exists x, run_outcome (mark_refunded id) c1 = Ret x /\ status x = REFUNDED).
Proof.
  intros Hk Hg c1. set (x := stamp (now c) "verified"
    (set_status VERIFIED F_VERIFIED (set_refs (binding_id o) (Some run) o))).
  assert (Hg1 : dict_get id (orders c1) = Some x).
  { subst c1. unfold run_state, mark_verified. rewrite get_order_bind, Hg, touch_eq.
    cbn [fst orders persist set_orders]. rewrite replace_get.
    change (order_id (set_status _ _ _)) with (order_id o). rewrite (Hk _ _ Hg), Hg.
    by rewrite bool_decide_true. }
  clearbody c1. split.
  - unfold run_outcome, mark_settled. rewrite get_order_bind, Hg1, require_bind, touch_eq. by eexists.
  - unfold run_outcome, mark_refunded. rewrite get_order_bind, Hg1, require_bind, touch_eq. by eexists.
Qed.

Lemma fgtb_nan_l y : fgtb fnan y = false.
Proof. apply fltb_nan_r. Qed.

(** The limits of the payment policy can be passed over: an order for ["nan"]
    passes every numeric limit, and a limit of zero is read as [1e18]. *)
Theorem policy_limits_bypassed c id o (s d spent : Z) (agents : list string) :
  dict_get id (orders c) = Some o -> status o = SIGNED -> seller_identity_id o = None ->
  (amount_usdc o = "nan" ->
   exists o', run_outcome (apply_policy id (Policy (Some (NInt s)) (Some (NInt d)) (Some (NInt spent)) false agents)) c
              = Ret o' /\ status o' = POLICY_CHECKED)
  /\ (amount_usdc o = "999999999" ->
      exists o', run_outcome (apply_policy id (Policy (Some (NInt 0)) (Some (NInt 0)) None false agents)) c
                 = Ret o' /\ status o' = POLICY_CHECKED).
Proof.
  intros Hg Hs Hsel.
  assert (Hlim : forall n dflt, exists y, limit_or (Some (NInt n)) dflt c = (c, Ret y)).
  { intros n dflt. unfold limit_or, num_truthy. destruct (negb (n =? 0)%Z); by eexists. }
  assert (Hag : forall b, negb b && truthy_str (seller_identity_id o)
                 && negb (str_mem (default "" (seller_identity_id o)) agents) = false).
  { intros b. rewrite Hsel. cbn. by rewrite andb_false_r. }
  split; intros Ha; unfold run_outcome, apply_policy;
    rewrite get_order_bind, Hg, require_bind, Hs, Ha;
    change (mem SIGNED [SIGNED; QUOTED; POLICY_CHECKED]) with true; cbv iota;
    cbn [single_limit_usdc daily_limit_usdc spent_today_usdc infinite_approve allowed_agents].
  - destruct (Hlim s NO_LIMIT) as [ys Ey], (Hlim d NO_LIMIT) as [yd Ed], (Hlim spent fzero) as [yx Ex].
    assert (En : limit_or (Some (NStr "nan")) fzero c = (c, Ret fnan)) by by vm_compute.
    unfold py_bind. rewrite En, Ey, Ed, Ex. rewrite fgtb_nan_l, fadd_nan_r, fgtb_nan_l, Hag, touch_eq.
    by eexists.
  - assert (E1 : limit_or (Some (NStr "999999999")) fzero c = (c, Ret (float_of_int 999999999)))
      by by vm_compute.
    assert (E2 : limit_or (Some (NInt 0)) NO_LIMIT c = (c, Ret NO_LIMIT)) by done.
    assert (E3 : limit_or None fzero c = (c, Ret fzero)) by done.
    unfold py_bind. rewrite E1, E2, E2, E3.
    replace (fgtb (float_of_int 999999999) NO_LIMIT) with false by by vm_compute.
    replace (fgtb (fadd fzero (float_of_int 999999999)) NO_LIMIT) with false by by vm_compute.
    rewrite Hag, touch_eq. by eexists.
Qed.

(** A new order is not in the file until some order is touched again: a restart in
    between forgets it. *)
Theorem created_order_not_saved tok c b i a w bd :
  disk_ok c = true -> keyed c -> dict_get ("ord_" ++ tok (drawn c)) (orders c) = None ->
  let c' := run_state (create_order tok b i a w bd) c in
  is_Some (dict_get ("ord_" ++ tok (drawn c)) (orders c'))
  /\ orders (load c') = map (fun o => (order_id o, o)) (map snd (orders c)).
Proof.
  intros Hd Hk Hn c'. subst c'. unfold run_state, create_order, py_bind, py_get, py_modify, py_ret.
  cbn. rewrite Hd, dict_set_get, bool_decide_true by done. split; [by eexists|done].
Qed.
End Refinement.

(** ** Witnesses *)

Section Examples.
#[local] Definition tok (n : nat) : string := py_str_int (Z.of_nat n).
#[local] Definition signed_ops (amount : string) : list commerce_op :=
  [CreateOrder "buyer" [] (Some (inr amount)) None None;
   SignOrder "ord_0" "buyer" "s1"; SignOrder "ord_0" "seller" "s2"].
#[local] Definition locked_ops : list commerce_op :=
  signed_ops "25" ++ [ApplyPolicy "ord_0" (Policy (Some (NInt 100)) None None false []);
                      MarkLocked "ord_0" None].
#[local] Definition order_after (ops : list commerce_op) : MiniAppOrder :=
  match orders (commerce_run tok ops (empty_commerce 0)) with
  | (_, o) :: _ => o
  | [] => Order "" "" None None [] None DRAFT F_PENDING_ACCEPT "" None None None None None 0 0 ∅ None []
  end.

Lemma locked_within_limits_witness : within_limits (order_after locked_ops).
Proof.
  apply (locked_within_limits tok locked_ops 0 "ord_0" (order_after locked_ops)); by vm_compute.
Defined.

Lemma history_lawful_witness :
  match map h_status (history (order_after locked_ops)) with
  | [] => False
  | s :: rest => s = DRAFT /\ lawful DRAFT rest = true
                 /\ default DRAFT (last rest) = status (order_after locked_ops)
  end
  /\ (h_at <$> last (history (order_after locked_ops))) = Some (updated_at (order_after locked_ops)).
Proof. apply (history_lawful tok locked_ops 0 "ord_0" (order_after locked_ops)). by vm_compute. Defined.

Lemma sweep_exact_witness :
  let c := commerce_run tok locked_ops (empty_commerce 0) in
  let cutoff := fsub (float_of_int 100000) (float_of_int (24 * 3600)) in
  let (c', r) := sweep_timed_out_escrows 24 (float_of_int 100000) c in
  (forall id, dict_get id (orders c')
     = match dict_get id (orders c) with
       | Some o => Some (if due cutoff o then refunded_order (now c) o else o)
       | None => None
       end)
  /\ refunded r = map fst (List.filter (fun p => due cutoff p.2) (orders c))
  /\ (sweep_timed_out_escrows 24 (float_of_int 100000) c').1 = c'
  /\ refunded (sweep_timed_out_escrows 24 (float_of_int 100000) c').2 = [].
Proof. apply (sweep_exact tok locked_ops 0 24 (float_of_int 100000)). lia. Defined.

Lemma verification_reopens_witness :
  let c1 := run_state (mark_verified "ord_0" "run") (commerce_run tok (locked_ops ++ [MarkRefunded "ord_0"])
              (empty_commerce 0)) in
  (exists x, run_outcome (mark_settled "ord_0") c1 = Ret x /\ status x = SETTLED)
  /\ (exists x, run_outcome (mark_refunded "ord_0") c1 = Ret x /\ status x = REFUNDED).
Proof.
  apply (verification_reopens
           (commerce_run tok (locked_ops ++ [MarkRefunded "ord_0"]) (empty_commerce 0)) "ord_0"
           (order_after (locked_ops ++ [MarkRefunded "ord_0"])) "run");
    [apply filed_keyed, filed_run|by vm_compute].
Defined.

Lemma policy_limits_bypassed_witness :
  exists o', run_outcome (apply_policy "ord_0" (Policy (Some (NInt 1)) (Some (NInt 1)) (Some (NInt 0)) false []))
               (commerce_run tok (signed_ops "nan") (empty_commerce 0))
             = Ret o' /\ status o' = POLICY_CHECKED.
Proof.
  refine (proj1 (policy_limits_bypassed (commerce_run tok (signed_ops "nan") (empty_commerce 0)) "ord_0"
                   (order_after (signed_ops "nan")) 1 1 0 [] _ _ _) _); by vm_compute.
Defined.
End Examples.
