(* ===== verification/CommercePipeline.v ===== *)
(** * Quotes, negotiations and intent packages ([services/miniapp_commerce/pipeline.py])

    The three dicts of the pipeline and every operation on them; the bills of the
    same file are in [CommerceOrders].  An intent package is the EIP-712 typed
    data both parties sign, with its SHA-256 digest over canonical JSON.  The
    random tokens are the parameter [token_hex], numbered by draw; a call reads
    the clock once. *)

From S2P Require Import Prelude PyBytes PyJson PyJsonCanon.
#[local] Open Scope string_scope.

Record Quote := MkQuote {
  q_id : string;
  q_offer_id : string;
  q_buyer : string;
  q_seller : string;
  q_amount_usdc : string;
  q_terms : list (string * json);
  q_status : string;
  q_created_at : Z;
  q_expires_at : Z
}.

Record message := Message { m_at : Z; m_role : string; m_amount_usdc : string; m_note : string }.

Record Negotiation := MkNegotiation {
  n_id : string;
  n_quote_id : string;
  n_messages : list message;
  n_status : string;
  n_agreed_amount_usdc : option string;
  n_created_at : Z
}.

Record IntentPackage := MkIntent {
  i_id : string;
  i_order_id : string;
  i_typed_data : list (string * json);
  i_digest : string;
  i_buyer_signature : option string;
  i_seller_signature : option string;
  i_status : string;
  i_created_at : Z
}.

Record pipeline := Pipeline {
  quotes : gmap string Quote;
  negotiations : gmap string Negotiation;
  intents : gmap string IntentPackage;
  p_now : Z;
  p_drawn : nat
}.

(** The environment variables [build_intent_package] reads, parsed. *)
Record intent_env := IntentEnv { KARMA_SIWE_CHAIN_ID : option Z; KARMA_BILATERAL : option string }.

(** The arguments of [build_intent_package]. *)
Record intent_args := IntentArgs {
  a_order_id : string;
  a_buyer_wallet : string;
  a_seller_wallet : string;
  a_amount_usdc : string;
  a_scope : list (string * json);
  a_chain_id : option Z
}.

Definition empty_pipeline (now : Z) : pipeline := Pipeline ∅ ∅ ∅ now 0.

(** ** The typed data *)

Definition typed_field (name type : string) : json := JObj [("name", JStr name); ("type", JStr type)].

(** [int(chain_id or os.getenv("KARMA_SIWE_CHAIN_ID") or "11155111")] *)
Definition chain_of (env : intent_env) (chain_id : option Z) : Z :=
  match chain_id with
  | Some c => if (c =? 0)%Z then default 11155111%Z (KARMA_SIWE_CHAIN_ID env) else c
  | None => default 11155111%Z (KARMA_SIWE_CHAIN_ID env)
  end.
Definition contract_of (env : intent_env) : string :=
  py_lower (if truthy_str (KARMA_BILATERAL env) then default "" (KARMA_BILATERAL env)
            else "0x0000000000000000000000000000000000000000").

Definition scope_text (scope : list (string * json)) : bytes := utf8 (dumps spaced_sorted (JObj scope)).
Definition scope_hash (scope : list (string * json)) : string := "0x" ++ sha256_hex (scope_text scope).

(** The document, by the values it holds. *)
Definition typed_document (chain : Z) (contract order buyer seller amount scope : string)
    (deadline : Z) : list (string * json) :=
  [("types", JObj
      [("EIP712Domain", JList
          [typed_field "name" "string"; typed_field "version" "string";
           typed_field "chainId" "uint256"; typed_field "verifyingContract" "address"]);
       ("KarmaIntent", JList
          [typed_field "orderId" "string"; typed_field "buyer" "address";
           typed_field "seller" "address"; typed_field "amountUsdc" "string";
           typed_field "scopeHash" "bytes32"; typed_field "deadline" "uint256"])]);
   ("primaryType", JStr "KarmaIntent");
   ("domain", JObj
      [("name", JStr "KarmaIntent"); ("version", JStr "1");
       ("chainId", JInt chain); ("verifyingContract", JStr contract)]);
   ("message", JObj
      [("orderId", JStr order); ("buyer", JStr buyer); ("seller", JStr seller);
       ("amountUsdc", JStr amount); ("scopeHash", JStr scope); ("deadline", JInt deadline)])].

Definition typed_data (env : intent_env) (now : Z) (a : intent_args) : list (string * json) :=
  typed_document (chain_of env (a_chain_id a)) (contract_of env) (a_order_id a)
    (py_lower (a_buyer_wallet a)) (py_lower (a_seller_wallet a)) (a_amount_usdc a)
    (scope_hash (a_scope a)) (now + 86400).

Definition typed_text (typed : list (string * json)) : bytes := utf8 (dumps compact_sorted (JObj typed)).
Definition intent_digest (typed : list (string * json)) : string := sha256_hex (typed_text typed).

(** ** Operations *)

Section Pipeline.
Context (token_hex : nat -> string).
Abbreviation MP := (M pipeline py_exn).
#[local] Open Scope py_scope.

(** [_id(prefix)] *)
Definition new_id (prefix : string) : MP string :=
  let! p := py_get in
  py_modify (fun p => Pipeline (quotes p) (negotiations p) (intents p) (p_now p) (S (p_drawn p))) ;;;
  py_ret (prefix ++ "_" ++ token_hex (p_drawn p)).

Definition put_quote (k : string) (q : Quote) : MP unit :=
  py_modify (fun p => Pipeline (<[k := q]> (quotes p)) (negotiations p) (intents p) (p_now p) (p_drawn p)).
Definition put_negotiation (k : string) (n : Negotiation) : MP unit :=
  py_modify (fun p => Pipeline (quotes p) (<[k := n]> (negotiations p)) (intents p) (p_now p) (p_drawn p)).
Definition put_intent (k : string) (i : IntentPackage) : MP unit :=
  py_modify (fun p => Pipeline (quotes p) (negotiations p) (<[k := i]> (intents p)) (p_now p) (p_drawn p)).

(** [d[k]] *)
Definition item {A} (d : gmap string A) (k : string) : MP A :=
  match d !! k with Some v => py_ret v | None => py_raise (KeyError k) end.

Definition create_quote (offer_id buyer seller amount : string) (terms : list (string * json))
    (ttl_seconds : Z) : MP Quote :=
  let! p := py_get in
  let! id := new_id "quo" in
  let q := MkQuote id offer_id buyer seller amount terms "open" (p_now p) (p_now p + ttl_seconds) in
  put_quote id q ;;;
  py_ret q.

Definition start_negotiation (quote_id : string) : MP Negotiation :=
  let! p := py_get in
  match quotes p !! quote_id with
  | None => py_raise (KeyError "quote not found")
  | Some _ =>
      let! id := new_id "neg" in
      let n := MkNegotiation id quote_id [] "open" None (p_now p) in
      put_negotiation id n ;;;
      py_ret n
  end.

Definition propose (negotiation_id role amount note : string) : MP Negotiation :=
  let! p := py_get in
  let! n := item (negotiations p) negotiation_id in
  let n := MkNegotiation (n_id n) (n_quote_id n) (n_messages n ++ [Message (p_now p) role amount note])%list
             (n_status n) (n_agreed_amount_usdc n) (n_created_at n) in
  put_negotiation negotiation_id n ;;;
  py_ret n.

(** [agree]: the negotiation is changed before its quote is looked up. *)
Definition agree (negotiation_id amount : string) : MP Negotiation :=
  let! p := py_get in
  let! n := item (negotiations p) negotiation_id in
  let n := MkNegotiation (n_id n) (n_quote_id n) (n_messages n) "agreed" (Some amount) (n_created_at n) in
  put_negotiation negotiation_id n ;;;
  let! q := item (quotes p) (n_quote_id n) in
  put_quote (n_quote_id n)
    (MkQuote (q_id q) (q_offer_id q) (q_buyer q) (q_seller q) amount (q_terms q) "accepted"
       (q_created_at q) (q_expires_at q)) ;;;
  py_ret n.

Definition build_intent_package (env : intent_env) (a : intent_args) : MP IntentPackage :=
  let! p := py_get in
  let typed := typed_data env (p_now p) a in
  let! id := new_id "int" in
  let pkg := MkIntent id (a_order_id a) typed (intent_digest typed) None None "draft" (p_now p) in
  put_intent id pkg ;;;
  py_ret pkg.

Definition set_signatures (buyer seller : option string) (s : string) (i : IntentPackage) : IntentPackage :=
  MkIntent (i_id i) (i_order_id i) (i_typed_data i) (i_digest i) buyer seller s (i_created_at i).

(** What [sign_intent] does to the package; [None] for an unknown role. *)
Definition signed (role signature : string) (i : IntentPackage) : option IntentPackage :=
  let i' :=
    if str_eqb role "buyer" then
      Some (set_signatures (Some signature) (i_seller_signature i)
              (if negb (truthy_str (i_seller_signature i)) then "buyer_signed" else "fully_signed") i)
    else if str_eqb role "seller" then
      Some (set_signatures (i_buyer_signature i) (Some signature)
              (if truthy_str (i_buyer_signature i) then "fully_signed" else "draft") i)
    else None in
  (fun i' => if truthy_str (i_buyer_signature i') && truthy_str (i_seller_signature i')
             then set_signatures (i_buyer_signature i') (i_seller_signature i') "fully_signed" i'
             else i') <$> i'.

Definition sign_intent (intent_id role signature : string) : MP IntentPackage :=
  let! p := py_get in
  let! i := item (intents p) intent_id in
  match signed role signature i with
  | None => py_raise (ValueError "role must be buyer|seller")
  | Some i' => put_intent intent_id i' ;;; py_ret i'
  end.

Definition get_quote (p : pipeline) (quote_id : string) : option Quote := quotes p !! quote_id.
Definition get_intent (p : pipeline) (intent_id : string) : option IntentPackage := intents p !! intent_id.

Inductive pipeline_op : Type :=
| CreateQuote (offer_id buyer seller amount : string) (terms : list (string * json)) (ttl_seconds : Z)
| StartNegotiation (quote_id : string)
| Propose (negotiation_id role amount note : string)
| Agree (negotiation_id amount : string)
| BuildIntentPackage (env : intent_env) (a : intent_args)
| SignIntent (intent_id role signature : string)
| SetClock (t : Z).

Definition pipeline_step (op : pipeline_op) (p : pipeline) : pipeline :=
  match op with
  | CreateQuote o b s a t ttl => run_state (create_quote o b s a t ttl) p
  | StartNegotiation q => run_state (start_negotiation q) p
  | Propose n r a t => run_state (propose n r a t) p
  | Agree n a => run_state (agree n a) p
  | BuildIntentPackage e a => run_state (build_intent_package e a) p
  | SignIntent i r s => run_state (sign_intent i r s) p
  | SetClock t => Pipeline (quotes p) (negotiations p) (intents p) t (p_drawn p)
  end.
Definition pipeline_run (ops : list pipeline_op) (p : pipeline) : pipeline :=
  fold_left (fun p op => pipeline_step op p) ops p.
End Pipeline.

(** ** The digest commits to the intent *)

Lemma typed_text_inj t t' : typed_text t = typed_text t' -> canon (JObj t) = canon (JObj t').
Proof. intros H%utf8_inj. apply (dumps_inj compact_sorted eq_refl); [by exists ""|done]. Qed.

Lemma scope_text_inj s s' : scope_text s = scope_text s' -> canon (JObj s) = canon (JObj s').
Proof. intros H%utf8_inj. apply (dumps_inj spaced_sorted eq_refl); [by exists " "|done]. Qed.

Lemma typed_document_inj c k o b s a h d c' k' o' b' s' a' h' d' :
  canon (JObj (typed_document c k o b s a h d)) = canon (JObj (typed_document c' k' o' b' s' a' h' d')) ->
  c = c' /\ k = k' /\ o = o' /\ b = b' /\ s = s' /\ a = a' /\ h = h' /\ d = d'.
Proof. intros H. vm_compute in H. injection H as -> -> -> -> -> -> -> ->. done. Qed.

Lemma build_intent_result token_hex env a p i :
  run_outcome (build_intent_package token_hex env a) p = Ret i ->
  i_order_id i = a_order_id a /\ i_typed_data i = typed_data env (p_now p) a
  /\ i_digest i = intent_digest (i_typed_data i).
Proof.
  unfold build_intent_package, run_outcome, py_bind, py_get, new_id, put_intent, py_modify, py_ret.
  cbv beta iota zeta. cbn [snd]. intros H. by injection H as <-.
Qed.

(** The digest both parties sign commits to the intent: packages built with
    one digest have the same order, wallets (up to case), amount, chain,
    contract, deadline and scope (up to the order of its keys), or a SHA-256
    collision between the hashed texts or scopes. *)
Theorem intent_digest_binding token_hex env a p i env' a' p' i' :
  run_outcome (build_intent_package token_hex env a) p = Ret i ->
  run_outcome (build_intent_package token_hex env' a') p' = Ret i' ->
  i_digest i = i_digest i' ->
  (a_order_id a = a_order_id a'
   /\ py_lower (a_buyer_wallet a) = py_lower (a_buyer_wallet a')
   /\ py_lower (a_seller_wallet a) = py_lower (a_seller_wallet a')
   /\ a_amount_usdc a = a_amount_usdc a'
   /\ chain_of env (a_chain_id a) = chain_of env' (a_chain_id a')
   /\ contract_of env = contract_of env' /\ p_now p = p_now p'
   /\ canon (JObj (a_scope a)) = canon (JObj (a_scope a')))
  \/ sha256_collides (typed_text (i_typed_data i)) (typed_text (i_typed_data i'))
  \/ sha256_collides (scope_text (a_scope a)) (scope_text (a_scope a')).
Proof.
  intros (_ & Ht & Hd)%build_intent_result (_ & Ht' & Hd')%build_intent_result H.
  rewrite Hd, Hd' in H. apply hex_digest_binds in H as [H|Hc]; [|by right; left].
  apply typed_text_inj in H. rewrite Ht, Ht' in H.
  apply typed_document_inj in H as (Hc & Hk & Ho & Hb & Hs & Ha & Hh & Hn).
  unfold scope_hash in Hh. apply sapp_inv_head in Hh.
  apply hex_digest_binds in Hh as [Hh|Hcol]; [left|by right; right].
  do 6 (split; [done|]). split; [lia|]. by apply scope_text_inj.
Qed.

(** ** Signatures *)

(** The status [sign_intent] means: what the parties have signed. *)
Definition status_of (buyer seller : option string) : string :=
  match truthy_str buyer, truthy_str seller with
  | true, true => "fully_signed"
  | true, false => "buyer_signed"
  | false, _ => "draft"
  end.

(** The status tells the signatures, and the digest is that of the data. *)
Record intent_ok (i : IntentPackage) : Prop := {
  io_status : i_status i = status_of (i_buyer_signature i) (i_seller_signature i);
  io_digest : i_digest i = intent_digest (i_typed_data i)
}.

Lemma signed_ok role signature i i' :
  signature <> "" -> intent_ok i -> signed role signature i = Some i' ->
  intent_ok i' /\ i_typed_data i' = i_typed_data i /\ i_digest i' = i_digest i
  /\ (i_buyer_signature i = i_buyer_signature i' \/ role = "buyer" /\ i_buyer_signature i' = Some signature)
  /\ (i_seller_signature i = i_seller_signature i' \/ role = "seller" /\ i_seller_signature i' = Some signature).
Proof.
  intros Hne [Hs Hd]. assert (Ht : truthy_str (Some signature) = true).
  { cbn. by rewrite negb_true_iff, str_eqb_ne. }
  unfold signed. destruct (str_eqb role "buyer") eqn:Eb.
  - apply bool_decide_eq_true in Eb. cbn -[truthy_str]. rewrite Ht.
    destruct (truthy_str (i_seller_signature i)) eqn:Es; cbn -[truthy_str]; intros [= <-];
      (split; [split; [cbn -[truthy_str]; unfold status_of; by rewrite Ht, Es|done]|]); cbn; auto 10.
  - destruct (str_eqb role "seller") eqn:Es; [|done]. apply bool_decide_eq_true in Es.
    cbn -[truthy_str]. rewrite Ht.
    destruct (truthy_str (i_buyer_signature i)) eqn:E; cbn -[truthy_str]; intros [= <-];
      (split; [split; [cbn -[truthy_str]; unfold status_of; by rewrite E, ?Ht|done]|]); cbn; auto 10.
Qed.

(** Operations that sign with a signature, not with the empty text. *)
Definition signs (op : pipeline_op) : Prop :=
  match op with SignIntent _ _ s => s <> "" | _ => True end.

(** The packages of [p] tell what [past] signed. *)
Definition intents_ok (past : list pipeline_op) (p : pipeline) : Prop :=
  forall k i, intents p !! k = Some i ->
    intent_ok i
    /\ (forall s, i_buyer_signature i = Some s -> SignIntent k "buyer" s ∈ past)
    /\ (forall s, i_seller_signature i = Some s -> SignIntent k "seller" s ∈ past).

Lemma intents_ok_mono past op p : intents_ok past p -> intents_ok (past ++ [op]) p.
Proof.
  intros H k i Hi. destruct (H k i Hi) as (Hok & Hb & Hs).
  split; [done|]. split; intros s Hx; apply elem_of_app; left; auto.
Qed.

Lemma same_intents past p p' : intents p' = intents p -> intents_ok past p -> intents_ok past p'.
Proof. intros E H k i. rewrite E. apply H. Qed.

Lemma sign_intent_ok past k role s p token_hex :
  s <> "" -> intents_ok past p ->
  intents_ok (past ++ [SignIntent k role s]) (pipeline_step token_hex (SignIntent k role s) p).
Proof.
  intros Hne H. cbn [pipeline_step]. unfold run_state, sign_intent, py_bind, py_get, item.
  destruct (intents p !! k) as [i|] eqn:Hi; [|by apply intents_ok_mono].
  cbv beta iota zeta delta [py_ret]. destruct (signed role s i) as [i'|] eqn:Hs; [|by apply intents_ok_mono].
  cbn. intros j x Hx. cbn in Hx. destruct (decide (j = k)) as [->|Hj].
  - rewrite lookup_insert_eq in Hx. injection Hx as <-. destruct (H k i Hi) as (Hok & Hb & Hse).
    destruct (signed_ok role s i i' Hne Hok Hs) as (Hok' & _ & _ & Hb' & Hs').
    split; [done|]. split; intros s' Hx; apply elem_of_app.
    + destruct Hb' as [E|[-> E]]; [left; apply Hb; by rewrite E|]. right.
      rewrite E in Hx. injection Hx as <-. by apply list_elem_of_singleton.
    + destruct Hs' as [E|[-> E]]; [left; apply Hse; by rewrite E|]. right.
      rewrite E in Hx. injection Hx as <-. by apply list_elem_of_singleton.
  - rewrite lookup_insert_ne in Hx by done. by apply (intents_ok_mono past _ p H j x).
Qed.

Lemma build_intent_ok past env a p token_hex :
  intents_ok past p ->
  intents_ok (past ++ [BuildIntentPackage env a]) (pipeline_step token_hex (BuildIntentPackage env a) p).
Proof.
  intros H%(intents_ok_mono _ (BuildIntentPackage env a)).
  cbn [pipeline_step]. unfold run_state, build_intent_package, new_id, put_intent, py_bind, py_get, py_modify, py_ret.
  cbv beta iota zeta. intros k i. cbn [fst intents]. rewrite lookup_insert. case_decide; [|by apply H].
  intros [= <-]. done.
Qed.

Lemma other_intents token_hex op p :
  match op with SignIntent _ _ _ | BuildIntentPackage _ _ => False | _ => True end ->
  intents (pipeline_step token_hex op p) = intents p.
Proof.
  destruct op as [o b s a t ttl|q|n r a t|n a|e a|i r s|t]; try done; intros _;
    cbn [pipeline_step]; unfold run_state.
  - unfold start_negotiation, py_bind, py_get. by destruct (quotes p !! q).
  - unfold propose, py_bind, py_get, item. by destruct (negotiations p !! n).
  - unfold agree, py_bind, py_get, item. destruct (negotiations p !! n) as [x|]; [|done].
    cbn. by destruct (quotes p !! n_quote_id x).
Qed.

Lemma step_intents_ok token_hex past op p :
  signs op -> intents_ok past p -> intents_ok (past ++ [op]) (pipeline_step token_hex op p).
Proof.
  intros Hs H. destruct op as [o b s a t ttl|q|n r a t|n a|e a|i r s|t];
    try (eapply same_intents; [by apply other_intents|by apply intents_ok_mono]).
  - by apply build_intent_ok.
  - by apply sign_intent_ok.
Qed.

Lemma run_intents_ok token_hex ops : forall past p,
  Forall signs ops -> intents_ok past p -> intents_ok (past ++ ops) (pipeline_run token_hex ops p).
Proof.
  induction ops as [|op ops IH]; intros past p Hs H; [by rewrite app_nil_r|].
  inversion Hs as [|? ? Hop Hops]; subst. cbn.
  change (op :: ops) with ([op] ++ ops)%list. rewrite app_assoc. apply IH; [done|].
  by apply step_intents_ok.
Qed.

(** What the status of an intent package says.  After any operations that sign
    with non-empty signatures, a package is [fully_signed] just when both
    parties' signatures are on it, [buyer_signed] when only the buyer's is, and
    [draft] otherwise; each signature was given for this package by a call in
    that party's role; and the digest is still that of the typed data. *)
Theorem intent_status_tells token_hex (ops : list pipeline_op) now k i :
  Forall signs ops -> intents (pipeline_run token_hex ops (empty_pipeline now)) !! k = Some i ->
  i_status i = status_of (i_buyer_signature i) (i_seller_signature i)
  /\ i_digest i = intent_digest (i_typed_data i)
  /\ (forall s, i_buyer_signature i = Some s -> SignIntent k "buyer" s ∈ ops)
  /\ (forall s, i_seller_signature i = Some s -> SignIntent k "seller" s ∈ ops).
Proof.
  intros Hs Hi. destruct (run_intents_ok token_hex ops [] (empty_pipeline now) Hs (fun _ _ Hx => ltac:(done)) k i Hi)
    as ([Hst Hd] & Hb & Hse). done.
Qed.

(** ** Negotiations *)

Section Negotiations.
Context (token_hex : nat -> string) (fresh : Inj (=) (=) token_hex).

Definition agreed (n : Negotiation) : Prop := n_status n = "agreed".

(** Identifiers in use were drawn before, and quotes and negotiations agree. *)
Record nego_ok (p : pipeline) : Prop := {
  no_quote_id : forall k q, quotes p !! k = Some q -> exists d, d < p_drawn p /\ k = "quo_" ++ token_hex d;
  no_nego_id : forall k n, negotiations p !! k = Some n -> exists d, d < p_drawn p /\ k = "neg_" ++ token_hex d;
  no_quote : forall k n, negotiations p !! k = Some n -> is_Some (quotes p !! n_quote_id n);
  no_accepted : forall k q, quotes p !! k = Some q ->
    (q_status q = "open" /\ forall j n, negotiations p !! j = Some n -> n_quote_id n = k -> ~ agreed n)
    \/ (q_status q = "accepted" /\ exists j n, negotiations p !! j = Some n /\ n_quote_id n = k
         /\ agreed n /\ n_agreed_amount_usdc n = Some (q_amount_usdc q))
}.

Lemma token_app_inj (prefix : string) d d' :
  (prefix ++ token_hex d = prefix ++ token_hex d')%string -> d = d'.
Proof. intros H%sapp_inv_head. by apply fresh. Qed.

Lemma new_quote_id p : nego_ok p -> quotes p !! ("quo_" ++ token_hex (p_drawn p)) = None.
Proof.
  intros Hok. destruct (quotes p !! _) as [q|] eqn:E; [|done].
  destruct (no_quote_id p Hok _ _ E) as (d & Hd & Hk%token_app_inj). lia.
Qed.

Lemma new_nego_id p : nego_ok p -> negotiations p !! ("neg_" ++ token_hex (p_drawn p)) = None.
Proof.
  intros Hok. destruct (negotiations p !! _) as [n|] eqn:E; [|done].
  destruct (no_nego_id p Hok _ _ E) as (d & Hd & Hk%token_app_inj). lia.
Qed.

Lemma create_quote_ok o b s a t ttl p :
  nego_ok p -> nego_ok (run_state (create_quote token_hex o b s a t ttl) p).
Proof.
  intros Hok. pose proof (new_quote_id p Hok) as Hnew. destruct Hok as [Hq Hn Hex Hacc].
  unfold run_state, create_quote, new_id, put_quote, py_bind, py_get, py_modify, py_ret.
  cbv beta iota zeta. change ("quo" ++ "_" ++ token_hex (p_drawn p)) with ("quo_" ++ token_hex (p_drawn p)).
  split; cbn [fst quotes negotiations p_drawn].
  - intros k q. rewrite lookup_insert. case_decide as Hk.
    + intros _. exists (p_drawn p). split; [lia|done].
    + intros H. destruct (Hq _ _ H) as (d & Hd & E). exists d. split; [lia|done].
  - intros k n H. destruct (Hn _ _ H) as (d & Hd & E). exists d. split; [lia|done].
  - intros k n H. rewrite lookup_insert. case_decide; [done|]. by apply (Hex k).
  - intros k q. rewrite lookup_insert. case_decide as Hk; [|by apply Hacc].
    intros [= <-]. left. split; [done|]. intros j n Hj E. destruct (Hex j n Hj) as [q Hqq].
    by rewrite E, <- Hk, Hnew in Hqq.
Qed.

Lemma start_negotiation_ok qid p :
  nego_ok p -> nego_ok (run_state (start_negotiation token_hex qid) p).
Proof.
  intros Hok. pose proof (new_nego_id p Hok) as Hnew.
  unfold run_state, start_negotiation, new_id, put_negotiation, py_bind, py_get, py_modify, py_ret.
  destruct (quotes p !! qid) as [q0|] eqn:Eq; [|exact Hok]. destruct Hok as [Hq Hn Hex Hacc].
  cbv beta iota zeta. change ("neg" ++ "_" ++ token_hex (p_drawn p)) with ("neg_" ++ token_hex (p_drawn p)).
  split; cbn [fst quotes negotiations p_drawn].
  - intros k q H. destruct (Hq _ _ H) as (d & Hd & E). exists d. split; [lia|done].
  - intros k n. rewrite lookup_insert. case_decide as Hk.
    + intros _. exists (p_drawn p). split; [lia|done].
    + intros H. destruct (Hn _ _ H) as (d & Hd & E). exists d. split; [lia|done].
  - intros k n. rewrite lookup_insert. case_decide as Hk; [by intros [= <-]; exists q0|apply Hex].
  - intros k q Hk. destruct (Hacc k q Hk) as [[Ho Hno]|[Ha (j & n & Hj & Hr)]].
    + left. split; [done|]. intros j n. rewrite lookup_insert.
      case_decide; [by intros [= <-]|apply Hno].
    + right. split; [done|]. exists j, n. split; [|done]. rewrite lookup_insert_ne; [done|].
      intros <-. by rewrite Hnew in Hj.
Qed.

Lemma propose_ok nid role a note p : nego_ok p -> nego_ok (run_state (propose nid role a note) p).
Proof.
  intros [Hq Hn Hex Hacc].
  unfold run_state, propose, item, put_negotiation, py_bind, py_get, py_modify, py_ret.
  destruct (negotiations p !! nid) as [n0|] eqn:E0; [|by split].
  cbv beta iota zeta. split; cbn [fst quotes negotiations p_drawn]; [done|..].
  - intros k n. rewrite lookup_insert. case_decide as Hk; [|apply Hn].
    subst k. intros _. by apply (Hn nid n0).
  - intros k n. rewrite lookup_insert. case_decide as Hk; [|apply Hex].
    intros [= <-]. by apply (Hex nid n0).
  - intros k q Hk. destruct (Hacc k q Hk) as [[Ho Hno]|[Ha (j & n & Hj & Hr)]].
    + left. split; [done|]. intros j n. rewrite lookup_insert.
      case_decide; [intros [= <-]; by apply (Hno nid n0)|apply Hno].
    + right. split; [done|]. destruct (decide (nid = j)) as [<-|Hne].
      * rewrite E0 in Hj. injection Hj as <-. eexists nid, _. by rewrite lookup_insert_eq.
      * exists j, n. by rewrite lookup_insert_ne.
Qed.

Lemma agree_ok nid a p : nego_ok p -> nego_ok (run_state (agree nid a) p).
Proof.
  intros [Hq Hn Hex Hacc].
  unfold run_state, agree, item, put_negotiation, put_quote, py_bind, py_get, py_modify, py_ret.
  destruct (negotiations p !! nid) as [n0|] eqn:E0; [|by split].
  cbv beta iota zeta. cbn [n_quote_id]. destruct (Hex nid n0 E0) as [q0 Eq]. rewrite Eq.
  split; cbn [fst quotes negotiations p_drawn].
  - intros k q. rewrite lookup_insert. case_decide as Hk; [|apply Hq].
    subst k. intros _. by apply (Hq _ q0).
  - intros k n. rewrite lookup_insert. case_decide as Hk; [|apply Hn].
    subst k. intros _. by apply (Hn nid n0).
  - intros k n Hk. rewrite lookup_insert. case_decide as Hd; [done|]. revert Hk.
    rewrite lookup_insert. case_decide; [intros [= <-]; eauto|apply Hex].
  - intros k q. rewrite lookup_insert. case_decide as Hk.
    + intros [= <-]. right. split; [done|]. eexists nid, _. by rewrite lookup_insert_eq.
    + intros Hkq. destruct (Hacc k q Hkq) as [[Ho Hno]|[Ha (j & n & Hj & Hr)]].
      * left. split; [done|]. intros j n. rewrite lookup_insert.
        case_decide; [intros [= <-] E; by destruct Hk|apply Hno].
      * right. split; [done|]. exists j, n. split; [|done]. rewrite lookup_insert_ne; [done|].
        intros <-. rewrite E0 in Hj. injection Hj as <-. destruct Hk. apply Hr.
Qed.

Lemma same_nego p p' :
  quotes p' = quotes p -> negotiations p' = negotiations p -> p_drawn p <= p_drawn p' ->
  nego_ok p -> nego_ok p'.
Proof.
  intros E1 E2 Hle [Hq Hn Hex Hacc]. split; rewrite ?E1, ?E2; [..|done|done].
  - intros k q H. destruct (Hq _ _ H) as (d & Hd & E). exists d. split; [lia|done].
  - intros k n H. destruct (Hn _ _ H) as (d & Hd & E). exists d. split; [lia|done].
Qed.

Lemma step_nego_ok op p : nego_ok p -> nego_ok (pipeline_step token_hex op p).
Proof.
  destruct op as [o b s a t ttl|q|n r a t|n a|e a|i r s|t]; cbn [pipeline_step].
  - apply create_quote_ok.
  - apply start_negotiation_ok.
  - apply propose_ok.
  - apply agree_ok.
  - apply same_nego; [done|done|]. cbn. lia.
  - assert (H : let p' := run_state (sign_intent i r s) p in
                quotes p' = quotes p /\ negotiations p' = negotiations p /\ p_drawn p' = p_drawn p).
    { unfold run_state, sign_intent, item, put_intent, py_bind, py_get.
      destruct (intents p !! i) as [x|]; [|done]. cbn. by destruct (signed r s x). }
    cbn zeta in H. apply same_nego; [apply H|apply H|]. rewrite (proj2 (proj2 H)). lia.
  - by apply same_nego.
Qed.

Lemma run_nego_ok ops : forall p, nego_ok p -> nego_ok (pipeline_run token_hex ops p).
Proof. induction ops as [|op ops IH]; intros p H; [done|]. by apply IH, step_nego_ok. Qed.

(** Quotes and negotiations agree.  After any operations every negotiation is
    about a quote that exists; a quote is either [open], and then no
    negotiation about it is agreed, or [accepted], and then its amount is the one
    agreed in a negotiation about it.  (Tokens are assumed not to repeat.) *)
Theorem quotes_match_negotiations (ops : list pipeline_op) now :
  let p := pipeline_run token_hex ops (empty_pipeline now) in
  (forall j n, negotiations p !! j = Some n -> is_Some (quotes p !! n_quote_id n))
  /\ (forall k q, quotes p !! k = Some q ->
        (q_status q = "open"
         /\ forall j n, negotiations p !! j = Some n -> n_quote_id n = k -> ~ agreed n)
        \/ (q_status q = "accepted"
            /\ exists j n, negotiations p !! j = Some n /\ n_quote_id n = k /\ agreed n
                 /\ n_agreed_amount_usdc n = Some (q_amount_usdc q))).
Proof.
  intros p. assert (Hp : nego_ok p) by (apply run_nego_ok; by split).
  split; [apply (no_quote p Hp)|apply (no_accepted p Hp)].
Qed.
End Negotiations.

(** ** Examples *)

Section Examples.
#[local] Definition tok (d : nat) : string := py_str_int (Z.of_nat d).
#[local] Definition env : intent_env := IntentEnv None (Some "0xABC").
#[local] Definition args (amount : string) : intent_args :=
  IntentArgs "ord_1" "0xB" "0xS" amount [("task", JStr "review")] None.
#[local] Definition built (amount : string) : IntentPackage :=
  MkIntent "int_0" "ord_1" (typed_data env 7 (args amount)) (intent_digest (typed_data env 7 (args amount)))
    None None "draft" 7.

#[local] Lemma tok_inj : Inj (=) (=) tok.
Proof. intros d d' H%py_str_int_inj. lia. Qed.

(** A buyer's empty signature completes a package the seller has signed. *)
Example empty_signature_completes :
  let p := pipeline_run tok [BuildIntentPackage env (args "5"); SignIntent "int_0" "seller" "sig";
                             SignIntent "int_0" "buyer" ""] (empty_pipeline 7) in
  (i_status <$> intents p !! "int_0") = Some "fully_signed"
  /\ (i_buyer_signature <$> intents p !! "int_0") = Some (Some "").
Proof. by vm_compute. Qed.

(** An expired quote is accepted, and a second agreement replaces the first. *)
Example agreement_is_unchecked :
  let p := pipeline_run tok
    [CreateQuote "off" "b" "s" "10" [] 60; StartNegotiation "quo_0"; StartNegotiation "quo_0";
     Agree "neg_1" "8"; SetClock 1000; Agree "neg_2" "1"] (empty_pipeline 0) in
  (fun q => (q_status q, q_amount_usdc q, q_expires_at q)) <$> quotes p !! "quo_0"
  = Some ("accepted", "1", 60%Z)
  /\ (n_agreed_amount_usdc <$> negotiations p !! "neg_1") = Some (Some "8").
Proof. by vm_compute. Qed.

Lemma intent_digest_binding_witness :
  (a_order_id (args "5") = a_order_id (args "5")
   /\ py_lower (a_buyer_wallet (args "5")) = py_lower (a_buyer_wallet (args "5"))
   /\ py_lower (a_seller_wallet (args "5")) = py_lower (a_seller_wallet (args "5"))
   /\ a_amount_usdc (args "5") = a_amount_usdc (args "5")
   /\ chain_of env (a_chain_id (args "5")) = chain_of env (a_chain_id (args "5"))
   /\ contract_of env = contract_of env /\ p_now (empty_pipeline 7) = p_now (empty_pipeline 7)
   /\ canon (JObj (a_scope (args "5"))) = canon (JObj (a_scope (args "5"))))
  \/ sha256_collides (typed_text (i_typed_data (built "5"))) (typed_text (i_typed_data (built "5")))
  \/ sha256_collides (scope_text (a_scope (args "5"))) (scope_text (a_scope (args "5"))).
Proof.
  apply (intent_digest_binding tok env (args "5") (empty_pipeline 7) (built "5")
           env (args "5") (empty_pipeline 7) (built "5")); reflexivity.
Defined.

#[local] Definition signing : list pipeline_op :=
  [BuildIntentPackage env (args "5"); SignIntent "int_0" "buyer" "sig"].

Lemma intent_status_tells_witness :
  let i := set_signatures (Some "sig") None "buyer_signed" (built "5") in
  i_status i = status_of (i_buyer_signature i) (i_seller_signature i)
  /\ i_digest i = intent_digest (i_typed_data i)
  /\ (forall s, i_buyer_signature i = Some s -> SignIntent "int_0" "buyer" s ∈ signing)
  /\ (forall s, i_seller_signature i = Some s -> SignIntent "int_0" "seller" s ∈ signing).
Proof.
  apply (intent_status_tells tok signing 7 "int_0"); [repeat constructor; discriminate|reflexivity].
Defined.

Lemma quotes_match_negotiations_witness :
  let p := pipeline_run tok [CreateQuote "off" "b" "s" "10" [] 60; StartNegotiation "quo_0"; Agree "neg_1" "8"]
             (empty_pipeline 0) in
  (forall j n, negotiations p !! j = Some n -> is_Some (quotes p !! n_quote_id n))
  /\ (forall k q, quotes p !! k = Some q ->
        (q_status q = "open"
         /\ forall j n, negotiations p !! j = Some n -> n_quote_id n = k -> ~ agreed n)
        \/ (q_status q = "accepted"
            /\ exists j n, negotiations p !! j = Some n /\ n_quote_id n = k /\ agreed n
                 /\ n_agreed_amount_usdc n = Some (q_amount_usdc q))).
Proof. apply (quotes_match_negotiations tok tok_inj). Defined.
End Examples.
