(* ===== verification/VerifierNetwork.v ===== *)
(** * Verifier attestations and challenge windows ([decentralized_verifier/])

    [attestation/aggregator.py] collects signed attestations into a quorum, and
    [challenge/window.py] gates settlement by a timed window.  Recovering the
    signer of an attestation (ECDSA, in an external library or its fallback) is the
    parameter [recover]; the checks [signer.py] makes around it are modelled.  The
    registry, the quorum identifiers and the clock are arguments. *)

From S2P Require Import Prelude PyBytes PyJson PyDatetime.
#[local] Open Scope string_scope.

(** ** Data ([decentralized_verifier/__init__.py]) *)

Record VerifierAttestation := Attestation {
  a_task_id : string;
  bundle_id : string;
  evidence_hash : string;
  cid : string;
  verifier_id : string;
  verifier_wallet : string;
  decision : string;
  reason_codes : list string;
  verified_at : string;
  chain_id : Z;
  contract_address : string;
  signature : string
}.

Inductive QuorumStatus : Type :=
| COLLECTING | ATTESTED_OK | ATTESTED_FAIL | INSUFFICIENT_SIGNATURES.

#[export] Instance QuorumStatus_eq_dec : EqDecision QuorumStatus.
Proof. solve_decision. Defined.

Record AttestationQuorum := Quorum {
  quorum_id : string;
  q_task_id : string;
  q_evidence_hash : string;
  q_threshold : Z;
  q_total_verifiers : Z;
  valid_signatures : Z;
  q_decision : string;
  verifier_ids : list string;
  q_status : QuorumStatus;
  q_created_at : string
}.

Inductive VerifierStatus : Type := ACTIVE | SUSPENDED | SLASHED | V_PENDING.

#[export] Instance VerifierStatus_eq_dec : EqDecision VerifierStatus.
Proof. solve_decision. Defined.

(** The fields of a registry entry the aggregator could consult. *)
Record VerifierNodeInfo := NodeInfo {
  wallet_address : string;
  node_status : VerifierStatus
}.

(** ** The aggregator *)

Record AttestationAggregator := Aggregator {
  threshold : Z;
  total_verifiers : Z;
  verifier_registry : gmap string VerifierNodeInfo
}.

(** [__init__] *)
Definition new_aggregator (t m : Z) (reg : option (gmap string VerifierNodeInfo)) :
    outcome py_exn AttestationAggregator :=
  if (t <? 1)%Z then Raise (ValueError "threshold must be at least 1")
  else if (m <? t)%Z then Raise (ValueError "total_verifiers must be at least threshold")
  else Ret (Aggregator t m (default ∅ reg)).

Section Aggregator.
(** The address recovered from a signature over the attestation's EIP-712 payload;
    [None] when recovery fails. *)
Context (recover : VerifierAttestation -> option string).

(** [verify_attestation] of [signer.py] *)
Definition verify_attestation (a : VerifierAttestation) : bool :=
  if str_eqb (signature a) "" || negb (String.prefix "0x" (signature a)) then false
  else match recover a with
       | Some w => str_eqb (py_lower w) (py_lower (verifier_wallet a))
       | None => false
       end.

(** Step 1: the first attestation of each verifier. *)
Fixpoint dedup (seen : gset string) (l : list VerifierAttestation) : list VerifierAttestation :=
  match l with
  | [] => []
  | a :: r => if bool_decide (verifier_id a ∈ seen) then dedup seen r
              else a :: dedup ({[verifier_id a]} ∪ seen) r
  end.

(** Step 2: an empty registry rejects nobody. *)
Definition registered_active (g : AttestationAggregator) (a : VerifierAttestation) : bool :=
  if bool_decide (verifier_registry g = ∅) then true
  else match verifier_registry g !! verifier_id a with
       | Some n => bool_decide (node_status n = ACTIVE)
       | None => false
       end.

(** Step 3: those that agree with the first one on the evidence. *)
Definition consistent (l : list VerifierAttestation) : list VerifierAttestation :=
  match l with
  | [] => []
  | a :: _ => List.filter (fun x => str_eqb (evidence_hash x) (evidence_hash a)) l
  end.

Definition count_ok (l : list VerifierAttestation) : Z :=
  Z.of_nat (length (List.filter (fun a => str_eqb (decision a) "STRUCT_OK") l)).

Definition compute_verdict (l : list VerifierAttestation) : string :=
  match l with
  | [] => "ATTESTED_FAIL"
  | _ => let ok_count := count_ok l in
         let fail_count := (Z.of_nat (length l) - ok_count)%Z in
         if (fail_count <=? ok_count)%Z then "ATTESTED_OK" else "ATTESTED_FAIL"
  end.

Definition empty_quorum (g : AttestationAggregator) (qid now : string) : AttestationQuorum :=
  Quorum qid "" "" (threshold g) (total_verifiers g) 0 "ATTESTED_FAIL" [] INSUFFICIENT_SIGNATURES now.

(** [collect] *)
Definition collect (g : AttestationAggregator) (qid now : string) (ats : list VerifierAttestation) :
    AttestationQuorum :=
  let deduped := List.filter (registered_active g) (dedup ∅ ats) in
  match deduped with
  | [] => empty_quorum g qid now
  | first :: _ =>
      let valid := List.filter verify_attestation (consistent deduped) in
      let n := Z.of_nat (length valid) in
      Quorum qid (match valid with a :: _ => a_task_id a | [] => "" end) (evidence_hash first)
        (threshold g) (total_verifiers g) n (compute_verdict valid) (map verifier_id valid)
        (if (threshold g <=? n)%Z then ATTESTED_OK else INSUFFICIENT_SIGNATURES) now
  end.

Definition is_quorum_reached (q : AttestationQuorum) : bool := bool_decide (q_status q = ATTESTED_OK).


(** ** Soundness *)

Lemma dedup_sub seen l : forall a, a ∈ dedup seen l -> a ∈ l /\ verifier_id a ∉ seen.
Proof.
  revert seen. induction l as [|b l IH]; intros seen a; cbn; [intros H; by apply elem_of_nil in H|].
  destruct (bool_decide (verifier_id b ∈ seen)) eqn:E.
  - intros H. destruct (IH _ _ H). split; [by right|done].
  - apply bool_decide_eq_false in E. intros [->|H]%elem_of_cons; [split; [by left|done]|].
    destruct (IH _ _ H) as [H1 H2]. split; [by right|]. intros H3. apply H2.
    apply elem_of_union. by right.
Qed.





(** ** What the checks do not rule out *)

(** The registry does not bind a verifier to its wallet: signatures are checked
    against the wallet the attestation itself names.  Whoever controls one wallet
    reaches any quorum alone, by signing in the names of enough active verifiers,
    whatever wallets the registry lists for them. *)
Theorem one_wallet_reaches_quorum g qid now wallet (ids : list string) h (mk : string -> VerifierAttestation) :
  (threshold g <= Z.of_nat (length ids))%Z -> ids <> [] -> NoDup ids ->
  (forall i, i ∈ ids -> exists n, verifier_registry g !! i = Some n /\ node_status n = ACTIVE) ->
  (forall i, i ∈ ids -> verifier_id (mk i) = i /\ verifier_wallet (mk i) = wallet
                        /\ evidence_hash (mk i) = h /\ verify_attestation (mk i) = true) ->
  is_quorum_reached (collect g qid now (map mk ids)) = true.
Proof.
  intros Ht Hne Hnd Hreg Hmk.
  assert (Hd : forall seen l, NoDup l -> (forall i, i ∈ l -> i ∉ seen) ->
            (forall i, i ∈ l -> verifier_id (mk i) = i) -> dedup seen (map mk l) = map mk l).
  { intros seen l. revert seen. induction l as [|i l IH]; intros seen [Hi Hl]%NoDup_cons || (intros seen _);
      [done|]. intros Hs Hv. cbn. rewrite (Hv i) by left.
    rewrite bool_decide_false by (apply Hs; left). f_equal. apply IH; [done| |].
    - intros j Hj [->%elem_of_singleton|Hjs]%elem_of_union; [done|]. apply (Hs j); [by right|done].
    - intros j Hj. apply Hv. by right. }
  assert (Hall : forall (p : VerifierAttestation -> bool) l,
            (forall i, i ∈ l -> p (mk i) = true) -> List.filter p (map mk l) = map mk l).
  { intros p. induction l as [|i l IH]; intros Hp; [done|]. cbn. rewrite (Hp i) by left.
    f_equal. apply IH. intros j Hj. apply Hp. by right. }
  unfold collect. rewrite (Hd ∅ ids Hnd); [|intros i _; apply not_elem_of_empty|by intros i Hi; apply Hmk].
  rewrite (Hall (registered_active g)).
  2: { intros i Hi. unfold registered_active. destruct (Hmk i Hi) as (-> & _).
       destruct (Hreg i Hi) as (n & -> & Hn). by destruct (bool_decide _); [|apply bool_decide_eq_true]. }
  destruct (map mk ids) as [|a l] eqn:E; [by destruct ids|].
  assert (Hc : consistent (a :: l) = a :: l).
  { unfold consistent. rewrite <- E. apply Hall. intros i Hi.
    assert (Ha : evidence_hash a = h).
    { destruct ids as [|j ids]; [done|]. injection E as <- _. by apply Hmk; left. }
    rewrite Ha. destruct (Hmk i Hi) as (_ & _ & -> & _). by apply bool_decide_eq_true. }
  rewrite Hc, <- E, Hall by by intros i Hi; apply Hmk.
  rewrite length_map. unfold is_quorum_reached. cbn [q_status].
  rewrite (proj2 (Z.leb_le _ _) Ht). done.
Qed.

(** One unsigned message silences the network: deduplication and the choice of
    the evidence hash come before the signature check, so an invalid attestation
    that arrives first, in the name of any active verifier and over another hash,
    makes every honest attestation be dropped. *)
Theorem forged_first_blocks_quorum g qid now f ats :
  (1 <= threshold g)%Z -> registered_active g f = true -> verify_attestation f = false ->
  (forall a, a ∈ ats -> evidence_hash a <> evidence_hash f) ->
  let q := collect g qid now (f :: ats) in
  valid_signatures q = 0%Z /\ is_quorum_reached q = false.
Proof.
  intros Ht Hr Hv Hats. unfold collect. cbn [dedup].
  rewrite bool_decide_false by apply not_elem_of_empty. cbn [List.filter]. rewrite Hr.
  set (rest := List.filter (registered_active g) (dedup ({[verifier_id f]} ∪ ∅) ats)).
  assert (Hc : consistent (f :: rest) = [f]).
  { unfold consistent. cbn [List.filter]. unfold str_eqb. rewrite bool_decide_true by done. f_equal.
    assert (Hn : forall l, (forall a, a ∈ l -> evidence_hash a <> evidence_hash f) ->
              List.filter (fun x => bool_decide (evidence_hash x = evidence_hash f)) l = []).
    { induction l as [|x l IH]; intros Hl; [done|]. cbn. rewrite bool_decide_false by (apply Hl; left).
      apply IH. intros a Ha. apply Hl. by right. }
    apply Hn. intros a [Ha _]%list_elem_of_In%filter_In. apply list_elem_of_In, dedup_sub in Ha as [Ha _].
    by apply Hats. }
  rewrite Hc. cbn [List.filter]. rewrite Hv. cbn [length]. unfold is_quorum_reached. cbn [q_status valid_signatures].
  split; [done|]. by rewrite (proj2 (Z.leb_gt _ _)) by lia.
Qed.
End Aggregator.

(** ** The challenge window *)

Inductive ChallengeWindowStatus : Type := W_PENDING | W_OPEN | W_CLOSED | W_DISPUTED.

#[export] Instance ChallengeWindowStatus_eq_dec : EqDecision ChallengeWindowStatus.
Proof. solve_decision. Defined.

Definition ChallengeWindowStatus_value (s : ChallengeWindowStatus) : string :=
  match s with
  | W_PENDING => "pending" | W_OPEN => "open" | W_CLOSED => "closed" | W_DISPUTED => "disputed"
  end.

Inductive ChallengeDecision : Type := UPHELD | OVERRULED.
Definition ChallengeDecision_value (d : ChallengeDecision) : string :=
  match d with UPHELD => "upheld" | OVERRULED => "overruled" end.

Record ChallengeWindow := Window {
  challenge_id : string;
  w_task_id : string;
  w_evidence_hash : string;
  start_at : string;
  end_at : string;
  duration_seconds : Z;
  w_status : ChallengeWindowStatus
}.

Record ChallengeRecord := Challenge {
  c_challenge_id : string;
  c_task_id : string;
  challenger_wallet : string;
  reason_code : string;
  c_evidence_hash : string;
  challenge_evidence_cid : string;
  c_status : string;
  c_decision : string;
  c_created_at : string
}.

(** The manager's table (the challenge, if any, of each task with a window; the
    window object itself is never read from it) and the window object the caller
    passes in, which the methods mutate. *)
Record window_world := WindowWorld {
  windows : gmap string (option ChallengeRecord);
  win : ChallengeWindow
}.

Inductive window_error : Type :=
| WindowValueError (msg : string)
| WindowOverflowError.

Abbreviation MW := (M window_world window_error).
#[local] Open Scope py_scope.

Definition set_w_status (s : ChallengeWindowStatus) (w : window_world) : window_world :=
  let v := win w in
  WindowWorld (windows w)
    (Window (challenge_id v) (w_task_id v) (w_evidence_hash v) (start_at v) (end_at v)
       (duration_seconds v) s).
Definition set_challenge (t : string) (c : ChallengeRecord) (w : window_world) : window_world :=
  WindowWorld (<[t := Some c]> (windows w)) (win w).

(** [duration_seconds or default]: zero asks for the default. *)
Definition window_duration (default_duration : Z) (d : option Z) : Z :=
  match d with
  | Some n => if (n =? 0)%Z then default_duration else n
  | None => default_duration
  end.

(** [open_window]; [task_type] is not used. *)
Definition open_window (default_duration : Z) (t h task_type : string) (d : option Z) (now : datetime)
    (ws : gmap string (option ChallengeRecord)) : outcome window_error window_world :=
  match ws !! t with
  | Some _ => Raise (WindowValueError ("Challenge window already exists for task_id=" ++ t))
  | None =>
      let dur := window_duration default_duration d in
      let start := drop_microsecond now in
      let end_ := (start + dur * US_PER_SECOND)%Z in
      if bool_decide (dt_ok end_)
      then Ret (WindowWorld (<[t := None]> ws)
             (Window ("challenge-" ++ t) t h (isoformat start) (isoformat end_) dur W_OPEN))
      else Raise WindowOverflowError
  end.

(** [_sync_window_status] *)
Definition sync_window_status (now : datetime) : MW unit :=
  let! w := py_get in
  if bool_decide (w_status (win w) = W_OPEN) then
    match fromisoformat (end_at (win w)) with
    | None => py_raise (WindowValueError ("Invalid isoformat string: " ++ end_at (win w)))
    | Some end_ => py_when (end_ <? now)%Z (py_modify (set_w_status W_CLOSED))
    end
  else py_ret tt.

Definition has_status (s : ChallengeWindowStatus) (now : datetime) : MW bool :=
  sync_window_status now ;;;
  let! w := py_get in
  py_ret (bool_decide (w_status (win w) = s)).

Definition is_window_open := has_status W_OPEN.
Definition is_window_closed := has_status W_CLOSED.
Definition can_settle := has_status W_CLOSED.

(** [get_remaining_seconds]: [int(...)] truncates; [now'] is the second clock
    reading. *)
Definition get_remaining_seconds (now now' : datetime) : MW Z :=
  sync_window_status now ;;;
  let! w := py_get in
  if negb (bool_decide (w_status (win w) = W_OPEN)) then py_ret 0%Z
  else match fromisoformat (end_at (win w)) with
       | None => py_raise (WindowValueError ("Invalid isoformat string: " ++ end_at (win w)))
       | Some end_ => py_ret (Z.max 0 (Z.quot (end_ - now') US_PER_SECOND))
       end.

(** [raise_challenge]; [hex8] are the random digits and [created] the timestamp. *)
Definition raise_challenge (challenger reason evidence_cid hex8 created : string) (now : datetime) :
    MW ChallengeRecord :=
  sync_window_status now ;;;
  let! w := py_get in
  let v := win w in
  py_require (bool_decide (w_status v = W_OPEN))
    (WindowValueError ("Cannot raise challenge: window status is "
                         ++ ChallengeWindowStatus_value (w_status v))) ;;;
  match windows w !! w_task_id v with
  | None => py_raise (WindowValueError ("No window state found for task_id=" ++ w_task_id v))
  | Some (Some _) => py_raise (WindowValueError ("Challenge already raised for task_id=" ++ w_task_id v))
  | Some None =>
      let record := Challenge ("challenge-" ++ w_task_id v ++ "-" ++ hex8) (w_task_id v) challenger reason
                      (w_evidence_hash v) evidence_cid "open" "" created in
      py_modify (set_challenge (w_task_id v) record) ;;;
      py_modify (set_w_status W_DISPUTED) ;;;
      py_ret record
  end.

(** [resolve_challenge] *)
Definition resolve_challenge (d : ChallengeDecision) (now : datetime) : MW ChallengeRecord :=
  let! w := py_get in
  let v := win w in
  match windows w !! w_task_id v with
  | Some (Some c) =>
      let c := Challenge (c_challenge_id c) (c_task_id c) (challenger_wallet c) (reason_code c)
                 (c_evidence_hash c) (challenge_evidence_cid c) "resolved" (ChallengeDecision_value d)
                 (c_created_at c) in
      py_modify (set_challenge (w_task_id v) c) ;;;
      match d with
      | UPHELD => py_modify (set_w_status W_DISPUTED)
      | OVERRULED => sync_window_status now
      end ;;;
      py_ret c
  | _ => py_raise (WindowValueError ("No active challenge for task_id=" ++ w_task_id v))
  end.

(** What can happen to a window after it is opened, with the clock of each call. *)
Inductive window_op : Type :=
| IsOpen (now : datetime)
| IsClosed (now : datetime)
| CanSettle (now : datetime)
| Remaining (now now' : datetime)
| RaiseChallenge (challenger reason evidence_cid hex8 created : string) (now : datetime)
| ResolveChallenge (d : ChallengeDecision) (now : datetime).

Definition op_time (op : window_op) : datetime :=
  match op with
  | IsOpen n | IsClosed n | CanSettle n | Remaining n _ | RaiseChallenge _ _ _ _ _ n
  | ResolveChallenge _ n => n
  end.

Definition window_step (op : window_op) (w : window_world) : window_world :=
  match op with
  | IsOpen n => run_state (is_window_open n) w
  | IsClosed n => run_state (is_window_closed n) w
  | CanSettle n => run_state (can_settle n) w
  | Remaining n n' => run_state (get_remaining_seconds n n') w
  | RaiseChallenge c r e h cr n => run_state (raise_challenge c r e h cr n) w
  | ResolveChallenge d n => run_state (resolve_challenge d n) w
  end.
Definition window_run (ops : list window_op) (w : window_world) : window_world :=
  fold_left (fun w op => window_step op w) ops w.

Section WindowFacts.
Context (e : datetime) (He : dt_ok e).
Implicit Types (w : window_world) (n : datetime) (op : window_op).

(** The three situations of an opened window; [late] says whether some call came
    after the end. *)
Inductive window_inv (late : bool) w : Prop :=
| inv_open : w_status (win w) = W_OPEN -> late = false ->
             windows w !! w_task_id (win w) = Some None -> window_inv late w
| inv_closed : w_status (win w) = W_CLOSED -> late = true ->
               windows w !! w_task_id (win w) = Some None -> window_inv late w
| inv_disputed c : w_status (win w) = W_DISPUTED ->
                   windows w !! w_task_id (win w) = Some (Some c) -> window_inv late w.

Definition ends w : Prop := end_at (win w) = isoformat e.

(** Bringing the status up to date never raises. *)
Definition synced n w : window_world :=
  if bool_decide (w_status (win w) = W_OPEN) && (e <? n)%Z then set_w_status W_CLOSED w else w.

Lemma sync_eq n w : ends w -> sync_window_status n w = (synced n w, Ret tt).
Proof.
  intros Hend. unfold sync_window_status, synced, py_bind, py_get.
  destruct (bool_decide (w_status (win w) = W_OPEN)); [|done]. cbn [andb].
  rewrite Hend, iso_roundtrip by done. by destruct (e <? n)%Z.
Qed.

Lemma synced_inv late n w :
  window_inv late w -> ends w -> window_inv (late || (e <? n)%Z) (synced n w) /\ ends (synced n w).
Proof.
  intros Hi Hend. unfold synced. destruct Hi as [Hs -> Hc|Hs -> Hc|c Hs Hc]; rewrite Hs.
  - rewrite bool_decide_true by done. cbn [andb orb]. destruct (e <? n)%Z eqn:E.
    + split; [by apply inv_closed|done].
    + split; [by apply inv_open|done].
  - rewrite bool_decide_false by done. split; [by apply inv_closed|done].
  - rewrite bool_decide_false by done. split; [by eapply inv_disputed|done].
Qed.

Lemma has_status_eq s n w :
  ends w -> has_status s n w = (synced n w, Ret (bool_decide (w_status (win (synced n w)) = s))).
Proof. intros Hend. unfold has_status, py_bind, py_get. by rewrite sync_eq. Qed.

Lemma raise_inv late ch r ev h cr n w :
  window_inv late w -> ends w ->
  window_inv (late || (e <? n)%Z) (run_state (raise_challenge ch r ev h cr n) w)
  /\ ends (run_state (raise_challenge ch r ev h cr n) w).
Proof.
  intros Hi Hend. destruct (synced_inv late n w Hi Hend) as [Hi' Hend'].
  unfold run_state, raise_challenge, py_bind, py_get. rewrite sync_eq by done. cbv beta iota.
  destruct Hi' as [Hs Hl Hc|Hs Hl Hc|c Hs Hc]; rewrite Hs.
  - rewrite bool_decide_true by done. cbn. rewrite Hc. cbn.
    split; [|done]. eapply inv_disputed; [done|]. cbn. apply lookup_insert_eq.
  - rewrite bool_decide_false by done. cbn. split; [by apply inv_closed|done].
  - rewrite bool_decide_false by done. cbn. split; [by eapply inv_disputed|done].
Qed.

(** A challenge that is resolved, either way, leaves the window disputed. *)
Lemma resolve_inv late d n w :
  window_inv late w -> ends w ->
  let w' := run_state (resolve_challenge d n) w in
  (w' = w \/ exists c, w_status (win w') = W_DISPUTED
                       /\ windows w' !! w_task_id (win w') = Some (Some c))
  /\ ends w'.
Proof.
  intros Hi Hend. cbv zeta. unfold run_state, resolve_challenge, py_bind, py_get, py_modify, py_ret.
  destruct Hi as [Hs Hl Hc|Hs Hl Hc|c Hs Hc]; cbv beta iota zeta; rewrite Hc;
    cbv beta iota zeta; [by split; [left|]..|].
  destruct d; cbv beta iota.
  - split; [right|done]. eexists. split; [done|]. apply lookup_insert_eq.
  - rewrite sync_eq by done. unfold synced. cbn. rewrite Hs. cbn. split; [right|done].
    eexists. split; [done|]. apply lookup_insert_eq.
Qed.

(** Every call but a resolution brings an open window up to date with the clock. *)
Definition looks (op : window_op) : bool :=
  match op with ResolveChallenge _ _ => false | _ => true end.
(** Some such call came after the end. *)
Definition any_look (ops : list window_op) : bool :=
  existsb (fun op => looks op && (e <? op_time op)%Z) ops.

Lemma window_step_inv late op w :
  window_inv late w -> ends w ->
  window_inv (late || (looks op && (e <? op_time op)%Z)) (window_step op w) /\ ends (window_step op w).
Proof.
  intros Hi Hend. destruct op as [n|n|n|n n'|ch r ev h cr n|d n]; cbn [window_step looks andb op_time].
  - unfold run_state, is_window_open. rewrite has_status_eq by done. by apply synced_inv.
  - unfold run_state, is_window_closed. rewrite has_status_eq by done. by apply synced_inv.
  - unfold run_state, can_settle. rewrite has_status_eq by done. by apply synced_inv.
  - destruct (synced_inv late n w Hi Hend) as [Hi' Hend'].
    unfold run_state, get_remaining_seconds, py_bind, py_get. rewrite sync_eq by done. cbv beta iota.
    destruct (negb _); [done|]. by rewrite Hend', iso_roundtrip.
  - by apply raise_inv.
  - destruct (resolve_inv late d n w Hi Hend) as [[->|(c & Hs & Hc)] Hend'].
    + rewrite orb_false_r. by split.
    + split; [by eapply inv_disputed|done].
Qed.

Lemma window_run_inv ops late w :
  window_inv late w -> ends w ->
  window_inv (late || any_look ops) (window_run ops w) /\ ends (window_run ops w).
Proof.
  revert late w. induction ops as [|op ops IH]; intros late w Hi Hend.
  { cbn. by rewrite orb_false_r. }
  destruct (window_step_inv late op w Hi Hend) as [Hi' Hend'].
  destruct (IH _ _ Hi' Hend') as [H1 H2]. cbn [any_look existsb]. rewrite orb_assoc. by split.
Qed.

(** A window under dispute stays so. *)
Definition disputed w : Prop :=
  w_status (win w) = W_DISPUTED /\ exists c, windows w !! w_task_id (win w) = Some (Some c).

Lemma disputed_step op w : disputed w -> ends w -> disputed (window_step op w) /\ ends (window_step op w).
Proof.
  intros [Hs [c Hc]] Hend. assert (Hi : window_inv true w) by by eapply inv_disputed.
  destruct (window_step_inv true op w Hi Hend) as [_ Hend']. split; [|done].
  assert (Hsync : forall n, synced n w = w) by (intros n; unfold synced; by rewrite Hs).
  assert (Hw : disputed w) by (split; [done|by exists c]).
  destruct op as [n|n|n|n n'|ch r ev h cr n|d n]; cbn [window_step]; unfold run_state.
  1-3: unfold is_window_open, is_window_closed, can_settle; by rewrite has_status_eq, Hsync.
  - unfold get_remaining_seconds, py_bind, py_get. rewrite sync_eq, Hsync by done. cbv beta iota zeta.
    by rewrite Hs.
  - unfold raise_challenge, py_bind, py_get. rewrite sync_eq, Hsync by done. cbv beta iota zeta.
    by rewrite Hs.
  - destruct (resolve_inv true d n w Hi Hend) as [[Heq|(c2 & H1 & H2)] _]; unfold run_state in *.
    + by rewrite Heq.
    + split; [done|by exists c2].
Qed.

Lemma disputed_run ops w : disputed w -> ends w -> disputed (window_run ops w) /\ ends (window_run ops w).
Proof.
  revert w. induction ops as [|op ops IH]; intros w Hd Hend; [done|].
  destruct (disputed_step op w Hd Hend). by apply (IH (window_step op w)).
Qed.

Lemma raise_disputes ch r ev hx cr n w c :
  ends w -> window_inv false w -> run_outcome (raise_challenge ch r ev hx cr n) w = Ret c ->
  disputed (window_step (RaiseChallenge ch r ev hx cr n) w)
  /\ ends (window_step (RaiseChallenge ch r ev hx cr n) w).
Proof.
  intros Hend Hi Hr. destruct (raise_inv false ch r ev hx cr n w Hi Hend) as [_ Hend1].
  split; [|exact Hend1]. destruct (synced_inv false n w Hi Hend) as [Hi' _].
  cbn [window_step]. unfold run_state, run_outcome, raise_challenge, py_bind, py_get in *.
  rewrite sync_eq in * by done. cbv beta iota zeta in *.
  destruct Hi' as [Hs Hl Hc|Hs Hl Hc|c' Hs Hc]; rewrite Hs in *.
  - rewrite bool_decide_true in * by done. cbn in *. rewrite Hc in *. cbn. split; [done|].
    eexists. apply lookup_insert_eq.
  - rewrite bool_decide_false in Hr by done. done.
  - rewrite bool_decide_false in Hr by done. done.
Qed.
End WindowFacts.

Lemma open_window_inv dflt t h ty d now ws w :
  open_window dflt t h ty d now ws = Ret w ->
  let e := (drop_microsecond now + window_duration dflt d * US_PER_SECOND)%Z in
  dt_ok e /\ ends e w /\ window_inv false w.
Proof.
  intros H e. unfold open_window in H.
  destruct (ws !! t) eqn:E; [done|]. cbv zeta in H. fold e in H.
  destruct (bool_decide (dt_ok e)) eqn:Hd; [|done]. injection H as <-.
  apply bool_decide_eq_true in Hd. split; [done|]. split; [done|].
  apply inv_open; [done|done|]. cbn. apply lookup_insert_eq.
Qed.

(** The settlement gate.  For a window that was opened and then used in any
    way, [can_settle] answers (it never raises), and answers yes exactly when the
    task has no challenge on record and the window's end has passed at this or an
    earlier reading of the clock. *)
Theorem settle_gate dflt t h ty d now ws w ops n :
  open_window dflt t h ty d now ws = Ret w ->
  let e := (drop_microsecond now + window_duration dflt d * US_PER_SECOND)%Z in
  let w' := window_run ops w in
  exists b, run_outcome (can_settle n) w' = Ret b
  /\ (b = true <-> windows w' !! w_task_id (win w') = Some None
                   /\ (any_look e ops = true \/ (e < n)%Z)).
Proof.
  intros Ho e w'. destruct (open_window_inv _ _ _ _ _ _ _ _ Ho) as (He & Hend & Hi). fold e in He, Hend.
  destruct (window_run_inv e He ops false w Hi Hend) as [Hi' Hend']. fold w' in Hi', Hend'.
  unfold run_outcome, can_settle. rewrite (has_status_eq e He) by done. cbn [snd].
  eexists. split; [reflexivity|]. rewrite bool_decide_eq_true.
  unfold synced. destruct Hi' as [Hs Hl Hc|Hs Hl Hc|c Hs Hc]; rewrite Hs; cbn [orb] in *.
  - rewrite bool_decide_true by done. cbn [andb]. rewrite Hc, Hl.
    destruct (Z.ltb_spec e n) as [Hlt|Hge]; cbn.
    + split; [auto|done].
    + rewrite Hs. split; [done|]. intros [_ [H|H]]; [done|lia].
  - rewrite bool_decide_false by done. cbn [andb]. rewrite Hs, Hc, Hl. split; auto.
  - rewrite bool_decide_false by done. cbn [andb]. rewrite Hs, Hc. split; [done|]. by intros [? _].
Qed.

(** A challenge blocks settlement for good, even when it is overruled: once a
    window is disputed no later call, [resolve_challenge] with [OVERRULED]
    included, makes [can_settle] answer yes. *)
Theorem dispute_never_settles dflt t h ty d now ws w ch r ev hx cr at_ ops n c :
  open_window dflt t h ty d now ws = Ret w ->
  run_outcome (raise_challenge ch r ev hx cr at_) w = Ret c ->
  let w' := window_run (RaiseChallenge ch r ev hx cr at_ :: ops) w in
  run_outcome (can_settle n) w' = Ret false.
Proof.
  intros Ho Hr w'. destruct (open_window_inv _ _ _ _ _ _ _ _ Ho) as (He & Hend & Hi).
  set (e := (drop_microsecond now + window_duration dflt d * US_PER_SECOND)%Z) in *.
  destruct (raise_disputes e He ch r ev hx cr at_ w c Hend Hi Hr) as [Hd1 Hend1].
  destruct (disputed_run e He ops _ Hd1 Hend1) as [[Hs _] Hend2].
  unfold run_outcome, can_settle. subst w'.
  change (window_run (RaiseChallenge ch r ev hx cr at_ :: ops) w)
    with (window_run ops (window_step (RaiseChallenge ch r ev hx cr at_) w)).
  rewrite (has_status_eq e He) by done. unfold synced. rewrite Hs. cbn [snd].
  change (bool_decide (W_DISPUTED = W_OPEN)) with false. cbn [andb]. by rewrite Hs.
Qed.

(** ** Witnesses *)

Section Examples.
#[local] Definition sample (i w h sg : string) : VerifierAttestation :=
  Attestation "t1" "b1" h "cid" i w "STRUCT_OK" [] "" 1 "0xreg" sg.
(** A recovery that finds the attacker's wallet behind every signature. *)
#[local] Definition attacker : VerifierAttestation -> option string := fun _ => Some "0xEvil".
#[local] Definition registry : gmap string VerifierNodeInfo :=
  <["v1" := NodeInfo "0xA" ACTIVE]> {["v2" := NodeInfo "0xB" ACTIVE]}.

Lemma one_wallet_reaches_quorum_witness :
  is_quorum_reached (collect attacker (Aggregator 2 5 registry) "q" "now"
    (map (fun i => sample i "0xEvil" "h" "0xsig") ["v1"; "v2"])) = true.
Proof.
  apply (one_wallet_reaches_quorum attacker (Aggregator 2 5 registry) "q" "now" "0xEvil" ["v1"; "v2"] "h"
           (fun i => sample i "0xEvil" "h" "0xsig")).
  - cbn. lia.
  - discriminate.
  - apply NoDup_cons. split; [|apply NoDup_singleton]. intros H%list_elem_of_singleton. discriminate H.
  - intros i Hi. apply list_elem_of_In in Hi as [<-|[<-|[]]]; eexists; split; reflexivity.
  - intros i _. repeat split.
Defined.

Lemma forged_first_blocks_quorum_witness :
  let q := collect attacker (Aggregator 2 5 registry) "q" "now"
    [sample "v1" "0xA" "bad" ""; sample "v1" "0xEvil" "h" "0xsig"; sample "v2" "0xEvil" "h" "0xsig"] in
  valid_signatures q = 0%Z /\ is_quorum_reached q = false.
Proof.
  apply (forged_first_blocks_quorum attacker (Aggregator 2 5 registry) "q" "now"
           (sample "v1" "0xA" "bad" "") [sample "v1" "0xEvil" "h" "0xsig"; sample "v2" "0xEvil" "h" "0xsig"]).
  - cbn. lia.
  - reflexivity.
  - reflexivity.
  - intros a Ha. apply list_elem_of_In in Ha as [<-|[<-|[]]]; discriminate.
Defined.

#[local] Definition opened : window_world :=
  WindowWorld (<["t1" := None]> ∅)
    (Window "challenge-t1" "t1" "h" (isoformat 0) (isoformat (1800 * US_PER_SECOND)) 1800 W_OPEN).

Lemma opened_eq : open_window 1800 "t1" "h" "api" None 0 ∅ = Ret opened.
Proof. by vm_compute. Qed.

Lemma settle_gate_witness :
  let w' := window_run [IsOpen 5] opened in
  exists b, run_outcome (can_settle (1801 * US_PER_SECOND)) w' = Ret b
  /\ (b = true <-> windows w' !! w_task_id (win w') = Some None
                   /\ (any_look (1800 * US_PER_SECOND) [IsOpen 5] = true
                       \/ (1800 * US_PER_SECOND < 1801 * US_PER_SECOND)%Z)).
Proof.
  exact (settle_gate 1800 "t1" "h" "api" None 0 ∅ opened [IsOpen 5] (1801 * US_PER_SECOND) opened_eq).
Defined.

Lemma dispute_never_settles_witness :
  run_outcome (can_settle (9999 * US_PER_SECOND))
    (window_run [RaiseChallenge "0xBob" "mismatch" "cid" "00" "now" 5; ResolveChallenge OVERRULED 10] opened)
  = Ret false.
Proof.
  refine (dispute_never_settles 1800 "t1" "h" "api" None 0 ∅ opened "0xBob" "mismatch" "cid" "00" "now" 5
            [ResolveChallenge OVERRULED 10] (9999 * US_PER_SECOND) _ opened_eq _).
  vm_compute. reflexivity.
Defined.
End Examples.
